(* ===== verification/_CoqProject ===== *)
-Q . S2P
Prelude.v
Words.v
Stream.v
OMap.v
CStr.v
ShaCtx.v
Sha1.v
BSha1.v
Crc32.v
Srp3.v
NumFmt.v
Strtol.v
Storage.v
UserItem.v
UserCache.v
UserDb.v
Framing.v
Packets.v
World.v
Chat.v
ChatInv.v
ChatOps.v
ChatLife.v
ChatTables.v
Commands.v
Handlers.v
ChatSafe.v
ChatClaims.v
Logon.v
ChatDemo.v
Files.v
MxmlNode.v
MxmlTree.v
MxmlEntity.v
MxmlSearch.v
MxmlBuild.v
MxmlLoad.v
MxmlText.v
MxmlGrammar.v
MxmlParse.v
MxmlDoc.v
MxmlRead.v
XmlConf.v
CfgLoad.v
MemCache.v
MemCacheInv.v
MemClaims.v
Time.v
Caches.v
Revision.v
RevisionClaims.v
Ladder.v
XmlLoaders.v
Server.v
Startup.v
Dispatch.v
StageInv.v
Session.v
SessionSafe.v
SessionDemo.v
Baald.v
RealmLogon.v
RealmDemo.v
Shared.v
EvBuffer.v
EvQueue.v
EvRead.v
EvClaims.v
BufEv.v
Net.v
NetSpec.v
NetInv.v
NetSim.v
NetClaims.v
ShalNet.v
BlitzNet.v
Udp.v
Listen.v
