(* ===== verification/Prelude.v ===== *)
(** * Blitz: a verification development for the blitzd Battle.net daemon

    blitzd is a server for the Battle.net protocol family.  A connection
    ([Core::Client]) receives bytes, cuts them into packets and hands each to
    the plugin registered for its code; plugins read the packet from a byte
    stream, use the caches (accounts, channels, games, news, realms, files), and
    send packets back.  Accounts are loaded from and saved to an SQL store;
    passwords are checked by the SRP-3 exchange or by a variant of SHA-1; the
    game version by a formula over the game's files.  Two further daemons
    belong to it: baald, a realm server that checks its clients' logons with
    blitzd, and shald, a memory server with an allocator of its own.  The
    development follows the path from the bytes to the accounts and across the
    daemons.

    ** Files

    Foundations
    - Prelude: notation for byte strings, the error type [result] (value,
      NULL or dangling dereference, out of fuel) with its monad, tactics and
      hint databases.
    - Words: unsigned integers of 8, 16, 32 and 64 bits as [Z], rotation and
      byte order ([Utils::Reverse], common/utils/DataConv.h).
    - Stream: [Utils::Stream] (common/utils/Stream.h), every operation.
    - OMap: [std::map] and the tables keyed by names as sorted association
      lists over a strict weak order.
    - CStr: C strings, the comparisons of common/utils/Memory.cpp, the hash and
      order of blitzd/cache/CacheFunc.h, [SeperateString].

    Cryptography
    - ShaCtx, Sha1, BSha1: common/crypto/SHA1Hash.cpp and
      blitzd/crypto/BSHA1Hash.cpp: context, input loop, padding, result.
    - Crc32: common/crypto/Crc32.cpp.
    - Srp3: blitzd/crypto/BnetSRP3.cpp over the interface [Gmp] (the class
      [GmpLaws] states the documented behaviour of the mpz functions;
      [gmp_ref] is an instance).

    Accounts
    - NumFmt: common/utils/NumberFormatter.h and .cpp, integer overloads.
    - Storage: blitzd/storage: tagged values, the text of the SQL statements
      and the reading of columns.  The store is used by the cache through the
      record [Storage_ops]; [StorageSqlite] implements it over the interface
      [Sqlite] of the library; the class [StorageLaws] is the contract
      the cache relies on, [mem_storage] an instance.
    - UserItem: [UserCacheItem]: profile data and friend lists, over a heap of
      items, because friends are shared pointers to each other.
    - UserCache, UserDb: [UserCache]: the tables, loading, saving.

    Connections, channels, games
    - Framing: [Client::OnRecv] and its [Process...] loops
      (blitzd/core/Client.cpp).
    - Packets: the [Build] of each packet family and the [Pack] of the packets
      (blitzd/packets).
    - World: the state of a running server: heaps of clients, channels and
      games, the tables of pool and caches, the packets sent; a state and
      error monad over it.
    - Chat: the operations of [Client], [ClientPool], [Message],
      [ChannelCache] and [GameCache].
    - ChatInv, ChatOps, ChatLife, ChatTables: the invariant of that state (what
      points to what) and its preservation, operation by operation.
    - Commands: blitzd/core/command: parser, table and commands.
    - Handlers: plugins (blitzd/plugins/bnet, blitzd/plugins/udp).
    - ChatSafe: the events a running server performs, as a step relation, and
      reachable states.
    - ChatClaims, Logon, ChatDemo: the theorems on reachable states, and
      concrete sessions that reach the states they speak of.

    The whole server
    - Files, Time: common/utils/File.cpp (reading), Timestamp and Timespan.
    - Caches: [FileCache], [RealmCache] and [NewsCache] of blitzd/cache.
    - Revision, RevisionClaims: blitzd/cache/CheckRevision.cpp: the formula,
      its parser and interpreter, the table of versions.
    - Ladder: blitzd/games/war3: the ladder blocks clients ask for.
    - Server: the state of blitzd with all caches, and the plugins that use
      them (blitzd/plugins/bnet, file, baal, init).
    - Dispatch: [PluginManager] and the plugin suites; [receive], the server's
      [OnRecv] with its suites.
    - StageInv, Session, SessionSafe, SessionDemo: a logged-in connection from
      its bytes to its handlers.

    Configuration and start
    - MxmlNode, MxmlTree, MxmlBuild: nodes and attributes of mxml (mxml-node.c,
      mxml-attr.c) on a heap of nodes; trees as lists of children; building
      and deleting.
    - MxmlEntity, MxmlSearch: mxml-entity.c and mxml-search.c.
    - MxmlLoad: the parser of mxml-file.c over a string ([mxmlLoadString]).
      MxmlText, MxmlGrammar: the characters and layouts of documents.
      MxmlParse, MxmlDoc, MxmlRead: that the parser reads them.
    - Strtol: the C library's number parsing; XmlConf: common/text/XmlNode.cpp
      and the [Cfg::Load] of the three daemons; CfgLoad: what they read.
    - XmlLoaders: the loaders of channels, versions and ladder from their XML
      files.  Startup: [DaemonLoop::Run] of blitzd up to the network.

    The other daemons, and what all of them stand on
    - Baald: baald/core, baald/plugins, baald/packets.
    - RealmLogon, RealmDemo: the exchanges between blitzd and baald.
    - MemCache, MemCacheInv, MemClaims: shald/cache/MemCache.cpp on a memory of
      64-bit words, the layouts of chunks as its specification, and the
      refinement.
    - Shared: common/utils/SharedPtr.h, counters and objects on a heap.

    Sockets
    - EvBuffer, EvQueue, EvRead, EvClaims: the buffers of libevent (buffer.c):
      chains on a heap, with failing allocations and callbacks; a buffer as a
      queue of bytes.
    - BufEv: its buffered sockets (bufferevent.c, bufferevent_sock.c) and the
      queue of deferred callbacks (event.c), with the sockets of the operating
      system.
    - Net: common/network: [SocketServer], [SocketBase], [SocketBuf] and
      [TcpClient] on these.  The daemon is an argument ([app]: constructor,
      [OnRecv] as a program over the buffer, destructor).
    - NetSpec: the specification, a table of connections with two queues each;
      NetInv, NetSim: the relation between the two and its preservation by
      every operation; NetClaims: the refinement, and the class [Lawful] of
      the daemons that keep the rules of the socket layer.
    - ShalNet: the client class and the pool of shald, an instance of [Lawful].
      BlitzNet: the input loops of blitzd as programs over the buffer, equal to
      those of Framing on the queues.
    - Udp: common/network/UdpSocket.cpp, blitzd/core/BNetUDPServer.cpp and the
      UDP suite.  Listen: [Init], [AddListener] and [Destroy] of the server.

    ** What the theorems show

    - Streams and packets: written fields are read back; cursors stay in the
      buffer; a built packet is a frame the input loops cut out again; the
      loops do not depend on how the network cuts the stream.
    - Cryptography: SHA-1 is the function of FIPS 180 for any split of the
      input; the broken SHA-1 is its compression over the zero-padded message;
      the table-driven CRC is the bit-serial one; both sides of SRP-3 agree.
    - Accounts: lookups by number and by name agree in all reachable states,
      friend marks are symmetric, profile text and saved rows are read back,
      loading ends although friend lists are cyclic.
    - Chat: no event drives a reachable server into a NULL or dangling pointer
      or an endless loop (the friend commands excepted); a chat line reaches
      exactly the channel; a connection is in one place; a game passes to the
      next host and goes with its last member; channel lookup ends.
    - Logon: the old logon accepts exactly the right proof, and an account that
      has been created can log in.
    - Sessions: what a logged-in connection does does not depend on how its
      bytes are cut, through loop, table and handlers; packets of the chat side
      with any bodies are handled without a crash.
    - Version check, caches, ladder: interpreting the generated formula
      computes its meaning, so a genuine client passes; a written news file is
      read back; the ladder blocks are well formed.
    - Configuration: the parser of mxml builds the tree of any well-formed
      document, the entity table is searched correctly, a deleted tree is
      gone and nothing else; the daemons' configuration and blitzd's tables
      are functions of the trees of their files, and with these files the
      start ends in a state the theorems on traffic begin with.
    - Realms: a realm that comes up gets registered; a logon through baald is
      accepted exactly when the proof is right, and the reply of blitzd is one
      that is accepted.
    - Memory: the allocator of shald implements its layouts, blocks keep their
      contents, released memory is available again; adding and removing nodes
      of an XML tree are insertion and removal in lists of children; counted
      pointers delete each object once, with its last pointer.
    - Sockets: a buffer of libevent is a queue of bytes whatever the socket and
      the allocator do; the socket layer on such buffers is a table of
      connections, through accepting, reading, writing, errors, deferred
      callbacks and closing, with the reference counts and descriptors kept
      consistent; a daemon that keeps the rules is served without end; the
      input loops of blitzd, run call by call on the buffer, do what they do
      on a list of bytes; what any datagram does; a failed start leaves no
      descriptor behind.
    - Theorems on behaviour the authors did not intend are stated as the code
      behaves: [MoveFriend_down_loses], [RemoveFriend_result],
      [short_header_swallows], [unknown_friend_crashes], [LoadFromDB_count],
      [literal_injection], [scrambler_reads_stack], [dead_token_crashes],
      [second_logon_orphaned], [left_client_still_talks],
      [by_index_spawns_once], [friend_list_crashes],
      [logon_swallows_the_rest_of_its_read], [channel_list_forgets],
      [write_user_data_crashes], [GetAfter_result], [news_last_character_lost],
      [missing_game_file_crashes], [Alloc_wraps], [Uninit_twice],
      [fileTime_misses_shift], [short_realm_packet_crashes],
      [shipped_conf_defaults], [startup_needs_engine],
      [read_then_add_asserts], [Destroy_reads_freed_event],
      [Init_ports_without_listener].

    ** Conventions

    Pointers are addresses ([nat]) into heaps ([gmap]); [Crash] is the use of a
    NULL or dangling pointer, an out-of-range access or an overrun buffer;
    memory the code reads before writing is an argument ([junk], [ju], [jb]).
    Fuel: [frame_loop] has the number of buffered bytes, of which each round
    drains at least four; [data_loop] the length of the data; [Ensure] one more
    than the names in the channel table, proved enough in [Ensure_finds];
    [LoadUser] takes its fuel as argument, and [LoadUser_terminates] says how
    much is enough; the loops of MemCache have one round per word of the arena
    ([rounds]), and the refinement shows that they end; [news_loop] has the
    length of the text, of which each round takes a character; the loops of
    Baald have one more round than buffered bytes
    ([ProcessBNetRealm_ends], [ProcessBaal_ends]); [mxmlDelete] has two rounds
    per node of the heap, the searches one per node, and the loops of the
    parser one more than characters left; [mxmlDelete_frees],
    [Cfg_Load_reads] and [mxmlLoadString_reads] show that this is enough; the
    loops over the chains of a buffer have two rounds more than chains and the
    doubling of a size 64, which [evbuffer_is_queue] shows to be enough; the
    programs of BlitzNet have a round per buffered byte, as those of Framing.
    Running out is the separate value [NoFuel], which the theorems exclude.
    The events of a socket server are those of one thread, and the theorems on
    it hold while less than a gigabyte waits on a connection, so that the sizes
    of libevent do not wrap.

    ** Not modelled

    Threads and locks (the handlers run on the one thread of the event loop),
    the idle loops and signal handlers of the daemons, the timers of
    [SocketServer], the constructor of [TcpClient] that connects, logging.  Of
    the vendored libraries: sqlite3 and gmp appear as interfaces, zlib's
    compressor as an argument; of libevent what the daemons do not use
    (watermarks, timeouts, rate limits, filters, DNS, HTTP, the backends that
    wait for events), of mxml the writer and the index.  [Client::OnRecv] of
    baald and of shald have another signature than the function the socket
    layer calls, so on the sockets these daemons read nothing (ShalNet); the
    theorems on realms are about these functions given the bytes received.  The
    handlers of blitzd in World and Server keep the packets they send in order;
    BlitzNet joins the loops to the sockets for handlers that are arguments. *)

From Stdlib Require Export ZArith Lia.
From stdpp Require Export base list numbers strings gmap.

#[global] Set Default Goal Selector "!".
#[global] Open Scope Z_scope.

(** ** Notation *)

(** Byte buffers, [std::vector<byte>] and [std::string] alike, are lists of
    integers; [bytes_ok] says that each is an 8-bit unsigned value. *)
Notation bytes := (list Z).

Declare Scope blitz_scope.
Delimit Scope blitz_scope with blitz.

(** A C string literal as the bytes it denotes (without the final NUL). *)
Fixpoint lit (s : string) : bytes :=
  match s with
  | EmptyString => []
  | String c s' => Z.of_N (Ascii.N_of_ascii c) :: lit s'
  end.

Notation "'b#' s" := (lit s%string) (at level 1, s at level 0) : blitz_scope.
#[global] Open Scope blitz_scope.

(** ** Hint databases and tactics *)

Create HintDb blitz.
Create HintDb blitz_len.

(** Bounds produced by [mod] and the side conditions that are linear once
    they are known. *)
Ltac solve_mod :=
  repeat match goal with
    | |- context [?a mod ?n] =>
        lazymatch goal with
        | _ : 0 <= a mod n < n |- _ => fail
        | _ => pose proof (Z.mod_pos_bound a n ltac:(lia))
        end
    end; lia.

(** Case analysis on a boolean test, with the propositional reading. *)
Ltac btest :=
  match goal with
  | |- context [Z.eqb ?a ?b] => destruct (Z.eqb_spec a b)
  | |- context [Z.ltb ?a ?b] => destruct (Z.ltb_spec a b)
  | |- context [Z.leb ?a ?b] => destruct (Z.leb_spec a b)
  | |- context [Nat.eqb ?a ?b] => destruct (Nat.eqb_spec a b)
  | |- context [Nat.ltb ?a ?b] => destruct (Nat.ltb_spec a b)
  | |- context [Nat.leb ?a ?b] => destruct (Nat.leb_spec a b)
  | H : context [Z.eqb ?a ?b] |- _ => destruct (Z.eqb_spec a b)
  | H : context [Z.ltb ?a ?b] |- _ => destruct (Z.ltb_spec a b)
  | H : context [Z.leb ?a ?b] |- _ => destruct (Z.leb_spec a b)
  | H : context [Nat.eqb ?a ?b] |- _ => destruct (Nat.eqb_spec a b)
  | H : context [Nat.ltb ?a ?b] |- _ => destruct (Nat.ltb_spec a b)
  | H : context [Nat.leb ?a ?b] |- _ => destruct (Nat.leb_spec a b)
  end.

(** ** Outcomes *)

(** What a run of the code can do besides returning: [Crash] stands for
    everything the standard leaves undefined (a null or dangling dereference, a
    buffer overrun) and for an uncaught exception; [NoFuel] marks a model run
    that was given too few rounds, and theorems rule it out. *)
Inductive result (A : Type) := Ret (a : A) | Crash | NoFuel.
Arguments Ret {A}. Arguments Crash {A}. Arguments NoFuel {A}.

#[export] Instance result_ret : MRet result := fun _ a => Ret a.
#[export] Instance result_bind : MBind result := fun _ _ f m =>
  match m with Ret a => f a | Crash => Crash | NoFuel => NoFuel end.

(** Dereferencing: an absent value is a crash. *)
Definition deref {A} (o : option A) : result A := match o with Some a => Ret a | None => Crash end.

(** ** Generic lemmas *)

Lemma take_length_app {A} (l k : list A) : take (length l) (l ++ k) = l.
Proof. by rewrite take_app_length. Qed.

Lemma Forall_take_drop {A} (P : A -> Prop) n (l : list A) :
  Forall P l -> Forall P (take n l) /\ Forall P (drop n l).
Proof. intros H. split; [by apply Forall_take | by apply Forall_drop]. Qed.

Lemma mjoin_cons {A} (x : list A) xs : mjoin (x :: xs) = x ++ mjoin xs.
Proof. done. Qed.

Lemma Forall_filter_keep {A} (P Q : A -> Prop) `{!forall x, Decision (Q x)} (l : list A) :
  Forall P l -> Forall P (base.filter Q l).
Proof. rewrite !Forall_forall. intros HP x Hx. apply HP. by apply list_elem_of_filter in Hx as [_ ?]. Qed.

Lemma filter_nil_not_elem_of' {A} (P : A -> Prop) `{!forall x, Decision (P x)} (l : list A) :
  (forall x, P x -> x ∈ l -> False) -> base.filter P l = [].
Proof.
  intros HP. destruct (base.filter P l) as [|x k] eqn:E; [done|]. exfalso.
  assert (x ∈ base.filter P l) as Hx by (rewrite E; left).
  apply list_elem_of_filter in Hx as [? ?]. eauto.
Qed.
