(* ===== verification/Words.v ===== *)
(** * Words: machine integers and their byte images

    [byte], [ushort], [uint] and [uint64] of the sources are 8, 16, 32 and
    64-bit unsigned integers; arithmetic on them wraps.  A scalar put into a
    [Utils::Stream] or read from one is copied byte for byte, so its image is
    the little-endian one of the hosts the server is built for.  The file also
    holds [Utils::Reverse] of common/utils/DataConv.h and the circular shift
    the two hash functions share. *)

From S2P Require Import Prelude.

(** ** Definitions *)

Definition u8 (z : Z) : Z := z mod 2 ^ 8.
Definition u16 (z : Z) : Z := z mod 2 ^ 16.
Definition u32 (z : Z) : Z := z mod 2 ^ 32.
Definition u64 (z : Z) : Z := z mod 2 ^ 64.

Definition byte_ok (b : Z) : Prop := 0 <= b < 256.
Definition bytes_ok (l : bytes) : Prop := Forall byte_ok l.

#[export] Instance byte_ok_dec b : Decision (byte_ok b).
Proof. unfold byte_ok. apply _. Defined.
#[export] Instance bytes_ok_dec l : Decision (bytes_ok l).
Proof. unfold bytes_ok. apply _. Defined.

(** The [n] bytes of the object representation of [v], low byte first. *)
Fixpoint le_bytes (n : nat) (v : Z) : bytes :=
  match n with
  | O => []
  | S n' => v mod 256 :: le_bytes n' (v / 256)
  end.

Fixpoint le_val (l : bytes) : Z :=
  match l with
  | [] => 0
  | b :: l' => b + 256 * le_val l'
  end.

(** [~x] on 32 bits. *)
Definition not32 (x : Z) : Z := u32 (Z.lnot x).

(** [Utils::Reverse]. *)
Definition Reverse (n : Z) : Z :=
  Z.lor (Z.lor (Z.lor (u32 (Z.shiftl (Z.land n 0xFF) 24))
                      (u32 (Z.shiftl (Z.land n 0xFF00) 8)))
               (Z.shiftr (Z.land n 0xFF0000) 8))
        (Z.shiftr (Z.land n 0xFF000000) 24).

(** [SHA1CircularShift(bits,word)] with [word] a [uint] and [0 < bits < 32]. *)
Definition rotl32 (bits word : Z) : Z :=
  Z.lor (u32 (Z.shiftl word bits)) (Z.shiftr word (32 - bits)).

(** ** Lemmas *)

Lemma u8_range z : 0 <= u8 z < 256. Proof. unfold u8. solve_mod. Qed.
Lemma u16_range z : 0 <= u16 z < 65536. Proof. unfold u16. solve_mod. Qed.
Lemma u32_range z : 0 <= u32 z < 2 ^ 32. Proof. unfold u32. solve_mod. Qed.
Lemma u32_small z : 0 <= z < 2 ^ 32 -> u32 z = z.
Proof. intros. by apply Z.mod_small. Qed.
Lemma u16_small z : 0 <= z < 2 ^ 16 -> u16 z = z.
Proof. intros. by apply Z.mod_small. Qed.
Lemma u8_small z : 0 <= z < 2 ^ 8 -> u8 z = z.
Proof. intros. by apply Z.mod_small. Qed.
Lemma u32_idem z : u32 (u32 z) = u32 z.
Proof. apply u32_small, u32_range. Qed.

Lemma length_le_bytes n v : length (le_bytes n v) = n.
Proof. revert v. induction n; simpl; auto. Qed.

Lemma le_bytes_ok n v : bytes_ok (le_bytes n v).
Proof.
  revert v. induction n; intros v; simpl; constructor; [|apply IHn].
  unfold byte_ok. solve_mod.
Qed.

Lemma le_val_le_bytes n v : le_val (le_bytes n v) = v mod 256 ^ Z.of_nat n.
Proof.
  revert v. induction n; intros v; cbn [le_bytes le_val].
  - by rewrite Z.mod_1_r.
  - rewrite IHn, Nat2Z.inj_succ, Z.pow_succ_r by lia.
    rewrite Z.rem_mul_r; lia.
Qed.

Lemma le_val_range l : bytes_ok l -> 0 <= le_val l < 256 ^ Z.of_nat (length l).
Proof.
  induction 1 as [|b l Hb Hl IH]; cbn [le_val length]; [done|].
  rewrite Nat2Z.inj_succ, Z.pow_succ_r by lia. unfold byte_ok in Hb. lia.
Qed.

Lemma le_bytes_le_val l : bytes_ok l -> le_bytes (length l) (le_val l) = l.
Proof.
  induction 1 as [|b l Hb Hl IH]; cbn [le_val length le_bytes]; [done|].
  unfold byte_ok in Hb. rewrite (Z.mul_comm 256).
  rewrite Z.mod_add, Z.div_add, Z.mod_small, Z.div_small by lia.
  by rewrite Z.add_0_l, IH.
Qed.

Lemma le_val_app l k :
  le_val (l ++ k) = le_val l + 256 ^ Z.of_nat (length l) * le_val k.
Proof.
  induction l as [|b l IH]; cbn [le_val length app]; [lia|].
  rewrite IH, Nat2Z.inj_succ, Z.pow_succ_r by lia. lia.
Qed.

Lemma le_bytes_inj l k :
  bytes_ok l -> bytes_ok k -> length l = length k -> le_val l = le_val k -> l = k.
Proof.
  intros Hl Hk Hn Hv.
  by rewrite <- (le_bytes_le_val l), <- (le_bytes_le_val k), Hn, Hv.
Qed.

Lemma bytes_ok_app l k : bytes_ok (l ++ k) <-> bytes_ok l /\ bytes_ok k.
Proof. apply Forall_app. Qed.

Lemma le_bytes_u32 v : le_bytes 4 (u32 v) = le_bytes 4 v.
Proof.
  apply le_bytes_inj; try apply le_bytes_ok; [by rewrite !length_le_bytes|].
  rewrite !le_val_le_bytes. unfold u32.
  change (256 ^ Z.of_nat 4) with (2 ^ 32). by rewrite Z.mod_mod.
Qed.

Lemma land_byte n k :
  0 <= k -> Z.land n (Z.shiftl (Z.ones 8) k) = Z.shiftl ((n / 2 ^ k) mod 2 ^ 8) k.
Proof.
  intros Hk. rewrite <- Z.land_ones, <- Z.shiftr_div_pow2 by lia.
  apply Z.bits_inj'. intros i Hi.
  rewrite Z.land_spec, !Z.shiftl_spec by lia.
  destruct (Z.ltb_spec i k).
  - rewrite (Z.testbit_neg_r (Z.ones 8)), (Z.testbit_neg_r (Z.land _ _)) by lia.
    by rewrite andb_false_r.
  - rewrite Z.land_spec, Z.shiftr_spec by lia. do 2 f_equal. lia.
Qed.

(** Bits below [k] and bits from [k] on do not meet, so [|] is [+]. *)
Lemma lor_shiftl_add x y k :
  0 <= k -> 0 <= x < 2 ^ k -> Z.lor (Z.shiftl y k) x = y * 2 ^ k + x.
Proof.
  intros Hk Hx. rewrite <- Z.shiftl_mul_pow2 by lia.
  rewrite Z.add_nocarry_lor; [done|].
  apply Z.bits_inj'. intros i Hi. rewrite Z.land_spec, Z.bits_0, Z.shiftl_spec by lia.
  destruct (Z.ltb_spec i k); [by rewrite Z.testbit_neg_r by lia|].
  rewrite <- (Z.mod_small x (2 ^ k)), Z.mod_pow2_bits_high by lia. apply andb_false_r.
Qed.

(** [Utils::Reverse] exchanges the four bytes of its argument. *)
Lemma Reverse_le n : 0 <= n < 2 ^ 32 -> Reverse n = le_val (rev (le_bytes 4 n)).
Proof.
  intros Hn. unfold Reverse.
  change 0xFF with (Z.shiftl (Z.ones 8) 0). change 0xFF00 with (Z.shiftl (Z.ones 8) 8).
  change 0xFF0000 with (Z.shiftl (Z.ones 8) 16).
  change 0xFF000000 with (Z.shiftl (Z.ones 8) 24).
  rewrite !land_byte by lia.
  set (a := (n / 2 ^ 0) mod 2 ^ 8). set (b := (n / 2 ^ 8) mod 2 ^ 8).
  set (c := (n / 2 ^ 16) mod 2 ^ 8). set (d := (n / 2 ^ 24) mod 2 ^ 8).
  assert (0 <= a < 256 /\ 0 <= b < 256 /\ 0 <= c < 256 /\ 0 <= d < 256) as (Ha&Hb&Hc&Hd)
    by (subst a b c d; repeat split; solve_mod).
  rewrite !Z.shiftl_shiftl, !Z.shiftr_shiftl_l by lia. 
  change (0 + 24) with 24. change (8 + 8) with 16. change (16 - 8) with 8. change (24 - 24) with 0. rewrite Z.shiftl_0_r.
  unfold u32. rewrite !Z.mod_small by (rewrite Z.shiftl_mul_pow2; lia).
  rewrite <- !Z.lor_assoc. rewrite (lor_shiftl_add d c 8) by lia.
  rewrite (lor_shiftl_add (c * 2 ^ 8 + d) b 16), lor_shiftl_add by lia.
  cbn [le_bytes rev app le_val]. subst a b c d.
  Z.div_mod_to_equations. lia.
Qed.

Lemma Reverse_range n : 0 <= n < 2 ^ 32 -> 0 <= Reverse n < 2 ^ 32.
Proof.
  intros Hn. rewrite Reverse_le by done.
  pose proof (le_val_range (rev (le_bytes 4 n))) as H. rewrite length_rev, length_le_bytes in H.
  apply H, Forall_rev, le_bytes_ok.
Qed.

Lemma Reverse_involutive n : 0 <= n < 2 ^ 32 -> Reverse (Reverse n) = n.
Proof.
  intros Hn. rewrite Reverse_le by (by apply Reverse_range). rewrite (Reverse_le n) by done.
  assert (bytes_ok (rev (le_bytes 4 n))) as Hok by (apply Forall_rev, le_bytes_ok).
  pose proof (le_bytes_le_val _ Hok) as H. rewrite length_rev, length_le_bytes in H.
  rewrite H, rev_involutive, le_val_le_bytes. by apply Z.mod_small.
Qed.

#[export] Hint Resolve le_bytes_ok u8_range u16_range u32_range : blitz.
#[export] Hint Rewrite length_le_bytes : blitz_len.
