(* ===== verification/Stream.v ===== *)
(** * Stream: [Utils::Stream] of common/utils/Stream.h

    The byte buffer with a read cursor in which every packet is built and
    parsed.  [size_t] is 64 bits wide; [_pos] and the lengths are naturals, and
    the one subtraction that can wrap ([_buf.size() - _pos]) is written with
    its wrap.  [wf] is the class invariant [_pos <= _buf.size()]; the reading
    and writing operations keep it, [pop_front] and [remove] may not.

    A scalar extraction copies what is left of the buffer over the object it
    is given, so [read] takes the destination's old bytes: a short buffer
    leaves the tail of the destination as it was. *)

From S2P Require Import Prelude Words.

Record Stream := mkStream { _pos : nat; _buf : bytes }.

Definition empty_stream : Stream := mkStream 0 [].

(** [Stream(const byte * buf, size_t len)]. *)
Definition stream_of (buf : bytes) : Stream := mkStream 0 buf.

Definition size (st : Stream) : nat := length (_buf st).
Definition left (st : Stream) : nat :=
  Z.to_nat (u64 (Z.of_nat (size st) - Z.of_nat (_pos st))).
Definition is_empty (st : Stream) : bool := Nat.eqb (size st) 0.
Definition reset (st : Stream) : Stream := mkStream 0 (_buf st).
Definition clear (st : Stream) : Stream := reset (mkStream (_pos st) []).

(** The loop of [first_of]: the first index from [i] on that holds [b]. *)
Fixpoint first_of_from (i : nat) (b : Z) (l : bytes) : Z :=
  match l with
  | [] => 2 ^ 64 - 1
  | x :: l' => if Z.eqb x b then Z.of_nat i else first_of_from (S i) b l'
  end.
Definition first_of (b : Z) (st : Stream) : Z := first_of_from 0 b (_buf st).

Definition pop_front (n : nat) (st : Stream) : Stream :=
  if Nat.leb (size st) n then mkStream (_pos st) []
  else mkStream (_pos st) (drop n (_buf st)).

Definition remove (s n : nat) (st : Stream) : Stream :=
  if Nat.leb (size st) s then st
  else
    let n := if Nat.ltb (size st) (s + n) then (size st - s)%nat else n in
    mkStream (_pos st) (take s (_buf st) ++ drop (s + n) (_buf st)).

Definition append (b : bytes) (st : Stream) : Stream :=
  mkStream (_pos st) (_buf st ++ b).
Definition prepend (b : bytes) (st : Stream) : Stream :=
  mkStream (_pos st) (b ++ _buf st).
Definition append_zero (len : nat) (st : Stream) : Stream :=
  if Nat.ltb 0 len then append (replicate len 0) st else st.

(** [int read(byte * buf, size_t len)]; [dst] holds the bytes at [buf]. *)
Definition read (dst : bytes) (len : nat) (st : Stream) : Z * bytes * Stream :=
  let len := if Nat.ltb (size st) (_pos st + len) then left st else len in
  if Nat.eqb len 0 then (0, dst, st)
  else (Z.of_nat len,
        take len (drop (_pos st) (_buf st)) ++ drop len dst,
        mkStream (_pos st + len) (_buf st)).

(** [operator>>(T& v)] for a scalar of [n] bytes that holds [old]. *)
Definition get_le (n : nat) (old : Z) (st : Stream) : Z * Stream :=
  let '(_, b, st') := read (le_bytes n old) n st in (le_val b, st').

(** [operator<<(const T& v)] for a scalar of [n] bytes. *)
Definition put_le (n : nat) (v : Z) (st : Stream) : Stream := append (le_bytes n v) st.

Definition get_u8 := get_le 1.
Definition get_u16 := get_le 2.
Definition get_u32 := get_le 4.
Definition get_u64 := get_le 8.
Definition put_u8 := put_le 1.
Definition put_u16 := put_le 2.
Definition put_u32 := put_le 4.
Definition put_u64 := put_le 8.

(** [operator>>(std::vector<byte>& v)] fills the vector it is given. *)
Definition get_bytes (v : bytes) (st : Stream) : bytes * Stream :=
  let '(_, b, st') := read v (length v) st in (b, st').
Definition put_bytes (v : bytes) (st : Stream) : Stream :=
  mkStream (_pos st) (_buf st ++ v).

(** [operator>>(std::vector<T>& v)] and [operator<<(const std::vector<T>& v)]
    for scalars of [k] bytes: a 32-bit count, then the elements.  [n0] is the
    uninitialised [uint n]. *)
Fixpoint get_elems (k : nat) (n : nat) (st : Stream) : list Z * Stream :=
  match n with
  | O => ([], st)
  | S n' => let '(x, st1) := get_le k 0 st in
            let '(xs, st2) := get_elems k n' st1 in (x :: xs, st2)
  end.
Definition get_vector (k : nat) (n0 : Z) (st : Stream) : list Z * Stream :=
  let '(n, st1) := get_u32 n0 st in
  if Z.ltb 0 n then get_elems k (Z.to_nat n) st1 else ([], st1).
Definition put_vector (k : nat) (v : list Z) (st : Stream) : Stream :=
  foldl (fun s x => put_le k x s) (put_u32 (Z.of_nat (length v)) st) v.

(** The bytes of a C string: those before the first NUL. *)
Fixpoint cstr (s : bytes) : bytes :=
  match s with
  | [] => []
  | c :: s' => if Z.eqb c 0 then [] else c :: cstr s'
  end.

(** [operator>>(std::string& v)]. *)
Definition get_str (st : Stream) : bytes * Stream :=
  let s := size st in
  let v := cstr (drop (_pos st) (_buf st)) in
  let n := (_pos st + length v)%nat in
  (v, mkStream (if Nat.eqb n s then n else n + 1) (_buf st)).

(** [operator<<(const std::string& v)] and [operator<<(const char * v)]. *)
Definition put_str (v : bytes) (st : Stream) : Stream :=
  mkStream (_pos st) ((_buf st ++ v) ++ [0]).
Definition put_cstr (v : bytes) (st : Stream) : Stream :=
  mkStream (_pos st) (_buf st ++ (cstr v ++ [0])).

(** [operator+=(uint n)] and [operator-=(uint n)]. *)
Definition skip (n : nat) (st : Stream) : Stream :=
  let p := (_pos st + n)%nat in
  mkStream (if Nat.ltb (size st) p then size st else p) (_buf st).
Definition unskip (n : nat) (st : Stream) : Stream :=
  mkStream (if Nat.ltb (_pos st) n then 0 else _pos st - n)%nat (_buf st).

(** ** The cursor invariant *)

Definition wf (st : Stream) : Prop := (_pos st <= size st)%nat.

#[export] Instance wf_dec st : Decision (wf st).
Proof. unfold wf. apply _. Defined.

(** What is still to be read. *)
Definition rest (st : Stream) : bytes := drop (_pos st) (_buf st).

Lemma length_rest st : length (rest st) = (size st - _pos st)%nat.
Proof. unfold rest. by rewrite length_drop. Qed.

Lemma left_wf st : wf st -> Z.of_nat (size st) < 2 ^ 64 -> left st = (size st - _pos st)%nat.
Proof.
  intros Hwf Hs. unfold left, wf in *. unfold u64. rewrite Z.mod_small by lia. lia.
Qed.

(** ** Reading *)

Lemma read_spec dst len st :
  wf st -> Z.of_nat (size st) < 2 ^ 64 ->
  read dst len st =
    (Z.of_nat (len `min` length (rest st)),
     take (len `min` length (rest st)) (rest st) ++ drop (len `min` length (rest st)) dst,
     mkStream (_pos st + len `min` length (rest st)) (_buf st)).
Proof.
  intros Hwf Hs. set (k := (len `min` length (rest st))%nat). unfold read. rewrite left_wf by done.
  pose proof (length_rest st) as Hr. unfold wf in Hwf.
  assert ((if Nat.ltb (size st) (_pos st + len) then (size st - _pos st)%nat else len) = k)
    as -> by (subst k; rewrite Hr; btest; lia).
  destruct (Nat.eqb_spec k 0) as [->|]; [|done].
  rewrite take_0, drop_0, Nat.add_0_r. by destruct st.
Qed.

(** A well-formed stream that fits in memory. *)
Definition ok (st : Stream) : Prop := wf st /\ Z.of_nat (size st) < 2 ^ 64.

#[export] Instance ok_dec st : Decision (ok st).
Proof. unfold ok. apply _. Defined.

Lemma read_ok dst len st n b st' :
  ok st -> read dst len st = (n, b, st') -> ok st' /\ _buf st' = _buf st.
Proof.
  intros [Hwf Hs]. rewrite read_spec by done. intros [= <- <- <-].
  unfold ok, wf, size in *. pose proof (length_rest st). unfold size in *. simpl. split; [lia|done].
Qed.

(** A read that has enough bytes replaces the whole destination. *)
Lemma read_enough dst len st :
  ok st -> (len <= length (rest st))%nat -> length dst = len ->
  read dst len st =
    (Z.of_nat len, take len (rest st), mkStream (_pos st + len) (_buf st)).
Proof.
  intros [Hwf Hs] Hlen Hd. rewrite read_spec by done. rewrite Nat.min_l by done.
  by rewrite (drop_ge dst), app_nil_r by lia.
Qed.

Lemma get_le_app n v old r st :
  ok st -> rest st = le_bytes n v ++ r ->
  exists st', get_le n old st = (v mod 256 ^ Z.of_nat n, st') /\ ok st' /\ rest st' = r.
Proof.
  intros Hok Hr. unfold get_le.
  assert (n <= length (rest st))%nat by (rewrite Hr, length_app, length_le_bytes; lia).
  rewrite read_enough by (auto using length_le_bytes). eexists. split; [|split].
  - rewrite Hr, <- (length_le_bytes n v) at 1. rewrite take_length_app, le_val_le_bytes. done.
  - destruct Hok as [Hwf Hs]. pose proof (length_rest st). unfold ok, wf, size in *; simpl in *. lia.
  - unfold rest in *; simpl. rewrite <- drop_drop, Hr.
    by rewrite drop_app_length' by (by rewrite length_le_bytes).
Qed.

Lemma cstr_nul_free s r : Forall (fun c => c <> 0) s -> cstr (s ++ 0 :: r) = s.
Proof. induction 1 as [|c s Hc _ IH]; simpl; [done|]. btest; [done|]. by rewrite IH. Qed.

Lemma cstr_id s : Forall (fun c => c <> 0) s -> cstr s = s.
Proof. induction 1 as [|c s Hc _ IH]; simpl; [done|]. btest; [done|]. by rewrite IH. Qed.

Lemma cstr_nz s : Forall (fun c => c <> 0) (cstr s).
Proof. induction s as [|c s IH]; simpl; [constructor|]. btest; [constructor|]. by constructor. Qed.

Lemma cstr_length s : (length (cstr s) <= length s)%nat.
Proof. induction s as [|c s IH]; simpl; [lia|]. btest; simpl; lia. Qed.

Lemma get_str_app s r st :
  ok st -> Forall (fun c => c <> 0) s -> rest st = s ++ 0 :: r ->
  exists st', get_str st = (s, st') /\ ok st' /\ rest st' = r.
Proof.
  intros [Hwf Hs] Hnz Hr. unfold get_str.
  change (drop (_pos st) (_buf st)) with (rest st). rewrite Hr, cstr_nul_free by done.
  pose proof (length_rest st) as Hl. rewrite Hr, length_app in Hl. simpl in Hl.
  unfold ok, wf, size in *. btest; [lia|]. eexists. split; [done|]. simpl. split; [lia|].
  unfold rest in *; simpl.
  replace (_pos st + length s + 1)%nat with (_pos st + (length s + 1))%nat by lia.
  rewrite <- drop_drop, Hr, drop_app_ge by lia.
  by replace (length s + 1 - length s)%nat with 1%nat by lia.
Qed.

Lemma get_str_ok st v st' : ok st -> get_str st = (v, st') -> ok st' /\ _buf st' = _buf st.
Proof.
  intros [Hwf Hs] [= <- <-]. unfold ok, wf, size in *. simpl.
  pose proof (cstr_length (drop (_pos st) (_buf st))) as H. rewrite length_drop in H.
  split; [btest; lia|done].
Qed.

Lemma get_le_ok n old st v st' : ok st -> get_le n old st = (v, st') -> ok st' /\ _buf st' = _buf st.
Proof.
  intros Hok. unfold get_le. destruct (read _ _ _) as [[k b] st1] eqn:E. intros [= <- <-].
  by eapply read_ok.
Qed.

Lemma skip_ok n st : ok st -> ok (skip n st).
Proof. intros [Hwf Hs]. unfold ok, wf, skip, size in *. simpl. btest; lia. Qed.

Lemma unskip_ok n st : ok st -> ok (unskip n st).
Proof. intros [Hwf Hs]. unfold ok, wf, unskip, size in *. simpl. btest; lia. Qed.

(** ** Typed messages

    Every packet of the protocol is a sequence of scalars, NUL-terminated
    strings and raw byte arrays; [put_field] is the [operator<<] (or [append])
    and [get_field] the [operator>>] (or [read]) that the sources use for it. *)

Inductive field :=
  | FInt (width : nat) (v : Z)
  | FStr (s : bytes)
  | FRaw (b : bytes).

Inductive shape := SInt (width : nat) | SStr | SRaw (len : nat).

Definition shape_of (f : field) : shape :=
  match f with
  | FInt n _ => SInt n
  | FStr _ => SStr
  | FRaw b => SRaw (length b)
  end.

(** The values a field can carry: a scalar in range, a NUL-free string. *)
Definition field_ok (f : field) : Prop :=
  match f with
  | FInt n v => 0 <= v < 256 ^ Z.of_nat n
  | FStr s => Forall (fun c => c <> 0) s
  | FRaw b => True
  end.

#[export] Instance field_ok_dec f : Decision (field_ok f).
Proof. destruct f; simpl; apply _. Defined.

Definition put_field (st : Stream) (f : field) : Stream :=
  match f with
  | FInt n v => put_le n v st
  | FStr s => put_str s st
  | FRaw b => append b st
  end.

Definition get_field (sh : shape) (st : Stream) : field * Stream :=
  match sh with
  | SInt n => let '(v, st') := get_le n 0 st in (FInt n v, st')
  | SStr => let '(s, st') := get_str st in (FStr s, st')
  | SRaw n => let '(_, b, st') := read (replicate n 0) n st in (FRaw b, st')
  end.

Definition put_fields (fs : list field) (st : Stream) : Stream := foldl put_field st fs.

Fixpoint get_fields (shs : list shape) (st : Stream) : list field * Stream :=
  match shs with
  | [] => ([], st)
  | sh :: shs' => let '(f, st1) := get_field sh st in
                  let '(fs, st2) := get_fields shs' st1 in (f :: fs, st2)
  end.

(** The bytes a field adds to the buffer. *)
Definition field_bytes (f : field) : bytes :=
  match f with
  | FInt n v => le_bytes n v
  | FStr s => s ++ [0]
  | FRaw b => b
  end.

Definition fields_bytes (fs : list field) : bytes := mjoin (field_bytes <$> fs).

Lemma put_field_bytes f st : put_field st f = mkStream (_pos st) (_buf st ++ field_bytes f).
Proof. destruct f; simpl; [done| |done]. unfold put_str. by rewrite <- app_assoc. Qed.

Lemma put_fields_bytes fs st :
  put_fields fs st = mkStream (_pos st) (_buf st ++ fields_bytes fs).
Proof.
  revert st. induction fs as [|f fs IH]; intros st.
  - unfold fields_bytes; simpl. rewrite app_nil_r. by destruct st.
  - unfold put_fields in *; simpl. rewrite IH, put_field_bytes. simpl.
    by rewrite <- app_assoc.
Qed.

Lemma get_field_app f r st :
  ok st -> field_ok f -> rest st = field_bytes f ++ r ->
  exists st', get_field (shape_of f) st = (f, st') /\ ok st' /\ rest st' = r.
Proof.
  intros Hok Hf Hr. destruct f as [n v|s|b]; cbn [get_field shape_of field_bytes field_ok] in *.
  - destruct (get_le_app n v 0 r st) as (st' & -> & Hok' & Hr'); [done..|].
    rewrite Z.mod_small by done. eauto.
  - destruct (get_str_app s r st) as (st' & -> & Hok' & Hr'); [done..| |eauto].
    by rewrite Hr, <- app_assoc.
  - rewrite read_enough; [|done|rewrite Hr, length_app; lia|apply length_replicate].
    eexists. split; [by rewrite Hr, take_length_app|].
    destruct Hok as [Hwf Hs]. pose proof (length_rest st) as Hl. rewrite Hr, length_app in Hl.
    unfold ok, wf, size in *; simpl. split; [lia|].
    unfold rest in *; simpl. by rewrite <- drop_drop, Hr, drop_app_length.
Qed.

Lemma get_fields_app fs r st :
  ok st -> Forall field_ok fs -> rest st = fields_bytes fs ++ r ->
  exists st', get_fields (shape_of <$> fs) st = (fs, st') /\ ok st' /\ rest st' = r.
Proof.
  intros Hok Hfs. revert st Hok. induction Hfs as [|f fs Hf _ IH]; intros st Hok Hr.
  - simpl. eauto.
  - unfold fields_bytes in Hr; simpl in Hr. rewrite <- app_assoc in Hr.
    destruct (get_field_app f (fields_bytes fs ++ r) st) as (st1 & E1 & Hok1 & Hr1); [done..|].
    destruct (IH st1 Hok1 Hr1) as (st2 & E2 & Hok2 & Hr2).
    exists st2. split; [|done]. cbn [fmap list_fmap get_fields]. rewrite E1.
    change (list_fmap field shape shape_of fs) with (shape_of <$> fs). by rewrite E2.
Qed.



(** The cursor never passes the end of the buffer: every extraction and
    every cursor move keeps [_pos <= _buf.size()], whatever bytes the peer
    sent, and leaves the bytes themselves alone. *)
Theorem stream_cursor_invariant st dst len n old k :
  ok st ->
  (ok (read dst len st).2 /\ _buf (read dst len st).2 = _buf st) /\
  (ok (get_le n old st).2 /\ _buf (get_le n old st).2 = _buf st) /\
  (ok (get_str st).2 /\ _buf (get_str st).2 = _buf st) /\
  ok (skip k st) /\ ok (unskip k st) /\ ok (reset st).
Proof.
  intros Hok. destruct (read dst len st) as [[a b] st1] eqn:E1.
  destruct (get_le n old st) as [v st2] eqn:E2. destruct (get_str st) as [s st3] eqn:E3. simpl.
  split; [by eapply read_ok|]. split; [by eapply get_le_ok|]. split; [by eapply get_str_ok|].
  split; [by apply skip_ok|]. split; [by apply unskip_ok|].
  destruct Hok as [_ Hs]. unfold ok, wf, reset, size in *; simpl. lia.
Qed.

Lemma stream_cursor_invariant_witness :
  ok (skip 36 (stream_of [1; 0; 2])) /\ ok (get_str (stream_of [65; 66])).2.
Proof.
  split.
  - apply (stream_cursor_invariant (stream_of [1; 0; 2]) [] 0 0 0 36).
    apply (bool_decide_unpack _). vm_compute. exact I.
  - apply (stream_cursor_invariant (stream_of [65; 66]) [] 0 0 0 0).
    apply (bool_decide_unpack _). vm_compute. exact I.
Defined.
