(* ===== verification/OMap.v ===== *)
(** * OMap: the standard containers keyed by a comparison

    [std::map], [std::set] and [std::unordered_map] as the sources use them.
    A container is the list of its entries in iteration order.  The ordered
    ones are kept sorted by their comparison; an [unordered_map] is represented
    in the same way (its iteration order is not specified, and the sorted one
    is one of those it may have).  Keys are identified when neither is below
    the other, so an assignment through [operator[]] keeps the key that is
    there, as the C++ containers do. *)

From Stdlib Require Import Sorted.
From S2P Require Import Prelude.

(** What the standard requires of a comparison. *)
Class StrictWeakOrder {K : Type} (less : K -> K -> bool) : Prop := {
  less_irrefl : forall a, less a a = false;
  less_trans : forall a b c, less a b = true -> less b c = true -> less a c = true;
  less_cotrans : forall a b c, less a c = true -> less a b = true \/ less b c = true
}.

Lemma filter_Forall_id {A} (P : A -> Prop) `{!forall x, Decision (P x)} (l : list A) :
  Forall P l -> base.filter P l = l.
Proof. induction 1; [done|]. rewrite filter_cons, decide_True by done. by f_equal. Qed.

Section omap.
Context {K V : Type} (less : K -> K -> bool).

Definition same (a b : K) : bool := negb (less a b) && negb (less b a).

Fixpoint om_find (k : K) (m : list (K * V)) : option V :=
  match m with
  | [] => None
  | (k', v) :: m' => if same k' k then Some v else om_find k m'
  end.

(** [m[k] = v]. *)
Fixpoint om_insert (k : K) (v : V) (m : list (K * V)) : list (K * V) :=
  match m with
  | [] => [(k, v)]
  | (k', v') :: m' =>
      if less k k' then (k, v) :: (k', v') :: m'
      else if less k' k then (k', v') :: om_insert k v m'
      else (k', v) :: m'
  end.

Definition om_erase (k : K) (m : list (K * V)) : list (K * V) :=
  base.filter (fun e => same e.1 k = false) m.

(** The entries from [upper_bound(k)] on. *)
Fixpoint om_upper (k : K) (m : list (K * V)) : list (K * V) :=
  match m with
  | [] => []
  | (k', v) :: m' => if less k k' then (k', v) :: m' else om_upper k m'
  end.

Definition below (a b : K * V) : Prop := less a.1 b.1 = true.
Definition om_sorted (m : list (K * V)) : Prop := StronglySorted below m.

Context `{!StrictWeakOrder less}.

Lemma lirr a : less a a = false.
Proof. apply less_irrefl. Qed.

Lemma same_refl a : same a a = true.
Proof. unfold same. by rewrite lirr. Qed.

Lemma same_sym a b : same a b = same b a.
Proof. unfold same. apply andb_comm. Qed.

Lemma same_spec a b : same a b = true <-> less a b = false /\ less b a = false.
Proof. unfold same. destruct (less a b), (less b a); naive_solver. Qed.

Lemma less_same_l a b c : same a b = true -> less a c = less b c.
Proof.
  rewrite same_spec. intros [H1 H2]. apply eq_true_iff_eq. split; intros H.
  - destruct (less_cotrans a b c H); [congruence|done].
  - destruct (less_cotrans b a c H); [congruence|done].
Qed.

Lemma less_same_r a b c : same a b = true -> less c a = less c b.
Proof.
  rewrite same_spec. intros [H1 H2]. apply eq_true_iff_eq. split; intros H.
  - destruct (less_cotrans c b a H); [done|congruence].
  - destruct (less_cotrans c a b H); [done|congruence].
Qed.

Lemma same_trans a b c : same a b = true -> same a c = same b c.
Proof. intros H. unfold same. by rewrite (less_same_l a b c H), (less_same_r a b c H). Qed.

Lemma less_not_same a b : less a b = true -> same a b = false /\ same b a = false.
Proof. intros H. unfold same. rewrite H. split; [done|]. by rewrite andb_false_r. Qed.

Lemma less_asym a b : less a b = true -> less b a = false.
Proof.
  intros H. destruct (less b a) eqn:E; [|done].
  pose proof (less_trans a b a H E). by rewrite lirr in *.
Qed.

(** *** Lookup *)

Lemma om_find_same k k' m : same k k' = true -> om_find k m = om_find k' m.
Proof.
  intros H. induction m as [|[a v] m IH]; simpl; [done|].
  rewrite (same_sym a k), (same_sym a k'), (same_trans k k' a H). by destruct (same k' a).
Qed.

Lemma om_find_insert k v m : om_find k (om_insert k v m) = Some v.
Proof.
  induction m as [|[a w] m IH]; simpl; [by rewrite same_refl|].
  destruct (less k a) eqn:E1; simpl; [by rewrite same_refl|].
  destruct (less a k) eqn:E2; simpl; unfold same at 1; rewrite E1, E2; [done|done].
Qed.

Lemma om_find_insert_ne k k' v m :
  same k k' = false -> om_find k' (om_insert k v m) = om_find k' m.
Proof.
  intros H. induction m as [|[a w] m IH]; simpl; [by rewrite H|].
  destruct (less k a) eqn:E1; simpl; [by rewrite H|].
  destruct (less a k) eqn:E2; simpl; [by rewrite IH|].
  assert (same a k = true) as Hs by (apply same_spec; auto).
  by rewrite (same_trans a k k' Hs), H.
Qed.

Lemma om_find_erase k m : om_find k (om_erase k m) = None.
Proof.
  unfold om_erase. induction m as [|[a w] m IH]; simpl; [done|].
  rewrite filter_cons. case_decide as Hd; simpl in *; [|done]. by rewrite Hd.
Qed.

Lemma om_find_erase_ne k k' m :
  same k k' = false -> om_find k' (om_erase k m) = om_find k' m.
Proof.
  intros H. unfold om_erase. induction m as [|[a w] m IH]; simpl; [done|].
  rewrite filter_cons. case_decide as Hd; simpl in *.
  - by rewrite IH.
  - rewrite IH. destruct (same a k) eqn:E; [|done].
    by rewrite (same_trans a k k' E), H.
Qed.

(** *** Order *)

Lemma om_insert_elem k v m e :
  e ∈ om_insert k v m -> (same e.1 k = true /\ e.2 = v) \/ e ∈ m.
Proof.
  induction m as [|[a w] m IH]; simpl.
  - rewrite list_elem_of_singleton. intros ->. left. simpl. by rewrite same_refl.
  - destruct (less k a) eqn:E1; [|destruct (less a k) eqn:E2]; rewrite !elem_of_cons.
    + intros [->|[->|H]]; [left; by rewrite same_refl|auto..].
    + intros [->|H]; [auto|]. destruct (IH H); auto.
    + intros [->|H]; [left; split; [by apply same_spec|done]|auto].
Qed.

Lemma om_insert_sorted k v m : om_sorted m -> om_sorted (om_insert k v m).
Proof.
  unfold om_sorted. induction 1 as [|[a w] m Hm IH Ha]; simpl; [repeat constructor|].
  destruct (less k a) eqn:E1; [|destruct (less a k) eqn:E2].
  - constructor; [by constructor|]. constructor; [done|].
    eapply Forall_impl; [exact Ha|]. intros [b x]. unfold below; simpl.
    intros Hab. by eapply less_trans.
  - constructor; [done|]. rewrite Forall_forall in Ha |- *. intros [b x] Hb. unfold below; simpl.
    apply om_insert_elem in Hb as [[Hb _]|Hb]; [|by apply (Ha (b, x))].
    simpl in Hb. by rewrite (less_same_r b k a Hb).
  - constructor; [done|]. eapply Forall_impl; [exact Ha|]. by intros [b x].
Qed.

Lemma om_filter_sorted (P : K * V -> Prop) `{!forall e, Decision (P e)} m :
  om_sorted m -> om_sorted (base.filter P m).
Proof.
  unfold om_sorted. induction 1 as [|e m Hm IH He]; [constructor|].
  rewrite filter_cons. case_decide; [|done]. constructor; [done|].
  rewrite Forall_forall in He |- *. intros x Hx. apply He. by apply list_elem_of_filter in Hx as [_ ?].
Qed.

Lemma om_erase_sorted k m : om_sorted m -> om_sorted (om_erase k m).
Proof. apply om_filter_sorted. Qed.

Lemma om_find_Some k v m :
  om_find k m = Some v -> exists k', (k', v) ∈ m /\ same k' k = true.
Proof.
  induction m as [|[a w] m IH]; simpl; [done|]. destruct (same a k) eqn:E.
  - intros [= ->]. exists a. split; [left|done].
  - intros H. destruct (IH H) as (k' & Hin & Hs). exists k'. split; [by right|done].
Qed.

Lemma om_find_elem k v m : om_sorted m -> (k, v) ∈ m -> om_find k m = Some v.
Proof.
  unfold om_sorted. induction 1 as [|[a w] m Hm IH Ha]; intros Hin; [by apply not_elem_of_nil in Hin|].
  simpl. apply elem_of_cons in Hin as [[= -> ->]|Hin]; [by rewrite same_refl|].
  rewrite Forall_forall in Ha. pose proof (Ha _ Hin) as Hb. unfold below in Hb; simpl in Hb.
  destruct (less_not_same _ _ Hb) as [-> _]. auto.
Qed.

Lemma om_sorted_keys m : om_sorted m -> NoDup (fst <$> m).
Proof.
  unfold om_sorted. induction 1 as [|[a w] m Hm IH Ha]; [constructor|]. rewrite fmap_cons. constructor; [|done].
  intros Hin. apply list_elem_of_fmap in Hin as ([b x] & Hab & Hin). simpl in Hab. subst b.
  rewrite Forall_forall in Ha. specialize (Ha _ Hin). unfold below in Ha; simpl in Ha. by rewrite lirr in Ha.
Qed.

Lemma om_find_None k v k' m : om_find k m = None -> (k', v) ∈ m -> same k' k = false.
Proof.
  induction m as [|[a w] m IH]; simpl; [by rewrite elem_of_nil|].
  destruct (same a k) eqn:E; [done|]. rewrite elem_of_cons. intros H [[= -> ->]|Hin]; auto.
Qed.

Lemma om_insert_fresh_length k v m :
  om_find k m = None -> length (om_insert k v m) = S (length m).
Proof.
  induction m as [|[a w] m IH]; simpl; [done|]. destruct (same a k) eqn:E; [done|].
  intros H. destruct (less k a) eqn:E1; [done|]. destruct (less a k) eqn:E2; simpl; [by rewrite IH|].
  assert (same a k = true) by (apply same_spec; auto). congruence.
Qed.

Lemma om_insert_length_le k v m : (length (om_insert k v m) <= length m + 1)%nat.
Proof. induction m as [|[a w] m IH]; simpl; [lia|]. destruct (less k a); simpl; [lia|]. destruct (less a k); simpl; lia. Qed.

Lemma om_insert_old_length k v w m :
  om_sorted m -> om_find k m = Some w -> length (om_insert k v m) = length m.
Proof.
  unfold om_sorted. induction 1 as [|[a x] m Hm IH Ha]; simpl; [done|].
  destruct (same a k) eqn:E.
  - apply same_spec in E as [-> ->]. done.
  - intros H. destruct (less k a) eqn:E1; simpl.
    + apply om_find_Some in H as (k' & Hin & Hs). rewrite Forall_forall in Ha.
      pose proof (Ha _ Hin) as Hb. unfold below in Hb; simpl in Hb.
      rewrite (less_same_r k' k a Hs) in Hb. by rewrite (less_asym _ _ E1) in Hb.
    + destruct (less a k) eqn:E2; simpl; [by rewrite IH|done].
Qed.

Lemma om_insert_last k v m :
  Forall (fun e => less e.1 k = true) m -> om_insert k v m = m ++ [(k, v)].
Proof.
  induction 1 as [|[a w] m Ha Hm IH]; simpl in *; [done|].
  rewrite (less_asym _ _ Ha), Ha. by f_equal.
Qed.

(** Inserting the entries of a sorted container one by one rebuilds it. *)
Lemma om_rebuild m m0 :
  om_sorted (m0 ++ m) -> foldl (fun m e => om_insert e.1 e.2 m) m0 m = m0 ++ m.
Proof.
  revert m0. induction m as [|[k v] m IH]; intros m0 Hs; simpl; [by rewrite app_nil_r|].
  rewrite om_insert_last.
  - rewrite IH; rewrite <- app_assoc; done.
  - clear IH. unfold om_sorted in Hs. induction m0 as [|e m0 IH0]; [constructor|].
    simpl in Hs. apply StronglySorted_inv in Hs as [Hs He]. constructor; [|by apply IH0].
    rewrite Forall_forall in He. apply (He (k, v)). apply elem_of_app. right. by left.
Qed.

(** *** Upper bound *)

Lemma om_upper_spec k m :
  om_sorted m -> om_upper k m = base.filter (fun e => less k e.1 = true) m.
Proof.
  unfold om_sorted. induction 1 as [|[a w] m Hm IH Ha]; simpl; [done|].
  rewrite filter_cons. destruct (less k a) eqn:E; simpl.
  - rewrite decide_True by done. f_equal. symmetry. apply filter_Forall_id.
    eapply Forall_impl; [exact Ha|]. intros [b x]. unfold below; simpl. intros. by eapply less_trans.
  - rewrite decide_False by (simpl; congruence). done.
Qed.
End omap.

Arguments om_find {K V} less k m : simpl never.
Arguments om_insert {K V} less k v m : simpl never.
Arguments om_erase {K V} less k m : simpl never.

(** Orders on the built-in keys. *)
#[export] Instance Zltb_order : StrictWeakOrder Z.ltb.
Proof. split; intros *; rewrite ?Z.ltb_irrefl, ?Z.ltb_lt; lia. Qed.

#[export] Instance Natltb_order : StrictWeakOrder Nat.ltb.
Proof. split; intros *; rewrite ?Nat.ltb_irrefl, ?Nat.ltb_lt; lia. Qed.

Lemma same_Z a b : same Z.ltb a b = Z.eqb a b.
Proof. unfold same. repeat btest; simpl; lia. Qed.

Lemma same_nat a b : same Nat.ltb a b = Nat.eqb a b.
Proof. unfold same. repeat btest; simpl; lia. Qed.

(** Lexicographic order on byte strings: [std::less<std::string>]. *)
Fixpoint bytes_ltb (a b : bytes) : bool :=
  match a, b with
  | [], [] => false
  | [], _ :: _ => true
  | _ :: _, [] => false
  | x :: a', y :: b' => if Z.ltb x y then true else if Z.ltb y x then false else bytes_ltb a' b'
  end.

#[export] Instance bytes_ltb_order : StrictWeakOrder bytes_ltb.
Proof.
  split.
  - induction a as [|x a IH]; simpl; [done|]. by rewrite Z.ltb_irrefl.
  - induction a as [|x a IH]; intros [|y b] [|z c]; simpl; try done.
    repeat btest; try lia; try done. apply IH.
  - induction a as [|x a IH]; intros [|y b] [|z c]; simpl; try tauto.
    repeat btest; try lia; try tauto. apply IH.
Qed.

Lemma same_bytes a b : same bytes_ltb a b = true <-> a = b.
Proof.
  rewrite same_spec. revert b. induction a as [|x a IH]; intros [|y b]; simpl; [naive_solver..|].
  repeat btest; try (split; [naive_solver|intros [= ]; lia]).
  assert (x = y) as -> by lia. rewrite IH. naive_solver.
Qed.
