(* ===== verification/CStr.v ===== *)
(** * CStr: C strings, case folding and the tokenizer

    The string functions behind [_STR] (common/utils/Memory.cpp) in their
    POSIX build, the hash and the comparisons of blitzd/cache/CacheFunc.h that
    key the name tables, [strtolower] of the command interpreter, and
    [Text::SeperateString] of common/text/Parser.cpp.  The locale is "C":
    [tolower] and [toupper] move the 26 letters only. *)

From S2P Require Import Prelude Words Stream OMap.

(** ** Definitions *)

Definition tolower (c : Z) : Z := if (65 <=? c) && (c <=? 90) then c + 32 else c.
Definition toupper (c : Z) : Z := if (97 <=? c) && (c <=? 122) then c - 32 else c.

(** A plain [char] holds -128..127. *)
Definition schar (c : Z) : Z := if c <? 128 then c else c - 256.

(** [strcmp] and [strcasecmp] on the bytes before the NUL; the sign is what
    callers look at. *)
Fixpoint cmp_bytes (f : Z -> Z) (a b : bytes) : Z :=
  match a, b with
  | [], [] => 0
  | [], y :: _ => - f y
  | x :: _, [] => f x
  | x :: a', y :: b' => if f x =? f y then cmp_bytes f a' b' else f x - f y
  end.

Definition strcmp (a b : bytes) : Z := cmp_bytes id (cstr a) (cstr b).
Definition strcmpi (a b : bytes) : Z := cmp_bytes tolower (cstr a) (cstr b).
Definition strcmpn (a b : bytes) (n : nat) : Z := cmp_bytes id (take n (cstr a)) (take n (cstr b)).
Definition strcmpni (a b : bytes) (n : nat) : Z :=
  cmp_bytes tolower (take n (cstr a)) (take n (cstr b)).
Definition strlen (a : bytes) : Z := Z.of_nat (length (cstr a)).

(** [Cache::LowerCaseHash]: [size_t] arithmetic, the letter sign-extended. *)
Definition LowerCaseHash (s : bytes) : Z :=
  foldl (fun r c => u64 (Z.lxor (u64 (Z.shiftl r 5)) (u64 (tolower (schar c))))) 5181 s.

(** [Cache::CompareInCaseLess] and [Cache::CompareInCaseEqual]. *)
Definition CompareInCaseLess (a b : bytes) : bool := strcmpi a b <? 0.
Definition CompareInCaseEqual (a b : bytes) : bool := strcmpi a b =? 0.

(** [Core::Command::strtolower]. *)
Definition strtolower (s : bytes) : bytes := map (fun c => u8 (tolower (schar c))) s.

(** [std::string::find(c, off)] from an offset inside the string: the distance
    to the next [c]. *)
Fixpoint find_char (c : Z) (s : bytes) : option nat :=
  match s with
  | [] => None
  | x :: s' => if x =? c then Some O else S <$> find_char c s'
  end.

Fixpoint skip_char (c : Z) (s : bytes) : bytes :=
  match s with
  | [] => []
  | x :: s' => if x =? c then skip_char c s' else s
  end.

(** The token loop of [SeperateString]; every round consumes a byte, so the
    length of the string bounds the rounds. *)
Fixpoint separate_loop (fuel : nat) (d : Z) (s : bytes) : list bytes :=
  match fuel with
  | O => []
  | S fuel' =>
      match find_char d s with
      | Some p => take p s :: separate_loop fuel' d (skip_char d (drop (p + 1) s))
      | None => if Nat.ltb 0 (length s) then [s] else []
      end
  end.

Definition SeperateString (str : bytes) (delimiter : Z) (off : nat) : list bytes :=
  separate_loop (S (length str)) delimiter (skip_char delimiter (drop off str)).

(** ** Case-insensitive keys *)

(** The key a name is compared by. *)
Definition ci_key (s : bytes) : bytes := map tolower (cstr s).

Lemma tolower_nz c : byte_ok c -> c <> 0 -> 0 < tolower c.
Proof. unfold byte_ok, tolower. intros. repeat btest; simpl; lia. Qed.

Lemma cmp_bytes_0 a b :
  Forall (fun c => 0 < tolower c) a -> Forall (fun c => 0 < tolower c) b ->
  cmp_bytes tolower a b = 0 <-> map tolower a = map tolower b.
Proof.
  intros Ha. revert b. induction Ha as [|x a Hx Ha IH]; intros b Hb;
    destruct Hb as [|y b Hy Hb]; simpl; [done| | |].
  - split; [lia|done].
  - split; [lia|done].
  - btest.
    + rewrite IH by done. split; [|intros [= ]; congruence]. intros ->. congruence.
    + split; [lia|]. intros [= ]. congruence.
Qed.

Lemma cmp_bytes_lt a b :
  Forall (fun c => 0 < tolower c) a -> Forall (fun c => 0 < tolower c) b ->
  (cmp_bytes tolower a b <? 0) = bytes_ltb (map tolower a) (map tolower b).
Proof.
  intros Ha. revert b. induction Ha as [|x a Hx Ha IH]; intros b Hb;
    destruct Hb as [|y b Hy Hb]; simpl; [done| | |].
  - apply Z.ltb_lt. lia.
  - apply Z.ltb_ge. lia.
  - destruct (Z.eqb_spec (tolower x) (tolower y)) as [->|].
    + rewrite IH, Z.ltb_irrefl by done. done.
    + repeat btest; try done; lia.
Qed.

Lemma cstr_pos s : bytes_ok s -> Forall (fun c => 0 < tolower c) (cstr s).
Proof.
  induction 1 as [|c s Hc _ IH]; simpl; [constructor|]. btest; constructor; [|done].
  by apply tolower_nz.
Qed.

Lemma strcmpi_eq a b : bytes_ok a -> bytes_ok b -> strcmpi a b = 0 <-> ci_key a = ci_key b.
Proof. intros. by apply cmp_bytes_0; apply cstr_pos. Qed.

Lemma InCaseLess_key a b :
  bytes_ok a -> bytes_ok b -> CompareInCaseLess a b = bytes_ltb (ci_key a) (ci_key b).
Proof. intros. by apply cmp_bytes_lt; apply cstr_pos. Qed.

(** The order of the name tables, through the key: it is the comparison of the
    sources on every pair of byte strings ([InCaseLess_key]). *)
Definition ci_ltb (a b : bytes) : bool := bytes_ltb (ci_key a) (ci_key b).

#[export] Instance ci_ltb_order : StrictWeakOrder ci_ltb.
Proof.
  split; unfold ci_ltb; intros *;
    [apply less_irrefl | apply less_trans | apply less_cotrans].
Qed.

Lemma same_ci a b : same ci_ltb a b = true <-> ci_key a = ci_key b.
Proof. apply (same_bytes (ci_key a) (ci_key b)). Qed.

Lemma same_ci_strcmpi a b :
  bytes_ok a -> bytes_ok b -> same ci_ltb a b = CompareInCaseEqual a b.
Proof.
  intros Ha Hb. apply eq_true_iff_eq. rewrite same_ci. unfold CompareInCaseEqual.
  rewrite Z.eqb_eq. by rewrite strcmpi_eq.
Qed.

Lemma u64_tolower_schar x y :
  byte_ok x -> byte_ok y -> tolower x = tolower y ->
  u64 (tolower (schar x)) = u64 (tolower (schar y)).
Proof.
  intros Hx Hy H. f_equal. unfold byte_ok, tolower, schar in *. repeat btest; simpl in *; lia.
Qed.

Lemma LowerCaseHash_fold a b r :
  bytes_ok a -> bytes_ok b -> map tolower a = map tolower b ->
  foldl (fun r c => u64 (Z.lxor (u64 (Z.shiftl r 5)) (u64 (tolower (schar c))))) r a =
  foldl (fun r c => u64 (Z.lxor (u64 (Z.shiftl r 5)) (u64 (tolower (schar c))))) r b.
Proof.
  intros Ha. revert b r. induction Ha as [|x a Hx Ha IH]; intros [|y b] r Hb; simpl; try done.
  inversion_clear Hb as [|? ? Hy Hb']. intros [= Hxy Hab].
  rewrite (u64_tolower_schar x y) by done. by apply IH.
Qed.

(** The hash agrees with the equality of the name tables: two names
    without embedded NULs that [CompareInCaseEqual] identifies have the same
    [LowerCaseHash], which is what [std::unordered_map] needs of the pair. *)
Theorem hash_respects_equality a b :
  bytes_ok a -> bytes_ok b ->
  Forall (fun c => c <> 0) a -> Forall (fun c => c <> 0) b ->
  CompareInCaseEqual a b = true -> LowerCaseHash a = LowerCaseHash b.
Proof.
  intros Ha Hb Na Nb. unfold CompareInCaseEqual. rewrite Z.eqb_eq, strcmpi_eq by done.
  unfold ci_key. rewrite !cstr_id by done. by apply LowerCaseHash_fold.
Qed.

Lemma hash_respects_equality_witness :
  LowerCaseHash (b# "SoarQin") = LowerCaseHash (b# "sOARqIN") /\
  CompareInCaseEqual (b# "SoarQin") (b# "sOARqIN") = true.
Proof.
  split; [|reflexivity].
  apply hash_respects_equality; [apply (bool_decide_unpack _); vm_compute; exact I..|reflexivity].
Defined.

(** ** The tokenizer *)

Lemma find_char_app c p s : Forall (fun x => x <> c) p -> find_char c (p ++ c :: s) = Some (length p).
Proof.
  induction 1 as [|x p Hx _ IH]; simpl; [by rewrite Z.eqb_refl|]. rewrite (proj2 (Z.eqb_neq x c)) by done. by rewrite IH.
Qed.
Lemma find_char_Some c s p :
  find_char c s = Some p ->
  s = take p s ++ c :: drop (p + 1) s /\ Forall (fun x => x <> c) (take p s).
Proof.
  revert p. induction s as [|x s IH]; intros p; simpl; [done|]. btest.
  - intros [= <-]. subst. simpl. split; [done|constructor].
  - destruct (find_char c s) as [q|]; [|done]. intros [= <-].
    destruct (IH q eq_refl) as [E F]. simpl. split; [by f_equal|by constructor].
Qed.

Lemma find_char_None c s : find_char c s = None <-> Forall (fun x => x <> c) s.
Proof.
  induction s as [|x s IH]; simpl; [split; [constructor|done]|]. btest.
  - split; [done|]. inversion 1; done.
  - rewrite Forall_cons, <- IH. destruct (find_char c s); naive_solver.
Qed.

Lemma skip_char_length c s : (length (skip_char c s) <= length s)%nat.
Proof. induction s as [|x s IH]; simpl; [lia|]. btest; simpl; lia. Qed.

Lemma skip_char_hd c s x r : skip_char c s = x :: r -> x <> c.
Proof. induction s as [|y s IH]; simpl; [done|]. btest; [done|]. intros [= -> ->]. done. Qed.

(** A reference tokenizer: the maximal runs of other characters. *)
Fixpoint tokens_ref (d : Z) (cur : bytes) (s : bytes) : list bytes :=
  match s with
  | [] => match cur with [] => [] | _ => [cur] end
  | x :: s' => if x =? d then match cur with
                              | [] => tokens_ref d [] s'
                              | _ => cur :: tokens_ref d [] s'
                              end
               else tokens_ref d (cur ++ [x]) s'
  end.

Lemma tokens_ref_skip d s : tokens_ref d [] (skip_char d s) = tokens_ref d [] s.
Proof. induction s as [|x s IH]; simpl; [done|]. btest; [done|]. simpl. by btest. Qed.

Lemma tokens_ref_run d cur p s :
  Forall (fun x => x <> d) p -> tokens_ref d cur (p ++ s) = tokens_ref d (cur ++ p) s.
Proof.
  intros Hp. revert cur. induction Hp as [|x p Hx Hp IH]; intros cur; simpl.
  - by rewrite app_nil_r.
  - btest; [done|]. by rewrite IH, <- app_assoc.
Qed.

Lemma separate_loop_ref d fuel s :
  (length s < fuel)%nat -> (forall x r, s = x :: r -> x <> d) ->
  separate_loop fuel d s = tokens_ref d [] s.
Proof.
  revert s. induction fuel as [|fuel IH]; intros s Hf Hs; [lia|]. simpl.
  destruct (find_char d s) as [p|] eqn:E.
  - apply find_char_Some in E as [E F].
    assert (take p s <> []) as Hne.
    { intros Hn. rewrite Hn in E. simpl in E. by eapply Hs. }
    pose proof (skip_char_length d (drop (p + 1) s)) as Hl. rewrite length_drop in Hl.
    rewrite IH; [|destruct s; simpl in *; [by rewrite take_nil in Hne|lia]|apply skip_char_hd].
    rewrite tokens_ref_skip. rewrite E at 3. rewrite tokens_ref_run by done. simpl.
    rewrite Z.eqb_refl. by destruct (take p s).
  - apply find_char_None in E. rewrite <- (app_nil_r s) at 3.
    rewrite tokens_ref_run by done. simpl. by destruct s.
Qed.

(** [SeperateString] terminates and returns exactly the maximal non-empty
    runs of characters other than the delimiter, in order, for every string,
    delimiter and starting offset. *)
Theorem SeperateString_tokens str d off :
  SeperateString str d off = tokens_ref d [] (drop off str).
Proof.
  unfold SeperateString. rewrite separate_loop_ref.
  - apply tokens_ref_skip.
  - pose proof (skip_char_length d (drop off str)) as H. rewrite length_drop in H. lia.
  - apply skip_char_hd.
Qed.

Lemma strtolower_key s : bytes_ok s -> strtolower s = map tolower s.
Proof.
  induction 1 as [|c s Hc _ IH]; simpl; [done|]. f_equal; [|done].
  unfold byte_ok, schar, tolower, u8 in *. repeat btest; simpl; try lia;
    try (rewrite Z.mod_small; lia).
  replace (c - 256) with (c + (-1) * 256) by lia. rewrite Z.mod_add by lia. apply Z.mod_small. lia.
Qed.
