(* ===== verification/ShaCtx.v ===== *)
(** * ShaCtx: the hashing context and the input loop

    common/crypto/SHA1Hash.cpp and blitzd/crypto/BSHA1Hash.cpp keep the same
    context structure and the same [Reset], [Input] and [Result] bodies around
    two different block functions and paddings.  This file holds the context,
    the byte-wise input loop and the digest extraction over a block function
    [process], and the lemma that the loop absorbs a message in 64-byte
    blocks. *)

From S2P Require Import Prelude Words.

(** ** Definitions *)

Definition shaSuccess : Z := 0.
Definition shaNull : Z := 1.
Definition shaInputTooLong : Z := 2.
Definition shaStateError : Z := 3.

Record SHA1Context := mkCtx {
  Intermediate_Hash : list Z;
  Length_Low : Z;
  Length_High : Z;
  Message_Block_Index : nat;
  Message_Block : bytes;
  Computed : Z;
  Corrupted : Z
}.

Definition init_hash : list Z :=
  [0x67452301; 0xEFCDAB89; 0x98BADCFE; 0x10325476; 0xC3D2E1F0].

(** [SHA1Reset] / [BSHA1Reset] on a non-null context; [Message_Block] keeps
    whatever it held. *)
Definition reset_ctx (c : SHA1Context) : SHA1Context :=
  mkCtx init_hash 0 0 0 (Message_Block c) 0 0.

Definition Reset (context : option SHA1Context) : Z * option SHA1Context :=
  match context with
  | None => (shaNull, None)
  | Some c => (shaSuccess, Some (reset_ctx c))
  end.

(** [Message_Block[Message_Block_Index++] = b]. *)
Definition push_byte (b : Z) (c : SHA1Context) : SHA1Context :=
  mkCtx (Intermediate_Hash c) (Length_Low c) (Length_High c) (S (Message_Block_Index c))
        (<[Message_Block_Index c := b]> (Message_Block c)) (Computed c) (Corrupted c).

(** [Length_Low += 8] with its carry and the "too long" mark. *)
Definition count_byte (c : SHA1Context) : SHA1Context :=
  let low := u32 (Length_Low c + 8) in
  let high := if low =? 0 then u32 (Length_High c + 1) else Length_High c in
  let corrupted := if (low =? 0) && (high =? 0) then 1 else Corrupted c in
  mkCtx (Intermediate_Hash c) low high (Message_Block_Index c) (Message_Block c)
        (Computed c) corrupted.

(** The digest bytes: [Intermediate_Hash[i>>2] >> 8 * (3 - (i & 3))]. *)
Definition digest_byte (h : list Z) (i : nat) : Z :=
  u8 (Z.shiftr (h !!! (i / 4)%nat) (8 * (3 - Z.of_nat (i mod 4)%nat))).
Definition digest_of (h : list Z) : bytes := map (digest_byte h) (seq 0 20).

Section absorb.
(** The block function: it reads the context and replaces the hash. *)
Context (process : SHA1Context -> list Z).

(** [SHA1ProcessMessageBlock]: the new hash, the index back to 0. *)
Definition ProcessMessageBlock (c : SHA1Context) : SHA1Context :=
  mkCtx (process c) (Length_Low c) (Length_High c) 0 (Message_Block c)
        (Computed c) (Corrupted c).

(** One round of the [while(length-- && !context->Corrupted)] loop. *)
Definition input_byte (c : SHA1Context) (b : Z) : SHA1Context :=
  if Corrupted c =? 0 then
    let c := count_byte (push_byte (Z.land b 0xFF) c) in
    if Nat.eqb (Message_Block_Index c) 64 then ProcessMessageBlock c else c
  else c.

Definition Input (context : option SHA1Context) (message_array : option bytes) (length : nat)
  : Z * option SHA1Context :=
  if Nat.eqb length 0 then (shaSuccess, context)
  else match context, message_array with
       | None, _ | _, None => (shaNull, context)
       | Some c, Some m =>
           if negb (Computed c =? 0) then
             (shaStateError, Some (mkCtx (Intermediate_Hash c) (Length_Low c) (Length_High c)
                (Message_Block_Index c) (Message_Block c) (Computed c) shaStateError))
           else if negb (Corrupted c =? 0) then (Corrupted c, Some c)
           else (shaSuccess, Some (foldl input_byte c (take length m)))
       end.

(** [SHA1Result] / [BSHA1Result]; [pad] is the file's [PadMessage]. *)
Context (pad : SHA1Context -> SHA1Context).

Definition finish (c : SHA1Context) : SHA1Context :=
  if Computed c =? 0 then
    let c := pad c in
    mkCtx (Intermediate_Hash c) 0 0 (Message_Block_Index c) (replicate 64 0) 1 (Corrupted c)
  else c.

Definition Result (context : option SHA1Context) (digest : option bytes)
  : Z * option SHA1Context * option bytes :=
  match context, digest with
  | None, _ | _, None => (shaNull, context, digest)
  | Some c, Some _ =>
      if negb (Corrupted c =? 0) then (Corrupted c, Some c, digest)
      else (shaSuccess, Some (finish c), Some (digest_of (Intermediate_Hash (finish c))))
  end.

(** ** Absorbing blocks *)

(** The block function as a function of the hash and a full block. *)
Context (compress : list Z -> bytes -> list Z).
Hypothesis process_full : forall c,
  Message_Block_Index c = 64%nat -> length (Message_Block c) = 64%nat ->
  process c = compress (Intermediate_Hash c) (Message_Block c).

(** The context after the message [msg] has been absorbed: its whole blocks
    are in the hash, its tail is in the block buffer. *)
Record absorbed (c : SHA1Context) (msg : bytes) (blocks : list bytes) (tail : bytes) : Prop := {
  ab_msg : msg = mjoin blocks ++ tail;
  ab_blocks : Forall (fun b => length b = 64%nat) blocks;
  ab_index : Message_Block_Index c = length tail;
  ab_tail : (length tail < 64)%nat;
  ab_take : take (length tail) (Message_Block c) = tail;
  ab_block : length (Message_Block c) = 64%nat;
  ab_hash : Intermediate_Hash c = foldl compress init_hash blocks;
  ab_len : Length_High c * 2 ^ 32 + Length_Low c = 8 * Z.of_nat (length msg);
  ab_low : 0 <= Length_Low c < 2 ^ 32;
  ab_high : 0 <= Length_High c < 2 ^ 32;
  ab_computed : Computed c = 0;
  ab_corrupted : Corrupted c = 0
}.

Lemma absorbed_reset c :
  length (Message_Block c) = 64%nat -> absorbed (reset_ctx c) [] [] [].
Proof. intros. split; simpl; (done || lia || constructor). Qed.

Lemma take_S_insert {A} (l : list A) i x :
  (i < length l)%nat -> take (S i) (<[i:=x]> l) = take i l ++ [x].
Proof.
  intros Hi. rewrite (take_S_r _ _ x) by (by apply list_lookup_insert_eq).
  by rewrite take_insert_ge by lia.
Qed.

Lemma count_byte_len c n :
  Length_High c * 2 ^ 32 + Length_Low c = 8 * n ->
  0 <= Length_Low c < 2 ^ 32 -> 0 <= Length_High c < 2 ^ 32 -> 0 <= n -> 8 * (n + 1) < 2 ^ 64 ->
  let c' := count_byte c in
  Length_High c' * 2 ^ 32 + Length_Low c' = 8 * (n + 1) /\
  0 <= Length_Low c' < 2 ^ 32 /\ 0 <= Length_High c' < 2 ^ 32 /\ Corrupted c' = Corrupted c.
Proof.
  intros Hlen Hl Hh Hn Hmax. unfold count_byte.
  cbn [Length_High Length_Low Corrupted]. destruct (Z.eqb_spec (u32 (Length_Low c + 8)) 0) as [E|E]; simpl.
  - unfold u32 in E |- *. assert (Length_Low c + 8 = 2 ^ 32) as E'.
    { apply Z.mod_divide in E as [k Hk]; [|lia]. assert (k = 1) by lia. lia. }
    rewrite E', Z_mod_same_full. rewrite (Z.mod_small (Length_High c + 1)) by lia.
    btest; lia.
  - unfold u32 in *. assert (Length_Low c + 8 < 2 ^ 32) as E'.
    { assert (Length_Low c + 8 <> 2 ^ 32) by (intros E1; by rewrite E1, Z_mod_same_full in E).
      assert (exists k, Length_Low c = 8 * k) as [k Hk]; [|lia].
      exists (n - Length_High c * 2 ^ 29). lia. }
    rewrite Z.mod_small by lia. lia.
Qed.

Lemma absorbed_byte c msg blocks tail b :
  absorbed c msg blocks tail -> byte_ok b -> 8 * Z.of_nat (length msg + 1) < 2 ^ 64 ->
  exists blocks' tail', absorbed (input_byte c b) (msg ++ [b]) blocks' tail'.
Proof.
  intros [Hm Hb Hi Ht Htk Hbl Hh Hlen Hlow Hhigh Hcp Hco] Hok Hmax. unfold input_byte.
  rewrite Hco. simpl Z.eqb. cbv iota.
  assert (Z.land b 0xFF = b) as ->.
  { change 0xFF with (Z.ones 8). rewrite Z.land_ones by lia. apply Z.mod_small.
    unfold byte_ok in Hok. lia. }
  destruct (count_byte_len (push_byte b c) (Z.of_nat (length msg))) as (E1&E2&E3&E4);
    [done..|lia|lia|].
  assert (take (S (length tail)) (<[length tail:=b]> (Message_Block c)) = tail ++ [b]) as Etk.
  { rewrite take_S_insert by lia. by rewrite Htk. }
  cbn [count_byte push_byte Message_Block_Index] in *. rewrite Hi in *.
  destruct (Nat.eqb_spec (S (length tail)) 64) as [E64|E64].
  - exists (blocks ++ [tail ++ [b]]), []. unfold ProcessMessageBlock.
    assert (<[length tail:=b]> (Message_Block c) = tail ++ [b]) as Efull.
    { rewrite <- Etk. symmetry. apply take_ge. rewrite length_insert. lia. }
    split; simpl in *; try done; try lia; try congruence.
    + rewrite join_app. simpl. rewrite !app_nil_r. rewrite Hm. by rewrite <- app_assoc.
    + apply Forall_app. split; [done|]. repeat constructor. rewrite length_app. simpl. lia.
    + by rewrite length_insert.
    + rewrite process_full by (simpl; rewrite ?length_insert; lia). simpl. rewrite foldl_app. simpl.
      by rewrite <- Hh, Hi, Efull.
    + rewrite length_app. simpl. lia.
  - exists blocks, (tail ++ [b]). split; simpl in *; rewrite ?length_app; simpl;
      try done; try lia; try congruence.
    + rewrite Hm. by rewrite <- app_assoc.
    + rewrite Nat.add_comm, Hi. exact Etk.
    + by rewrite length_insert.
Qed.

Lemma absorbed_bytes m : forall c msg blocks tail,
  absorbed c msg blocks tail -> bytes_ok m -> 8 * Z.of_nat (length msg + length m) < 2 ^ 64 ->
  exists blocks' tail', absorbed (foldl input_byte c m) (msg ++ m) blocks' tail'.
Proof.
  induction m as [|b m IH]; intros c msg blocks tail Hab Hok Hmax; simpl.
  - rewrite app_nil_r. eauto.
  - inversion_clear Hok. simpl in Hmax.
    destruct (absorbed_byte c msg blocks tail b) as (bl & tl & H'); [done..|lia|].
    destruct (IH _ _ _ _ H') as (bl' & tl' & H''); [done|rewrite length_app; simpl; lia|].
    rewrite <- app_assoc in H''. simpl in H''. eauto.
Qed.

(** Input in pieces is input of the whole: the loop keeps no state besides
    the context. *)
Lemma input_bytes_app c m1 m2 :
  foldl input_byte c (m1 ++ m2) = foldl input_byte (foldl input_byte c m1) m2.
Proof. apply foldl_app. Qed.
End absorb.

(** ** Splitting a message in blocks *)

Fixpoint chunks (fuel n : nat) (m : bytes) : list bytes :=
  match fuel with
  | O => []
  | S fuel' => if Nat.ltb (length m) n then [] else take n m :: chunks fuel' n (drop n m)
  end.

Lemma chunks_join n blocks fuel :
  (0 < n)%nat -> Forall (fun b => length b = n) blocks -> (length blocks < fuel)%nat ->
  chunks fuel n (mjoin blocks) = blocks.
Proof.
  intros Hn Hb. revert fuel. induction Hb as [|b bs Hlen Hbs IH]; intros [|fuel] Hf; simpl in *;
    try lia.
  - btest; [done|lia].
  - rewrite length_app. btest; [lia|].
    rewrite take_app_length', drop_app_length' by done. f_equal. apply IH. lia.
Qed.
