(* ===== verification/Sha1.v ===== *)
(** * Sha1: common/crypto/SHA1Hash.cpp against FIPS 180

    [SHA1ProcessMessageBlock] and [SHA1PadMessage] as written, over the context
    and input loop of ShaCtx, and the theorem that reset, any number of inputs
    and the result compute the SHA-1 function of the standard. *)

From S2P Require Import Prelude Words ShaCtx.

(** ** The code *)

(** [W[t] = Block[4t] << 24 | Block[4t+1] << 16 | ...]. *)
Definition word_be (b : bytes) (t : nat) : Z :=
  Z.lor (Z.lor (Z.lor (u32 (Z.shiftl (b !!! (t * 4)%nat) 24)) (Z.shiftl (b !!! (t * 4 + 1)%nat) 16))
               (Z.shiftl (b !!! (t * 4 + 2)%nat) 8))
        (b !!! (t * 4 + 3)%nat).

(** The [for(t = 16; t < 80; t++)] loop; [t] is the length of [W] so far. *)
Fixpoint extend_W (n : nat) (W : list Z) : list Z :=
  match n with
  | O => W
  | S n' =>
      let t := length W in
      extend_W n' (W ++ [rotl32 1 (Z.lxor (Z.lxor (Z.lxor (W !!! (t - 3)%nat) (W !!! (t - 8)%nat))
                                                (W !!! (t - 14)%nat)) (W !!! (t - 16)%nat))])
  end.

Definition schedule (b : bytes) : list Z := extend_W 64 (map (word_be b) (seq 0 16)).

(** The working variables A..E. *)
Record regs := mkRegs { rA : Z; rB : Z; rC : Z; rD : Z; rE : Z }.

(** One round; [f] is the loop's function of B, C, D. *)
Definition sha_round (f : Z -> Z -> Z -> Z) (k : Z) (r : regs) (w : Z) : regs :=
  mkRegs (u32 (rotl32 5 (rA r) + f (rB r) (rC r) (rD r) + rE r + w + k))
         (rA r) (rotl32 30 (rB r)) (rC r) (rD r).

Definition f_choose (B C D : Z) : Z := Z.lor (Z.land B C) (Z.land (not32 B) D).
Definition f_parity (B C D : Z) : Z := Z.lxor (Z.lxor B C) D.
Definition f_major (B C D : Z) : Z := Z.lor (Z.lor (Z.land B C) (Z.land B D)) (Z.land C D).

(** The four loops over [t] and the final additions, for a word schedule [W]. *)
Definition compress_W (h : list Z) (W : list Z) : list Z :=
  let r := mkRegs (h !!! 0%nat) (h !!! 1%nat) (h !!! 2%nat) (h !!! 3%nat) (h !!! 4%nat) in
  let r := foldl (sha_round f_choose 0x5A827999) r (take 20 W) in
  let r := foldl (sha_round f_parity 0x6ED9EBA1) r (take 20 (drop 20 W)) in
  let r := foldl (sha_round f_major 0x8F1BBCDC) r (take 20 (drop 40 W)) in
  let r := foldl (sha_round f_parity 0xCA62C1D6) r (take 20 (drop 60 W)) in
  [u32 (h !!! 0%nat + rA r); u32 (h !!! 1%nat + rB r); u32 (h !!! 2%nat + rC r);
   u32 (h !!! 3%nat + rD r); u32 (h !!! 4%nat + rE r)].

Definition SHA1ProcessMessageBlock (c : SHA1Context) : list Z :=
  compress_W (Intermediate_Hash c) (schedule (Message_Block c)).

(** [while(Message_Block_Index < limit) Message_Block[Message_Block_Index++] = 0]. *)
Fixpoint zero_upto (fuel limit : nat) (c : SHA1Context) : SHA1Context :=
  match fuel with
  | O => c
  | S fuel' => if Nat.ltb (Message_Block_Index c) limit
               then zero_upto fuel' limit (push_byte 0 c) else c
  end.

(** [Message_Block[56..63] = ]: the 64-bit length, high byte first. *)
Definition put_length (c : SHA1Context) : SHA1Context :=
  let lo := Length_Low c in
  let hi := Length_High c in
  let b := Message_Block c in
  let b := <[56%nat := u8 (Z.shiftr hi 24)]> b in
  let b := <[57%nat := u8 (Z.shiftr hi 16)]> b in
  let b := <[58%nat := u8 (Z.shiftr hi 8)]> b in
  let b := <[59%nat := u8 hi]> b in
  let b := <[60%nat := u8 (Z.shiftr lo 24)]> b in
  let b := <[61%nat := u8 (Z.shiftr lo 16)]> b in
  let b := <[62%nat := u8 (Z.shiftr lo 8)]> b in
  let b := <[63%nat := u8 lo]> b in
  mkCtx (Intermediate_Hash c) lo hi (Message_Block_Index c) b (Computed c) (Corrupted c).

(** [SHA1PadMessage] over the block function it calls. *)
Definition pad_message (process : SHA1Context -> list Z) (c : SHA1Context) : SHA1Context :=
  let c :=
    if Nat.ltb 55 (Message_Block_Index c) then
      let c := zero_upto 64 64 (push_byte 0x80 c) in
      zero_upto 64 56 (ProcessMessageBlock process c)
    else zero_upto 64 56 (push_byte 0x80 c) in
  ProcessMessageBlock process (put_length c).

Definition SHA1PadMessage : SHA1Context -> SHA1Context := pad_message SHA1ProcessMessageBlock.

Definition SHA1Reset := Reset.
Definition SHA1Input := Input SHA1ProcessMessageBlock.
Definition SHA1Result := Result SHA1PadMessage.

(** The calling sequence of the sources: a fresh context, inputs, result.
    [block0] is the uninitialised [Message_Block] of the stack object. *)
Definition ctx_of_stack (block0 : bytes) : SHA1Context := mkCtx [] 0 0 0 block0 0 0.

Definition sha1_inputs (c : option SHA1Context) (parts : list bytes) : option SHA1Context :=
  foldl (fun c m => (SHA1Input c (Some m) (length m)).2) c parts.

Definition sha1_run (block0 : bytes) (parts : list bytes) : Z * option bytes :=
  let c := (SHA1Reset (Some (ctx_of_stack block0))).2 in
  let '(rc, _, d) := SHA1Result (sha1_inputs c parts) (Some (replicate 20 0)) in (rc, d).

(** ** The standard *)

Module Fips180.
Definition Ch (x y z : Z) : Z := Z.lxor (Z.land x y) (Z.land (not32 x) z).
Definition Parity (x y z : Z) : Z := Z.lxor (Z.lxor x y) z.
Definition Maj (x y z : Z) : Z := Z.lxor (Z.lxor (Z.land x y) (Z.land x z)) (Z.land y z).

Definition f (t : nat) : Z -> Z -> Z -> Z :=
  if Nat.ltb t 20 then Ch else if Nat.ltb t 40 then Parity
  else if Nat.ltb t 60 then Maj else Parity.
Definition K (t : nat) : Z :=
  if Nat.ltb t 20 then 0x5A827999 else if Nat.ltb t 40 then 0x6ED9EBA1
  else if Nat.ltb t 60 then 0x8F1BBCDC else 0xCA62C1D6.

(** Message words are big-endian. *)
Definition be_val (l : bytes) : Z := foldl (fun a b => a * 256 + b) 0 l.
Definition word (b : bytes) (t : nat) : Z := be_val (take 4 (drop (t * 4) b)).

(** The prepared schedule by the recurrence of the standard. *)
Definition W (b : bytes) : list Z := extend_W 64 (map (word b) (seq 0 16)).

Definition round (r : regs) (tw : nat * Z) : regs :=
  sha_round (f tw.1) (K tw.1) r tw.2.

Definition compress (h : list Z) (b : bytes) : list Z :=
  let r := mkRegs (h !!! 0%nat) (h !!! 1%nat) (h !!! 2%nat) (h !!! 3%nat) (h !!! 4%nat) in
  let r := foldl round r (zip (seq 0 80) (W b)) in
  [u32 (h !!! 0%nat + rA r); u32 (h !!! 1%nat + rB r); u32 (h !!! 2%nat + rC r);
   u32 (h !!! 3%nat + rD r); u32 (h !!! 4%nat + rE r)].

Definition be_bytes (n : nat) (v : Z) : bytes := rev (le_bytes n v).

(** Padding: a one bit, zeros, the 64-bit length in bits. *)
Definition pad (m : bytes) : bytes :=
  m ++ [0x80] ++ replicate ((119 - length m mod 64) mod 64)%nat 0
    ++ be_bytes 8 (8 * Z.of_nat (length m)).

Definition sha1 (m : bytes) : bytes :=
  mjoin (be_bytes 4 <$> foldl compress init_hash (chunks (length (pad m)) 64 (pad m))).
End Fips180.

(** ** Words stay 32 bits wide *)

Definition w32 (z : Z) : Prop := 0 <= z < 2 ^ 32.

Lemma w32_testbit z i : w32 z -> 32 <= i -> Z.testbit z i = false.
Proof.
  intros Hz Hi. unfold w32 in Hz. rewrite <- (Z.mod_small z (2 ^ 32)) by lia.
  apply Z.mod_pow2_bits_high. lia.
Qed.

Lemma w32_bits z : 0 <= z -> (forall i, 32 <= i -> Z.testbit z i = false) -> w32 z.
Proof.
  intros Hz H. assert (z = z mod 2 ^ 32) as ->; [|apply u32_range].
  rewrite <- Z.land_ones by lia. apply Z.bits_inj'. intros i Hi.
  rewrite Z.land_spec. destruct (Z.ltb_spec i 32).
  - rewrite Z.ones_spec_low by lia. by rewrite andb_true_r.
  - by rewrite H by lia.
Qed.

Lemma w32_lor a b : w32 a -> w32 b -> w32 (Z.lor a b).
Proof.
  intros Ha Hb. apply w32_bits; [apply Z.lor_nonneg; unfold w32 in *; lia|].
  intros. by rewrite Z.lor_spec, !w32_testbit.
Qed.

Lemma w32_lxor a b : w32 a -> w32 b -> w32 (Z.lxor a b).
Proof.
  intros Ha Hb. apply w32_bits; [apply Z.lxor_nonneg; unfold w32 in *; lia|].
  intros. by rewrite Z.lxor_spec, !w32_testbit.
Qed.

Lemma w32_u32 z : w32 (u32 z). Proof. apply u32_range. Qed.

Lemma w32_shiftr a k : 0 <= k -> w32 a -> w32 (Z.shiftr a k).
Proof.
  intros Hk Ha. apply w32_bits; [apply Z.shiftr_nonneg; unfold w32 in *; lia|].
  intros. rewrite Z.shiftr_spec, w32_testbit by (done || lia). done.
Qed.

Lemma w32_rotl k a : 0 <= k <= 32 -> w32 a -> w32 (rotl32 k a).
Proof. intros. apply w32_lor; [apply w32_u32 | apply w32_shiftr; [lia|done]]. Qed.

#[export] Hint Resolve w32_lor w32_lxor w32_u32 w32_shiftr w32_rotl : blitz.

(** ** The round functions agree with the standard's *)

Ltac bitwise := apply Z.bits_inj'; intros i Hi;
  rewrite ?Z.lor_spec, ?Z.lxor_spec, ?Z.land_spec, ?Z.lor_spec, ?Z.lxor_spec, ?Z.land_spec.

Lemma not32_spec x i : 0 <= i < 32 -> Z.testbit (not32 x) i = negb (Z.testbit x i).
Proof.
  intros Hi. unfold not32, u32. rewrite Z.mod_pow2_bits_low by lia. apply Z.lnot_spec. lia.
Qed.

Lemma choose_Ch x y z : f_choose x y z = Fips180.Ch x y z.
Proof.
  unfold f_choose, Fips180.Ch. bitwise. destruct (Z.ltb_spec i 32).
  - rewrite !not32_spec by lia.
    by destruct (Z.testbit x i), (Z.testbit y i), (Z.testbit z i).
  - rewrite (w32_testbit (not32 x)) by (apply w32_u32 || lia).
    by destruct (Z.testbit x i), (Z.testbit y i), (Z.testbit z i).
Qed.

Lemma major_Maj x y z : f_major x y z = Fips180.Maj x y z.
Proof.
  unfold f_major, Fips180.Maj. bitwise.
  by destruct (Z.testbit x i), (Z.testbit y i), (Z.testbit z i).
Qed.

Lemma sha_round_ext f g k r w :
  (forall x y z, f x y z = g x y z) -> sha_round f k r w = sha_round g k r w.
Proof. intros H. unfold sha_round. by rewrite H. Qed.

Lemma foldl_round_range f k lo n W r :
  (forall t, (lo <= t < lo + n)%nat -> (forall x y z, f x y z = Fips180.f t x y z) /\ k = Fips180.K t) ->
  length W = n ->
  foldl (sha_round f k) r W = foldl Fips180.round r (zip (seq lo n) W).
Proof.
  revert lo W r. induction n as [|n IH]; intros lo [|w W] r H Hl; simpl in *; try done; try lia.
  destruct (H lo ltac:(lia)) as [Hf Hk].
  unfold Fips180.round at 2; simpl. rewrite <- Hk, <- (sha_round_ext f _ k r w Hf).
  apply IH; [|lia]. intros t Ht. apply H. lia.
Qed.

Lemma length_extend_W n W : length (extend_W n W) = (n + length W)%nat.
Proof. revert W. induction n; intros; simpl; [done|]. rewrite IHn, length_app. simpl. lia. Qed.

Lemma word_be_fips b t :
  bytes_ok b -> length b = 64%nat -> (t < 16)%nat -> word_be b t = Fips180.word b t.
Proof.
  intros Hb Hl Ht. unfold word_be, Fips180.word.
  assert (forall i, (i < 64)%nat -> 0 <= b !!! i < 256) as Hr.
  { intros i Hi. assert (is_Some (b !! i)) as [x Hx] by (apply lookup_lt_is_Some; lia).
    rewrite (list_lookup_total_correct _ _ _ Hx). by apply (Forall_lookup_1 _ _ _ _ Hb Hx). }
  assert (take 4 (drop (t * 4) b) = [b !!! (t * 4)%nat; b !!! (t * 4 + 1)%nat;
     b !!! (t * 4 + 2)%nat; b !!! (t * 4 + 3)%nat]) as ->.
  { assert (forall i, (i < 64)%nat -> drop i b = b !!! i :: drop (S i) b) as Hd.
    { intros i Hi. assert (is_Some (b !! i)) as [x Hx] by (apply lookup_lt_is_Some; lia).
      rewrite (list_lookup_total_correct _ _ _ Hx). by rewrite (drop_S b x i). }
    rewrite (Hd (t * 4)%nat), (Hd (S (t * 4))), (Hd (S (S (t * 4)))), (Hd (S (S (S (t * 4))))) by lia.
    simpl. rewrite !(Nat.add_comm (t * 4)). done. }
  pose proof (Hr (t * 4)%nat ltac:(lia)). pose proof (Hr (t * 4 + 1)%nat ltac:(lia)).
  pose proof (Hr (t * 4 + 2)%nat ltac:(lia)). pose proof (Hr (t * 4 + 3)%nat ltac:(lia)).
  unfold u32. rewrite Z.mod_small by (rewrite Z.shiftl_mul_pow2 by lia; lia).
  rewrite <- !Z.lor_assoc, (lor_shiftl_add _ _ 8) by lia.
  rewrite (lor_shiftl_add _ _ 16), (lor_shiftl_add _ _ 24) by lia.
  unfold Fips180.be_val. simpl. lia.
Qed.

Lemma schedule_fips b : bytes_ok b -> length b = 64%nat -> schedule b = Fips180.W b.
Proof.
  intros Hb Hl. unfold schedule, Fips180.W. f_equal. apply map_ext_in. intros t Ht.
  apply in_seq in Ht. apply word_be_fips; (done || lia).
Qed.

Lemma split80 (W : list Z) :
  length W = 80%nat ->
  take 20 W ++ take 20 (drop 20 W) ++ take 20 (drop 40 W) ++ take 20 (drop 60 W) = W.
Proof.
  intros HW. rewrite (take_ge (drop 60 W)) by (rewrite length_drop; lia).
  replace 60%nat with (40 + 20)%nat by lia. rewrite <- (drop_drop W), take_drop.
  replace 40%nat with (20 + 20)%nat by lia. by rewrite <- (drop_drop W), !take_drop.
Qed.

(** Decide the round tests on a bounded [t]. *)
Ltac round_of t :=
  repeat match goal with
    | |- context [Nat.ltb t ?n] =>
        first [rewrite (proj2 (Nat.ltb_lt t n)) by lia | rewrite (proj2 (Nat.ltb_ge t n)) by lia]
    end.

(** The four loops of the code are the eighty rounds of the standard. *)
Lemma compress_fips h b :
  bytes_ok b -> length b = 64%nat -> compress_W h (schedule b) = Fips180.compress h b.
Proof.
  intros Hb Hl. rewrite schedule_fips by done. unfold compress_W, Fips180.compress.
  assert (length (Fips180.W b) = 80%nat) as HW.
  { unfold Fips180.W. by rewrite length_extend_W, length_map, length_seq. }
  generalize dependent (Fips180.W b). intros W HW.
  set (r0 := mkRegs _ _ _ _ _).
  rewrite (foldl_round_range f_choose _ 0 20), (foldl_round_range f_parity 0x6ED9EBA1 20 20),
    (foldl_round_range f_major _ 40 20), (foldl_round_range f_parity 0xCA62C1D6 60 20);
    try (rewrite length_take, ?length_drop; lia).
  2-5: intros t Ht; unfold Fips180.f, Fips180.K; round_of t; split; [|reflexivity].
  2, 4: reflexivity.
  2: exact major_Maj.
  2: exact choose_Ch.
  rewrite <- !foldl_app.
  assert (zip (seq 0 20) (take 20 W) ++ zip (seq 20 20) (take 20 (drop 20 W)) ++
          zip (seq 40 20) (take 20 (drop 40 W)) ++ zip (seq 60 20) (take 20 (drop 60 W))
          = zip (seq 0 80) W) as <-; [|by rewrite !app_assoc].
  rewrite <- !zip_with_app by (rewrite ?length_seq, ?length_take, ?length_drop; lia).
  f_equal. by apply split80.
Qed.

(** ** Padding *)

Definition compress_block (h : list Z) (b : bytes) : list Z := compress_W h (schedule b).

Lemma process_full_sha1 c :
  Message_Block_Index c = 64%nat -> length (Message_Block c) = 64%nat ->
  SHA1ProcessMessageBlock c = compress_block (Intermediate_Hash c) (Message_Block c).
Proof. done. Qed.

Lemma zero_upto_spec fuel limit c :
  (Message_Block_Index c <= limit)%nat -> (limit - Message_Block_Index c <= fuel)%nat ->
  (limit <= length (Message_Block c))%nat ->
  zero_upto fuel limit c =
    mkCtx (Intermediate_Hash c) (Length_Low c) (Length_High c) limit
      (take (Message_Block_Index c) (Message_Block c)
         ++ replicate (limit - Message_Block_Index c) 0 ++ drop limit (Message_Block c))
      (Computed c) (Corrupted c).
Proof.
  revert c. induction fuel as [|fuel IH]; intros c Hi Hf Hl; simpl.
  - assert (Message_Block_Index c = limit) as <- by lia.
    rewrite Nat.sub_diag; simpl. rewrite take_drop. by destruct c.
  - btest.
    + rewrite IH by (simpl; rewrite ?length_insert; lia). simpl. f_equal.
      rewrite take_S_insert, <- app_assoc by lia. f_equal. rewrite drop_insert_lt by lia.
      by replace (limit - Message_Block_Index c)%nat with
        (S (limit - S (Message_Block_Index c)))%nat by lia.
    + assert (Message_Block_Index c = limit) as <- by lia.
      rewrite Nat.sub_diag; simpl. rewrite take_drop. by destruct c.
Qed.

Arguments zero_upto : simpl never.
Arguments put_length : simpl never.
Arguments compress_W : simpl never.
Arguments schedule : simpl never.

Lemma le_bytes_4 x : le_bytes 4 x =
  [u8 x; u8 (Z.shiftr x 8); u8 (Z.shiftr x 16); u8 (Z.shiftr x 24)].
Proof. cbn [le_bytes]. unfold u8. rewrite !Z.shiftr_div_pow2, !Z.div_div by lia. done. Qed.

Lemma le_bytes_8 lo hi :
  0 <= lo < 2 ^ 32 -> le_bytes 8 (hi * 2 ^ 32 + lo) = le_bytes 4 lo ++ le_bytes 4 hi.
Proof.
  intros Hlo. apply le_bytes_inj.
  - apply le_bytes_ok.
  - apply bytes_ok_app; split; apply le_bytes_ok.
  - by rewrite length_app, !length_le_bytes.
  - rewrite le_val_app, length_le_bytes, !le_val_le_bytes.
    change (256 ^ Z.of_nat 4) with (2 ^ 32). change (256 ^ Z.of_nat 8) with (2 ^ 32 * 2 ^ 32).
    rewrite Z.rem_mul_r by lia. rewrite (Z.add_comm (hi * 2 ^ 32) lo), Z.mod_add, Z.div_add by lia.
    rewrite (Z.div_small lo), Z.add_0_l, (Z.mod_small lo) by lia. lia.
Qed.

Lemma put_length_block c :
  length (Message_Block c) = 64%nat -> 0 <= Length_Low c < 2 ^ 32 ->
  Message_Block (put_length c) = take 56 (Message_Block c)
    ++ Fips180.be_bytes 8 (Length_High c * 2 ^ 32 + Length_Low c).
Proof.
  intros Hl Hlo. unfold put_length; cbn [Message_Block].
  unfold Fips180.be_bytes. rewrite le_bytes_8, rev_app_distr, !le_bytes_4 by done.
  rewrite <- (take_drop 56 (Message_Block c)) at 1.
  assert (length (take 56 (Message_Block c)) = 56%nat) as Ht by (rewrite length_take; lia).
  assert (length (drop 56 (Message_Block c)) = 8%nat) as Hd by (rewrite length_drop; lia).
  destruct (drop 56 (Message_Block c)) as [|x0 [|x1 [|x2 [|x3 [|x4 [|x5 [|x6 [|x7 [|]]]]]]]]];
    try discriminate Hd.
  rewrite !insert_app_r_alt by lia. rewrite Ht. done.
Qed.

Lemma put_length_other c :
  Intermediate_Hash (put_length c) = Intermediate_Hash c /\
  Message_Block_Index (put_length c) = Message_Block_Index c.
Proof. done. Qed.

(** Compute the context's fields, nothing else. *)
Ltac proj_ctx :=
  cbn [push_byte ProcessMessageBlock Intermediate_Hash Length_Low Length_High
       Message_Block_Index Message_Block Computed Corrupted].

Section padding.
Context (process : SHA1Context -> list Z) (compress : list Z -> bytes -> list Z).
Hypothesis process_def : forall c, process c = compress (Intermediate_Hash c) (Message_Block c).

Lemma absorbed_mod c msg blocks tail :
  absorbed compress c msg blocks tail -> (length msg mod 64 = length tail)%nat.
Proof.
  intros [-> Hb _ Ht _ _ _ _ _ _ _ _]. rewrite length_app.
  assert (exists k, length (mjoin blocks) = 64 * k)%nat as [k ->].
  { clear -Hb. induction Hb as [|b bs Hl _ [k IH]]; simpl; [by exists 0%nat|].
    exists (S k). rewrite length_app, IH, Hl. lia. }
  rewrite Nat.mul_comm, Nat.add_comm, Nat.Div0.mod_add. by apply Nat.mod_small.
Qed.

Lemma length_be_bytes n v : length (Fips180.be_bytes n v) = n.
Proof. unfold Fips180.be_bytes. by rewrite length_rev, length_le_bytes. Qed.

(** The last block: a 56-byte prefix and the length. *)
Lemma last_block c p n :
  length (Message_Block c) = 64%nat -> 0 <= Length_Low c < 2 ^ 32 ->
  take 56 (Message_Block c) = p -> Length_High c * 2 ^ 32 + Length_Low c = n ->
  process (put_length c) =
    compress (Intermediate_Hash c) (p ++ Fips180.be_bytes 8 n).
Proof.
  intros Hl Hlo <- <-. rewrite process_def, put_length_block by done. by rewrite (proj1 (put_length_other c)).
Qed.

Lemma pad_short c msg blocks tail :
  absorbed compress c msg blocks tail -> (length tail <= 55)%nat ->
  Intermediate_Hash (pad_message process c) = foldl compress init_hash
    (blocks ++ [((tail ++ [128]) ++ replicate (55 - length tail) 0)
                  ++ Fips180.be_bytes 8 (8 * Z.of_nat (length msg))]).
Proof.
  intros [Hm Hb Hi Ht Htk Hbl Hh Hlen Hlow Hhigh Hcp Hco] H55. unfold pad_message.
  rewrite Hi. btest; [lia|].
  rewrite zero_upto_spec by (proj_ctx; rewrite ?length_insert; lia). proj_ctx.
  rewrite Hi, take_S_insert, Htk by lia.
  rewrite foldl_app, <- Hh. cbn [foldl].
  erewrite last_block; [proj_ctx; reflexivity|proj_ctx..|exact Hlen]; [|done|].
  - rewrite !length_app, length_replicate, length_drop, length_insert. simpl. lia.
  - rewrite app_assoc, take_app_length'; [by replace (56 - S (length tail))%nat with (55 - length tail)%nat by lia|].
    rewrite !length_app, length_replicate. simpl. lia.
Qed.

Lemma pad_long c msg blocks tail :
  absorbed compress c msg blocks tail -> (55 < length tail)%nat ->
  Intermediate_Hash (pad_message process c) = foldl compress init_hash
    (blocks ++ [(tail ++ [128]) ++ replicate (63 - length tail) 0;
                replicate 56 0 ++ Fips180.be_bytes 8 (8 * Z.of_nat (length msg))]).
Proof.
  intros [Hm Hb Hi Ht Htk Hbl Hh Hlen Hlow Hhigh Hcp Hco] H55. unfold pad_message.
  rewrite Hi. btest; [|lia].
  rewrite (zero_upto_spec 64 64) by (proj_ctx; rewrite ?length_insert; lia). proj_ctx.
  rewrite Hi, take_S_insert, Htk by lia.
  rewrite (drop_ge _ 64), app_nil_r by (rewrite length_insert; lia).
  replace (64 - S (length tail))%nat with (63 - length tail)%nat by lia.
  set (b1 := (tail ++ [128]) ++ replicate (63 - length tail) 0).
  assert (length b1 = 64%nat) as Hb1 by (subst b1; rewrite !length_app, length_replicate; simpl; lia).
  rewrite zero_upto_spec by (proj_ctx; lia). proj_ctx.
  rewrite foldl_app, <- Hh. cbn [foldl].
  erewrite last_block; [proj_ctx; by rewrite process_def|proj_ctx..|exact Hlen]; [|done|].
  - rewrite !length_app, length_take, length_replicate, length_drop. lia.
  - rewrite take_0. cbn [app]. by rewrite take_app_length'.
Qed.

(** After padding, the hash is that of the padded message, block by block. *)
Lemma pad_hash c msg blocks tail :
  absorbed compress c msg blocks tail ->
  exists bs, mjoin bs = Fips180.pad msg /\ Forall (fun b => length b = 64%nat) bs /\
    Intermediate_Hash (pad_message process c) = foldl compress init_hash bs.
Proof.
  intros Hab. pose proof (absorbed_mod _ _ _ _ Hab) as Hmod. unfold Fips180.pad. rewrite Hmod.
  pose proof Hab as [Hm Hb _ Ht _ _ _ _ _ _ _ _].
  destruct (Nat.ltb_spec 55 (length tail)).
  - eexists. split; [|split; [|by apply (pad_long c)]].
    + rewrite join_app. cbn [mjoin list_join]. rewrite app_nil_r. rewrite Hm at 2.
      rewrite <- !app_assoc. do 3 f_equal. rewrite app_assoc, <- replicate_add. do 2 f_equal.
      rewrite Nat.mod_small by lia. lia.
    + apply Forall_app. split; [done|]. rewrite Forall_cons, Forall_singleton.
      rewrite !length_app, length_be_bytes, !length_replicate. simpl. lia.
  - eexists. split; [|split; [|apply (pad_short c); [done|lia]]].
    + rewrite join_app. cbn [mjoin list_join]. rewrite app_nil_r. rewrite Hm at 2.
      rewrite <- !app_assoc.
      replace (119 - length tail)%nat with (55 - length tail + 1 * 64)%nat by lia.
      by rewrite Nat.Div0.mod_add, Nat.mod_small by lia.
    + apply Forall_app. split; [done|]. rewrite Forall_singleton.
      rewrite !length_app, length_be_bytes, length_replicate. simpl. lia.
Qed.
End padding.

(** ** The whole function *)

Lemma digest_fips h : length h = 5%nat -> digest_of h = mjoin (Fips180.be_bytes 4 <$> h).
Proof.
  intros Hl. destruct h as [|a [|b [|c [|d [|e [|]]]]]]; try discriminate Hl.
  unfold digest_of, digest_byte, Fips180.be_bytes. cbn [fmap list_fmap mjoin list_join].
  rewrite !le_bytes_4. done.
Qed.

Lemma length_compress_fips h b : length (Fips180.compress h b) = 5%nat.
Proof. done. Qed.

Lemma foldl_compress_fips bs h :
  Forall (fun b => length b = 64%nat) bs -> bytes_ok (mjoin bs) ->
  foldl compress_block h bs = foldl Fips180.compress h bs.
Proof.
  intros Hl. revert h. induction Hl as [|b bs Hb Hbs IH]; intros h Hok; simpl; [done|].
  simpl in Hok. apply bytes_ok_app in Hok as [Hokb Hok].
  unfold compress_block at 2. rewrite compress_fips by done. by apply IH.
Qed.

Lemma foldl_compress_length bs h :
  length h = 5%nat -> length (foldl Fips180.compress h bs) = 5%nat.
Proof. revert h. induction bs as [|b bs IH]; intros h Hh; simpl; [done|]. by apply IH. Qed.

Lemma pad_ok m : bytes_ok m -> bytes_ok (Fips180.pad m).
Proof.
  intros H. unfold Fips180.pad. rewrite !bytes_ok_app. repeat split; [done| | |].
  - by repeat constructor.
  - apply Forall_replicate. done.
  - apply Forall_rev, le_bytes_ok.
Qed.

Lemma sha1_inputs_absorbed parts : forall c msg blocks tail,
  absorbed compress_block c msg blocks tail -> bytes_ok (mjoin parts) ->
  8 * Z.of_nat (length msg + length (mjoin parts)) < 2 ^ 64 ->
  exists c' bl tl, sha1_inputs (Some c) parts = Some c' /\
    absorbed compress_block c' (msg ++ mjoin parts) bl tl.
Proof.
  induction parts as [|m parts IH]; intros c msg blocks tail Hab Hok Hmax.
  - simpl. rewrite app_nil_r. eauto 10.
  - rewrite mjoin_cons in *. apply bytes_ok_app in Hok as [Hm Hok]. rewrite length_app in Hmax.
    destruct (absorbed_bytes SHA1ProcessMessageBlock compress_block process_full_sha1
                m c msg blocks tail) as (bl & tl & Hab'); [done..|lia|].
    assert (sha1_inputs (Some c) (m :: parts) =
            sha1_inputs (Some (foldl (input_byte SHA1ProcessMessageBlock) c m)) parts) as ->.
    { unfold sha1_inputs; cbn [foldl]. f_equal. unfold SHA1Input, Input.
      destruct (Nat.eqb_spec (length m) 0); [by destruct m|]. destruct Hab as [_ _ _ _ _ _ _ _ _ _ -> ->]. simpl.
      by rewrite firstn_all. }
    destruct (IH _ _ _ _ Hab') as (c' & bl' & tl' & E & H'); [done|rewrite length_app; lia|].
    rewrite <- app_assoc in H'. eauto 10.
Qed.

(** C2: SHA-1 is the standard's function: for any pieces [parts] (at most
    2^64-1 bits in all) and any contents of the uninitialised block buffer,
    [SHA1Reset], one [SHA1Input] per piece and [SHA1Result] succeed and return
    the FIPS 180 digest of the concatenation of the pieces. *)
Theorem SHA1_is_fips180 block0 parts :
  length block0 = 64%nat -> bytes_ok (mjoin parts) ->
  8 * Z.of_nat (length (mjoin parts)) < 2 ^ 64 ->
  sha1_run block0 parts = (shaSuccess, Some (Fips180.sha1 (mjoin parts))).
Proof.
  intros Hb Hok Hmax. unfold sha1_run, SHA1Reset. cbn [Reset snd].
  destruct (sha1_inputs_absorbed parts _ _ _ _ (absorbed_reset compress_block (ctx_of_stack block0) Hb))
    as (c & bl & tl & E & Hab); [done|done|]. rewrite E. simpl app in Hab.
  destruct (pad_hash SHA1ProcessMessageBlock compress_block (fun _ => eq_refl) _ _ _ _ Hab)
    as (bs & Hj & Hl & Hh).
  pose proof Hab as [_ _ _ _ _ _ _ _ _ _ Hcp Hco].
  unfold SHA1Result, Result. rewrite Hco. simpl negb. cbv iota.
  unfold finish. rewrite Hcp, Z.eqb_refl. unfold SHA1PadMessage. cbn [Intermediate_Hash].
  rewrite Hh, foldl_compress_fips by (try done; rewrite Hj; by apply pad_ok).
  rewrite digest_fips by (by apply foldl_compress_length).
  unfold Fips180.sha1. rewrite <- Hj at 1 2. rewrite chunks_join; [done|lia|done|].
  rewrite Hj. assert (length (mjoin bs) = 64 * length bs)%nat as Hlen.
  { clear -Hl. induction Hl as [|b bs Hb _ IH]; simpl; [done|]. rewrite length_app. lia. }
  rewrite <- Hj, Hlen. destruct bs; [|simpl; lia].
  exfalso. apply (f_equal length) in Hj. unfold Fips180.pad in Hj.
  rewrite !length_app in Hj. simpl in Hj. lia.
Qed.

(** The FIPS 180 example message, in two inputs. *)
Lemma SHA1_is_fips180_witness :
  sha1_run (replicate 64 170) [b# "a"; b# "bc"] = (shaSuccess, Some (Fips180.sha1 (b# "abc"))) /\
  Fips180.sha1 (b# "abc") =
    [0xA9; 0x99; 0x3E; 0x36; 0x47; 0x06; 0x81; 0x6A; 0xBA; 0x3E;
     0x25; 0x71; 0x78; 0x50; 0xC2; 0x6C; 0x9C; 0xD0; 0xD8; 0x9D].
Proof.
  split; [|vm_compute; reflexivity].
  apply (SHA1_is_fips180 (replicate 64 170) [b# "a"; b# "bc"]);
    [reflexivity|apply (bool_decide_unpack _); vm_compute; exact I|vm_compute; reflexivity].
Defined.
