(* ===== verification/BSha1.v ===== *)
(** * BSha1: blitzd/crypto/BSHA1Hash.cpp, the "broken SHA-1" of the old logon

    The same context and input loop as SHA-1 with three differences in the
    block function and the padding, kept here as written: message words are
    copied in host order, the word expansion passes its arguments to
    [BSHA1CircularShift] in the other order (so it shifts the constant 1 by the
    exclusive or), and padding processes the unfinished block with the missing
    bytes as zeros.  A shift count of 32 or more takes its low five bits, as
    the x86 shift instructions the server runs on do. *)

From S2P Require Import Prelude Words ShaCtx Sha1.

(** ** The code *)

(** [BSHA1CircularShift(x, 1)]: [(1 << x) | (1 >> (32 - x))]. *)
Definition bshift (x : Z) : Z :=
  Z.lor (u32 (Z.shiftl 1 (x mod 32))) (Z.shiftr 1 (u32 (32 - x) mod 32)).

Fixpoint extend_BW (n : nat) (W : list Z) : list Z :=
  match n with
  | O => W
  | S n' =>
      let t := length W in
      extend_BW n' (W ++ [bshift (Z.lxor (Z.lxor (Z.lxor (W !!! (t - 3)%nat) (W !!! (t - 8)%nat))
                                               (W !!! (t - 14)%nat)) (W !!! (t - 16)%nat))])
  end.

(** [memset(W, 0, sizeof(W)); memcpy(W, Message_Block, Message_Block_Index)]:
    the first sixteen words, in host order. *)
Definition bwords (block : bytes) (index : nat) : list Z :=
  let raw := take index block ++ replicate (64 - index) 0 in
  map (fun t => le_val (take 4 (drop (t * 4) raw))) (seq 0 16).

Definition BSHA1ProcessMessageBlock (c : SHA1Context) : list Z :=
  compress_W (Intermediate_Hash c)
    (extend_BW 64 (bwords (Message_Block c) (Message_Block_Index c))).

Definition BSHA1PadMessage (c : SHA1Context) : SHA1Context :=
  ProcessMessageBlock BSHA1ProcessMessageBlock c.

Definition BSHA1Reset := Reset.
Definition BSHA1Input := Input BSHA1ProcessMessageBlock.
Definition BSHA1Result := Result BSHA1PadMessage.

Definition bsha1_inputs (c : option SHA1Context) (parts : list bytes) : option SHA1Context :=
  foldl (fun c m => (BSHA1Input c (Some m) (length m)).2) c parts.

Definition bsha1_run (block0 : bytes) (parts : list bytes) : Z * option bytes :=
  let c := (BSHA1Reset (Some (ctx_of_stack block0))).2 in
  let '(rc, _, d) := BSHA1Result (bsha1_inputs c parts) (Some (replicate 20 0)) in (rc, d).

(** ** Reference *)

(** One 64-byte block, every word little-endian. *)
Definition bcompress (h : list Z) (b : bytes) : list Z :=
  compress_W h (extend_BW 64 (map (fun t => le_val (take 4 (drop (t * 4) b))) (seq 0 16))).

(** The message with zeros up to the next block boundary (a whole block of
    them when the message ends on one), without any length. *)
Definition zero_pad (m : bytes) : bytes := m ++ replicate (64 - length m mod 64) 0.

Definition bsha1 (m : bytes) : bytes :=
  digest_of (foldl bcompress init_hash (chunks (length (zero_pad m)) 64 (zero_pad m))).

(** ** Equivalence *)

(** The expansion word is a power of two picked by the low five bits. *)
Lemma bshift_pow2 x : 0 <= x < 2 ^ 32 -> bshift x = 2 ^ (x mod 32).
Proof.
  intros Hx. unfold bshift. assert (0 <= x mod 32 < 32) as Hm by solve_mod.
  rewrite Z.shiftl_mul_pow2, Z.mul_1_l by lia.
  assert (0 < 2 ^ (x mod 32) < 2 ^ 32) as Hp.
  { split; [lia|]. apply Z.pow_lt_mono_r; lia. }
  rewrite u32_small by lia.
  assert (u32 (32 - x) mod 32 = (32 - x) mod 32) as ->.
  { unfold u32. change (2 ^ 32) with (32 * 2 ^ 27). rewrite Z.rem_mul_r by lia.
    rewrite Z.mul_comm, Z.mod_add, Z.mod_mod by lia. done. }
  destruct (Z.eqb_spec (x mod 32) 0) as [E|E].
  - assert ((32 - x) mod 32 = 0) as ->; [|by rewrite E].
    apply Z.mod_divide; [lia|]. apply Z.mod_divide in E as [k ->]; [|lia]. exists (1 - k). lia.
  - assert (0 < (32 - x) mod 32 < 32) as Hr.
    { split; [|solve_mod]. Z.div_mod_to_equations. lia. }
    rewrite Z.shiftr_div_pow2 by lia. rewrite (Z.div_small 1); [apply Z.lor_0_r|].
    split; [lia|]. apply Z.pow_gt_1; lia.
Qed.

Lemma process_full_bsha1 c :
  Message_Block_Index c = 64%nat ->
  length (Message_Block c) = 64%nat ->
  BSHA1ProcessMessageBlock c = bcompress (Intermediate_Hash c) (Message_Block c).
Proof.
  intros Hi Hl. unfold BSHA1ProcessMessageBlock, bcompress, bwords. rewrite Hi.
  by rewrite take_ge, Nat.sub_diag, app_nil_r by lia.
Qed.

Lemma bsha1_inputs_absorbed parts : forall c msg blocks tail,
  absorbed bcompress c msg blocks tail -> bytes_ok (mjoin parts) ->
  8 * Z.of_nat (length msg + length (mjoin parts)) < 2 ^ 64 ->
  exists c' bl tl, bsha1_inputs (Some c) parts = Some c' /\
    absorbed bcompress c' (msg ++ mjoin parts) bl tl.
Proof.
  induction parts as [|m parts IH]; intros c msg blocks tail Hab Hok Hmax.
  - simpl. rewrite app_nil_r. eauto 10.
  - rewrite mjoin_cons in *. apply bytes_ok_app in Hok as [Hm Hok]. rewrite length_app in Hmax.
    destruct (absorbed_bytes BSHA1ProcessMessageBlock bcompress process_full_bsha1
                m c msg blocks tail) as (bl & tl & Hab'); [done..|lia|].
    assert (bsha1_inputs (Some c) (m :: parts) =
            bsha1_inputs (Some (foldl (input_byte BSHA1ProcessMessageBlock) c m)) parts) as ->.
    { unfold bsha1_inputs; cbn [foldl]. f_equal. unfold BSHA1Input, Input.
      destruct (Nat.eqb_spec (length m) 0); [by destruct m|].
      destruct Hab as [_ _ _ _ _ _ _ _ _ _ -> ->]. simpl. by rewrite firstn_all. }
    destruct (IH _ _ _ _ Hab') as (c' & bl' & tl' & E & H'); [done|rewrite length_app; lia|].
    rewrite <- app_assoc in H'. eauto 10.
Qed.

Lemma bpad_hash c msg blocks tail :
  absorbed bcompress c msg blocks tail ->
  Intermediate_Hash (BSHA1PadMessage c) =
    foldl bcompress init_hash (blocks ++ [tail ++ replicate (64 - length tail) 0]).
Proof.
  intros [Hm Hb Hi Ht Htk Hbl Hh Hlen Hlow Hhigh Hcp Hco].
  unfold BSHA1PadMessage, BSHA1ProcessMessageBlock. cbn [ProcessMessageBlock Intermediate_Hash].
  rewrite foldl_app, <- Hh. cbn [foldl]. unfold bcompress, bwords. by rewrite Hi, Htk.
Qed.

(** The "broken" hash of the old logon is, for every way of cutting the
    message into inputs and whatever the stack held, the block function folded
    over the message zero-padded to a block boundary: no length is mixed in,
    and a message that ends on a boundary gets one more block of zeros. *)
Theorem BSHA1_is_zero_padded block0 parts :
  length block0 = 64%nat -> bytes_ok (mjoin parts) ->
  8 * Z.of_nat (length (mjoin parts)) < 2 ^ 64 ->
  bsha1_run block0 parts = (shaSuccess, Some (bsha1 (mjoin parts))).
Proof.
  intros Hb Hok Hmax. unfold bsha1_run, BSHA1Reset. cbn [Reset snd].
  destruct (bsha1_inputs_absorbed parts _ _ _ _ (absorbed_reset bcompress (ctx_of_stack block0) Hb))
    as (c & bl & tl & E & Hab); [done|done|]. rewrite E. simpl app in Hab.
  pose proof (absorbed_mod bcompress _ _ _ _ Hab) as Hmod.
  pose proof (bpad_hash _ _ _ _ Hab) as Hh.
  pose proof Hab as [Hm Hbl _ Ht _ _ _ _ _ _ Hcp Hco].
  unfold BSHA1Result, Result. rewrite Hco. simpl negb. cbv iota.
  unfold finish. rewrite Hcp, Z.eqb_refl. cbn [Intermediate_Hash]. rewrite Hh.
  unfold bsha1. do 3 f_equal.
  set (bs := bl ++ [tl ++ replicate (64 - length tl) 0]).
  assert (mjoin bs = zero_pad (mjoin parts)) as Hj.
  { unfold zero_pad. rewrite Hmod. subst bs. rewrite join_app. simpl. rewrite app_nil_r.
    rewrite Hm at 1. by rewrite app_assoc. }
  assert (Forall (fun b => length b = 64%nat) bs) as Hl.
  { apply Forall_app. split; [done|]. rewrite Forall_singleton, length_app, length_replicate. lia. }
  rewrite <- Hj. symmetry. rewrite chunks_join; [done|lia|done|].
  assert (length (mjoin bs) = 64 * length bs)%nat as ->.
  { clear -Hl. induction Hl as [|b l Hb _ IH]; simpl; [done|]. rewrite length_app. lia. }
  subst bs. rewrite length_app. simpl. lia.
Qed.

Lemma BSHA1_is_zero_padded_witness :
  bsha1_run (replicate 64 85) [[1;0;0;0;2;0;0;0]; replicate 20 7] =
    (shaSuccess, Some (bsha1 ([1;0;0;0;2;0;0;0] ++ replicate 20 7))).
Proof.
  apply (BSHA1_is_zero_padded (replicate 64 85) [[1;0;0;0;2;0;0;0]; replicate 20 7]);
    [reflexivity|apply (bool_decide_unpack _); vm_compute; exact I|vm_compute; reflexivity].
Defined.
