(* ===== verification/Crc32.v ===== *)
(** * Crc32: common/crypto/Crc32.cpp

    The lookup table built by the constructor, the table-driven loop of
    [CalcData], and the proof that it is the bit-serial CRC with the reflected
    polynomial 0xEDB88320. *)

From S2P Require Import Prelude Words.

(** ** The code *)

Definition poly : Z := 0xEDB88320.

(** [if(crc & 1) crc = (crc >> 1) ^ poly; else crc >>= 1;] *)
Definition crc_bit (crc : Z) : Z :=
  if Z.eqb (Z.land crc 1) 0 then Z.shiftr crc 1 else Z.lxor (Z.shiftr crc 1) poly.

Fixpoint crc_bits (j : nat) (crc : Z) : Z :=
  match j with
  | O => crc
  | S j' => crc_bits j' (crc_bit crc)
  end.

(** The static table and the [inited] flag of the constructor. *)
Record CRC32_static := mkCrc { inited : bool; crc32_table : list Z }.

Definition CRC32_ctor (s : CRC32_static) : CRC32_static :=
  if inited s then s
  else mkCrc true (map (fun i => crc_bits 8 (Z.of_nat i)) (seq 0 256)).

(** One round of the [while(size > 0)] loop. *)
Definition crc_byte (table : list Z) (crc b : Z) : Z :=
  Z.lxor (Z.shiftr crc 8) (table !!! Z.to_nat (Z.lxor b (Z.land crc 0xFF))).

Definition CalcData (s : CRC32_static) (data : bytes) (initial : Z) : Z :=
  not32 (foldl (crc_byte (crc32_table s)) initial data).

(** [CalcFile]: [content] is what [FileStream::Open] and [Read] deliver ([None]
    when the file cannot be opened), [alloc_ok] whether [_MEM.Alloc] succeeds. *)
Definition CalcFile (s : CRC32_static) (content : option bytes) (alloc_ok : bool) : Z :=
  match content with
  | None => 0
  | Some data => if alloc_ok then CalcData s data 0xFFFFFFFF else 0
  end.

(** ** Reference: one bit at a time *)

Definition crc_serial_byte (crc b : Z) : Z := crc_bits 8 (Z.lxor crc b).
Definition crc_serial (data : bytes) (initial : Z) : Z :=
  not32 (foldl crc_serial_byte initial data).

(** ** Proof *)

Lemma land_1_testbit c : Z.land c 1 = Z.b2z (Z.testbit c 0).
Proof.
  change 1 with (Z.ones 1). rewrite Z.land_ones by lia. change (2 ^ 1) with 2.
  by rewrite Z.bit0_mod.
Qed.

Lemma crc_bit_alt c :
  crc_bit c = if Z.testbit c 0 then Z.lxor (Z.shiftr c 1) poly else Z.shiftr c 1.
Proof. unfold crc_bit. rewrite land_1_testbit. by destruct (Z.testbit c 0). Qed.

(** Shifting and feeding back is linear over exclusive or. *)
Lemma crc_bit_lxor a b : crc_bit (Z.lxor a b) = Z.lxor (crc_bit a) (crc_bit b).
Proof.
  rewrite !crc_bit_alt, Z.lxor_spec, Z.shiftr_lxor.
  apply Z.bits_inj'. intros i Hi.
  destruct (Z.testbit a 0), (Z.testbit b 0); simpl; rewrite !Z.lxor_spec;
    destruct (Z.testbit (Z.shiftr a 1) i), (Z.testbit (Z.shiftr b 1) i), (Z.testbit poly i); done.
Qed.

Lemma crc_bits_lxor n a b : crc_bits n (Z.lxor a b) = Z.lxor (crc_bits n a) (crc_bits n b).
Proof. revert a b. induction n; intros; simpl; [done|]. by rewrite crc_bit_lxor, IHn. Qed.

Lemma crc_bits_shiftl n x : crc_bits n (Z.shiftl x (Z.of_nat n)) = x.
Proof.
  induction n as [|n IH]; simpl crc_bits; [apply Z.shiftl_0_r|].
  rewrite crc_bit_alt, Z.shiftl_spec_low by lia.
  rewrite Z.shiftr_shiftl_l by lia. by replace (Z.of_nat (S n) - 1) with (Z.of_nat n) by lia.
Qed.

Lemma split_low c k : 0 <= k -> c = Z.lxor (Z.shiftl (Z.shiftr c k) k) (Z.land c (Z.ones k)).
Proof.
  intros Hk. apply Z.bits_inj'. intros i Hi. rewrite Z.lxor_spec, Z.land_spec.
  destruct (Z.ltb_spec i k).
  - rewrite Z.shiftl_spec_low, Z.ones_spec_low by lia. by rewrite andb_true_r, xorb_false_l.
  - rewrite Z.shiftl_spec_high, Z.shiftr_spec, Z.ones_spec_high by lia.
    rewrite andb_false_r, xorb_false_r. f_equal. lia.
Qed.

Lemma crc_bits_table c :
  0 <= c -> crc_bits 8 c = Z.lxor (Z.shiftr c 8) (crc_bits 8 (Z.land c 0xFF)).
Proof.
  intros Hc. rewrite (split_low c 8) at 1 by lia.
  rewrite crc_bits_lxor. change 8 with (Z.of_nat 8) at 2. by rewrite crc_bits_shiftl.
Qed.

Lemma land_ff_range c : 0 <= Z.land c 0xFF < 256.
Proof. change 0xFF with (Z.ones 8). rewrite Z.land_ones by lia. solve_mod. Qed.

Lemma table_lookup s i :
  inited s = false -> 0 <= i < 256 ->
  crc32_table (CRC32_ctor s) !!! Z.to_nat i = crc_bits 8 i.
Proof.
  intros Hs Hi. unfold CRC32_ctor. rewrite Hs. cbn [crc32_table].
  change (map ?f ?l) with (f <$> l).
  apply list_lookup_total_correct. rewrite list_lookup_fmap, lookup_seq_lt by lia.
  cbn [fmap option_fmap option_map]. do 2 f_equal. lia.
Qed.

Lemma crc_byte_serial s c b :
  inited s = false -> 0 <= c -> byte_ok b ->
  crc_byte (crc32_table (CRC32_ctor s)) c b = crc_serial_byte c b.
Proof.
  intros Hs Hc Hb. unfold crc_byte, crc_serial_byte, byte_ok in *.
  rewrite crc_bits_table by (apply Z.lxor_nonneg; lia).
  assert (b = Z.land b 0xFF) as Eb.
  { change 0xFF with (Z.ones 8). rewrite Z.land_ones by lia. by rewrite Z.mod_small. }
  assert (Z.lxor b (Z.land c 0xFF) = Z.land (Z.lxor c b) 0xFF) as ->.
  { rewrite Eb at 1. apply Z.bits_inj'. intros i Hi.
    rewrite !Z.lxor_spec, !Z.land_spec, Z.lxor_spec.
    by destruct (Z.testbit c i), (Z.testbit b i), (Z.testbit 0xFF i). }
  rewrite table_lookup by (done || apply land_ff_range). f_equal.
  rewrite Z.shiftr_lxor. rewrite (Z.shiftr_div_pow2 b 8), (Z.div_small b) by lia.
  by rewrite Z.lxor_0_r.
Qed.

Lemma crc_bits_nonneg n c : 0 <= c -> 0 <= crc_bits n c.
Proof.
  revert c. induction n as [|n IH]; intros c Hc; simpl; [done|]. apply IH.
  rewrite crc_bit_alt. destruct (Z.testbit c 0); [|by apply Z.shiftr_nonneg].
  apply Z.lxor_nonneg. rewrite Z.shiftr_nonneg. unfold poly. lia.
Qed.

(** C33: the table-driven checksum is the bit-serial one: after the constructor
    has built its table, [CalcData] over any bytes and any initial value equals
    the CRC that feeds the message in one bit at a time. *)
Theorem CalcData_is_serial s data initial :
  inited s = false -> 0 <= initial < 2 ^ 32 -> bytes_ok data ->
  CalcData (CRC32_ctor s) data initial = crc_serial data initial.
Proof.
  intros Hs Hi Hd. unfold CalcData, crc_serial. f_equal.
  assert (0 <= initial) as H0 by lia. clear Hi. revert initial H0.
  induction Hd as [|b data Hb Hd IH]; intros c Hc; cbn [foldl]; [done|].
  rewrite crc_byte_serial by done. apply IH. unfold crc_serial_byte. apply crc_bits_nonneg.
  apply Z.lxor_nonneg. unfold byte_ok in Hb. lia.
Qed.

(** The check value of the CRC-32 catalogue. *)
Lemma CalcData_is_serial_witness :
  CalcData (CRC32_ctor (mkCrc false [])) (b# "123456789") 0xFFFFFFFF =
    crc_serial (b# "123456789") 0xFFFFFFFF /\
  crc_serial (b# "123456789") 0xFFFFFFFF = 0xCBF43926.
Proof.
  split; [|vm_compute; reflexivity].
  apply CalcData_is_serial; [reflexivity|lia|apply (bool_decide_unpack _); vm_compute; exact I].
Defined.
