(* ===== verification/Srp3.v ===== *)
(** * Srp3: blitzd/crypto/BnetSRP3.cpp, the password-authenticated key exchange

    [Crypto::BnetSRP3] with both roles: the client's (user name and password)
    and the server's (user name and salt).  The multi-precision arithmetic is
    GMP, whose code is not part of the repository: it is the parameter [Gmp],
    with the documented behaviour of the functions used as the laws
    [GmpLaws].  [mpz_export] writes as many bytes as the number has, so the
    fixed-size buffers it is given keep their old contents above them; those
    contents are the [junk] arguments. *)

From Stdlib Require Import Zpow_facts.
From S2P Require Import Prelude Words Stream CStr ShaCtx Sha1.

(** ** GMP *)

Record Gmp := {
  mpz_powm : Z -> Z -> Z -> Z;
  mpz_add : Z -> Z -> Z;
  mpz_sub : Z -> Z -> Z;
  mpz_mul : Z -> Z -> Z;
  mpz_mod : Z -> Z -> Z;
  (** [mpz_import(r, n, -1, 1, 0, 0, p)]: bytes, least significant first. *)
  mpz_import : bytes -> Z;
  (** [mpz_export(p, NULL, -1, 1, 0, 0, z)]: the bytes written. *)
  mpz_export : Z -> bytes;
  (** [mpz_export(p, NULL, 1, 4, -1, 0, z)]: 32-bit words, most significant
      first, each little-endian. *)
  mpz_export_words : Z -> bytes
}.

(** The number of bytes of a non-negative number, 0 for 0. *)
Definition nbytes (z : Z) : nat := Z.to_nat (if z =? 0 then 0 else Z.log2 z / 8 + 1).

Class GmpLaws (G : Gmp) : Prop := {
  powm_law : forall b e m, 0 <= e -> 0 < m -> mpz_powm G b e m = b ^ e mod m;
  add_law : forall a b, mpz_add G a b = a + b;
  sub_law : forall a b, mpz_sub G a b = a - b;
  mul_law : forall a b, mpz_mul G a b = a * b;
  mod_law : forall a m, 0 < m -> mpz_mod G a m = a mod m;
  import_law : forall l, bytes_ok l -> mpz_import G l = le_val l;
  export_law : forall z, 0 <= z -> mpz_export G z = le_bytes (nbytes z) z
}.

(** ** Constants *)

Definition SRP3_N : bytes :=
  [0x87; 0xC7; 0x23; 0x85; 0x65; 0xF6; 0x16; 0x12; 0xD9; 0x12; 0x32; 0xC7; 0x78; 0x6C; 0x97; 0x7E;
   0x55; 0xB5; 0x92; 0xA0; 0x8C; 0xB6; 0x86; 0x21; 0x03; 0x18; 0x99; 0x61; 0x8B; 0x1A; 0xFF; 0xF8].

Definition SRP3_I : bytes :=
  [0x6c; 0x0e; 0x97; 0xed; 0x0a; 0xf9; 0x6b; 0xab; 0xb1; 0x58; 0x89; 0xeb; 0x8b; 0xba; 0x25; 0xa4;
   0xf0; 0x8c; 0x01; 0xf8].

Definition SRP3_g : Z := 0x2F.

(** ** The object *)

Record BnetSRP3 := mkSRP {
  key_a : Z;
  key_b : Z;
  key_B : Z;
  B_inited : bool;
  username : bytes;
  password : bytes;
  raw_salt : bytes
}.

(** [memcpy]-like overwrite of the front of a buffer. *)
Definition overlay (src dst : bytes) : bytes := src ++ drop (length src) dst.

Section srp3.
Context (G : Gmp).
(** The uninitialised block buffer of the [SHA1Context]s on the stack. *)
Context (stack_block : bytes).

Definition srp_N : Z := mpz_import G SRP3_N.

(** [SHA1Reset]; one [SHA1Input] per part; [SHA1Result]. *)
Definition sha1_digest (parts : list bytes) : bytes :=
  default [] (sha1_run stack_block parts).2.

(** [init] for the two kinds of constructor; [rnd] and [rnd_salt] are what
    [mpz_urandomm(_, rand, N)] and [mpz_urandomb(s, rand, 256)] return, and
    [old_salt] the uninitialised [raw_salt]. *)
Definition init_client (username_ password_ : bytes) (rnd rnd_salt : Z) (old_salt : bytes)
  : BnetSRP3 :=
  mkSRP rnd 0 0 false (map toupper (cstr username_)) (map toupper (cstr password_))
        (overlay (mpz_export_words G rnd_salt) old_salt).
Definition init_server (username_ salt_ : bytes) (rnd : Z) : BnetSRP3 :=
  mkSRP 0 rnd 0 false (map toupper (cstr username_)) [] (take 32 salt_).

Definition getClientPrivateKey (s : BnetSRP3) : Z :=
  let userpass := username s ++ [58] ++ password s in
  let userpass_hash := sha1_digest [userpass] in
  mpz_import G (sha1_digest [raw_salt s; userpass_hash]).

Definition getVerifier (s : BnetSRP3) : Z :=
  mpz_powm G SRP3_g (getClientPrivateKey s) srp_N.

Definition getSalt (s : BnetSRP3) : bytes := raw_salt s.
Definition setSalt (salt : bytes) (s : BnetSRP3) : BnetSRP3 :=
  mkSRP (key_a s) (key_b s) (key_B s) (B_inited s) (username s) (password s) (take 32 salt).

Definition getClientSessionPublicKey (s : BnetSRP3) : Z :=
  mpz_powm G SRP3_g (key_a s) srp_N.

Definition getServerSessionPublicKey (v : Z) (s : BnetSRP3) : Z * BnetSRP3 :=
  if B_inited s then (key_B s, s)
  else
    let B := mpz_powm G SRP3_g (key_b s) srp_N in
    let B := mpz_add G B v in
    let B := mpz_mod G B srp_N in
    (B, mkSRP (key_a s) (key_b s) B true (username s) (password s) (raw_salt s)).

(** [htonl] of the first word of the SHA-1 of the 32-byte image of [B_]. *)
Definition getScrambler (junk : bytes) (B_ : Z) : Z :=
  let raw_B := overlay (mpz_export G B_) junk in
  Reverse (le_val (take 4 (sha1_digest [raw_B]))).

Definition getClientSecret (junk : bytes) (B_ : Z) (s : BnetSRP3) : Z :=
  let x := getClientPrivateKey s in
  let u := getScrambler junk B_ in
  let temp := mpz_powm G SRP3_g x srp_N in
  let result := mpz_sub G (mpz_add G srp_N B_) temp in
  let temp := mpz_add G (mpz_mul G x u) (key_a s) in
  mpz_powm G result temp srp_N.

Definition getServerSecret (junk : bytes) (A v : Z) (s : BnetSRP3) : Z * BnetSRP3 :=
  let '(B_, s) := getServerSessionPublicKey v s in
  let u := getScrambler junk B_ in
  let result := mpz_powm G v u srp_N in
  let result := mpz_mul G result A in
  let result := mpz_mod G result srp_N in
  (mpz_powm G result (key_b s) srp_N, s).

(** The [for(i=0; i<16; i++)] loop: even and odd bytes of the raw secret. *)
Fixpoint split_pairs (l : bytes) : bytes * bytes :=
  match l with
  | x :: y :: l' => let '(o, e) := split_pairs l' in (x :: o, y :: e)
  | _ => ([], [])
  end.
(** The second loop interleaves the two hashes again. *)
Fixpoint interleave (o e : bytes) : bytes :=
  match o, e with
  | x :: o', y :: e' => x :: y :: interleave o' e'
  | _, _ => []
  end.

Definition hashSecret (junk : bytes) (secret : Z) : Z :=
  let raw_secret := take 32 (overlay (mpz_export G secret) junk) in
  let '(odd, even) := split_pairs raw_secret in
  let hashedSecret := interleave (sha1_digest [odd]) (sha1_digest [even]) in
  mpz_import G hashedSecret.

Definition getHashedClientSecret (junk1 junk2 : bytes) (B_ : Z) (s : BnetSRP3) : Z :=
  hashSecret junk2 (getClientSecret junk1 B_ s).
Definition getHashedServerSecret (junk1 junk2 : bytes) (A v : Z) (s : BnetSRP3) : Z * BnetSRP3 :=
  let '(secret, s) := getServerSecret junk1 A v s in (hashSecret junk2 secret, s).

Definition getClientPasswordProof (jA jB jK : bytes) (A B_ K : Z) (s : BnetSRP3) : bytes :=
  let usernameHash := sha1_digest [username s] in
  sha1_digest [SRP3_I; usernameHash; raw_salt s;
               take 32 (overlay (mpz_export G A) jA);
               take 32 (overlay (mpz_export G B_) jB);
               take 40 (overlay (mpz_export G K) jK)].

Definition getServerPasswordProof (jA jK : bytes) (A : Z) (M : bytes) (K : Z) : bytes :=
  sha1_digest [take 32 (overlay (mpz_export G A) jA); M;
               take 40 (overlay (mpz_export G K) jK)].

(** ** Key agreement *)

Context `{!GmpLaws G}.

Lemma srp_N_val : srp_N = le_val SRP3_N.
Proof. apply import_law. apply (bool_decide_unpack _). vm_compute. exact I. Qed.

Lemma srp_N_pos : 0 < srp_N.
Proof. rewrite srp_N_val. by vm_compute. Qed.

Lemma sha1_digest_ok parts : bytes_ok (sha1_digest parts).
Proof.
  unfold sha1_digest, sha1_run, SHA1Result, Result.
  assert (bytes_ok (replicate 20 0)) as H0 by (apply Forall_replicate; done).
  destruct (sha1_inputs _ _) as [c|]; [|exact H0].
  destruct (negb (Corrupted c =? 0)); [exact H0|]. cbn [snd default from_option id].
  apply Forall_fmap, Forall_true. intros i. apply u8_range.
Qed.

Lemma getClientPrivateKey_nonneg s : 0 <= getClientPrivateKey s.
Proof.
  unfold getClientPrivateKey. rewrite import_law by apply sha1_digest_ok.
  apply le_val_range, sha1_digest_ok.
Qed.

Lemma Forall_take' {A} (P : A -> Prop) n l : Forall P l -> Forall P (take n l).
Proof. apply Forall_take. Qed.

Lemma getScrambler_nonneg junk B_ : 0 <= getScrambler junk B_.
Proof.
  unfold getScrambler. set (w := le_val _).
  assert (0 <= w < 2 ^ 32) as Hw.
  { subst w. set (l := take 4 _). assert (bytes_ok l) as Hl by apply Forall_take', sha1_digest_ok.
    pose proof (le_val_range l Hl) as H. split; [lia|]. eapply Z.lt_le_trans; [apply H|].
    change (2 ^ 32) with (256 ^ 4). apply Z.pow_le_mono_r; [lia|].
    subst l. rewrite length_take. lia. }
  by apply Reverse_range.
Qed.

Lemma pow_mod_mod a k n : 0 < n -> (a mod n) ^ k mod n = a ^ k mod n.
Proof. intros. symmetry. by apply Zpower_mod. Qed.

(** The server's and the client's secret are the same power of [g], for any
    private keys: with [v] the client's verifier, [A] its public key and [B]
    the server's. *)
Lemma secrets_agree (cl sv : BnetSRP3) (jc js : bytes) :
  0 <= key_a cl -> 0 <= key_b sv -> B_inited sv = false ->
  let v := getVerifier cl in
  let A := getClientSessionPublicKey cl in
  let B := (getServerSessionPublicKey v sv).1 in
  getScrambler jc B = getScrambler js B ->
  getClientSecret jc B cl = (getServerSecret js A v sv).1.
Proof.
  intros Ha Hb HB v A B. subst B. unfold getServerSecret.
  destruct (getServerSessionPublicKey v sv) as [B sv'] eqn:E. cbn [fst]. intros Hu.
  pose proof srp_N_pos as HN. pose proof (getClientPrivateKey_nonneg cl) as Hx.
  pose proof (getScrambler_nonneg js B) as Hun.
  assert (key_b sv' = key_b sv /\ B = (SRP3_g ^ key_b sv + v) mod srp_N) as [-> EB].
  { unfold getServerSessionPublicKey in E. rewrite HB in E. injection E as <- <-. split; [done|].
    rewrite mod_law, add_law, powm_law by done. by rewrite Z.add_mod_idemp_l by lia. }
  clear E HB.
  unfold getClientSecret. rewrite Hu. set (u := getScrambler js B) in *.
  set (x := getClientPrivateKey cl) in *.
  assert (v = SRP3_g ^ x mod srp_N) as Ev by (subst v; unfold getVerifier; by rewrite powm_law).
  assert (A = SRP3_g ^ key_a cl mod srp_N) as EA
    by (subst A; unfold getClientSessionPublicKey; by rewrite powm_law).
  rewrite !add_law, sub_law, !mul_law, mod_law, !powm_law by (done || lia || nia).
  rewrite <- Ev. rewrite EA. clear EA A Hu.
  assert ((srp_N + B - v) mod srp_N = SRP3_g ^ key_b sv mod srp_N) as Hbase.
  { rewrite EB. replace (srp_N + (SRP3_g ^ key_b sv + v) mod srp_N - v)
      with ((SRP3_g ^ key_b sv + v) mod srp_N - v + 1 * srp_N) by lia.
    rewrite Z.mod_add, Zminus_mod_idemp_l by lia. f_equal. lia. }
  rewrite <- pow_mod_mod, Hbase, pow_mod_mod by done.
  assert ((v ^ u mod srp_N * (SRP3_g ^ key_a cl mod srp_N)) mod srp_N
          = SRP3_g ^ (x * u + key_a cl) mod srp_N) as ->.
  { rewrite <- Z.mul_mod by lia. rewrite <- Z.mul_mod_idemp_l, Ev, pow_mod_mod by lia.
    rewrite Z.mul_mod_idemp_l, <- Z.pow_mul_r, <- Z.pow_add_r by nia. done. }
  rewrite pow_mod_mod by done. rewrite <- !Z.pow_mul_r by nia. f_equal. f_equal. lia.
Qed.

(** A number that needs exactly [n] bytes fills an [n]-byte buffer. *)
Definition fills (n : nat) (z : Z) : Prop := 256 ^ (Z.of_nat n - 1) <= z < 256 ^ Z.of_nat n.

#[export] Instance fills_dec n z : Decision (fills n z).
Proof. unfold fills. apply _. Defined.

Lemma export_fills n z junk :
  (0 < n)%nat -> fills n z -> length junk = n -> overlay (mpz_export G z) junk = le_bytes n z.
Proof.
  intros Hn [Hlo Hhi] Hj.
  assert (0 < z) as Hz by (pose proof (Z.pow_pos_nonneg 256 (Z.of_nat n - 1)); lia).
  assert (nbytes z = n) as E.
  { unfold nbytes. btest; [lia|].
    assert (8 * (Z.of_nat n - 1) <= Z.log2 z < 8 * Z.of_nat n) as Hl; [|Z.div_mod_to_equations; lia].
    change 256 with (2 ^ 8) in *. rewrite <- !Z.pow_mul_r in * by lia. split.
    - by apply Z.log2_le_pow2.
    - by apply Z.log2_lt_pow2. }
  unfold overlay. rewrite export_law by lia. rewrite E, length_le_bytes, drop_ge by lia.
  apply app_nil_r.
Qed.

Lemma take_le_bytes n z : take n (le_bytes n z) = le_bytes n z.
Proof. apply take_ge. by rewrite length_le_bytes. Qed.

End srp3.

(** ** An executable instance *)

(** Modular exponentiation by squaring, as [mpz_powm] is documented. *)
Definition gmp_ref : Gmp := {|
  mpz_powm := fun b e m => Zpow_mod b e m;
  mpz_add := Z.add; mpz_sub := Z.sub; mpz_mul := Z.mul; mpz_mod := Z.modulo;
  mpz_import := le_val;
  mpz_export := fun z => le_bytes (nbytes z) z;
  mpz_export_words := fun z => le_bytes 32 z
|}.

#[export] Instance gmp_ref_laws : GmpLaws gmp_ref.
Proof.
  split; try done. intros b e m He Hm. simpl. rewrite Zpow_mod_correct by lia. done.
Qed.


(** The bytes above a short number are read uninitialised: for a public
    key [B] below 2^248 the scrambler [u] that client and server must agree on
    depends on what the stack held before the call. *)
Theorem scrambler_reads_stack :
  exists B j1 j2, 0 < B < 2 ^ 248 /\ length j1 = 32%nat /\ length j2 = 32%nat /\
    getScrambler gmp_ref (replicate 64 0) j1 B <> getScrambler gmp_ref (replicate 64 0) j2 B.
Proof.
  exists (2 ^ 247 + 1), (replicate 32 0), (replicate 32 255).
  repeat split; try reflexivity. vm_compute. discriminate.
Qed.
