(* ===== verification/NumFmt.v ===== *)
(** * NumFmt: [Utils::NumberFormatter] of common/utils/NumberFormatter.{h,cpp}

    The integer overloads.  Each one prints into a [char buffer[64]] with
    [sprintf] and appends the buffer; the width overloads assert their width
    first.  An operation returns [None] when the assertion fails or the text
    does not fit the buffer. *)

From S2P Require Import Prelude Words.

(** ** [sprintf] of one integer conversion *)

Definition digit (d : Z) : Z := if d <? 10 then 48 + d else 55 + d.

(** Digits of [n] in [base], most significant first; [fuel] digits at most. *)
Fixpoint digits (fuel : nat) (base n : Z) : bytes :=
  match fuel with
  | O => []
  | S fuel' => if n <? base then [digit n]
               else digits fuel' base (n / base) ++ [digit (n mod base)]
  end.

(** As many rounds as [n] has bits are enough for every base from two on. *)
Definition print_nat (base n : Z) : bytes := digits (S (Z.to_nat (Z.log2 n))) base n.

(** [%d], [%*d] and [%0*d]: sign, then zeros or, before the sign, spaces. *)
Definition fmt_dec (zero : bool) (width : nat) (v : Z) : bytes :=
  let sign := if v <? 0 then [45] else [] in
  let body := print_nat 10 (Z.abs v) in
  let fill := (width - length (sign ++ body))%nat in
  if zero then sign ++ replicate fill 48 ++ body else replicate fill 32 ++ sign ++ body.

(** [%X] and [%0*X] of a value converted to an unsigned type of [bits] bits. *)
Definition fmt_hex (width : nat) (bits v : Z) : bytes :=
  let body := print_nat 16 (v mod 2 ^ bits) in
  replicate (width - length body) 48 ++ body.

(** ** The overloads *)

(** The integer types; [long] as on the 64-bit POSIX targets. *)
Inductive ctype := Tint | Tunsigned | Tlong | Tulong | TInt64 | TUInt64.

Definition bits_of (t : ctype) : Z := match t with Tint | Tunsigned => 32 | _ => 64 end.
Definition is_signed (t : ctype) : bool :=
  match t with Tint | Tlong | TInt64 => true | _ => false end.
Definition in_range (t : ctype) (v : Z) : Prop :=
  if is_signed t then - 2 ^ (bits_of t - 1) <= v < 2 ^ (bits_of t - 1) else 0 <= v < 2 ^ bits_of t.

(** [char buffer[64]; sprintf(buffer, ...); str.append(buffer)]. *)
Definition put64 (str text : bytes) : option bytes :=
  if Nat.leb (length text + 1) 64 then Some (str ++ text) else None.
(** [assert (width > 0 && width < 64)]. *)
Definition assert_width (width : nat) (k : option bytes) : option bytes :=
  if Nat.ltb 0 width && Nat.ltb width 64 then k else None.

Definition append_as (t : ctype) (str : bytes) (value : Z) : option bytes :=
  put64 str (fmt_dec false 0 value).
Definition append_w_as (t : ctype) (str : bytes) (value : Z) (width : nat) : option bytes :=
  assert_width width (put64 str (fmt_dec false width value)).
Definition append0_as (t : ctype) (str : bytes) (value : Z) (width : nat) : option bytes :=
  assert_width width (put64 str (fmt_dec true width value)).
Definition appendHex_as (t : ctype) (str : bytes) (value : Z) : option bytes :=
  put64 str (fmt_hex 0 (bits_of t) value).
Definition appendHex_w_as (t : ctype) (str : bytes) (value : Z) (width : nat) : option bytes :=
  assert_width width (put64 str (fmt_hex width (bits_of t) value)).

(** [int] *)
Definition append_int (str : bytes) (value : Z) := append_as Tint str value.
Definition append_int_w (str : bytes) (value : Z) (width : nat) := append_w_as Tint str value width.
Definition append0_int (str : bytes) (value : Z) (width : nat) := append0_as Tint str value width.
Definition appendHex_int (str : bytes) (value : Z) := appendHex_as Tint str value.
Definition appendHex_int_w (str : bytes) (value : Z) (width : nat) := appendHex_w_as Tint str value width.
Definition format_int (value : Z) := append_int [] value.
Definition format_int_w (value : Z) (width : nat) := append_int_w [] value width.
Definition format0_int (value : Z) (width : nat) := append0_int [] value width.
Definition formatHex_int (value : Z) := appendHex_int [] value.
Definition formatHex_int_w (value : Z) (width : nat) := appendHex_int_w [] value width.

(** [unsigned] *)
Definition append_unsigned (str : bytes) (value : Z) := append_as Tunsigned str value.
Definition append_unsigned_w (str : bytes) (value : Z) (width : nat) := append_w_as Tunsigned str value width.
Definition append0_unsigned (str : bytes) (value : Z) (width : nat) := append0_as Tunsigned str value width.
Definition appendHex_unsigned (str : bytes) (value : Z) := appendHex_as Tunsigned str value.
Definition appendHex_unsigned_w (str : bytes) (value : Z) (width : nat) := appendHex_w_as Tunsigned str value width.
Definition format_unsigned (value : Z) := append_unsigned [] value.
Definition format_unsigned_w (value : Z) (width : nat) := append_unsigned_w [] value width.
Definition format0_unsigned (value : Z) (width : nat) := append0_unsigned [] value width.
Definition formatHex_unsigned (value : Z) := appendHex_unsigned [] value.
Definition formatHex_unsigned_w (value : Z) (width : nat) := appendHex_unsigned_w [] value width.

(** [long] *)
Definition append_long (str : bytes) (value : Z) := append_as Tlong str value.
Definition append_long_w (str : bytes) (value : Z) (width : nat) := append_w_as Tlong str value width.
Definition append0_long (str : bytes) (value : Z) (width : nat) := append0_as Tlong str value width.
Definition appendHex_long (str : bytes) (value : Z) := appendHex_as Tlong str value.
Definition appendHex_long_w (str : bytes) (value : Z) (width : nat) := appendHex_w_as Tlong str value width.
Definition format_long (value : Z) := append_long [] value.
Definition format_long_w (value : Z) (width : nat) := append_long_w [] value width.
Definition format0_long (value : Z) (width : nat) := append0_long [] value width.
Definition formatHex_long (value : Z) := appendHex_long [] value.
Definition formatHex_long_w (value : Z) (width : nat) := appendHex_long_w [] value width.

(** [unsigned long] *)
Definition append_ulong (str : bytes) (value : Z) := append_as Tulong str value.
Definition append_ulong_w (str : bytes) (value : Z) (width : nat) := append_w_as Tulong str value width.
Definition append0_ulong (str : bytes) (value : Z) (width : nat) := append0_as Tulong str value width.
Definition appendHex_ulong (str : bytes) (value : Z) := appendHex_as Tulong str value.
Definition appendHex_ulong_w (str : bytes) (value : Z) (width : nat) := appendHex_w_as Tulong str value width.
Definition format_ulong (value : Z) := append_ulong [] value.
Definition format_ulong_w (value : Z) (width : nat) := append_ulong_w [] value width.
Definition format0_ulong (value : Z) (width : nat) := append0_ulong [] value width.
Definition formatHex_ulong (value : Z) := appendHex_ulong [] value.
Definition formatHex_ulong_w (value : Z) (width : nat) := appendHex_ulong_w [] value width.

(** [Int64] *)
Definition append_Int64 (str : bytes) (value : Z) := append_as TInt64 str value.
Definition append_Int64_w (str : bytes) (value : Z) (width : nat) := append_w_as TInt64 str value width.
Definition append0_Int64 (str : bytes) (value : Z) (width : nat) := append0_as TInt64 str value width.
Definition appendHex_Int64 (str : bytes) (value : Z) := appendHex_as TInt64 str value.
Definition appendHex_Int64_w (str : bytes) (value : Z) (width : nat) := appendHex_w_as TInt64 str value width.
Definition format_Int64 (value : Z) := append_Int64 [] value.
Definition format_Int64_w (value : Z) (width : nat) := append_Int64_w [] value width.
Definition format0_Int64 (value : Z) (width : nat) := append0_Int64 [] value width.
Definition formatHex_Int64 (value : Z) := appendHex_Int64 [] value.
Definition formatHex_Int64_w (value : Z) (width : nat) := appendHex_Int64_w [] value width.

(** [UInt64] *)
Definition append_UInt64 (str : bytes) (value : Z) := append_as TUInt64 str value.
Definition append_UInt64_w (str : bytes) (value : Z) (width : nat) := append_w_as TUInt64 str value width.
Definition append0_UInt64 (str : bytes) (value : Z) (width : nat) := append0_as TUInt64 str value width.
Definition appendHex_UInt64 (str : bytes) (value : Z) := appendHex_as TUInt64 str value.
Definition appendHex_UInt64_w (str : bytes) (value : Z) (width : nat) := appendHex_w_as TUInt64 str value width.
Definition format_UInt64 (value : Z) := append_UInt64 [] value.
Definition format_UInt64_w (value : Z) (width : nat) := append_UInt64_w [] value width.
Definition format0_UInt64 (value : Z) (width : nat) := append0_UInt64 [] value width.
Definition formatHex_UInt64 (value : Z) := appendHex_UInt64 [] value.
Definition formatHex_UInt64_w (value : Z) (width : nat) := appendHex_UInt64_w [] value width.

(** ** Reading numbers back *)

Definition undigit (c : Z) : Z := if c <=? 57 then c - 48 else c - 55.
Definition parse_nat (base : Z) (s : bytes) : Z := foldl (fun a c => a * base + undigit c) 0 s.
(** [strtol]-like: leading spaces, an optional minus, digits. *)
Fixpoint parse_dec (s : bytes) : Z :=
  match s with
  | c :: s' => if c =? 32 then parse_dec s' else if c =? 45 then - parse_nat 10 s' else parse_nat 10 s
  | [] => 0
  end.

Lemma undigit_digit d : 0 <= d < 16 -> undigit (digit d) = d.
Proof. intros. unfold undigit, digit. repeat btest; lia. Qed.

Lemma digit_range d : 0 <= d < 16 -> 48 <= digit d <= 57 \/ 65 <= digit d <= 70.
Proof. intros. unfold digit. btest; lia. Qed.

Lemma parse_nat_snoc base s c : parse_nat base (s ++ [c]) = parse_nat base s * base + undigit c.
Proof. unfold parse_nat. by rewrite foldl_app. Qed.

Section digits.
Context (base : Z) (Hbase : 2 <= base <= 16).

Lemma div_bound n k : 0 <= n -> n < base ^ Z.of_nat (S k) -> n / base < base ^ Z.of_nat k.
Proof.
  intros Hn H. apply Z.div_lt_upper_bound; [lia|].
  rewrite Nat2Z.inj_succ, Z.pow_succ_r in H by lia. lia.
Qed.

Lemma digits_parse fuel n :
  0 <= n < base ^ Z.of_nat fuel -> (0 < fuel)%nat -> parse_nat base (digits fuel base n) = n.
Proof.
  revert n. induction fuel as [|fuel IH]; intros n Hn Hf; [lia|]. cbn [digits].
  btest; [unfold parse_nat; simpl; rewrite undigit_digit; lia|].
  rewrite parse_nat_snoc. pose proof (Z.mod_pos_bound n base ltac:(lia)).
  pose proof (div_bound n fuel ltac:(lia) ltac:(lia)). pose proof (Z.div_pos n base ltac:(lia) ltac:(lia)).
  rewrite undigit_digit by lia. destruct fuel as [|fuel].
  - change (Z.of_nat 1) with 1 in Hn. rewrite Z.pow_1_r in Hn. lia.
  - rewrite IH by lia. pose proof (Z.div_mod n base ltac:(lia)). lia.
Qed.

Lemma digits_length fuel n k :
  0 <= n < base ^ Z.of_nat k -> (0 < k)%nat -> (length (digits fuel base n) <= k)%nat.
Proof.
  revert n k. induction fuel as [|fuel IH]; intros n k Hn Hk; cbn [digits]; [simpl; lia|].
  btest; [simpl; lia|]. rewrite length_app; simpl. destruct k as [|[|k]]; [lia| |].
  - change (Z.of_nat 1) with 1 in Hn. rewrite Z.pow_1_r in Hn. lia.
  - specialize (IH (n / base) (S k)). pose proof (div_bound n (S k) ltac:(lia) ltac:(lia)).
    pose proof (Z.div_pos n base ltac:(lia) ltac:(lia)). lia.
Qed.

Lemma digits_char fuel n : 0 <= n ->
  Forall (fun c => 48 <= c <= 57 \/ 65 <= c <= 70) (digits fuel base n).
Proof.
  revert n. induction fuel as [|fuel IH]; intros n Hn; cbn [digits]; [constructor|].
  btest; [constructor; [apply digit_range; lia|constructor]|].
  apply Forall_app. split; [apply IH, Z.div_pos; lia|].
  constructor; [|constructor]. apply digit_range. pose proof (Z.mod_pos_bound n base). lia.
Qed.

Lemma digits_nonempty fuel n : (0 < fuel)%nat -> digits fuel base n <> [].
Proof. destruct fuel; [lia|]. intros _. cbn [digits]. btest; [done|]. by destruct (digits _ _ _). Qed.

Lemma print_fuel n : 0 <= n -> n < base ^ Z.of_nat (S (Z.to_nat (Z.log2 n))).
Proof.
  intros Hn. destruct (decide (n = 0)) as [->|]; [simpl; lia|].
  pose proof (Z.log2_spec n ltac:(lia)) as [_ H]. pose proof (Z.log2_nonneg n).
  rewrite Nat2Z.inj_succ, Z2Nat.id by lia.
  eapply Z.lt_le_trans; [exact H|]. apply Z.pow_le_mono_l. lia.
Qed.

Lemma print_parse n : 0 <= n -> parse_nat base (print_nat base n) = n.
Proof. intros. apply digits_parse; [|lia]. split; [done|]. by apply print_fuel. Qed.

End digits.

Lemma parse_zeros base k s : parse_nat base (replicate k 48 ++ s) = parse_nat base s.
Proof. induction k as [|k IH]; [done|]. simpl. unfold parse_nat in *. simpl. exact IH. Qed.

Lemma parse_dec_spaces k s : parse_dec (replicate k 32 ++ s) = parse_dec s.
Proof. induction k as [|k IH]; [done|]. simpl. exact IH. Qed.

Lemma parse_dec_nat c s : 48 <= c -> parse_dec (c :: s) = parse_nat 10 (c :: s).
Proof. intros. cbn [parse_dec]. repeat btest; try lia; done. Qed.

Lemma print_nat_head base n : 2 <= base <= 16 -> 0 <= n ->
  exists c s, print_nat base n = c :: s /\ 48 <= c.
Proof.
  intros Hb Hn. unfold print_nat. pose proof (digits_nonempty base (S (Z.to_nat (Z.log2 n))) n ltac:(lia)).
  pose proof (digits_char base Hb (S (Z.to_nat (Z.log2 n))) n Hn) as Hc.
  destruct (digits _ _ _) as [|c s]; [done|]. exists c, s. split; [done|]. inversion Hc; lia.
Qed.

Lemma fmt_dec_parse zero width v : parse_dec (fmt_dec zero width v) = v.
Proof.
  unfold fmt_dec. destruct (print_nat_head 10 (Z.abs v)) as (c & s & E & Hc); [lia..|].
  assert (parse_nat 10 (print_nat 10 (Z.abs v)) = Z.abs v) as Hp by (apply print_parse; lia).
  destruct zero; [|rewrite parse_dec_spaces]; btest; cbn [app].
  - cbn [parse_dec]. simpl. rewrite parse_zeros, Hp. lia.
  - destruct (width - _)%nat as [|k]; cbn [replicate app].
    + rewrite E, parse_dec_nat, <- E by done. lia.
    + rewrite parse_dec_nat by lia. change (48 :: replicate k 48 ++ ?l) with (replicate (S k) 48 ++ l).
      rewrite parse_zeros. lia.
  - cbn [parse_dec]. simpl. rewrite Hp. lia.
  - rewrite E, parse_dec_nat, <- E by done. lia.
Qed.

Lemma in_range_abs t v : in_range t v -> Z.abs v < 10 ^ Z.of_nat 20.
Proof. unfold in_range. change (10 ^ Z.of_nat 20) with 100000000000000000000. destruct t; simpl; lia. Qed.

Lemma fmt_dec_length zero width t v :
  in_range t v -> (length (fmt_dec zero width v) <= Nat.max width 21)%nat.
Proof.
  intros H%in_range_abs. unfold fmt_dec.
  assert (length (print_nat 10 (Z.abs v)) <= 20)%nat as Hl by (apply digits_length; lia).
  destruct zero; btest; rewrite ?length_app, ?length_replicate; cbn [length app]; lia.
Qed.

Lemma fmt_hex_length t width v : (length (fmt_hex width (bits_of t) v) <= Nat.max width 16)%nat.
Proof.
  unfold fmt_hex. rewrite length_app, length_replicate.
  pose proof (Z.mod_pos_bound v (2 ^ bits_of t) ltac:(destruct t; simpl; lia)).
  assert (length (print_nat 16 (v mod 2 ^ bits_of t)) <= 16)%nat as Hl; [|lia].
  apply digits_length; [lia| |lia]. split; [lia|]. eapply Z.lt_le_trans; [apply H|].
  change (16 ^ Z.of_nat 16) with (2 ^ 64). apply Z.pow_le_mono_r; destruct t; simpl; lia.
Qed.

Lemma put64_fits str text : (length text <= 63)%nat -> put64 str text = Some (str ++ text).
Proof. intros. unfold put64. btest; [done|lia]. Qed.

Lemma assert_width_ok width k : (0 < width < 64)%nat -> assert_width width k = k.
Proof. intros. unfold assert_width. repeat btest; simpl; (done || lia). Qed.



(** Two-digit hexadecimal of a byte. *)
Lemma appendHex_byte str v :
  0 <= v < 256 -> appendHex_int_w str v 2 = Some (str ++ [digit (v / 16); digit (v mod 16)]).
Proof.
  intros Hv. unfold appendHex_int_w, appendHex_w_as, fmt_hex. rewrite assert_width_ok by lia.
  replace (v mod 2 ^ bits_of Tint) with v by (symmetry; apply Z.mod_small; simpl; lia).
  assert (print_nat 16 v = if v <? 16 then [digit v] else [digit (v / 16); digit (v mod 16)]) as ->.
  { unfold print_nat. set (f := Z.to_nat (Z.log2 v)). cbn [digits]. btest; [done|].
    assert (0 < f)%nat as Hf by (subst f; pose proof (Z.log2_le_mono 16 v ltac:(lia)); change (Z.log2 16) with 4 in *; lia).
    destruct f as [|f]; [lia|]. cbn [digits]. pose proof (Z.div_lt_upper_bound v 16 16).
    btest; [done|lia]. }
  btest; rewrite put64_fits by (simpl; lia); simpl; [|done].
  rewrite Z.div_small, Z.mod_small by lia. done.
Qed.
