(* ===== verification/Strtol.v ===== *)
(** * Strtol: numbers in C strings

    [strtoul], [strtol] and [atoi] of the C library in the "C" locale, with a
    [long] of 64 bits, for the bases 10 and 16 that the sources use. *)

From S2P Require Import Prelude Words Stream CStr.

Definition isspace (c : Z) : bool := (c =? 32) || ((9 <=? c) && (c <=? 13)).
Definition digit_val (c : Z) : Z :=
  if (48 <=? c) && (c <=? 57) then c - 48
  else if (97 <=? tolower c) && (tolower c <=? 122) then tolower c - 87 else 99.
Fixpoint digits_prefix (base acc : Z) (s : bytes) : Z :=
  match s with
  | c :: s => if digit_val c <? base then digits_prefix base (acc * base + digit_val c) s else acc
  | [] => acc
  end.
Fixpoint skip_space (s : bytes) : bytes :=
  match s with c :: s' => if isspace c then skip_space s' else s | [] => [] end.
(** [strtoul(s, NULL, base)] with a [long] of 64 bits, for the bases 10 and 16. *)
Definition strtoul (s : bytes) (base : Z) : Z :=
  let s := skip_space (cstr s) in
  let '(neg, s) := match s with
                   | c :: s' => if c =? 45 then (true, s') else if c =? 43 then (false, s') else (false, s)
                   | [] => (false, s)
                   end in
  let s := match s with
           | z :: x :: d :: s' => if (base =? 16) && (z =? 48) && (tolower x =? 120) && (digit_val d <? 16) then d :: s' else s
           | _ => s
           end in
  let v := digits_prefix base 0 s in
  if 2 ^ 64 <=? v then 2 ^ 64 - 1 else if neg then u64 (- v) else v.

Definition s32 (z : Z) : Z := (z + 2 ^ 31) mod 2 ^ 32 - 2 ^ 31.
Definition strtol (s : bytes) (base : Z) : Z :=
  let s := skip_space (cstr s) in
  let '(neg, s) := match s with
                   | c :: s' => if c =? 45 then (true, s') else if c =? 43 then (false, s') else (false, s)
                   | [] => (false, s)
                   end in
  let s := match s with
           | z :: x :: d :: s' => if (base =? 16) && (z =? 48) && (tolower x =? 120) && (digit_val d <? 16) then d :: s' else s
           | _ => s
           end in
  let v := digits_prefix base 0 s in
  if neg then Z.max (- v) (- 2 ^ 63) else Z.min v (2 ^ 63 - 1).
(** [atoi] is [(int)strtol(s, NULL, 10)]. *)
Definition atoi (s : bytes) : Z := s32 (strtol s 10).
