(* ===== verification/Storage.v ===== *)
(** * Storage: blitzd/storage/Storage.h and StorageSqlite.cpp

    [Storage::Storage] is the interface the caches save through; it is the
    record [Storage_ops] of its virtual functions over a database state.
    [Storage::StorageSqlite] implements it by writing SQL text for the sqlite3
    library, which is a parameter here ([Sqlite]): the text of every statement
    and the conversion of the result columns are the code's own. *)

From Stdlib Require Import Floats.SpecFloat.
From S2P Require Import Prelude Words Stream CStr NumFmt.

(** ** Data *)

Inductive DataType := Unknown | Int | Real | String | Binary.

Definition PrimKey : Z := 1.
Definition Unique : Z := 2.
Definition NotNull : Z := 4.

Record StructDef := mkStruct { s_name : bytes; s_type : DataType; s_option : Z }.

(** [DataDef]: the tag with the union member it selects.  A [Binary] without
    data has a NULL [bVal] and size 0, which is the empty list; [DUnknown] is
    what [doQuery] leaves for an empty blob: the tag untouched, [bVal] NULL and
    [bSize] 0. *)
Inductive DataDef :=
  | DUnknown
  | DInt (lVal : Z)
  | DReal (rVal : spec_float)
  | DString (sVal : bytes)
  | DBinary (bVal : bytes).

Definition d_type (d : DataDef) : DataType :=
  match d with
  | DUnknown => Unknown
  | DInt _ => Int
  | DReal _ => Real
  | DString _ => String
  | DBinary _ => Binary
  end.

Definition SetString (str : bytes) : DataDef := DString (cstr str).
Definition SetBinary (data : bytes) : DataDef := DBinary data.
Definition SetInt (l : Z) : DataDef := DInt l.
Definition SetReal (r : spec_float) : DataDef := DReal r.

(** The copy constructor.  Its [Binary] case tests [bVal] of the object under
    construction, an uninitialised pointer: [own_bVal_null] is what it finds. *)
Definition DataDef_copy (own_bVal_null : bool) (d : DataDef) : DataDef :=
  match d with
  | DUnknown => DUnknown
  | DString s => SetString s
  | DBinary b => if own_bVal_null then DBinary [] else SetBinary b
  | DInt l => SetInt l
  | DReal r => SetReal r
  end.

(** The union read through [lVal], [sVal] and [bVal]/[bSize].  [sVal] overlays
    [bVal] and [sSize] overlays [bSize]; the size of a [DInt] or [DReal] is
    uninitialised memory, and an integer 0 read as a pointer is NULL: [None]. *)
Definition as_int (d : DataDef) : option Z := match d with DInt l => Some l | _ => None end.
Definition as_string (d : DataDef) : option bytes :=
  match d with DString s => Some s | _ => None end.
Definition as_blob (d : DataDef) : option bytes :=
  match d with DBinary b => Some b | DString s => Some s | DUnknown => Some [] | _ => None end.

(** ** The interface *)

Abbreviation rows := (list (list DataDef)).


(** The virtual functions.  The queries append their rows to [result], as
    [doQuery] does, and return it. *)
Record Storage_ops (S : Type) := mkStorage {
  st_Create : bytes -> list StructDef -> S -> bool * S;
  st_Begin : S -> S;
  st_Commit : S -> S;
  st_Optimize : S -> S;
  st_Set : bytes -> list bytes -> list DataDef -> S -> option (bool * S);
  st_GetAll : bytes -> list bytes -> rows -> S -> bool * rows;
  st_GetMatch : bytes -> list bytes -> bytes -> rows -> S -> bool * rows;
  st_RemoveAll : bytes -> S -> S;
  st_RemoveMatch : bytes -> bytes -> S -> S
}.
Arguments st_Create {S}. Arguments st_Begin {S}. Arguments st_Commit {S}. Arguments st_Optimize {S}.
Arguments st_Set {S}. Arguments st_GetAll {S}. Arguments st_GetMatch {S}.
Arguments st_RemoveAll {S}. Arguments st_RemoveMatch {S}.

(** ** SQL text *)

Definition getTypeName (t : DataType) : bytes :=
  match t with
  | Int => b# "INTEGER(20)"
  | Real => b# "REAL"
  | String => b# "TEXT"
  | _ => b# "BLOB"
  end.

(** [if(i > 0) query += ", "; query += name] over a list. *)
Fixpoint comma_list (first : bool) (l : list bytes) : bytes :=
  match l with
  | [] => []
  | x :: l' => (if first then [] else b# ", ") ++ x ++ comma_list false l'
  end.

(** The loop of [Create]: the query, the key columns and the unique columns. *)
Fixpoint create_loop (first : bool) (l : list StructDef) (query keys unis : bytes)
  : bytes * bytes * bytes :=
  match l with
  | [] => (query, keys, unis)
  | s :: l' =>
      let query := (if first then query else query ++ b# ", ") in
      let query := query ++ s_name s ++ b# " " ++ getTypeName (s_type s) in
      if Z.land (s_option s) 3 =? 1 then
        create_loop false l' query ((if Nat.ltb 0 (length keys) then keys ++ b# ", " else keys) ++ s_name s) unis
      else if Z.land (s_option s) 3 =? 2 then
        create_loop false l' query keys ((if Nat.ltb 0 (length unis) then unis ++ b# ", " else unis) ++ s_name s)
      else if Z.land (s_option s) 4 =? 4 then
        create_loop false l' (query ++ b# " NOT NULL") keys unis
      else create_loop false l' query keys unis
  end.

Definition Create_query (tablename : bytes) (structs : list StructDef) : bytes :=
  let '(query, keys, unis) :=
    create_loop true structs (b# "CREATE TABLE IF NOT EXISTS " ++ tablename ++ b# " (") [] [] in
  let query := if Nat.ltb 0 (length keys) then query ++ b# ", PRIMARY KEY(" ++ keys ++ b# ")" else query in
  let query := if Nat.ltb 0 (length unis) then query ++ b# ", UNIQUE(" ++ unis ++ b# ")" else query in
  query ++ b# ")".

(** [sprintf("%.2f")]: hundredths, ties to even. *)
Definition hundredths (m : positive) (e : Z) : Z :=
  if 0 <=? e then 100 * Z.pos m * 2 ^ e
  else
    let d := 2 ^ (- e) in
    let q := 100 * Z.pos m / d in
    let r := 100 * Z.pos m mod d in
    if (2 * r <? d) || ((2 * r =? d) && Z.even q) then q else q + 1.
Definition fmt_real2 (r : spec_float) : bytes :=
  match r with
  | S754_zero s => (if s then [45] else []) ++ b# "0.00"
  | S754_infinity s => (if s then [45] else []) ++ b# "inf"
  | S754_nan => b# "nan"
  | S754_finite s m e =>
      let h := hundredths m e in
      (if s then [45] else []) ++ print_nat 10 (h / 100) ++ b# "." ++
      [digit (h mod 100 / 10); digit (h mod 10)]
  end.

(** The hexadecimal digits of a blob, one [appendHex] per byte. *)
Fixpoint append_blob (query : bytes) (b : bytes) : option bytes :=
  match b with
  | [] => Some query
  | x :: b' => q ← appendHex_int_w query x 2; append_blob q b'
  end.

(** The literal of one value. *)
Definition append_value (query : bytes) (d : DataDef) : option bytes :=
  match d with
  | DInt l => append_Int64 query l
  | DReal r => put64 query (fmt_real2 r)
  | DString s => Some (query ++ [34] ++ s ++ [34])
  | DUnknown => Some (query ++ b# "X'" ++ b# "'")
  | DBinary b => q ← append_blob (query ++ b# "X'") b; Some (q ++ b# "'")
  end.

Fixpoint append_values (first : bool) (query : bytes) (l : list DataDef) : option bytes :=
  match l with
  | [] => Some query
  | d :: l' =>
      q ← append_value (if first then query else query ++ b# ", ") d; append_values false q l'
  end.

Definition Set_query (tablename : bytes) (colnames : list bytes) (data : list DataDef) : option bytes :=
  q ← append_values true
        (b# "REPLACE INTO " ++ tablename ++ b# " (" ++ comma_list true colnames ++ b# ") VALUES (")
        (take (length colnames) data);
  Some (q ++ b# ")").

Definition GetAll_query (tablename : bytes) (colnames : list bytes) : bytes :=
  b# "SELECT " ++ comma_list true colnames ++ b# " FROM " ++ tablename.
Definition GetMatch_query (tablename : bytes) (colnames : list bytes) (matchcond : bytes) : bytes :=
  if Nat.eqb (length (cstr matchcond)) 0 then GetAll_query tablename colnames
  else b# "SELECT " ++ comma_list true colnames ++ b# " FROM " ++ tablename ++ b# " WHERE " ++ cstr matchcond.
Definition RemoveAll_query (tablename : bytes) : bytes := b# "DELETE FROM " ++ tablename.
Definition RemoveMatch_query (tablename cond : bytes) : bytes :=
  if Nat.eqb (length (cstr cond)) 0 then RemoveAll_query tablename
  else b# "DELETE FROM " ++ tablename ++ b# " WHERE " ++ cstr cond.

(** ** The sqlite3 library *)

(** A result column as [sqlite3_column_*] presents it. *)
Inductive column := CNull | CInteger (v : Z) | CFloat (v : spec_float) | CText (v : bytes) | CBlob (v : bytes).

Record Sqlite (DB : Type) := mkSqlite {
  (** [sqlite3_exec(db, sql, ...)] and whether it returned [SQLITE_OK]. *)
  sqlite3_exec : bytes -> DB -> bool * DB;
  (** [sqlite3_prepare_v2] and the rows of [sqlite3_step]; [None] when the
      statement does not compile. *)
  sqlite3_rows : bytes -> DB -> option (list (list column))
}.
Arguments sqlite3_exec {DB}. Arguments sqlite3_rows {DB}.

(** The [switch(sqlite3_column_type(stmt, i))]. *)
Definition load_column (c : column) : DataDef :=
  match c with
  | CNull => SetInt 0
  | CInteger v => SetInt v
  | CFloat v => SetReal v
  | CText v => SetString v
  | CBlob [] => DUnknown
  | CBlob v => SetBinary v
  end.

Section sqlite.
Context {DB : Type} (lib : Sqlite DB).

(** [doExec] and [doQuery]; a statement is read up to its NUL. *)
Definition doExec (exec : bytes) (db : DB) : bool * DB := sqlite3_exec lib (cstr exec) db.
Definition doQuery (query : bytes) (col : nat) (result : rows) (db : DB) : bool * rows :=
  match sqlite3_rows lib (cstr query) db with
  | Some r => (true, result ++ map (fun row => map load_column (take col row)) r)
  | None => (false, result)
  end.

Definition StorageSqlite : Storage_ops DB := {|
  st_Create := fun t structs db =>
    if Nat.eqb (length structs) 0 then (false, db) else doExec (Create_query t structs) db;
  st_Begin := fun db => (doExec (b# "BEGIN") db).2;
  st_Commit := fun db => (doExec (b# "COMMIT") db).2;
  st_Optimize := fun db => (doExec (b# "VACUUM") db).2;
  st_Set := fun t cols data db => q ← Set_query t cols data; Some (doExec q db);
  st_GetAll := fun t cols result db => doQuery (GetAll_query t cols) (length cols) result db;
  st_GetMatch := fun t cols cond result db =>
    doQuery (GetMatch_query t cols cond) (length cols) result db;
  st_RemoveAll := fun t db => (doExec (RemoveAll_query t) db).2;
  st_RemoveMatch := fun t cond db => (doExec (RemoveMatch_query t cond) db).2
|}.
End sqlite.

(** ** The literals read back *)

(** SQL's reading of a literal: a quoted string ends at the first quote that is
    not doubled, a blob literal is [X'] and pairs of hexadecimal digits, a
    number an optional minus and digits. *)
Fixpoint lex_quoted (s : bytes) : option (bytes * bytes) :=
  match s with
  | [] => None
  | c :: s' =>
      if c =? 34 then
        match s' with
        | c2 :: s'' => if c2 =? 34 then match lex_quoted s'' with
                                        | Some (v, r) => Some (34 :: v, r)
                                        | None => None
                                        end
                       else Some ([], s')
        | [] => Some ([], s')
        end
      else match lex_quoted s' with Some (v, r) => Some (c :: v, r) | None => None end
  end.

Fixpoint lex_hex (s : bytes) : option (bytes * bytes) :=
  match s with
  | a :: s' =>
      if a =? 39 then Some ([], s')
      else match s' with
           | b :: s'' => match lex_hex s'' with
                         | Some (v, r) => Some (undigit a * 16 + undigit b :: v, r)
                         | None => None
                         end
           | [] => None
           end
  | [] => None
  end.

Definition is_digit (c : Z) : bool := (48 <=? c) && (c <=? 57).
Fixpoint span_digits (s : bytes) : bytes * bytes :=
  match s with
  | c :: s' => if is_digit c then let '(d, r) := span_digits s' in (c :: d, r) else ([], s)
  | [] => ([], [])
  end.

Definition lex_literal (s : bytes) : option (DataDef * bytes) :=
  match s with
  | 34 :: s' => match lex_quoted s' with Some (v, r) => Some (DString v, r) | None => None end
  | 88 :: 39 :: s' => match lex_hex s' with Some (v, r) => Some (DBinary v, r) | None => None end
  | 45 :: s' => let '(d, r) := span_digits s' in Some (DInt (- parse_nat 10 d), r)
  | _ => let '(d, r) := span_digits s in Some (DInt (parse_nat 10 d), r)
  end.

(** The values the text can carry: integers of their type, strings without a
    quote or a NUL, blobs of bytes. *)
Definition sql_clean (d : DataDef) : Prop :=
  match d with
  | DInt l => in_range TInt64 l
  | DString s => Forall (fun c => c <> 34 /\ c <> 0) s
  | DBinary b => bytes_ok b
  | _ => False
  end.

Lemma lex_quoted_clean s r :
  Forall (fun c => c <> 34 /\ c <> 0) s -> (forall r', r <> 34 :: r') -> lex_quoted (s ++ 34 :: r) = Some (s, r).
Proof.
  intros Hs Hr. induction Hs as [|c s [Hc _] _ IH]; simpl.
  - destruct r as [|c r]; [done|]. btest; [subst; by destruct (Hr r)|done].
  - btest; [done|]. by rewrite IH.
Qed.

Lemma append_blob_hex q b :
  bytes_ok b ->
  append_blob q b = Some (q ++ mjoin ((fun x => [digit (x / 16); digit (x mod 16)]) <$> b)).
Proof.
  intros Hb. revert q. induction Hb as [|x b Hx _ IH]; intros q; simpl; [by rewrite app_nil_r|].
  rewrite appendHex_byte by done. simpl. rewrite IH, <- app_assoc. done.
Qed.

Lemma lex_hex_blob b r :
  bytes_ok b ->
  lex_hex (mjoin ((fun x => [digit (x / 16); digit (x mod 16)]) <$> b) ++ 39 :: r) = Some (b, r).
Proof.
  induction 1 as [|x b Hx _ IH]; [done|]. unfold byte_ok in Hx.
  assert (0 <= x / 16 < 16) by (split; [apply Z.div_pos; lia|apply Z.div_lt_upper_bound; lia]).
  pose proof (Z.mod_pos_bound x 16 ltac:(lia)). pose proof (digit_range (x / 16)).
  rewrite fmap_cons, mjoin_cons. cbn [app lex_hex]. btest; [lia|].
  rewrite IH, !undigit_digit by lia. do 3 f_equal. pose proof (Z.div_mod x 16). lia.
Qed.

Lemma span_digits_app d r :
  Forall (fun c => 48 <= c <= 57) d -> (forall c r', r = c :: r' -> is_digit c = false) ->
  span_digits (d ++ r) = (d, r).
Proof.
  intros Hd Hr. induction Hd as [|c d Hc _ IH]; simpl.
  - destruct r as [|c r]; simpl; [done|]. by rewrite (Hr c r).
  - unfold is_digit at 1. repeat btest; simpl; try lia. by rewrite IH.
Qed.

Lemma digits10_char fuel n : 0 <= n -> Forall (fun c => 48 <= c <= 57) (digits fuel 10 n).
Proof.
  revert n. induction fuel as [|fuel IH]; intros n Hn; cbn [digits]; [constructor|].
  assert (forall d, 0 <= d < 10 -> Forall (fun c => 48 <= c <= 57) [digit d]) as Hd
    by (intros; unfold digit; constructor; [btest; lia|constructor]).
  btest; [apply Hd; lia|].
  apply Forall_app. split; [apply IH, Z.div_pos; lia|]. apply Hd, Z.mod_pos_bound. lia.
Qed.

Lemma append_Int64_text q l :
  in_range TInt64 l ->
  append_Int64 q l = Some (q ++ (if l <? 0 then [45] else []) ++ print_nat 10 (Z.abs l)).
Proof.
  intros Hl. unfold append_Int64, append_as. pose proof (fmt_dec_length false 0 TInt64 l Hl).
  rewrite put64_fits by lia. done.
Qed.

(** The literal [Set] writes for a value reads back as that value,
    whatever text the query holds before it and whatever non-literal text
    follows: integers of 64 bits, blobs of any bytes, and strings free of
    quotes. *)
Theorem literal_roundtrip d q r :
  sql_clean d -> (forall c r', r = c :: r' -> is_digit c = false /\ c <> 34) ->
  exists lit, append_value q d = Some (q ++ lit) /\ lex_literal (lit ++ r) = Some (d, r).
Proof.
  intros Hd Hr. destruct d as [|l| |s|b]; try done; simpl in Hd.
  - cbn [append_value]. rewrite append_Int64_text by done. eexists. split; [done|].
    assert (Forall (fun c => 48 <= c <= 57) (print_nat 10 (Z.abs l))) as Hc by (apply digits10_char; lia).
    assert (span_digits (print_nat 10 (Z.abs l) ++ r) = (print_nat 10 (Z.abs l), r)) as Hs
      by (apply span_digits_app; [done|]; intros c r' E; by apply (Hr c r')).
    assert (parse_nat 10 (print_nat 10 (Z.abs l)) = Z.abs l) as Hp by (apply print_parse; lia).
    rewrite <- app_assoc. btest; cbn [app lex_literal].
    + rewrite Hs, Hp. do 3 f_equal. lia.
    + destruct (print_nat_head 10 (Z.abs l)) as (c & s & E & Hc0); [lia..|].
      unfold lex_literal. rewrite Hs, Hp. rewrite E in Hc. inversion Hc as [|? ? Hc1 _]; subst.
      rewrite E. cbn [app]. replace (Z.abs l) with l by lia. clear -Hc1.
      assert (c = 48 \/ c = 49 \/ c = 50 \/ c = 51 \/ c = 52 \/ c = 53 \/ c = 54 \/ c = 55 \/ c = 56 \/ c = 57)
        as Hcs by lia. naive_solver.
  - exists (34 :: s ++ [34]). split; [done|]. simpl. rewrite <- app_assoc. cbn [app].
    rewrite lex_quoted_clean; [done..|]. intros r' ->. by destruct (Hr 34 r' eq_refl).
  - cbn [append_value]. rewrite append_blob_hex by done. eexists. split.
    + cbn [mbind option_bind]. rewrite <- !app_assoc. done.
    + rewrite <- !app_assoc. cbn [app lit lex_literal]. simpl. rewrite lex_hex_blob; done.
Qed.

Lemma literal_roundtrip_witness :
  exists lit, append_value (b# "(") (DBinary [0; 255; 16]) = Some (b# "(" ++ lit) /\
              lex_literal (lit ++ b# ")") = Some (DBinary [0; 255; 16], b# ")").
Proof.
  apply literal_roundtrip.
  - apply (bool_decide_unpack _). vm_compute. exact I.
  - intros c r' [= <- <-]. split; [reflexivity|discriminate].
Defined.

(** A quote in a string is not escaped: the literal written for it ends
    at the quote, the rest of the string being read as SQL. *)
Theorem literal_injection a c b q r :
  Forall (fun x => x <> 34 /\ x <> 0) a -> c <> 34 ->
  exists lit, append_value q (DString (a ++ 34 :: c :: b)) = Some (q ++ lit) /\
              lex_literal (lit ++ r) = Some (DString a, c :: b ++ 34 :: r).
Proof.
  intros Ha Hc. exists (34 :: (a ++ 34 :: c :: b) ++ [34]). split; [done|].
  cbn [app lex_literal]. rewrite <- !app_assoc. cbn [app].
  rewrite lex_quoted_clean; [by rewrite <- ?app_assoc|done|]. intros r' E. by injection E as -> _.
Qed.

Lemma literal_injection_witness :
  exists lit, append_value [] (DString (b# "x" ++ 34 :: 41 :: b# "; DROP")) = Some lit /\
              lex_literal lit = Some (DString (b# "x"), 41 :: b# "; DROP" ++ [34]).
Proof.
  destruct (literal_injection (b# "x") 41 (b# "; DROP") [] []) as (lit & H1 & H2);
    [apply (bool_decide_unpack _); vm_compute; exact I|discriminate|].
  exists lit. rewrite app_nil_r in H2. split; [exact H1|exact H2].
Defined.

(** ** What the caches rely on *)

(** A cell as a later query returns it. *)
Definition stored (d : DataDef) : DataDef := match d with DBinary [] => DUnknown | _ => d end.

(** The condition that selects a row by its number. *)
Definition where_id (id : Z) : bytes := b# "userid=" ++ print_nat 10 (u32 id).

(** The promise of a storage for tables keyed by their first column, the
    number of an account: a row that is set is the one the number selects with
    the same columns, other numbers and tables are untouched, transactions do
    not change what is read, and a selection by number returns rows of it. *)
Class StorageLaws {S : Type} (st : Storage_ops S) : Prop := {
  law_set : forall t cols n cells s,
    0 <= n < 2 ^ 32 -> Forall sql_clean cells -> hd_error cols = Some (b# "userid") -> NoDup cols ->
    length cols = (length cells + 1)%nat ->
    exists s', st_Set st t cols (DInt n :: cells) s = Some (true, s') /\
      (st_GetMatch st t cols (where_id n) [] s').2 = [map stored (DInt n :: cells)] /\
      (forall t' cols' m, t' <> t \/ u32 m <> n ->
         st_GetMatch st t' cols' (where_id m) [] s' = st_GetMatch st t' cols' (where_id m) [] s);
  law_begin : forall s t cols cond, st_GetMatch st t cols cond [] (st_Begin st s) = st_GetMatch st t cols cond [] s;
  law_commit : forall s t cols cond, st_GetMatch st t cols cond [] (st_Commit st s) = st_GetMatch st t cols cond [] s;
  law_id : forall s t cols n r, hd_error cols = Some (b# "userid") ->
    r ∈ (st_GetMatch st t cols (where_id n) [] s).2 -> hd_error r = Some (DInt (u32 n))
}.

(** *** A storage in memory *)

(** Rows with their table and their column names; it shows that the promise
    can be kept. *)
Abbreviation mem := (list (bytes * list (bytes * DataDef))).

Definition cell_of (col : bytes) (row : list (bytes * DataDef)) : DataDef :=
  match list_find (fun e => e.1 = col) row with Some (_, e) => e.2 | None => DInt 0 end.
Definition id_cond (row : list (bytes * DataDef)) : bytes :=
  match cell_of (b# "userid") row with DInt n => if (0 <=? n) && (n <? 2 ^ 32) then where_id n else [] | _ => [] end.
Definition name_cond (row : list (bytes * DataDef)) : bytes :=
  match cell_of (b# "username") row with
  | DString s => b# "username=" ++ [34] ++ s ++ [34]
  | _ => []
  end.
Definition mem_rows (t cond : bytes) (s : mem) : mem :=
  base.filter (fun e => e.1 = t /\ (id_cond e.2 = cond \/ name_cond e.2 = cond)) s.

Definition mem_storage : Storage_ops mem := {|
  st_Create := fun _ _ s => (true, s);
  st_Begin := id; st_Commit := id; st_Optimize := id;
  st_Set := fun t cols data s =>
    Some (true, (t, zip cols data) ::
                base.filter (fun e => ~ (e.1 = t /\ id_cond e.2 = id_cond (zip cols data))) s);
  st_GetAll := fun t cols result s =>
    (true, result ++ map (fun e => map (fun c => stored (cell_of c e.2)) cols)
                         (base.filter (fun e => e.1 = t) s));
  st_GetMatch := fun t cols cond result s =>
    (true, result ++ map (fun e => map (fun c => stored (cell_of c e.2)) cols) (mem_rows t cond s));
  st_RemoveAll := fun t s => base.filter (fun e => e.1 <> t) s;
  st_RemoveMatch := fun t cond s =>
    base.filter (fun e => ~ (e.1 = t /\ (id_cond e.2 = cond \/ name_cond e.2 = cond))) s
|}.

Lemma where_id_inj m n : where_id m = where_id n -> u32 m = u32 n.
Proof.
  unfold where_id. intros H%app_inv_head. rewrite <- (print_parse 10 ltac:(lia) (u32 m)), H, print_parse;
    try lia; apply u32_range.
Qed.

Lemma name_cond_not_id row n : name_cond row <> where_id n.
Proof. unfold name_cond. destruct (cell_of _ _); discriminate. Qed.

Lemma id_cond_Some row n : id_cond row = where_id n -> cell_of (b# "userid") row = DInt (u32 n).
Proof.
  unfold id_cond. destruct (cell_of _ _) as [|l| | |]; try discriminate.
  repeat btest; simpl; try discriminate. intros Hi%where_id_inj. rewrite u32_small in Hi by lia. congruence.
Qed.

Lemma cell_of_zip cols cells i c d :
  NoDup cols -> cols !! i = Some c -> cells !! i = Some d -> cell_of c (zip cols cells) = d.
Proof.
  intros Hnd Hc Hd. unfold cell_of.
  assert (list_find (fun e => e.1 = c) (zip cols cells) = Some (i, (c, d))) as ->; [|done].
  apply list_find_Some. split; [by rewrite lookup_zip_with, Hc; simpl; rewrite Hd|]. split; [done|].
  intros j [c' d'] Hj Hlt. rewrite lookup_zip_with in Hj. simpl. intros ->.
  destruct (cols !! j) eqn:E; [|done]. simpl in Hj. destruct (cells !! j); [|done]. injection Hj as -> _.
  pose proof (NoDup_lookup _ _ _ _ Hnd E Hc). lia.
Qed.

Lemma map_cell_of cols cells :
  NoDup cols -> length cols = length cells -> map (fun c => stored (cell_of c (zip cols cells))) cols = map stored cells.
Proof.
  intros Hnd Hl. apply list_eq. intros i.
  change (map ?f ?l !! i) with ((f <$> l) !! i). rewrite !list_lookup_fmap.
  destruct (cols !! i) as [c|] eqn:Ec; simpl.
  - destruct (lookup_lt_is_Some_2 cells i) as [d Hd]; [rewrite <- Hl; by eapply lookup_lt_Some|].
    rewrite Hd. simpl. by rewrite (cell_of_zip _ _ i c d).
  - rewrite lookup_ge_None_2; [done|]. rewrite <- Hl. by apply lookup_ge_None.
Qed.

#[export] Instance mem_laws : StorageLaws mem_storage.
Proof.
  constructor.
  - intros t cols n cells s Hn Hc Hhd Hnd Hl.
    set (row := zip cols (DInt n :: cells)).
    assert (id_cond row = where_id n) as Hrow.
    { unfold id_cond. subst row. rewrite (cell_of_zip _ _ 0 (b# "userid") (DInt n)); [|done|by destruct cols|done].
      repeat btest; simpl; try lia; done. }
    eexists. split; [done|]. cbn [st_GetMatch mem_storage snd app]. fold row. split.
    + unfold mem_rows. rewrite filter_cons, decide_True by (simpl; auto). cbn [map snd].
      f_equal; [subst row; apply map_cell_of; [done|simpl; lia]|].
      rewrite list_filter_filter. match goal with |- map _ ?l = [] => assert (l = []) as ->; [|done] end.
      apply filter_nil_not_elem_of'. intros e [[Ht [Hi|Hi]] Hx] _; [|by apply name_cond_not_id in Hi].
      apply Hx. split; [done|]. congruence.
    + intros t' cols' m Hne. do 2 f_equal. unfold mem_rows. rewrite filter_cons, decide_False.
      * rewrite list_filter_filter. apply list_filter_iff. intros e. split; [naive_solver|].
        intros He. split; [done|]. intros [Ht Hi]. destruct He as [Ht' [He|He]]; [|by apply name_cond_not_id in He].
        destruct Hne as [Hne|Hne]; [congruence|]. apply Hne. rewrite Hi, Hrow in He.
        apply where_id_inj in He. rewrite <- He. apply u32_small. lia.
      * simpl. intros [Ht [Hi|Hi]]; [|by apply name_cond_not_id in Hi].
        destruct Hne as [Hne|Hne]; [congruence|]. rewrite Hrow in Hi. apply where_id_inj in Hi.
        rewrite (u32_small n) in Hi by lia. congruence.
  - done.
  - done.
  - intros s t cols n r Hhd Hr. simpl in Hr. apply list_elem_of_fmap in Hr as (e & -> & He).
    apply list_elem_of_filter in He as [[_ [He|He]] _]; [|by apply name_cond_not_id in He].
    destruct cols as [|c cols]; [done|]. assert (c = b# "userid") as -> by (cbn [hd_error] in Hhd; congruence).
    apply id_cond_Some in He. cbn [map hd_error]. by rewrite He.
Qed.
