(* ===== verification/UserItem.v ===== *)
(** * UserItem: [Cache::UserCacheItem] of blitzd/cache/UserCache.cpp

    One account: credentials, flags, the key/value profile data and the friend
    list.  Accounts live in a heap and friends point to each other, so the
    operations that touch two accounts take the heap. *)

From S2P Require Import Prelude Words Stream OMap CStr.

(** ** Data *)

(** [Friend_t]; the pointer is a heap address, [None] for NULL. *)
Record Friend_t := mkFriend { mutual : bool; fuser : option nat }.

#[export] Instance Friend_t_eq_dec : EqDecision Friend_t.
Proof. solve_decision. Defined.
#[export] Instance Friend_t_inhabited : Inhabited Friend_t := populate (mkFriend false None).

Record UserCacheItem := mkUser {
  u_dirty : bool;
  u_id : Z;
  u_username : bytes;
  u_mail : bytes;
  u_salt : bytes;
  u_verifier : bytes;
  u_passwd : bytes;
  u_flag : Z;
  u_friend_dirty : bool;
  u_friend_list : list Friend_t;
  u_data_map : list (bytes * bytes)
}.

(** The constructor; it clears the salt and the verifier but not [_passwd],
    whose 20 bytes are [junk]. *)
Definition new_UserCacheItem (junk : bytes) (username : bytes) : UserCacheItem :=
  mkUser false 0 (cstr username) [] (replicate 32 0) (replicate 32 0) junk 0 false [] [].

Definition IsExist (u : UserCacheItem) : bool := 0 <? u_id u.

Definition SetDirty (d : bool) (u : UserCacheItem) : UserCacheItem :=
  mkUser d (u_id u) (u_username u) (u_mail u) (u_salt u) (u_verifier u) (u_passwd u) (u_flag u)
         (u_friend_dirty u) (u_friend_list u) (u_data_map u).
Definition SetFriendDirty (d : bool) (u : UserCacheItem) : UserCacheItem :=
  mkUser (u_dirty u) (u_id u) (u_username u) (u_mail u) (u_salt u) (u_verifier u) (u_passwd u)
         (u_flag u) d (u_friend_list u) (u_data_map u).
Definition SetUserId (id : Z) (u : UserCacheItem) : UserCacheItem :=
  mkUser (u_dirty u) id (u_username u) (u_mail u) (u_salt u) (u_verifier u) (u_passwd u) (u_flag u)
         (u_friend_dirty u) (u_friend_list u) (u_data_map u).

(** [if(memcmp(_salt, s, 32) == 0) return; _dirty = true; memcpy(...)] *)
Definition SetSalt (s : bytes) (u : UserCacheItem) : UserCacheItem :=
  if decide (u_salt u = take 32 s) then u
  else mkUser true (u_id u) (u_username u) (u_mail u) (take 32 s) (u_verifier u) (u_passwd u)
         (u_flag u) (u_friend_dirty u) (u_friend_list u) (u_data_map u).
Definition SetVerifier (s : bytes) (u : UserCacheItem) : UserCacheItem :=
  if decide (u_verifier u = take 32 s) then u
  else mkUser true (u_id u) (u_username u) (u_mail u) (u_salt u) (take 32 s) (u_passwd u)
         (u_flag u) (u_friend_dirty u) (u_friend_list u) (u_data_map u).
Definition SetPasswd (p : bytes) (u : UserCacheItem) : UserCacheItem :=
  if decide (u_passwd u = take 20 p) then u
  else mkUser true (u_id u) (u_username u) (u_mail u) (u_salt u) (u_verifier u) (take 20 p)
         (u_flag u) (u_friend_dirty u) (u_friend_list u) (u_data_map u).
Definition SetMail (m : bytes) (u : UserCacheItem) : UserCacheItem :=
  if decide (u_mail u = m) then u
  else mkUser true (u_id u) (u_username u) m (u_salt u) (u_verifier u) (u_passwd u)
         (u_flag u) (u_friend_dirty u) (u_friend_list u) (u_data_map u).
Definition SetFlag (f : Z) (u : UserCacheItem) : UserCacheItem :=
  if u_flag u =? f then u
  else mkUser true (u_id u) (u_username u) (u_mail u) (u_salt u) (u_verifier u) (u_passwd u)
         f (u_friend_dirty u) (u_friend_list u) (u_data_map u).

Definition GetFlag (u : UserCacheItem) : Z := Z.land (u_flag u) 0xFFFFFFF.
Definition GetFullFlag (u : UserCacheItem) : Z := u_flag u.
Definition AddFlag (f : Z) (u : UserCacheItem) : UserCacheItem := SetFlag (Z.lor (u_flag u) f) u.
Definition DelFlag (f : Z) (u : UserCacheItem) : UserCacheItem :=
  SetFlag (Z.land (u_flag u) (not32 f)) u.

Definition set_data_map (m : list (bytes * bytes)) (u : UserCacheItem) : UserCacheItem :=
  mkUser (u_dirty u) (u_id u) (u_username u) (u_mail u) (u_salt u) (u_verifier u) (u_passwd u)
         (u_flag u) (u_friend_dirty u) (u_friend_list u) m.
Definition set_friends (l : list Friend_t) (u : UserCacheItem) : UserCacheItem :=
  mkUser (u_dirty u) (u_id u) (u_username u) (u_mail u) (u_salt u) (u_verifier u) (u_passwd u)
         (u_flag u) (u_friend_dirty u) l (u_data_map u).

(** [_data_map[k]]: the value, after inserting an empty one when absent. *)
Definition data_at (k : bytes) (m : list (bytes * bytes)) : bytes * list (bytes * bytes) :=
  match om_find ci_ltb k m with
  | Some v => (v, m)
  | None => ([], om_insert ci_ltb k [] m)
  end.

Definition GetData (k : bytes) (u : UserCacheItem) : bytes * UserCacheItem :=
  let '(v, m) := data_at k (u_data_map u) in (v, set_data_map m u).

Definition SetData (k v : bytes) (u : UserCacheItem) : UserCacheItem :=
  let '(old, m) := data_at k (u_data_map u) in
  if decide (old = v) then set_data_map m u
  else SetDirty true (set_data_map (om_insert ci_ltb k v m) u).

(** The [while(p < size)] loop of [SetDataMap]: one NUL-terminated "key=value"
    per round; a round consumes at least the NUL, so the size bounds them. *)
Fixpoint data_loop (fuel : nat) (d : bytes) (m : list (bytes * bytes)) : list (bytes * bytes) :=
  match fuel with
  | O => m
  | S fuel' =>
      if Nat.eqb (length d) 0 then m
      else
        let entry := cstr d in
        let m := match find_char 61 entry with
                 | Some i => om_insert ci_ltb (take i entry) (drop (i + 1) entry) m
                 | None => m
                 end in
        data_loop fuel' (drop (length entry + 1) d) m
  end.

Definition SetDataMap (data : bytes) (u : UserCacheItem) : UserCacheItem :=
  set_data_map (data_loop (length data) data (u_data_map u)) u.

Definition BuildDataMap (u : UserCacheItem) (st : Stream) : Stream :=
  foldl (fun st kv => if Nat.eqb (length kv.2) 0 then st
                      else put_str (kv.1 ++ [61] ++ kv.2) st) st (u_data_map u).

(** ** Friends *)

(** [FindFriend(UserCacheItem * user)] and [FindFriend(std::string name)]. *)
Fixpoint find_index (p : Friend_t -> bool) (i : Z) (l : list Friend_t) : Z :=
  match l with
  | [] => -1
  | f :: l' => if p f then i else find_index p (i + 1) l'
  end.

Definition FindFriend (user : option nat) (u : UserCacheItem) : Z :=
  find_index (fun f => bool_decide (fuser f = user)) 0 (u_friend_list u).

Definition GetFriendCount (u : UserCacheItem) : Z := u32 (Z.of_nat (length (u_friend_list u))).
Definition GetFriend (index : Z) (u : UserCacheItem) : option Friend_t :=
  if (index <? 0) || (Z.of_nat (length (u_friend_list u)) <=? index) then None
  else u_friend_list u !! Z.to_nat index.

(** [user->GetFriend(idx2)->mutual = true]. *)
Definition set_mutual (idx : Z) (u : UserCacheItem) : UserCacheItem :=
  set_friends (alter (fun f => mkFriend true (fuser f)) (Z.to_nat idx) (u_friend_list u)) u.

Abbreviation heap := (gmap nat UserCacheItem).

(** [this->AddFriend(user, mutIdx)]: the returned index, the index stored
    through [mutIdx] if the call stores one, and the heap. *)
Definition AddFriend (this : nat) (user : option nat) (h : heap) : Z * option Z * heap :=
  match user, h !! this with
  | None, _ | _, None => (-1, None, h)
  | Some other, Some me =>
      if Nat.eqb other this then (-1, None, h)
      else
        let idx1 := FindFriend (Some other) me in
        if 0 <=? idx1 then (idx1, None, h)
        else if (20 <? Z.of_nat (length (u_friend_list me))) then (-1, None, h)
        else
          match h !! other with
          | None => (-1, None, h)
          | Some them =>
              let idx2 := FindFriend (Some this) them in
              let h := if 0 <=? idx2 then <[other := set_mutual idx2 them]> h else h in
              let fr := mkFriend (0 <=? idx2) (Some other) in
              let me := SetFriendDirty true (set_friends (u_friend_list me ++ [fr]) me) in
              (Z.of_nat (length (u_friend_list me)) - 1,
               Some (if 0 <=? idx2 then idx2 else -1), <[this := me]> h)
          end
  end.

(** [for(uint i = a; i < b; i ++) l[i] = l[i + 1]] and
    [for(uint i = a; i > b; i --) l[i] = l[i - 1]], [n] rounds from [i]. *)
Fixpoint shift_down (n i : nat) (l : list Friend_t) : list Friend_t :=
  match n with
  | O => l
  | S n' => shift_down n' (S i) (<[i := l !!! S i]> l)
  end.
Fixpoint shift_up (n i : nat) (l : list Friend_t) : list Friend_t :=
  match n with
  | O => l
  | S n' => shift_up n' (i - 1) (<[i := l !!! (i - 1)%nat]> l)
  end.

(** [MoveFriend]: [fr] is a reference to slot [idx1], so the final assignment
    reads that slot after the shift. *)
Definition MoveFriend (idx1 idx2 : nat) (u : UserCacheItem) : bool * UserCacheItem :=
  let l := u_friend_list u in
  if Nat.leb (length l) idx1 then (false, u)
  else if Nat.leb (length l) idx2 then (false, u)
  else if Nat.eqb idx1 idx2 then (true, u)
  else
    let l := if Nat.ltb idx1 idx2 then shift_down (idx2 - idx1) idx1 l
             else shift_up (idx1 - idx2) idx1 l in
    let l := <[idx2 := l !!! idx1]> l in
    (true, SetFriendDirty true (set_friends l u)).

(** [for(size_t i = size - 1; i > idx; i --) l[i - 1] = l[i]], [n] rounds. *)
Fixpoint pull_down (n i : nat) (l : list Friend_t) : list Friend_t :=
  match n with
  | O => l
  | S n' => pull_down n' (i - 1) (<[(i - 1)%nat := l !!! i]> l)
  end.

Definition RemoveFriend (idx : nat) (u : UserCacheItem) : bool * UserCacheItem :=
  let l := u_friend_list u in
  if Nat.leb (length l) idx then (false, u)
  else
    let l' := if Nat.ltb (idx + 1) (length l)
              then pull_down (length l - 1 - idx) (length l - 1) l else l in
    (true, SetFriendDirty true (set_friends (take (length l - 1) l') u)).

(** The two searching overloads. *)
Definition RemoveFriend_user (user : option nat) (u : UserCacheItem) : bool * UserCacheItem :=
  let index := FindFriend user u in
  if index <? 0 then (false, u) else RemoveFriend (Z.to_nat index) u.

(** [FindFriend(std::string name)]: it dereferences every pointer it passes;
    [None] is the null or dangling dereference. *)
Fixpoint find_name (h : heap) (name : bytes) (i : Z) (l : list Friend_t) : option Z :=
  match l with
  | [] => Some (-1)
  | f :: l' =>
      p ← fuser f; v ← h !! p;
      if strcmpi (u_username v) name =? 0 then Some i else find_name h name (i + 1) l'
  end.
Definition FindFriend_name (h : heap) (name : bytes) (u : UserCacheItem) : option Z :=
  find_name h name 0 (u_friend_list u).
Definition RemoveFriend_name (h : heap) (name : bytes) (u : UserCacheItem)
  : option (bool * UserCacheItem) :=
  index ← FindFriend_name h name u;
  Some (if index <? 0 then (false, u) else RemoveFriend (Z.to_nat index) u).

(** ** The friend graph *)

(** The accounts a list points to, in order. *)
Definition targets (u : UserCacheItem) : list (option nat) := fuser <$> u_friend_list u.

(** Every list is short, free of duplicates and NULLs, and never points to its
    owner. *)
Definition friends_ok (h : heap) : Prop :=
  forall p u, h !! p = Some u ->
    (length (u_friend_list u) <= 21)%nat /\ NoDup (targets u) /\
    Some p ∉ targets u /\ None ∉ targets u.

(** A friend is marked mutual exactly when it lists the owner too. *)
Definition mutual_exact (h : heap) : Prop :=
  forall p u f q, h !! p = Some u -> f ∈ u_friend_list u -> fuser f = Some q ->
    mutual f = true <-> exists v, h !! q = Some v /\ Some p ∈ targets v.

Lemma find_index_spec p l i :
  0 <= i ->
  match find_index p i l with
  | Z.neg _ => Forall (fun f => p f = false) l
  | r => exists k f, r = i + Z.of_nat k /\ l !! k = Some f /\ p f = true /\
           forall j g, (j < k)%nat -> l !! j = Some g -> p g = false
  end.
Proof.
  revert i. induction l as [|f l IH]; intros i Hi; simpl; [constructor|].
  destruct (p f) eqn:E.
  - destruct i; [| |lia]; exists 0%nat, f; (split; [lia|]); (split; [done|]); (split; [done|lia]).
  - specialize (IH (i + 1) ltac:(lia)). destruct (find_index p (i + 1) l) eqn:Er.
    all: try (destruct IH as (k & g & -> & Hk & Hp & Hmin); exists (S k), g;
              split; [lia|]; split; [done|]; split; [done|];
              intros [|j] g' Hj Hg; [by injection Hg as <-|by eapply Hmin; [|exact Hg]; lia]).
    by constructor.
Qed.

Lemma FindFriend_neg q u : FindFriend q u < 0 -> q ∉ targets u.
Proof.
  unfold FindFriend, targets. pose proof (find_index_spec (fun f => bool_decide (fuser f = q))
    (u_friend_list u) 0 ltac:(lia)) as H. destruct (find_index _ _ _); [lia..|].
  intros _ Hin. apply list_elem_of_fmap in Hin as (f & -> & Hf).
  rewrite Forall_forall in H. specialize (H f Hf). by apply bool_decide_eq_false in H.
Qed.

Lemma FindFriend_nonneg q u :
  0 <= FindFriend q u ->
  exists f, u_friend_list u !! Z.to_nat (FindFriend q u) = Some f /\ fuser f = q.
Proof.
  unfold FindFriend. pose proof (find_index_spec (fun f => bool_decide (fuser f = q))
    (u_friend_list u) 0 ltac:(lia)) as H. destruct (find_index _ _ _); [| |lia].
  all: intros _; destruct H as (k & f & Hk & Hl & Hp & _); exists f; rewrite Hk, Z.add_0_l, Nat2Z.id;
    split; [done|by apply bool_decide_eq_true in Hp].
Qed.

Lemma FindFriend_elem q u : q ∈ targets u <-> 0 <= FindFriend q u.
Proof.
  split.
  - intros Hin. destruct (Z.leb_spec 0 (FindFriend q u)); [done|].
    by destruct (FindFriend_neg q u).
  - intros H. destruct (FindFriend_nonneg q u H) as (f & Hl & <-).
    apply list_elem_of_fmap. exists f. split; [done|]. by eapply list_elem_of_lookup_2.
Qed.

Lemma targets_set_mutual i u : targets (set_mutual i u) = targets u.
Proof.
  unfold targets, set_mutual, set_friends; simpl. apply list_eq. intros j.
  rewrite !list_lookup_fmap. destruct (decide (j = Z.to_nat i)) as [->|].
  - rewrite list_lookup_alter_eq. by destruct (u_friend_list u !! _).
  - by rewrite list_lookup_alter_ne.
Qed.

Lemma length_set_mutual i u : length (u_friend_list (set_mutual i u)) = length (u_friend_list u).
Proof. apply length_alter. Qed.

(** The branches of [AddFriend]: either nothing changes, or [other] is appended
    to [this]'s list and [this]'s entry at [other], if any, becomes mutual. *)
Inductive add_result (this : nat) (h : heap) : option nat -> Z * option Z * heap -> Prop :=
  | add_refused user : user = None \/ user = Some this \/ h !! this = None \/
      (exists other me, user = Some other /\ h !! this = Some me /\
         (20 < length (u_friend_list me))%nat) \/ (exists o, user = Some o /\ h !! o = None) ->
      add_result this h user (-1, None, h)
  | add_present other me i : h !! this = Some me -> 0 <= i ->
      FindFriend (Some other) me = i -> add_result this h (Some other) (i, None, h)
  | add_new other me them : other <> this -> h !! this = Some me -> h !! other = Some them ->
      FindFriend (Some other) me < 0 -> (length (u_friend_list me) <= 20)%nat ->
      add_result this h (Some other)
        (Z.of_nat (length (u_friend_list me)),
         Some (Z.max (-1) (FindFriend (Some this) them)),
         <[this := SetFriendDirty true (set_friends (u_friend_list me ++
             [mkFriend (0 <=? FindFriend (Some this) them) (Some other)]) me)]>
         (if 0 <=? FindFriend (Some this) them
          then <[other := set_mutual (FindFriend (Some this) them) them]> h else h)).

Lemma AddFriend_result this user h : add_result this h user (AddFriend this user h).
Proof.
  unfold AddFriend. destruct user as [other|]; [|apply add_refused; auto].
  destruct (h !! this) as [me|] eqn:Eme; [|apply add_refused; auto].
  destruct (Nat.eqb_spec other this) as [->|Hne]; [apply add_refused; auto|].
  destruct (Z.leb_spec 0 (FindFriend (Some other) me)); [by eapply add_present|].
  destruct (Z.ltb_spec 20 (Z.of_nat (length (u_friend_list me)))).
  { apply add_refused. do 3 right. left. exists other, me. split; [done|]. split; [done|lia]. }
  destruct (h !! other) as [them|] eqn:Eo; [|apply add_refused; eauto 10].
  replace (Z.of_nat (length _) - 1) with (Z.of_nat (length (u_friend_list me)))
    by (simpl; rewrite length_app; simpl; lia).
  replace (if 0 <=? FindFriend (Some this) them then FindFriend (Some this) them else -1)
    with (Z.max (-1) (FindFriend (Some this) them)) by (btest; lia).
  by apply add_new with (me := me) (them := them); [..|lia].
Qed.

Lemma set_mutual_entry h other them this f :
  friends_ok h -> h !! other = Some them -> 0 <= FindFriend (Some this) them ->
  f ∈ u_friend_list (set_mutual (FindFriend (Some this) them) them) ->
  (fuser f = Some this /\ mutual f = true) \/ (fuser f <> Some this /\ f ∈ u_friend_list them).
Proof.
  intros Hok Ho Hidx Hf. destruct (Hok _ _ Ho) as (_ & Hnd & _ & _).
  destruct (FindFriend_nonneg _ _ Hidx) as (g & Hg & Hgu).
  apply list_elem_of_lookup in Hf as [j Hj]. unfold set_mutual, set_friends in Hj; simpl in Hj.
  destruct (decide (j = Z.to_nat (FindFriend (Some this) them))) as [->|Hne].
  - rewrite list_lookup_alter_eq, Hg in Hj. injection Hj as <-. left. done.
  - rewrite list_lookup_alter_ne in Hj by done. right. split; [|by eapply list_elem_of_lookup_2].
    intros Hfu. apply Hne. eapply (NoDup_lookup (targets them)); [done| |].
    + unfold targets. rewrite list_lookup_fmap, Hj. simpl. by rewrite Hfu.
    + unfold targets. rewrite list_lookup_fmap, Hg. simpl. by rewrite Hgu.
Qed.

(** [AddFriend] keeps the friend lists sound, whatever it is called with:
    at most 21 entries, no duplicates, no NULL, nobody their own friend. *)
Theorem AddFriend_friends_ok this user h :
  friends_ok h -> friends_ok (AddFriend this user h).2.
Proof.
  intros Hok. destruct (AddFriend_result this user h) as [?|?|other me them Hne Hme Ho Hf Hlen]; simpl;
    [done..|].
  intros p u Hp. rewrite lookup_insert in Hp. case_decide as Hd.
  - injection Hp as <-. subst p. destruct (Hok _ _ Hme) as (_ & Hnd & Hself & Hnull).
    unfold targets; simpl. rewrite fmap_app, length_app. simpl. split; [lia|].
    pose proof (FindFriend_neg _ _ Hf) as Hnin. unfold targets in *.
    split; [|split].
    + apply NoDup_app. split; [done|]. split; [|by apply NoDup_singleton].
      intros x Hx ->%list_elem_of_singleton. done.
    + rewrite elem_of_app, list_elem_of_singleton. naive_solver.
    + rewrite elem_of_app, list_elem_of_singleton. naive_solver.
  - destruct (Z.leb_spec 0 (FindFriend (Some this) them)); [|by apply (Hok p)].
    rewrite lookup_insert in Hp. case_decide as Hd2; [|by apply (Hok p)].
    injection Hp as <-. subst p. rewrite targets_set_mutual, length_set_mutual. by apply (Hok other).
Qed.

Lemma AddFriend_friends_ok_witness :
  friends_ok (AddFriend 1 (Some 2%nat)
    (<[1%nat := new_UserCacheItem (replicate 20 0) (b# "a")]>
     (<[2%nat := new_UserCacheItem (replicate 20 0) (b# "b")]> ∅))).2.
Proof.
  apply AddFriend_friends_ok. intros p u.
  rewrite !lookup_insert, lookup_empty. repeat case_decide; intros [= <-];
    (split; [simpl; lia|]); (split; [constructor|]); split; apply not_elem_of_nil.
Defined.

(** The account at [q] lists the one at [p]. *)
Definition lists (h : heap) (q p : nat) : Prop := exists v, h !! q = Some v /\ Some p ∈ targets v.

Lemma add_new_lists this other me them h b i q p :
  h !! this = Some me -> h !! other = Some them -> other <> this ->
  lists (<[this := SetFriendDirty true (set_friends (u_friend_list me ++
            [mkFriend b (Some other)]) me)]> (if b then <[other := set_mutual i them]> h else h)) q p
  <-> lists h q p \/ (q = this /\ p = other).
Proof.
  intros Hme Ho Hne. unfold lists. split.
  - intros (v & Hv & Hin). rewrite lookup_insert in Hv. case_decide as Hd.
    + injection Hv as <-. subst q. unfold targets in Hin; simpl in Hin.
      rewrite fmap_app, elem_of_app in Hin. simpl in Hin. rewrite list_elem_of_singleton in Hin. destruct Hin as [Hin|[= ->]]; [|auto].
      left. eauto.
    + left. destruct b; [|eauto]. rewrite lookup_insert in Hv. case_decide as Hd2; [|eauto].
      injection Hv as <-. subst q. rewrite targets_set_mutual in Hin. eauto.
  - intros [(v & Hv & Hin)|[-> ->]].
    + destruct (decide (q = this)) as [->|Hq].
      * rewrite lookup_insert_eq. eexists. split; [done|].
        unfold targets; simpl. rewrite fmap_app, elem_of_app. left.
        assert (v = me) as -> by congruence. exact Hin.
      * rewrite lookup_insert_ne by done. destruct b; [|eauto].
        destruct (decide (q = other)) as [->|]; [|rewrite lookup_insert_ne by done; eauto].
        rewrite lookup_insert_eq. eexists. split; [done|]. rewrite targets_set_mutual.
        assert (v = them) as -> by congruence. exact Hin.
    + rewrite lookup_insert_eq. eexists. split; [done|]. unfold targets; simpl.
      rewrite fmap_app, elem_of_app. right. by apply list_elem_of_singleton.
Qed.

(** [AddFriend] keeps the mutual marks exact: when every mark says whether
    the other side lists you back, it still does after any call, on both lists. *)
Theorem AddFriend_mutual_exact this user h :
  friends_ok h -> mutual_exact h -> mutual_exact (AddFriend this user h).2.
Proof.
  intros Hok Hex. destruct (AddFriend_result this user h) as [?|?|other me them Hne Hme Ho Hf Hlen]; simpl;
    [done..|].
  set (i := FindFriend (Some this) them) in *. set (b := 0 <=? i).
  intros p u f q Hp Hfin Hfu. change (exists v, ?h !! q = Some v /\ _) with (lists h q p).
  rewrite (add_new_lists this other me them) by done.
  assert (mutual_at : forall p u, h !! p = Some u -> f ∈ u_friend_list u -> mutual f = true <-> lists h q p)
    by (intros p' u' Hp' Hin'; by apply (Hex p' u')).
  rewrite lookup_insert in Hp. case_decide as Hd.
  - injection Hp as <-. subst p. simpl in Hfin. rewrite elem_of_app, list_elem_of_singleton in Hfin.
    destruct Hfin as [Hfin| ->].
    + rewrite (mutual_at _ _ Hme Hfin). naive_solver.
    + simpl in Hfu |- *. injection Hfu as <-. subst b i. rewrite Z.leb_le, <- FindFriend_elem.
      unfold lists. naive_solver.
  - subst b. destruct (Z.leb_spec 0 i) as [Hi|Hi].
    + rewrite lookup_insert in Hp. case_decide as Hd2; [|rewrite (mutual_at _ _ Hp Hfin); naive_solver].
      injection Hp as <-. subst p.
      destruct (set_mutual_entry h other them this f Hok Ho Hi Hfin) as [[Hft Hm]|[Hft Hfin']].
      * assert (q = this) as -> by congruence. naive_solver.
      * rewrite (mutual_at _ _ Ho Hfin'). naive_solver.
    + rewrite (mutual_at _ _ Hp Hfin). split; [naive_solver|]. intros [?|[-> ->]]; [done|].
      assert (u = them) as -> by congruence. destruct (FindFriend_neg (Some this) them Hi).
      apply list_elem_of_fmap. eauto.
Qed.

Lemma AddFriend_mutual_exact_witness :
  let h := <[1%nat := new_UserCacheItem (replicate 20 0) (b# "a")]>
           (<[2%nat := set_friends [mkFriend false (Some 1%nat)]
                         (new_UserCacheItem (replicate 20 0) (b# "b"))]> ∅) in
  mutual_exact (AddFriend 1 (Some 2%nat) h).2 /\
  (u_friend_list <$> (AddFriend 1 (Some 2%nat) h).2 !! 1%nat) = Some [mkFriend true (Some 2%nat)] /\
  (u_friend_list <$> (AddFriend 1 (Some 2%nat) h).2 !! 2%nat) = Some [mkFriend true (Some 1%nat)].
Proof.
  split; [|split; vm_compute; reflexivity].
  apply AddFriend_mutual_exact.
  - intros p u Hp. apply lookup_insert_Some in Hp as [[<- <-]|[Hne Hp]]; simpl.
    + split; [lia|]. split; [constructor|]. split; apply not_elem_of_nil.
    + apply lookup_insert_Some in Hp as [[<- <-]|[? Hp]]; [simpl|by rewrite lookup_empty in Hp].
      split; [lia|]. unfold targets; simpl. split; [apply NoDup_singleton|].
      rewrite !list_elem_of_singleton. split; congruence.
  - intros p u f q Hp. apply lookup_insert_Some in Hp as [[<- <-]|[Hne Hp]]; simpl.
    + by intros ?%not_elem_of_nil.
    + apply lookup_insert_Some in Hp as [[<- <-]|[? Hp]]; [simpl|by rewrite lookup_empty in Hp].
      intros ->%list_elem_of_singleton [= <-]. simpl. split; [done|].
      intros (v & Hv & Hin). rewrite lookup_insert_eq in Hv. injection Hv as <-.
      unfold targets in Hin; simpl in Hin. by apply not_elem_of_nil in Hin.
Defined.

(** *** Moving and removing *)

Lemma shift_down_lookup n : forall i l k, (i + n < length l)%nat ->
  shift_down n i l !! k = if decide (i <= k < i + n)%nat then l !! S k else l !! k.
Proof.
  induction n as [|n IH]; intros i l k Hl; simpl; [case_decide; [lia|done]|].
  rewrite IH by (rewrite length_insert; lia).
  assert (is_Some (l !! S i)) as [x Hx] by (apply lookup_lt_is_Some; lia).
  rewrite (list_lookup_total_correct _ _ _ Hx).
  repeat case_decide; try lia; rewrite list_lookup_insert; repeat case_decide; try lia; try done.
  assert (k = i) as -> by lia. done.
Qed.

Lemma shift_up_lookup n : forall i l k, (i < length l)%nat -> (n <= i)%nat ->
  shift_up n i l !! k = if decide (i - n < k <= i)%nat then l !! (k - 1)%nat else l !! k.
Proof.
  induction n as [|n IH]; intros i l k Hl Hn; simpl; [case_decide; [lia|done]|].
  rewrite IH by (rewrite ?length_insert; lia).
  assert (is_Some (l !! (i - 1)%nat)) as [x Hx] by (apply lookup_lt_is_Some; lia).
  rewrite (list_lookup_total_correct _ _ _ Hx).
  repeat case_decide; try lia; rewrite list_lookup_insert; repeat case_decide; try lia; try done.
  assert (k = i) as -> by lia. done.
Qed.

Lemma pull_down_lookup n : forall i l k x, l !! i = Some x -> (n <= i)%nat ->
  pull_down n i l !! k = if decide (i - n <= k < i)%nat then Some x else l !! k.
Proof.
  induction n as [|n IH]; intros i l k x Hx Hn; simpl; [case_decide; [lia|done]|].
  rewrite (list_lookup_total_correct _ _ _ Hx). pose proof (lookup_lt_Some _ _ _ Hx).
  rewrite (IH (i - 1)%nat _ k x); [|rewrite list_lookup_insert_eq; [done|lia]|lia].
  repeat case_decide; try lia; try done; rewrite list_lookup_insert; repeat case_decide; try lia; done.
Qed.

Lemma length_shift_down n i l : length (shift_down n i l) = length l.
Proof. revert i l. induction n; intros; simpl; [done|]. by rewrite IHn, length_insert. Qed.
Lemma length_shift_up n i l : length (shift_up n i l) = length l.
Proof. revert i l. induction n; intros; simpl; [done|]. by rewrite IHn, length_insert. Qed.
Lemma length_pull_down n i l : length (pull_down n i l) = length l.
Proof. revert i l. induction n; intros; simpl; [done|]. by rewrite IHn, length_insert. Qed.

(** What [RemoveFriend] leaves: for an index in range it returns true and
    keeps the entries before it, but every entry from it on becomes a copy of
    the last one, because the loop copies downwards starting from the end. *)
Theorem RemoveFriend_result idx u :
  (idx < length (u_friend_list u))%nat ->
  (RemoveFriend idx u).1 = true /\
  u_friend_list (RemoveFriend idx u).2 =
    take idx (u_friend_list u) ++
    replicate (length (u_friend_list u) - 1 - idx) (List.last (u_friend_list u) (mkFriend false None)).
Proof.
  intros Hidx. unfold RemoveFriend. set (l := u_friend_list u) in *.
  destruct (Nat.leb_spec (length l) idx); [lia|]. split; [done|]. simpl.
  assert (exists x, l !! (length l - 1)%nat = Some x /\ List.last l (mkFriend false None) = x) as (x & Hx & ->).
  { destruct (lookup_lt_is_Some_2 l (length l - 1)) as [x Hx]; [lia|]. exists x. split; [done|].
    destruct (exists_last (l:=l)) as (l' & y & E); [by intros E; rewrite E in Hidx; simpl in Hidx; lia|].
    rewrite E in *. rewrite List.last_last. rewrite length_app in Hx. simpl in Hx.
    rewrite lookup_app_r in Hx by lia.
    by replace (length l' + 1 - 1 - length l')%nat with 0%nat in Hx by lia; injection Hx. }
  apply list_eq. intros k.
  assert (length (take idx l) = idx) as Hti by (rewrite length_take; lia).
  destruct (Nat.ltb_spec k (length l - 1)) as [Hk|Hk].
  - rewrite lookup_take_lt by lia. destruct (Nat.ltb_spec (idx + 1) (length l));
      [|rewrite lookup_app_l, lookup_take_lt by lia; done].
    rewrite (pull_down_lookup _ _ _ _ x) by (done || lia). case_decide.
    + rewrite lookup_app_r, lookup_replicate_2 by lia. done.
    + rewrite lookup_app_l, lookup_take_lt by lia. done.
  - rewrite lookup_take_ge, lookup_ge_None_2 by (rewrite ?length_app, ?length_replicate; lia). done.
Qed.

Lemma RemoveFriend_result_witness :
  let u := set_friends (map (fun n => mkFriend false (Some n)) [1; 2; 3; 4]%nat)
             (new_UserCacheItem (replicate 20 0) (b# "a")) in
  u_friend_list (RemoveFriend 0 u).2 =
    replicate 3 (mkFriend false (Some 4%nat)).
Proof.
  apply (RemoveFriend_result 0 (set_friends (map (fun n => mkFriend false (Some n)) [1; 2; 3; 4]%nat)
             (new_UserCacheItem (replicate 20 0) (b# "a")))). simpl. lia.
Defined.

(** Moving a friend down the list loses it: when [idx1 < idx2] are in
    range and the friend at [idx1] occurs once, [MoveFriend] reports success
    and the friend is gone, since [fr] is a reference to the slot the shift has
    overwritten; slot [idx2] receives the former neighbour. *)
Theorem MoveFriend_down_loses idx1 idx2 u f :
  (idx1 < idx2 < length (u_friend_list u))%nat ->
  u_friend_list u !! idx1 = Some f -> NoDup (u_friend_list u) ->
  (MoveFriend idx1 idx2 u).1 = true /\ f ∉ u_friend_list (MoveFriend idx1 idx2 u).2.
Proof.
  intros Hi Hf Hnd. unfold MoveFriend. set (l := u_friend_list u) in *.
  destruct (Nat.leb_spec (length l) idx1); [lia|]. destruct (Nat.leb_spec (length l) idx2); [lia|].
  destruct (Nat.eqb_spec idx1 idx2); [lia|]. destruct (Nat.ltb_spec idx1 idx2); [|lia].
  split; [done|]. simpl. set (l1 := shift_down (idx2 - idx1) idx1 l).
  assert (forall k, l1 !! k = if decide (idx1 <= k < idx2)%nat then l !! S k else l !! k) as Hl1.
  { intros k. subst l1. rewrite shift_down_lookup by lia. repeat case_decide; try lia; done. }
  assert (forall k, l1 !! k <> Some f) as Hno.
  { intros k. rewrite Hl1. case_decide; intros Hk; pose proof (NoDup_lookup l _ _ _ Hnd Hf Hk); lia. }
  intros Hin. apply list_elem_of_lookup in Hin as [k Hk]. rewrite list_lookup_insert in Hk.
  case_decide as Hd; [|by destruct (Hno k)].
  injection Hk as Hk. destruct (lookup_lt_is_Some_2 l1 idx1) as [y Hy].
  { subst l1. rewrite length_shift_down. lia. }
  rewrite (list_lookup_total_correct _ _ _ Hy) in Hk. subst y. by destruct (Hno idx1).
Qed.

Lemma MoveFriend_down_loses_witness :
  let u := set_friends (map (fun n => mkFriend false (Some n)) [1; 2; 3]%nat)
             (new_UserCacheItem (replicate 20 0) (b# "a")) in
  (MoveFriend 0 1 u).1 = true /\
  mkFriend false (Some 1%nat) ∉ u_friend_list (MoveFriend 0 1 u).2.
Proof.
  apply MoveFriend_down_loses; [simpl; lia|reflexivity|].
  apply (bool_decide_unpack _). vm_compute. exact I.
Defined.

(** ** The profile data and its stored form *)

(** One stored entry; what the column can represent. *)
Definition entry_bytes (kv : bytes * bytes) : bytes := kv.1 ++ [61] ++ kv.2 ++ [0].
Definition storable (kv : bytes * bytes) : Prop :=
  Forall (fun c => c <> 61 /\ c <> 0) kv.1 /\ Forall (fun c => c <> 0) kv.2.

Lemma data_loop_entries l : forall fuel m,
  Forall storable l -> (length (mjoin (entry_bytes <$> l)) <= fuel)%nat ->
  data_loop fuel (mjoin (entry_bytes <$> l)) m = foldl (fun m e => om_insert ci_ltb e.1 e.2 m) m l.
Proof.
  induction l as [|[k v] l IH]; intros fuel m Hl Hf; [by destruct fuel|].
  apply Forall_cons in Hl as [[Hk Hv] Hl]. simpl in Hk, Hv.
  rewrite fmap_cons, mjoin_cons in Hf |- *. set (r := mjoin (entry_bytes <$> l)) in *.
  assert (entry_bytes (k, v) ++ r = (k ++ 61 :: v) ++ 0 :: r) as E
    by (unfold entry_bytes; simpl; rewrite <- !app_assoc; simpl; by rewrite <- app_assoc).
  rewrite E in Hf |- *. rewrite !length_app in Hf; simpl in Hf.
  destruct fuel as [|fuel]; [lia|]. cbn [data_loop foldl fst snd].
  rewrite (proj2 (Nat.eqb_neq _ _)) by (rewrite length_app; simpl; lia).
  rewrite cstr_nul_free by (apply Forall_app; split; [|constructor; [lia|done]];
    eapply Forall_impl; [exact Hk|naive_solver]).
  rewrite find_char_app by (eapply Forall_impl; [exact Hk|naive_solver]).
  rewrite take_app_length. replace (drop (length k + 1) (k ++ 61 :: v)) with v
    by (rewrite drop_app_ge by lia; by replace (length k + 1 - length k)%nat with 1%nat by lia).
  replace (drop (length (k ++ 61 :: v) + 1) ((k ++ 61 :: v) ++ 0 :: r)) with r
    by (rewrite drop_app_ge by lia;
        by replace (length (k ++ 61%Z :: v) + 1 - length (k ++ 61%Z :: v))%nat with 1%nat by lia).
  apply IH; [done|]. fold r. lia.
Qed.

Lemma BuildDataMap_bytes u st :
  Forall storable (u_data_map u) ->
  _buf (BuildDataMap u st) = _buf st ++
    mjoin (entry_bytes <$> base.filter (fun kv => kv.2 <> []) (u_data_map u)).
Proof.
  unfold BuildDataMap. intros Hm. revert st. induction Hm as [|[k v] m [Hk Hv] _ IH]; intros st; simpl in *.
  - by rewrite app_nil_r.
  - rewrite IH, filter_cons. destruct v as [|c v]; cbn [snd]; case_decide; try done.
    rewrite fmap_cons, mjoin_cons. simpl.
    unfold put_str, append, entry_bytes; simpl.
    rewrite <- !app_assoc. simpl. by rewrite <- !app_assoc.
Qed.

(** The profile data survives its stored form: for keys without '=' or
    NUL and values without NUL, parsing what [BuildDataMap] writes into a fresh
    account gives back the same entries in the same order, the empty ones
    (which read like absent ones) dropped. *)
Theorem data_map_roundtrip u u0 :
  om_sorted ci_ltb (u_data_map u) -> Forall storable (u_data_map u) -> u_data_map u0 = [] ->
  u_data_map (SetDataMap (_buf (BuildDataMap u empty_stream)) u0) =
    base.filter (fun kv => kv.2 <> []) (u_data_map u).
Proof.
  intros Hs Hm H0. unfold SetDataMap, set_data_map; simpl. rewrite BuildDataMap_bytes by done.
  simpl. rewrite H0, data_loop_entries; [|by apply Forall_filter_keep|done].
  rewrite (om_rebuild ci_ltb _ []); [done|]. by apply om_filter_sorted.
Qed.

Lemma data_map_roundtrip_witness :
  let u := SetData (b# "profile\sex") (b# "f") (SetData (b# "profile\age") []
             (SetData (b# "System\Port") (b# "6112") (new_UserCacheItem (replicate 20 0) (b# "a")))) in
  u_data_map (SetDataMap (_buf (BuildDataMap u empty_stream))
                         (new_UserCacheItem (replicate 20 0) (b# "b"))) =
    [(b# "profile\sex", b# "f"); (b# "System\Port", b# "6112")].
Proof.
  cbv zeta. rewrite data_map_roundtrip.
  - vm_compute. reflexivity.
  - vm_compute. repeat constructor.
  - apply (bool_decide_unpack _). vm_compute. exact I.
  - reflexivity.
Defined.
