(* ===== verification/UserCache.v ===== *)
(** * UserCache: [Cache::UserCache] of blitzd/cache/UserCache.cpp

    The two tables of loaded accounts, the loader that fills them from the
    storage, recursively through the friend lists, and the saver.  The storage
    is any implementation of [Storage_ops]. *)

From S2P Require Import Prelude Words Stream OMap CStr NumFmt Storage UserItem.

(** ** State *)

(** The members, with the heap of items, the next address the allocator hands
    out and the database. *)
Record UC (S : Type) := mkUC {
  uc_heap : gmap nat UserCacheItem;
  uc_alloc : nat;
  uc_next_uid : Z;
  uc_count : Z;
  uc_names : list (bytes * nat);
  uc_ids : list (Z * nat);
  uc_db : S
}.
Arguments mkUC {S}. Arguments uc_heap {S}. Arguments uc_alloc {S}. Arguments uc_next_uid {S}.
Arguments uc_count {S}. Arguments uc_names {S}. Arguments uc_ids {S}. Arguments uc_db {S}.

Definition new_UserCache {S} (db : S) : UC S := mkUC ∅ 0 1 0 [] [] db.

Definition SetNextUId {S} (n : Z) (c : UC S) : UC S :=
  mkUC (uc_heap c) (uc_alloc c) n (uc_count c) (uc_names c) (uc_ids c) (uc_db c).
Definition Count {S} (c : UC S) : nat := length (uc_ids c).
Definition GetCount {S} (c : UC S) : Z := uc_count c.

Definition with_heap {S} (h : gmap nat UserCacheItem) (c : UC S) : UC S :=
  mkUC h (uc_alloc c) (uc_next_uid c) (uc_count c) (uc_names c) (uc_ids c) (uc_db c).
Definition with_db {S} (db : S) (c : UC S) : UC S :=
  mkUC (uc_heap c) (uc_alloc c) (uc_next_uid c) (uc_count c) (uc_names c) (uc_ids c) db.

(** The column names and the match conditions. *)
Definition user_keys : list bytes :=
  [b# "userid"; b# "username"; b# "salt"; b# "verifier"; b# "passwd"; b# "mail"; b# "flag"; b# "data"].
Definition friend_keys : list bytes := [b# "userid"; b# "friendlist"].
Definition where_name (name : bytes) : bytes := b# "username=" ++ [34] ++ name ++ [34].

(** The words of a friend list column. *)
Definition words_of (b : bytes) : list Z :=
  map (fun i => le_val (take 4 (drop (4 * i) b))) (seq 0 (length b / 4)).

Section cache.
Context {S : Type} (store : Storage_ops S).
(** What an uninitialised [_passwd] holds at each address. *)
Context (junk : nat -> bytes).

(** [Add(name, uid)]: the address of the new item. *)
Definition Add (name : bytes) (uid : Z) (c : UC S) : nat * UC S :=
  let p := uc_alloc c in
  let '(uid, next_uid) :=
    if uid =? 0 then (uc_next_uid c, u32 (uc_next_uid c + 1))
    else (uid, if uc_next_uid c <=? uid then u32 (uid + 1) else uc_next_uid c) in
  let item := SetUserId uid (new_UserCacheItem (junk p) name) in
  let '(count, ids) :=
    if 0 <? uid then (u32 (uc_count c + 1), om_insert Z.ltb uid p (uc_ids c))
    else (uc_count c, uc_ids c) in
  (p, mkUC (<[p := item]> (uc_heap c)) (p + 1) next_uid count
           (om_insert ci_ltb (cstr name) p (uc_names c)) ids (uc_db c)).

Definition Take_id (id : Z) (c : UC S) : result (option nat * UC S) :=
  if id =? 0 then Ret (None, c)
  else match om_find Z.ltb id (uc_ids c) with
       | None => Ret (None, c)
       | Some p =>
           u ← deref (uc_heap c !! p);
           Ret (Some p, mkUC (uc_heap c) (uc_alloc c) (uc_next_uid c) (u32 (uc_count c - 1))
                             (om_erase ci_ltb (u_username u) (uc_names c))
                             (om_erase Z.ltb id (uc_ids c)) (uc_db c))
       end.

Definition Take_name (name : bytes) (c : UC S) : result (option nat * UC S) :=
  match om_find ci_ltb (cstr name) (uc_names c) with
  | None => Ret (None, c)
  | Some p =>
      u ← deref (uc_heap c !! p);
      let '(count, ids) :=
        if 0 <? u_id u then (u32 (uc_count c - 1), om_erase Z.ltb (u_id u) (uc_ids c))
        else (uc_count c, uc_ids c) in
      Ret (Some p, mkUC (uc_heap c) (uc_alloc c) (uc_next_uid c) count
                        (om_erase ci_ltb (cstr name) (uc_names c)) ids (uc_db c))
  end.

(** [Remove] does what [Take] does and returns nothing. *)
Definition Remove_id (id : Z) (c : UC S) : result (UC S) := r ← Take_id id c; Ret r.2.
Definition Remove_name (name : bytes) (c : UC S) : result (UC S) := r ← Take_name name c; Ret r.2.

(** The tail of [LoadUser] when no row was found: a placeholder of id 0 under
    the name.  With a NULL name, [UserCacheItem(NULL)] builds a [std::string]
    from NULL. *)
Definition load_miss (name : option bytes) (c : UC S) : result (option nat * UC S) :=
  match name with
  | None => Crash
  | Some n =>
      let p := uc_alloc c in
      Ret (None, mkUC (<[p := new_UserCacheItem (junk p) n]> (uc_heap c)) (p + 1) (uc_next_uid c)
                      (uc_count c) (om_insert ci_ltb (cstr n) p (uc_names c)) (uc_ids c) (uc_db c))
  end.

(** The item of a row of [users]: the columns in the order of [user_keys]. *)
Definition fill_item (salt verifier passwd mail : bytes) (flag : Z) (data : bytes) (u : UserCacheItem)
  : UserCacheItem :=
  let u := if 32 <=? Z.of_nat (length salt) then SetSalt salt u else u in
  let u := if 32 <=? Z.of_nat (length verifier) then SetVerifier verifier u else u in
  let u := if 20 <=? Z.of_nat (length passwd) then SetPasswd passwd u else u in
  SetDirty false (SetDataMap data (SetFlag flag (SetMail mail u))).

Definition load_row (row : list DataDef) (c : UC S) : result (nat * Z * UC S) :=
  match row with
  | [c0; c1; c2; c3; c4; c5; c6; c7] =>
      name ← deref (as_string c1);
      id ← deref (as_int c0);
      salt ← deref (as_blob c2); verifier ← deref (as_blob c3); passwd ← deref (as_blob c4);
      mail ← deref (as_string c5); flag ← deref (as_int c6); data ← deref (as_blob c7);
      let '(p, c) := Add name (u32 id) c in
      Ret (p, u32 id, with_heap (alter (fill_item salt verifier passwd mail (u32 flag) data) p (uc_heap c)) c)
  | _ => Crash
  end.

(** The loop that adds the friend of every stored id, [index] being
    [operator[](uint)]. *)
Fixpoint add_friends (index : Z -> UC S -> result (option nat * UC S)) (p : nat) (ids : list Z) (c : UC S)
  : result (UC S) :=
  match ids with
  | [] => Ret c
  | id :: ids' =>
      r ← index id c;
      let '(user, c) := r in
      add_friends index p ids' (with_heap (AddFriend p user (uc_heap c)).2 c)
  end.

(** [operator[](uint)] over a given loader. *)
Definition index_with (load : option bytes -> Z -> UC S -> result (option nat * UC S))
  (id : Z) (c : UC S) : result (option nat * UC S) :=
  match om_find Z.ltb id (uc_ids c) with
  | None => load None id c
  | Some p => u ← deref (uc_heap c !! p); Ret (if IsExist u then Some p else None, c)
  end.

(** [LoadUser]; [whereexpr] is a [char[128]]. *)
Fixpoint LoadUser (fuel : nat) (name : option bytes) (id : Z) (c : UC S) : result (option nat * UC S) :=
  match fuel with
  | O => NoFuel
  | Datatypes.S fuel' =>
      let whereexpr := match name with Some n => where_name (cstr n) | None => where_id id end in
      if Nat.ltb 127 (length whereexpr) then Crash
      else
        match (st_GetMatch store (b# "users") user_keys whereexpr [] (uc_db c)).2 with
        | [] => load_miss name c
        | [row] =>
            r ← load_row row c;
            let '(p, user_id, c) := r in
            match (st_GetMatch store (b# "friends") [b# "friendlist"] (where_id user_id) [] (uc_db c)).2 with
            | [] => Ret (Some p, c)
            | (cell :: _) :: _ =>
                blob ← deref (as_blob cell);
                c ← add_friends (index_with (LoadUser fuel')) p (words_of blob) c;
                Ret (Some p, c)
            | [] :: _ => Crash
            end
        | _ => load_miss name (with_db (st_RemoveMatch store (b# "users") whereexpr (uc_db c)) c)
        end
  end.

(** [operator[](std::string)] and [operator[](uint)]. *)
Definition index_name (fuel : nat) (name : bytes) (c : UC S) : result (option nat * UC S) :=
  match om_find ci_ltb name (uc_names c) with
  | None => LoadUser fuel (Some name) 0 c
  | Some p => u ← deref (uc_heap c !! p); Ret (if IsExist u then Some p else None, c)
  end.
Definition index_id (fuel : nat) (id : Z) (c : UC S) : result (option nat * UC S) :=
  index_with (LoadUser fuel) id c.

(** [LoadFromDB]: both queries append to the same [result]. *)
Definition LoadFromDB (c : UC S) : result (UC S) :=
  let result := (st_GetAll store (b# "users") [b# "MAX(userid)"] [] (uc_db c)).2 in
  c ← match result with
      | [] => Ret c
      | (cell :: _) :: _ => v ← deref (as_int cell); Ret (SetNextUId (u32 (u32 v + 1)) c)
      | [] :: _ => Crash
      end;
  let result := (st_GetAll store (b# "users") [b# "COUNT(userid)"] result (uc_db c)).2 in
  match result with
  | [] => Ret c
  | (cell :: _) :: _ =>
      v ← deref (as_int cell);
      Ret (mkUC (uc_heap c) (uc_alloc c) (uc_next_uid c) (u32 v) (uc_names c) (uc_ids c) (uc_db c))
  | [] :: _ => Crash
  end.

(** The row [SaveToDB] writes for a dirty item. *)
Definition user_row (u : UserCacheItem) : list DataDef :=
  [SetInt (u_id u); SetString (u_username u); SetBinary (u_salt u); SetBinary (u_verifier u);
   SetBinary (u_passwd u); SetString (u_mail u); SetInt (GetFullFlag u);
   SetBinary (_buf (BuildDataMap u empty_stream))].

(** The ids of the friends, NULL ones skipped. *)
Fixpoint friend_ids (h : gmap nat UserCacheItem) (l : list Friend_t) : result (list Z) :=
  match l with
  | [] => Ret []
  | f :: l' =>
      match fuser f with
      | None => friend_ids h l'
      | Some q => v ← deref (h !! q); r ← friend_ids h l'; Ret (u_id v :: r)
      end
  end.
Definition friend_row (h : gmap nat UserCacheItem) (u : UserCacheItem) : result (list DataDef) :=
  ids ← friend_ids h (u_friend_list u);
  Ret [SetInt (u_id u); SetBinary (mjoin (le_bytes 4 <$> ids))].

(** One round of the [SaveToDB] loop. *)
Definition save_item (p : nat) (c : UC S) : result (UC S) :=
  item ← deref (uc_heap c !! p);
  c ← (if u_dirty item then
         r ← deref (st_Set store (b# "users") user_keys (user_row item) (uc_db c));
         Ret (with_db r.2 (with_heap (<[p := SetDirty false item]> (uc_heap c)) c))
       else Ret c);
  item ← deref (uc_heap c !! p);
  if u_friend_dirty item then
    let c := with_heap (<[p := SetFriendDirty false item]> (uc_heap c)) c in
    row ← friend_row (uc_heap c) item;
    r ← deref (st_Set store (b# "friends") friend_keys row (uc_db c));
    Ret (with_db r.2 c)
  else Ret c.

Fixpoint save_loop (ids : list (Z * nat)) (c : UC S) : result (UC S) :=
  match ids with
  | [] => Ret c
  | (_, p) :: ids' => c ← save_item p c; save_loop ids' c
  end.
Definition SaveToDB (c : UC S) : result (UC S) :=
  let c := with_db (st_Begin store (uc_db c)) c in
  c ← save_loop (uc_ids c) c;
  Ret (with_db (st_Commit store (uc_db c)) c).
End cache.

(** ** The two tables agree *)

(** Every numbered entry is an account of that number that its name finds;
    every named entry carries that name, up to case, and, unless it is a
    placeholder, its number finds it. *)
Record uc_ok {S} (c : UC S) : Prop := {
  ok_names_sorted : om_sorted ci_ltb (uc_names c);
  ok_ids_sorted : om_sorted Z.ltb (uc_ids c);
  ok_fresh : forall p, is_Some (uc_heap c !! p) -> (p < uc_alloc c)%nat;
  ok_next : forall k p, om_find Z.ltb k (uc_ids c) = Some p -> 0 < k < uc_next_uid c;
  ok_ids : forall k p, om_find Z.ltb k (uc_ids c) = Some p ->
    exists u, uc_heap c !! p = Some u /\ u_id u = k /\
              om_find ci_ltb (u_username u) (uc_names c) = Some p;
  ok_names : forall n p, om_find ci_ltb n (uc_names c) = Some p ->
    exists u, uc_heap c !! p = Some u /\ ci_key (u_username u) = ci_key n /\ 0 <= u_id u /\
              (0 < u_id u -> om_find Z.ltb (u_id u) (uc_ids c) = Some p)
}.

Lemma ci_key_cstr s : ci_key (cstr s) = ci_key s.
Proof. unfold ci_key. by rewrite (cstr_id (cstr s)) by apply cstr_nz. Qed.

Lemma om_find_ci n n' (m : list (bytes * nat)) :
  ci_key n = ci_key n' -> om_find ci_ltb n m = om_find ci_ltb n' m.
Proof. intros H. apply om_find_same; [apply _|]. by apply same_ci. Qed.

Lemma find_names_insert n n' p (m : list (bytes * nat)) :
  om_find ci_ltb n' (om_insert ci_ltb n p m) =
    if decide (ci_key n = ci_key n') then Some p else om_find ci_ltb n' m.
Proof.
  case_decide as H.
  - rewrite <- (om_find_ci n n') by done. apply om_find_insert. apply _.
  - apply om_find_insert_ne; [apply _|]. destruct (same ci_ltb n n') eqn:E; [|done].
    by apply same_ci in E.
Qed.
Lemma find_names_erase n n' (m : list (bytes * nat)) :
  om_find ci_ltb n' (om_erase ci_ltb n m) =
    if decide (ci_key n = ci_key n') then None else om_find ci_ltb n' m.
Proof.
  case_decide as H.
  - rewrite <- (om_find_ci n n') by done. apply om_find_erase.
  - apply om_find_erase_ne; [apply _|]. destruct (same ci_ltb n n') eqn:E; [|done].
    by apply same_ci in E.
Qed.
Lemma find_ids_insert {V} k k' p (m : list (Z * V)) :
  om_find Z.ltb k' (om_insert Z.ltb k p m) = if decide (k = k') then Some p else om_find Z.ltb k' m.
Proof.
  case_decide as H; [subst; apply om_find_insert; apply _|].
  apply om_find_insert_ne; [apply _|]. rewrite same_Z. by apply Z.eqb_neq.
Qed.
Lemma find_ids_erase {V} k k' (m : list (Z * V)) :
  om_find Z.ltb k' (om_erase Z.ltb k m) = if decide (k = k') then None else om_find Z.ltb k' m.
Proof.
  case_decide as H; [subst; apply om_find_erase|].
  apply om_find_erase_ne; [apply _|]. rewrite same_Z. by apply Z.eqb_neq.
Qed.

Section tables.
Context {S : Type} (junk : nat -> bytes).
Implicit Types (c : UC S).

(** The number [Add] gives. *)
Definition add_uid (uid : Z) c : Z := if uid =? 0 then uc_next_uid c else uid.

(** What the callers check before [Add]: no account of that name is there
    (a placeholder may be), and the number, when given, is not taken. *)
Definition add_guard (name : bytes) (uid : Z) c : Prop :=
  0 <= uid < 2 ^ 32 - 1 /\ 0 < uc_next_uid c < 2 ^ 32 - 1 /\
  (uid <> 0 -> om_find Z.ltb uid (uc_ids c) = None) /\
  (forall p u, om_find ci_ltb name (uc_names c) = Some p -> uc_heap c !! p = Some u -> u_id u = 0).

Lemma Add_eq name uid c :
  add_guard name uid c ->
  Add junk name uid c =
    (uc_alloc c,
     mkUC (<[uc_alloc c := SetUserId (add_uid uid c) (new_UserCacheItem (junk (uc_alloc c)) name)]> (uc_heap c))
          (uc_alloc c + 1) (Z.max (uc_next_uid c) (add_uid uid c + 1)) (u32 (uc_count c + 1))
          (om_insert ci_ltb (cstr name) (uc_alloc c) (uc_names c))
          (om_insert Z.ltb (add_uid uid c) (uc_alloc c) (uc_ids c)) (uc_db c)).
Proof.
  intros (Hu & Hn & _). unfold Add, add_uid. repeat btest; try lia; do 2 f_equal.
  all: rewrite ?u32_small; lia.
Qed.

Lemma Add_ok name uid c : uc_ok c -> add_guard name uid c -> uc_ok (Add junk name uid c).2.
Proof.
  intros Hok Hg. rewrite Add_eq by done. destruct Hg as (Hu & Hn & Hfree & Hname).
  assert (om_find Z.ltb (add_uid uid c) (uc_ids c) = None) as Hnew.
  { unfold add_uid. btest; [|auto]. destruct (om_find Z.ltb (uc_next_uid c) (uc_ids c)) as [q|] eqn:E; [|reflexivity].
    apply (ok_next c Hok) in E. lia. }
  assert (uc_heap c !! uc_alloc c = None) as Hp.
  { destruct (uc_heap c !! uc_alloc c) eqn:E; [|done].
    pose proof (ok_fresh c Hok (uc_alloc c) ltac:(eauto)). lia. }
  assert (forall p u, uc_heap c !! p = Some u -> p <> uc_alloc c) as Hne by (intros p u Hu' ->; congruence).
  constructor; simpl.
  - apply om_insert_sorted; [apply _|apply ok_names_sorted; done].
  - apply om_insert_sorted; [apply _|apply ok_ids_sorted; done].
  - intros p [u Hu']. apply lookup_insert_Some in Hu' as [[<- _]|[_ Hu']]; [lia|].
    pose proof (ok_fresh c Hok p ltac:(eauto)). lia.
  - intros k p. rewrite find_ids_insert. case_decide as Hk.
    + intros _. unfold add_uid in *. btest; lia.
    + intros H%(ok_next c Hok). lia.
  - intros k p. rewrite find_ids_insert. case_decide as Hk.
    + intros [= <-]. rewrite lookup_insert_eq. eexists. split; [done|]. split; [done|]. simpl.
      rewrite find_names_insert. by rewrite decide_True.
    + intros Hf. pose proof (ok_next c Hok k p Hf). destruct (ok_ids c Hok k p Hf) as (u & Hh & Hid & Hnm).
      exists u. rewrite lookup_insert_ne by (symmetry; eauto).
      split; [done|]. split; [done|]. rewrite find_names_insert. case_decide as Hc; [|done].
      rewrite ci_key_cstr in Hc. rewrite <- (om_find_ci name) in Hnm by done.
      specialize (Hname _ _ Hnm Hh). lia.
  - intros n p. rewrite find_names_insert. case_decide as Hc.
    + intros [= <-]. rewrite lookup_insert_eq. eexists. split; [done|]. simpl. split; [done|].
      split; [unfold add_uid; btest; lia|]. intros _. rewrite find_ids_insert. by rewrite decide_True.
    + intros (u & Hh & Hk & Hid & Hnum)%(ok_names c Hok). exists u. rewrite lookup_insert_ne by (symmetry; eauto).
      split; [done|]. split; [done|]. split; [done|]. intros Hpos. rewrite find_ids_insert.
      rewrite decide_False; [auto|]. intros E. rewrite E in Hnew. by rewrite (Hnum Hpos) in Hnew.
Qed.

(** What both [Take]s leave of the tables when they remove [p]. *)
Lemma erase_ok c p u n count :
  uc_ok c -> uc_heap c !! p = Some u -> ci_key (u_username u) = ci_key n ->
  om_find ci_ltb n (uc_names c) = Some p ->
  uc_ok (mkUC (uc_heap c) (uc_alloc c) (uc_next_uid c) count (om_erase ci_ltb n (uc_names c))
              (if 0 <? u_id u then om_erase Z.ltb (u_id u) (uc_ids c) else uc_ids c) (uc_db c)).
Proof.
  intros Hok Hp Hn Hf. constructor; simpl.
  - apply om_erase_sorted, (ok_names_sorted c Hok).
  - btest; [apply om_erase_sorted|]; apply (ok_ids_sorted c Hok).
  - apply (ok_fresh c Hok).
  - intros k q Hk. apply (ok_next c Hok k q). btest; [|done].
    rewrite find_ids_erase in Hk. by case_decide.
  - intros k q Hk.
    assert (om_find Z.ltb k (uc_ids c) = Some q /\ k <> u_id u) as [Hk' Hne].
    { btest; [rewrite find_ids_erase in Hk; by case_decide|]. split; [done|].
      apply (ok_next c Hok) in Hk. lia. }
    destruct (ok_ids c Hok k q Hk') as (v & Hv & Hid & Hnm). exists v. split; [done|]. split; [done|].
    rewrite find_names_erase. case_decide as Hc; [|done].
    rewrite <- (om_find_ci n) in Hnm by done. assert (q = p) as -> by congruence. congruence.
  - intros n' q Hq. rewrite find_names_erase in Hq. case_decide as Hc; [done|].
    destruct (ok_names c Hok n' q Hq) as (v & Hv & Hk & Hid & Hnum). exists v.
    split; [done|]. split; [done|]. split; [done|]. intros Hpos. specialize (Hnum Hpos).
    btest; [|done]. rewrite find_ids_erase. case_decide as E; [|done]. exfalso.
    destruct (ok_names c Hok n p Hf) as (u' & Hu' & _ & _ & Hnum'). rewrite Hp in Hu'. injection Hu' as <-.
    rewrite E in Hnum'. rewrite (Hnum' Hpos) in Hnum. injection Hnum as ->. congruence.
Qed.
End tables.

Section reach.
Context {S : Type} (junk : nat -> bytes).
Implicit Types (c : UC S).

Lemma Take_id_ok id c : uc_ok c -> exists r c', Take_id id c = Ret (r, c') /\ uc_ok c'.
Proof.
  intros Hok. unfold Take_id. btest; [by eauto|].
  destruct (om_find Z.ltb id (uc_ids c)) as [p|] eqn:E; [|by eauto].
  pose proof (ok_next c Hok id p E). destruct (ok_ids c Hok id p E) as (u & Hu & Hid & Hn).
  rewrite Hu. simpl. do 2 eexists. split; [done|].
  pose proof (erase_ok c p u (u_username u) (u32 (uc_count c - 1)) Hok Hu eq_refl Hn) as H'.
  rewrite Hid in H'. destruct (Z.ltb_spec 0 id); [exact H'|lia].
Qed.

Lemma Take_name_ok name c : uc_ok c -> exists r c', Take_name name c = Ret (r, c') /\ uc_ok c'.
Proof.
  intros Hok. unfold Take_name.
  destruct (om_find ci_ltb (cstr name) (uc_names c)) as [p|] eqn:E; [|by eauto].
  destruct (ok_names c Hok _ p E) as (u & Hu & Hk & Hid & Hnum). rewrite Hu. simpl.
  pose proof (fun n => erase_ok c p u (cstr name) n Hok Hu Hk E) as H'.
  destruct (0 <? u_id u); do 2 eexists; (split; [done|]); apply H'.
Qed.

(** Changing an account in place, its number and name kept. *)
Lemma edit_ok f p c :
  (forall u, u_id (f u) = u_id u /\ u_username (f u) = u_username u) ->
  uc_ok c -> uc_ok (with_heap (alter f p (uc_heap c)) c).
Proof.
  intros Hf Hok. constructor; simpl.
  - apply (ok_names_sorted c Hok).
  - apply (ok_ids_sorted c Hok).
  - intros q [v Hv]. apply (ok_fresh c Hok). rewrite lookup_alter in Hv.
    case_decide; [|by eexists]. subst. destruct (uc_heap c !! q); [by eexists|done].
  - apply (ok_next c Hok).
  - intros k q Hk. destruct (ok_ids c Hok k q Hk) as (u & Hu & Hid & Hn). rewrite lookup_alter.
    destruct (Hf u) as [F1 F2]. case_decide; subst; rewrite Hu; simpl; eexists; (split; [reflexivity|]); rewrite ?F1, ?F2; auto.
  - intros n q Hq. destruct (ok_names c Hok n q Hq) as (u & Hu & Hk & Hid & Hn). rewrite lookup_alter.
    destruct (Hf u) as [F1 F2]. case_decide; subst; rewrite Hu; simpl; eexists; (split; [reflexivity|]); rewrite ?F1, ?F2; auto.
Qed.

(** A lookup that fails leaves a placeholder. *)
Lemma load_miss_ok n c r c' :
  uc_ok c -> om_find ci_ltb n (uc_names c) = None -> load_miss junk (Some n) c = Ret (r, c') -> uc_ok c'.
Proof.
  intros Hok Hfree [= <- <-]. set (q := uc_alloc c).
  assert (forall p u, uc_heap c !! p = Some u -> q <> p) as Hne.
  { intros p u Hu <-. pose proof (ok_fresh c Hok q ltac:(eauto)). subst q. lia. }
  constructor; cbn [uc_names uc_ids uc_heap uc_alloc uc_next_uid].
  - apply om_insert_sorted; [apply _|apply (ok_names_sorted c Hok)].
  - apply (ok_ids_sorted c Hok).
  - intros p [u Hu]. apply lookup_insert_Some in Hu as [[<- _]|[_ Hu]]; [lia|].
    pose proof (ok_fresh c Hok p ltac:(eauto)). subst q. lia.
  - apply (ok_next c Hok).
  - intros k p Hk. destruct (ok_ids c Hok k p Hk) as (u & Hu & Hid & Hnm). exists u.
    rewrite lookup_insert_ne by eauto. split; [done|]. split; [done|]. rewrite find_names_insert.
    rewrite decide_False; [done|]. rewrite ci_key_cstr. intros E. rewrite (om_find_ci _ _ _ E) in Hfree. congruence.
  - intros m p. rewrite find_names_insert. case_decide as E.
    + intros [= <-]. rewrite lookup_insert_eq. eexists. split; [done|]. simpl. split; [done|]. lia.
    + intros Hf. destruct (ok_names c Hok m p Hf) as (u & Hu & Hrest). exists u. by rewrite lookup_insert_ne by eauto.
Qed.

(** A step of the tables' life: an addition its callers guard, a removal, a
    failed lookup, or a change of an account by one of its setters. *)
Inductive uc_step : UC S -> UC S -> Prop :=
  | step_add c name uid : add_guard name uid c -> uc_step c (Add junk name uid c).2
  | step_take_id c id r c' : Take_id id c = Ret (r, c') -> uc_step c c'
  | step_take_name c name r c' : Take_name name c = Ret (r, c') -> uc_step c c'
  | step_remove_id c id c' : Remove_id id c = Ret c' -> uc_step c c'
  | step_remove_name c name c' : Remove_name name c = Ret c' -> uc_step c c'
  | step_miss c n r c' : om_find ci_ltb n (uc_names c) = None -> load_miss junk (Some n) c = Ret (r, c') -> uc_step c c'
  | step_edit c f p : (forall u, u_id (f u) = u_id u /\ u_username (f u) = u_username u) ->
      uc_step c (with_heap (alter f p (uc_heap c)) c).

Lemma uc_step_ok c c' : uc_step c c' -> uc_ok c -> uc_ok c'.
Proof.
  intros H Hok. inversion H as [? name uid Hg|? id r ? E|? name r ? E|? id ? E|? name ? E|? n r ? Hf E|? f p Hf]; subst.
  - by apply Add_ok.
  - destruct (Take_id_ok id c Hok) as (? & ? & E' & ?). congruence.
  - destruct (Take_name_ok name c Hok) as (? & ? & E' & ?). congruence.
  - destruct (Take_id_ok id c Hok) as (? & ? & E' & ?). unfold Remove_id in E. rewrite E' in E.
    by injection E as <-.
  - destruct (Take_name_ok name c Hok) as (? & ? & E' & ?). unfold Remove_name in E. rewrite E' in E.
    by injection E as <-.
  - by eapply load_miss_ok.
  - by apply edit_ok.
Qed.

Lemma new_ok (db : S) : uc_ok (new_UserCache db).
Proof. constructor; simpl; try done; try constructor. intros p [u Hu]. by rewrite lookup_empty in Hu. Qed.

Lemma reach_ok db c : rtc uc_step (new_UserCache db) c -> uc_ok c.
Proof.
  intros H. assert (forall a, uc_ok a -> rtc uc_step a c -> uc_ok c) as Hi.
  { clear H. intros a Ha H. induction H; [done|]. eauto using uc_step_ok. }
  eapply Hi; [apply new_ok|done].
Qed.
End reach.



(** An account added under a guard is found at once, by its number and by
    its name in any capitalisation, without consulting the storage; the number
    is the one asked for, or the next free one, which is never given again. *)
Theorem Add_then_find {S} (store : Storage_ops S) junk name uid c fuel n :
  uc_ok c -> add_guard name uid c -> ci_key n = ci_key name ->
  let r := Add junk name uid c in
  index_name store junk fuel n r.2 = Ret (Some r.1, r.2) /\
  index_id store junk fuel (add_uid uid c) r.2 = Ret (Some r.1, r.2) /\
  uc_next_uid r.2 > add_uid uid c /\
  (forall k p, om_find Z.ltb k (uc_ids c) = Some p -> index_id store junk fuel k r.2 =
     index_id store junk fuel k c ≫= fun q => Ret (q.1, r.2)).
Proof.
  intros Hok Hg Hn r. subst r. pose proof Hg as (Hu & Hnx & Hfree & _).
  assert (0 < add_uid uid c) as Hpos by (unfold add_uid; btest; lia).
  rewrite Add_eq by done. unfold index_name, index_id, index_with; simpl. split_and!.
  - rewrite find_names_insert, decide_True by (by rewrite ci_key_cstr). rewrite lookup_insert_eq. simpl.
    unfold IsExist; simpl. by rewrite (proj2 (Z.ltb_lt _ _) Hpos).
  - rewrite find_ids_insert, decide_True by done. rewrite lookup_insert_eq. simpl.
    unfold IsExist; simpl. by rewrite (proj2 (Z.ltb_lt _ _) Hpos).
  - lia.
  - intros k p Hk. rewrite find_ids_insert, decide_False.
    + rewrite Hk. destruct (ok_ids c Hok k p Hk) as (u & Hh & _). rewrite Hh.
      rewrite lookup_insert_ne.
      * rewrite Hh. simpl. by destruct (IsExist u).
      * intros E. pose proof (ok_fresh c Hok p ltac:(eauto)). lia.
    + intros E. pose proof (ok_next c Hok k p Hk). unfold add_uid in E. btest; [lia|].
      rewrite <- E in Hk. rewrite Hfree in Hk; done.
Qed.

Lemma Add_then_find_witness :
  let c := (Add (fun _ => replicate 20 0) (b# "Bob") 0 (new_UserCache ([] : mem))).2 in
  let r := Add (fun _ => replicate 20 0) (b# "Eve") 0 c in
  index_name mem_storage (fun _ => replicate 20 0) 0 (b# "eVE") r.2 = Ret (Some r.1, r.2) /\
  index_id mem_storage (fun _ => replicate 20 0) 0 2 r.2 = Ret (Some r.1, r.2).
Proof.
  cbv zeta.
  pose proof (Add_then_find mem_storage (fun _ => replicate 20 0) (b# "Eve") 0
    (Add (fun _ => replicate 20 0) (b# "Bob") 0 (new_UserCache ([] : mem))).2 0 (b# "eVE")) as H.
  cbv zeta in H. change (add_uid 0 _) with 2 in H.
  destruct H as (H1 & H2 & _); [| | |by split].
  - apply Add_ok; [apply new_ok|]. repeat split; try done.
  - split; [lia|]. split; [vm_compute; split; congruence|]. split; [lia|]. intros p u. vm_compute. congruence.
  - vm_compute. reflexivity.
Defined.
