(* ===== verification/UserDb.v ===== *)
(** * UserDb: loading and saving accounts

    Theorems about [LoadUser], [LoadFromDB] and [SaveToDB] of
    blitzd/cache/UserCache.cpp against the promise of the storage. *)

From S2P Require Import Prelude Words Stream OMap CStr NumFmt Storage UserItem UserCache.

(** ** The recursion of the loader ends *)

Section terminate.
Context {S : Type} (store : Storage_ops S) `{!StorageLaws store} (junk : nat -> bytes).
(** The numbers the stored friend lists mention, and a property of the
    database under which they are complete, kept when duplicates are deleted. *)
Context (U : list Z) (Inv : S -> Prop).
Context (HU : Forall (fun k => 0 < k < 2 ^ 32) U).
Context (Hdel : forall s cond, Inv s -> Inv (st_RemoveMatch store (b# "users") cond s)).
Context (Hlist : forall s id cell r rs blob, Inv s ->
  (st_GetMatch store (b# "friends") [b# "friendlist"] (where_id id) [] s).2 = (cell :: r) :: rs ->
  as_blob cell = Some blob -> words_of blob ⊆ U).
Implicit Types (c : UC S).

Definition loaded c (k : Z) : Prop := om_find Z.ltb k (uc_ids c) <> None.
Definition unloaded c : nat := length (base.filter (fun k => om_find Z.ltb k (uc_ids c) = None) U).
Definition grows c c' : Prop := (forall k, loaded c k -> loaded c' k) /\ Inv (uc_db c').
(** What a call promises: a result, and no account unloaded. *)
Definition ends {A} c (r : result (A * UC S)) : Prop :=
  match r with Ret (_, c') => grows c c' | Crash => True | NoFuel => False end.

Lemma filter_length_le {A} (P Q : A -> Prop) `{!forall x, Decision (P x), !forall x, Decision (Q x)} (l : list A) :
  (forall x, P x -> Q x) -> (length (base.filter P l) <= length (base.filter Q l))%nat.
Proof.
  intros HPQ. induction l as [|x l IH]; [done|]. rewrite !filter_cons.
  repeat case_decide; simpl; try lia. naive_solver.
Qed.

Lemma filter_length_lt {A} (P Q : A -> Prop) `{!forall x, Decision (P x), !forall x, Decision (Q x)} (l : list A) y :
  (forall x, P x -> Q x) -> y ∈ l -> Q y -> ~ P y ->
  (length (base.filter P l) < length (base.filter Q l))%nat.
Proof.
  intros HPQ Hy HQ HP. induction l as [|x l IH]; [by apply not_elem_of_nil in Hy|]. rewrite !filter_cons.
  pose proof (filter_length_le P Q l HPQ).
  apply elem_of_cons in Hy as [->|Hy].
  - rewrite decide_False, decide_True by done. simpl. lia.
  - specialize (IH Hy). repeat case_decide; simpl; try lia. exfalso. eauto.
Qed.

Lemma unloaded_mono c c' : (forall k, loaded c k -> loaded c' k) -> (unloaded c' <= unloaded c)%nat.
Proof.
  intros H. apply filter_length_le. intros k Hk. destruct (om_find Z.ltb k (uc_ids c)) eqn:E; [|done].
  destruct (H k); [by unfold loaded; rewrite E|done].
Qed.

Lemma load_row_grows row c p id c' :
  load_row junk row c = Ret (p, id, c') ->
  (forall k, loaded c k -> loaded c' k) /\ uc_db c' = uc_db c /\
  (forall n, hd_error row = Some (DInt n) -> id = u32 n /\ (0 < u32 n -> loaded c' (u32 n))).
Proof.
  unfold load_row. destruct row as [|c0 [|c1 [|c2 [|c3 [|c4 [|c5 [|c6 [|c7 [|]]]]]]]]]; try done.
  destruct (as_string c1); [|done]. destruct (as_int c0) as [i|] eqn:E0; [|done].
  destruct (as_blob c2); [|done]. destruct (as_blob c3); [|done]. destruct (as_blob c4); [|done].
  destruct (as_string c5); [|done]. destruct (as_int c6); [|done]. destruct (as_blob c7); [|done].
  cbn [mbind result_bind deref]. unfold Add.
  assert (forall k q m, loaded c k -> om_find Z.ltb k (om_insert Z.ltb m q (uc_ids c)) <> None) as Hins
    by (intros k q m Hk; rewrite find_ids_insert; case_decide; [done|exact Hk]).
  destruct (Z.eqb_spec (u32 i) 0) as [Hz|Hz]; destruct (Z.ltb_spec 0 (if decide (u32 i = 0) then uc_next_uid c else u32 i)) as [Hp|Hp].
  all: repeat case_decide; try done; rewrite ?(proj2 (Z.ltb_lt _ _) Hp), ?(proj2 (Z.ltb_ge _ _) Hp).
  all: intros [= <- <- <-]; unfold loaded; simpl; (split; [by auto|]); (split; [done|]).
  all: intros n [= ->]; injection E0 as <-; (split; [done|]); intros Hp'; try lia.
  rewrite find_ids_insert, decide_True by done. done.
Qed.

Lemma load_row_fuel row c : load_row junk row c <> NoFuel.
Proof.
  unfold load_row. destruct row as [|c0 [|c1 [|c2 [|c3 [|c4 [|c5 [|c6 [|c7 [|]]]]]]]]]; try done.
  destruct (as_string c1); [|done]. destruct (as_int c0); [|done].
  destruct (as_blob c2); [|done]. destruct (as_blob c3); [|done]. destruct (as_blob c4); [|done].
  destruct (as_string c5); [|done]. destruct (as_int c6); [|done]. destruct (as_blob c7); [|done].
  cbn [mbind result_bind deref]. by destruct (Add _ _ _ _).
Qed.

Lemma add_friends_ends index f p ids c :
  (forall k c, k ∈ U -> Inv (uc_db c) -> (unloaded c < f)%nat -> ends c (index k c)) ->
  ids ⊆ U -> Inv (uc_db c) -> (unloaded c < f)%nat ->
  match add_friends index p ids c with Ret c' => grows c c' | Crash => True | NoFuel => False end.
Proof.
  intros Hindex. revert c. induction ids as [|k ids IH]; intros c Hin Hinv Hf; simpl; [done|].
  pose proof (Hindex k c ltac:(set_solver) Hinv Hf) as Hk. unfold ends in Hk.
  destruct (index k c) as [[user c1]| |]; [|done..]. destruct Hk as [Hg Hinv1].
  cbn [mbind result_bind]. pose proof (unloaded_mono c c1 Hg).
  specialize (IH (with_heap (AddFriend p user (uc_heap c1)).2 c1)).
  specialize (IH ltac:(set_solver) Hinv1 ltac:(change (unloaded c1 < f)%nat; lia)).
  destruct (add_friends _ _ _ _); [|done..]. destruct IH as [Hg' Hinv']. split; [|done].
  intros k' Hk'. apply Hg'. by apply Hg.
Qed.

Lemma load_miss_ends name c : Inv (uc_db c) -> ends c (load_miss junk name c).
Proof. intros Hinv. destruct name; simpl; [|done]. split; [done|exact Hinv]. Qed.

(** Friends are loaded with a number of [U]; one round is spent on a number
    only once, and one more on a load by name. *)
Lemma LoadUser_ends fuel : forall name id c,
  Inv (uc_db c) -> (name = None -> id ∈ U /\ ~ loaded c id) ->
  (unloaded c + (if name then 1 else 0) < fuel)%nat -> ends c (LoadUser store junk fuel name id c).
Proof.
  induction fuel as [|fuel IH]; intros name id c Hinv Hname Hf; [lia|]. cbn [LoadUser].
  set (w := match name with Some n => _ | None => _ end).
  destruct (Nat.ltb 127 (length w)); [done|].
  destruct (st_GetMatch store (b# "users") user_keys w [] (uc_db c)).2 as [|row [|r2 rs]] eqn:Eg;
    [by apply load_miss_ends| |].
  2:{ pose proof (load_miss_ends name (with_db (st_RemoveMatch store (b# "users") w (uc_db c)) c)
        (Hdel _ _ Hinv)) as H. unfold ends in *. by destruct (load_miss _ _ _). }
  destruct (load_row junk row c) as [[[p uid] c1]| |] eqn:Er; [|done|].
  2:{ by destruct (load_row_fuel row c). }
  cbn [mbind result_bind]. destruct (load_row_grows _ _ _ _ _ Er) as (Hg & Hdb & Hid).
  assert (unloaded c1 < fuel)%nat as Hf1.
  { pose proof (unloaded_mono c c1 Hg). destruct name as [n|]; [lia|].
    destruct (Hname eq_refl) as [HidU Hidn].
    rewrite Forall_forall in HU. pose proof (HU id HidU).
    assert (hd_error row = Some (DInt (u32 id))) as Hrow
      by (apply (law_id (uc_db c) (b# "users") user_keys); [done|]; change (where_id id) with w; rewrite Eg; left).
    rewrite u32_small in Hrow by lia. destruct (Hid _ Hrow) as [_ Hl]. rewrite u32_small in Hl by lia.
    enough (unloaded c1 < unloaded c)%nat by lia.
    apply (filter_length_lt _ _ U id); [|done| |].
    - intros k Hk. destruct (om_find Z.ltb k (uc_ids c)) eqn:E; [|done].
      destruct (Hg k); [by unfold loaded; rewrite E|done].
    - destruct (om_find Z.ltb id (uc_ids c)) eqn:E; [|done]. destruct Hidn. unfold loaded. by rewrite E.
    - apply Hl. lia. }
  destruct (st_GetMatch store (b# "friends") _ _ _ _).2 as [|[|cell r] rs] eqn:Ef; [|done|].
  { split; [done|]. rewrite Hdb. done. }
  destruct (as_blob cell) as [blob|] eqn:Eb; [|done]. cbn [mbind result_bind deref].
  assert (forall k c, k ∈ U -> Inv (uc_db c) -> (unloaded c < fuel)%nat ->
            ends c (index_with (LoadUser store junk fuel) k c)) as Hidx.
  { intros k c' HkU Hinv' Hf'. unfold index_with. destruct (om_find Z.ltb k (uc_ids c')) as [q|] eqn:E.
    - destruct (uc_heap c' !! q); [|done]. simpl. split; done.
    - apply IH; [done| |lia]. intros _. split; [done|]. unfold loaded. rewrite E. tauto. }
  assert (Inv (uc_db c1)) as Hinv1 by (rewrite Hdb; exact Hinv).
  pose proof (add_friends_ends (index_with (LoadUser store junk fuel)) fuel p (words_of blob) c1 Hidx
    (Hlist _ _ _ _ _ _ Hinv1 Ef Eb) Hinv1 Hf1) as Ha.
  unfold ends. destruct (add_friends _ p _ c1) as [c2| |]; [|done..].
  cbn [mbind result_bind]. destruct Ha as [Hg2 Hinv2]. split; [|done]. intros k Hk. apply Hg2. by apply Hg.
Qed.
End terminate.


(** Two accounts that list each other, in memory. *)
Definition row_bob (id friend : Z) (name : bytes) : mem :=
  [(b# "users", zip user_keys [DInt id; DString name; DBinary (replicate 32 1); DBinary (replicate 32 2);
                               DBinary (replicate 20 3); DString []; DInt 0; DUnknown]);
   (b# "friends", zip friend_keys [DInt id; DBinary (le_bytes 4 friend)])].
Definition two_friends : mem := row_bob 1 2 (b# "bob") ++ row_bob 2 1 (b# "eve").
Definition mem_lists (U : list Z) (s : mem) : Prop :=
  forall e, e ∈ s -> e.1 = b# "friends" -> forall blob,
    as_blob (stored (cell_of (b# "friendlist") e.2)) = Some blob -> words_of blob ⊆ U.


(** A friend list that mentions a number the database does not have makes
    the load of its owner crash: the friend is looked up by number with a NULL
    name, and the placeholder for it is built from that NULL. *)
Theorem unknown_friend_crashes {S} (store : Storage_ops S) junk fuel name id c row p uid c1 k ks blob rs :
  (length (where_name (cstr name)) <= 127)%nat ->
  (st_GetMatch store (b# "users") user_keys (where_name (cstr name)) [] (uc_db c)).2 = [row] ->
  load_row junk row c = Ret (p, uid, c1) ->
  (st_GetMatch store (b# "friends") [b# "friendlist"] (where_id uid) [] (uc_db c1)).2 = [DBinary blob] :: rs ->
  words_of blob = k :: ks -> om_find Z.ltb k (uc_ids c1) = None ->
  (st_GetMatch store (b# "users") user_keys (where_id k) [] (uc_db c1)).2 = [] ->
  LoadUser store junk (fuel + 2) (Some name) id c = Crash.
Proof.
  intros Hl Hrow Hload Hfr Hw Hk Hmiss. rewrite Nat.add_comm. cbn [Nat.add LoadUser].
  destruct (Nat.ltb_spec 127 (length (where_name (cstr name)))); [lia|].
  rewrite Hrow, Hload. cbn [mbind result_bind]. rewrite Hfr. cbn [as_blob deref mbind result_bind].
  rewrite Hw. cbn [add_friends]. unfold index_with. rewrite Hk. cbn [LoadUser].
  destruct (Nat.ltb 127 (length (where_id k))); [done|]. rewrite Hmiss. done.
Qed.

Lemma unknown_friend_crashes_witness :
  LoadUser mem_storage (fun _ => []) 3 (Some (b# "bob")) 0 (new_UserCache (row_bob 1 9 (b# "bob"))) = Crash.
Proof.
  eapply (unknown_friend_crashes mem_storage _ 1); [vm_compute; lia|vm_compute; reflexivity..].
Defined.

(** [LoadFromDB] takes the largest account number for the number of
    accounts: the second query's row is appended behind the first one's, which
    is read again, so the count it was asked for is never looked at. *)
Theorem LoadFromDB_count {DB} (lib : Sqlite DB) c m n :
  sqlite3_rows lib (b# "SELECT MAX(userid) FROM users") (uc_db c) = Some [[CInteger m]] ->
  sqlite3_rows lib (b# "SELECT COUNT(userid) FROM users") (uc_db c) = Some [[CInteger n]] ->
  exists c', LoadFromDB (StorageSqlite lib) c = Ret c' /\
    uc_next_uid c' = u32 (u32 m + 1) /\ GetCount c' = u32 m.
Proof.
  intros Hm Hn. unfold LoadFromDB. cbn [st_GetAll StorageSqlite]. unfold doQuery.
  change (cstr (GetAll_query (b# "users") [b# "MAX(userid)"])) with (b# "SELECT MAX(userid) FROM users").
  change (cstr (GetAll_query (b# "users") [b# "COUNT(userid)"])) with (b# "SELECT COUNT(userid) FROM users").
  rewrite Hm. cbn [snd app map take length load_column SetInt as_int deref mbind result_bind].
  change (uc_db (SetNextUId _ c)) with (uc_db c). rewrite Hn.
  cbn [snd app map take length load_column SetInt as_int deref mbind result_bind].
  eexists. split; [done|]. done.
Qed.

Lemma LoadFromDB_count_witness :
  let lib := mkSqlite unit (fun _ db => (true, db))
    (fun q _ => if decide (q = b# "SELECT MAX(userid) FROM users") then Some [[CInteger 40]]
                else if decide (q = b# "SELECT COUNT(userid) FROM users") then Some [[CInteger 3]] else None) in
  exists c', LoadFromDB (StorageSqlite lib) (new_UserCache tt) = Ret c' /\
    uc_next_uid c' = 41 /\ GetCount c' = 40.
Proof. cbv zeta. apply (LoadFromDB_count _ (new_UserCache tt) 40 3); vm_compute; reflexivity. Defined.

(** ** Saving and loading again *)

(** What the columns can hold. *)
Record user_storable (u : UserCacheItem) : Prop := {
  us_id : 0 < u_id u < 2 ^ 32;
  us_name : Forall (fun c => c <> 34 /\ c <> 0) (u_username u);
  us_mail : Forall (fun c => c <> 34 /\ c <> 0) (u_mail u);
  us_salt : bytes_ok (u_salt u) /\ length (u_salt u) = 32%nat;
  us_verifier : bytes_ok (u_verifier u) /\ length (u_verifier u) = 32%nat;
  us_passwd : bytes_ok (u_passwd u) /\ length (u_passwd u) = 20%nat;
  us_flag : 0 <= u_flag u < 2 ^ 32;
  us_sorted : om_sorted ci_ltb (u_data_map u);
  us_data : Forall storable (u_data_map u) /\ bytes_ok (_buf (BuildDataMap u empty_stream))
}.

(** The part of an account the users table keeps. *)
Definition persistent (u : UserCacheItem) :=
  (u_id u, u_username u, u_mail u, u_salt u, u_verifier u, u_passwd u, u_flag u,
   base.filter (fun kv => kv.2 <> []) (u_data_map u)).

(** Equal but for the two dirty marks. *)
Definition same_data (u v : UserCacheItem) : Prop :=
  SetDirty false (SetFriendDirty false u) = SetDirty false (SetFriendDirty false v).

Lemma same_data_row u v : same_data u v -> user_row u = user_row v.
Proof.
  destruct u, v. unfold same_data, SetDirty, SetFriendDirty; simpl. by intros [= <- <- <- <- <- <- <- <- <-].
Qed.

Lemma nz_of_clean s : Forall (fun c => c <> 34 /\ c <> 0) s -> Forall (fun c => c <> 0) s.
Proof. intros Hs. eapply Forall_impl; [exact Hs|naive_solver]. Qed.

Lemma user_row_clean u :
  user_storable u -> exists cells, user_row u = DInt (u_id u) :: cells /\ Forall sql_clean cells /\ length cells = 7%nat.
Proof.
  intros Hu. destruct Hu. eexists. split; [done|]. split; [|done].
  repeat constructor; simpl; rewrite ?cstr_id by (by apply nz_of_clean); try tauto.
  all: unfold in_range, GetFullFlag; simpl; lia.
Qed.

(** The stored fields; a setter changes its own. *)
Definition account_fields (u : UserCacheItem) :=
  (u_id u, u_username u, u_mail u, u_salt u, u_verifier u, u_passwd u, u_flag u, u_data_map u).

Ltac set_fields u :=
  destruct u; unfold account_fields; simpl; first [case_decide | btest]; simpl; congruence.

Lemma SetSalt_fields s u : account_fields (SetSalt s u) =
  (u_id u, u_username u, u_mail u, (take 32 s), u_verifier u, u_passwd u, u_flag u, u_data_map u).
Proof. unfold SetSalt. set_fields u. Qed.
Lemma SetVerifier_fields s u : account_fields (SetVerifier s u) =
  (u_id u, u_username u, u_mail u, u_salt u, (take 32 s), u_passwd u, u_flag u, u_data_map u).
Proof. unfold SetVerifier. set_fields u. Qed.
Lemma SetPasswd_fields s u : account_fields (SetPasswd s u) =
  (u_id u, u_username u, u_mail u, u_salt u, u_verifier u, (take 20 s), u_flag u, u_data_map u).
Proof. unfold SetPasswd. set_fields u. Qed.
Lemma SetMail_fields s u : account_fields (SetMail s u) =
  (u_id u, u_username u, s, u_salt u, u_verifier u, u_passwd u, u_flag u, u_data_map u).
Proof. unfold SetMail. set_fields u. Qed.
Lemma SetFlag_fields s u : account_fields (SetFlag s u) =
  (u_id u, u_username u, u_mail u, u_salt u, u_verifier u, u_passwd u, s, u_data_map u).
Proof. unfold SetFlag. set_fields u. Qed.

(** A stored row loads as the account it was made from. *)
Lemma load_row_user {S} junk u (c : UC S) :
  user_storable u ->
  exists q c2 v, load_row junk (map stored (user_row u)) c = Ret (q, u_id u, c2) /\
    uc_heap c2 !! q = Some v /\ persistent v = persistent u.
Proof.
  intros Hu. pose proof Hu as [Hid Hname Hmail [_ Hs] [_ Hv] [_ Hp] Hflag Hsort [Hdata _]].
  unfold load_row, user_row. cbn [map].
  assert (forall b n, length b = n -> (0 < n)%nat -> stored (SetBinary b) = DBinary b) as Hst
    by (intros [|] n Hn Hn0; simpl in *; [lia|done]).
  rewrite (Hst _ _ Hs), (Hst _ _ Hv), (Hst _ _ Hp) by lia.
  assert (forall b, as_blob (stored (SetBinary b)) = Some b) as Hb by (by intros []).
  cbn [stored SetInt SetString as_string as_int as_blob deref mbind result_bind].
  rewrite Hb. cbn [deref mbind result_bind]. unfold GetFullFlag. rewrite !u32_small by lia.
  unfold Add. destruct (Z.eqb_spec (u_id u) 0); [lia|]. destruct (Z.ltb_spec 0 (u_id u)); [|lia].
  do 3 eexists. split; [done|]. cbn [uc_heap with_heap]. rewrite lookup_alter_eq, lookup_insert_eq. split; [done|].
  unfold fill_item. rewrite Hs, Hv, Hp. change (32 <=? Z.of_nat 32) with true. change (20 <=? Z.of_nat 20) with true.
  cbn beta iota zeta.
  assert (forall m w, u_data_map w = [] ->
    base.filter (fun kv => kv.2 <> []) (u_data_map (SetDirty m (SetDataMap (_buf (BuildDataMap u empty_stream)) w)))
    = base.filter (fun kv => kv.2 <> []) (u_data_map u)) as Hdm.
  { intros m w Hw. cbn [u_data_map SetDirty SetDataMap set_data_map]. rewrite Hw, BuildDataMap_bytes by done.
    cbn [_buf empty_stream app]. rewrite data_loop_entries; [|by apply Forall_filter_keep|done].
    rewrite (om_rebuild ci_ltb _ []) by (by apply om_filter_sorted). cbn [app].
    apply filter_Forall_id. rewrite Forall_forall. intros x Hx. by apply list_elem_of_filter in Hx as [? _]. }
  set (w0 := SetUserId _ _).
  pose proof (SetSalt_fields (u_salt u) w0) as F1. set (w1 := SetSalt _ w0) in *. clearbody w1.
  pose proof (SetVerifier_fields (u_verifier u) w1) as F2. set (w2 := SetVerifier _ w1) in *. clearbody w2.
  pose proof (SetPasswd_fields (u_passwd u) w2) as F3. set (w3 := SetPasswd _ w2) in *. clearbody w3.
  set (mail := cstr (u_mail u)) in *.
  pose proof (SetMail_fields mail w3) as F4. set (w4 := SetMail _ w3) in *. clearbody w4.
  pose proof (SetFlag_fields (u_flag u) w4) as F5. set (w5 := SetFlag _ w4) in *. clearbody w5.
  unfold account_fields in *. rewrite take_ge in F1, F2, F3 by lia.
  assert (u_id w0 = u_id u) as G1 by done. assert (u_username w0 = cstr (cstr (u_username u))) as G2 by done.
  assert (u_data_map w0 = []) as G3 by done. clearbody w0.
  rewrite !cstr_id in G2 by (rewrite ?cstr_id; by apply nz_of_clean).
  assert (mail = u_mail u) as G4 by (by apply cstr_id, nz_of_clean).
  unfold persistent. rewrite Hdm by congruence.
  cbn [u_id u_username u_mail u_salt u_verifier u_passwd u_flag SetDirty SetDataMap set_data_map].
  congruence.
Qed.

Section save.
Context {S : Type} (store : Storage_ops S) `{!StorageLaws store}.
Implicit Types (c : UC S).

Definition select_user (k : Z) (db : S) : rows := (st_GetMatch store (b# "users") user_keys (where_id k) [] db).2.

(** Every account can be stored and its friends are accounts. *)
Definition heap_storable (h : gmap nat UserCacheItem) : Prop :=
  forall p u, h !! p = Some u -> user_storable u /\
    forall f q, f ∈ u_friend_list u -> fuser f = Some q -> is_Some (h !! q).

(** Heaps whose accounts differ in dirty marks only. *)
Definition heap_same (h h' : gmap nat UserCacheItem) : Prop :=
  forall p, match h !! p, h' !! p with
            | Some u, Some v => same_data u v
            | None, None => True
            | _, _ => False
            end.

Lemma same_data_refl u : same_data u u.
Proof. done. Qed.
Lemma heap_same_refl h : heap_same h h.
Proof. intros p. destruct (h !! p); done. Qed.
Lemma heap_same_trans h1 h2 h3 : heap_same h1 h2 -> heap_same h2 h3 -> heap_same h1 h3.
Proof.
  intros H1 H2 p. specialize (H1 p). specialize (H2 p). unfold same_data in *.
  destruct (h1 !! p), (h2 !! p), (h3 !! p); try done. congruence.
Qed.
Lemma heap_same_insert h p u v : h !! p = Some u -> same_data u v -> heap_same h (<[p := v]> h).
Proof.
  intros Hp Hs q. rewrite lookup_insert. case_decide as E; [subst; by rewrite Hp|]. by destruct (h !! q).
Qed.

Lemma same_data_storable u v : same_data u v -> user_storable u -> user_storable v.
Proof.
  destruct u, v. unfold same_data, SetDirty, SetFriendDirty; simpl. intros [= <- <- <- <- <- <- <- <- <-] [].
  by constructor.
Qed.
Lemma same_data_list u v : same_data u v -> u_friend_list v = u_friend_list u /\ u_id v = u_id u.
Proof. destruct u, v. unfold same_data, SetDirty, SetFriendDirty; simpl. by intros [=]. Qed.

Lemma heap_same_storable h h' : heap_same h h' -> heap_storable h -> heap_storable h'.
Proof.
  intros Hs Hh p v Hp. pose proof (Hs p) as Hsp. rewrite Hp in Hsp. destruct (h !! p) as [u|] eqn:E; [|done].
  destruct (Hh p u E) as [Hu Hfr]. split; [by eapply same_data_storable|].
  intros f q Hf Hq. destruct (same_data_list _ _ Hsp) as [Hl _]. rewrite Hl in Hf.
  destruct (Hfr f q Hf Hq) as [w Hw]. specialize (Hs q). rewrite Hw in Hs. by destruct (h' !! q).
Qed.

Lemma friend_ids_total h l :
  (forall f q, f ∈ l -> fuser f = Some q -> is_Some (h !! q)) -> exists ids, friend_ids h l = Ret ids.
Proof.
  induction l as [|f l IH]; intros Hl; simpl; [by eexists|].
  destruct IH as [ids IH]; [intros g q Hg; apply Hl; by right|]. rewrite IH.
  destruct (fuser f) as [q|] eqn:E; [|by eexists].
  destruct (Hl f q ltac:(left) E) as [v ->]. simpl. by eexists.
Qed.

Lemma words_bytes_ok (ids : list Z) : bytes_ok (mjoin (le_bytes 4 <$> ids)).
Proof.
  induction ids as [|i ids IH]; [constructor|]. rewrite fmap_cons, mjoin_cons. apply Forall_app.
  split; [apply le_bytes_ok|done].
Qed.

Lemma save_item_spec p u c :
  uc_heap c !! p = Some u -> heap_storable (uc_heap c) ->
  exists c', save_item store p c = Ret c' /\ heap_same (uc_heap c) (uc_heap c') /\
    (forall q, q <> p -> uc_heap c' !! q = uc_heap c !! q) /\
    (u_dirty u = true -> select_user (u_id u) (uc_db c') = [map stored (user_row u)]) /\
    (forall m, 0 <= m < 2 ^ 32 -> m <> u_id u -> select_user m (uc_db c') = select_user m (uc_db c)).
Proof.
  intros Hp Hh. destruct (Hh p u Hp) as [Hu Hfr]. pose proof (us_id u Hu) as Hid. unfold save_item. rewrite Hp.
  cbn [deref mbind result_bind].
  assert (exists c1 u1, (if u_dirty u then
      r ← deref (st_Set store (b# "users") user_keys (user_row u) (uc_db c));
      Ret (with_db r.2 (with_heap (<[p := SetDirty false u]> (uc_heap c)) c)) else Ret c) = Ret c1 /\
    uc_heap c1 !! p = Some u1 /\ same_data u u1 /\ heap_same (uc_heap c) (uc_heap c1) /\
    (forall q, q <> p -> uc_heap c1 !! q = uc_heap c !! q) /\
    (u_dirty u = true -> select_user (u_id u) (uc_db c1) = [map stored (user_row u)]) /\
    (forall m, 0 <= m < 2 ^ 32 -> m <> u_id u -> select_user m (uc_db c1) = select_user m (uc_db c)))
    as (c1 & u1 & -> & Hp1 & Hs1 & Hh1 & Hq1 & Hd1 & Ho1).
  { destruct (u_dirty u) eqn:Ed.
    - destruct (user_row_clean u Hu) as (cells & Hrow & Hclean & Hlen).
      destruct (law_set (b# "users") user_keys (u_id u) cells (uc_db c)) as (s' & Hset & Hget & Hother);
        [lia|done|done|apply (bool_decide_unpack _); vm_compute; exact I|rewrite Hlen; done|].
      rewrite Hrow, Hset. cbn [deref mbind result_bind snd].
      do 2 eexists. split; [done|]. cbn [uc_heap with_heap with_db uc_db]. rewrite lookup_insert_eq.
      split; [done|]. split; [done|]. split; [by apply heap_same_insert with u|].
      split; [intros q Hq; by rewrite lookup_insert_ne|].
      split; [intros _; unfold select_user; by rewrite Hget|].
      intros m Hm Hne. unfold select_user. rewrite Hother; [done|]. right. by rewrite u32_small.
    - do 2 eexists. split; [done|]. split; [done|]. split; [done|]. split; [apply heap_same_refl|]. done. }
  cbn [mbind result_bind]. rewrite Hp1. cbn [deref mbind result_bind].
  destruct (u_friend_dirty u1); [|exists c1; by split_and!].
  destruct (same_data_list _ _ Hs1) as [Hl1 Hid1]. unfold friend_row.
  set (h2 := <[p := SetFriendDirty false u1]> (uc_heap c1)).
  assert (heap_same (uc_heap c1) h2) as Hh2 by (by apply heap_same_insert with u1).
  destruct (friend_ids_total h2 (u_friend_list u1)) as [ids Hids].
  { intros f q Hf Hq. rewrite Hl1 in Hf. destruct (Hfr f q Hf Hq) as [w Hw].
    pose proof (heap_same_trans _ _ _ Hh1 Hh2 q) as Hq2. rewrite Hw in Hq2. by destruct (h2 !! q). }
  cbn [uc_heap with_heap]. fold h2. rewrite Hids. cbn [mbind result_bind].
  destruct (law_set (b# "friends") friend_keys (u_id u) [DBinary (mjoin (le_bytes 4 <$> ids))] (uc_db c1))
    as (s' & Hset & _ & Hother);
    [lia|repeat constructor; apply words_bytes_ok|done|apply (bool_decide_unpack _); vm_compute; exact I|done|].
  unfold SetInt, SetBinary. rewrite Hid1. cbn [uc_db with_heap]. rewrite Hset. cbn [deref mbind result_bind snd].
  eexists. split; [done|]. cbn [uc_heap with_heap with_db uc_db].
  assert (forall m, select_user m s' = select_user m (uc_db c1)) as Hsel
    by (intros m; unfold select_user; rewrite Hother; [done|by left]).
  split; [by eapply heap_same_trans|].
  split; [intros q Hq; subst h2; rewrite lookup_insert_ne by done; auto|].
  split; [intros Hd; rewrite Hsel; auto|].
  intros m Hm Hne. rewrite Hsel. auto.
Qed.

Lemma save_loop_spec l : forall c,
  heap_storable (uc_heap c) -> NoDup (fst <$> l) ->
  (forall k p, (k, p) ∈ l -> exists u, uc_heap c !! p = Some u /\ u_id u = k) ->
  exists c', save_loop store l c = Ret c' /\
    (forall k p u, (k, p) ∈ l -> uc_heap c !! p = Some u -> u_dirty u = true ->
       select_user k (uc_db c') = [map stored (user_row u)]) /\
    (forall m, 0 <= m < 2 ^ 32 -> m ∉ (fst <$> l) -> select_user m (uc_db c') = select_user m (uc_db c)).
Proof.
  induction l as [|[k p] l IH]; intros c Hh Hnd Hl.
  { exists c. split; [done|]. split; [|done]. intros ? ? ? Hin. by apply not_elem_of_nil in Hin. }
  destruct (Hl k p ltac:(left)) as (u & Hp & Hid). rewrite fmap_cons, NoDup_cons in Hnd. destruct Hnd as [Hk Hnd].
  destruct (save_item_spec p u c Hp Hh) as (c1 & Hs & Hsame & Hrest & Hrow & Hother).
  destruct (Hh p u Hp) as [Hu _]. pose proof (us_id u Hu) as Hidr.
  destruct (IH c1) as (c2 & Hs2 & Hrow2 & Hother2); [by eapply heap_same_storable|done| |].
  { intros k' p' Hin. destruct (Hl k' p' ltac:(by right)) as (u' & Hp' & Hid'). specialize (Hsame p').
    rewrite Hp' in Hsame. destruct (uc_heap c1 !! p') as [v|]; [|done]. exists v. split; [done|].
    destruct (same_data_list _ _ Hsame). congruence. }
  exists c2. cbn [save_loop]. rewrite Hs. split; [exact Hs2|]. split.
  - intros k' p' u' Hin Hp' Hd. apply elem_of_cons in Hin as [[= -> ->]|Hin].
    + assert (u' = u) as -> by congruence. rewrite Hother2; [|lia|done]. rewrite <- Hid. auto.
    + destruct (Hl k' p' ltac:(by right)) as (u'' & Hp'' & Hid''). assert (u'' = u') as -> by congruence.
      apply (Hrow2 k' p' u' Hin); [|done]. rewrite Hrest; [done|]. intros ->.
      apply Hk, list_elem_of_fmap. exists (k', p). split; [simpl; congruence|done].
  - intros m Hm Hnin. rewrite fmap_cons, not_elem_of_cons in Hnin. destruct Hnin as [Hn1 Hn2].
    rewrite Hother2 by done. apply Hother; [done|]. simpl in Hn1. congruence.
Qed.
End save.


(** An account in memory for the witness. *)
Definition sample_cache : UC mem :=
  let c := (Add (fun _ => replicate 20 7) (b# "Bob") 0 (new_UserCache [])).2 in
  with_heap (alter (SetMail (b# "bob@example.com")) 0%nat (uc_heap c)) c.

