(* ===== verification/Framing.v ===== *)
(** * Framing: how blitzd/core/Client.cpp cuts the input into packets

    [Client::OnRecv] and the four loops it selects by stage.  The input buffer
    is libevent's evbuffer, a queue of bytes; the plugin suites are the
    handlers [suite], functions of the operation code and the packet's stream
    on the state [W] of the server. *)

From S2P Require Import Prelude Words Stream.

(** [Client::Stage_t]. *)
Inductive Stage_t := CONNECTED | BNET | BNET_LOGGEDIN | FILETRANS | FILERAW | BAAL.

#[export] Instance Stage_t_eq_dec : EqDecision Stage_t.
Proof. solve_decision. Defined.

(** ** [Network::SocketBuf], the view of the evbuffer *)

Definition sb_length (b : bytes) : nat := length b.
Definition sb_copyout (n : nat) (b : bytes) : bytes := take n b.
(** [read] removes what it copies, at most what is there. *)
Definition sb_read (n : nat) (b : bytes) : bytes * bytes := (take n b, drop n b).
Definition sb_drain (n : nat) (b : bytes) : bytes := drop n b.

(** The header word of the BNet protocol has the size in its upper half, those
    of the file and realm protocols in the lower one. *)
Definition hdr_of (b : bytes) : Z := le_val (sb_copyout 4 b).
Definition high_half (hdr : Z) : Z := u16 (Z.shiftr (Z.land hdr 0xFFFF0000) 16).
Definition low_half (hdr : Z) : Z := u16 (Z.land hdr 0xFFFF).

Section loops.
Context {W : Type}.
(** A plugin suite: [Process(client, op, stream)]. *)
Abbreviation suite := (Z -> Stream -> W -> W).
(** Whether [new(std::nothrow) byte[n]] succeeds, and what fresh memory holds. *)
Context (alloc : Z -> bool) (junk : nat -> bytes).

(** [byte * buf = new byte[psize]; sbuf.read(buf, psize)]: the buffer's [n]
    bytes, those the input does not have being uninitialised. *)
Definition packet_body (n : nat) (b : bytes) : bytes :=
  let got := (sb_read n b).1 in got ++ take (n - length got) (junk (n - length got)).

(** The [while((size = sbuf.length()) >= 4)] loop shared by [ProcessBNet],
    [ProcessBNetLoggedIn] and [ProcessBaal]; a round drains at least the
    header, so the length bounds the rounds. *)
Fixpoint frame_loop (size_of op_of : Z -> Z) (p : suite) (fuel : nat) (sbuf : bytes) (w : W) : bytes * W :=
  match fuel with
  | O => (sbuf, w)
  | S fuel' =>
      if Nat.ltb (sb_length sbuf) 4 then (sbuf, w)
      else
        let hdr := hdr_of sbuf in
        let psize := size_of hdr in
        if Z.of_nat (sb_length sbuf) <? psize then (sbuf, w)
        else
          let psize := Z.to_nat (u16 (psize - 4)) in
          let sbuf := sb_drain 4 sbuf in
          if alloc (Z.of_nat psize) then
            let st := stream_of (packet_body psize sbuf) in
            frame_loop size_of op_of p fuel' (sb_read psize sbuf).2 (p (op_of hdr) st w)
          else frame_loop size_of op_of p fuel' (sb_drain psize sbuf) w
  end.

Context (init bnet loggedin file baal : suite) (stage : W -> Stage_t).

Definition ProcessBNet (sbuf : bytes) (w : W) : bytes * W :=
  frame_loop high_half low_half bnet (length sbuf) sbuf w.
Definition ProcessBNetLoggedIn (sbuf : bytes) (w : W) : bytes * W :=
  frame_loop high_half low_half loggedin (length sbuf) sbuf w.
Definition ProcessBaal (sbuf : bytes) (w : W) : bytes * W :=
  frame_loop low_half high_half baal (length sbuf) sbuf w.

(** [ProcessFile] looks at the stage in every round. *)
Fixpoint file_loop (fuel : nat) (sbuf : bytes) (w : W) : bytes * W :=
  match fuel with
  | O => (sbuf, w)
  | S fuel' =>
      match stage w with
      | FILETRANS =>
          if Nat.ltb (sb_length sbuf) 4 then (sbuf, w)
          else
            let hdr := hdr_of sbuf in
            let psize := low_half hdr in
            if Z.of_nat (sb_length sbuf) <? psize then (sbuf, w)
            else
              let sbuf := sb_drain 4 sbuf in
              let psize := Z.to_nat (u16 (psize - 4)) in
              if alloc (Z.of_nat psize) then
                file_loop fuel' (sb_read psize sbuf).2
                          (file (high_half hdr) (stream_of (packet_body psize sbuf)) w)
              else file_loop fuel' (sb_drain psize sbuf) w
      | FILERAW =>
          let size := sb_length sbuf in
          if Nat.ltb size 53 then (sbuf, w)
          else if alloc (Z.of_nat size) then
            ((sb_read size sbuf).2, file 0 (stream_of (packet_body size sbuf)) w)
          else file_loop fuel' (sb_drain size sbuf) w
      | _ => (sbuf, w)
      end
  end.
Definition ProcessFile (sbuf : bytes) (w : W) : bytes * W := file_loop (length sbuf + 1) sbuf w.

Definition OnRecv (sbuf : bytes) (w : W) : bytes * W :=
  if Nat.eqb (sb_length sbuf) 0 then (sbuf, w)
  else
    let '(sbuf, w) :=
      match stage w with
      | CONNECTED =>
          let '(op, sbuf) := sb_read 1 sbuf in (sbuf, init (le_val op) empty_stream w)
      | _ => (sbuf, w)
      end in
    if Nat.eqb (sb_length sbuf) 0 then (sbuf, w)
    else match stage w with
         | BNET => ProcessBNet sbuf w
         | BNET_LOGGEDIN => ProcessBNetLoggedIn sbuf w
         | FILETRANS | FILERAW => ProcessFile sbuf w
         | BAAL => ProcessBaal sbuf w
         | CONNECTED => (sbuf, w)
         end.
End loops.

(** ** Frames *)

(** A packet on the wire, in the two layouts. *)
Definition enc_bnet (f : Z * bytes) : bytes := le_bytes 2 f.1 ++ le_bytes 2 (Z.of_nat (length f.2) + 4) ++ f.2.
Definition enc_low (f : Z * bytes) : bytes := le_bytes 2 (Z.of_nat (length f.2) + 4) ++ le_bytes 2 f.1 ++ f.2.
Definition frame_ok (f : Z * bytes) : Prop :=
  0 <= f.1 < 65536 /\ bytes_ok f.2 /\ Z.of_nat (length f.2) < 65532.

Lemma high_half_val a b : 0 <= a < 65536 -> 0 <= b < 65536 -> high_half (a + 65536 * b) = b.
Proof.
  intros Ha Hb. unfold high_half. rewrite Z.shiftr_land. change (Z.shiftr 0xFFFF0000 16) with (Z.ones 16).
  rewrite Z.shiftr_div_pow2 by lia. change (2 ^ 16) with 65536.
  replace ((a + 65536 * b) / 65536) with b by (apply Z.div_unique with a; lia).
  rewrite Z.land_ones by lia. rewrite Z.mod_small by lia. by apply u16_small.
Qed.
Lemma low_half_val a b : 0 <= a < 65536 -> 0 <= b < 65536 -> low_half (a + 65536 * b) = a.
Proof.
  intros Ha Hb. unfold low_half. change 0xFFFF with (Z.ones 16). rewrite Z.land_ones by lia.
  change (2 ^ 16) with 65536. replace (a + 65536 * b) with (a + b * 65536) by lia.
  rewrite Z.mod_add, Z.mod_small by lia. by apply u16_small.
Qed.

Lemma half_le b : bytes_ok b -> length b = 2%nat -> 0 <= le_val b < 65536.
Proof. intros Hb Hl. pose proof (le_val_range b Hb). rewrite Hl in *. by change (256 ^ Z.of_nat 2) with 65536 in *. Qed.

Lemma hdr_of_halves x y r : 0 <= x < 65536 -> 0 <= y < 65536 ->
  hdr_of (le_bytes 2 x ++ le_bytes 2 y ++ r) = x + 65536 * y.
Proof.
  intros Hx Hy. unfold hdr_of, sb_copyout. rewrite app_assoc.
  rewrite take_app_length' by (by rewrite length_app, !length_le_bytes).
  rewrite le_val_app, !le_val_le_bytes, length_le_bytes.
  change (256 ^ Z.of_nat 2) with 65536. rewrite !Z.mod_small by lia. lia.
Qed.

(** The two layouts, abstractly: where the size and the code are, and how a
    packet is written. *)
Class Layout (size_of op_of : Z -> Z) (enc : Z * bytes -> bytes) : Prop := {
  layout_hdr : forall f r, frame_ok f ->
    size_of (hdr_of (enc f ++ r)) = Z.of_nat (length f.2) + 4 /\ op_of (hdr_of (enc f ++ r)) = f.1;
  layout_body : forall f, exists h, enc f = h ++ f.2 /\ length h = 4%nat
}.

#[export] Instance bnet_layout : Layout high_half low_half enc_bnet.
Proof.
  split.
  - intros f r (Hop & Hb & Hl). unfold enc_bnet. rewrite <- !app_assoc, hdr_of_halves by lia.
    split; [apply high_half_val; lia|apply low_half_val; lia].
  - intros f. eexists. unfold enc_bnet. rewrite app_assoc. split; [done|].
    by rewrite length_app, !length_le_bytes.
Qed.
#[export] Instance low_layout : Layout low_half high_half enc_low.
Proof.
  split.
  - intros f r (Hop & Hb & Hl). unfold enc_low. rewrite <- !app_assoc, hdr_of_halves by lia.
    split; [apply low_half_val; lia|apply high_half_val; lia].
  - intros f. eexists. unfold enc_low. rewrite app_assoc. split; [done|].
    by rewrite length_app, !length_le_bytes.
Qed.

Section dispatch.
Context {W : Type} (alloc : Z -> bool) (junk : nat -> bytes) (Halloc : forall n, alloc n = true).
Context (size_of op_of : Z -> Z) (enc : Z * bytes -> bytes) `{!Layout size_of op_of enc}.
Context (p : Z -> Stream -> W -> W).
Let loop := frame_loop alloc junk size_of op_of p.

(** What is left when the loop stops: less than a header, or a header that
    announces more than there is. *)
Definition partial (b : bytes) : Prop :=
  (length b < 4)%nat \/ Z.of_nat (length b) < size_of (hdr_of b).

(** A prefix of a packet stream: whole packets of at least their header, then
    a partial one. *)
Inductive framed : bytes -> Prop :=
  | framed_partial b : partial b -> framed b
  | framed_packet b : (4 <= length b)%nat -> 4 <= size_of (hdr_of b) <= Z.of_nat (length b) ->
      framed (drop (Z.to_nat (size_of (hdr_of b))) b) -> framed b.

Definition deliver (w : W) (f : Z * bytes) : W := p f.1 (stream_of f.2) w.

Lemma loop_partial fuel b w : partial b -> loop fuel b w = (b, w).
Proof.
  intros Hb. destruct fuel as [|fuel]; [done|]. subst loop. cbn [frame_loop]. unfold sb_length.
  destruct Hb; repeat btest; done || lia.
Qed.

(** One round on a complete packet. *)
Lemma loop_packet fuel b w s :
  (4 <= length b)%nat -> size_of (hdr_of b) = s -> 4 <= s <= Z.of_nat (length b) -> s < 65536 ->
  loop (S fuel) b w =
    loop fuel (drop (Z.to_nat s) b) (deliver w (op_of (hdr_of b), take (Z.to_nat (s - 4)) (drop 4 b))).
Proof.
  intros Hl Hs Hr Hu. subst loop. cbn [frame_loop]. unfold sb_length. btest; [lia|]. rewrite Hs. btest; [lia|].
  rewrite u16_small by lia. rewrite Halloc. unfold sb_read, sb_drain, packet_body. cbn [fst snd].
  rewrite drop_drop. replace (4 + Z.to_nat (s - 4))%nat with (Z.to_nat s) by lia. unfold deliver. cbn [fst snd].
  unfold sb_read. cbn [fst].
  assert (length (take (Z.to_nat (s - 4)) (drop 4 b)) = Z.to_nat (s - 4)) as -> by (rewrite length_take, length_drop; lia).
  rewrite Nat.sub_diag. by rewrite take_0, app_nil_r.
Qed.

Lemma frame_size b : size_of (hdr_of b) < 65536 -> framed b -> partial b \/
  (4 <= length b)%nat /\ 4 <= size_of (hdr_of b) <= Z.of_nat (length b) /\
  framed (drop (Z.to_nat (size_of (hdr_of b))) b).
Proof. intros Hs [b' Hp|b' Hl Hr Hf]; [by left|right]. done. Qed.

Context (Hsize : forall h, size_of h < 65536).

(** More rounds than bytes change nothing. *)
Lemma loop_fuel b : framed b -> forall f1 f2 w, (length b <= f1)%nat -> (length b <= f2)%nat -> loop f1 b w = loop f2 b w.
Proof.
  induction 1 as [b Hp|b Hl Hr Hf IH]; intros f1 f2 w H1 H2; [by rewrite !loop_partial|].
  destruct f1 as [|f1]; [lia|]. destruct f2 as [|f2]; [lia|].
  rewrite !(loop_packet _ b w _ Hl eq_refl Hr (Hsize _)). apply IH; rewrite length_drop; lia.
Qed.

(** The loop with enough rounds: nothing on a partial packet, one delivery on a
    complete one. *)
Let run (b : bytes) (w : W) := loop (length b) b w.

Lemma run_packet b w s :
  (4 <= length b)%nat -> size_of (hdr_of b) = s -> 4 <= s <= Z.of_nat (length b) -> framed (drop (Z.to_nat s) b) ->
  run b w = run (drop (Z.to_nat s) b) (deliver w (op_of (hdr_of b), take (Z.to_nat (s - 4)) (drop 4 b))).
Proof.
  intros Hl Hs Hr Hf. unfold run at 1. destruct (length b) as [|n] eqn:En; [lia|]. rewrite <- En in Hl, Hr.
  rewrite (loop_packet n b w s Hl Hs Hr) by (rewrite <- Hs; apply Hsize).
  apply loop_fuel; [done|rewrite length_drop; lia|done].
Qed.

Lemma hdr_of_app a b : (4 <= length a)%nat -> hdr_of (a ++ b) = hdr_of a.
Proof. intros. unfold hdr_of, sb_copyout. by rewrite take_app_le. Qed.

Lemma partial_prefix a b : partial (a ++ b) -> partial a.
Proof.
  unfold partial. rewrite length_app. intros Hp.
  destruct (decide (length a < 4)%nat) as [|Ha]; [by left|]. right.
  rewrite hdr_of_app in Hp by lia. lia.
Qed.

Lemma framed_prefix a b : framed (a ++ b) -> framed a.
Proof.
  intros H. remember (a ++ b) as c eqn:E. revert a E. induction H as [c Hp|c Hl Hr Hf IH]; intros a ->.
  - apply framed_partial. by eapply partial_prefix.
  - destruct (decide (length a < 4)%nat) as [|Ha]; [apply framed_partial; by left|].
    rewrite hdr_of_app in * by lia. destruct (decide (Z.of_nat (length a) < size_of (hdr_of a))) as [|Hs];
      [apply framed_partial; by right|].
    apply framed_packet; [lia|lia|]. apply IH. rewrite drop_app_le by lia. done.
Qed.

(** Feeding a stream in two parts is feeding it at once; what the first part
    leaves is partial and still a prefix of the stream. *)
Lemma run_app a b w : framed (a ++ b) ->
  run (a ++ b) w = run ((run a w).1 ++ b) (run a w).2 /\ partial (run a w).1 /\ framed ((run a w).1 ++ b).
Proof.
  intros H. remember (a ++ b) as c eqn:E. revert a E w. induction H as [c Hp|c Hl Hr Hf IH]; intros a E w; subst c.
  - assert (run a w = (a, w)) as Ha by (apply loop_partial; by eapply partial_prefix).
    rewrite Ha. split; [done|]. split; [by eapply partial_prefix|]. by apply framed_partial.
  - destruct (decide ((length a < 4)%nat \/ Z.of_nat (length a) < size_of (hdr_of a))) as [Hpa|Ha].
    + assert (run a w = (a, w)) as E by (by apply loop_partial). rewrite E. split; [done|]. split; [done|].
      by apply framed_packet.
    + assert (4 <= length a)%nat as Hla by lia. rewrite hdr_of_app in * by lia.
      set (s := size_of (hdr_of a)) in *. rewrite drop_app_le in Hf, IH by lia.
      rewrite (run_packet (a ++ b) w s), (run_packet a w s); try done; try lia.
      * rewrite hdr_of_app, !drop_app_le by lia.
        rewrite take_app_le by (rewrite ?length_drop; lia). by apply IH.
      * by eapply framed_prefix.
      * by rewrite hdr_of_app.
      * by rewrite drop_app_le by lia.
Qed.

(** The packets of a stream, then a partial one. *)
Lemma framed_encoded fs t : Forall frame_ok fs -> partial t -> framed (mjoin (enc <$> fs) ++ t) /\
  forall w, loop (length (mjoin (enc <$> fs) ++ t)) (mjoin (enc <$> fs) ++ t) w = (t, foldl deliver w fs).
Proof.
  intros Hfs Ht. induction Hfs as [|f fs Hf _ [IH1 IH2]].
  { split; [by apply framed_partial|]. intros w. by apply loop_partial. }
  rewrite fmap_cons, mjoin_cons, <- app_assoc. set (r := mjoin (enc <$> fs) ++ t) in *.
  destruct (layout_hdr f r Hf) as [Hsz Hop]. destruct (layout_body f) as (h & Eh & Hh).
  assert (length (enc f) = (length f.2 + 4)%nat) as Hlen by (rewrite Eh, length_app; lia).
  assert (drop (length f.2 + 4) (enc f ++ r) = r) as Hdrop by (rewrite <- Hlen; apply drop_app_length).
  assert (4 <= length (enc f ++ r))%nat as Hl4 by (rewrite length_app; lia).
  assert (Z.to_nat (Z.of_nat (length f.2) + 4) = (length f.2 + 4)%nat) as Hn by lia.
  split.
  - apply framed_packet; [done|rewrite Hsz, length_app; lia|]. by rewrite Hsz, Hn, Hdrop.
  - intros w. change (run (enc f ++ r) w = (t, foldl deliver w (f :: fs))).
    rewrite (run_packet _ w _ Hl4 Hsz); [|rewrite length_app; lia|by rewrite Hn, Hdrop].
    rewrite Hn, Hdrop, Hop.
    replace (take (Z.to_nat (Z.of_nat (length f.2) + 4 - 4)) (drop 4 (enc f ++ r))) with f.2.
    + unfold run. rewrite IH2. by destruct f.
    + rewrite Eh, <- app_assoc, <- Hh, drop_app_length.
      by rewrite take_app_length' by lia.
Qed.
End dispatch.

(** The input arrives in pieces; each is appended to what is buffered. *)
Definition feed {W} (process : bytes -> W -> bytes * W) (s : bytes * W) (chunk : bytes) : bytes * W :=
  process (s.1 ++ chunk) s.2.

Lemma half_bound h : high_half h < 65536 /\ low_half h < 65536.
Proof. unfold high_half, low_half. split; apply u16_range. Qed.

Section chunks.
Context {W : Type} (alloc : Z -> bool) (junk : nat -> bytes) (Halloc : forall n, alloc n = true).
Context (size_of op_of : Z -> Z) (enc : Z * bytes -> bytes) `{!Layout size_of op_of enc}.
Context (Hsize : forall h, size_of h < 65536) (p : Z -> Stream -> W -> W).
Let run (b : bytes) (w : W) := frame_loop alloc junk size_of op_of p (length b) b w.

Lemma feed_chunks chunks : forall b w, framed size_of (b ++ mjoin chunks) ->
  partial size_of b -> foldl (feed run) (b, w) chunks = run (b ++ mjoin chunks) w.
Proof.
  induction chunks as [|ch chunks IH]; intros b w Hf Hb.
  { rewrite app_nil_r. symmetry. by apply loop_partial. }
  rewrite mjoin_cons, app_assoc in Hf |- *. cbn [foldl]. unfold feed at 2. cbn [fst snd].
  destruct (run_app alloc junk Halloc size_of op_of p Hsize (b ++ ch) (mjoin chunks) w Hf) as (E & Hp & Hf').
  change (run ((b ++ ch) ++ mjoin chunks) w = run ((run (b ++ ch) w).1 ++ mjoin chunks) (run (b ++ ch) w).2) in E.
  change (partial size_of (run (b ++ ch) w).1) in Hp.
  change (framed size_of ((run (b ++ ch) w).1 ++ mjoin chunks)) in Hf'.
  rewrite E. destruct (run (b ++ ch) w) as [b1 w1]. by apply IH.
Qed.

(** Whole packets, however cut, are delivered one by one and in order. *)
Lemma feed_frames fs t chunks w : Forall frame_ok fs -> partial size_of t ->
  mjoin chunks = mjoin (enc <$> fs) ++ t ->
  foldl (feed run) ([], w) chunks = (t, foldl (deliver p) w fs).
Proof.
  intros Hfs Ht E.
  destruct (framed_encoded alloc junk Halloc size_of op_of enc p Hsize fs t Hfs Ht) as [Hf Hrun].
  rewrite feed_chunks; [|by rewrite E|left; simpl; lia]. rewrite app_nil_l, E. apply Hrun.
Qed.
End chunks.

(** The BNet input loop does not depend on how the network cuts the
    stream: when the received bytes are whole packets followed by an incomplete
    one, delivered in any pieces, the plugin suite has seen exactly those
    packets, in order and with their bodies, and exactly the incomplete one is
    kept. *)
Theorem ProcessBNet_chunks {W} alloc junk (bnet : Z -> Stream -> W -> W) fs t chunks w :
  (forall n, alloc n = true) -> Forall frame_ok fs ->
  (length t < 4)%nat \/ Z.of_nat (length t) < high_half (hdr_of t) ->
  mjoin chunks = mjoin (enc_bnet <$> fs) ++ t ->
  foldl (feed (ProcessBNet alloc junk bnet)) ([], w) chunks =
    (t, foldl (fun w f => bnet f.1 (stream_of f.2) w) w fs).
Proof.
  intros Ha Hfs Ht E. apply (feed_frames alloc junk Ha high_half low_half enc_bnet); try done.
  intros h. apply half_bound.
Qed.

Lemma ProcessBNet_chunks_witness :
  foldl (feed (ProcessBNet (fun _ => true) (fun _ => []) (fun op st (w : list (Z * bytes)) => w ++ [(op, _buf st)])))
        ([], []) [[255]; [0; 6; 0; 7]; [9; 255; 1; 4]; [0; 255]] =
    ([255], [(255, [7; 9]); (511, [])]).
Proof.
  rewrite (ProcessBNet_chunks _ _ _ [(255, [7; 9]); (511, [])] [255]); [reflexivity|done| |left; simpl; lia|reflexivity].
  repeat constructor; simpl; unfold byte_ok; lia.
Defined.

(** The realm-server input loop has the same property with the size in
    the lower half of the header. *)
Theorem ProcessBaal_chunks {W} alloc junk (baal : Z -> Stream -> W -> W) fs t chunks w :
  (forall n, alloc n = true) -> Forall frame_ok fs ->
  (length t < 4)%nat \/ Z.of_nat (length t) < low_half (hdr_of t) ->
  mjoin chunks = mjoin (enc_low <$> fs) ++ t ->
  foldl (feed (ProcessBaal alloc junk baal)) ([], w) chunks =
    (t, foldl (fun w f => baal f.1 (stream_of f.2) w) w fs).
Proof.
  intros Ha Hfs Ht E. apply (feed_frames alloc junk Ha low_half high_half enc_low); try done.
  intros h. apply half_bound.
Qed.

Lemma ProcessBaal_chunks_witness :
  foldl (feed (ProcessBaal (fun _ => true) (fun _ => []) (fun op st (w : list (Z * bytes)) => w ++ [(op, _buf st)])))
        ([], []) [[6]; [0; 2; 0; 7]; [9; 5]] = ([5], [(2, [7; 9])]).
Proof.
  rewrite (ProcessBaal_chunks _ _ _ [(2, [7; 9])] [5]); [reflexivity|done| |left; simpl; lia|reflexivity].
  repeat constructor; simpl; unfold byte_ok; lia.
Defined.

(** C37: a header announcing less than its own four bytes breaks the framing:
    the size wraps to at least 65532, the plugin receives that many bytes, the
    buffered packets behind the header followed by uninitialised memory, and
    those packets are gone. *)
Theorem short_header_swallows {W} alloc junk (bnet : Z -> Stream -> W -> W) op s r w :
  (forall n, alloc n = true) -> 0 <= op < 65536 -> 0 <= s < 4 -> Z.of_nat (length r) <= 65532 ->
  (forall n, length (junk n) = n) ->
  exists garbage,
    ProcessBNet alloc junk bnet (le_bytes 2 op ++ le_bytes 2 s ++ r) w =
      ([], bnet op (stream_of (r ++ garbage)) w) /\
    Z.of_nat (length r + length garbage) = 65532 + s.
Proof.
  intros Ha Hop Hs Hr Hj. unfold ProcessBNet.
  set (b := le_bytes 2 op ++ le_bytes 2 s ++ r).
  assert (length b = (4 + length r)%nat) as Hl by (subst b; rewrite !length_app, !length_le_bytes; lia).
  assert (hdr_of b = op + 65536 * s) as Hh by (apply hdr_of_halves; lia).
  assert (drop 4 b = r) as Hd by (subst b; rewrite app_assoc; apply drop_app_length';
    by rewrite length_app, !length_le_bytes).
  assert (Z.to_nat (u16 (s - 4)) = Z.to_nat (65532 + s)) as Hn
    by (f_equal; unfold u16; symmetry; apply Z.mod_unique with (-1); lia).
  exists (take (Z.to_nat (65532 + s) - length r)%nat (junk (Z.to_nat (65532 + s) - length r)%nat)).
  split; [|rewrite length_take, Hj; lia].
  rewrite Hl. cbn [Nat.add frame_loop]. unfold sb_length. rewrite Hl, Hh, high_half_val, low_half_val by lia.
  destruct (Nat.ltb_spec (4 + length r) 4); [lia|]. destruct (Z.ltb_spec (Z.of_nat (4 + length r)) s); [lia|].
  rewrite Ha, Hn. unfold sb_drain, packet_body, sb_read. rewrite Hd. cbn [fst snd].
  assert (drop (Z.to_nat (65532 + s)) r = []) as -> by (apply drop_ge; lia).
  rewrite (take_ge r) by lia. by destruct (length r).
Qed.

Lemma short_header_swallows_witness :
  exists garbage : bytes,
    ProcessBNet (fun _ => true) (fun n => replicate n 0) (fun op st (w : list (Z * nat)) => w ++ [(op, size st)])
      ([255; 0; 0; 0] ++ [255; 1; 4; 0]) [] = ([], [(255, (4 + length garbage)%nat)]) /\
    Z.of_nat (4 + length garbage) = 65532.
Proof.
  destruct (short_header_swallows (fun _ => true) (fun n => replicate n 0)
    (fun op st (w : list (Z * nat)) => w ++ [(op, size st)]) 255 0 [255; 1; 4; 0] []) as (g & H1 & H2);
    [done|lia|lia|simpl; lia|intros; apply length_replicate|].
  exists g. split; [exact H1|exact H2].
Defined.
