(* ===== verification/Packets.v ===== *)
(** * Packets: the outgoing packets of blitzd/packets

    The three families ([PacketBNet], [PacketBaal], [PacketUDP]) with their
    [Build], and the [Pack] of the packets whose contents are their own
    members.  Those that read the caches are with the component they read. *)

From S2P Require Import Prelude Words Stream Framing.

(** ** Building *)

(** [*(ushort * )&_packet[at] = v]: two bytes overwritten in place. *)
Definition poke (at_ : nat) (b : bytes) (st : Stream) : Stream :=
  mkStream (_pos st) (take at_ (_buf st) ++ b ++ drop (at_ + length b) (_buf st)).

(** [PacketBNet::Build], [pack] being the virtual [Pack] and [cmd] the
    [GetCmd] of the class; the packet of a new object is empty. *)
Definition BNet_Build (cmd : Z) (pack : Stream -> option Stream) : option bytes :=
  st ← pack (put_u32 (u16 cmd) empty_stream);
  Some (_buf (poke 2 (le_bytes 2 (u16 (Z.of_nat (size st)))) st)).

(** [PacketBaal::Build] with the token given to the constructor. *)
Definition Baal_Build (token cmd : Z) (pack : Stream -> option Stream) : option bytes :=
  st ← pack (put_u32 token (put_u16 (u16 cmd) (put_u16 0 empty_stream)));
  Some (_buf (poke 0 (le_bytes 2 (u16 (Z.of_nat (size st)))) st)).

(** [PacketUDP::Build]. *)
Definition UDP_Build (cmd : Z) (pack : Stream -> option Stream) : option bytes :=
  st ← pack (put_u32 cmd empty_stream); Some (_buf st).

(** ** The packets that carry their own members *)

Definition BNetAccountChange_Pack (status : Z) (salt pubkey : bytes) (st : Stream) : option Stream :=
  Some (append (take 32 pubkey) (append (take 32 salt) (put_u32 status st))).
Definition BNetAccountChangeProof_Pack (status : Z) (proof : bytes) (st : Stream) : option Stream :=
  Some (append (take 20 proof) (put_u32 status st)).
Definition BNetAccountCreate_Pack (result : Z) (st : Stream) : option Stream := Some (put_u32 result st).
Definition BNetAuthCheck_Pack (code : Z) (errorMsg : bytes) (st : Stream) : option Stream :=
  Some (put_cstr errorMsg (put_u32 code st)).
Definition BNetAuthLogon_Pack (status : Z) (salt pubkey : bytes) (st : Stream) : option Stream :=
  Some (append (take 32 pubkey) (append (take 32 salt) (put_u32 status st))).
Definition BNetAuthLogonProof_Pack (status : Z) (proof msg : bytes) (st : Stream) : option Stream :=
  let st := append (take 20 proof) (put_u32 status st) in
  Some (if Nat.eqb (length msg) 0 then st else put_cstr msg st).
Definition BNetChatEvent_Pack (eventid uflag ping : Z) (username text : bytes) (st : Stream) : option Stream :=
  let st := put_u32 ping (put_u32 uflag (put_u32 eventid st)) in
  let st := put_u32 0xBAADF00D (put_u32 0xBAADF00D (put_u32 0 st)) in
  Some (put_str text (put_str username st)).
Definition BNetEnterChat_Pack (uname stats aname : bytes) (st : Stream) : option Stream :=
  Some (put_cstr aname (put_cstr stats (put_cstr uname st))).
Definition BNetFriendPosition_Pack (oindex nindex : Z) (st : Stream) : option Stream :=
  Some (put_u8 nindex (put_u8 oindex st)).
Definition BNetFriendRemove_Pack (index : Z) (st : Stream) : option Stream := Some (put_u8 index st).
Definition BNetNull_Pack (st : Stream) : option Stream := Some st.
Definition BNetOldAccountChange_Pack (result : Z) (st : Stream) : option Stream := Some (put_u32 result st).
Definition BNetOldAccountCreate2_Pack (result : Z) (st : Stream) : option Stream := Some (put_u32 result st).
Definition BNetOldAuthLogon2_Pack (result : Z) (reason : bytes) (st : Stream) : option Stream :=
  let st := put_u32 result st in
  Some (if Nat.eqb (length reason) 0 then st else put_cstr reason st).
Definition BNetPing_Pack (sid : Z) (st : Stream) : option Stream := Some (put_u32 sid st).
Definition BNetProfile_Pack (token result : Z) (description location : bytes) (clan : Z) (st : Stream) : option Stream :=
  let st := put_u8 result (put_u32 token st) in
  Some (if result =? 0 then put_u32 clan (put_str location (put_str description st)) else st).
(** The double loop reads [result[i][j]] for the counts in the packet; a row
    or cell that is not there is an access out of range. *)
Definition BNetReadUserData_Pack (acount kcount token : Z) (result : list (list bytes)) (st : Stream)
  : option Stream :=
  let st := put_u32 token (put_u32 kcount (put_u32 acount st)) in
  cells ← mapM (fun i => row ← result !! i; mapM (fun j => row !! j) (seq 0 (Z.to_nat kcount)))
               (seq 0 (Z.to_nat acount));
  Some (foldl (fun st c => put_str c st) st (mjoin cells)).
Definition BNetReplyFileInfo_Pack (fileid filetime : Z) (filename : bytes) (st : Stream) : option Stream :=
  Some (put_str filename (put_u64 filetime (put_u64 fileid st))).
Definition BNetReplyIcon_Pack (filetime : Z) (filename : bytes) (st : Stream) : option Stream :=
  Some (put_str filename (put_u64 filetime st)).
Definition BNetReqEmail_Pack (st : Stream) : option Stream := Some st.
Definition BNetStartAdvEx3_Pack (status : Z) (st : Stream) : option Stream := Some (put_u32 status st).

Definition BaalAuthInfo_Pack (session : Z) (st : Stream) : option Stream := Some (put_u32 session st).
Definition BaalAuthReply_Pack (result : Z) (st : Stream) : option Stream := Some (put_u32 result st).
Definition BaalCheckReply_Pack (result : Z) (st : Stream) : option Stream := Some (put_u32 result st).

Definition FileToken_Build (token : Z) : bytes := _buf (put_u32 token empty_stream).
(** ['bnet'] as the compilers read it: the last character lowest. *)
Definition UDPServerPing_Pack (st : Stream) : option Stream := Some (put_u32 0x626E6574 st).

(** The operation codes of the packet classes. *)
Definition cmd_Null : Z := 0x00FF.
Definition cmd_AdvListEx : Z := 0x09FF.
Definition cmd_EnterChat : Z := 0x0AFF.
Definition cmd_ListChannel : Z := 0x0BFF.
Definition cmd_ChatEvent : Z := 0x0FFF.
Definition cmd_StartAdvEx3 : Z := 0x1CFF.
Definition cmd_Ping : Z := 0x25FF.
Definition cmd_ReadUserData : Z := 0x26FF.
Definition cmd_ReplyIcon : Z := 0x2DFF.
Definition cmd_OldAccountChange : Z := 0x31FF.
Definition cmd_ReplyFileInfo : Z := 0x33FF.
Definition cmd_Profile : Z := 0x35FF.
Definition cmd_OldAuthLogon2 : Z := 0x3AFF.
Definition cmd_OldAccountCreate2 : Z := 0x3DFF.
Definition cmd_RealmLogonEx : Z := 0x3EFF.
Definition cmd_RealmList2 : Z := 0x40FF.
Definition cmd_War3Info : Z := 0x44FF.
Definition cmd_ReplyNews : Z := 0x46FF.
Definition cmd_AuthInfo : Z := 0x50FF.
Definition cmd_AuthCheck : Z := 0x51FF.
Definition cmd_AccountCreate : Z := 0x52FF.
Definition cmd_AuthLogon : Z := 0x53FF.
Definition cmd_AuthLogonProof : Z := 0x54FF.
Definition cmd_AccountChange : Z := 0x55FF.
Definition cmd_AccountChangeProof : Z := 0x56FF.
Definition cmd_ReqEmail : Z := 0x59FF.
Definition cmd_FriendsList : Z := 0x65FF.
Definition cmd_FriendUpdate : Z := 0x66FF.
Definition cmd_FriendAdd : Z := 0x67FF.
Definition cmd_FriendRemove : Z := 0x68FF.
Definition cmd_FriendPosition : Z := 0x69FF.

(** ** Built packets are frames *)

(** A [Pack] only appends. *)
Definition appends (pack : Stream -> option Stream) (body : bytes) : Prop :=
  forall st, pack st = Some (mkStream (_pos st) (_buf st ++ body)).

Lemma le_bytes_u16 v : le_bytes 2 (u16 v) = le_bytes 2 v.
Proof.
  rewrite <- (le_bytes_le_val (le_bytes 2 v)) by apply le_bytes_ok.
  rewrite length_le_bytes, le_val_le_bytes. done.
Qed.

Lemma le_bytes_4_low v : 0 <= v < 65536 -> le_bytes 4 v = le_bytes 2 v ++ [0; 0].
Proof.
  intros Hv. simpl.
  assert (v / 256 / 256 = 0) as -> by (rewrite Z.div_div by lia; apply Z.div_small; lia). done.
Qed.

Lemma poke_size p h b body :
  length h = 2%nat -> length b = 2%nat -> _buf (poke 2 b (mkStream p ((h ++ [0; 0]) ++ body))) = h ++ b ++ body.
Proof. destruct h as [|? [|? [|]]], b as [|? [|? [|]]]; done. Qed.

(** A packet whose [Pack] appends a body is that body in a frame. *)
Lemma BNet_Build_enc cmd pack body :
  0 <= cmd < 65536 -> appends pack body -> Z.of_nat (length body) < 65532 ->
  BNet_Build cmd pack = Some (enc_bnet (cmd, body)).
Proof.
  intros Hcmd Hp Hb. unfold BNet_Build. rewrite Hp. cbn [mbind option_bind].
  rewrite (u16_small cmd) by lia. unfold put_u32, put_le, size, enc_bnet. cbn [_buf _pos append empty_stream app fst snd].
  rewrite le_bytes_4_low, le_bytes_u16, poke_size by (done || apply length_le_bytes).
  do 4 f_equal. rewrite !length_app, length_le_bytes. simpl. lia.
Qed.

(** Every packet the BNet family builds is a frame of the BNet protocol:
    its code, a size field equal to the number of bytes sent, and the body, as
    long as the body fits the 16-bit size; a peer that cuts its input the way
    [ProcessBNet] does reads back the code and the body. *)
Theorem BNet_Build_frame cmd pack body :
  0 <= cmd < 65536 -> appends pack body -> Z.of_nat (length body) < 65532 ->
  BNet_Build cmd pack = Some (enc_bnet (cmd, body)) /\
  forall W (p : Z -> Stream -> W -> W) w,
    bytes_ok body ->
    ProcessBNet (fun _ => true) (fun _ => []) p (enc_bnet (cmd, body)) w = ([], p cmd (stream_of body) w).
Proof.
  intros Hcmd Hp Hb. split.
  - by apply BNet_Build_enc.
  - intros W p w Hok.
    destruct (framed_encoded (fun _ => true) (fun _ => []) ltac:(done) high_half low_half enc_bnet p
      ltac:(intros; apply half_bound) [(cmd, body)] []) as [_ H].
    + repeat constructor; simpl; try done; lia.
    + left. simpl. lia.
    + specialize (H w). cbn [fmap list_fmap mjoin list_join] in H. rewrite !app_nil_r in H. exact H.
Qed.

Lemma BNet_Build_frame_witness :
  BNet_Build cmd_Ping (BNetPing_Pack 0x01020304) = Some [255; 37; 8; 0; 4; 3; 2; 1] /\
  BNet_Build cmd_Ping (BNetPing_Pack 0x01020304) = Some (enc_bnet (cmd_Ping, [4; 3; 2; 1])).
Proof.
  split; [reflexivity|]. apply BNet_Build_frame; [vm_compute; split; congruence| |simpl; lia].
  intros st. reflexivity.
Defined.
