(* ===== verification/World.v ===== *)
(** * World: the shared state of the blitzd server

    The objects the caches and the connections share through pointers: clients
    (blitzd/core/Client.h), channels (blitzd/cache/ChannelCache.h) and games
    (blitzd/cache/GameCache.h) in heaps of their own, the tables that name
    them, the account cache, and the packets sent so far.  A pointer is an
    address, NULL is [None]; the code runs in a state monad whose [Crash] is a
    dereference of an address that holds no object. *)

From S2P Require Import Prelude Words Stream OMap CStr Storage UserItem UserCache Framing Packets.

(** ** Objects *)

(** [Core::Client], without its socket. *)
Record Client := mkClient {
  c_stage : Stage_t;
  c_platform : Z;
  c_gameid : Z;
  c_version : Z;
  c_gamelang : Z;
  c_natip : Z;
  c_tzone : Z;
  c_locale : Z;
  c_language : Z;
  c_gameIp : Z;
  c_gamePort : Z;
  c_check_sid : Z;
  c_checkTick : Z;
  c_latency : Z;
  c_protocolVer : Z;
  c_session : Z;
  c_token : Z;
  c_flag : Z;
  c_countryab : bytes;
  c_country : bytes;
  c_user : option nat;
  c_game : option nat;
  c_channel : option nat;
  c_stats : bytes;
  c_server_proof : bytes;
  c_client_proof : bytes;
  c_dnd : bytes;
  c_away : bytes;
  c_lastWhisper : bytes
}.

Definition set_c_stage (v : Stage_t) (r : Client) : Client :=
  match r with mkClient _ x1 x2 x3 x4 x5 x6 x7 x8 x9 x10 x11 x12 x13 x14 x15 x16 x17 x18 x19 x20 x21 x22 x23 x24 x25 x26 x27 x28 =>
    mkClient v x1 x2 x3 x4 x5 x6 x7 x8 x9 x10 x11 x12 x13 x14 x15 x16 x17 x18 x19 x20 x21 x22 x23 x24 x25 x26 x27 x28 end.
Definition set_c_gameid (v : Z) (r : Client) : Client :=
  match r with mkClient x0 x1 _ x3 x4 x5 x6 x7 x8 x9 x10 x11 x12 x13 x14 x15 x16 x17 x18 x19 x20 x21 x22 x23 x24 x25 x26 x27 x28 =>
    mkClient x0 x1 v x3 x4 x5 x6 x7 x8 x9 x10 x11 x12 x13 x14 x15 x16 x17 x18 x19 x20 x21 x22 x23 x24 x25 x26 x27 x28 end.
Definition set_c_gameIp (v : Z) (r : Client) : Client :=
  match r with mkClient x0 x1 x2 x3 x4 x5 x6 x7 x8 _ x10 x11 x12 x13 x14 x15 x16 x17 x18 x19 x20 x21 x22 x23 x24 x25 x26 x27 x28 =>
    mkClient x0 x1 x2 x3 x4 x5 x6 x7 x8 v x10 x11 x12 x13 x14 x15 x16 x17 x18 x19 x20 x21 x22 x23 x24 x25 x26 x27 x28 end.
Definition set_c_gamePort (v : Z) (r : Client) : Client :=
  match r with mkClient x0 x1 x2 x3 x4 x5 x6 x7 x8 x9 _ x11 x12 x13 x14 x15 x16 x17 x18 x19 x20 x21 x22 x23 x24 x25 x26 x27 x28 =>
    mkClient x0 x1 x2 x3 x4 x5 x6 x7 x8 x9 v x11 x12 x13 x14 x15 x16 x17 x18 x19 x20 x21 x22 x23 x24 x25 x26 x27 x28 end.
Definition set_c_check_sid (v : Z) (r : Client) : Client :=
  match r with mkClient x0 x1 x2 x3 x4 x5 x6 x7 x8 x9 x10 _ x12 x13 x14 x15 x16 x17 x18 x19 x20 x21 x22 x23 x24 x25 x26 x27 x28 =>
    mkClient x0 x1 x2 x3 x4 x5 x6 x7 x8 x9 x10 v x12 x13 x14 x15 x16 x17 x18 x19 x20 x21 x22 x23 x24 x25 x26 x27 x28 end.
Definition set_c_checkTick (v : Z) (r : Client) : Client :=
  match r with mkClient x0 x1 x2 x3 x4 x5 x6 x7 x8 x9 x10 x11 _ x13 x14 x15 x16 x17 x18 x19 x20 x21 x22 x23 x24 x25 x26 x27 x28 =>
    mkClient x0 x1 x2 x3 x4 x5 x6 x7 x8 x9 x10 x11 v x13 x14 x15 x16 x17 x18 x19 x20 x21 x22 x23 x24 x25 x26 x27 x28 end.
Definition set_c_latency (v : Z) (r : Client) : Client :=
  match r with mkClient x0 x1 x2 x3 x4 x5 x6 x7 x8 x9 x10 x11 x12 _ x14 x15 x16 x17 x18 x19 x20 x21 x22 x23 x24 x25 x26 x27 x28 =>
    mkClient x0 x1 x2 x3 x4 x5 x6 x7 x8 x9 x10 x11 x12 v x14 x15 x16 x17 x18 x19 x20 x21 x22 x23 x24 x25 x26 x27 x28 end.
Definition set_c_flag (v : Z) (r : Client) : Client :=
  match r with mkClient x0 x1 x2 x3 x4 x5 x6 x7 x8 x9 x10 x11 x12 x13 x14 x15 x16 _ x18 x19 x20 x21 x22 x23 x24 x25 x26 x27 x28 =>
    mkClient x0 x1 x2 x3 x4 x5 x6 x7 x8 x9 x10 x11 x12 x13 x14 x15 x16 v x18 x19 x20 x21 x22 x23 x24 x25 x26 x27 x28 end.
Definition set_c_user (v : option nat) (r : Client) : Client :=
  match r with mkClient x0 x1 x2 x3 x4 x5 x6 x7 x8 x9 x10 x11 x12 x13 x14 x15 x16 x17 x18 x19 _ x21 x22 x23 x24 x25 x26 x27 x28 =>
    mkClient x0 x1 x2 x3 x4 x5 x6 x7 x8 x9 x10 x11 x12 x13 x14 x15 x16 x17 x18 x19 v x21 x22 x23 x24 x25 x26 x27 x28 end.
Definition set_c_game (v : option nat) (r : Client) : Client :=
  match r with mkClient x0 x1 x2 x3 x4 x5 x6 x7 x8 x9 x10 x11 x12 x13 x14 x15 x16 x17 x18 x19 x20 _ x22 x23 x24 x25 x26 x27 x28 =>
    mkClient x0 x1 x2 x3 x4 x5 x6 x7 x8 x9 x10 x11 x12 x13 x14 x15 x16 x17 x18 x19 x20 v x22 x23 x24 x25 x26 x27 x28 end.
Definition set_c_channel (v : option nat) (r : Client) : Client :=
  match r with mkClient x0 x1 x2 x3 x4 x5 x6 x7 x8 x9 x10 x11 x12 x13 x14 x15 x16 x17 x18 x19 x20 x21 _ x23 x24 x25 x26 x27 x28 =>
    mkClient x0 x1 x2 x3 x4 x5 x6 x7 x8 x9 x10 x11 x12 x13 x14 x15 x16 x17 x18 x19 x20 x21 v x23 x24 x25 x26 x27 x28 end.
Definition set_c_stats (v : bytes) (r : Client) : Client :=
  match r with mkClient x0 x1 x2 x3 x4 x5 x6 x7 x8 x9 x10 x11 x12 x13 x14 x15 x16 x17 x18 x19 x20 x21 x22 _ x24 x25 x26 x27 x28 =>
    mkClient x0 x1 x2 x3 x4 x5 x6 x7 x8 x9 x10 x11 x12 x13 x14 x15 x16 x17 x18 x19 x20 x21 x22 v x24 x25 x26 x27 x28 end.
Definition set_c_server_proof (v : bytes) (r : Client) : Client :=
  match r with mkClient x0 x1 x2 x3 x4 x5 x6 x7 x8 x9 x10 x11 x12 x13 x14 x15 x16 x17 x18 x19 x20 x21 x22 x23 _ x25 x26 x27 x28 =>
    mkClient x0 x1 x2 x3 x4 x5 x6 x7 x8 x9 x10 x11 x12 x13 x14 x15 x16 x17 x18 x19 x20 x21 x22 x23 v x25 x26 x27 x28 end.
Definition set_c_client_proof (v : bytes) (r : Client) : Client :=
  match r with mkClient x0 x1 x2 x3 x4 x5 x6 x7 x8 x9 x10 x11 x12 x13 x14 x15 x16 x17 x18 x19 x20 x21 x22 x23 x24 _ x26 x27 x28 =>
    mkClient x0 x1 x2 x3 x4 x5 x6 x7 x8 x9 x10 x11 x12 x13 x14 x15 x16 x17 x18 x19 x20 x21 x22 x23 x24 v x26 x27 x28 end.
Definition set_c_dnd (v : bytes) (r : Client) : Client :=
  match r with mkClient x0 x1 x2 x3 x4 x5 x6 x7 x8 x9 x10 x11 x12 x13 x14 x15 x16 x17 x18 x19 x20 x21 x22 x23 x24 x25 _ x27 x28 =>
    mkClient x0 x1 x2 x3 x4 x5 x6 x7 x8 x9 x10 x11 x12 x13 x14 x15 x16 x17 x18 x19 x20 x21 x22 x23 x24 x25 v x27 x28 end.
Definition set_c_away (v : bytes) (r : Client) : Client :=
  match r with mkClient x0 x1 x2 x3 x4 x5 x6 x7 x8 x9 x10 x11 x12 x13 x14 x15 x16 x17 x18 x19 x20 x21 x22 x23 x24 x25 x26 _ x28 =>
    mkClient x0 x1 x2 x3 x4 x5 x6 x7 x8 x9 x10 x11 x12 x13 x14 x15 x16 x17 x18 x19 x20 x21 x22 x23 x24 x25 x26 v x28 end.
Definition set_c_lastWhisper (v : bytes) (r : Client) : Client :=
  match r with mkClient x0 x1 x2 x3 x4 x5 x6 x7 x8 x9 x10 x11 x12 x13 x14 x15 x16 x17 x18 x19 x20 x21 x22 x23 x24 x25 x26 x27 _ =>
    mkClient x0 x1 x2 x3 x4 x5 x6 x7 x8 x9 x10 x11 x12 x13 x14 x15 x16 x17 x18 x19 x20 x21 x22 x23 x24 x25 x26 x27 v end.

(** [Cache::ChannelCacheItem]; [_connset] is a [std::set] of pointers, a sorted
    list of addresses. *)
Record Channel := mkChannel {
  h_connset : list nat;
  h_name : bytes;
  h_short : bytes;
  h_gameid : Z;
  h_flag : Z;
  h_maxUser : Z;
  h_byCountry : bool;
  h_byIndex : bool;
  h_spawned : bool
}.

Definition set_h_connset (v : list nat) (r : Channel) : Channel :=
  match r with mkChannel _ x1 x2 x3 x4 x5 x6 x7 x8 =>
    mkChannel v x1 x2 x3 x4 x5 x6 x7 x8 end.
Definition set_h_flag (v : Z) (r : Channel) : Channel :=
  match r with mkChannel x0 x1 x2 x3 _ x5 x6 x7 x8 =>
    mkChannel x0 x1 x2 x3 v x5 x6 x7 x8 end.
Definition set_h_maxUser (v : Z) (r : Channel) : Channel :=
  match r with mkChannel x0 x1 x2 x3 x4 _ x6 x7 x8 =>
    mkChannel x0 x1 x2 x3 x4 v x6 x7 x8 end.
Definition set_h_byCountry (v : bool) (r : Channel) : Channel :=
  match r with mkChannel x0 x1 x2 x3 x4 x5 _ x7 x8 =>
    mkChannel x0 x1 x2 x3 x4 x5 v x7 x8 end.
Definition set_h_byIndex (v : bool) (r : Channel) : Channel :=
  match r with mkChannel x0 x1 x2 x3 x4 x5 x6 _ x8 =>
    mkChannel x0 x1 x2 x3 x4 x5 x6 v x8 end.
Definition set_h_spawned (v : bool) (r : Channel) : Channel :=
  match r with mkChannel x0 x1 x2 x3 x4 x5 x6 x7 _ =>
    mkChannel x0 x1 x2 x3 x4 x5 x6 x7 v end.

(** [Cache::GameCacheItem]. *)
Record Game := mkGame {
  g_name : bytes;
  g_flag : Z;
  g_stime : Z;
  g_type : Z;
  g_option : Z;
  g_ladder : Z;
  g_passwd : bytes;
  g_stat : bytes;
  g_broadcast : bool;
  g_host : option nat;
  g_connlist : list nat
}.

Definition set_g_passwd (v : bytes) (r : Game) : Game :=
  match r with mkGame x0 x1 x2 x3 x4 x5 _ x7 x8 x9 x10 =>
    mkGame x0 x1 x2 x3 x4 x5 v x7 x8 x9 x10 end.
Definition set_g_stat (v : bytes) (r : Game) : Game :=
  match r with mkGame x0 x1 x2 x3 x4 x5 x6 _ x8 x9 x10 =>
    mkGame x0 x1 x2 x3 x4 x5 x6 v x8 x9 x10 end.
Definition set_g_broadcast (v : bool) (r : Game) : Game :=
  match r with mkGame x0 x1 x2 x3 x4 x5 x6 x7 _ x9 x10 =>
    mkGame x0 x1 x2 x3 x4 x5 x6 x7 v x9 x10 end.
Definition set_g_host (v : option nat) (r : Game) : Game :=
  match r with mkGame x0 x1 x2 x3 x4 x5 x6 x7 x8 _ x10 =>
    mkGame x0 x1 x2 x3 x4 x5 x6 x7 x8 v x10 end.
Definition set_g_connlist (v : list nat) (r : Game) : Game :=
  match r with mkGame x0 x1 x2 x3 x4 x5 x6 x7 x8 x9 _ =>
    mkGame x0 x1 x2 x3 x4 x5 x6 x7 x8 x9 v end.

(** ** The world *)

Section world.
Context {S : Type}.

Record World := mkWorld {
  w_clients : gmap nat Client;
  w_channels : gmap nat Channel;
  w_games : gmap nat Game;
  w_alloc : nat;
  w_current_session : Z;
  w_clientMap : list (bytes * nat);
  w_tokenMap : list (Z * nat);
  w_channelmap : list (bytes * nat);
  w_game_channelmap : list (Z * list nat);
  w_game_map : list (bytes * nat);
  w_uc : UC S;
  w_out : list (nat * bytes)
}.

Definition set_w_clients (v : gmap nat Client) (w : World) : World :=
  match w with mkWorld _ x1 x2 x3 x4 x5 x6 x7 x8 x9 x10 x11 => mkWorld v x1 x2 x3 x4 x5 x6 x7 x8 x9 x10 x11 end.
Definition set_w_channels (v : gmap nat Channel) (w : World) : World :=
  match w with mkWorld x0 _ x2 x3 x4 x5 x6 x7 x8 x9 x10 x11 => mkWorld x0 v x2 x3 x4 x5 x6 x7 x8 x9 x10 x11 end.
Definition set_w_games (v : gmap nat Game) (w : World) : World :=
  match w with mkWorld x0 x1 _ x3 x4 x5 x6 x7 x8 x9 x10 x11 => mkWorld x0 x1 v x3 x4 x5 x6 x7 x8 x9 x10 x11 end.
Definition set_w_alloc (v : nat) (w : World) : World :=
  match w with mkWorld x0 x1 x2 _ x4 x5 x6 x7 x8 x9 x10 x11 => mkWorld x0 x1 x2 v x4 x5 x6 x7 x8 x9 x10 x11 end.
Definition set_w_current_session (v : Z) (w : World) : World :=
  match w with mkWorld x0 x1 x2 x3 _ x5 x6 x7 x8 x9 x10 x11 => mkWorld x0 x1 x2 x3 v x5 x6 x7 x8 x9 x10 x11 end.
Definition set_w_clientMap (v : list (bytes * nat)) (w : World) : World :=
  match w with mkWorld x0 x1 x2 x3 x4 _ x6 x7 x8 x9 x10 x11 => mkWorld x0 x1 x2 x3 x4 v x6 x7 x8 x9 x10 x11 end.
Definition set_w_tokenMap (v : list (Z * nat)) (w : World) : World :=
  match w with mkWorld x0 x1 x2 x3 x4 x5 _ x7 x8 x9 x10 x11 => mkWorld x0 x1 x2 x3 x4 x5 v x7 x8 x9 x10 x11 end.
Definition set_w_channelmap (v : list (bytes * nat)) (w : World) : World :=
  match w with mkWorld x0 x1 x2 x3 x4 x5 x6 _ x8 x9 x10 x11 => mkWorld x0 x1 x2 x3 x4 x5 x6 v x8 x9 x10 x11 end.
Definition set_w_game_channelmap (v : list (Z * list nat)) (w : World) : World :=
  match w with mkWorld x0 x1 x2 x3 x4 x5 x6 x7 _ x9 x10 x11 => mkWorld x0 x1 x2 x3 x4 x5 x6 x7 v x9 x10 x11 end.
Definition set_w_game_map (v : list (bytes * nat)) (w : World) : World :=
  match w with mkWorld x0 x1 x2 x3 x4 x5 x6 x7 x8 _ x10 x11 => mkWorld x0 x1 x2 x3 x4 x5 x6 x7 x8 v x10 x11 end.
Definition set_w_uc (v : UC S) (w : World) : World :=
  match w with mkWorld x0 x1 x2 x3 x4 x5 x6 x7 x8 x9 _ x11 => mkWorld x0 x1 x2 x3 x4 x5 x6 x7 x8 x9 v x11 end.
Definition set_w_out (v : list (nat * bytes)) (w : World) : World :=
  match w with mkWorld x0 x1 x2 x3 x4 x5 x6 x7 x8 x9 x10 _ => mkWorld x0 x1 x2 x3 x4 x5 x6 x7 x8 x9 x10 v end.

(** ** The monad *)

Definition M (A : Type) : Type := World -> result (A * World).
#[global] Instance M_ret : MRet M := fun _ a w => Ret (a, w).
#[global] Instance M_bind : MBind M := fun _ _ f m w => match m w with Ret (a, w') => f a w' | Crash => Crash | NoFuel => NoFuel end.

Definition get {A} (f : World -> A) : M A := fun w => Ret (f w, w).
Definition modify (f : World -> World) : M unit := fun w => Ret (tt, f w).
Definition crash {A} : M A := fun _ => Crash.
Definition lift {A} (r : result A) : M A := fun w => match r with Ret a => Ret (a, w) | Crash => Crash | NoFuel => NoFuel end.
Definition when (b : bool) (m : M unit) : M unit := if b then m else mret tt.

(** Reading and changing an object through its address. *)
Definition client (p : nat) : M Client := fun w => match w_clients w !! p with Some c => Ret (c, w) | None => Crash end.
Definition channel (p : nat) : M Channel := fun w => match w_channels w !! p with Some c => Ret (c, w) | None => Crash end.
Definition game (p : nat) : M Game := fun w => match w_games w !! p with Some c => Ret (c, w) | None => Crash end.
Definition account (p : nat) : M UserCacheItem :=
  fun w => match uc_heap (w_uc w) !! p with Some u => Ret (u, w) | None => Crash end.
Definition edit_client (p : nat) (f : Client -> Client) : M unit :=
  c ← client p; modify (fun w => set_w_clients (<[p := f c]> (w_clients w)) w).
Definition edit_channel (p : nat) (f : Channel -> Channel) : M unit :=
  c ← channel p; modify (fun w => set_w_channels (<[p := f c]> (w_channels w)) w).
Definition edit_game (p : nat) (f : Game -> Game) : M unit :=
  c ← game p; modify (fun w => set_w_games (<[p := f c]> (w_games w)) w).
Definition edit_account (p : nat) (f : UserCacheItem -> UserCacheItem) : M unit :=
  u ← account p; modify (fun w => set_w_uc (with_heap (<[p := f u]> (uc_heap (w_uc w))) (w_uc w)) w).

(** A loop over a list. *)
Fixpoint for_each {A} (l : list A) (f : A -> M unit) : M unit :=
  match l with
  | [] => mret tt
  | x :: l' => f x ;; for_each l' f
  end.

(** [TcpClient::Send]: the packet goes to the client's output buffer. *)
Definition send (p : nat) (b : bytes) : M unit :=
  _ ← client p; modify (fun w => set_w_out (w_out w ++ [(p, b)]) w).
(** [BuildAndSendTo]: nothing is sent when [Build] fails. *)
Definition build_and_send (p : nat) (b : option bytes) : M unit :=
  match b with Some b => send p b | None => mret tt end.

(** A call into the account cache. *)
Definition with_users {A} (f : UC S -> result (A * UC S)) : M A :=
  fun w => match f (w_uc w) with
           | Ret (a, c) => Ret (a, set_w_uc c w)
           | Crash => Crash
           | NoFuel => NoFuel
           end.
End world.
Arguments World S : clear implicits.
Arguments M S A : clear implicits.
