(* ===== verification/Chat.v ===== *)
(** * Chat: messages, channels, games and connections

    blitzd/core/Message.cpp, blitzd/cache/ChannelCache.cpp,
    blitzd/cache/GameCache.cpp and the life of a connection in
    blitzd/core/Client.cpp, over the shared state of [World]. *)

From S2P Require Import Prelude Words Stream OMap CStr NumFmt Storage UserItem UserCache Framing Packets World.

(** ** Constants *)

(** blitzd/core/BNetDefs.h; the game tags as multi-character constants. *)
Definition GAME_ID_W3XP : Z := 0x57335850.
Definition GAME_ID_WAR3 : Z := 0x57415233.
Definition UF_NOUDP : Z := 0x10.

(** [Message]'s event codes. *)
Definition MsgAddUser : Z := 1.
Definition MsgJoin : Z := 2.
Definition MsgLeave : Z := 3.
Definition MsgWhisper : Z := 4.
Definition MsgTalk : Z := 5.
Definition MsgChannel : Z := 7.
Definition MsgUserFlags : Z := 9.
Definition MsgWhisperSent : Z := 0xA.
Definition MsgInfo : Z := 0x12.
Definition MsgEmote : Z := 0x17.

(** [std::set<Client *>::insert] and [erase]. *)
Fixpoint set_insert (x : nat) (l : list nat) : list nat :=
  match l with
  | [] => [x]
  | y :: l' => if Nat.ltb x y then x :: l else if Nat.eqb x y then l else y :: set_insert x l'
  end.
Definition set_erase (x : nat) (l : list nat) : list nat := base.filter (fun y => y <> x) l.

(** [std::list::erase] of the first occurrence, as the loops write it. *)
Fixpoint list_erase (x : nat) (l : list nat) : list nat :=
  match l with
  | [] => []
  | y :: l' => if Nat.eqb y x then l' else y :: list_erase x l'
  end.

Section chat.
Context {S : Type}.
Abbreviation M := (M S).

(** ** [Client] *)

Definition GetUsername (p : nat) : M bytes :=
  c ← client p;
  match c_user c with None => mret [] | Some u => a ← account u; mret (u_username a) end.
Definition Client_GetFlag (p : nat) : M Z :=
  c ← client p;
  match c_user c with
  | None => mret (Z.lor (c_flag c) 0)
  | Some u => a ← account u; mret (Z.lor (c_flag c) (GetFlag a))
  end.
Definition Client_SetGame (p : nat) (g : option nat) : M unit := edit_client p (set_c_game g).
Definition Client_SetChannel (p : nat) (h : option nat) : M unit := edit_client p (set_c_channel h).
Definition Client_AddFlag (p : nat) (f : Z) : M unit := edit_client p (fun c => set_c_flag (Z.lor (c_flag c) f) c).
Definition Client_DelFlag (p : nat) (f : Z) : M unit :=
  edit_client p (fun c => set_c_flag (Z.land (c_flag c) (not32 f)) c).

(** [SetStage], with [BuildStats] when the client logs in: [_stats] becomes four
    bytes, the game tag. *)
Definition BuildStats (c : Client) : Client := set_c_stats (le_bytes 4 (c_gameid c)) c.
Definition SetStage (p : nat) (s : Stage_t) : M unit :=
  edit_client p (fun c => let c := set_c_stage s c in if decide (s = BNET_LOGGEDIN) then BuildStats c else c).

Definition SetAuthInfo (platform gameid ver gamelang natip timezone locale language : Z) (countryab country : bytes)
  (c : Client) : Client :=
  mkClient (c_stage c) platform gameid ver gamelang natip timezone locale language (c_gameIp c) (c_gamePort c)
    (c_check_sid c) (c_checkTick c) (c_latency c)
    (if (gameid =? GAME_ID_W3XP) || (gameid =? GAME_ID_WAR3) then 2 else 0)
    (c_session c) (c_token c) (c_flag c) countryab country (c_user c) (c_game c) (c_channel c) (c_stats c)
    (c_server_proof c) (c_client_proof c) (c_dnd c) (c_away c) (c_lastWhisper c).

Definition SetProof (s c : bytes) (cl : Client) : Client :=
  set_c_client_proof (take 20 c) (set_c_server_proof (take 20 s) cl).

(** [CheckStart] and [CheckEnd]; the tick is [Utils::GetTicks()]. *)
Definition CheckStart (sid tick : Z) (c : Client) : Client := set_c_checkTick tick (set_c_check_sid sid c).
Definition CheckEnd (sid tick : Z) (c : Client) : Client :=
  if negb (c_check_sid c =? sid) || (c_checkTick c =? 0) then c
  else if tick <? c_checkTick c then set_c_latency 0 c
  else set_c_latency (tick - c_checkTick c) c.
Definition SendPing (p : nat) (sid tick : Z) : M unit :=
  edit_client p (CheckStart sid tick) ;; build_and_send p (BNet_Build cmd_Ping (BNetPing_Pack sid)).

(** ** [Message] *)

(** [BuildMessagePacket]: the built chat event. *)
Definition BuildMessagePacket (cl : option nat) (type : Z) (msg : bytes) : M (option bytes) :=
  r ← match cl with
      | None => mret (0, 0, [])
      | Some p =>
          c ← client p;
          uflag ← (if type =? MsgChannel then
                     match c_channel c with None => mret 0 | Some h => ch ← channel h; mret (h_flag ch) end
                   else Client_GetFlag p);
          name ← GetUsername p;
          mret (uflag, c_latency c, name)
      end;
  text ← (if (type =? MsgAddUser) || (type =? MsgJoin) || (type =? MsgUserFlags) then
            match cl with None => mret [] | Some p => c ← client p; mret (cstr (c_stats c)) end
          else mret msg);
  let '(uflag, ping, username) := r in
  mret (BNet_Build cmd_ChatEvent (BNetChatEvent_Pack type uflag ping username text)).

(** [Send(Client *, Client *, type, msg)]. *)
Definition Send (toconn conn : option nat) (type : Z) (msg : bytes) : M bool :=
  match toconn with
  | None => mret false
  | Some t =>
      b ← BuildMessagePacket conn type msg;
      match b with
      | None => mret false
      | Some b =>
          send t b ;;
          when (type =? MsgWhisper)
            (match conn with
             | None => crash
             | Some p => name ← GetUsername p; edit_client t (set_c_lastWhisper name)
             end) ;;
          mret true
      end
  end.

(** [BNetChatEvent::SendToSet]. *)
Definition SendToSet (b : bytes) (uset : list nat) (cl : option nat) (ignoreSelf : bool) : M unit :=
  for_each uset (fun t => if ignoreSelf && bool_decide (Some t = cl) then mret tt else send t b).

(** [Send(std::set<Client *>&, ...)]. *)
Definition SendSet (toset : list nat) (conn : option nat) (type : Z) (msg : bytes) (ignoreSelf : bool) : M bool :=
  b ← BuildMessagePacket conn type msg;
  match b with
  | None => mret false
  | Some b =>
      SendToSet b toset conn ignoreSelf ;;
      when (type =? MsgWhisper)
        (match conn with
         | None => crash
         | Some p => name ← GetUsername p; for_each toset (fun t => edit_client t (set_c_lastWhisper name))
         end) ;;
      mret true
  end.

(** [clientPool[name]] and [clientPool[token]]. *)
Definition pool_name (name : bytes) : M (option nat) := get (fun w => om_find ci_ltb name (w_clientMap w)).
Definition pool_token (s : Z) : M (option nat) := get (fun w => om_find Z.ltb s (w_tokenMap w)).

Definition FindOnlineUser (name : bytes) (conn : nat) (ack : bool) : M (option nat) :=
  c ← pool_name name;
  match c with
  | None =>
      (if ack then Send (Some conn) None MsgInfo (b# "The user is not logged in!") else mret false) ;; mret None
  | Some p =>
      if Nat.eqb p conn then
        (if ack then Send (Some conn) None MsgInfo (b# "You cannot do whisper to yourself!") else mret false) ;;
        mret None
      else
        cl ← client p;
        if Nat.eqb (length (c_dnd cl)) 0 then mret (Some p)
        else
          (if ack then
             uname ← GetUsername p;
             Send (Some conn) None MsgInfo (uname ++ b# " is at DnD status (" ++ c_dnd cl ++ b# ").")
           else mret false) ;;
          mret None
  end.

Definition SendWhisper (toname : bytes) (conn : nat) (msg : bytes) (ack : bool) : M bool :=
  c ← FindOnlineUser toname conn ack;
  match c with
  | None => mret false
  | Some p =>
      (if ack then
         Send (Some conn) (Some p) MsgWhisperSent msg ;;
         cl ← client p;
         (if Nat.eqb (length (c_away cl)) 0 then mret false
          else uname ← GetUsername p;
               Send (Some conn) None MsgInfo (uname ++ b# " is away from PC (" ++ c_away cl ++ b# ")."))
       else mret false) ;;
      Send (Some p) (Some conn) MsgWhisper msg ;;
      mret true
  end.

(** ** [GameCache] *)

(** The destructor of a game: its members forget it. *)
Definition Game_delete (g : nat) : M unit :=
  gm ← game g;
  for_each (g_connlist gm) (fun c => Client_SetGame c None) ;;
  modify (fun w => set_w_games (delete g (w_games w)) w).

(** [_game_map.erase(name)]; the table holds the reference that keeps the game
    alive. *)
Definition GameCache_Remove (name : bytes) : M unit :=
  r ← get (fun w => om_find ci_ltb name (w_game_map w));
  match r with
  | None => mret tt
  | Some g =>
      modify (fun w => set_w_game_map (om_erase ci_ltb name (w_game_map w)) w) ;; Game_delete g
  end.

(** [GameCache::Add]: the numbers of a new game are uninitialised; an entry of
    that name is replaced, which destroys its game. *)
Definition GameCache_Add (junk : Z * Z * Z * Z * Z) (name : bytes) : M nat :=
  let '(flag, stime, type, option, ladder) := junk in
  g ← get w_alloc;
  old ← get (fun w => om_find ci_ltb name (w_game_map w));
  modify (fun w =>
    set_w_game_map (om_insert ci_ltb name g (w_game_map w))
      (set_w_alloc (g + 1)%nat
        (set_w_games (<[g := mkGame name flag stime type option ladder [] [] true None []]> (w_games w)) w))) ;;
  match old with None => mret tt | Some o => Game_delete o end ;;
  mret g.

Definition GameCache_index (name : bytes) : M (option nat) :=
  get (fun w => om_find ci_ltb name (w_game_map w)).

Definition UpdateStatus (f e t o l : Z) (g : Game) : Game :=
  mkGame (g_name g) f e t o l (g_passwd g) (g_stat g) (g_broadcast g) (g_host g) (g_connlist g).

Definition Game_Leave (g conn : nat) : M unit :=
  Client_SetGame conn None ;;
  edit_game g (fun gm => set_g_connlist (list_erase conn (g_connlist gm)) gm) ;;
  gm ← game g;
  if decide (g_host gm = Some conn) then
    match g_connlist gm with
    | h :: _ => edit_game g (set_g_host (Some h))
    | [] => GameCache_Remove (g_name gm)
    end
  else mret tt.

(** ** [ChannelCache] *)

Definition Channel_Leave (h conn : nat) : M unit :=
  edit_channel h (fun ch => set_h_connset (set_erase conn (h_connset ch)) ch) ;;
  ch ← channel h;
  SendSet (h_connset ch) (Some conn) MsgLeave [] true ;; mret tt.

Definition leave_game (conn : nat) : M unit :=
  c ← client conn; match c_game c with None => mret tt | Some g => Game_Leave g conn end.
Definition leave_channel (conn : nat) : M unit :=
  c ← client conn; match c_channel c with None => mret tt | Some h => Channel_Leave h conn end.

Definition Channel_Join (h conn : nat) : M unit :=
  leave_game conn ;;
  leave_channel conn ;;
  Client_SetChannel conn (Some h) ;;
  edit_channel h (fun ch => set_h_connset (set_insert conn (h_connset ch)) ch) ;;
  ch ← channel h;
  Send (Some conn) None MsgChannel (h_name ch) ;;
  SendSet (h_connset ch) (Some conn) MsgJoin [] true ;;
  for_each (h_connset ch) (fun it => Send (Some conn) (Some it) MsgJoin [] ;; mret tt).

Definition Channel_Broadcast (h : nat) (msg : bytes) : M unit :=
  ch ← channel h; SendSet (h_connset ch) None MsgInfo msg true ;; mret tt.
Definition Channel_Emote (h c : nat) (msg : bytes) : M unit :=
  ch ← channel h; SendSet (h_connset ch) (Some c) MsgEmote msg true ;; mret tt.
Definition Channel_Talk (h c : nat) (msg : bytes) : M unit :=
  ch ← channel h; SendSet (h_connset ch) (Some c) MsgTalk msg true ;; mret tt.

(** [GameCacheItem::Join]: the new member is in the list before it leaves its
    former game, which may be the same one. *)
Definition Game_Join (g conn : nat) : M unit :=
  edit_game g (fun gm =>
    let gm := match g_connlist gm with [] => set_g_host (Some conn) gm | _ => gm end in
    set_g_connlist (g_connlist gm ++ [conn]) gm) ;;
  leave_game conn ;;
  leave_channel conn ;;
  Client_SetGame conn (Some g).

(** ** [ClientPool] and the life of a connection *)

Definition Pool_Add (p : nat) : M unit :=
  c ← client p;
  match c_user c with
  | None => mret tt
  | Some u => a ← account u; modify (fun w => set_w_clientMap (om_insert ci_ltb (u_username a) p (w_clientMap w)) w)
  end.
Definition Pool_AddByToken (p : nat) : M unit :=
  c ← client p; modify (fun w => set_w_tokenMap (om_insert Z.ltb (c_token c) p (w_tokenMap w)) w).
(** [Remove(std::string)] looks the client up to erase its token too. *)
Definition Pool_Remove_name (name : bytes) : M unit :=
  r ← pool_name name;
  match r with
  | None => mret tt
  | Some q =>
      c ← client q;
      modify (fun w => set_w_tokenMap (om_erase Z.ltb (c_token c) (w_tokenMap w)) w) ;;
      modify (fun w => set_w_clientMap (om_erase ci_ltb name (w_clientMap w)) w)
  end.
Definition Pool_Remove_uint (s : Z) : M unit :=
  modify (fun w => set_w_tokenMap (om_erase Z.ltb s (w_tokenMap w)) w).

(** [new Client(fd)]: the token is random, the address that of the peer, the
    proofs uninitialised. *)
Definition new_Client (token ip : Z) (junk1 junk2 : bytes) : M nat :=
  p ← get w_alloc;
  session ← get (fun w => u32 (w_current_session w + 1));
  modify (fun w =>
    set_w_current_session session
      (set_w_alloc (p + 1)%nat
        (set_w_clients (<[p := mkClient CONNECTED 0 0 0 0 0 0 0 0 ip 0 0 0 0 0 session token UF_NOUDP [] []
                                 None None None [] junk1 junk2 [] [] []]> (w_clients w)) w))) ;;
  Pool_AddByToken p ;;
  mret p.

(** The destructor. *)
Definition delete_Client (p : nat) : M unit :=
  leave_game p ;;
  leave_channel p ;;
  c ← client p;
  match c_user c with
  | Some u => a ← account u; Pool_Remove_name (u_username a)
  | None => Pool_Remove_uint (c_session c)
  end ;;
  modify (fun w => set_w_clients (delete p (w_clients w)) w).

Definition SetUser (p : nat) (u : option nat) : M unit :=
  c ← client p;
  match c_user c with
  | Some u0 => a ← account u0; Pool_Remove_name (u_username a)
  | None => mret tt
  end ;;
  edit_client p (set_c_user u) ;;
  match u with Some _ => Pool_Add p | None => mret tt end.

(** ** The channel table *)

Definition new_Channel (shortname name : bytes) (gameid flag maxUser : Z) (byCountry byIndex : bool) : Channel :=
  mkChannel [] name shortname gameid flag maxUser byCountry byIndex false.

(** A new object; [Spawn] copies the parent's settings. *)
Definition alloc_Channel (ch : Channel) : M nat :=
  h ← get w_alloc;
  modify (fun w => set_w_alloc (h + 1)%nat (set_w_channels (<[h := ch]> (w_channels w)) w)) ;; mret h.
Definition Spawn (h : nat) (name : bytes) : M nat :=
  ch ← channel h;
  alloc_Channel (set_h_spawned true
    (new_Channel (h_short ch) name (h_gameid ch) (h_flag ch) (h_maxUser ch) false false)).

Definition ChannelCache_index (name : bytes) : M (option nat) :=
  get (fun w => om_find ci_ltb name (w_channelmap w)).
Definition game_channels (tag : Z) (w : World S) : list nat :=
  match om_find Z.ltb tag (w_game_channelmap w) with Some l => l | None => [] end.
(** [operator[](uint)] inserts an empty list for a new tag. *)
Definition ChannelCache_tag (tag : Z) : M (list nat) :=
  l ← get (game_channels tag);
  modify (fun w => set_w_game_channelmap (om_insert Z.ltb tag l (w_game_channelmap w)) w) ;; mret l.

Definition ChannelCache_Add (h : nat) : M unit :=
  ch ← channel h;
  modify (fun w => set_w_channelmap (om_insert ci_ltb (h_short ch) h (w_channelmap w)) w) ;;
  when (negb (strcmpi (h_short ch) (h_name ch) =? 0))
    (modify (fun w => set_w_channelmap (om_insert ci_ltb (h_name ch) h (w_channelmap w)) w)) ;;
  modify (fun w => set_w_game_channelmap
    (om_insert Z.ltb (h_gameid ch) (game_channels (h_gameid ch) w ++ [h]) (w_game_channelmap w)) w).

Definition ChannelCache_New (shortname name : bytes) (tag flag maxUser : Z) (byCountry byIndex : bool) : M nat :=
  h ← alloc_Channel (new_Channel shortname name tag flag maxUser byCountry byIndex);
  ChannelCache_Add h ;; mret h.

(** [GetUserCount() < GetMaxUser()]. *)
Definition has_room (ch : Channel) : bool := u32 (Z.of_nat (length (h_connset ch))) <? h_maxUser ch.

(** The [while(1)] of [Ensure]: the first index whose channel does not exist
    or has room. *)
Fixpoint ensure_index (fuel : nat) (h : nat) (newname : bytes) (idx : Z) : M nat :=
  match fuel with
  | O => fun _ => NoFuel
  | Datatypes.S fuel' =>
      newname2 ← lift (deref (append_int (newname ++ b# "-") idx));
      r ← ChannelCache_index newname2;
      match r with
      | None => h2 ← Spawn h newname2; ChannelCache_Add h2 ;; mret h2
      | Some h2 => ch2 ← channel h2; if has_room ch2 then mret h2 else ensure_index fuel' h newname (idx + 1)
      end
  end.

Definition Ensure (fuel : nat) (name : bytes) (tag : Z) (country : bytes) : M (option nat) :=
  r ← ChannelCache_index name;
  match r with
  | None => h ← ChannelCache_New name name tag 0 100 false false; mret (Some h)
  | Some h =>
      ch ← channel h;
      let newname := if h_byCountry ch then h_name ch ++ b# " " ++ country else [] in
      if h_byIndex ch then
        let newname := if Nat.eqb (length newname) 0 then h_name ch else newname in
        h2 ← ensure_index fuel h newname 1; mret (Some h2)
      else if Nat.ltb 0 (length newname) then
        r2 ← ChannelCache_index newname;
        match r2 with
        | None => h2 ← Spawn h newname; ChannelCache_Add h2 ;; mret (Some h2)
        | Some h2 => ch2 ← channel h2; mret (if has_room ch2 then Some h2 else None)
        end
      else mret (if has_room ch then Some h else None)
  end.

(** [Remove] drops the two references of the tables; the object is not taken
    out of the heap here, and no caller in the server removes a channel. *)
Definition ChannelCache_Remove (name : bytes) : M unit :=
  r ← ChannelCache_index name;
  match r with
  | None => mret tt
  | Some h =>
      ch ← channel h;
      l ← ChannelCache_tag (h_gameid ch);
      modify (fun w => set_w_game_channelmap
        (om_insert Z.ltb (h_gameid ch) (list_erase h l) (w_game_channelmap w)) w) ;;
      modify (fun w => set_w_channelmap (om_erase ci_ltb name (w_channelmap w)) w)
  end.
Definition ChannelCache_Remove_ptr (h : nat) : M unit := ch ← channel h; ChannelCache_Remove (h_name ch).
End chat.
