(* ===== verification/ChatInv.v ===== *)
(** * ChatInv: who is where

    The invariant of the shared state that channels, games and connections
    keep, and the delivery of messages. *)

From Stdlib Require Import Sorted.
From S2P Require Import Prelude Words Stream OMap CStr NumFmt Storage UserItem UserCache Framing Packets World Chat.

Section deliver.
Context {S : Type}.
Implicit Types (w : World S).

Definition add_out (l : list (nat * bytes)) w : World S := set_w_out (w_out w ++ l) w.

(** A live client whose account and channel, if any, are live. *)
Definition client_ok w (p : nat) : Prop :=
  exists c, w_clients w !! p = Some c /\
    (forall u, c_user c = Some u -> is_Some (uc_heap (w_uc w) !! u)) /\
    (forall h, c_channel c = Some h -> is_Some (w_channels w !! h)).
Definition sender_ok w (cl : option nat) : Prop := forall p, cl = Some p -> client_ok w p.

Lemma client_eq p c w : w_clients w !! p = Some c -> client p w = Ret (c, w).
Proof. intros H. unfold client. by rewrite H. Qed.
Lemma account_eq p u w : uc_heap (w_uc w) !! p = Some u -> account p w = Ret (u, w).
Proof. intros H. unfold account. by rewrite H. Qed.
Lemma channel_eq p c w : w_channels w !! p = Some c -> channel p w = Ret (c, w).
Proof. intros H. unfold channel. by rewrite H. Qed.
Lemma game_eq p g w : w_games w !! p = Some g -> game p w = Ret (g, w).
Proof. intros H. unfold game. by rewrite H. Qed.

Lemma GetUsername_total p w : client_ok w p -> exists n, GetUsername p w = Ret (n, w).
Proof.
  intros (c & Hc & Hu & _). unfold GetUsername. unfold mbind, M_bind. rewrite (client_eq _ _ _ Hc).
  destruct (c_user c) as [u|]; [|by eexists]. destruct (Hu u eq_refl) as [a Ha].
  rewrite (account_eq _ _ _ Ha). by eexists.
Qed.

Lemma GetFlag_total p w : client_ok w p -> exists f, Client_GetFlag p w = Ret (f, w).
Proof.
  intros (c & Hc & Hu & _). unfold Client_GetFlag, mbind, M_bind. rewrite (client_eq _ _ _ Hc).
  destruct (c_user c) as [u|]; [|by eexists]. destruct (Hu u eq_refl) as [a Ha].
  rewrite (account_eq _ _ _ Ha). by eexists.
Qed.

Lemma BuildMessagePacket_total cl type msg w :
  sender_ok w cl -> exists b, BuildMessagePacket cl type msg w = Ret (Some b, w).
Proof.
  intros Hok. unfold BuildMessagePacket, mbind, M_bind.
  destruct cl as [p|]; [|destruct (_ || _); eexists; reflexivity].
  destruct (Hok p eq_refl) as (c & Hc & Hu & Hh).
  rewrite (client_eq _ _ _ Hc). destruct (GetUsername_total p w) as [n Hn]; [by exists c|].
  destruct (GetFlag_total p w) as [f Hf]; [by exists c|].
  destruct (type =? MsgChannel).
  - destruct (c_channel c) as [h|].
    + destruct (Hh h eq_refl) as [ch Hch]. rewrite (channel_eq _ _ _ Hch). simpl. rewrite Hn. simpl.
      destruct (_ || _); simpl; [rewrite (client_eq _ _ _ Hc)|]; eexists; reflexivity.
    + simpl. rewrite Hn. simpl. destruct (_ || _); simpl; [rewrite (client_eq _ _ _ Hc)|]; eexists; reflexivity.
  - rewrite Hf. simpl. rewrite Hn. simpl.
    destruct (_ || _); simpl; [rewrite (client_eq _ _ _ Hc)|]; eexists; reflexivity.
Qed.

Lemma send_eq p b c w : w_clients w !! p = Some c -> send p b w = Ret (tt, add_out [(p, b)] w).
Proof. intros H. unfold send, mbind, M_bind. by rewrite (client_eq _ _ _ H). Qed.

Lemma Send_total t conn type msg w :
  client_ok w t -> sender_ok w conn -> type <> MsgWhisper ->
  exists b, Send (Some t) conn type msg w = Ret (true, add_out [(t, b)] w).
Proof.
  intros (c & Hc & _) Hok Hty. unfold Send. destruct (BuildMessagePacket_total conn type msg w Hok) as [b Hb].
  unfold mbind, M_bind. rewrite Hb, (send_eq _ _ _ _ Hc). destruct (Z.eqb_spec type MsgWhisper); [done|]. by exists b.
Qed.

(** The recipients of a message to a set. *)
Definition recipients (set : list nat) (cl : option nat) (ignoreSelf : bool) : list nat :=
  if ignoreSelf then base.filter (fun t => Some t <> cl) set else set.

Lemma SendToSet_eq b set cl ign : forall w,
  (forall t, t ∈ set -> is_Some (w_clients w !! t)) ->
  SendToSet b set cl ign w = Ret (tt, add_out ((fun t => (t, b)) <$> recipients set cl ign) w).
Proof.
  unfold SendToSet, recipients. induction set as [|t set IH]; intros w Hl; cbn [for_each].
  { destruct ign; unfold add_out; destruct w; simpl; by rewrite app_nil_r. }
  unfold mbind, M_bind. destruct ign; simpl.
  - rewrite filter_cons. destruct (bool_decide (Some t = cl)) eqn:E.
    + apply bool_decide_eq_true in E. rewrite decide_False by (by intros H). simpl.
      rewrite IH; [done|]. intros t' Ht'. apply Hl. by right.
    + apply bool_decide_eq_false in E. rewrite decide_True by done.
      destruct (Hl t ltac:(left)) as [c Hc]. rewrite (send_eq _ _ _ _ Hc), IH.
      * unfold add_out. destruct w; simpl. by rewrite <- app_assoc.
      * intros t' Ht'. destruct w; simpl. apply Hl. by right.
  - destruct (Hl t ltac:(left)) as [c Hc]. rewrite (send_eq _ _ _ _ Hc), IH.
    + unfold add_out. destruct w; simpl. by rewrite <- app_assoc.
    + intros t' Ht'. destruct w; simpl. apply Hl. by right.
Qed.

Lemma SendSet_total set conn type msg ign w :
  (forall t, t ∈ set -> is_Some (w_clients w !! t)) -> sender_ok w conn -> type <> MsgWhisper ->
  exists b, BuildMessagePacket conn type msg w = Ret (Some b, w) /\
    SendSet set conn type msg ign w = Ret (true, add_out ((fun t => (t, b)) <$> recipients set conn ign) w).
Proof.
  intros Hl Hok Hty. unfold SendSet. destruct (BuildMessagePacket_total conn type msg w Hok) as [b Hb]. exists b.
  split; [done|]. unfold mbind, M_bind. rewrite Hb, (SendToSet_eq _ _ _ _ _ Hl).
  by destruct (Z.eqb_spec type MsgWhisper).
Qed.
End deliver.

(** ** Lists as the loops edit them *)

Lemma list_erase_elem x y l : NoDup l -> y ∈ list_erase x l <-> y ∈ l /\ y <> x.
Proof.
  induction 1 as [|z l Hz Hl IH]; simpl; [set_solver|]. btest; [|set_solver]. subst. set_solver.
Qed.
Lemma list_erase_subset x y l : y ∈ list_erase x l -> y ∈ l.
Proof. induction l as [|z l IH]; simpl; [done|]. btest; set_solver. Qed.
Lemma list_erase_other x y l : y <> x -> y ∈ l -> y ∈ list_erase x l.
Proof. intros Hne. induction l as [|z l IH]; simpl; [done|]. btest; set_solver. Qed.
Lemma list_erase_NoDup x l : NoDup l -> NoDup (list_erase x l).
Proof.
  induction 1 as [|z l Hz Hl IH]; simpl; [constructor|]. btest; [done|]. constructor; [|done].
  intros H. by apply list_erase_subset in H.
Qed.
Lemma list_erase_app x l k : x ∈ l -> list_erase x (l ++ k) = list_erase x l ++ k.
Proof. induction l as [|z l IH]; simpl; [set_solver|]. intros H. btest; [done|]. simpl. rewrite IH; set_solver. Qed.

Lemma set_insert_elem x y l : y ∈ set_insert x l <-> y = x \/ y ∈ l.
Proof. induction l as [|z l IH]; simpl; [set_solver|]. repeat btest; set_solver. Qed.
Lemma set_erase_elem x y l : y ∈ set_erase x l <-> y ∈ l /\ y <> x.
Proof. unfold set_erase. rewrite list_elem_of_filter. tauto. Qed.
Lemma set_insert_sorted x l : StronglySorted lt l -> StronglySorted lt (set_insert x l).
Proof.
  induction 1 as [|z l Hl IH Hz]; simpl; [repeat constructor|].
  destruct (Nat.ltb_spec x z); [|destruct (Nat.eqb_spec x z)].
  - constructor; [by constructor|]. constructor; [done|]. eapply Forall_impl; [exact Hz|]. intros; simpl in *; lia.
  - by constructor.
  - constructor; [exact IH|]. apply Forall_forall. intros y [->|Hy]%set_insert_elem; [lia|].
    rewrite Forall_forall in Hz. auto.
Qed.
Lemma set_erase_sorted x l : StronglySorted lt l -> StronglySorted lt (set_erase x l).
Proof.
  unfold set_erase. induction 1 as [|z l Hl IH Hz]; [constructor|]. rewrite filter_cons. case_decide; [|done].
  constructor; [done|]. by apply Forall_filter_keep.
Qed.

(** ** The invariant *)

Section inv.
Context {S : Type}.
Implicit Types (w : World S).

(** The host of a game is one of its members; an empty game has none. *)
Definition host_ok (gm : Game) : Prop :=
  match g_connlist gm with
  | [] => g_host gm = None
  | _ => exists h, g_host gm = Some h /\ h ∈ g_connlist gm
  end.

(** A C string inside a [std::string]. *)
Definition no_nul (s : bytes) : Prop := Forall (fun x => x <> 0) s.

(** Pointers lead to live objects and agree in both directions: a member of a
    channel has that channel, members of a game are exactly the clients that
    have that game, and games are found by their names.  [ex] lists the memberships
    whose client does not point back yet, as inside [GameCacheItem::Join]. *)
Record world_okx (ex : list (nat * nat)) w : Prop := {
  wk_user : forall p c u, w_clients w !! p = Some c -> c_user c = Some u -> is_Some (uc_heap (w_uc w) !! u);
  wk_chan : forall p c h, w_clients w !! p = Some c -> c_channel c = Some h -> is_Some (w_channels w !! h);
  wk_ingame : forall p c g, w_clients w !! p = Some c -> c_game c = Some g ->
    exists gm, w_games w !! g = Some gm /\ p ∈ g_connlist gm;
  wk_member : forall h ch p, w_channels w !! h = Some ch -> p ∈ h_connset ch ->
    exists c, w_clients w !! p = Some c /\ c_channel c = Some h;
  wk_sorted : forall h ch, w_channels w !! h = Some ch -> StronglySorted lt (h_connset ch);
  wk_nodup : forall g gm, w_games w !! g = Some gm -> NoDup (g_connlist gm);
  wk_player : forall g gm p, w_games w !! g = Some gm -> p ∈ g_connlist gm ->
    exists c, w_clients w !! p = Some c /\ (c_game c = Some g \/ (g, p) ∈ ex);
  wk_host : forall g gm, w_games w !! g = Some gm -> host_ok gm;
  wk_named : forall g gm, w_games w !! g = Some gm -> om_find ci_ltb (g_name gm) (w_game_map w) = Some g;
  wk_gmap : forall n g, om_find ci_ltb n (w_game_map w) = Some g ->
    exists gm, w_games w !! g = Some gm /\ ci_key (g_name gm) = ci_key n;
  wk_fresh_c : forall p, is_Some (w_clients w !! p) -> (p < w_alloc w)%nat;
  wk_fresh_h : forall p, is_Some (w_channels w !! p) -> (p < w_alloc w)%nat;
  wk_fresh_g : forall p, is_Some (w_games w !! p) -> (p < w_alloc w)%nat;
  wk_text : forall h ch, w_channels w !! h = Some ch -> no_nul (h_name ch)
}.
Definition world_ok w : Prop := world_okx [] w.

Lemma okx_add_out ex l w : world_okx ex w -> world_okx ex (add_out l w).
Proof. intros []. unfold add_out. destruct w. by constructor. Qed.

Lemma ok_player g gm p w : world_ok w -> w_games w !! g = Some gm -> p ∈ g_connlist gm ->
  exists c, w_clients w !! p = Some c /\ c_game c = Some g.
Proof.
  intros Hok Hg Hp. destruct (wk_player _ _ Hok g gm p Hg Hp) as (c & Hc & [E|E]); [by eauto|].
  by apply not_elem_of_nil in E.
Qed.

Lemma okx_client_ok ex w p c : world_okx ex w -> w_clients w !! p = Some c -> client_ok w p.
Proof. intros Hok Hc. exists c. split; [done|]. split; intros; [by eapply wk_user|by eapply wk_chan]. Qed.

(** Changing a client so that channels and games still agree with it. *)
Lemma okx_edit_client ex ex' p c c' w :
  world_okx ex w -> w_clients w !! p = Some c ->
  (forall u, c_user c' = Some u -> is_Some (uc_heap (w_uc w) !! u)) ->
  (forall h, c_channel c' = Some h -> is_Some (w_channels w !! h)) ->
  (forall h ch, w_channels w !! h = Some ch -> p ∈ h_connset ch -> c_channel c' = Some h) ->
  (forall g, c_game c' = Some g -> exists gm, w_games w !! g = Some gm /\ p ∈ g_connlist gm) ->
  (forall g gm, w_games w !! g = Some gm -> p ∈ g_connlist gm -> c_game c' = Some g \/ (g, p) ∈ ex') ->
  (forall g q, q <> p -> (g, q) ∈ ex -> (g, q) ∈ ex') ->
  world_okx ex' (set_w_clients (<[p := c']> (w_clients w)) w).
Proof.
  intros [A1 A2 A3 A4 A5 A6 A7 A8 A9 A10 A11 A12 A13 A14] Hc Hu Hh Hm Hg Hp Hex. destruct w; cbn in *.
  constructor; cbn; try done.
  - intros q d u Hq. apply lookup_insert_Some in Hq as [[<- <-]|[_ Hq]]; eauto.
  - intros q d h Hq. apply lookup_insert_Some in Hq as [[<- <-]|[_ Hq]]; eauto.
  - intros q d g Hq. apply lookup_insert_Some in Hq as [[<- <-]|[_ Hq]]; eauto.
  - intros h ch q Hch Hq. rewrite lookup_insert. case_decide as E; [subst|eauto].
    eexists. split; [done|]. eauto.
  - intros g gm q Hgm Hq. rewrite lookup_insert. case_decide as E; [subst q; eexists; split; [done|]; eauto|].
    destruct (A7 g gm q Hgm Hq) as (d & Hd & Hor). exists d. split; [done|]. destruct Hor; [by left|right]. eauto.
  - intros q Hq. apply A11. rewrite lookup_insert in Hq. case_decide; [subst; by eexists|done].
Qed.

(** Replacing a game by one of the same name. *)
Lemma okx_set_game ex ex' g gm gm' w :
  world_okx ex w -> w_games w !! g = Some gm -> g_name gm' = g_name gm -> NoDup (g_connlist gm') -> host_ok gm' ->
  (forall q, q ∈ g_connlist gm' -> exists c, w_clients w !! q = Some c /\ (c_game c = Some g \/ (g, q) ∈ ex')) ->
  (forall q c, w_clients w !! q = Some c -> c_game c = Some g -> q ∈ g_connlist gm') ->
  (forall g' q, g' <> g -> (g', q) ∈ ex -> (g', q) ∈ ex') ->
  world_okx ex' (set_w_games (<[g := gm']> (w_games w)) w).
Proof.
  intros [A1 A2 A3 A4 A5 A6 A7 A8 A9 A10 A11 A12 A13 A14] Hg Hn Hnd Hh Hm Hin Hex. destruct w; cbn in *.
  constructor; cbn; try done.
  - intros p c g' Hc Hcg. rewrite lookup_insert. case_decide as E; [|eauto]. subst g'. eexists. split; [done|]. eauto.
  - intros g' gm0 H0. apply lookup_insert_Some in H0 as [[<- <-]|[_ H0]]; eauto.
  - intros g' gm0 p H0 Hp. apply lookup_insert_Some in H0 as [[<- <-]|[Hne H0]]; [eauto|].
    destruct (A7 g' gm0 p H0 Hp) as (c & Hc & [E|E]); exists c; split; try done; [by left|right]. auto.
  - intros g' gm0 H0. apply lookup_insert_Some in H0 as [[<- <-]|[_ H0]]; eauto.
  - intros g' gm0 H0. apply lookup_insert_Some in H0 as [[<- <-]|[_ H0]]; [rewrite Hn|]; eauto.
  - intros n g' Hf. destruct (A10 n g' Hf) as (gm0 & H0 & Hk). rewrite lookup_insert. case_decide as E; [|eauto].
    subst g'. eexists. split; [done|]. rewrite Hn. congruence.
  - intros g' Hs. rewrite lookup_insert in Hs. case_decide; [subst; eauto|eauto].
Qed.

(** Removing a game without members. *)
Lemma okx_delete_game ex ex' g gm w :
  world_okx ex w -> w_games w !! g = Some gm ->
  (forall q c, w_clients w !! q = Some c -> c_game c <> Some g) ->
  (forall g' q, g' <> g -> (g', q) ∈ ex -> (g', q) ∈ ex') ->
  world_okx ex' (set_w_games (delete g (w_games w)) (set_w_game_map (om_erase ci_ltb (g_name gm) (w_game_map w)) w)).
Proof.
  intros [A1 A2 A3 A4 A5 A6 A7 A8 A9 A10 A11 A12 A13 A14] Hg Hno Hex. destruct w; cbn in *.
  pose proof (A9 g gm Hg) as Hname. constructor; cbn; try done.
  - intros p c g' Hc Hcg. rewrite lookup_delete_ne by (intros ->; by destruct (Hno p c Hc)). eauto.
  - intros g' gm0 H0. apply lookup_delete_Some in H0 as [_ H0]. eauto.
  - intros g' gm0 p H0 Hp. apply lookup_delete_Some in H0 as [Hne H0].
    destruct (A7 g' gm0 p H0 Hp) as (c & Hc & [E|E]); exists c; split; try done; [by left|right]. auto.
  - intros g' gm0 H0. apply lookup_delete_Some in H0 as [_ H0]. eauto.
  - intros g' gm0 H0. apply lookup_delete_Some in H0 as [Hne H0]. rewrite find_names_erase.
    pose proof (A9 g' gm0 H0) as Hn'. case_decide as E; [|done]. rewrite (om_find_ci _ _ _ E) in Hname. congruence.
  - intros n g' Hn. rewrite find_names_erase in Hn. case_decide as E; [done|].
    destruct (A10 n g' Hn) as (gm0 & H0 & Hk). exists gm0. rewrite lookup_delete. case_decide as E'; [|done].
    subst g'. destruct E. congruence.
  - intros g' [gm0 H0]. apply lookup_delete_Some in H0 as [_ H0]. eauto.
Qed.

(** What [GameCacheItem::Leave] leaves of the game. *)
Definition game_after (p : nat) (gm : Game) : option Game :=
  let gm' := set_g_connlist (list_erase p (g_connlist gm)) gm in
  if decide (g_host gm = Some p) then
    match list_erase p (g_connlist gm) with
    | [] => None
    | h :: _ => Some (set_g_host (Some h) gm')
    end
  else Some gm'.

Definition leave_world (g p : nat) (c : Client) (gm : Game) w : World S :=
  let w := set_w_clients (<[p := set_c_game None c]> (w_clients w)) w in
  match game_after p gm with
  | Some gm' => set_w_games (<[g := gm']> (w_games w)) w
  | None => set_w_games (delete g (w_games w)) (set_w_game_map (om_erase ci_ltb (g_name gm) (w_game_map w)) w)
  end.

Lemma set_g_connlist_proj l gm :
  g_connlist (set_g_connlist l gm) = l /\ g_host (set_g_connlist l gm) = g_host gm /\
  g_name (set_g_connlist l gm) = g_name gm.
Proof. by destruct gm. Qed.
Lemma set_g_host_proj h gm :
  g_connlist (set_g_host h gm) = g_connlist gm /\ g_host (set_g_host h gm) = h /\
  g_name (set_g_host h gm) = g_name gm.
Proof. by destruct gm. Qed.

Lemma Game_Leave_eq g p c gm w :
  w_clients w !! p = Some c -> w_games w !! g = Some gm ->
  om_find ci_ltb (g_name gm) (w_game_map w) = Some g ->
  Game_Leave g p w = Ret (tt, leave_world g p c gm w).
Proof.
  intros Hc Hg Hn. unfold Game_Leave, leave_world, game_after, Client_SetGame, edit_client, edit_game, mbind, M_bind.
  rewrite (client_eq _ _ _ Hc). unfold modify. destruct w as [cs chs gs al ses cm tm hm gcm gmap0 uc out].
  cbn [set_w_clients w_clients w_games w_game_map] in *. unfold game at 1. cbn [w_games]. rewrite Hg.
  cbn [set_w_games]. unfold game at 1. cbn [w_games]. rewrite lookup_insert_eq.
  destruct (set_g_connlist_proj (list_erase p (g_connlist gm)) gm) as (E1 & E2 & E3). rewrite E2.
  case_decide as Hh; [|done]. rewrite E1, E3. destruct (list_erase p (g_connlist gm)) as [|h l] eqn:El.
  - unfold GameCache_Remove, get, mbind, M_bind. cbn [w_game_map]. rewrite Hn. unfold modify. cbn [set_w_game_map].
    unfold Game_delete, mbind, M_bind, game. cbn [w_games]. rewrite lookup_insert_eq, E1. cbn [for_each mret M_ret].
    unfold modify. cbn [set_w_games w_games]. by rewrite delete_insert_eq.
  - unfold game. cbn [w_games]. rewrite lookup_insert_eq. cbn [set_w_games w_games]. by rewrite insert_insert_eq.
Qed.

Lemma set_c_game_proj v c :
  c_game (set_c_game v c) = v /\ c_user (set_c_game v c) = c_user c /\ c_channel (set_c_game v c) = c_channel c.
Proof. by destruct c. Qed.
Lemma set_c_channel_proj v c :
  c_channel (set_c_channel v c) = v /\ c_user (set_c_channel v c) = c_user c /\ c_game (set_c_channel v c) = c_game c.
Proof. by destruct c. Qed.

(** The game that stays is a game without [p]. *)
Lemma game_after_spec p gm gm' :
  NoDup (g_connlist gm) -> host_ok gm -> game_after p gm = Some gm' ->
  g_name gm' = g_name gm /\ NoDup (g_connlist gm') /\ host_ok gm' /\
  (forall q, q ∈ g_connlist gm' <-> q ∈ g_connlist gm /\ q <> p).
Proof.
  intros Hnd Hhost. unfold game_after.
  destruct (set_g_connlist_proj (list_erase p (g_connlist gm)) gm) as (E1 & E2 & E3).
  set (gm1 := set_g_connlist _ gm) in *. pose proof (list_erase_NoDup p _ Hnd) as Hnd'.
  case_decide as Hh.
  - destruct (list_erase p (g_connlist gm)) as [|h l] eqn:El; [done|]. intros [= <-].
    destruct (set_g_host_proj (Some h) gm1) as (F1 & F2 & F3). rewrite F1, F3, E1, E3.
    split; [done|]. split; [done|]. split.
    + unfold host_ok. rewrite F1, F2, E1. exists h. split; [done|left].
    + intros q. rewrite <- El. by apply list_erase_elem.
  - intros [= <-]. rewrite E1, E3. split; [done|]. split; [done|].
    split; [|intros q; by apply list_erase_elem].
    unfold host_ok in *. rewrite E1, E2. destruct (g_connlist gm) as [|a k] eqn:Ek; [done|].
    destruct Hhost as (h & Hhh & Hin). assert (h <> p) by congruence.
    assert (h ∈ list_erase p (a :: k)) as Hin' by (by apply list_erase_other).
    destruct (list_erase p (a :: k)) as [|b k'] eqn:Eb; [by apply not_elem_of_nil in Hin'|]. by exists h.
Qed.

(** When nobody is left, [p] was the only member. *)
Lemma game_after_None p gm :
  NoDup (g_connlist gm) -> game_after p gm = None -> forall q, q ∈ g_connlist gm -> q = p.
Proof.
  intros Hnd. unfold game_after. case_decide as Hh; [|done].
  destruct (list_erase p (g_connlist gm)) as [|h l] eqn:El; [|done]. intros _ q Hq.
  destruct (decide (q = p)) as [|Hne]; [done|]. pose proof (list_erase_other p q _ Hne Hq) as H.
  rewrite El in H. by apply not_elem_of_nil in H.
Qed.

Lemma leave_world_ok ex g p c gm w :
  world_okx ex w -> w_clients w !! p = Some c -> w_games w !! g = Some gm -> c_game c = Some g ->
  (forall q, (g, q) ∉ ex) -> world_okx ex (leave_world g p c gm w).
Proof.
  intros Hok Hc Hg Hcg Hex. destruct (set_c_game_proj None c) as (P1 & P2 & P3).
  pose proof (wk_nodup _ _ Hok _ _ Hg) as Hnd. pose proof (wk_host _ _ Hok _ _ Hg) as Hhost.
  unfold leave_world. set (w1 := set_w_clients _ w). cbv zeta.
  assert (world_okx ((g, p) :: ex) w1) as Hok1.
  { apply okx_edit_client with (ex := ex) (c := c); try done.
    - rewrite P2. intros. by eapply wk_user.
    - rewrite P3. intros. by eapply wk_chan.
    - rewrite P3. intros h ch Hch Hp. destruct (wk_member _ _ Hok h ch p Hch Hp) as (c' & Hc' & E). congruence.
    - by rewrite P1.
    - intros g' gm1 Hgm Hp. right. destruct (wk_player _ _ Hok g' gm1 p Hgm Hp) as (c' & Hc' & [E|E]); [|by right].
      assert (g' = g) as -> by congruence. left.
    - intros g' q _ Hq. by right. }
  assert (w_games w1 !! g = Some gm) as Hg1 by (subst w1; by destruct w).
  assert (forall q d, w_clients w1 !! q = Some d -> c_game d = Some g -> q ∈ g_connlist gm /\ q <> p) as Hin.
  { intros q d Hd Hdg. destruct (wk_ingame _ _ Hok1 q d g Hd Hdg) as (gm0 & H0 & Hq). split; [congruence|].
    intros ->. subst w1. destruct w; cbn in Hd. rewrite lookup_insert_eq in Hd. congruence. }
  assert (forall g' q, g' <> g -> (g', q) ∈ (g, p) :: ex -> (g', q) ∈ ex) as Hex' by set_solver.
  destruct (game_after p gm) as [gm'|] eqn:Eg.
  - destruct (game_after_spec p gm gm' Hnd Hhost Eg) as (N1 & N2 & N3 & N4).
    apply okx_set_game with (ex := (g, p) :: ex) (gm := gm); try done.
    + intros q [Hq Hne]%N4. destruct (wk_player _ _ Hok1 g gm q Hg1 Hq) as (d & Hd & [E|E]); [by eauto|].
      exfalso. specialize (Hex q). set_solver.
    + intros q d Hd Hdg. apply N4. by eapply Hin.
  - apply okx_delete_game with (ex := (g, p) :: ex); try done.
    intros q d Hd Hdg. destruct (Hin q d Hd Hdg) as [Hq Hne]. by apply Hne, (game_after_None p gm).
Qed.
End inv.
