(* ===== verification/ChatOps.v ===== *)
(** * ChatOps: every chat operation keeps the invariant

    For each operation of channels, games and connections: it returns, and the
    state it returns satisfies [world_ok]. *)

From Stdlib Require Import Sorted.
From S2P Require Import Prelude Words Stream OMap CStr NumFmt Storage UserItem UserCache Framing Packets World Chat ChatInv.

Section ops.
Context {S : Type}.
Implicit Types (w : World S).

(** [m] returns from [w], and its final state satisfies [Q]. *)
Definition safe {A} (m : M S A) w (Q : A -> World S -> Prop) : Prop :=
  exists a w', m w = Ret (a, w') /\ Q a w'.

Lemma safe_bind {A B} (m : M S A) (f : A -> M S B) w (Q : B -> World S -> Prop) R :
  safe m w R -> (forall a w', R a w' -> safe (f a) w' Q) -> safe (mbind f m) w Q.
Proof.
  intros (a & w' & Hm & HR) Hf. destruct (Hf a w' HR) as (b & w'' & Hb & HQ). exists b, w''.
  split; [|done]. unfold mbind, M_bind. by rewrite Hm.
Qed.
Lemma safe_eq {A B} (m : M S A) (f : A -> M S B) w a w' (Q : B -> World S -> Prop) :
  m w = Ret (a, w') -> safe (f a) w' Q -> safe (mbind f m) w Q.
Proof. intros Hm (b & w'' & Hb & HQ). exists b, w''. split; [|done]. unfold mbind, M_bind. by rewrite Hm. Qed.
Lemma bind_eq {A B} (m : M S A) (f : A -> M S B) w a w' : m w = Ret (a, w') -> mbind f m w = f a w'.
Proof. intros Hm. unfold mbind, M_bind. by rewrite Hm. Qed.
Lemma safe_ret {A} (a : A) w (Q : A -> World S -> Prop) : Q a w -> safe (mret a) w Q.
Proof. intros HQ. by exists a, w. Qed.
Lemma safe_mono {A} (m : M S A) w (Q R : A -> World S -> Prop) :
  safe m w R -> (forall a w', R a w' -> Q a w') -> safe m w Q.
Proof. intros (a & w' & Hm & HR) Hi. exists a, w'. auto. Qed.
Lemma edit_client_eq p c f w : w_clients w !! p = Some c ->
  edit_client p f w = Ret (tt, set_w_clients (<[p := f c]> (w_clients w)) w).
Proof. intros Hc. unfold edit_client, mbind, M_bind. by rewrite (client_eq _ _ _ Hc). Qed.
Lemma edit_channel_eq p c f w : w_channels w !! p = Some c ->
  edit_channel p f w = Ret (tt, set_w_channels (<[p := f c]> (w_channels w)) w).
Proof. intros Hc. unfold edit_channel, mbind, M_bind. by rewrite (channel_eq _ _ _ Hc). Qed.
Lemma edit_game_eq p c f w : w_games w !! p = Some c ->
  edit_game p f w = Ret (tt, set_w_games (<[p := f c]> (w_games w)) w).
Proof. intros Hc. unfold edit_game, mbind, M_bind. by rewrite (game_eq _ _ _ Hc). Qed.

(** What an operation on [p]'s behalf does not touch: the other clients, and of
    [p] everything but the game or the channel pointer. *)
Definition keeps (p : nat) w w' : Prop :=
  (w_alloc w', w_channelmap w', w_game_channelmap w') = (w_alloc w, w_channelmap w, w_game_channelmap w) /\
  w_uc w' = w_uc w /\ w_clientMap w' = w_clientMap w /\ w_tokenMap w' = w_tokenMap w /\
  (forall q, q <> p -> w_clients w' !! q = w_clients w !! q) /\
  (forall h, is_Some (w_channels w' !! h) <-> is_Some (w_channels w !! h)) /\
  (forall c, w_clients w !! p = Some c -> exists c', w_clients w' !! p = Some c' /\
     c_user c' = c_user c /\ c_token c' = c_token c /\ c_session c' = c_session c).

Lemma keeps_refl p w : keeps p w w.
Proof. repeat split; try done. intros c Hc. by exists c. Qed.
Lemma keeps_trans p w1 w2 w3 : keeps p w1 w2 -> keeps p w2 w3 -> keeps p w1 w3.
Proof.
  intros (A1 & A2 & A3 & A4 & A5 & A6 & A7) (B1 & B2 & B3 & B4 & B5 & B6 & B7).
  repeat split; try congruence.
  - intros q Hq. rewrite B5 by done. auto.
  - intros H. by apply A6, B6.
  - intros H. by apply B6, A6.
  - intros c Hc. destruct (A7 c Hc) as (c' & Hc' & E1 & E2 & E3). destruct (B7 c' Hc') as (c2 & Hc2 & F1 & F2 & F3).
    exists c2. split; [done|]. repeat split; congruence.
Qed.
Lemma keeps_add_out p l w : keeps p w (add_out l w).
Proof. unfold add_out. destruct w. repeat split; try done. intros c Hc. by exists c. Qed.

Lemma leave_world_keeps g p c gm w : w_clients w !! p = Some c -> keeps p w (leave_world g p c gm w).
Proof.
  intros Hc. unfold leave_world. destruct w; cbn in *. destruct (game_after p gm); cbn; repeat split; try done; cbn.
  all: try (intros q Hq; by rewrite lookup_insert_ne).
  all: intros c' Hc'; rewrite lookup_insert_eq; eexists; (split; [done|]); rewrite Hc in Hc'; injection Hc' as <-.
  all: by destruct c.
Qed.

Lemma leave_world_client g p c gm w :
  w_clients (leave_world g p c gm w) !! p = Some (set_c_game None c).
Proof. unfold leave_world. destruct w; cbn. destruct (game_after p gm); cbn; apply lookup_insert_eq. Qed.
Lemma leave_world_channels g p c gm w : w_channels (leave_world g p c gm w) = w_channels w.
Proof. unfold leave_world. destruct w; cbn. by destruct (game_after p gm). Qed.

(** [leave_game]: afterwards the client has no game. *)
Lemma leave_game_ok ex p c w :
  world_okx ex w -> w_clients w !! p = Some c -> (forall g q, (g, q) ∈ ex -> c_game c <> Some g) ->
  safe (leave_game p) w (fun _ w' => world_okx ex w' /\ keeps p w w' /\
    (exists c', w_clients w' !! p = Some c' /\ c_game c' = None /\ c_channel c' = c_channel c) /\
    (forall g q gm, (g, q) ∈ ex -> w_games w !! g = Some gm -> w_games w' !! g = Some gm)).
Proof.
  intros Hok Hc Hex. unfold leave_game.
  eapply safe_eq; [by apply client_eq|].
  destruct (c_game c) as [g|] eqn:Eg.
  - destruct (wk_ingame _ _ Hok p c g Hc Eg) as (gm & Hgm & Hin).
    exists tt, (leave_world g p c gm w).
    split; [apply Game_Leave_eq; [done..|by eapply wk_named]|].
    split; [apply leave_world_ok; try done; intros q E; by destruct (Hex g q E)|].
    split; [by apply leave_world_keeps|].
    split; [exists (set_c_game None c); split; [apply leave_world_client|]; by destruct c|].
    intros g' q gm' E H'. assert (g' <> g) by (intros ->; by destruct (Hex g q E)).
    unfold leave_world. destruct w; cbn in *. destruct (game_after p gm); cbn.
    + by rewrite lookup_insert_ne.
    + by rewrite lookup_delete_ne.
  - apply safe_ret. split; [done|]. split; [apply keeps_refl|]. split; [by exists c|done].
Qed.

(** Replacing a channel's member set by a smaller or larger one. *)
Lemma okx_set_members ex h ch l w :
  world_okx ex w -> w_channels w !! h = Some ch -> StronglySorted lt l ->
  (forall p, p ∈ l -> exists c, w_clients w !! p = Some c /\ c_channel c = Some h) ->
  world_okx ex (set_w_channels (<[h := set_h_connset l ch]> (w_channels w)) w).
Proof.
  intros [A1 A2 A3 A4 A5 A6 A7 A8 A9 A10 A11 A12 A13 A14] Hh Hl Hm. destruct w; cbn in *.
  assert (forall k, is_Some (<[h := set_h_connset l ch]> w_channels !! k) <-> is_Some (w_channels !! k)) as Hs.
  { intros k. rewrite lookup_insert. case_decide; [subst|done]. rewrite Hh. split; by eexists. }
  constructor; cbn; try done.
  - intros p c k Hc Hk. apply Hs. eauto.
  - intros k ch' p Hk Hp. apply lookup_insert_Some in Hk as [[<- <-]|[Hne Hk]]; [|eauto].
    destruct ch; cbn in Hp. eauto.
  - intros k ch' Hk. apply lookup_insert_Some in Hk as [[<- <-]|[Hne Hk]]; [by destruct ch|eauto].
  - intros k Hk. apply Hs in Hk. eauto.
  - intros k ch' Hk. apply lookup_insert_Some in Hk as [[<- <-]|[Hne Hk]]; [|eauto]. destruct ch. exact (A14 h _ Hh).
Qed.

Lemma members_alive ex h ch w :
  world_okx ex w -> w_channels w !! h = Some ch -> forall t, t ∈ h_connset ch -> is_Some (w_clients w !! t).
Proof. intros Hok Hh t Ht. destruct (wk_member _ _ Hok h ch t Hh Ht) as (c & Hc & _). by eexists. Qed.

Lemma set_h_connset_proj l ch :
  h_connset (set_h_connset l ch) = l /\ h_name (set_h_connset l ch) = h_name ch.
Proof. by destruct ch. Qed.

(** [Channel_Leave]: the member is out of the set and the others are told; its
    channel pointer stays. *)
Lemma Channel_Leave_ok ex h ch p w :
  world_okx ex w -> is_Some (w_clients w !! p) -> w_channels w !! h = Some ch ->
  safe (Channel_Leave h p) w (fun _ w' => world_okx ex w' /\ keeps p w w' /\ w_clients w' = w_clients w /\
    w_games w' = w_games w /\
    exists ch', w_channels w' !! h = Some ch' /\ h_connset ch' = set_erase p (h_connset ch)).
Proof.
  intros Hok [c Hc] Hh. unfold Channel_Leave. set (l := set_erase p (h_connset ch)).
  set (w1 := set_w_channels (<[h := set_h_connset l ch]> (w_channels w)) w).
  assert (world_okx ex w1) as Hok1.
  { apply okx_set_members; [done|done|apply set_erase_sorted; by eapply wk_sorted|].
    intros q [Hq _]%set_erase_elem. by eapply wk_member. }
  assert (w_channels w1 !! h = Some (set_h_connset l ch)) as Hh1 by (subst w1; destruct w; cbn; apply lookup_insert_eq).
  assert (w_clients w1 = w_clients w) as Hc1 by (subst w1; by destruct w).
  eapply safe_eq; [by apply edit_channel_eq|]. fold l w1.
  eapply safe_eq; [by apply channel_eq|]. destruct (set_h_connset_proj l ch) as [-> _].
  destruct (SendSet_total l (Some p) MsgLeave [] true w1) as (b & _ & Hb).
  - pose proof (members_alive ex h _ w1 Hok1 Hh1) as H. by destruct (set_h_connset_proj l ch) as [E _]; rewrite E in H.
  - intros q [= <-]. eapply okx_client_ok; [done|by rewrite Hc1].
  - done.
  - eapply safe_eq; [exact Hb|]. apply safe_ret.
    split; [by apply okx_add_out|]. split; [|split; [by subst w1; destruct w|split; [by subst w1; destruct w|]]].
    + eapply keeps_trans; [|apply keeps_add_out]. subst w1. destruct w; cbn in *. repeat split; try done; cbn.
      * rewrite lookup_insert. case_decide; [subst; by eexists|done].
      * rewrite lookup_insert. case_decide; [subst; by eexists|done].
      * intros c' Hc'. by exists c'.
    + exists (set_h_connset l ch). split; [|by destruct ch]. subst w1. destruct w; cbn. apply lookup_insert_eq.
Qed.

(** [leave_channel]: afterwards no channel lists the client. *)
Lemma leave_channel_ok ex p c w :
  world_okx ex w -> w_clients w !! p = Some c ->
  safe (leave_channel p) w (fun _ w' => world_okx ex w' /\ keeps p w w' /\ w_clients w' = w_clients w /\
    w_games w' = w_games w /\ forall h ch, w_channels w' !! h = Some ch -> p ∉ h_connset ch).
Proof.
  intros Hok Hc. unfold leave_channel. eapply safe_eq; [by apply client_eq|].
  destruct (c_channel c) as [h|] eqn:Eh.
  - destruct (wk_chan _ _ Hok p c h Hc Eh) as [ch Hch].
    destruct (Channel_Leave_ok ex h ch p w Hok ltac:(by eexists) Hch)
      as (a & w' & Hm & Hok' & Hk & Hcl & Hg & ch' & Hch' & Hl).
    exists a, w'. split; [done|]. split_and!; try done. intros k chk Hk' Hin.
    destruct (wk_member _ _ Hok' k chk p Hk' Hin) as (c' & Hc' & Hcc). rewrite Hcl, Hc in Hc'. injection Hc' as <-.
    rewrite Eh in Hcc. injection Hcc as <-. rewrite Hch' in Hk'. injection Hk' as <-. rewrite Hl in Hin.
    apply set_erase_elem in Hin. naive_solver.
  - apply safe_ret. split; [done|]. split; [apply keeps_refl|]. split_and!; try done. intros k chk Hk' Hin.
    destruct (wk_member _ _ Hok k chk p Hk' Hin) as (c' & Hc' & Hcc). congruence.
Qed.

Lemma add_out_out o1 o2 w : add_out o2 (add_out o1 w) = add_out (o1 ++ o2) w.
Proof. unfold add_out. destruct w; cbn. by rewrite <- app_assoc. Qed.
Lemma client_ok_add_out o w p : client_ok w p -> client_ok (add_out o w) p.
Proof. unfold add_out. by destruct w. Qed.

Lemma for_each_Join_ok conn l : forall w,
  client_ok w conn -> (forall it, it ∈ l -> client_ok w it) ->
  exists o, for_each l (fun it => Send (Some conn) (Some it) MsgJoin [] ;; mret tt) w = Ret (tt, add_out o w).
Proof.
  induction l as [|it l IH]; intros w Hc Hl; cbn [for_each].
  { exists []. unfold add_out. destruct w; cbn. by rewrite app_nil_r. }
  destruct (Send_total conn (Some it) MsgJoin [] w Hc) as [b Hb]; [|done|].
  { intros q [= <-]. apply Hl. left. }
  destruct (IH (add_out [(conn, b)] w)) as [o Ho].
  - by apply client_ok_add_out.
  - intros it' Hit'. apply client_ok_add_out, Hl. by right.
  - exists ([(conn, b)] ++ o). erewrite bind_eq; [|by erewrite bind_eq; [|exact Hb]].
    rewrite Ho. by rewrite add_out_out.
Qed.

Lemma Channel_Join_ok p c h w :
  world_ok w -> w_clients w !! p = Some c -> is_Some (w_channels w !! h) ->
  safe (Channel_Join h p) w (fun _ w' => world_ok w' /\ keeps p w w' /\
    (exists c', w_clients w' !! p = Some c' /\ c_channel c' = Some h /\ c_game c' = None) /\
    exists ch', w_channels w' !! h = Some ch' /\ p ∈ h_connset ch').
Proof.
  intros Hok Hc Hh. unfold Channel_Join.
  eapply safe_bind; [apply leave_game_ok with (ex := []) (c := c); [done|done|set_solver]|].
  intros [] w1 (Hok1 & Hk1 & (c1 & Hc1 & Hg1 & Hch1) & _).
  eapply safe_bind; [by apply leave_channel_ok with (ex := []) (c := c1)|].
  intros [] w2 (Hok2 & Hk2 & Hcl2 & Hgm2 & Hout).
  assert (w_clients w2 !! p = Some c1) as Hc2 by (by rewrite Hcl2).
  assert (is_Some (w_channels w2 !! h)) as [ch Hch].
  { pose proof (keeps_trans _ _ _ _ Hk1 Hk2) as (_ & _ & _ & _ & _ & Hs & _). by apply Hs. }
  unfold Client_SetChannel. eapply safe_eq; [by apply edit_client_eq|].
  destruct (set_c_channel_proj (Some h) c1) as (P1 & P2 & P3).
  set (w3 := set_w_clients _ w2). assert (world_ok w3) as Hok3.
  { apply okx_edit_client with (ex := []) (c := c1); try done.
    - rewrite P2. intros u Hu. by eapply wk_user.
    - rewrite P1. intros k [= <-]. by eexists.
    - intros k chk Hk' Hin. by destruct (Hout k chk Hk').
    - rewrite P3, Hg1. done.
    - rewrite P3, Hg1. intros g gm Hgm Hin. destruct (ok_player g gm p w2 Hok2 Hgm Hin) as (c' & Hc' & E).
      congruence. }
  assert (w_channels w3 !! h = Some ch) as Hch3 by (subst w3; by destruct w2).
  assert (w_clients w3 !! p = Some (set_c_channel (Some h) c1)) as Hc3 by (subst w3; destruct w2; cbn; apply lookup_insert_eq).
  eapply safe_eq; [by apply edit_channel_eq|].
  set (l := set_insert p (h_connset ch)). set (w4 := set_w_channels _ w3).
  assert (world_ok w4) as Hok4.
  { apply okx_set_members; [done|done|apply set_insert_sorted; by eapply wk_sorted|].
    intros q [->|Hq]%set_insert_elem; [by eauto|]. by eapply wk_member. }
  assert (w_channels w4 !! h = Some (set_h_connset l ch)) as Hch4 by (subst w4; destruct w3; cbn; apply lookup_insert_eq).
  assert (w_clients w4 = w_clients w3) as Hcl4 by (subst w4; by destruct w3).
  eapply safe_eq; [by apply channel_eq|]. destruct (set_h_connset_proj l ch) as [E1 E2]. rewrite E1.
  assert (forall t, t ∈ l -> client_ok w4 t) as Hall.
  { intros t Ht. destruct (members_alive _ h _ w4 Hok4 Hch4 t) as [d Hd]; [by rewrite E1|]. by eapply okx_client_ok. }
  assert (client_ok w4 p) as Hp4 by (apply Hall, set_insert_elem; by left).
  destruct (Send_total p None MsgChannel (h_name (set_h_connset l ch)) w4 Hp4) as [b1 Hb1]; [done|done|].
  eapply safe_eq; [exact Hb1|]. set (w5 := add_out [(p, b1)] w4).
  destruct (SendSet_total l (Some p) MsgJoin [] true w5) as (b2 & _ & Hb2).
  { intros t Ht. destruct (client_ok_add_out [(p, b1)] w4 t (Hall t Ht)) as (d & Hd & _). by eexists. }
  { intros q [= <-]. by apply client_ok_add_out. }
  { done. }
  eapply safe_eq; [exact Hb2|]. set (w6 := add_out _ w5).
  destruct (for_each_Join_ok p l w6) as [o Ho].
  { by do 2 apply client_ok_add_out. }
  { intros it Hit. do 2 apply client_ok_add_out. by apply Hall. }
  exists tt, (add_out o w6). split; [exact Ho|]. subst w5 w6. rewrite !add_out_out.
  split; [by apply okx_add_out|]. split; [|split].
  - eapply keeps_trans; [exact Hk1|]. eapply keeps_trans; [exact Hk2|].
    eapply keeps_trans; [|apply keeps_add_out]. subst w3 w4. clear - Hc2 Hch. destruct w2; cbn in *.
    repeat split; try done; cbn.
    + intros q Hq. by rewrite lookup_insert_ne.
    + rewrite lookup_insert. case_decide; [subst; by eexists|done].
    + rewrite lookup_insert. case_decide; [subst; by eexists|done].
    + intros c' Hc'. rewrite lookup_insert_eq. eexists. split; [done|]. rewrite Hc2 in Hc'. injection Hc' as <-. by destruct c1.
  - exists (set_c_channel (Some h) c1). split; [|by rewrite P1, P3].
    unfold add_out. destruct w4; cbn in *. by rewrite Hcl4.
  - exists (set_h_connset l ch). split; [unfold add_out; by destruct w4|]. rewrite E1. apply set_insert_elem. by left.
Qed.

(** The game [GameCacheItem::Join] starts with. *)
Definition pushed (p : nat) (gm : Game) : Game :=
  let gm := match g_connlist gm with [] => set_g_host (Some p) gm | _ => gm end in
  set_g_connlist (g_connlist gm ++ [p]) gm.

Lemma pushed_proj p gm :
  g_connlist (pushed p gm) = g_connlist gm ++ [p] /\ g_name (pushed p gm) = g_name gm /\
  g_host (pushed p gm) = (match g_connlist gm with [] => Some p | _ => g_host gm end).
Proof. unfold pushed. destruct gm as [? ? ? ? ? ? ? ? ? ? [|]]; done. Qed.

Lemma pushed_host p gm : host_ok gm -> host_ok (pushed p gm).
Proof.
  unfold host_ok. destruct (pushed_proj p gm) as (E1 & _ & E3). rewrite E1, E3.
  destruct (g_connlist gm) as [|a l]; simpl.
  - intros _. exists p. split; [done|left].
  - intros (h & Hh & Hin). exists h. split; [done|]. rewrite app_comm_cons. apply elem_of_app. by left.
Qed.

(** A member who joins again moves to the end of the list. *)
Lemma rejoin_after p gm :
  NoDup (g_connlist gm) -> p ∈ g_connlist gm -> host_ok gm ->
  exists gm', game_after p (pushed p gm) = Some gm' /\ g_name gm' = g_name gm /\ NoDup (g_connlist gm') /\ host_ok gm' /\
    forall q, q ∈ g_connlist gm' <-> q ∈ g_connlist gm.
Proof.
  intros Hnd Hin Hh. destruct (pushed_proj p gm) as (E1 & E2 & E3). unfold game_after. rewrite E1.
  rewrite list_erase_app by done. set (l := list_erase p (g_connlist gm) ++ [p]).
  assert (NoDup l) as Hl.
  { apply NoDup_app. split; [by apply list_erase_NoDup|]. split; [|apply NoDup_singleton].
    intros x Hx ->%list_elem_of_singleton. apply list_erase_elem in Hx; [naive_solver|done]. }
  assert (forall q, q ∈ l <-> q ∈ g_connlist gm) as Hm.
  { intros q. unfold l. rewrite elem_of_app, list_elem_of_singleton, list_erase_elem by done.
    destruct (decide (q = p)); naive_solver. }
  destruct (set_g_connlist_proj l (pushed p gm)) as (F1 & F2 & F3). set (gm1 := set_g_connlist l _) in *.
  assert (exists a k, l = a :: k) as (a & k & El).
  { destruct l as [|a k] eqn:El; [|eauto]. exfalso. apply Hm in Hin. by apply not_elem_of_nil in Hin. }
  case_decide as Hhost.
  - rewrite El. destruct (set_g_host_proj (Some a) gm1) as (G1 & G2 & G3). eexists. split; [done|].
    rewrite G3, F3, E2. split; [done|]. rewrite G1, F1. split; [done|]. split; [|done].
    unfold host_ok. rewrite G1, G2, F1, El. exists a. split; [done|left].
  - eexists. split; [done|]. rewrite F3, F1, E2. split; [done|]. split; [done|]. split; [|done].
    unfold host_ok in *. rewrite F1, F2, E3, El, <- El. destruct (g_connlist gm) as [|b k'] eqn:Eg; [by apply not_elem_of_nil in Hin|].
    destruct Hh as (h & Hh & Hhin). exists h. split; [done|]. by apply Hm.
Qed.

Lemma keeps_games p m w : keeps p w (set_w_games m w).
Proof. destruct w. repeat split; try done. intros c Hc. by exists c. Qed.

(** Inside [GameCacheItem::Join], after the client has left its former game:
    it is in the list and does not point to the game yet. *)
Lemma Join_leave_game p c g gm w :
  world_ok w -> w_clients w !! p = Some c -> w_games w !! g = Some gm ->
  safe (leave_game p) (set_w_games (<[g := pushed p gm]> (w_games w)) w) (fun _ w' =>
    world_okx [(g, p)] w' /\ keeps p w w' /\
    (exists c', w_clients w' !! p = Some c' /\ c_game c' = None /\ c_channel c' = c_channel c) /\
    exists gm', w_games w' !! g = Some gm' /\ p ∈ g_connlist gm').
Proof.
  intros Hok Hc Hg. destruct (pushed_proj p gm) as (E1 & E2 & E3). set (w1 := set_w_games _ w).
  pose proof (wk_nodup _ _ Hok _ _ Hg) as Hnd. pose proof (wk_host _ _ Hok _ _ Hg) as Hh.
  assert (w_clients w1 !! p = Some c) as Hc1 by (subst w1; by destruct w).
  assert (w_games w1 !! g = Some (pushed p gm)) as Hg1 by (subst w1; destruct w; cbn; apply lookup_insert_eq).
  destruct (decide (c_game c = Some g)) as [Hcg|Hcg].
  - (* it was in this game already *)
    destruct (wk_ingame _ _ Hok p c g Hc Hcg) as (gm0 & Hg0 & Hin). rewrite Hg in Hg0. injection Hg0 as <-.
    destruct (rejoin_after p gm Hnd Hin Hh) as (gm' & Ha & Hn' & Hnd' & Hh' & Hm').
    unfold leave_game. eapply safe_eq; [by apply client_eq|]. rewrite Hcg.
    exists tt, (leave_world g p c (pushed p gm) w1). split.
    { apply Game_Leave_eq; [done|done|]. rewrite E2. subst w1. destruct w; cbn. by apply (wk_named _ _ Hok). }
    assert (leave_world g p c (pushed p gm) w1 =
      set_w_games (<[g := gm']> (w_games w)) (set_w_clients (<[p := set_c_game None c]> (w_clients w)) w)) as ->.
    { unfold leave_world. rewrite Ha. subst w1. destruct w; cbn. by rewrite insert_insert_eq. }
    destruct (set_c_game_proj None c) as (P1 & P2 & P3). set (w2 := set_w_clients _ w).
    assert (world_okx [(g, p)] w2) as Hok2.
    { apply okx_edit_client with (ex := []) (c := c); try done.
      - rewrite P2. intros. by eapply wk_user.
      - rewrite P3. intros. by eapply wk_chan.
      - rewrite P3. intros h ch Hch Hp. destruct (wk_member _ _ Hok h ch p Hch Hp) as (c' & Hc' & E). congruence.
      - by rewrite P1.
      - intros g' gm1 Hgm Hp. destruct (ok_player g' gm1 p w Hok Hgm Hp) as (c' & Hc' & E).
        right. assert (g' = g) as -> by congruence. left.
      - set_solver. }
    assert (w_games w2 = w_games w) as Eg2 by (subst w2; by destruct w).
    assert (w_clients w2 !! p = Some (set_c_game None c)) as Hc2 by (subst w2; destruct w; cbn; apply lookup_insert_eq).
    split; [|split; [|split]].
    + rewrite <- Eg2. apply okx_set_game with (ex := [(g, p)]) (gm := gm); try done.
      * by rewrite Eg2.
      * intros q Hq. apply Hm' in Hq. eapply (wk_player _ _ Hok2); [|exact Hq]. by rewrite Eg2.
      * intros q d Hd Hdg. apply Hm'. destruct (wk_ingame _ _ Hok2 q d g Hd Hdg) as (gm1 & Hgm1 & Hq).
        rewrite Eg2, Hg in Hgm1. by injection Hgm1 as <-.
    + eapply keeps_trans; [|apply keeps_games]. subst w2. destruct w; cbn in *. repeat split; try done; cbn.
      * intros q Hq. by rewrite lookup_insert_ne.
      * intros c' Hc'. rewrite lookup_insert_eq. eexists. split; [done|]. rewrite Hc in Hc'. injection Hc' as <-. by destruct c.
    + exists (set_c_game None c). split; [|done]. subst w2. by destruct w.
    + exists gm'. split; [subst w2; destruct w; cbn; apply lookup_insert_eq|]. by apply Hm'.
  - assert (p ∉ g_connlist gm) as Hnin.
    { intros Hin. destruct (ok_player g gm p w Hok Hg Hin) as (c' & Hc' & E). congruence. }
    assert (world_okx [(g, p)] w1) as Hok1.
    { apply okx_set_game with (ex := []) (gm := gm); try done.
      - rewrite E1. apply NoDup_app. split; [done|]. split; [|apply NoDup_singleton].
        by intros x Hx ->%list_elem_of_singleton.
      - by apply pushed_host.
      - rewrite E1. intros q [Hq| ->%list_elem_of_singleton]%elem_of_app; [|exists c; split; [done|right; left]].
        destruct (ok_player g gm q w Hok Hg Hq) as (d & Hd & E). eauto.
      - intros q d Hd Hdg. rewrite E1. apply elem_of_app. left.
        destruct (wk_ingame _ _ Hok q d g Hd Hdg) as (gm0 & Hg0 & Hq). congruence.
      - set_solver. }
    eapply safe_mono; [apply leave_game_ok with (ex := [(g, p)]) (c := c); [done|done|]|].
    { by intros g' q [= -> ->]%list_elem_of_singleton. }
    intros [] w' (Hok' & Hk & Hcl & Hgm). split; [done|]. split; [eapply keeps_trans; [apply keeps_games|exact Hk]|].
    split; [done|]. exists (pushed p gm). split; [eapply (Hgm g p); [left|done]|]. rewrite E1. apply elem_of_app. right. by left.
Qed.

(** [GameCacheItem::Join]: afterwards the client is a member of the game, of no
    other game and of no channel. *)
Lemma Game_Join_ok p c g w :
  world_ok w -> w_clients w !! p = Some c -> is_Some (w_games w !! g) ->
  safe (Game_Join g p) w (fun _ w' => world_ok w' /\ keeps p w w' /\
    (exists c', w_clients w' !! p = Some c' /\ c_game c' = Some g) /\
    (forall h ch, w_channels w' !! h = Some ch -> p ∉ h_connset ch)).
Proof.
  intros Hok Hc [gm Hg]. unfold Game_Join. eapply safe_eq; [by apply edit_game_eq|].
  eapply safe_bind; [by apply (Join_leave_game p c g gm w)|].
  intros [] w1 (Hok1 & Hk1 & (c1 & Hc1 & Hg1 & Hch1) & gm1 & Hgm1 & Hin1).
  eapply safe_bind; [by apply leave_channel_ok with (ex := [(g, p)]) (c := c1)|].
  intros [] w2 (Hok2 & Hk2 & Hcl2 & Hgm2 & Hout).
  assert (w_clients w2 !! p = Some c1) as Hc2 by (by rewrite Hcl2).
  exists tt, (set_w_clients (<[p := set_c_game (Some g) c1]> (w_clients w2)) w2).
  split; [unfold Client_SetGame; by apply edit_client_eq|].
  destruct (set_c_game_proj (Some g) c1) as (P1 & P2 & P3). split; [|split; [|split]].
  - apply okx_edit_client with (ex := [(g, p)]) (c := c1); try done.
    + rewrite P2. intros. by eapply wk_user.
    + rewrite P3. intros. by eapply wk_chan.
    + intros h ch Hch Hp. by destruct (Hout h ch Hch).
    + rewrite P1. intros g' [= <-]. exists gm1. by rewrite Hgm2.
    + rewrite P1. intros g' gm' Hgm' Hp. left. destruct (wk_player _ _ Hok2 g' gm' p Hgm' Hp) as (c' & Hc' & [E|E%list_elem_of_singleton]); congruence.
    + by intros g' q Hne [= -> ->]%list_elem_of_singleton.
  - eapply keeps_trans; [exact Hk1|]. eapply keeps_trans; [exact Hk2|]. clear - Hc2. destruct w2; cbn in *.
    repeat split; try done; cbn.
    + intros q Hq. by rewrite lookup_insert_ne.
    + intros c' Hc'. rewrite lookup_insert_eq. eexists. split; [done|]. rewrite Hc2 in Hc'. injection Hc' as <-. by destruct c1.
  - eexists. split; [|exact P1]. destruct w2; cbn. apply lookup_insert_eq.
  - intros h ch Hch. apply (Hout h). by destruct w2.
Qed.
End ops.
