(* ===== verification/ChatLife.v ===== *)
(** * ChatLife: connections, accounts and the channel table

    The operations of blitzd/core/Client.cpp that create, name and destroy a
    connection, [GameCache::Add] and [ChannelCache::Ensure] keep the invariant
    of the shared state. *)

From Stdlib Require Import Sorted.
From S2P Require Import Prelude Words Stream OMap CStr NumFmt Storage UserItem UserCache Framing Packets World Chat ChatInv ChatOps.

Section life.
Context {S : Type}.
Implicit Types (w : World S).

(** Every entry of the name pool is a live client logged in under that name. *)
Definition pool_ok w : Prop :=
  forall n q, om_find ci_ltb n (w_clientMap w) = Some q ->
    exists c u a, w_clients w !! q = Some c /\ c_user c = Some u /\ uc_heap (w_uc w) !! u = Some a /\
      ci_key (u_username a) = ci_key n.

(** The channel tables name live channels. *)
Definition table_ok w : Prop :=
  (forall n h, om_find ci_ltb n (w_channelmap w) = Some h -> is_Some (w_channels w !! h)) /\
  (forall tag l h, om_find Z.ltb tag (w_game_channelmap w) = Some l -> h ∈ l -> is_Some (w_channels w !! h)).

Definition inv w : Prop := world_ok w /\ pool_ok w /\ table_ok w.

(** What leaves both tables right. *)
Definition frame w w' : Prop :=
  (w_uc w', w_clientMap w', w_channelmap w', w_game_channelmap w') =
    (w_uc w, w_clientMap w, w_channelmap w, w_game_channelmap w) /\
  (forall q c, w_clients w !! q = Some c -> exists c', w_clients w' !! q = Some c' /\ c_user c' = c_user c) /\
  (forall h, is_Some (w_channels w !! h) -> is_Some (w_channels w' !! h)).

Lemma keeps_frame p w w' : keeps p w w' -> frame w w'.
Proof.
  intros (A1 & A2 & A3 & A4 & A5 & A6 & A7). injection A1 as E1 E2 E3. unfold frame. rewrite A2, A3, E2, E3.
  split; [done|]. split; [|intros h; apply A6]. intros q c Hq. destruct (decide (q = p)) as [->|Hne].
  - destruct (A7 c Hq) as (c' & Hc' & Hu & _). eauto.
  - exists c. by rewrite A5.
Qed.
Lemma frame_trans w1 w2 w3 : frame w1 w2 -> frame w2 w3 -> frame w1 w3.
Proof.
  intros (A1 & A2 & A3) (B1 & B2 & B3). split; [congruence|]. split; [|eauto].
  intros q c Hq. destruct (A2 q c Hq) as (c' & Hc' & E). destruct (B2 q c' Hc') as (c2 & Hc2 & E2).
  exists c2. split; [done|congruence].
Qed.
Lemma frame_inv w w' : inv w -> frame w w' -> world_ok w' -> inv w'.
Proof.
  intros (Hok & Hp & Ht1 & Ht2) (E & Hc & Hh) Hok'. injection E as E1 E2 E3 E4. split; [done|]. split.
  - intros n q. rewrite E2. intros (c & u & a & Hq & Hu & Ha & Hn)%Hp. destruct (Hc q c Hq) as (c' & Hc' & Eu).
    exists c', u, a. rewrite E1. split; [done|]. split; [congruence|done].
  - split; [intros n h; rewrite E3; eauto|intros tag l h; rewrite E4; eauto].
Qed.
Lemma keeps_inv p w w' : inv w -> keeps p w w' -> world_ok w' -> inv w'.
Proof. intros Hi Hk Hok. exact (frame_inv w w' Hi (keeps_frame p w w' Hk) Hok). Qed.

(** The invariant does not look at the pools. *)
Lemma okx_clientMap ex m w : world_okx ex w -> world_okx ex (set_w_clientMap m w).
Proof. intros []. destruct w. by constructor. Qed.
Lemma okx_tokenMap ex m w : world_okx ex w -> world_okx ex (set_w_tokenMap m w).
Proof. intros []. destruct w. by constructor. Qed.

(** A new connection. *)
Lemma okx_new_client c s t w :
  world_ok w -> c_user c = None -> c_channel c = None -> c_game c = None ->
  world_ok (set_w_tokenMap t (set_w_current_session s (set_w_alloc (w_alloc w + 1)%nat
    (set_w_clients (<[w_alloc w := c]> (w_clients w)) w)))).
Proof.
  intros [A1 A2 A3 A4 A5 A6 A7 A8 A9 A10 A11 A12 A13 A14] Hu Hh Hg. destruct w; cbn in *.
  assert (forall q d, w_clients !! q = Some d -> <[w_alloc := c]> w_clients !! q = Some d) as Hk.
  { intros q d Hq. rewrite lookup_insert_ne; [done|]. intros <-. specialize (A11 w_alloc ltac:(by eexists)). lia. }
  constructor; cbn; try done.
  - intros p d u Hd. apply lookup_insert_Some in Hd as [[<- <-]|[_ Hd]]; [congruence|eauto].
  - intros p d u Hd. apply lookup_insert_Some in Hd as [[<- <-]|[_ Hd]]; [congruence|eauto].
  - intros p d u Hd. apply lookup_insert_Some in Hd as [[<- <-]|[_ Hd]]; [congruence|eauto].
  - intros h ch p Hch Hp. destruct (A4 h ch p Hch Hp) as (d & Hd & E). eauto.
  - intros g gm p Hgm Hp. destruct (A7 g gm p Hgm Hp) as (d & Hd & E). eauto.
  - intros p [d Hd]. apply lookup_insert_Some in Hd as [[<- <-]|[_ Hd]]; [lia|]. specialize (A11 p ltac:(by eexists)). lia.
  - intros p Hp. specialize (A12 p Hp). lia.
  - intros p Hp. specialize (A13 p Hp). lia.
Qed.

Lemma new_Client_ok token ip j1 j2 w :
  inv w -> safe (new_Client token ip j1 j2) w (fun p w' => inv w' /\ p = w_alloc w /\
    (exists c, w_clients w' !! p = Some c /\ c_user c = None /\ c_channel c = None /\ c_game c = None /\
       c_token c = token /\ c_session c = u32 (w_current_session w + 1)) /\
    om_find Z.ltb token (w_tokenMap w') = Some p).
Proof.
  intros Hi. set (p := w_alloc w). set (s := u32 (w_current_session w + 1)).
  set (c := mkClient CONNECTED 0 0 0 0 0 0 0 0 ip 0 0 0 0 0 s token UF_NOUDP [] [] None None None [] j1 j2 [] [] []).
  set (w' := set_w_tokenMap (om_insert Z.ltb token p (w_tokenMap w)) (set_w_current_session s
    (set_w_alloc (p + 1)%nat (set_w_clients (<[p := c]> (w_clients w)) w)))).
  exists p, w'. split.
  { subst w'. unfold new_Client, mbind, M_bind, get, modify. destruct w; cbn. unfold Pool_AddByToken, mbind, M_bind, client, modify.
    cbn. rewrite lookup_insert_eq. reflexivity. }
  assert (w_clients w' !! p = Some c) as Hc by (subst w'; destruct w; cbn; apply lookup_insert_eq).
  split; [|split; [done|split]].
  - apply (frame_inv w); [done| |apply okx_new_client; [apply Hi|done..]].
    subst w'. pose proof (wk_fresh_c _ _ (proj1 Hi)) as Hf. destruct w; cbn in *. split; [done|]. cbn. split; [|done].
    intros q d Hq. exists d. split; [|done]. rewrite lookup_insert_ne; [done|]. intros <-. specialize (Hf p ltac:(by eexists)). subst p. lia.
  - exists c. repeat split; try done.
  - subst w'. destruct w; cbn. by rewrite (om_find_insert _).
Qed.

(** [Remove(std::string)] in a good pool. *)
Lemma Pool_Remove_name_eq n w :
  pool_ok w -> exists t m, Pool_Remove_name n w = Ret (tt, set_w_clientMap m (set_w_tokenMap t w)) /\
    forall n', om_find ci_ltb n' m = if decide (ci_key n = ci_key n') then None else om_find ci_ltb n' (w_clientMap w).
Proof.
  intros Hp. unfold Pool_Remove_name, pool_name, mbind, M_bind, get.
  destruct (om_find ci_ltb n (w_clientMap w)) as [q|] eqn:E.
  - destruct (Hp n q E) as (c & u & a & Hc & _). rewrite (client_eq _ _ _ Hc). unfold modify. destruct w; cbn.
    do 2 eexists. split; [done|]. intros n'. apply find_names_erase.
  - exists (w_tokenMap w), (w_clientMap w). split; [by destruct w|]. intros n'. case_decide as Hk; [|done].
    by rewrite <- (om_find_ci _ _ _ Hk).
Qed.

(** What the destructor and [SetUser] do to the pool: no entry leads to [p]. *)
Lemma forget_user p c (none : M S unit) w :
  inv w -> w_clients w !! p = Some c ->
  (exists t, none w = Ret (tt, set_w_tokenMap t w)) ->
  safe (match c_user c with
        | Some u => mbind (fun a => Pool_Remove_name (u_username a)) (account u)
        | None => none
        end) w (fun _ w' => inv w' /\ (exists t m, w' = set_w_clientMap m (set_w_tokenMap t w)) /\
    forall n, om_find ci_ltb n (w_clientMap w') <> Some p).
Proof.
  intros (Hok & Hp & Ht) Hc [t0 Hnone]. destruct (c_user c) as [u|] eqn:Eu.
  - destruct (wk_user _ _ Hok p c u Hc Eu) as [a Ha]. eapply safe_eq; [by apply account_eq|].
    destruct (Pool_Remove_name_eq (u_username a) w Hp) as (t & m & Hm & Hf).
    exists tt, (set_w_clientMap m (set_w_tokenMap t w)). split; [done|].
    assert (forall n, om_find ci_ltb n m <> Some p) as Hno.
    { intros n Hn. rewrite Hf in Hn. case_decide as E; [done|]. destruct (Hp n p Hn) as (c' & u' & a' & Hc' & Hu' & Ha' & Hk).
      apply E. congruence. }
    split; [|split; [by exists t, m|by destruct w]]. split; [by apply okx_clientMap, okx_tokenMap|].
    split; [|by destruct w]. intros n q. destruct w; cbn in *. rewrite Hf. case_decide; [done|]. apply Hp.
  - exists tt, (set_w_tokenMap t0 w). split; [done|]. split; [|split; [exists t0, (w_clientMap w); by destruct w|]].
    + split; [by apply okx_tokenMap|]. split; [|by destruct w]. intros n q. destruct w; cbn in *. apply Hp.
    + intros n Hn. destruct (Hp n p) as (c' & u' & a' & Hc' & Hu' & _); [by destruct w|]. congruence.
Qed.

Lemma okx_delete_client p c w :
  world_ok w -> w_clients w !! p = Some c -> c_game c = None ->
  (forall h ch, w_channels w !! h = Some ch -> p ∉ h_connset ch) ->
  world_ok (set_w_clients (delete p (w_clients w)) w).
Proof.
  intros Hok Hc Hg Hout. pose proof (fun g gm q => ok_player g gm q w Hok) as Hpl.
  destruct Hok as [A1 A2 A3 A4 A5 A6 A7 A8 A9 A10 A11 A12 A13 A14]. destruct w; cbn in *.
  constructor; cbn; try done.
  - intros q d u Hd. apply lookup_delete_Some in Hd as [_ Hd]. eauto.
  - intros q d u Hd. apply lookup_delete_Some in Hd as [_ Hd]. eauto.
  - intros q d u Hd. apply lookup_delete_Some in Hd as [_ Hd]. eauto.
  - intros h ch q Hch Hq. assert (p <> q) by (intros ->; by destruct (Hout h ch Hch)).
    rewrite lookup_delete_ne by done. eauto.
  - intros g gm q Hgm Hq. destruct (Hpl g gm q Hgm Hq) as (d & Hd & Hdg).
    assert (p <> q) by (intros ->; congruence). exists d. rewrite lookup_delete_ne by done. by split; [|left].
  - intros q [d Hd]. apply lookup_delete_Some in Hd as [_ Hd]. eauto.
Qed.

(** The destructor: every trace of the client but its token is gone. *)
Lemma delete_Client_ok p w :
  inv w -> is_Some (w_clients w !! p) -> safe (delete_Client p) w (fun _ w' => inv w' /\ w_clients w' !! p = None).
Proof.
  intros Hi [c Hc]. unfold delete_Client.
  eapply safe_bind; [apply leave_game_ok with (ex := []) (c := c); [apply Hi|done|set_solver]|].
  intros [] w1 (Hok1 & Hk1 & (c1 & Hc1 & Hg1 & Hch1) & _).
  eapply safe_bind; [by apply leave_channel_ok with (ex := []) (c := c1)|].
  intros [] w2 (Hok2 & Hk2 & Hcl2 & Hgm2 & Hout).
  assert (w_clients w2 !! p = Some c1) as Hc2 by (by rewrite Hcl2).
  assert (inv w2) as Hi2 by (eapply keeps_inv; [exact Hi|by eapply keeps_trans|done]).
  eapply safe_eq; [by apply client_eq|].
  eapply safe_bind; [apply (forget_user p c1); [done|done|]|].
  { eexists. unfold Pool_Remove_uint, modify. reflexivity. }
  intros [] w3 (Hi3 & (t & m & ->) & Hno).
  eexists _, _. split; [reflexivity|]. split; [|destruct w2; cbn; apply lookup_delete_eq].
  destruct Hi3 as (Hok3 & Hp3 & Ht3). split; [|split].
  - eapply okx_delete_client; [done|by destruct w2|done|]. intros h ch Hch. apply (Hout h). by destruct w2.
  - intros n q Hn. assert (p <> q) as Hne by (intros ->; eapply Hno; by destruct w2).
    destruct (Hp3 n q) as (d & u & a & Hd & Hu & Ha & Hk); [by destruct w2|].
    exists d, u, a. destruct w2; cbn in *. by rewrite lookup_delete_ne.
  - by destruct w2.
Qed.

Lemma set_c_user_proj v c :
  c_user (set_c_user v c) = v /\ c_channel (set_c_user v c) = c_channel c /\ c_game (set_c_user v c) = c_game c.
Proof. by destruct c. Qed.

(** [SetUser]: the pool entry of the old name goes, that of the new one is
    this connection. *)
Lemma SetUser_ok p u w :
  inv w -> is_Some (w_clients w !! p) -> (forall v, u = Some v -> is_Some (uc_heap (w_uc w) !! v)) ->
  safe (SetUser p u) w (fun _ w' => inv w' /\ w_uc w' = w_uc w /\
    (exists c c', w_clients w !! p = Some c /\ w_clients w' = <[p := c']> (w_clients w) /\ c' = set_c_user u c) /\
    (forall v a, u = Some v -> uc_heap (w_uc w) !! v = Some a ->
       om_find ci_ltb (u_username a) (w_clientMap w') = Some p)).
Proof.
  intros Hi [c Hc] Hu. unfold SetUser. eapply safe_eq; [by apply client_eq|].
  eapply safe_bind; [apply (forget_user p c); [done|done|]|].
  { exists (w_tokenMap w). by destruct w. }
  intros [] w1 (Hi1 & (t & m & ->) & Hno). set (w1 := set_w_clientMap m (set_w_tokenMap t w)) in *.
  assert (w_clients w1 = w_clients w) as Ecl by (subst w1; by destruct w).
  assert (w_uc w1 = w_uc w) as Euc by (subst w1; by destruct w).
  assert (w_clients w1 !! p = Some c) as Hc1 by (by rewrite Ecl).
  eapply safe_eq; [by apply edit_client_eq|]. destruct (set_c_user_proj u c) as (P1 & P2 & P3).
  set (c' := set_c_user u c) in *. set (w2 := set_w_clients _ w1).
  destruct Hi1 as (Hok1 & Hp1 & Ht1).
  assert (world_ok w2) as Hok2.
  { apply okx_edit_client with (ex := []) (c := c); try done.
    - rewrite P1, Euc. apply Hu.
    - rewrite P2. intros. by eapply wk_chan.
    - rewrite P2. intros h ch Hch Hp. destruct (wk_member _ _ Hok1 h ch p Hch Hp) as (d & Hd & E). congruence.
    - rewrite P3. intros. by eapply wk_ingame.
    - rewrite P3. intros g gm Hgm Hp. destruct (ok_player g gm p w1 Hok1 Hgm Hp) as (d & Hd & E). left. congruence. }
  assert (forall n q, om_find ci_ltb n (w_clientMap w1) = Some q -> q <> p) as Hne by (intros n q Hn ->; by apply (Hno n)).
  assert (inv w2) as Hi2.
  { split; [done|]. split; [|subst w2; by destruct w1]. intros n q Hn.
    assert (om_find ci_ltb n (w_clientMap w1) = Some q) as Hn1 by (subst w2; by destruct w1).
    destruct (Hp1 n q Hn1) as (d & v & a & Hd & Hv & Ha & Hk). exists d, v, a. subst w2. destruct w1; cbn in *.
    rewrite lookup_insert_ne; [done|]. intros <-. by apply (Hne n p). }
  assert (w_clients w2 = <[p := c']> (w_clients w)) as Ecl2 by (subst w2; rewrite <- Ecl; by destruct w1).
  assert (w_uc w2 = w_uc w) as Euc2 by (subst w2; rewrite <- Euc; by destruct w1).
  destruct u as [v|]; [|apply safe_ret; split_and!; try done; by exists c, c'].
  destruct (Hu v eq_refl) as [a Ha]. unfold Pool_Add.
  assert (w_clients w2 !! p = Some c') as Hc2 by (rewrite Ecl2; apply lookup_insert_eq).
  eapply safe_eq; [by apply client_eq|]. rewrite P1. eapply safe_eq; [apply account_eq; rewrite Euc2; exact Ha|].
  eexists _, _. split; [reflexivity|]. split; [|split; [by destruct w2|split]].
  - destruct Hi2 as (_ & Hp2 & Ht2). split; [by apply okx_clientMap|]. split; [|by destruct w2].
    intros n q. destruct w2; cbn in *. rewrite find_names_insert. case_decide as E; [|apply Hp2].
    intros [= <-]. exists c', v, a. subst w_uc. done.
  - exists c, c'. by destruct w2.
  - intros v' a' [= <-] Ha'. assert (a' = a) as -> by congruence. destruct w2; cbn.
    rewrite find_names_insert. by rewrite decide_True.
Qed.
End life.
