(* ===== verification/ChatTables.v ===== *)
(** * ChatTables: the game and channel tables

    [GameCache::Add] and [ChannelCache::Ensure] keep the invariant, and the
    search for a free channel index ends. *)

From Stdlib Require Import Sorted.
From S2P Require Import Prelude Words Stream OMap CStr NumFmt Storage UserItem UserCache Framing Packets World Chat ChatInv ChatOps ChatLife.

Section tables.
Context {S : Type}.
Implicit Types (w : World S).

(** ** A new game *)

(** The loop of the game's destructor. *)
Lemma for_each_SetGame l : forall w, (forall q, q ∈ l -> is_Some (w_clients w !! q)) ->
  exists m, for_each l (fun c => Client_SetGame c None) w = Ret (tt, set_w_clients m w) /\
    forall q, m !! q = if decide (q ∈ l) then set_c_game None <$> w_clients w !! q else w_clients w !! q.
Proof.
  induction l as [|x l IH]; intros w Hl; cbn [for_each].
  { exists (w_clients w). split; [by destruct w|]. intros q. rewrite decide_False; [done|]. apply not_elem_of_nil. }
  destruct (Hl x ltac:(left)) as [c Hc]. rewrite (bind_eq (Client_SetGame x None) _ w _ _ (edit_client_eq x c _ w Hc)).
  set (w1 := set_w_clients _ w). destruct (IH w1) as (m & Hm & Hq).
  { intros q Hq. subst w1. destruct w; cbn in *. rewrite lookup_insert. case_decide; [by eexists|]. apply Hl. by right. }
  exists m. split; [rewrite Hm; subst w1; by destruct w|]. intros q. rewrite Hq. subst w1. destruct w; cbn in *.
  rewrite lookup_insert. destruct (decide (x = q)) as [->|Hne].
  - rewrite (decide_True (P := q ∈ q :: l)) by left. rewrite Hc. case_decide; [|done]. simpl. by destruct c.
  - destruct (decide (q ∈ l)).
    + by rewrite decide_True by (by right).
    + rewrite decide_False; [done|]. set_solver.
Qed.

Lemma okx_forget o gm m w :
  world_ok w -> w_games w !! o = Some gm ->
  (forall q, m !! q = if decide (q ∈ g_connlist gm) then set_c_game None <$> w_clients w !! q else w_clients w !! q) ->
  world_okx ((fun q => (o, q)) <$> g_connlist gm) (set_w_clients m w).
Proof.
  intros Hok Hg Hm. pose proof (fun g gm q => ok_player g gm q w Hok) as Hpl.
  assert (forall q d, m !! q = Some d -> exists c, w_clients w !! q = Some c /\ c_user d = c_user c /\
    c_channel d = c_channel c /\ (q ∈ g_connlist gm /\ c_game d = None \/ q ∉ g_connlist gm /\ d = c)) as Hback.
  { intros q d Hd. rewrite Hm in Hd. case_decide as E; [|by exists d; naive_solver].
    destruct (w_clients w !! q) as [c|]; [|done]. injection Hd as <-. exists c. destruct (set_c_game_proj None c) as (P1 & P2 & P3).
    naive_solver. }
  assert (forall q c, w_clients w !! q = Some c -> exists d, m !! q = Some d /\ c_channel d = c_channel c /\
    (q ∈ g_connlist gm \/ d = c)) as Hforth.
  { intros q c Hc. rewrite Hm, Hc. case_decide; [|by exists c; naive_solver]. eexists. split; [done|].
    destruct (set_c_game_proj None c) as (P1 & P2 & P3). naive_solver. }
  destruct Hok as [A1 A2 A3 A4 A5 A6 A7 A8 A9 A10 A11 A12 A13 A14]. destruct w; cbn in *. constructor; cbn; try done.
  - intros p d u Hd Hu. destruct (Hback p d Hd) as (c & Hc & E & _). rewrite E in Hu. eauto.
  - intros p d u Hd Hu. destruct (Hback p d Hd) as (c & Hc & _ & E & _). rewrite E in Hu. eauto.
  - intros p d g' Hd Hdg. destruct (Hback p d Hd) as (c & Hc & _ & _ & [[_ E]|[_ ->]]); [congruence|eauto].
  - intros h ch p Hch Hp. destruct (A4 h ch p Hch Hp) as (c & Hc & E). destruct (Hforth p c Hc) as (d & Hd & E' & _).
    exists d. split; [done|congruence].
  - intros g' gm' p Hgm' Hp. destruct (Hpl g' gm' p Hgm' Hp) as (c & Hc & E). destruct (Hforth p c Hc) as (d & Hd & _ & Hor).
    exists d. split; [done|]. destruct Hor as [Hin|Ed]; [|left; congruence]. right.
    destruct (Hpl o gm p Hg Hin) as (c' & Hc' & E'). assert (g' = o) as -> by congruence. apply list_elem_of_fmap. eauto.
  - intros p [d Hd]. destruct (Hback p d Hd) as (c & Hc & _). eauto.
Qed.

(** Entering a fresh game under a name that is free. *)
Lemma okx_add_game gm m w :
  world_ok w -> g_connlist gm = [] -> g_host gm = None ->
  (forall n, om_find ci_ltb n m =
    if decide (ci_key (g_name gm) = ci_key n) then Some (w_alloc w) else om_find ci_ltb n (w_game_map w)) ->
  om_find ci_ltb (g_name gm) (w_game_map w) = None ->
  world_ok (set_w_game_map m (set_w_alloc (w_alloc w + 1)%nat (set_w_games (<[w_alloc w := gm]> (w_games w)) w))).
Proof.
  intros [A1 A2 A3 A4 A5 A6 A7 A8 A9 A10 A11 A12 A13 A14] Hl Hh Hm Hn. destruct w; cbn in *.
  assert (forall g gm', w_games !! g = Some gm' -> <[w_alloc := gm]> w_games !! g = Some gm') as Hk.
  { intros g gm' Hg. rewrite lookup_insert_ne; [done|]. intros <-. specialize (A13 w_alloc ltac:(by eexists)). lia. }
  constructor; cbn; try done.
  - intros p c g Hc Hg. destruct (A3 p c g Hc Hg) as (gm' & Hgm' & Hin). eauto.
  - intros g gm' Hg. apply lookup_insert_Some in Hg as [[<- <-]|[_ Hg]]; [rewrite Hl; constructor|eauto].
  - intros g gm' p Hg Hp. apply lookup_insert_Some in Hg as [[<- <-]|[_ Hg]]; [|eauto].
    rewrite Hl in Hp. by apply not_elem_of_nil in Hp.
  - intros g gm' Hg. apply lookup_insert_Some in Hg as [[<- <-]|[_ Hg]]; [|eauto]. unfold host_ok. by rewrite Hl.
  - intros g gm' Hg. rewrite Hm. apply lookup_insert_Some in Hg as [[<- <-]|[_ Hg]]; [by rewrite decide_True|].
    pose proof (A9 g gm' Hg) as Hf. case_decide as E; [|done]. rewrite <- (om_find_ci _ _ _ E) in Hf. congruence.
  - intros n g Hf. rewrite Hm in Hf. case_decide as E.
    + injection Hf as <-. rewrite lookup_insert_eq. eauto.
    + destruct (A10 n g Hf) as (gm' & Hgm' & Hk'). eauto.
  - intros p Hp. specialize (A11 p Hp). lia.
  - intros p Hp. specialize (A12 p Hp). lia.
  - intros p [d Hd]. apply lookup_insert_Some in Hd as [[<- <-]|[_ Hd]]; [lia|]. specialize (A13 p ltac:(by eexists)). lia.
Qed.

(** The game [Add] replaces is destroyed after the new one is in the table. *)
Lemma Game_delete_replaced name gm old gmo w :
  inv w -> om_find ci_ltb name (w_game_map w) = Some old -> w_games w !! old = Some gmo -> ci_key (g_name gmo) = ci_key name ->
  g_name gm = name -> g_connlist gm = [] -> g_host gm = None ->
  let g := w_alloc w in
  let m := om_insert ci_ltb name g (w_game_map w) in
  let w1 := set_w_game_map m (set_w_alloc (g + 1)%nat (set_w_games (<[g := gm]> (w_games w)) w)) in
  exists w2, Game_delete old w1 = Ret (tt, w2) /\ world_ok w2 /\ frame w w2 /\ w_game_map w2 = m /\ w_games w2 !! g = Some gm.
Proof.
  intros Hi Eold Hgo Hk Hname Hgl Hgh g m w1.
  pose proof (fun n' => find_names_insert name n' g (w_game_map w)) as Hf.
  assert (old <> g) as Hne.
  { intros ->. pose proof (wk_fresh_g _ _ (proj1 Hi) g ltac:(by eexists)). subst g. lia. }
  destruct (for_each_SetGame (g_connlist gmo) w1) as (mc & Hmc & Hmcq).
  { intros q Hq. destruct (ok_player old gmo q w (proj1 Hi) Hgo Hq) as (d & Hd & _). exists d. subst w1. by destruct w. }
  assert (forall q, mc !! q = if decide (q ∈ g_connlist gmo) then set_c_game None <$> w_clients w !! q else w_clients w !! q)
    as Hmcq' by (intros q; rewrite Hmcq; subst w1; by destruct w).
  set (wd := set_w_games (delete old (w_games w))
    (set_w_game_map (om_erase ci_ltb (g_name gmo) (w_game_map w)) (set_w_clients mc w))).
  assert (world_ok wd) as Hokd.
  { pose proof (okx_delete_game _ [] old gmo _ (okx_forget old gmo mc w (proj1 Hi) Hgo Hmcq')) as H.
    destruct w; cbn in *. apply H; [done| |].
    - intros q c Hc Hcg. rewrite Hmcq' in Hc. case_decide as E.
      + destruct (w_clients !! q); [|done]. injection Hc as <-. by destruct (set_c_game_proj None c0) as (P1 & _); congruence.
      + destruct (wk_ingame _ _ (proj1 Hi) q c old Hc Hcg) as (gm0 & H0 & Hin). cbn in H0. congruence.
    - intros g' q Hg' (y & E & Hy)%list_elem_of_fmap. congruence. }
  set (w2 := set_w_game_map m (set_w_alloc (w_alloc wd + 1)%nat (set_w_games (<[w_alloc wd := gm]> (w_games wd)) wd))).
  assert (world_ok w2) as Hok2.
  { apply okx_add_game; try done.
    - intros n. rewrite Hname. rewrite Hf. subst wd. destruct w; cbn in *. case_decide as E; [done|]. rewrite find_names_erase.
      rewrite decide_False; [done|]. by rewrite Hk.
    - rewrite Hname. subst wd. destruct w; cbn in *. rewrite find_names_erase. by rewrite decide_True. }
  assert (Game_delete old w1 = Ret (tt, w2)) as Hdel.
  { unfold Game_delete. assert (w_games w1 !! old = Some gmo) as Hg1.
    { subst w1. destruct w; cbn in *. by rewrite lookup_insert_ne. }
    rewrite (bind_eq _ _ _ _ _ (game_eq _ _ _ Hg1)), (bind_eq _ _ _ _ _ Hmc).
    unfold modify. subst w1 w2 wd. destruct w; cbn. by rewrite delete_insert_ne. }
  assert (frame w w2) as Hfr.
  { split; [by subst w2 wd; destruct w|]. split; [|by subst w2 wd; destruct w].
    intros q c Hc. assert (w_clients w2 = mc) as -> by (subst w2 wd; by destruct w). rewrite Hmcq', Hc.
    case_decide; [|by eauto]. eexists. split; [done|]. by destruct (set_c_game_proj None c) as (_ & P & _). }
  exists w2. split; [done|]. split; [done|]. split; [done|]. subst w2 wd. destruct w; cbn. split; [done|]. apply lookup_insert_eq.
Qed.

Lemma GameCache_Add_ok junk name w :
  inv w -> safe (GameCache_Add junk name) w (fun g w' => inv w' /\ frame w w' /\
    om_find ci_ltb name (w_game_map w') = Some g /\
    exists gm, w_games w' !! g = Some gm /\ g_name gm = name /\ g_connlist gm = []).
Proof.
  intros Hi. destruct junk as [[[[f e] t] o] l]. set (g := w_alloc w).
  set (gm := mkGame name f e t o l [] [] true None []).
  unfold GameCache_Add. fold gm. eapply safe_eq; [reflexivity|]. fold g.
  eapply safe_eq; [reflexivity|]. eapply safe_eq; [reflexivity|].
  pose proof (fun n' => find_names_insert name n' g (w_game_map w)) as Hf.
  set (m := om_insert ci_ltb name g (w_game_map w)) in *.
  set (w1 := set_w_game_map m (set_w_alloc (g + 1)%nat (set_w_games (<[g := gm]> (w_games w)) w))).
  destruct (om_find ci_ltb name (w_game_map w)) as [old|] eqn:Eold.
  - destruct (wk_gmap _ _ (proj1 Hi) name old Eold) as (gmo & Hgo & Hk).
    destruct (Game_delete_replaced name gm old gmo w Hi Eold Hgo Hk eq_refl eq_refl eq_refl) as (w2 & Hdel & Hok2 & Hfr & Em & Hg2).
    eapply safe_eq; [exact Hdel|]. apply safe_ret.
    split; [by eapply frame_inv|]. split; [done|]. split; [rewrite Em, Hf; by rewrite decide_True|]. by exists gm.
  - apply safe_ret. assert (frame w w1) as Hfr.
    { split; [by subst w1; destruct w|]. split; [|by subst w1; destruct w]. intros q c Hc. exists c. subst w1. by destruct w. }
    split; [eapply frame_inv; [done..|]|]. { apply okx_add_game; try done. apply Hi. }
    split; [done|]. split; [subst w1; destruct w; cbn; rewrite Hf; by rewrite decide_True|].
    exists gm. split; [|done]. subst w1. destruct w; cbn. apply lookup_insert_eq.
Qed.

(** ** The channel table *)

Lemma okx_channelmap ex m w : world_okx ex w -> world_okx ex (set_w_channelmap m w).
Proof. intros []. destruct w. by constructor. Qed.
Lemma okx_game_channelmap ex m w : world_okx ex w -> world_okx ex (set_w_game_channelmap m w).
Proof. intros []. destruct w. by constructor. Qed.

(** What the table operations leave alone. *)
Definition same_people w w' : Prop :=
  (w_clients w', w_games w', w_game_map w', w_clientMap w', w_tokenMap w', w_uc w', w_out w') =
    (w_clients w, w_games w, w_game_map w, w_clientMap w, w_tokenMap w, w_uc w, w_out w).

Lemma okx_new_channel ch w :
  world_ok w -> h_connset ch = [] -> no_nul (h_name ch) ->
  world_ok (set_w_alloc (w_alloc w + 1)%nat (set_w_channels (<[w_alloc w := ch]> (w_channels w)) w)).
Proof.
  intros [A1 A2 A3 A4 A5 A6 A7 A8 A9 A10 A11 A12 A13 A14] Hl Hn. destruct w; cbn in *.
  constructor; cbn; try done.
  - intros p c h Hc Hh. rewrite lookup_insert. case_decide; [by eexists|eauto].
  - intros h ch' p Hch Hp. apply lookup_insert_Some in Hch as [[<- <-]|[_ Hch]]; [|eauto].
    rewrite Hl in Hp. by apply not_elem_of_nil in Hp.
  - intros h ch' Hch. apply lookup_insert_Some in Hch as [[<- <-]|[_ Hch]]; [rewrite Hl; constructor|eauto].
  - intros p Hp. specialize (A11 p Hp). lia.
  - intros p [d Hd]. apply lookup_insert_Some in Hd as [[<- <-]|[_ Hd]]; [lia|]. specialize (A12 p ltac:(by eexists)). lia.
  - intros p Hp. specialize (A13 p Hp). lia.
  - intros h ch' Hch. apply lookup_insert_Some in Hch as [[<- <-]|[_ Hch]]; eauto.
Qed.

Lemma alloc_Channel_ok ch w :
  inv w -> h_connset ch = [] -> no_nul (h_name ch) ->
  safe (alloc_Channel ch) w (fun h w' => inv w' /\ same_people w w' /\ w_channels w' !! h = Some ch).
Proof.
  intros Hi Hl Hn. eexists _, _. split; [reflexivity|]. cbv beta.
  set (w' := set_w_alloc _ _). split; [|split; [subst w'; by destruct w|subst w'; destruct w; cbn; apply lookup_insert_eq]].
  apply (frame_inv w); [done| |by apply okx_new_channel; [apply Hi|..]].
  subst w'. destruct w; cbn. split; [done|]. cbn. split; [by eauto|].
  intros h Hh. rewrite lookup_insert. case_decide; [by eexists|done].
Qed.

Lemma ChannelCache_Add_ok h ch w :
  inv w -> w_channels w !! h = Some ch ->
  safe (ChannelCache_Add h) w (fun _ w' => inv w' /\ same_people w w' /\ w_channels w' = w_channels w).
Proof.
  intros (Hok & Hp & Ht1 & Ht2) Hh. unfold ChannelCache_Add. eapply safe_eq; [by apply channel_eq|].
  set (m1 := om_insert ci_ltb (h_short ch) h (w_channelmap w)).
  assert (exists m2, (m2 = m1 \/ m2 = om_insert ci_ltb (h_name ch) h m1) /\
    when (negb (strcmpi (h_short ch) (h_name ch) =? 0))
      (modify (fun w => set_w_channelmap (om_insert ci_ltb (h_name ch) h (w_channelmap w)) w)) (set_w_channelmap m1 w)
      = Ret (tt, set_w_channelmap m2 w)) as (m2 & Hm2 & Hw).
  { destruct (strcmpi _ _ =? 0); cbn [when negb]; [exists m1|eexists]; (split; [eauto|]); by destruct w. }
  eapply safe_eq; [reflexivity|]. eapply safe_eq; [exact Hw|]. eexists _, _. split; [reflexivity|].
  assert (forall n k, om_find ci_ltb n m2 = Some k -> is_Some (w_channels w !! k)) as Hf.
  { assert (forall n k, om_find ci_ltb n m1 = Some k -> is_Some (w_channels w !! k)) as H1.
    { intros n k. subst m1. rewrite find_names_insert. case_decide; [intros [= <-]; by eexists|eauto]. }
    intros n k. destruct Hm2 as [->| ->]; [apply H1|]. rewrite find_names_insert. case_decide; [intros [= <-]; by eexists|apply H1]. }
  split; [|split; by destruct w].
  split; [by apply okx_game_channelmap, okx_channelmap|]. split; [by destruct w|]. split; [by destruct w|].
  intros tag l k. destruct w; cbn in *. rewrite find_ids_insert. case_decide as E; [|apply Ht2].
  intros [= <-] [Hk| ->%list_elem_of_singleton]%elem_of_app; [|by eexists].
  unfold game_channels in Hk. cbn in Hk. destruct (om_find Z.ltb (h_gameid ch) w_game_channelmap) as [l0|] eqn:El; [|by apply not_elem_of_nil in Hk].
  by eapply Ht2.
Qed.

Lemma same_people_trans w1 w2 w3 : same_people w1 w2 -> same_people w2 w3 -> same_people w1 w3.
Proof. unfold same_people. congruence. Qed.

(** [Spawn] then [Add], as [Ensure] calls them. *)
Lemma Spawn_Add_ok h ch name w {B} (f : nat -> M S B) Q :
  inv w -> w_channels w !! h = Some ch -> no_nul name ->
  (forall h2 ch2 w', inv w' -> same_people w w' -> w_channels w' !! h2 = Some ch2 -> h_name ch2 = name ->
    h_connset ch2 = [] -> safe (f h2) w' Q) ->
  safe (mbind (fun h2 => mbind (fun _ => f h2) (ChannelCache_Add h2)) (Spawn h name)) w Q.
Proof.
  intros Hi Hh Hn Hf. eapply safe_bind.
  { unfold Spawn. eapply safe_eq; [by apply channel_eq|]. by apply alloc_Channel_ok. }
  intros h2 w1 (Hi1 & Hs1 & Hh2). eapply safe_bind; [by eapply ChannelCache_Add_ok|].
  intros _ w2 (Hi2 & Hs2 & Ech). eapply Hf; [done|by eapply same_people_trans|by rewrite Ech|done|done].
Qed.

(** ** The search for an index *)

(** The name of the [i]-th spawned channel. *)
Definition iname (newname : bytes) (i : Z) : bytes := (newname ++ b# "-") ++ fmt_dec false 0 i.

Lemma fmt_dec_digits i : 0 <= i -> Forall (fun c => 48 <= c <= 57) (fmt_dec false 0 i).
Proof.
  intros Hi. unfold fmt_dec. rewrite (proj2 (Z.ltb_ge i 0)) by done. simpl. rewrite Z.abs_eq by done. unfold print_nat.
  generalize (Datatypes.S (Z.to_nat (Z.log2 i))). intros fuel. revert i Hi.
  assert (forall d, 0 <= d < 10 -> 48 <= digit d <= 57) as Hd by (intros d Hd; unfold digit; btest; lia).
  induction fuel as [|fuel IH]; intros i Hi; cbn [digits]; [constructor|].
  btest; [constructor; [apply Hd; lia|constructor]|]. apply Forall_app. split; [apply IH, Z.div_pos; lia|].
  constructor; [|constructor]. apply Hd. pose proof (Z.mod_pos_bound i 10). lia.
Qed.

Lemma iname_no_nul newname i : no_nul newname -> 0 <= i -> no_nul (iname newname i).
Proof.
  intros Hn Hi. unfold iname, no_nul. rewrite !Forall_app. split; [split; [done|by repeat constructor]|].
  eapply Forall_impl; [by apply fmt_dec_digits|]. simpl. lia.
Qed.

Lemma iname_inj newname i j :
  no_nul newname -> 0 <= i -> 0 <= j -> ci_key (iname newname i) = ci_key (iname newname j) -> i = j.
Proof.
  intros Hn Hi Hj. unfold ci_key. rewrite !cstr_id by (by apply iname_no_nul). unfold iname. rewrite !map_app.
  intros E%app_inv_head. assert (forall k, 0 <= k -> map tolower (fmt_dec false 0 k) = fmt_dec false 0 k) as Hk.
  { intros k Hk. rewrite <- (map_id (fmt_dec false 0 k)) at 2. apply map_ext_Forall.
    eapply Forall_impl; [by apply fmt_dec_digits|]. intros c Hc. unfold tolower. simpl in Hc. btest; [|done]. lia. }
  rewrite !Hk in E by done. rewrite <- (fmt_dec_parse false 0 i), <- (fmt_dec_parse false 0 j). by f_equal.
Qed.

Lemma iname_append newname i : 0 <= i < 2 ^ 31 -> append_int (newname ++ b# "-") i = Some (iname newname i).
Proof.
  intros Hi. unfold append_int, append_as, iname. apply put64_fits.
  pose proof (fmt_dec_length false 0 Tint i ltac:(unfold in_range; simpl; lia)). lia.
Qed.

(** Distinct names that are all in the table: no more than it has entries. *)
Lemma table_pigeonhole newname i k (m : list (bytes * nat)) :
  no_nul newname -> 0 <= i ->
  (forall j, i <= j < i + Z.of_nat k -> is_Some (om_find ci_ltb (iname newname j) m)) -> (k <= length m)%nat.
Proof.
  intros Hn Hi Hall. set (keys := (fun j => ci_key (iname newname j)) <$> seqZ i (Z.of_nat k)).
  assert (length keys = k) as Hk by (unfold keys; rewrite length_fmap, length_seqZ; lia).
  rewrite <- Hk, <- (length_fmap (fun e => ci_key e.1) m). apply submseteq_length, NoDup_submseteq.
  - apply NoDup_fmap_2_strong; [|apply NoDup_seqZ]. intros a b Ha%elem_of_seqZ Hb%elem_of_seqZ E. eapply iname_inj; [exact Hn|lia..|done].
  - intros x (j & -> & Hj%elem_of_seqZ)%list_elem_of_fmap. destruct (Hall j) as [h Hh]; [lia|].
    destruct (om_find_Some _ _ _ _ Hh) as (k' & Hin & Hs). apply list_elem_of_fmap. exists (k', h). split; [|done].
    symmetry. by apply same_ci in Hs.
Qed.

(** A channel that can be entered. *)
Definition enterable (h : nat) w : Prop :=
  exists ch, w_channels w !! h = Some ch /\ (has_room ch = true \/ h_connset ch = []).

Lemma ensure_index_ok h ch newname w :
  inv w -> w_channels w !! h = Some ch -> no_nul newname -> forall fuel i,
  0 <= i -> i + Z.of_nat fuel < 2 ^ 31 ->
  safe (ensure_index fuel h newname i) w (fun h2 w' => inv w' /\ same_people w w' /\ enterable h2 w') \/
  (forall j, i <= j < i + Z.of_nat fuel -> is_Some (om_find ci_ltb (iname newname j) (w_channelmap w))).
Proof.
  intros Hi Hh Hn. induction fuel as [|fuel IH]; intros i H0 Hb; [right; intros; lia|].
  cbn [ensure_index]. rewrite (iname_append newname i) by lia.
  destruct (om_find ci_ltb (iname newname i) (w_channelmap w)) as [h2|] eqn:E.
  - destruct (proj1 (proj2 (proj2 Hi)) _ _ E) as [ch2 Hch2]. destruct (has_room ch2) eqn:Er.
    + left. eapply safe_eq; [reflexivity|]. unfold ChannelCache_index. eapply safe_eq; [reflexivity|]. rewrite E.
      eapply safe_eq; [by apply channel_eq|]. rewrite Er. apply safe_ret. split; [done|]. split; [done|].
      exists ch2. by split; [|left].
    + destruct (IH (i + 1)) as [Hs|Hr]; [lia..| |].
      * left. eapply safe_eq; [reflexivity|]. unfold ChannelCache_index. eapply safe_eq; [reflexivity|]. rewrite E.
        eapply safe_eq; [by apply channel_eq|]. by rewrite Er.
      * right. intros j Hj. destruct (decide (j = i)) as [->|Hne]; [by eexists|]. apply Hr. lia.
  - left. eapply safe_eq; [reflexivity|]. unfold ChannelCache_index. eapply safe_eq; [reflexivity|]. rewrite E.
    eapply Spawn_Add_ok; [done|done|by apply iname_no_nul|]. intros h2 ch2 w' Hi' Hs Hh2 _ Hl. apply safe_ret.
    split; [done|]. split; [done|]. exists ch2. by split; [|right].
Qed.

Lemma Ensure_ok fuel name tag country w :
  inv w -> no_nul name -> no_nul country ->
  (length (w_channelmap w) < fuel)%nat -> Z.of_nat fuel < 2 ^ 31 - 1 ->
  safe (Ensure fuel name tag country) w (fun r w' => inv w' /\ same_people w w' /\
    forall h, r = Some h -> enterable h w').
Proof.
  intros Hi Hn Hc Hf Hb. unfold Ensure, ChannelCache_index. eapply safe_eq; [reflexivity|].
  destruct (om_find ci_ltb name (w_channelmap w)) as [h|] eqn:E.
  - destruct (proj1 (proj2 (proj2 Hi)) _ _ E) as [ch Hch]. pose proof (wk_text _ _ (proj1 Hi) h ch Hch) as Ht.
    eapply safe_eq; [by apply channel_eq|]. cbv zeta.
    set (newname := if h_byCountry ch then _ else _).
    assert (no_nul newname) as Hnn.
    { subst newname. destruct (h_byCountry ch); [|constructor]. apply Forall_app. split; [done|]. by repeat constructor. }
    clearbody newname. destruct (h_byIndex ch).
    + set (base := if Nat.eqb _ _ then _ else _). assert (no_nul base) as Hbase by (subst base; by destruct (Nat.eqb _ _)).
      clearbody base. eapply safe_bind.
      { destruct (ensure_index_ok h ch base w Hi Hch Hbase fuel 1) as [Hs|Hr]; [lia..|exact Hs|].
        exfalso. apply table_pigeonhole in Hr; [lia|done|lia]. }
      intros h2 w' (Hi' & Hs & He). apply safe_ret. split; [done|]. split; [done|]. by intros ? [= <-].
    + destruct (Nat.ltb 0 (length newname)).
      * eapply safe_eq; [reflexivity|]. destruct (om_find ci_ltb newname (w_channelmap w)) as [h2|] eqn:E2.
        -- destruct (proj1 (proj2 (proj2 Hi)) _ _ E2) as [ch2 Hch2]. eapply safe_eq; [by apply channel_eq|]. apply safe_ret.
           split; [done|]. split; [done|]. intros k. destruct (has_room ch2) eqn:Er; [|done]. intros [= <-].
           exists ch2. by split; [|left].
        -- eapply Spawn_Add_ok; [done..|]. intros h2 ch2 w' Hi' Hs Hh2 _ Hl. apply safe_ret.
           split; [done|]. split; [done|]. intros k [= <-]. exists ch2. by split; [|right].
      * apply safe_ret. split; [done|]. split; [done|]. intros k. destruct (has_room ch) eqn:Er; [|done]. intros [= <-].
        exists ch. by split; [|left].
  - eapply safe_bind.
    { unfold ChannelCache_New. eapply safe_bind; [by apply alloc_Channel_ok|]. intros h w1 (Hi1 & Hs1 & Hh1).
      eapply safe_bind; [by eapply ChannelCache_Add_ok|]. intros _ w2 (Hi2 & Hs2 & Ech).
      apply (safe_ret h w2 (fun h w' => inv w' /\ same_people w w' /\ enterable h w')).
      split; [done|]. split; [by eapply same_people_trans|]. eexists. rewrite Ech. split; [exact Hh1|]. by right. }
    intros h w' (Hi' & Hs & He). apply safe_ret. split; [done|]. split; [done|]. by intros k [= <-].
Qed.
End tables.
