(* ===== verification/Commands.v ===== *)
(** * Commands: the chat commands

    blitzd/core/command: the parser of a chat line that starts with a slash,
    the table of commands and every handler, with the friend packets they
    send. *)

From S2P Require Import Prelude Words Stream OMap CStr NumFmt Storage UserItem UserCache Framing Packets World Chat.

(** ** Command::Process: the words of the line *)

Inductive command :=
  | CommandFriend | CommandWhisper | CommandReply | CommandChannels | CommandDND
  | CommandAway | CommandStatus | CommandJoin | CommandWhoIs.

(** The constructor's [Register] calls. *)
Definition registered : list (bytes * command) :=
  [(b# "f", CommandFriend); (b# "friend", CommandFriend);
   (b# "w", CommandWhisper); (b# "whisper", CommandWhisper); (b# "m", CommandWhisper);
   (b# "msg", CommandWhisper); (b# "message", CommandWhisper);
   (b# "r", CommandReply); (b# "reply", CommandReply); (b# "channels", CommandChannels);
   (b# "dnd", CommandDND); (b# "away", CommandAway); (b# "status", CommandStatus); (b# "users", CommandStatus);
   (b# "channel", CommandJoin); (b# "join", CommandJoin);
   (b# "whois", CommandWhoIs); (b# "where", CommandWhoIs); (b# "whereis", CommandWhoIs)].
Definition Register (m : list (bytes * command)) (e : bytes * command) : list (bytes * command) :=
  om_insert bytes_ltb e.1 e.2 m.
Definition cmd_map : list (bytes * command) := foldl Register [] registered.

Definition IsSingle (c : command) : bool :=
  match c with CommandFriend | CommandWhisper => false | _ => true end.

(** [text] with the command it selects and its two arguments; [None] when no
    command has the name.  The first byte, the slash, is skipped unread. *)
Definition parse_command (text : bytes) : option (command * bytes * bytes) :=
  let '(cmd, args) :=
    match find_char 32 text with
    | None => (drop 1 text, None)
    | Some pos => (drop 1 (take pos text), Some (skip_char 32 (drop (pos + 1) text)))
    end in
  h ← om_find bytes_ltb (strtolower cmd) cmd_map;
  match args with
  | None | Some [] => Some (h, [], [])
  | Some rest =>
      if IsSingle h then Some (h, rest, [])
      else match find_char 32 rest with
           | None => Some (h, rest, [])
           | Some e => Some (h, take e rest, skip_char 32 (drop (e + 1) rest))
           end
  end.

(** [_STR.strcmpi(arg1, w) == 0] for one of the words. *)
Definition is_word (arg : bytes) (l : list bytes) : bool := existsb (fun w => strcmpi arg w =? 0) l.

Section commands.
Context {S : Type} (store : Storage_ops S) (junk : nat -> bytes) (ufuel : nat).
Abbreviation M := (M S).

(** [Message::Send(&client, NULL, Message::Info, msg)], its result unused. *)
Definition Info (p : nat) (msg : bytes) : M unit := Send (Some p) None MsgInfo msg ;; mret tt.

(** [Cache::userCache[name]]. *)
Definition find_user (name : bytes) : M (option nat) := with_users (index_name store junk ufuel name).

(** ** Friend packets *)

(** Where a friend is: status, location, game tag and the name of the place. *)
Definition friend_place (fr : Friend_t) (clptr : option nat) : M (Z * Z * Z * bytes) :=
  match clptr with
  | None => mret (0, 0, 0, [])
  | Some q =>
      c ← client q;
      loc ← match c_game c with
            | Some g =>
                gm ← game g;
                mret (if Z.testbit (g_flag gm) 0
                      then (if mutual fr then (5, g_name gm) else (4, []))
                      else (3, g_name gm))
            | None =>
                match c_channel c with
                | Some h => ch ← channel h; mret (2, h_name ch)
                | None => mret (1, [])
                end
            end;
      let status := if mutual fr then 1 else 0 in
      let status := if Nat.eqb (length (c_dnd c)) 0 then status else Z.lor status 2 in
      let status := if Nat.eqb (length (c_away c)) 0 then status else Z.lor status 4 in
      mret (status, loc.1, c_gameid c, loc.2)
  end.

Definition put_place (x : Z * Z * Z * bytes) (st : Stream) : Stream :=
  let '(status, location, gameid, locname) := x in
  put_str locname (put_u32 gameid (put_u8 location (put_u8 status st))).

(** [BNetFriendUpdate::Pack] and [BNetFriendAdd::Pack]: [cl], or the client the
    friend is logged in on.  [fr] is the pointer the packet holds. *)
Definition friend_client (cl : option nat) (uname : bytes) : M (option nat) :=
  match cl with None => pool_name uname | Some q => mret (Some q) end.
Definition BNetFriendUpdate_Pack (index : Z) (cl : option nat) (fr : option Friend_t) : M (Stream -> option Stream) :=
  match fr with
  | None => crash
  | Some f =>
      match fuser f with
      | None => mret (fun _ => None)
      | Some q =>
          a ← account q; clptr ← friend_client cl (u_username a); place ← friend_place f clptr;
          mret (fun st => Some (put_place place (put_u8 index st)))
      end
  end.
Definition BNetFriendAdd_Pack (cl : option nat) (fr : option Friend_t) : M (Stream -> option Stream) :=
  match fr with
  | None => crash
  | Some f =>
      match fuser f with
      | None => mret (fun _ => None)
      | Some q =>
          a ← account q; clptr ← friend_client cl (u_username a); place ← friend_place f clptr;
          mret (fun st => Some (put_place place (put_cstr (u_username a) st)))
      end
  end.

(** [BNetFriendsList::Pack]: one entry per friend of the first [cc]. *)
Fixpoint friends_entries (l : list Friend_t) (st : Stream) : M Stream :=
  match l with
  | [] => mret st
  | f :: l' =>
      match fuser f with
      | None => friends_entries l' st
      | Some q =>
          a ← account q; clptr ← pool_name (u_username a); place ← friend_place f clptr;
          friends_entries l' (put_place place (put_cstr (u_username a) st))
      end
  end.
Definition BNetFriendsList_Pack (cl : nat) : M (Stream -> option Stream) :=
  c ← client cl;
  match c_user c with
  | None => mret (fun _ => None)
  | Some u =>
      a ← account u;
      let cc := u8 (GetFriendCount a) in
      body ← friends_entries (take (Z.to_nat cc) (u_friend_list a)) (put_u8 cc empty_stream);
      mret (fun st => Some (append (_buf body) st))
  end.

(** ** The handlers *)

Definition Away_Process (p : nat) (arg1 : bytes) : M unit :=
  c ← client p;
  edit_client p (set_c_away arg1) ;;
  match arg1 with
  | [] => if Nat.eqb (length (c_away c)) 0 then mret tt else Info p (b# "You have set your status back to online")
  | _ => Info p (b# "You have set your status to away (" ++ arg1 ++ b# ").")
  end.
Definition DND_Process (p : nat) (arg1 : bytes) : M unit :=
  c ← client p;
  edit_client p (set_c_dnd arg1) ;;
  match arg1 with
  | [] => if Nat.eqb (length (c_dnd c)) 0 then mret tt else Info p (b# "You have set your status back to online")
  | _ => Info p (b# "You have set your status to DND (" ++ arg1 ++ b# ").")
  end.

Definition Channels_Process (p : nat) : M unit :=
  c ← client p;
  item ← ChannelCache_tag (c_gameid c);
  Info p (b# "Channels:") ;;
  for_each item (fun h => ch ← channel h; Info p (b# "  " ++ h_name ch)).

(** One more round than the channel table has names is enough to find a free
    index. *)
Definition Ensure_any (name : bytes) (tag : Z) (country : bytes) : M (option nat) :=
  n ← get (fun w => length (w_channelmap w)); Ensure (Datatypes.S n) name tag country.

Definition Join_Process (p : nat) (arg1 : bytes) : M unit :=
  c ← client p;
  ptr ← Ensure_any arg1 (c_gameid c) (cstr (c_countryab c));
  match ptr with
  | Some h => Channel_Join h p
  | None => Info p (b# "The channel is full.")
  end.

Definition Reply_Process (p : nat) (arg1 : bytes) : M unit :=
  match arg1 with
  | [] => mret tt
  | _ => c ← client p; SendWhisper (c_lastWhisper c) p arg1 true ;; mret tt
  end.
Definition Whisper_Process (p : nat) (arg1 argr : bytes) : M unit :=
  match arg1, argr with
  | [], _ | _, [] => mret tt
  | _, _ => SendWhisper arg1 p argr true ;; mret tt
  end.

Definition Status_Process (p : nat) : M unit :=
  users ← get (fun w => GetCount (w_uc w));
  online ← get (fun w => u32 (Z.of_nat (length (w_clientMap w))));
  games ← get (fun w => u32 (Z.of_nat (length (w_game_map w))));
  m1 ← lift (deref (append_unsigned (b# "There are ") users));
  Info p (m1 ++ b# " registered users.") ;;
  m2 ← lift (deref (append_unsigned (b# "There are ") online));
  m3 ← lift (deref (append_unsigned (m2 ++ b# " online users in ") games));
  Info p (m3 ++ b# " games.").

Definition WhoIs_Process (p : nat) (arg1 : bytes) : M unit :=
  match arg1 with
  | [] => mret tt
  | _ =>
      r ← pool_name arg1;
      match r with
      | None => Info p (b# "The user is offline.")
      | Some q =>
          c ← client q;
          uname ← GetUsername q;
          match c_game c, c_channel c with
          | Some g, _ => gm ← game g; Info p (uname ++ b# " is in game '" ++ g_name gm ++ b# "'.")
          | None, Some h => ch ← channel h; Info p (uname ++ b# " is in channel '" ++ h_name ch ++ b# "'.")
          | None, None => Info p (uname ++ b# " is online.")
          end
      end
  end.

(** ** CommandFriend *)

Definition friend_help (p : nat) : M unit :=
  for_each [b# "Usage:"; b# "  /f h          show this help"; b# "  /f l          list friends";
            b# "  /f w/m <msg>  send whisper to all friends"; b# "  /f a <name>   add friend";
            b# "  /f r <name>   remove friend"; b# "  /f p <name>   promote friend";
            b# "  /f d <name>   demote friend"] (Info p).

(** The text after a friend's name; a friend who is in a game and has no
    channel pointer is the NULL dereference of the "in game" branch. *)
Definition friend_text (fr : Friend_t) (uname : bytes) : M bytes :=
  r ← pool_name uname;
  match r with
  | None => mret (b# "offline")
  | Some q =>
      c ← client q;
      match c_channel c, c_game c with
      | Some h, _ => if mutual fr then ch ← channel h; mret (b# "in channel " ++ h_name ch) else mret (b# "in a channel")
      | None, Some _ => if mutual fr then crash else mret (b# "in a game")
      | None, None => mret (b# "online")
      end
  end.
Definition friend_line (p : nat) (fr : Friend_t) : M unit :=
  match fuser fr with
  | None => crash
  | Some q =>
      a ← account q; utxt ← friend_text fr (u_username a);
      Info p (u_username a ++ b# ", " ++ utxt)
  end.
Definition friend_list (p : nat) : M unit :=
  Info p (b# "Your friends:") ;;
  c ← client p;
  match c_user c with
  | None => mret tt
  | Some u => a ← account u; for_each (u_friend_list a) (friend_line p)
  end.

(** [UserCacheItem::FriendWhisper]: the clients of the friends, as a set. *)
Fixpoint friend_clients (mut : bool) (l : list Friend_t) (toset : list nat) : M (list nat) :=
  match l with
  | [] => mret toset
  | fr :: l' =>
      c ← match fuser fr with
          | Some q => if negb mut || mutual fr then a ← account q; pool_name (u_username a) else mret None
          | None => mret None
          end;
      friend_clients mut l' (match c with Some q => set_insert q toset | None => toset end)
  end.
Definition FriendWhisper (u : nat) (from : nat) (text : bytes) (mut : bool) : M unit :=
  a ← account u;
  toset ← friend_clients mut (u_friend_list a) [];
  match toset with [] => mret tt | _ => SendSet toset (Some from) MsgWhisper text false ;; mret tt end.

Definition FriendSendInfo (u : nat) (text : bytes) (mut : bool) : M unit :=
  a ← account u;
  toset ← friend_clients mut (u_friend_list a) [];
  match toset with [] => mret tt | _ => SendSet toset None MsgInfo text false ;; mret tt end.

Definition friend_add (p : nat) (argr : bytes) : M unit :=
  user ← find_user argr;
  c ← client p;
  match user with
  | None => Info p (b# "The user does not exist!")
  | Some u =>
      if decide (c_user c = Some u) then Info p (b# "Can not add yourself!")
      else
        match c_user c with
        | None => mret tt
        | Some me =>
            r ← get (fun w => AddFriend me (Some u) (uc_heap (w_uc w)));
            let '(idx, mi, h) := r in
            modify (fun w => set_w_uc (with_heap h (w_uc w)) w) ;;
            let mutIdx := match mi with Some i => i | None => -1 end in
            a ← account me;
            if idx <? 0 then Info p (b# "Failed to add friend.")
            else if negb (u32 idx =? u32 (GetFriendCount a - 1)) then Info p (b# "The user is already in your friend list.")
            else
              ua ← account u;
              q ← pool_name (u_username ua);
              match q with
              | None => mret tt
              | Some q =>
                  when (0 <=? mutIdx)
                    (pk ← BNetFriendUpdate_Pack (u8 mutIdx) (Some p) (GetFriend mutIdx ua);
                     build_and_send q (BNet_Build cmd_FriendUpdate pk)) ;;
                  Info q (u_username a ++ b# " added you as his/her friend.")
              end ;;
              pk ← BNetFriendAdd_Pack q (GetFriend idx a);
              build_and_send p (BNet_Build cmd_FriendAdd pk) ;;
              Info p (b# "Added " ++ u_username ua ++ b# " to your friend list.")
        end
  end.

(** The three commands that look a friend up first. *)
Definition with_friend (p : nat) (argr : bytes) (k : nat -> nat -> UserCacheItem -> Z -> M unit) : M unit :=
  user ← find_user argr;
  match user with
  | None => Info p (b# "The user does not exist!")
  | Some u =>
      c ← client p;
      match c_user c with
      | None => mret tt
      | Some me =>
          a ← account me;
          let idx := FindFriend (Some u) a in
          if idx <? 0 then Info p (b# "The user is not in your friend list!") else k u me a idx
      end
  end.
Definition friend_remove (p : nat) (argr : bytes) : M unit :=
  with_friend p argr (fun u me a idx =>
    edit_account me (fun a => (RemoveFriend (Z.to_nat idx) a).2) ;;
    build_and_send p (BNet_Build cmd_FriendRemove (BNetFriendRemove_Pack (u8 idx))) ;;
    ua ← account u;
    Info p (b# "Removed " ++ u_username ua ++ b# " from your friend list.")).
Definition friend_demote (p : nat) (argr : bytes) : M unit :=
  with_friend p argr (fun u me a idx =>
    if u32 (idx + 1) <? GetFriendCount a then
      edit_account me (fun a => (MoveFriend (Z.to_nat idx) (Z.to_nat (idx + 1)) a).2) ;;
      build_and_send p (BNet_Build cmd_FriendPosition (BNetFriendPosition_Pack (u8 idx) (u8 (u8 idx + 1))))
    else mret tt).
Definition friend_promote (p : nat) (argr : bytes) : M unit :=
  with_friend p argr (fun u me a idx =>
    if 0 <? idx then
      edit_account me (fun a => (MoveFriend (Z.to_nat idx) (Z.to_nat (idx - 1)) a).2) ;;
      build_and_send p (BNet_Build cmd_FriendPosition (BNetFriendPosition_Pack (u8 idx) (u8 (u8 idx - 1))))
    else mret tt).

Definition Friend_Process (p : nat) (arg1 argr : bytes) : M unit :=
  if Nat.eqb (length arg1) 0 || is_word arg1 [b# "h"; b# "help"] then friend_help p
  else if is_word arg1 [b# "l"; b# "list"] then friend_list p
  else if is_word arg1 [b# "w"; b# "whisper"; b# "m"; b# "msg"] then
    match argr with
    | [] => mret tt
    | _ => c ← client p; match c_user c with None => mret tt | Some u => FriendWhisper u p argr false end
    end
  else if is_word arg1 [b# "a"; b# "add"] then friend_add p argr
  else if is_word arg1 [b# "del"; b# "delete"; b# "r"; b# "remove"] then friend_remove p argr
  else if is_word arg1 [b# "d"; b# "demote"] then friend_demote p argr
  else if is_word arg1 [b# "p"; b# "promote"] then friend_promote p argr
  else mret tt.

(** [Command::Process]. *)
Definition Command_Process (p : nat) (text : bytes) : M unit :=
  match parse_command text with
  | None => mret tt
  | Some (h, arg1, argr) =>
      match h with
      | CommandFriend => Friend_Process p arg1 argr
      | CommandWhisper => Whisper_Process p arg1 argr
      | CommandReply => Reply_Process p arg1
      | CommandChannels => Channels_Process p
      | CommandDND => DND_Process p arg1
      | CommandAway => Away_Process p arg1
      | CommandStatus => Status_Process p
      | CommandJoin => Join_Process p arg1
      | CommandWhoIs => WhoIs_Process p arg1
      end
  end.
End commands.

(** ** The parser *)

Lemma skip_char_replicate c n s : head s <> Some c -> skip_char c (replicate n c ++ s) = s.
Proof.
  intros Hs. induction n as [|n IH]; simpl; [|by rewrite Z.eqb_refl].
  destruct s as [|x s]; [done|]. simpl in *. rewrite (proj2 (Z.eqb_neq x c)); [done|congruence].
Qed.

(** A command line is read as its words: any name of the table, in any
    capitalisation, followed by any number of spaces and an argument, selects
    its handler; a handler with one argument gets the rest of the line
    verbatim, one with two gets the first word and the rest after the spaces;
    a name alone gets empty arguments; a name that is not in the table selects
    nothing; and every registered alias is in the table. *)
Theorem command_line_parsed name i arg1 j argr :
  Forall (fun x => x <> 32) name -> arg1 <> [] -> Forall (fun x => x <> 32) arg1 -> head argr <> Some 32 ->
  Forall (fun e => om_find bytes_ltb e.1 cmd_map = Some e.2) registered /\
  match om_find bytes_ltb (strtolower name) cmd_map with
  | Some h =>
      parse_command (47 :: name) = Some (h, [], []) /\
      parse_command ((47 :: name) ++ 32 :: replicate i 32 ++ arg1 ++ 32 :: replicate j 32 ++ argr) =
        Some (if IsSingle h then (h, arg1 ++ 32 :: replicate j 32 ++ argr, []) else (h, arg1, argr))
  | None => forall rest, parse_command (47 :: name) = None /\ parse_command ((47 :: name) ++ 32 :: rest) = None
  end.
Proof.
  intros Hn Hne Ha Hr. split; [repeat constructor|].
  assert (Forall (fun x => x <> 32) (47 :: name)) as Hn' by (by constructor).
  assert (find_char 32 (47 :: name) = None) as Hf by (by apply find_char_None).
  assert (forall s, parse_command ((47 :: name) ++ 32 :: s) =
    h ← om_find bytes_ltb (strtolower name) cmd_map;
    match skip_char 32 s with
    | [] => Some (h, [], [])
    | rest => if IsSingle h then Some (h, rest, [])
              else match find_char 32 rest with
                   | None => Some (h, rest, [])
                   | Some e => Some (h, take e rest, skip_char 32 (drop (e + 1) rest))
                   end
    end) as Hp.
  { intros s. unfold parse_command. rewrite find_char_app by done. rewrite take_app_length, Nat.add_1_r. cbn [drop].
    change (drop (length (47 :: name)) (name ++ 32 :: s)) with (drop (Datatypes.S (length name)) (name ++ 32 :: s)).
    rewrite <- Nat.add_1_r, drop_app_add. change (drop 1 (32 :: s)) with s. by destruct (om_find _ _ _), (skip_char 32 s). }
  destruct (om_find bytes_ltb (strtolower name) cmd_map) as [h|] eqn:Eh.
  - split; [unfold parse_command; rewrite Hf; cbv iota beta; change (drop 1 (47 :: name)) with name; by rewrite Eh|]. rewrite Hp. cbn [mbind option_bind].
    assert (exists x a, arg1 = x :: a /\ x <> 32) as (x & a & -> & Hx).
    { destruct arg1 as [|x a]; [done|]. exists x, a. by inversion Ha. }
    rewrite skip_char_replicate by (simpl; congruence).
    destruct (IsSingle h); [done|]. cbn [app]. rewrite app_comm_cons, find_char_app by done.
    rewrite take_app_length, Nat.add_1_r, <- Nat.add_1_r, drop_app_add. change (drop 1 (32 :: ?l)) with l.
    by rewrite skip_char_replicate.
  - intros rest. split; [unfold parse_command; rewrite Hf; cbv iota beta; change (drop 1 (47 :: name)) with name; by rewrite Eh|]. rewrite Hp. done.
Qed.

Lemma command_line_parsed_witness :
  parse_command ((47 :: b# "Whisper") ++ 32 :: replicate 2 32 ++ b# "bob" ++ 32 :: replicate 1 32 ++ b# "how are you") =
    Some (CommandWhisper, b# "bob", b# "how are you").
Proof.
  assert (om_find bytes_ltb (strtolower (b# "Whisper")) cmd_map = Some CommandWhisper) as E by (vm_compute; reflexivity).
  destruct (command_line_parsed (b# "Whisper") 2 (b# "bob") 1 (b# "how are you")) as [_ H];
    [apply (bool_decide_unpack _); vm_compute; exact I|discriminate|apply (bool_decide_unpack _); vm_compute; exact I|discriminate|].
  rewrite E in H. exact (proj2 H).
Defined.
