(* ===== verification/Handlers.v ===== *)
(** * Handlers: the BNet packet handlers

    blitzd/plugins/bnet and blitzd/plugins/udp/ConnTest2.cpp: what the server
    does with each packet, over the shared state.  A handler returns the
    [bool] its [Process] returns.  The memory its uninitialised locals hold is
    a parameter: [ju i] a scalar, [jb i n] an array of [n] bytes. *)

From S2P Require Import Prelude Words Stream OMap CStr ShaCtx Sha1 BSha1 Srp3 NumFmt Storage UserItem UserCache Framing Packets World Chat Commands.

Definition UCF_OLSAUTH : Z := 0x10000000.
Definition UCF_NLSAUTH : Z := 0x20000000.

(** [Utils::Reverse] on each of the five words of a digest. *)
Fixpoint reverse_words (n : nat) (b : bytes) : bytes :=
  match n with
  | O => []
  | Datatypes.S n' => le_bytes 4 (Reverse (le_val (take 4 b))) ++ reverse_words n' (drop 4 b)
  end.

Section handlers.
Context {S : Type} (store : Storage_ops S) (junk : nat -> bytes) (ufuel : nat).
Context (ju : nat -> Z) (jb : nat -> nat -> bytes).
Abbreviation M := (M S).

Definition send_bnet (p : nat) (cmd : Z) (pack : Stream -> option Stream) : M unit := build_and_send p (BNet_Build cmd pack).

(** ** Chat and games *)

Definition JoinChannel_Process (p : nat) (in_ : Stream) : M bool :=
  let '(flag, in_) := get_u32 (ju 0) in_ in
  let '(channelname, in_) := get_str in_ in
  c ← client p;
  ptr ← Ensure_any channelname (c_gameid c) (cstr (c_countryab c));
  match ptr with
  | Some h => Channel_Join h p ;; mret true
  | None => Info p (b# "The channel is full.") ;; mret true
  end.

Definition SendChat_Process (p : nat) (in_ : Stream) : M bool :=
  let '(text, in_) := get_str in_ in
  match text with
  | [] => mret false
  | x :: _ =>
      if x =? 47 then Command_Process store junk ufuel p text ;; mret true
      else
        c ← client p;
        match c_channel c with
        | None => mret false
        | Some h => Channel_Talk h p text ;; mret true
        end
  end.

Definition NotifyJoin_Process (p : nat) (in_ : Stream) : M bool :=
  let '(gameid, in_) := get_u32 (ju 0) in_ in
  let '(verid, in_) := get_u32 (ju 1) in_ in
  let '(name, in_) := get_str in_ in
  let '(pwd, in_) := get_str in_ in
  ptr ← GameCache_index name;
  match ptr with
  | Some g => Game_Join g p ;; mret true
  | None => mret true
  end.

Definition update_game (flag elapse type option ladder : Z) (gpass gstat : bytes) (gm : Game) : Game :=
  set_g_stat gstat (set_g_passwd gpass (UpdateStatus flag elapse type option ladder gm)).

(** The numbers of the new game object are uninitialised until [UpdateStatus]. *)
Definition StartAdvEx3_Process (p : nat) (in_ : Stream) : M bool :=
  let '(flag, in_) := get_u32 (ju 0) in_ in
  let '(elapse, in_) := get_u32 (ju 1) in_ in
  let '(type, in_) := get_u32 (ju 2) in_ in
  let '(option, in_) := get_u32 (ju 3) in_ in
  let '(ladder, in_) := get_u32 (ju 4) in_ in
  let '(gname, in_) := get_str in_ in
  let '(gpass, in_) := get_str in_ in
  let '(gstat, in_) := get_str in_ in
  ptr ← GameCache_index gname;
  status ← match ptr with
           | Some g =>
               gm ← game g;
               if Z.land (g_flag gm) 0x0E =? 0 then mret 1
               else edit_game g (update_game flag elapse type option ladder gpass gstat) ;; mret 0
           | None =>
               g ← GameCache_Add (ju 5, ju 6, ju 7, ju 8, ju 9) gname;
               edit_game g (update_game flag elapse type option ladder gpass gstat) ;;
               Game_Join g p ;; mret 0
           end;
  send_bnet p cmd_StartAdvEx3 (BNetStartAdvEx3_Pack status) ;; mret true.

Definition StopAdv_Process (p : nat) : M bool :=
  c ← client p;
  match c_game c with
  | Some g =>
      gm ← game g;
      if decide (g_host gm = Some p) then edit_game g (set_g_broadcast false) ;; mret true else mret true
  | None => mret true
  end.

Definition LeaveGame_Process (p : nat) : M bool := leave_game p ;; mret true.
Definition LeaveChat_Process (p : nat) : M bool := leave_channel p ;; mret true.

Definition EnterChat_Process (p : nat) (in_ : Stream) : M bool :=
  c ← client p;
  match c_user c with
  | None => mret false
  | Some u =>
      a ← account u;
      let '(dispname, in_) := get_str in_ in
      let uname := match dispname with [] => u_username a | _ => dispname end in
      send_bnet p cmd_EnterChat (BNetEnterChat_Pack uname (cstr (c_stats c)) (u_username a)) ;; mret true
  end.

(** ** Small ones *)

Definition NetGamePort_Process (p : nat) (in_ : Stream) : M bool :=
  let '(port, in_) := get_u16 (ju 0) in_ in edit_client p (set_c_gamePort port) ;; mret true.
Definition SwitchGameID_Process (p : nat) (in_ : Stream) : M bool :=
  let '(gameid, in_) := get_u32 (ju 0) in_ in edit_client p (set_c_gameid gameid) ;; mret true.
Definition Ping_Process (tick : Z) (p : nat) (in_ : Stream) : M bool :=
  let '(sid, in_) := get_u32 (ju 0) in_ in edit_client p (CheckEnd sid tick) ;; mret true.
Definition UDPResponse_Process (p : nat) : M bool := Client_DelFlag p UF_NOUDP ;; mret true.
Definition Null_Process (p : nat) : M bool := send_bnet p cmd_Null BNetNull_Pack ;; mret true.
Definition FriendsList_Process (p : nat) : M bool :=
  pk ← BNetFriendsList_Pack p; send_bnet p cmd_FriendsList pk ;; mret true.

(** [FriendUpdate] fills a packet and never sends it. *)
Definition FriendUpdate_Process (p : nat) (in_ : Stream) : M bool :=
  let '(index, in_) := get_u8 (ju 0) in_ in
  c ← client p;
  match c_user c with
  | None => mret true
  | Some u => a ← account u; mret true
  end.

(** [ConnTest2], a datagram: the client of an unknown token is dereferenced.
    The result has the datagram it answers with. *)
Definition ConnTest2_Process (ip port : Z) (in_ : Stream) : M (bool * option (Z * Z * option bytes)) :=
  if Nat.ltb (left in_) 8 then mret (false, None)
  else
    let '(token, in_) := get_u32 (ju 0) in_ in
    r ← pool_token token;
    match r with
    | None => crash
    | Some q => edit_client q (set_c_gameIp ip) ;; edit_client q (set_c_gamePort port) ;;
                mret (true, Some (ip, port, UDP_Build 5 UDPServerPing_Pack))
    end.

(** ** Accounts *)

Definition limited (username : bytes) : bytes := cstr (if Nat.ltb 15 (length username) then take 15 username else username).

Definition SetEmail_Process (p : nat) (in_ : Stream) : M bool :=
  let '(email, in_) := get_str in_ in
  c ← client p;
  match c_user c with
  | None => mret false
  | Some u => edit_account u (SetMail (match email with [] => [32] | _ => email end)) ;; mret true
  end.
Definition ChangeEmail_Process (p : nat) (in_ : Stream) : M bool :=
  let '(username, in_) := get_str in_ in
  let '(oldemail, in_) := get_str in_ in
  let '(newemail, in_) := get_str in_ in
  ptr ← find_user store junk ufuel username;
  match ptr with
  | None => mret false
  | Some u =>
      a ← account u;
      if decide (u_mail a = oldemail) then
        match newemail with [] => mret true | _ => edit_account u (SetMail newemail) ;; mret true end
      else mret false
  end.

(** [user->IsExist()] of what the lookup returned. *)
Definition existing (ptr : option nat) : M (option nat) :=
  match ptr with
  | None => mret None
  | Some u => a ← account u; mret (if IsExist a then Some u else None)
  end.

(** The hash of the two tokens and the stored password hash, word by word
    reversed. *)
Definition old_proof (token passwd : bytes) : bytes :=
  reverse_words 5 (default (jb 9 20) (bsha1_run (jb 8 64) [token; take 20 passwd]).2).

Definition OldAuthLogon2_Process (p : nat) (in_ : Stream) : M bool :=
  let '(_, token, in_) := read (jb 0 8) 8 in_ in
  let '(_, pwd, in_) := read (jb 1 20) 20 in_ in
  let '(username, in_) := get_str in_ in
  ptr ← find_user store junk ufuel (limited username);
  user ← existing ptr;
  match user with
  | None => send_bnet p cmd_OldAuthLogon2 (BNetOldAuthLogon2_Pack 1 []) ;; mret true
  | Some u =>
      a ← account u;
      if Z.land (GetFullFlag a) UCF_OLSAUTH =? 0 then
        send_bnet p cmd_OldAuthLogon2 (BNetOldAuthLogon2_Pack 6
          (b# "Your account is not used for this game, please use or register another account.")) ;; mret true
      else if decide (old_proof token (u_passwd a) = pwd) then
        SetUser p (Some u) ;;
        SetStage p BNET_LOGGEDIN ;;
        (match u_mail a with [] => send_bnet p cmd_ReqEmail BNetReqEmail_Pack | _ => mret tt end) ;;
        send_bnet p cmd_OldAuthLogon2 (BNetOldAuthLogon2_Pack 0 []) ;; mret true
      else send_bnet p cmd_OldAuthLogon2 (BNetOldAuthLogon2_Pack 2 []) ;; mret true
  end.

(** [Cache::userCache.Add(username)]. *)
Definition add_user (name : bytes) : M nat := with_users (fun c => Ret (Add junk name 0 c)).

Definition OldAccountCreate2_Process (p : nat) (in_ : Stream) : M bool :=
  let '(_, pwd, in_) := read (jb 0 20) 20 in_ in
  let '(username, in_) := get_str in_ in
  ptr ← find_user store junk ufuel (limited username);
  user ← existing ptr;
  match user with
  | Some _ => send_bnet p cmd_OldAccountCreate2 (BNetOldAccountCreate2_Pack 4) ;; mret true
  | None =>
      u ← add_user (limited username);
      edit_account u (SetPasswd pwd) ;;
      edit_account u (AddFlag UCF_OLSAUTH) ;;
      send_bnet p cmd_OldAccountCreate2 (BNetOldAccountCreate2_Pack 0) ;; mret true
  end.

Definition OldAccountChange_Process (p : nat) (in_ : Stream) : M bool :=
  let '(_, token, in_) := read (jb 0 8) 8 in_ in
  let '(_, pwd, in_) := read (jb 1 20) 20 in_ in
  let '(_, newpwd, in_) := read (jb 2 20) 20 in_ in
  let '(username, in_) := get_str in_ in
  ptr ← find_user store junk ufuel (limited username);
  user ← existing ptr;
  result ← match user with
           | None => mret 0
           | Some u =>
               a ← account u;
               if decide (old_proof token (u_passwd a) = pwd) then edit_account u (SetPasswd newpwd) ;; mret 1
               else mret 0
           end;
  send_bnet p cmd_OldAccountChange (BNetOldAccountChange_Pack result) ;; mret true.

Definition AccountCreate_Process (p : nat) (in_ : Stream) : M bool :=
  let '(_, salt, in_) := read (jb 0 32) 32 in_ in
  let '(_, verifier, in_) := read (jb 1 32) 32 in_ in
  let '(username, in_) := get_str in_ in
  ptr ← find_user store junk ufuel (limited username);
  user ← existing ptr;
  match user with
  | Some _ => send_bnet p cmd_AccountCreate (BNetAccountCreate_Pack 4) ;; mret true
  | None =>
      u ← add_user (limited username);
      edit_account u (SetSalt salt) ;;
      edit_account u (SetVerifier verifier) ;;
      edit_account u (AddFlag UCF_NLSAUTH) ;;
      send_bnet p cmd_AccountCreate (BNetAccountCreate_Pack 0) ;; mret true
  end.

(** ** The SRP logon *)

Context (G : Gmp) (stack_block : bytes).

(** The server half: the public key it sends and the two proofs it keeps.
    [rnd] is the random private key. *)
Definition srp_server (rnd : Z) (username salt verifier pubkey : bytes) : bytes * bytes * bytes :=
  let srp3 := init_server username salt rnd in
  let v := mpz_import G (take 32 verifier) in
  let A := mpz_import G pubkey in
  let '(B, srp3) := getServerSessionPublicKey G v srp3 in
  let '(K, srp3) := getHashedServerSecret G stack_block (jb 10 32) (jb 11 32) A v srp3 in
  let client_proof := getClientPasswordProof G stack_block (jb 12 32) (jb 13 32) (jb 14 40) A B K srp3 in
  let server_proof := getServerPasswordProof G stack_block (jb 15 32) (jb 16 40) A client_proof K in
  (overlay (mpz_export G B) (jb 17 32), server_proof, client_proof).

Definition AuthLogon_Process (rnd : Z) (p : nat) (in_ : Stream) : M bool :=
  let '(_, pubkey, in_) := read (jb 0 32) 32 in_ in
  let '(username, in_) := get_str in_ in
  let zero := replicate 32 0 in
  ptr ← find_user store junk ufuel (limited username);
  user ← existing ptr;
  match user with
  | None => send_bnet p cmd_AuthLogon (BNetAuthLogon_Pack 1 zero zero) ;; mret true
  | Some u =>
      a ← account u;
      if Z.land (GetFullFlag a) UCF_NLSAUTH =? 0 then
        send_bnet p cmd_AuthLogon (BNetAuthLogon_Pack 5 zero zero) ;; mret true
      else
        SetUser p (Some u) ;;
        let '(pub, server_proof, client_proof) := srp_server rnd (limited username) (u_salt a) (u_verifier a) pubkey in
        edit_client p (SetProof server_proof client_proof) ;;
        send_bnet p cmd_AuthLogon (BNetAuthLogon_Pack 0 (take 32 (u_salt a)) pub) ;; mret true
  end.

Definition AuthLogonProof_Process (p : nat) (in_ : Stream) : M bool :=
  let '(_, clientProof, in_) := read (jb 0 20) 20 in_ in
  c ← client p;
  if decide (clientProof = c_client_proof c) then
    mail ← match c_user c with Some u => a ← account u; mret (Some (u_mail a)) | None => mret None end;
    SetStage p BNET_LOGGEDIN ;;
    send_bnet p cmd_AuthLogonProof
      (BNetAuthLogonProof_Pack (match mail with Some [] => 0x0E | _ => 0 end) (c_server_proof c) []) ;; mret true
  else send_bnet p cmd_AuthLogonProof (BNetAuthLogonProof_Pack 2 (replicate 20 0) []) ;; mret true.

(** [AccountChange] does not ask whether the account exists or which logon it
    uses. *)
Definition AccountChange_Process (rnd : Z) (p : nat) (in_ : Stream) : M bool :=
  let '(_, pubkey, in_) := read (jb 0 32) 32 in_ in
  let '(username, in_) := get_str in_ in
  let zero := replicate 32 0 in
  ptr ← find_user store junk ufuel (limited username);
  match ptr with
  | None => send_bnet p cmd_AccountChange (BNetAccountChange_Pack 1 zero zero) ;; mret true
  | Some u =>
      a ← account u;
      SetUser p (Some u) ;;
      let '(pub, server_proof, client_proof) := srp_server rnd (limited username) (u_salt a) (u_verifier a) pubkey in
      edit_client p (SetProof server_proof client_proof) ;;
      send_bnet p cmd_AccountChange (BNetAccountChange_Pack 0 (take 32 (u_salt a)) pub) ;; mret true
  end.

Definition AccountChangeProof_Process (p : nat) (in_ : Stream) : M bool :=
  let '(_, clientProof, in_) := read (jb 0 20) 20 in_ in
  c ← client p;
  r ← match c_user c with
      | Some u =>
          if decide (clientProof = c_client_proof c) then
            let '(_, s, in_) := read (jb 1 32) 32 in_ in
            let '(_, v, in_) := read (jb 2 32) 32 in_ in
            edit_account u (SetSalt s) ;; edit_account u (SetVerifier v) ;; mret (0, c_server_proof c)
          else mret (2, replicate 20 0)
      | None => mret (2, replicate 20 0)
      end;
  SetUser p None ;;
  send_bnet p cmd_AccountChangeProof (BNetAccountChangeProof_Pack r.1 r.2) ;; mret true.
End handlers.
