(* ===== verification/ChatSafe.v ===== *)
(** * ChatSafe: the server survives its chat traffic

    Every handler of the chat side runs without touching a dead object and
    keeps the invariant, in every state that connections, logons and packets
    can lead to; and what the handlers deliver. *)

From Stdlib Require Import Sorted.
From S2P Require Import Prelude Words Stream OMap CStr ShaCtx Sha1 BSha1 Srp3 NumFmt Storage UserItem UserCache Framing Packets World Chat ChatInv ChatOps ChatLife ChatTables Commands Handlers.

Section safe.
Context {S : Type}.
Implicit Types (w : World S).

(** ** Operations that touch nothing the invariant looks at *)

Lemma frame_refl w : frame w w.
Proof. split; [done|]. split; [|done]. eauto. Qed.
Lemma inv_add_out o w : inv w -> inv (add_out o w).
Proof. intros Hi. apply (frame_inv w); [done| |apply okx_add_out, Hi]. by apply (keeps_frame 0), keeps_add_out. Qed.

(** [m] returns and ends in a good state in which the live clients are those
    of [w], with the same accounts. *)
Definition ok_in {A} (m : M S A) w : Prop := safe m w (fun _ w' => inv w' /\ frame w w').

Lemma ok_ret {A} (a : A) w : inv w -> ok_in (mret a) w.
Proof. intros Hi. apply safe_ret. split; [done|apply frame_refl]. Qed.
Lemma ok_bind {A B} (m : M S A) (f : A -> M S B) w :
  ok_in m w -> (forall a w', inv w' -> frame w w' -> ok_in (f a) w') -> ok_in (mbind f m) w.
Proof.
  intros Hm Hf. eapply safe_bind; [exact Hm|]. intros a w' [Hi Hfr].
  eapply safe_mono; [by apply Hf|]. intros b w2 [Hi2 Hfr2]. split; [done|]. by eapply frame_trans.
Qed.
Lemma ok_then {A B} (m : M S A) (f : A -> M S B) w a :
  m w = Ret (a, w) -> ok_in (f a) w -> ok_in (mbind f m) w.
Proof. intros Hm Hf. by eapply safe_eq. Qed.
Lemma ok_out {A} (m : M S A) w a o : inv w -> m w = Ret (a, add_out o w) -> ok_in m w.
Proof.
  intros Hi Hm. exists a, (add_out o w). split; [done|]. split; [by apply inv_add_out|].
  apply (keeps_frame 0), keeps_add_out.
Qed.
Lemma frame_live w w' p : frame w w' -> is_Some (w_clients w !! p) -> is_Some (w_clients w' !! p).
Proof. intros (_ & Hc & _) [c Hp]. destruct (Hc p c Hp) as (c' & Hc' & _). by eexists. Qed.

Lemma inv_client_ok w p : inv w -> is_Some (w_clients w !! p) -> client_ok w p.
Proof. intros Hi [c Hc]. eapply okx_client_ok; [apply Hi|done]. Qed.

(** A change of a client that keeps its account, channel and game. *)
Lemma edit_client_ok p f w :
  inv w -> is_Some (w_clients w !! p) ->
  (forall c, c_user (f c) = c_user c /\ c_channel (f c) = c_channel c /\ c_game (f c) = c_game c) ->
  ok_in (edit_client p f) w.
Proof.
  intros Hi [c Hc] Hf. destruct (Hf c) as (P1 & P2 & P3). pose proof (proj1 Hi) as Hok.
  exists tt, (set_w_clients (<[p := f c]> (w_clients w)) w). split; [by apply edit_client_eq|].
  assert (frame w (set_w_clients (<[p := f c]> (w_clients w)) w)) as Hfr.
  { destruct w; cbn in *. split; [done|]. cbn. split; [|done]. intros q d Hd. rewrite lookup_insert.
    case_decide; [|by eauto]. subst q. exists (f c). split; [done|]. congruence. }
  split; [|done]. apply (frame_inv w); [done..|]. apply okx_edit_client with (ex := []) (c := c); try done.
  - rewrite P1. intros. by eapply wk_user.
  - rewrite P2. intros. by eapply wk_chan.
  - rewrite P2. intros h ch Hch Hp. destruct (wk_member _ _ Hok h ch p Hch Hp) as (d & Hd & E). congruence.
  - rewrite P3. intros. by eapply wk_ingame.
  - rewrite P3. intros g gm Hgm Hp. destruct (ok_player g gm p w Hok Hgm Hp) as (d & Hd & E). left. congruence.
Qed.
Lemma set_c_proj c :
  (forall v, c_user (set_c_lastWhisper v c) = c_user c /\ c_channel (set_c_lastWhisper v c) = c_channel c /\ c_game (set_c_lastWhisper v c) = c_game c) /\
  (forall v, c_user (set_c_away v c) = c_user c /\ c_channel (set_c_away v c) = c_channel c /\ c_game (set_c_away v c) = c_game c) /\
  (forall v, c_user (set_c_dnd v c) = c_user c /\ c_channel (set_c_dnd v c) = c_channel c /\ c_game (set_c_dnd v c) = c_game c).
Proof. by destruct c. Qed.

(** ** Messages *)

Lemma Send_ok t conn type msg w :
  inv w -> is_Some (w_clients w !! t) -> (forall q, conn = Some q -> is_Some (w_clients w !! q)) ->
  (type = MsgWhisper -> conn <> None) -> ok_in (Send (Some t) conn type msg) w.
Proof.
  intros Hi Ht Hq Hty.
  assert (sender_ok w conn) as Hs by (intros q ->; apply inv_client_ok; [done|by apply Hq]).
  destruct (decide (type = MsgWhisper)) as [->|Hne].
  - destruct conn as [q|]; [|by destruct (Hty eq_refl)]. unfold Send.
    destruct (BuildMessagePacket_total (Some q) MsgWhisper msg w Hs) as [b Hb].
    eapply ok_then; [exact Hb|]. destruct Ht as [c Hc]. eapply ok_bind; [eapply ok_out; [done|by eapply send_eq]|].
    intros _ w1 Hi1 Hfr1. cbn [when Z.eqb MsgWhisper]. eapply ok_bind; [|intros; by apply ok_ret].
    destruct (GetUsername_total q w1) as [n Hn].
    { apply inv_client_ok; [done|]. eapply frame_live; [done|by apply Hq]. }
    change (MsgWhisper =? MsgWhisper) with true. cbn [when]. eapply ok_then; [exact Hn|].
    apply edit_client_ok; [done|eapply frame_live; [done|by eexists]|]. intros c'. apply (set_c_proj c').
  - destruct (Send_total t conn type msg w) as [b Hb]; [by apply inv_client_ok|done..|]. by eapply ok_out.
Qed.

Lemma Info_ok p msg w : inv w -> is_Some (w_clients w !! p) -> ok_in (Info p msg) w.
Proof.
  intros Hi Hp. unfold Info. eapply ok_bind; [by apply Send_ok|]. intros. by apply ok_ret.
Qed.

Lemma for_each_ok {A} (l : list A) (f : A -> M S unit) (P : A -> World S -> Prop) w :
  inv w -> (forall a w1 w2, P a w1 -> frame w1 w2 -> P a w2) -> (forall a, a ∈ l -> P a w) ->
  (forall a w, inv w -> P a w -> ok_in (f a) w) -> ok_in (for_each l f) w.
Proof.
  intros Hi Hm HP Hf. revert w Hi HP. induction l as [|a l IH]; intros w Hi HP; cbn [for_each]; [by apply ok_ret|].
  eapply ok_bind; [apply Hf; [done|apply HP; left]|]. intros _ w' Hi' Hfr. apply IH; [done|].
  intros b Hb. eapply Hm; [apply HP; by right|done].
Qed.

Lemma pool_live n q w : inv w -> om_find ci_ltb n (w_clientMap w) = Some q -> is_Some (w_clients w !! q).
Proof. intros (_ & Hp & _) Hn. destruct (Hp n q Hn) as (c & _ & _ & Hc & _). by eexists. Qed.

Lemma GetUsername_ok q w {B} (f : bytes -> M S B) :
  inv w -> is_Some (w_clients w !! q) -> (forall n, ok_in (f n) w) -> ok_in (mbind f (GetUsername q)) w.
Proof.
  intros Hi Hq Hf. destruct (GetUsername_total q w) as [n Hn]; [by apply inv_client_ok|]. by eapply ok_then.
Qed.

Lemma SendWhisper_ok name p msg w :
  inv w -> is_Some (w_clients w !! p) -> ok_in (SendWhisper name p msg true) w.
Proof.
  intros Hi Hp. unfold SendWhisper.
  assert (safe (FindOnlineUser name p true) w (fun r w' => inv w' /\ frame w w' /\
    forall q, r = Some q -> is_Some (w_clients w' !! q))) as Hfind.
  { unfold FindOnlineUser, pool_name. eapply safe_eq; [reflexivity|].
    assert (forall msg, safe (mbind (fun _ => mret None) (Send (Some p) None MsgInfo msg)) w
      (fun (r : option nat) w' => inv w' /\ frame w w' /\ forall q, r = Some q -> is_Some (w_clients w' !! q))) as Hno.
    { intros m. eapply safe_bind; [by apply (Send_ok p None MsgInfo m w)|]. intros _ w' [Hi' Hfr]. by apply safe_ret. }
    destruct (om_find ci_ltb name (w_clientMap w)) as [q|] eqn:E; [|apply Hno].
    destruct (Nat.eqb q p); [apply Hno|]. destruct (pool_live _ _ _ Hi E) as [c Hc].
    eapply safe_eq; [by apply client_eq|]. destruct (Nat.eqb _ 0).
    - apply safe_ret. split; [done|]. split; [apply frame_refl|]. intros ? [= <-]. by eexists.
    - destruct (GetUsername_total q w) as [n Hn]; [apply inv_client_ok; [done|by eexists]|].
      eapply safe_bind; [eapply safe_eq; [exact Hn|]; by apply (Send_ok p None MsgInfo _ w)|].
      intros _ w' [Hi' Hfr]. by apply safe_ret. }
  eapply safe_bind; [exact Hfind|]. intros r w1 (Hi1 & Hfr1 & Hr).
  eapply safe_mono with (R := fun _ w' => inv w' /\ frame w1 w').
  2:{ intros b w2 [Hi2 Hfr2]. split; [done|]. by eapply frame_trans. }
  destruct r as [q|]; [|by apply ok_ret]. specialize (Hr q eq_refl). pose proof (frame_live _ _ _ Hfr1 Hp) as Hp1.
  eapply ok_bind.
  { eapply ok_bind; [apply Send_ok; [done..|by intros ? [= <-]|done]|]. intros _ w2 Hi2 Hfr2.
    pose proof (frame_live _ _ _ Hfr2 Hr) as [c Hc]. eapply ok_then; [by apply client_eq|].
    destruct (Nat.eqb _ 0); [by apply ok_ret|]. apply GetUsername_ok; [done|by eexists|]. intros n.
    apply Send_ok; [done|by eapply frame_live|done|done]. }
  intros _ w2 Hi2 Hfr2. eapply ok_bind; [|intros; by apply ok_ret].
  apply Send_ok; [done|by eapply frame_live|intros ? [= <-]; by eapply frame_live|done].
Qed.

(** ** Commands *)

(** [m] returns and keeps the invariant. *)
Definition survives {A} (m : M S A) w : Prop := safe m w (fun _ w' => inv w').

Lemma ok_survives {A} (m : M S A) w : ok_in m w -> survives m w.
Proof. intros Hm. eapply safe_mono; [exact Hm|]. by intros a w' [Hi _]. Qed.
Lemma survives_then {A} (m : M S A) (b : bool) w : survives m w -> survives (mbind (fun _ => mret b) m) w.
Proof. intros Hm. eapply safe_bind; [exact Hm|]. intros a w' Hi. by apply safe_ret. Qed.

Lemma Away_ok p arg w : inv w -> is_Some (w_clients w !! p) -> ok_in (Away_Process p arg) w.
Proof.
  intros Hi Hp. unfold Away_Process. pose proof Hp as [c Hc]. eapply ok_then; [by apply client_eq|].
  eapply ok_bind; [apply edit_client_ok; [done|done|intros c'; apply (set_c_proj c')]|]. intros _ w' Hi' Hfr.
  pose proof (frame_live _ _ _ Hfr Hp). destruct arg; [destruct (Nat.eqb _ 0); [by apply ok_ret|]|]; by apply Info_ok.
Qed.
Lemma DND_ok p arg w : inv w -> is_Some (w_clients w !! p) -> ok_in (DND_Process p arg) w.
Proof.
  intros Hi Hp. unfold DND_Process. pose proof Hp as [c Hc]. eapply ok_then; [by apply client_eq|].
  eapply ok_bind; [apply edit_client_ok; [done|done|intros c'; apply (set_c_proj c')]|]. intros _ w' Hi' Hfr.
  pose proof (frame_live _ _ _ Hfr Hp). destruct arg; [destruct (Nat.eqb _ 0); [by apply ok_ret|]|]; by apply Info_ok.
Qed.

Lemma Channels_ok p w : inv w -> is_Some (w_clients w !! p) -> survives (Channels_Process p) w.
Proof.
  intros Hi Hp. unfold Channels_Process. pose proof Hp as [c Hc]. eapply safe_eq; [by apply client_eq|].
  set (l := game_channels (c_gameid c) w).
  set (w1 := set_w_game_channelmap (om_insert Z.ltb (c_gameid c) l (w_game_channelmap w)) w).
  assert (ChannelCache_tag (c_gameid c) w = Ret (l, w1)) as Ht by done.
  assert (forall h, h ∈ l -> is_Some (w_channels w !! h)) as Hl.
  { intros h Hh. unfold l, game_channels in Hh. destruct (om_find Z.ltb _ _) eqn:E; [|by apply not_elem_of_nil in Hh].
    by eapply (proj2 (proj2 (proj2 Hi))). }
  assert (inv w1) as Hi1.
  { destruct Hi as (Hok & Hpool & Ht1 & Ht2). split; [by apply okx_game_channelmap|]. subst w1. destruct w; cbn in *.
    split; [done|]. split; [done|]. intros tag k h. cbn. rewrite find_ids_insert. case_decide; [|apply Ht2].
    intros [= <-]. apply Hl. }
  eapply safe_eq; [exact Ht|]. apply ok_survives.
  assert (is_Some (w_clients w1 !! p)) as Hp1 by (subst w1; by destruct w).
  eapply ok_bind; [by apply Info_ok|]. intros _ w2 Hi2 Hfr2. pose proof (frame_live _ _ _ Hfr2 Hp1) as Hp2.
  apply (for_each_ok _ _ (fun h w => is_Some (w_channels w !! h) /\ is_Some (w_clients w !! p))); [done| | |].
  - intros h wa wb [Hh Hpa] Hfr. split; [by apply Hfr|by eapply frame_live].
  - intros h Hh. split; [|done]. apply Hfr2. subst w1. destruct w; cbn in *. auto.
  - intros h wa Hia [[ch Hch] Hpa]. eapply ok_then; [by apply channel_eq|]. by apply Info_ok.
Qed.

(** Room for one more channel name. *)
Definition table_room w : Prop := Z.of_nat (length (w_channelmap w)) < 2 ^ 31 - 3.

Lemma join_any p name w (full : M S unit) :
  inv w -> is_Some (w_clients w !! p) -> no_nul name -> table_room w ->
  (forall w', inv w' -> is_Some (w_clients w' !! p) -> survives full w') ->
  survives (c ← client p; ptr ← Ensure_any name (c_gameid c) (cstr (c_countryab c));
            match ptr with Some h => Channel_Join h p | None => full end) w.
Proof.
  intros Hi Hp Hn Hroom Hfull. pose proof Hp as [c Hc]. eapply safe_eq; [by apply client_eq|].
  unfold Ensure_any. eapply safe_bind.
  { eapply safe_eq; [reflexivity|]. apply (Ensure_ok (Datatypes.S (length (w_channelmap w)))); [done|done|apply cstr_nz|lia|unfold table_room in Hroom; lia]. }
  intros r w1 (Hi1 & Hs1 & He). assert (w_clients w1 = w_clients w) as Ec by (unfold same_people in Hs1; congruence).
  assert (w_clients w1 !! p = Some c) as Hc1 by (by rewrite Ec).
  destruct r as [h|]; [|apply Hfull; [done|by eexists]].
  destruct (He h eq_refl) as (ch & Hch & _).
  eapply safe_mono; [apply (Channel_Join_ok p c h w1); [apply Hi1|done|by eexists]|].
  intros [] w2 (Hok2 & Hk2 & _). by eapply keeps_inv.
Qed.

Lemma Status_ok p w :
  inv w -> is_Some (w_clients w !! p) -> 0 <= uc_count (w_uc w) < 2 ^ 32 -> ok_in (Status_Process p) w.
Proof.
  intros Hi Hp Hcnt. unfold Status_Process.
  assert (forall str v, 0 <= v < 2 ^ 32 -> append_unsigned str v = Some (str ++ fmt_dec false 0 v)) as Happ.
  { intros str v Hv. unfold append_unsigned, append_as. apply put64_fits.
    pose proof (fmt_dec_length false 0 Tunsigned v ltac:(unfold in_range; simpl; lia)). lia. }
  assert (forall z, 0 <= u32 z < 2 ^ 32) as Hu by (intros z; unfold u32; apply Z.mod_pos_bound; lia).
  do 3 (eapply ok_then; [reflexivity|]). unfold GetCount. rewrite (Happ (b# "There are ") (uc_count (w_uc w))) by done.
  eapply ok_then; [reflexivity|]. eapply ok_bind; [by apply Info_ok|]. intros _ w1 Hi1 Hfr1.
  rewrite Happ by apply Hu. eapply ok_then; [reflexivity|]. rewrite Happ by apply Hu. eapply ok_then; [reflexivity|].
  apply Info_ok; [done|by eapply frame_live].
Qed.

Lemma WhoIs_ok p arg w : inv w -> is_Some (w_clients w !! p) -> ok_in (WhoIs_Process p arg) w.
Proof.
  intros Hi Hp. unfold WhoIs_Process, pool_name. destruct arg as [|x arg]; [by apply ok_ret|].
  eapply ok_then; [reflexivity|]. destruct (om_find ci_ltb (x :: arg) (w_clientMap w)) as [q|] eqn:E; [|by apply Info_ok].
  pose proof (pool_live _ _ _ Hi E) as Hq. pose proof Hq as [c Hc]. eapply ok_then; [by apply client_eq|].
  apply GetUsername_ok; [done|done|]. intros n. destruct (c_game c) as [g|] eqn:Eg.
  - destruct (wk_ingame _ _ (proj1 Hi) q c g Hc Eg) as (gm & Hgm & _). eapply ok_then; [by apply game_eq|]. by apply Info_ok.
  - destruct (c_channel c) as [h|] eqn:Eh; [|by apply Info_ok].
    destruct (wk_chan _ _ (proj1 Hi) q c h Hc Eh) as [ch Hch]. eapply ok_then; [by apply channel_eq|]. by apply Info_ok.
Qed.

(** The text of a command, and its arguments, have no NUL. *)
Lemma no_nul_take n s : no_nul s -> no_nul (take n s).
Proof. apply Forall_take. Qed.
Lemma no_nul_drop n s : no_nul s -> no_nul (drop n s).
Proof. apply Forall_drop. Qed.
Lemma no_nul_skip c s : no_nul s -> no_nul (skip_char c s).
Proof. induction 1; simpl; [constructor|]. btest; [done|]. by constructor. Qed.
Lemma parse_command_no_nul text h a r : no_nul text -> parse_command text = Some (h, a, r) -> no_nul a.
Proof.
  intros Ht. unfold parse_command. destruct (find_char 32 text) as [pos|].
  - set (rest := skip_char 32 (drop (pos + 1) text)). assert (no_nul rest) as Hr by (by apply no_nul_skip, no_nul_drop).
    destruct (om_find bytes_ltb _ cmd_map) as [h'|]; [|done]. cbn [mbind option_bind]. destruct rest as [|x rest'] eqn:Er.
    + intros [= <- <- <-]. constructor.
    + destruct (IsSingle h'); [intros [= <- <- <-]; done|].
      destruct (find_char 32 (x :: rest')); intros [= <- <- <-]; [by apply no_nul_take|done].
  - destruct (om_find bytes_ltb _ cmd_map) as [h'|]; [|done]. intros [= <- <- <-]. constructor.
Qed.

(** ** Games and channels *)

Lemma edit_game_ok g f w :
  inv w -> is_Some (w_games w !! g) ->
  (forall gm, g_name (f gm) = g_name gm /\ g_connlist (f gm) = g_connlist gm /\ g_host (f gm) = g_host gm) ->
  safe (edit_game g f) w (fun _ w' => inv w' /\ frame w w' /\ is_Some (w_games w' !! g)).
Proof.
  intros Hi [gm Hg] Hf. destruct (Hf gm) as (P1 & P2 & P3). pose proof (proj1 Hi) as Hok.
  exists tt, (set_w_games (<[g := f gm]> (w_games w)) w). split; [by apply edit_game_eq|].
  assert (frame w (set_w_games (<[g := f gm]> (w_games w)) w)) as Hfr by (apply (keeps_frame 0), keeps_games).
  split; [|split; [done|destruct w; cbn; rewrite lookup_insert_eq; by eexists]]. apply (frame_inv w); [done..|]. apply okx_set_game with (ex := []) (gm := gm); try done.
  - rewrite P2. by eapply wk_nodup.
  - unfold host_ok. rewrite P2, P3. by eapply wk_host.
  - rewrite P2. intros q Hq. eapply (wk_player _ _ Hok); done.
  - intros q c Hq Hc. rewrite P2. destruct (wk_ingame _ _ Hok q c g Hq Hc) as (gm' & Hgm' & Hin). congruence.
Qed.

Lemma update_game_proj f e t o l p s gm :
  g_name (update_game f e t o l p s gm) = g_name gm /\ g_connlist (update_game f e t o l p s gm) = g_connlist gm /\
  g_host (update_game f e t o l p s gm) = g_host gm.
Proof. by destruct gm. Qed.

Lemma Game_Join_survives g p w :
  inv w -> is_Some (w_clients w !! p) -> is_Some (w_games w !! g) ->
  safe (Game_Join g p) w (fun _ w' => inv w' /\ is_Some (w_clients w' !! p)).
Proof.
  intros Hi [c Hc] Hg. eapply safe_mono; [apply (Game_Join_ok p c g w); [apply Hi|done..]|].
  intros [] w' (Hok' & Hk & (c' & Hc' & _) & _). split; [by eapply keeps_inv|by eexists].
Qed.

Lemma send_bnet_ok p cmd pack w : inv w -> is_Some (w_clients w !! p) -> ok_in (send_bnet p cmd pack) w.
Proof.
  intros Hi [c Hc]. unfold send_bnet, build_and_send. destruct (BNet_Build cmd pack); [|by apply ok_ret].
  eapply ok_out; [done|by eapply send_eq].
Qed.

(** [Channel_Talk]: every member but the speaker gets the event, in the order
    of the set. *)
Lemma Talk_eq h ch p text w :
  inv w -> is_Some (w_clients w !! p) -> w_channels w !! h = Some ch ->
  exists b, BuildMessagePacket (Some p) MsgTalk text w = Ret (Some b, w) /\
    Channel_Talk h p text w = Ret (tt, add_out ((fun t => (t, b)) <$> base.filter (fun t => Some t <> Some p) (h_connset ch)) w).
Proof.
  intros Hi Hp Hh. unfold Channel_Talk.
  destruct (SendSet_total (h_connset ch) (Some p) MsgTalk text true w) as (b & Hb & Hs).
  - by apply (members_alive [] h ch w (proj1 Hi)).
  - intros q [= <-]. by apply inv_client_ok.
  - done.
  - exists b. split; [done|]. rewrite (bind_eq _ _ _ _ _ (channel_eq _ _ _ Hh)). by rewrite (bind_eq _ _ _ _ _ Hs).
Qed.

Lemma leave_channel_survives p w : inv w -> is_Some (w_clients w !! p) -> survives (leave_channel p) w.
Proof.
  intros Hi [c Hc]. eapply safe_mono; [by apply leave_channel_ok with (ex := []) (c := c); [apply Hi|]|].
  intros [] w' (Hok' & Hk & _). by eapply keeps_inv.
Qed.
Lemma leave_game_survives p w : inv w -> is_Some (w_clients w !! p) -> survives (leave_game p) w.
Proof.
  intros Hi [c Hc]. eapply safe_mono; [apply leave_game_ok with (ex := []) (c := c); [apply Hi|done|set_solver]|].
  intros [] w' (Hok' & Hk & _). by eapply keeps_inv.
Qed.
End safe.

(** ** The traffic *)

Section traffic.
Context {S : Type} (store : Storage_ops S) (junk : nat -> bytes) (ufuel : nat) (ju : nat -> Z).
Implicit Types (w : World S).

(** What happens to the server: channels are configured, connections come and go, a logon or a password
    change names one or takes its name away, and chat packets arrive. *)
Inductive event :=
  | ELoadChannel (shortname name : bytes) (tag flag maxUser : Z) (byCountry byIndex : bool)
  | EConnect (token ip : Z) (j1 j2 : bytes)
  | EDisconnect (p : nat)
  | ELogon (p u : nat)
  | ELogoff (p : nat)
  | EJoinChannel (p : nat) (in_ : Stream)
  | ESendChat (p : nat) (in_ : Stream)
  | ENotifyJoin (p : nat) (in_ : Stream)
  | EStartAdvEx3 (p : nat) (in_ : Stream)
  | EStopAdv (p : nat)
  | ELeaveGame (p : nat)
  | ELeaveChat (p : nat).

Definition perform (e : event) : M S unit :=
  match e with
  | ELoadChannel sn n tag flag mu bc bi => ChannelCache_New sn n tag flag mu bc bi ;; mret tt
  | EConnect token ip j1 j2 => new_Client token ip j1 j2 ;; mret tt
  | EDisconnect p => delete_Client p
  | ELogon p u => SetUser p (Some u) ;; SetStage p BNET_LOGGEDIN
  | ELogoff p => SetUser p None
  | EJoinChannel p in_ => JoinChannel_Process ju p in_ ;; mret tt
  | ESendChat p in_ => SendChat_Process store junk ufuel p in_ ;; mret tt
  | ENotifyJoin p in_ => NotifyJoin_Process ju p in_ ;; mret tt
  | EStartAdvEx3 p in_ => StartAdvEx3_Process ju p in_ ;; mret tt
  | EStopAdv p => StopAdv_Process p ;; mret tt
  | ELeaveGame p => LeaveGame_Process p ;; mret tt
  | ELeaveChat p => LeaveChat_Process p ;; mret tt
  end.

Definition event_client (e : event) : option nat :=
  match e with
  | ELoadChannel _ _ _ _ _ _ _ | EConnect _ _ _ _ => None
  | EDisconnect p | ELogon p _ | ELogoff p | EJoinChannel p _ | ESendChat p _ | ENotifyJoin p _
  | EStartAdvEx3 p _ | EStopAdv p | ELeaveGame p | ELeaveChat p => Some p
  end.

(** The friend commands are the ones left out: they reach the account store,
    and one of them has a NULL dereference ([friend_list_crashes]). *)
Definition friend_command (text : bytes) : bool :=
  match parse_command text with Some (CommandFriend, _, _) => true | _ => false end.

(** An event the network can deliver in [w]: its connection is open, its
    account is loaded; and the counters have room. *)
Definition deliverable (e : event) w : Prop :=
  (forall p, event_client e = Some p -> is_Some (w_clients w !! p)) /\
  (forall sn n tag flag mu bc bi, e = ELoadChannel sn n tag flag mu bc bi -> no_nul n) /\
  (forall p u, e = ELogon p u -> is_Some (uc_heap (w_uc w) !! u)) /\
  (forall p in_, e = ESendChat p in_ -> friend_command (get_str in_).1 = false) /\
  table_room w /\ 0 <= uc_count (w_uc w) < 2 ^ 32.

(** The state of a server that has just started, over an account cache. *)
Definition start_world (uc : UC S) : World S := mkWorld ∅ ∅ ∅ 0 0 [] [] [] [] [] uc [].

Inductive reachable (uc : UC S) : World S -> Prop :=
  | reach_start : reachable uc (start_world uc)
  | reach_step w e w' : reachable uc w -> deliverable e w -> perform e w = Ret (tt, w') -> reachable uc w'.

Lemma start_inv uc : inv (start_world uc).
Proof.
  split; [|split].
  - constructor; cbn; try done; try (intros; by rewrite lookup_empty in *); intros p [x Hx]; by rewrite lookup_empty in Hx.
  - intros n q Hn. done.
  - split; intros; done.
Qed.

Lemma SendChat_survives p in_ w :
  inv w -> is_Some (w_clients w !! p) -> friend_command (get_str in_).1 = false -> table_room w ->
  0 <= uc_count (w_uc w) < 2 ^ 32 -> survives (SendChat_Process store junk ufuel p in_) w.
Proof.
  intros Hi Hp Hf Hroom Hcnt. unfold SendChat_Process. unfold friend_command in Hf.
  assert (no_nul (get_str in_).1) as Hn by apply cstr_nz. destruct (get_str in_) as [text in2]. cbn [fst] in *.
  destruct text as [|x text'] eqn:Et; [by apply safe_ret|]. rewrite <- Et in *. clear Et. destruct (x =? 47).
  - apply survives_then. unfold Command_Process. destruct (parse_command text) as [[[h a1] ar]|] eqn:Ep; [|by apply safe_ret].
    pose proof (parse_command_no_nul _ _ _ _ Hn Ep) as Ha. destruct h.
    + done.
    + apply ok_survives. unfold Whisper_Process. destruct a1; [by apply ok_ret|]. destruct ar; [by apply ok_ret|].
      eapply ok_bind; [by apply SendWhisper_ok|]. intros. by apply ok_ret.
    + apply ok_survives. unfold Reply_Process. destruct a1; [by apply ok_ret|]. pose proof Hp as [c Hc].
      eapply ok_then; [by apply client_eq|]. eapply ok_bind; [by apply SendWhisper_ok|]. intros. by apply ok_ret.
    + by apply Channels_ok.
    + by apply ok_survives, DND_ok.
    + by apply ok_survives, Away_ok.
    + by apply ok_survives, Status_ok.
    + apply join_any; [done..|]. intros w' Hi' Hp'. by apply ok_survives, Info_ok.
    + by apply ok_survives, WhoIs_ok.
  - pose proof Hp as [c Hc]. eapply safe_eq; [by apply client_eq|]. destruct (c_channel c) as [h|] eqn:Eh; [|by apply safe_ret].
    destruct (wk_chan _ _ (proj1 Hi) p c h Hc Eh) as [ch Hch]. destruct (Talk_eq h ch p text w Hi Hp Hch) as (b & _ & Ht).
    eapply safe_eq; [exact Ht|]. apply safe_ret. by apply inv_add_out.
Qed.

Lemma StartAdvEx3_survives p in_ w :
  inv w -> is_Some (w_clients w !! p) -> survives (StartAdvEx3_Process ju p in_) w.
Proof.
  intros Hi Hp. unfold StartAdvEx3_Process.
  destruct (get_u32 (ju 0) in_) as [flag i1], (get_u32 (ju 1) i1) as [elapse i2], (get_u32 (ju 2) i2) as [type i3],
    (get_u32 (ju 3) i3) as [option_ i4], (get_u32 (ju 4) i4) as [ladder i5], (get_str i5) as [gname i6],
    (get_str i6) as [gpass i7], (get_str i7) as [gstat i8].
  unfold GameCache_index. eapply safe_eq; [reflexivity|].
  eapply safe_bind with (R := fun _ w' => inv w' /\ is_Some (w_clients w' !! p)).
  2:{ intros st w' [Hi' Hp']. apply survives_then. by apply ok_survives, send_bnet_ok. }
  destruct (om_find ci_ltb gname (w_game_map w)) as [g|] eqn:E.
  - destruct (wk_gmap _ _ (proj1 Hi) gname g E) as (gm & Hgm & _). eapply safe_eq; [by apply game_eq|].
    destruct (_ =? 0); [by apply safe_ret|]. eapply safe_bind.
    { apply edit_game_ok; [done|by eexists|apply update_game_proj]. }
    intros _ w' (Hi' & Hfr & _). apply safe_ret. split; [done|by eapply frame_live].
  - eapply safe_bind; [by apply GameCache_Add_ok|]. intros g w1 (Hi1 & Hfr1 & Hf1 & gm & Hgm & _).
    eapply safe_bind; [apply edit_game_ok; [done|by eexists|apply update_game_proj]|].
    intros [] w2 (Hi2 & Hfr2 & Hg2). eapply safe_bind.
    { apply (Game_Join_survives g p w2); [done| |done]. eapply frame_live; [done|]. by eapply frame_live. }
    intros [] w3 [Hi3 Hp3]. by apply safe_ret.
Qed.

Lemma SetStage_ok p st w : inv w -> is_Some (w_clients w !! p) -> ok_in (SetStage p st) w.
Proof.
  intros Hi Hp. apply edit_client_ok; [done|done|]. intros c. destruct c. by destruct (decide (st = BNET_LOGGEDIN)).
Qed.

Lemma perform_survives e w : inv w -> deliverable e w -> survives (perform e) w.
Proof.
  intros Hi (Hcl & Hnul & Hacc & Hfr & Hroom & Hcnt).
  assert (forall {A} (m : M S A), survives m w -> survives (mbind (fun _ => mret tt) m) w) as Hthen.
  { intros A m Hm. eapply safe_bind; [exact Hm|]. intros a w' Hi'. by apply safe_ret. }
  destruct e as [sn n tag flag mu bc bi|token ip j1 j2|p|p u|p|p in_|p in_|p in_|p in_|p|p|p]; cbn [perform];
    try (specialize (Hcl _ eq_refl)).
  - apply Hthen. unfold ChannelCache_New. eapply safe_bind; [by apply alloc_Channel_ok; [|done|eapply Hnul]|].
    intros h w1 (Hi1 & _ & Hh1). eapply safe_bind; [by eapply ChannelCache_Add_ok|]. intros _ w2 (Hi2 & _). by apply safe_ret.
  - apply Hthen. eapply safe_mono; [by apply new_Client_ok|]. by intros a w' (Hi' & _).
  - eapply safe_mono; [by apply delete_Client_ok|]. by intros a w' (Hi' & _).
  - eapply safe_bind; [apply SetUser_ok; [done|done|]|].
    { intros v [= <-]. by eapply Hacc. }
    intros _ w1 (Hi1 & _ & (c & c' & Hc & E & _) & _). apply ok_survives, SetStage_ok; [done|].
    rewrite E, lookup_insert_eq. by eexists.
  - eapply safe_mono; [by apply SetUser_ok|]. by intros a w' (Hi' & _).
  - apply Hthen. unfold JoinChannel_Process. destruct (get_u32 (ju 0) in_) as [flag i1].
    assert (no_nul (get_str i1).1) as Hn by apply cstr_nz. destruct (get_str i1) as [name i2]. cbn [fst] in Hn.
    pose proof (join_any p name w (Info p (b# "The channel is full.")) Hi Hcl Hn Hroom) as (a & w' & Hm & Hi').
    { intros w' Hi' Hp'. by apply ok_survives, Info_ok. }
    exists true, w'. split; [|done]. revert Hm. destruct Hcl as [c Hc].
    rewrite !(bind_eq _ _ _ _ _ (client_eq _ _ _ Hc)). unfold mbind, M_bind.
    destruct (Ensure_any _ _ _ w) as [[r w1]| |]; [|done..]. destruct r as [h|].
    + by intros ->.
    + by intros ->.
  - apply Hthen. apply SendChat_survives; try done. by eapply Hfr.
  - apply Hthen. unfold NotifyJoin_Process.
    destruct (get_u32 (ju 0) in_) as [gameid i1], (get_u32 (ju 1) i1) as [verid i2], (get_str i2) as [name i3], (get_str i3) as [pwd i4].
    unfold GameCache_index. eapply safe_eq; [reflexivity|]. destruct (om_find ci_ltb name (w_game_map w)) as [g|] eqn:E; [|by apply safe_ret].
    destruct (wk_gmap _ _ (proj1 Hi) name g E) as (gm & Hgm & _). apply survives_then.
    eapply safe_mono; [apply Game_Join_survives; [done|done|by eexists]|]. by intros a w' [Hi' _].
  - apply Hthen. by apply StartAdvEx3_survives.
  - apply Hthen. unfold StopAdv_Process. pose proof Hcl as [c Hc]. eapply safe_eq; [by apply client_eq|].
    destruct (c_game c) as [g|] eqn:Eg; [|by apply safe_ret].
    destruct (wk_ingame _ _ (proj1 Hi) p c g Hc Eg) as (gm & Hgm & _). eapply safe_eq; [by apply game_eq|].
    case_decide; [|by apply safe_ret]. apply survives_then.
    eapply safe_mono; [apply edit_game_ok; [done|by eexists|intros gm'; by destruct gm']|]. by intros a w' (Hi' & _).
  - apply Hthen. apply survives_then. by apply leave_game_survives.
  - apply Hthen. apply survives_then. by apply leave_channel_survives.
Qed.

Lemma reachable_inv uc w : reachable uc w -> inv w.
Proof.
  induction 1 as [|w e w' Hr IH Hd Hp]; [apply start_inv|].
  destruct (perform_survives e w IH Hd) as (a & w2 & Hm & Hi2). congruence.
Qed.
End traffic.
