(* ===== verification/ChatClaims.v ===== *)
(** * ChatClaims: what the chat side promises

    The properties of channels, games and connections, each from the lemmas of
    the preceding files, and the behaviours that surprise. *)

From Stdlib Require Import Sorted.
From S2P Require Import Prelude Words Stream OMap CStr ShaCtx Sha1 BSha1 Srp3 NumFmt Storage UserItem UserCache Framing Packets World Chat ChatInv ChatOps ChatLife ChatTables Commands Handlers ChatSafe.

Section claims.
Context {S : Type} (store : Storage_ops S) (junk : nat -> bytes) (ufuel : nat) (ju : nat -> Z).
Implicit Types (w : World S).

(** C1: the server survives its chat traffic: in every state that configured
    channels, connections, logons and chat packets lead to from an empty
    server, every event the network can deliver next (any bytes as packet
    body; of the chat lines, all but the friend commands, which
    [friend_list_crashes] is about) is handled without a NULL or dangling
    pointer and without looping forever, and the state it leaves is again one in which clients, channels,
    games and the name pool point to each other consistently. *)
Theorem chat_survives uc w e :
  reachable store junk ufuel ju uc w -> deliverable e w ->
  exists w', perform store junk ufuel ju e w = Ret (tt, w') /\ reachable store junk ufuel ju uc w' /\ inv w'.
Proof.
  intros Hr Hd. pose proof (reachable_inv _ _ _ _ _ _ Hr) as Hi.
  destruct (perform_survives store junk ufuel ju e w Hi Hd) as ([] & w' & Hm & Hi').
  exists w'. split; [done|]. split; [by eapply reach_step|done].
Qed.

Lemma BuildMessagePacket_talk p c text w :
  w_clients w !! p = Some c -> client_ok w p ->
  exists name flag, GetUsername p w = Ret (name, w) /\ Client_GetFlag p w = Ret (flag, w) /\
    BuildMessagePacket (Some p) MsgTalk text w =
      Ret (BNet_Build cmd_ChatEvent (BNetChatEvent_Pack MsgTalk flag (c_latency c) name text), w).
Proof.
  intros Hc Hok. destruct (GetUsername_total p w Hok) as [name Hn]. destruct (GetFlag_total p w Hok) as [flag Hf].
  exists name, flag. split; [done|]. split; [done|]. unfold BuildMessagePacket.
  rewrite (bind_eq _ _ w (flag, c_latency c, name) w); [reflexivity|].
  rewrite (bind_eq _ _ _ _ _ (client_eq _ _ _ Hc)). change (MsgTalk =? MsgChannel) with false. cbv iota.
  by rewrite (bind_eq _ _ _ _ _ Hf), (bind_eq _ _ _ _ _ Hn).
Qed.

(** C9: a chat line reaches the channel and nobody else: a line that is not a
    command, from a connection with a channel, appends to the output exactly
    one chat event per member of that channel other than the speaker, the same
    bytes for all, with the speaker's flags, latency and name and the text
    unchanged, and changes nothing else. *)
Theorem talk_reaches_channel uc w p c h ch in_ x text :
  reachable store junk ufuel ju uc w -> w_clients w !! p = Some c -> c_channel c = Some h ->
  w_channels w !! h = Some ch -> (get_str in_).1 = x :: text -> x <> 47 ->
  exists b name flag,
    BNet_Build cmd_ChatEvent (BNetChatEvent_Pack MsgTalk flag (c_latency c) name (x :: text)) = Some b /\
    GetUsername p w = Ret (name, w) /\ Client_GetFlag p w = Ret (flag, w) /\
    SendChat_Process store junk ufuel p in_ w =
      Ret (true, add_out ((fun t => (t, b)) <$> base.filter (fun t => Some t <> Some p) (h_connset ch)) w) /\
    NoDup (h_connset ch).
Proof.
  intros Hr Hc Hh Hch Ht Hx. pose proof (reachable_inv _ _ _ _ _ _ Hr) as Hi.
  destruct (Talk_eq h ch p (x :: text) w Hi ltac:(by eexists) Hch) as (b & Hb & Htalk).
  destruct (BuildMessagePacket_talk p c (x :: text) w Hc) as (name & flag & Hn & Hf & Hbm).
  { apply inv_client_ok; [done|by eexists]. }
  exists b, name, flag. split; [congruence|]. split; [done|]. split; [done|]. split.
  - unfold SendChat_Process. destruct (get_str in_) as [txt i2]. cbn [fst] in Ht. subst txt.
    destruct (Z.eqb_spec x 47); [done|]. rewrite (bind_eq _ _ _ _ _ (client_eq _ _ _ Hc)), Hh.
    by rewrite (bind_eq _ _ _ _ _ Htalk).
  - pose proof (wk_sorted _ _ (proj1 Hi) h ch Hch) as Hs. clear - Hs.
    induction Hs as [|a l Hl IH Ha]; [constructor|]. constructor; [|done]. intros Hin.
    rewrite Forall_forall in Ha. specialize (Ha a Hin). lia.
Qed.

(** C27: a connection is in one place: after [Join] of a channel it is a member
    of that channel, of no other channel and of no game, and the other
    connections are as before. *)
Theorem join_is_exclusive uc w p c h :
  reachable store junk ufuel ju uc w -> w_clients w !! p = Some c -> is_Some (w_channels w !! h) ->
  exists w', Channel_Join h p w = Ret (tt, w') /\ inv w' /\
    (forall h' ch', w_channels w' !! h' = Some ch' -> p ∈ h_connset ch' <-> h' = h) /\
    (forall g gm, w_games w' !! g = Some gm -> p ∉ g_connlist gm) /\
    (forall q, q <> p -> w_clients w' !! q = w_clients w !! q).
Proof.
  intros Hr Hc Hh. pose proof (reachable_inv _ _ _ _ _ _ Hr) as Hi.
  destruct (Channel_Join_ok p c h w (proj1 Hi) Hc Hh) as ([] & w' & Hm & Hok & Hk & (c' & Hc' & Hch' & Hg') & ch & Hch & Hin).
  exists w'. split; [done|]. split; [by eapply keeps_inv|]. split; [|split; [|apply Hk]].
  - intros h' ch' Hh'. split; [|intros ->; congruence]. intros Hp.
    destruct (wk_member _ _ Hok h' ch' p Hh' Hp) as (d & Hd & E). congruence.
  - intros g gm Hgm Hp. destruct (ok_player g gm p w' Hok Hgm Hp) as (d & Hd & E). congruence.
Qed.

(** C28: leaving a game: the client that leaves is out of the list and has no
    game; when others stay the game stays with exactly them, hosted by the old
    host or, when it was the host that left, by the longest-standing member;
    when nobody stays, the game and its name are gone. *)
Theorem host_passes_on uc w p c g gm :
  reachable store junk ufuel ju uc w -> w_clients w !! p = Some c -> c_game c = Some g -> w_games w !! g = Some gm ->
  exists w', leave_game p w = Ret (tt, w') /\ inv w' /\
    (forall q, q <> p -> w_clients w' !! q = w_clients w !! q) /\
    (exists c', w_clients w' !! p = Some c' /\ c_game c' = None) /\
    match game_after p gm with
    | Some gm' => w_games w' !! g = Some gm' /\ g_connlist gm' = list_erase p (g_connlist gm) /\
        (g_host gm <> Some p -> g_host gm' = g_host gm) /\
        (g_host gm = Some p -> g_host gm' = head (g_connlist gm'))
    | None => w_games w' !! g = None /\ om_find ci_ltb (g_name gm) (w_game_map w') = None /\ g_connlist gm = [p]
    end.
Proof.
  intros Hr Hc Hcg Hg. pose proof (reachable_inv _ _ _ _ _ _ Hr) as Hi. pose proof (proj1 Hi) as Hok.
  exists (leave_world g p c gm w). split.
  { unfold leave_game. rewrite (bind_eq _ _ _ _ _ (client_eq _ _ _ Hc)), Hcg. apply Game_Leave_eq; [done..|by eapply wk_named]. }
  split.
  { eapply keeps_inv; [done|by apply leave_world_keeps|]. apply leave_world_ok; try done. intros q. apply not_elem_of_nil. }
  split; [apply (leave_world_keeps g p c gm w Hc)|].
  split; [eexists; split; [apply leave_world_client|by destruct c]|].
  pose proof (wk_nodup _ _ Hok g gm Hg) as Hnd. destruct (wk_ingame _ _ Hok p c g Hc Hcg) as (gm0 & Hg0 & Hin).
  assert (gm0 = gm) as -> by congruence. unfold leave_world. destruct (game_after p gm) as [gm'|] eqn:Ea.
  - split; [destruct w; cbn; apply lookup_insert_eq|]. unfold game_after in Ea. destruct gm; cbn in *.
    case_decide as Eh; [|injection Ea as <-; cbn; done].
    destruct (list_erase p g_connlist) as [|k l] eqn:El; [done|]. injection Ea as <-. cbn. done.
  - pose proof (game_after_None p gm Hnd Ea) as Honly. split; [destruct w; cbn; apply lookup_delete_eq|]. split.
    + destruct w; cbn. rewrite find_names_erase. by rewrite decide_True.
    + clear - Honly Hnd Hin. destruct (g_connlist gm) as [|a [|b l]]; [by apply not_elem_of_nil in Hin| |].
      * f_equal. apply Honly. left.
      * exfalso. apply NoDup_cons in Hnd as [Hna _]. apply Hna. rewrite (Honly a ltac:(left)), (Honly b ltac:(right; left)). left.
Qed.


(** C38: a token outlives its connection: a connection that ends before a logon
    is erased from the token table under its session number, not under its
    token, so its token stays; a [ConnTest2] datagram with that token then
    dereferences the deleted client. *)
Theorem dead_token_crashes uc w token ip j1 j2 ip' port in_ :
  reachable store junk ufuel ju uc w -> u32 (w_current_session w + 1) <> token ->
  (8 <= left in_)%nat -> (get_u32 (ju 0) in_).1 = token ->
  exists p w1 w2, new_Client token ip j1 j2 w = Ret (p, w1) /\ delete_Client p w1 = Ret (tt, w2) /\
    w_clients w2 !! p = None /\ ConnTest2_Process ju ip' port in_ w2 = Crash.
Proof.
  intros Hr Hne Hl Ht. pose proof (reachable_inv _ _ _ _ _ _ Hr) as Hi.
  destruct (new_Client_ok token ip j1 j2 w Hi) as (p & w1 & Hm & Hi1 & _ & (c & Hc & Hu & Hh & Hg & Htok & Hses) & Hf).
  set (w2 := set_w_clients (delete p (w_clients w1)) (set_w_tokenMap (om_erase Z.ltb (c_session c) (w_tokenMap w1)) w1)).
  exists p, w1, w2. split; [done|].
  assert (w_clients w2 !! p = None) as Hnone by (subst w2; destruct w1; cbn; apply lookup_delete_eq).
  split; [|split; [done|]].
  - unfold delete_Client, leave_game, leave_channel. erewrite bind_eq.
    2:{ rewrite (bind_eq _ _ _ _ _ (client_eq _ _ _ Hc)), Hg. reflexivity. }
    erewrite bind_eq. 2:{ rewrite (bind_eq _ _ _ _ _ (client_eq _ _ _ Hc)), Hh. reflexivity. }
    rewrite (bind_eq _ _ _ _ _ (client_eq _ _ _ Hc)), Hu. unfold Pool_Remove_uint. subst w2. by destruct w1.
  - unfold ConnTest2_Process. destruct (Nat.ltb_spec (left in_) 8); [lia|].
    destruct (get_u32 (ju 0) in_) as [tk i2]. cbn [fst] in Ht. subst tk. unfold pool_token.
    rewrite (bind_eq _ _ w2 (Some p) w2).
    2:{ unfold get. subst w2. destruct w1; cbn in *. rewrite find_ids_erase. rewrite decide_False by congruence. by rewrite Hf. }
    unfold edit_client, mbind, M_bind, client. by rewrite Hnone.
Qed.

(** A connection that left a channel still talks into it: [Leave] takes the
    connection out of the member set and leaves its channel pointer, so the
    next chat line goes to all members although the speaker is none. *)
Theorem left_client_still_talks uc w p c h in1 x text :
  reachable store junk ufuel ju uc w -> w_clients w !! p = Some c -> c_channel c = Some h ->
  (get_str in1).1 = x :: text -> x <> 47 ->
  exists w1 ch b, LeaveChat_Process p w = Ret (true, w1) /\ w_channels w1 !! h = Some ch /\ p ∉ h_connset ch /\
    SendChat_Process store junk ufuel p in1 w1 = Ret (true, add_out ((fun t => (t, b)) <$> h_connset ch) w1).
Proof.
  intros Hr Hc Hh Ht Hx. pose proof (reachable_inv _ _ _ _ _ _ Hr) as Hi.
  destruct (leave_channel_ok [] p c w (proj1 Hi) Hc) as ([] & w1 & Hm & Hok1 & Hk1 & Hcl1 & _ & Hout).
  assert (inv w1) as Hi1 by (by eapply keeps_inv). assert (w_clients w1 !! p = Some c) as Hc1 by (by rewrite Hcl1).
  destruct (wk_chan _ _ Hok1 p c h Hc1 Hh) as [ch Hch].
  destruct (Talk_eq h ch p (x :: text) w1 Hi1 ltac:(by eexists) Hch) as (b & _ & Htalk).
  exists w1, ch, b. split; [unfold LeaveChat_Process; by rewrite (bind_eq _ _ _ _ _ Hm)|].
  split; [done|]. split; [by eapply Hout|]. unfold SendChat_Process. destruct (get_str in1) as [txt i2]. cbn [fst] in Ht. subst txt.
  destruct (Z.eqb_spec x 47); [done|]. rewrite (bind_eq _ _ _ _ _ (client_eq _ _ _ Hc1)), Hh, (bind_eq _ _ _ _ _ Htalk).
  rewrite filter_Forall_id; [done|]. apply Forall_forall. intros t Htin [= ->]. by apply (Hout h ch Hch).
Qed.

Lemma Add_short_name h ch name w w' :
  w_channels w !! h = Some ch -> ci_key (h_short ch) = ci_key name -> ci_key (h_name ch) <> ci_key name ->
  ChannelCache_Add h w = Ret (tt, w') -> om_find ci_ltb name (w_channelmap w') = Some h.
Proof.
  intros Hch Hk Hne. unfold ChannelCache_Add. rewrite (bind_eq _ _ _ _ _ (channel_eq _ _ _ Hch)). unfold mbind, M_bind, modify.
  assert (om_find ci_ltb name (om_insert ci_ltb (h_short ch) h (w_channelmap w)) = Some h) as H1.
  { rewrite find_names_insert. by rewrite decide_True. }
  destruct (negb _); cbn [when]; intros [= <-]; destruct w; cbn in *; [|exact H1].
  rewrite find_names_insert. by rewrite decide_False.
Qed.

Lemma Ensure_full fuel name tag country h ch w :
  om_find ci_ltb name (w_channelmap w) = Some h -> w_channels w !! h = Some ch ->
  (h_byIndex ch, h_byCountry ch, has_room ch) = (false, false, false) ->
  Ensure fuel name tag country w = Ret (None, w).
Proof.
  intros Hf Hch [= E1 E2 E3]. unfold Ensure, ChannelCache_index.
  rewrite (bind_eq _ _ w (Some h) w) by (unfold get; by rewrite Hf).
  by rewrite (bind_eq _ _ _ _ _ (channel_eq _ _ _ Hch)), E1, E2, E3.
Qed.

(** A numbered channel is spawned once: the first [Ensure] of a by-index
    channel under its short name spawns its first copy and enters the copy in
    the table under the parent's short name too, so from then on that name
    finds the copy, which is not by-index: when the copy is full, the answer
    is "full" instead of a second copy. *)
Theorem by_index_spawns_once uc w fuel name tag country h ch :
  reachable store junk ufuel ju uc w -> no_nul name -> no_nul country ->
  om_find ci_ltb name (w_channelmap w) = Some h -> w_channels w !! h = Some ch ->
  h_byIndex ch = true -> h_byCountry ch = false -> ci_key (h_short ch) = ci_key name ->
  ci_key (iname (h_name ch) 1) <> ci_key name ->
  om_find ci_ltb (iname (h_name ch) 1) (w_channelmap w) = None ->
  exists h2 w', Ensure (Datatypes.S fuel) name tag country w = Ret (Some h2, w') /\ h2 <> h /\
    om_find ci_ltb name (w_channelmap w') = Some h2 /\
    exists ch2, w_channels w' !! h2 = Some ch2 /\ h_byIndex ch2 = false /\ h_byCountry ch2 = false /\
      forall fuel' w2 ch2', w_channelmap w2 = w_channelmap w' -> w_channels w2 !! h2 = Some ch2' ->
        (h_byIndex ch2', h_byCountry ch2', has_room ch2') = (false, false, false) ->
        Ensure fuel' name tag country w2 = Ret (None, w2).
Proof.
  intros Hr Hn Hco Hf Hch Hbi Hbc Hk Hne Hfree. pose proof (reachable_inv _ _ _ _ _ _ Hr) as Hi.
  set (h2 := w_alloc w). set (nm := iname (h_name ch) 1).
  set (ch2 := set_h_spawned true (new_Channel (h_short ch) nm (h_gameid ch) (h_flag ch) (h_maxUser ch) false false)).
  set (w1 := set_w_alloc (h2 + 1)%nat (set_w_channels (<[h2 := ch2]> (w_channels w)) w)).
  assert (inv w1) as Hi1.
  { destruct (alloc_Channel_ok ch2 w Hi) as (a & w' & Hm & Hi' & _); [done| |].
    - apply iname_no_nul; [|lia]. by eapply (wk_text _ _ (proj1 Hi)).
    - unfold alloc_Channel, mbind, M_bind, get, modify in Hm. by injection Hm as _ <-. }
  assert (w_channels w1 !! h2 = Some ch2) as Hch2 by (subst w1; destruct w; cbn; apply lookup_insert_eq).
  destruct (ChannelCache_Add_ok h2 ch2 w1 Hi1 Hch2) as ([] & w' & Hadd & Hi' & _ & Ech).
  exists h2, w'. split_and!.
  - unfold Ensure, ChannelCache_index. rewrite (bind_eq _ _ w (Some h) w) by (unfold get; by rewrite Hf).
    rewrite (bind_eq _ _ _ _ _ (channel_eq _ _ _ Hch)), Hbi, Hbc. cbv zeta. change (Nat.eqb (length []) 0) with true. cbv iota.
    rewrite (bind_eq _ _ w h2 w'); [done|]. cbn [ensure_index]. rewrite (iname_append (h_name ch) 1) by lia.
    rewrite (bind_eq _ _ w nm w) by done. rewrite (bind_eq _ _ w None w) by (unfold ChannelCache_index, get; subst nm; by rewrite Hfree).
    rewrite (bind_eq _ _ w h2 w1).
    2:{ unfold Spawn. rewrite (bind_eq _ _ _ _ _ (channel_eq _ _ _ Hch)). reflexivity. }
    by rewrite (bind_eq _ _ _ _ _ Hadd).
  - intros E. pose proof (wk_fresh_h _ _ (proj1 Hi) h ltac:(by eexists)). lia.
  - exact (Add_short_name h2 ch2 name w1 w' Hch2 Hk Hne Hadd).
  - exists ch2. split; [by rewrite Ech|]. split; [done|]. split; [done|].
    intros fuel' w2 ch2' Em Hc2' E. eapply Ensure_full; [|exact Hc2'|exact E]. rewrite Em. exact (Add_short_name h2 ch2 name w1 w' Hch2 Hk Hne Hadd).
Qed.
End claims.
