(* ===== verification/Logon.v ===== *)
(** * Logon: the old logon and account creation

    What blitzd/plugins/bnet/OldAuthLogon2.cpp and OldAccountCreate2.cpp decide
    and what they leave in the shared state. *)

From S2P Require Import Prelude Words Stream OMap CStr ShaCtx Sha1 BSha1 Srp3 NumFmt Storage UserItem UserCache Framing Packets World Chat ChatInv ChatOps ChatLife ChatTables Commands Handlers ChatSafe.

Lemma read_app dst len b r st :
  ok st -> rest st = b ++ r -> length b = len -> length dst = len ->
  exists st', read dst len st = (Z.of_nat len, b, st') /\ ok st' /\ rest st' = r.
Proof.
  intros Hok Hr Hb Hd. eexists. rewrite read_enough by (done || rewrite Hr, length_app; lia).
  rewrite Hr, <- Hb, take_app_length. split; [done|]. pose proof (length_rest st) as Hl. rewrite Hr, length_app in Hl.
  destruct Hok as [Hwf Hs]. unfold ok, wf, size in *. cbn [_pos _buf]. split; [lia|].
  unfold rest in *. cbn [_pos _buf]. rewrite <- drop_drop, Hr. by rewrite drop_app_length.
Qed.

Lemma stream_of_ok b : Z.of_nat (length b) < 2 ^ 64 -> ok (stream_of b) /\ rest (stream_of b) = b.
Proof. intros Hb. unfold ok, wf, size, rest. simpl. split; [lia|done]. Qed.

Section logon.
Context {S : Type} (store : Storage_ops S) (junk : nat -> bytes) (ufuel : nat).
Context (jb : nat -> nat -> bytes) (Hjb : forall i n, length (jb i n) = n).
Implicit Types (w : World S).

(** What a packet adds to the output of connection [p]. *)
Definition sent (p : nat) (o : option bytes) : list (nat * bytes) := match o with Some b => [(p, b)] | None => [] end.
Definition reply_logon (p : nat) (result : Z) (reason : bytes) : list (nat * bytes) :=
  sent p (BNet_Build cmd_OldAuthLogon2 (BNetOldAuthLogon2_Pack result reason)).

Lemma send_bnet_eq p c cmd pack w :
  w_clients w !! p = Some c -> send_bnet p cmd pack w = Ret (tt, add_out (sent p (BNet_Build cmd pack)) w).
Proof.
  intros Hc. unfold send_bnet, build_and_send, sent. destruct (BNet_Build cmd pack); [by eapply send_eq|].
  unfold add_out. destruct w; cbn. by rewrite app_nil_r.
Qed.

(** The account a known name leads to. *)
Lemma find_known name u a w :
  om_find ci_ltb name (uc_names (w_uc w)) = Some u -> uc_heap (w_uc w) !! u = Some a -> IsExist a = true ->
  (mbind existing (find_user store junk ufuel name)) w = Ret (Some u, w).
Proof.
  intros Hf Ha He. unfold find_user. rewrite (bind_eq _ _ w (Some u) w).
  - unfold existing. rewrite (bind_eq _ _ _ _ _ (account_eq _ _ _ Ha)), He. done.
  - unfold with_users, index_name. rewrite Hf, Ha. simpl. rewrite He. by destruct w.
Qed.
Lemma bind_assoc_eq {A B C} (m : M S A) (f : A -> M S B) (g : B -> M S C) w b w' :
  mbind f m w = Ret (b, w') -> mbind (fun a => mbind g (f a)) m w = g b w'.
Proof. unfold mbind, M_bind. destruct (m w) as [[a w1]| |]; [|done..]. by intros ->. Qed.

Lemma limited_short name : no_nul name -> (length name <= 15)%nat -> limited name = name.
Proof. intros Hn Hl. unfold limited. destruct (Nat.ltb_spec 15 (length name)); [lia|]. by apply cstr_id. Qed.

Definition logon_in (token pwd name : bytes) : Stream := stream_of (token ++ pwd ++ name ++ [0]).

(** The parse of a logon packet. *)
Lemma OldAuthLogon2_parsed p token pwd name w :
  length token = 8%nat -> length pwd = 20%nat -> no_nul name -> (length name <= 15)%nat ->
  OldAuthLogon2_Process store junk ufuel jb p (logon_in token pwd name) w =
  (ptr ← find_user store junk ufuel name; user ← existing ptr;
   match user with
   | None => send_bnet p cmd_OldAuthLogon2 (BNetOldAuthLogon2_Pack 1 []) ;; mret true
   | Some u =>
       a ← account u;
       if Z.land (GetFullFlag a) UCF_OLSAUTH =? 0 then
         send_bnet p cmd_OldAuthLogon2 (BNetOldAuthLogon2_Pack 6
           (b# "Your account is not used for this game, please use or register another account.")) ;; mret true
       else if decide (old_proof jb token (u_passwd a) = pwd) then
         SetUser p (Some u) ;; SetStage p BNET_LOGGEDIN ;;
         (match u_mail a with [] => send_bnet p cmd_ReqEmail BNetReqEmail_Pack | _ => mret tt end) ;;
         send_bnet p cmd_OldAuthLogon2 (BNetOldAuthLogon2_Pack 0 []) ;; mret true
       else send_bnet p cmd_OldAuthLogon2 (BNetOldAuthLogon2_Pack 2 []) ;; mret true
   end) w.
Proof.
  intros Ht Hp Hn Hl. unfold OldAuthLogon2_Process, logon_in.
  destruct (stream_of_ok (token ++ pwd ++ name ++ [0])) as [Hok Hr]; [rewrite !length_app; simpl; lia|].
  destruct (read_app (jb 0 8) 8 token (pwd ++ name ++ [0]) _ Hok Hr Ht (Hjb _ _)) as (s1 & -> & Hok1 & Hr1).
  destruct (read_app (jb 1 20) 20 pwd (name ++ [0]) _ Hok1 Hr1 Hp (Hjb _ _)) as (s2 & -> & Hok2 & Hr2).
  destruct (get_str_app name [] s2 Hok2 Hn Hr2) as (s3 & -> & _). by rewrite limited_short.
Qed.

Lemma logged_in_proj u c : let c' := set_c_user (Some u) c in
  c_user (BuildStats (set_c_stage BNET_LOGGEDIN c')) = Some u /\ c_stage (BuildStats (set_c_stage BNET_LOGGEDIN c')) = BNET_LOGGEDIN.
Proof. by destruct c. Qed.

(** The accepting branch: account, stage and pool. *)
Lemma accept_logon p u a w (tail : M S bool) t :
  inv w -> is_Some (w_clients w !! p) -> uc_heap (w_uc w) !! u = Some a ->
  (forall w', is_Some (w_clients w' !! p) -> tail w' = Ret (true, add_out t w')) ->
  exists w', (SetUser p (Some u) ;; SetStage p BNET_LOGGEDIN ;; tail) w = Ret (true, w') /\ inv w' /\
    (exists c', w_clients w' !! p = Some c' /\ c_user c' = Some u /\ c_stage c' = BNET_LOGGEDIN) /\
    om_find ci_ltb (u_username a) (w_clientMap w') = Some p /\ w_uc w' = w_uc w.
Proof.
  intros Hi Hp Ha Htail.
  destruct (SetUser_ok p (Some u) w Hi Hp) as ([] & w1 & Hm1 & Hi1 & Euc & (c & c1 & Hc & Ecl & ->) & Hpool).
  { intros v [= <-]. by eexists. }
  assert (w_clients w1 !! p = Some (set_c_user (Some u) c)) as Hc1 by (rewrite Ecl; apply lookup_insert_eq).
  destruct (SetStage_ok p BNET_LOGGEDIN w1 Hi1 ltac:(by eexists)) as ([] & w2 & Hm2 & Hi2 & Hfr2).
  pose proof Hm2 as Hm2'. unfold SetStage in Hm2'. rewrite (edit_client_eq _ _ _ _ Hc1) in Hm2'. injection Hm2' as E2.
  destruct (logged_in_proj u c) as [P1 P2].
  assert (w_clients w2 !! p = Some (BuildStats (set_c_stage BNET_LOGGEDIN (set_c_user (Some u) c)))) as Hc2
    by (rewrite <- E2; destruct w1; cbn; apply lookup_insert_eq).
  exists (add_out t w2). split; [rewrite (bind_eq _ _ _ _ _ Hm1), (bind_eq _ _ _ _ _ Hm2); apply Htail; by eexists|].
  split; [by apply inv_add_out|]. split; [eexists; unfold add_out; destruct w2; cbn in *; done|].
  split; [|rewrite <- Euc; rewrite <- E2; unfold add_out; by destruct w1].
  assert (w_clientMap (add_out t w2) = w_clientMap w1) as -> by (rewrite <- E2; unfold add_out; by destruct w1).
  by apply (Hpool u).
Qed.

(** The accepting branch with its replies. *)
Lemma logon_accepts p u a w :
  inv w -> is_Some (w_clients w !! p) -> uc_heap (w_uc w) !! u = Some a ->
  exists w', (SetUser p (Some u) ;; SetStage p BNET_LOGGEDIN ;;
      (match u_mail a with [] => send_bnet p cmd_ReqEmail BNetReqEmail_Pack | _ => mret tt end) ;;
      send_bnet p cmd_OldAuthLogon2 (BNetOldAuthLogon2_Pack 0 []) ;; mret true) w = Ret (true, w') /\ inv w' /\
    (exists c', w_clients w' !! p = Some c' /\ c_user c' = Some u /\ c_stage c' = BNET_LOGGEDIN) /\
    om_find ci_ltb (u_username a) (w_clientMap w') = Some p /\ w_uc w' = w_uc w.
Proof.
  intros Hi Hp Ha.
  eapply accept_logon with (t := (match u_mail a with [] => sent p (BNet_Build cmd_ReqEmail BNetReqEmail_Pack) | _ => [] end)
    ++ reply_logon p 0 []); [done..|].
  intros w' [c' Hc']. destruct (u_mail a) as [|x m].
  - rewrite (bind_eq _ _ _ _ _ (send_bnet_eq _ _ _ _ _ Hc')).
    erewrite bind_eq; [|eapply send_bnet_eq; unfold add_out; destruct w'; exact Hc']. by rewrite add_out_out.
  - rewrite (bind_eq _ _ w' tt w') by done. by rewrite (bind_eq _ _ _ _ _ (send_bnet_eq _ _ _ _ _ Hc')).
Qed.

(** C32: the old logon decides by the proof: for a known account that uses the
    old logon, a packet whose 20 bytes are the hash of its tokens with the
    stored password hash logs the connection in (account, stage, pool entry,
    reply 0); any other 20 bytes change nothing and are answered with 2; an
    account of the other kind changes nothing and is answered with 6. *)
Theorem old_logon_decides p u a token pwd name w :
  inv w -> is_Some (w_clients w !! p) ->
  length token = 8%nat -> length pwd = 20%nat -> no_nul name -> (length name <= 15)%nat ->
  om_find ci_ltb name (uc_names (w_uc w)) = Some u -> uc_heap (w_uc w) !! u = Some a -> IsExist a = true ->
  let run := OldAuthLogon2_Process store junk ufuel jb p (logon_in token pwd name) w in
  if Z.land (u_flag a) UCF_OLSAUTH =? 0 then
    run = Ret (true, add_out (reply_logon p 6
      (b# "Your account is not used for this game, please use or register another account.")) w)
  else if decide (old_proof jb token (u_passwd a) = pwd) then
    exists w', run = Ret (true, w') /\ inv w' /\
      (exists c', w_clients w' !! p = Some c' /\ c_user c' = Some u /\ c_stage c' = BNET_LOGGEDIN) /\
      om_find ci_ltb (u_username a) (w_clientMap w') = Some p /\ w_uc w' = w_uc w
  else run = Ret (true, add_out (reply_logon p 2 []) w).
Proof.
  intros Hi Hp Ht Hpw Hn Hl Hf Ha He run. subst run. rewrite OldAuthLogon2_parsed by done.
  rewrite (bind_assoc_eq _ _ _ _ _ _ (find_known name u a w Hf Ha He)), (bind_eq _ _ _ _ _ (account_eq _ _ _ Ha)).
  unfold GetFullFlag. pose proof Hp as [c Hc]. destruct (_ =? 0).
  { by rewrite (bind_eq _ _ _ _ _ (send_bnet_eq _ _ _ _ _ Hc)). }
  case_decide as E; [|by rewrite (bind_eq _ _ _ _ _ (send_bnet_eq _ _ _ _ _ Hc))]. by apply logon_accepts.
Qed.

(** ** Creating an account *)

(** A new account cache that keeps the accounts of the old one. *)
Lemma inv_set_uc c' w :
  inv w -> (forall u a, uc_heap (w_uc w) !! u = Some a -> exists a', uc_heap c' !! u = Some a' /\ u_username a' = u_username a) ->
  inv (set_w_uc c' w).
Proof.
  intros (Hok & Hp & Ht) Hk. destruct Hok as [A1 A2 A3 A4 A5 A6 A7 A8 A9 A10 A11 A12 A13 A14]. destruct w; cbn in *.
  split; [|split; [|done]].
  - constructor; cbn; try done. intros p c u Hc Hu. destruct (A1 p c u Hc Hu) as [a Ha].
    destruct (Hk u a Ha) as (a' & Ha' & _). by eexists.
  - intros n q Hn. destruct (Hp n q Hn) as (c & u & a & Hc & Hu & Ha & Hkey). destruct (Hk u a Ha) as (a' & Ha' & E).
    exists c, u, a'. rewrite E. done.
Qed.

Definition create_in (pwd name : bytes) : Stream := stream_of (pwd ++ name ++ [0]).

(** The account [OldAccountCreate2] makes of the new item. *)
Definition new_account (pwd : bytes) (u : UserCacheItem) : UserCacheItem := AddFlag UCF_OLSAUTH (SetPasswd pwd u).

Lemma new_account_proj pwd u :
  length pwd = 20%nat -> 0 <= u_flag u ->
  u_passwd (new_account pwd u) = pwd /\ u_username (new_account pwd u) = u_username u /\ u_id (new_account pwd u) = u_id u /\
  Z.land (u_flag (new_account pwd u)) UCF_OLSAUTH <> 0.
Proof.
  intros Hl Hf. unfold new_account, AddFlag, SetFlag, SetPasswd. rewrite (take_ge pwd 20) by lia.
  assert (forall f, Z.land (Z.lor f UCF_OLSAUTH) UCF_OLSAUTH <> 0) as Hfl.
  { intros f E. assert (Z.testbit (Z.land (Z.lor f UCF_OLSAUTH) UCF_OLSAUTH) 28 = true) as Hb; [|by rewrite E in Hb].
    rewrite Z.land_spec, Z.lor_spec. change (Z.testbit UCF_OLSAUTH 28) with true. by rewrite orb_true_r. }
  destruct (decide (u_passwd u = pwd)) as [Ep|]; cbn [u_flag].
  - destruct (Z.eqb_spec (u_flag u) (Z.lor (u_flag u) UCF_OLSAUTH)) as [Ef|]; cbn; split_and!; try done.
    rewrite Ef. apply Hfl.
  - destruct (Z.eqb_spec (u_flag u) (Z.lor (u_flag u) UCF_OLSAUTH)) as [Ef|]; cbn; split_and!; try done.
    rewrite Ef. apply Hfl.
Qed.

Lemma edit_account_eq u a f w : uc_heap (w_uc w) !! u = Some a ->
  edit_account u f w = Ret (tt, set_w_uc (with_heap (<[u := f a]> (uc_heap (w_uc w))) (w_uc w)) w).
Proof. intros Ha. unfold edit_account. by rewrite (bind_eq _ _ _ _ _ (account_eq _ _ _ Ha)). Qed.

(** Creating an account of a name that neither the cache nor the storage has:
    the new account is in the cache with the password hash of the packet. *)
Lemma create_account p pwd name c1 w :
  inv w -> is_Some (w_clients w !! p) -> length pwd = 20%nat -> no_nul name -> (length name <= 15)%nat ->
  index_name store junk ufuel name (w_uc w) = Ret (None, c1) -> uc_ok c1 -> add_guard name 0 c1 ->
  (forall u a, uc_heap (w_uc w) !! u = Some a -> uc_heap c1 !! u = Some a) ->
  exists w' u a, OldAccountCreate2_Process store junk ufuel jb p (create_in pwd name) w = Ret (true, w') /\ inv w' /\
    is_Some (w_clients w' !! p) /\ om_find ci_ltb name (uc_names (w_uc w')) = Some u /\ uc_heap (w_uc w') !! u = Some a /\
    IsExist a = true /\ u_passwd a = pwd /\ u_username a = name /\ Z.land (u_flag a) UCF_OLSAUTH <> 0 /\
    u_id a = uc_next_uid c1.
Proof.
  intros Hi [c Hc] Hl Hn Hlen Hmiss Hok Hg Hkeep. set (u := uc_alloc c1).
  set (item := SetUserId (uc_next_uid c1) (new_UserCacheItem (junk u) name)).
  destruct (new_account_proj pwd item Hl ltac:(done)) as (P1 & P2 & P3 & P4).
  pose proof (Add_eq junk name 0 c1 Hg) as Eadd. change (add_uid 0 c1) with (uc_next_uid c1) in Eadd. fold u item in Eadd.
  set (c2 := (Add junk name 0 c1).2). set (w2 := set_w_uc c2 w).
  assert (uc_heap c2 !! u = Some item) as Hu2 by (subst c2; rewrite Eadd; apply lookup_insert_eq).
  set (c3 := with_heap (<[u := new_account pwd item]> (uc_heap c2)) c2). set (w3 := set_w_uc c3 w).
  assert (forall v a, uc_heap (w_uc w) !! v = Some a -> v <> u /\ uc_heap c3 !! v = Some a) as Hold.
  { intros v a Hv%Hkeep. pose proof (ok_fresh c1 Hok v ltac:(by eexists)). assert (u <> v) as Hne by (subst u; lia). split; [done|].
    subst c3 c2. rewrite Eadd. cbn [uc_heap with_heap snd]. rewrite !lookup_insert_ne by done. done. }
  assert (inv w3) as Hi3 by (apply inv_set_uc; [done|]; intros v a Hv; exists a; by destruct (Hold v a Hv)).
  assert (w_clients w3 !! p = Some c) as Hc3 by (subst w3; by destruct w).
  exists (add_out (sent p (BNet_Build cmd_OldAccountCreate2 (BNetOldAccountCreate2_Pack 0))) w3), u, (new_account pwd item).
  assert (w_uc (add_out (sent p (BNet_Build cmd_OldAccountCreate2 (BNetOldAccountCreate2_Pack 0))) w3) = c3) as Euc
    by (subst w3; unfold add_out; by destruct w).
  split_and!.
  - unfold OldAccountCreate2_Process, create_in.
    destruct (stream_of_ok (pwd ++ name ++ [0])) as [Hok0 Hr]; [rewrite !length_app; simpl; lia|].
    destruct (read_app (jb 0 20) 20 pwd (name ++ [0]) _ Hok0 Hr Hl (Hjb _ _)) as (s1 & -> & Hok1 & Hr1).
    destruct (get_str_app name [] s1 Hok1 Hn Hr1) as (s2 & -> & _). rewrite limited_short by done.
    rewrite (bind_eq _ _ w None (set_w_uc c1 w)) by (unfold find_user, with_users; by rewrite Hmiss).
    rewrite (bind_eq _ _ (set_w_uc c1 w) None (set_w_uc c1 w)) by done.
    rewrite (bind_eq _ _ (set_w_uc c1 w) u w2).
    2:{ unfold add_user, with_users. assert (w_uc (set_w_uc c1 w) = c1) as -> by (by destruct w). subst w2 c2. rewrite Eadd. by destruct w. }
    assert (uc_heap (w_uc w2) !! u = Some item) as Hu2' by (subst w2; by destruct w).
    rewrite (bind_eq _ _ _ _ _ (edit_account_eq _ _ _ _ Hu2')). set (w2a := set_w_uc _ w2).
    assert (uc_heap (w_uc w2a) !! u = Some (SetPasswd pwd item)) as Hu2a by (subst w2a; destruct w2; cbn; apply lookup_insert_eq).
    rewrite (bind_eq _ _ _ _ _ (edit_account_eq _ _ _ _ Hu2a)).
    assert (set_w_uc (with_heap (<[u := AddFlag UCF_OLSAUTH (SetPasswd pwd item)]> (uc_heap (w_uc w2a))) (w_uc w2a)) w2a = w3) as ->.
    { subst w2a w2 w3 c3. destruct w; cbn. unfold with_heap. cbn. by rewrite insert_insert_eq. }
    by rewrite (bind_eq _ _ _ _ _ (send_bnet_eq _ _ _ _ _ Hc3)).
  - by apply inv_add_out.
  - exists c. unfold add_out. by destruct w3.
  - rewrite Euc. subst c3 c2. rewrite Eadd. cbn. rewrite find_names_insert. by rewrite decide_True by apply ci_key_cstr.
  - rewrite Euc. subst c3. cbn. apply lookup_insert_eq.
  - unfold IsExist. rewrite P3. destruct Hg as (_ & Hnx & _). cbn. lia.
  - done.
  - rewrite P2. cbn. by apply cstr_id.
  - done.
  - by rewrite P3.
Qed.

(** C22: an account that has been created can log in: after [OldAccountCreate2]
    of a name nobody has, a logon with that name and the proof for any tokens
    under the given password hash logs the connection in as the new account. *)
Theorem create_then_logon p pwd name c1 token w :
  inv w -> is_Some (w_clients w !! p) -> length pwd = 20%nat -> no_nul name -> (length name <= 15)%nat ->
  index_name store junk ufuel name (w_uc w) = Ret (None, c1) -> uc_ok c1 -> add_guard name 0 c1 ->
  (forall u a, uc_heap (w_uc w) !! u = Some a -> uc_heap c1 !! u = Some a) ->
  length token = 8%nat -> length (old_proof jb token pwd) = 20%nat ->
  exists w1 w2 u, OldAccountCreate2_Process store junk ufuel jb p (create_in pwd name) w = Ret (true, w1) /\
    OldAuthLogon2_Process store junk ufuel jb p (logon_in token (old_proof jb token pwd) name) w1 = Ret (true, w2) /\
    (exists c', w_clients w2 !! p = Some c' /\ c_user c' = Some u /\ c_stage c' = BNET_LOGGEDIN) /\
    (u_id <$> uc_heap (w_uc w2) !! u) = Some (uc_next_uid c1) /\ om_find ci_ltb name (w_clientMap w2) = Some p.
Proof.
  intros Hi Hp Hl Hn Hlen Hmiss Hok Hg Hkeep Ht Hpl.
  destruct (create_account p pwd name c1 w) as (w1 & u & a & Hrun & Hi1 & Hp1 & Hf & Ha & He & Hpw & Hname & Hfl & Hid); [done..|].
  destruct (logon_accepts p u a w1 Hi1 Hp1 Ha) as (w2 & Hm & _ & Hcl & Hpool & Euc).
  exists w1, w2, u. split; [done|]. split; [|split; [done|split; [by rewrite Euc, Ha; simpl; congruence|by rewrite <- Hname]]].
  rewrite OldAuthLogon2_parsed by done.
  rewrite (bind_assoc_eq _ _ _ _ _ _ (find_known name u a w1 Hf Ha He)), (bind_eq _ _ _ _ _ (account_eq _ _ _ Ha)).
  unfold GetFullFlag. destruct (Z.eqb_spec (Z.land (u_flag a) UCF_OLSAUTH) 0); [done|]. rewrite decide_True by (by rewrite Hpw). exact Hm.
Qed.
End logon.
