(* ===== verification/ChatDemo.v ===== *)
(** * ChatDemo: concrete sessions

    Executable runs of the chat side: the states in which the properties of
    [ChatClaims] are evaluated, and two sessions whose outcome surprises. *)

From Stdlib Require Import Sorted.
From S2P Require Import Prelude Words Stream OMap CStr ShaCtx Sha1 BSha1 Srp3 NumFmt Storage UserItem UserCache Framing Packets World Chat ChatInv ChatOps ChatLife ChatTables Commands Handlers ChatSafe ChatClaims Logon.

(** ** Running events *)

Section run.
Context {S : Type} (store : Storage_ops S) (junk : nat -> bytes) (ufuel : nat) (ju : nat -> Z).

Definition deliverableb (e : event) (w : World S) : bool :=
  match event_client e with Some p => bool_decide (is_Some (w_clients w !! p)) | None => true end &&
  match e with
  | ELoadChannel _ n _ _ _ _ _ => forallb (fun x => negb (x =? 0)) n
  | ELogon _ u => bool_decide (is_Some (uc_heap (w_uc w) !! u))
  | ESendChat _ in_ => negb (friend_command (get_str in_).1)
  | _ => true
  end &&
  (Z.of_nat (length (w_channelmap w)) <? 2 ^ 31 - 3) &&
  ((0 <=? uc_count (w_uc w)) && (uc_count (w_uc w) <? 2 ^ 32)).

Lemma deliverableb_ok e w : deliverableb e w = true -> deliverable e w.
Proof.
  unfold deliverableb, deliverable, table_room. rewrite !andb_true_iff, Z.ltb_lt, Z.leb_le, Z.ltb_lt.
  intros [[[H1 H2] H3] H4]. split_and!; try lia.
  - intros p E. rewrite E in H1. by apply bool_decide_eq_true in H1.
  - intros sn n tag flag mu bc bi ->. apply Forall_forall. intros x Hx ->. rewrite forallb_forall in H2.
    specialize (H2 0). apply list_elem_of_In in Hx. by specialize (H2 Hx).
  - intros p u ->. by apply bool_decide_eq_true in H2.
  - intros p in_ ->. by apply negb_true_iff in H2.
Qed.

(** The events one after another; [None] when one cannot happen or crashes. *)
Fixpoint play (evs : list event) (w : World S) : option (World S) :=
  match evs with
  | [] => Some w
  | e :: evs' =>
      if deliverableb e w then
        match perform store junk ufuel ju e w with Ret (_, w') => play evs' w' | _ => None end
      else None
  end.

Lemma play_reachable uc evs w w' :
  reachable store junk ufuel ju uc w -> play evs w = Some w' -> reachable store junk ufuel ju uc w'.
Proof.
  revert w. induction evs as [|e evs IH]; intros w Hr; cbn [play]; [by intros [= <-]|].
  destruct (deliverableb e w) eqn:Ed; [|done]. destruct (perform store junk ufuel ju e w) as [[[] w1]| |] eqn:Ep; [|done..].
  apply IH. eapply reach_step; [done|by apply deliverableb_ok|done].
Qed.
End run.

(** ** A server with two accounts that are friends of each other *)

Definition demo_junk (_ : nat) : bytes := replicate 20 0.
Definition demo_ju (_ : nat) : Z := 0.
Definition demo_uc : UC mem :=
  let c := new_UserCache [] in
  let c := (Add demo_junk (b# "bob") 0 c).2 in
  let c := (Add demo_junk (b# "eve") 0 c).2 in
  let '(_, h) := AddFriend 0 (Some 1%nat) (uc_heap c) in
  let '(_, h) := AddFriend 1 (Some 0%nat) h in
  with_heap h c.

Definition demo_play (evs : list event) : option (World mem) :=
  play mem_storage demo_junk 9 demo_ju evs (start_world demo_uc).
Abbreviation demo_reachable := (reachable mem_storage demo_junk 9 demo_ju demo_uc).

Lemma demo_reach evs w : demo_play evs = Some w -> demo_reachable w.
Proof. apply play_reachable. constructor. Qed.

Definition str_in (s : bytes) : Stream := stream_of (s ++ [0]).
Definition join_in (name : bytes) : Stream := stream_of ([0; 0; 0; 0] ++ name ++ [0]).
Definition start_in (name : bytes) : Stream := stream_of (replicate 20 0 ++ name ++ [0; 0; 0]).
Definition notify_in (name : bytes) : Stream := stream_of (replicate 8 0 ++ name ++ [0; 0]).

(** The lobby is object 0, bob's connection 1 and eve's 2. *)
Definition two_online : list event :=
  [ELoadChannel (b# "Lobby") (b# "Lobby") 0 0 100 false false;
   EConnect 7000 0 [] []; EConnect 7001 0 [] []; ELogon 1 0; ELogon 2 1].
Definition in_lobby : list event := two_online ++ [EJoinChannel 1 (join_in (b# "lobby")); EJoinChannel 2 (join_in (b# "LOBBY"))].
Definition in_game : list event := two_online ++ [EStartAdvEx3 1 (start_in (b# "duel")); ENotifyJoin 2 (notify_in (b# "Duel"))].

Definition lobby_world : World mem := default (start_world demo_uc) (demo_play in_lobby).
Definition game_world : World mem := default (start_world demo_uc) (demo_play in_game).
Lemma lobby_reach : demo_reachable lobby_world.
Proof. apply (demo_reach in_lobby). vm_compute. reflexivity. Qed.
Lemma game_reach : demo_reachable game_world.
Proof. apply (demo_reach in_game). vm_compute. reflexivity. Qed.

Example lobby_members : h_connset <$> w_channels lobby_world !! 0%nat = Some [1; 2]%nat.
Proof. vm_compute. reflexivity. Qed.
Example game_members : (fun g => (g_host g, g_connlist g)) <$> w_games game_world !! 3%nat = Some (Some 1%nat, [1; 2]%nat).
Proof. vm_compute. reflexivity. Qed.

(** ** The properties there *)

Lemma chat_survives_witness :
  exists w', perform mem_storage demo_junk 9 demo_ju (EDisconnect 1) game_world = Ret (tt, w') /\ demo_reachable w' /\ inv w'.
Proof.
  apply (chat_survives mem_storage demo_junk 9 demo_ju demo_uc game_world (EDisconnect 1) game_reach).
  apply deliverableb_ok. vm_compute. reflexivity.
Defined.

Definition bob_c : Client := default (mkClient CONNECTED 0 0 0 0 0 0 0 0 0 0 0 0 0 0 0 0 0 [] [] None None None [] [] [] [] [] [])
  (w_clients lobby_world !! 1%nat).
Definition lobby : Channel := default (new_Channel [] [] 0 0 0 false false) (w_channels lobby_world !! 0%nat).

Lemma talk_reaches_channel_witness :
  exists b name flag,
    BNet_Build cmd_ChatEvent (BNetChatEvent_Pack MsgTalk flag (c_latency bob_c) name (b# "hello")) = Some b /\
    GetUsername 1 lobby_world = Ret (name, lobby_world) /\ Client_GetFlag 1 lobby_world = Ret (flag, lobby_world) /\
    SendChat_Process mem_storage demo_junk 9 1 (str_in (b# "hello")) lobby_world =
      Ret (true, add_out ((fun t => (t, b)) <$> base.filter (fun t => Some t <> Some 1%nat) (h_connset lobby)) lobby_world) /\
    NoDup (h_connset lobby).
Proof.
  apply (talk_reaches_channel mem_storage demo_junk 9 demo_ju demo_uc lobby_world 1 bob_c 0 lobby (str_in (b# "hello")) 104 (b# "ello"));
    [exact lobby_reach|vm_compute; reflexivity..|lia].
Defined.

Lemma join_is_exclusive_witness :
  exists w', Channel_Join 0 1 lobby_world = Ret (tt, w') /\ inv w' /\
    (forall h' ch', w_channels w' !! h' = Some ch' -> 1%nat ∈ h_connset ch' <-> h' = 0%nat) /\
    (forall g gm, w_games w' !! g = Some gm -> 1%nat ∉ g_connlist gm) /\
    (forall q, q <> 1%nat -> w_clients w' !! q = w_clients lobby_world !! q).
Proof.
  apply (join_is_exclusive mem_storage demo_junk 9 demo_ju demo_uc lobby_world 1 bob_c 0);
    [exact lobby_reach|vm_compute; reflexivity|exists lobby; vm_compute; reflexivity].
Defined.

Definition bob_g : Client := default bob_c (w_clients game_world !! 1%nat).
Definition duel : Game := default (mkGame [] 0 0 0 0 0 [] [] true None []) (w_games game_world !! 3%nat).

Lemma host_passes_on_witness :
  game_after 1 duel <> None /\
  exists w', leave_game 1 game_world = Ret (tt, w') /\ inv w' /\
    (forall q, q <> 1%nat -> w_clients w' !! q = w_clients game_world !! q) /\
    (exists c', w_clients w' !! 1%nat = Some c' /\ c_game c' = None) /\
    match game_after 1 duel with
    | Some gm' => w_games w' !! 3%nat = Some gm' /\ g_connlist gm' = list_erase 1 (g_connlist duel) /\
        (g_host duel <> Some 1%nat -> g_host gm' = g_host duel) /\ (g_host duel = Some 1%nat -> g_host gm' = head (g_connlist gm'))
    | None => w_games w' !! 3%nat = None /\ om_find ci_ltb (g_name duel) (w_game_map w') = None /\ g_connlist duel = [1%nat]
    end.
Proof.
  split; [vm_compute; congruence|].
  apply (host_passes_on mem_storage demo_junk 9 demo_ju demo_uc game_world 1 bob_g 3 duel);
    [exact game_reach|vm_compute; reflexivity..].
Defined.


Lemma dead_token_crashes_witness :
  exists p w1 w2, new_Client 9000 0 [] [] lobby_world = Ret (p, w1) /\ delete_Client p w1 = Ret (tt, w2) /\
    w_clients w2 !! p = None /\ ConnTest2_Process demo_ju 1 2 (stream_of (le_bytes 4 9000 ++ [0; 0; 0; 0])) w2 = Crash.
Proof.
  apply (dead_token_crashes mem_storage demo_junk 9 demo_ju demo_uc lobby_world 9000 0 [] [] 1 2
           (stream_of (le_bytes 4 9000 ++ [0; 0; 0; 0])));
    [exact lobby_reach|vm_compute; congruence|vm_compute; lia|vm_compute; reflexivity].
Defined.

Lemma left_client_still_talks_witness :
  exists w1 ch b, LeaveChat_Process 1 lobby_world = Ret (true, w1) /\ w_channels w1 !! 0%nat = Some ch /\ 1%nat ∉ h_connset ch /\
    SendChat_Process mem_storage demo_junk 9 1 (str_in (b# "bye")) w1 = Ret (true, add_out ((fun t => (t, b)) <$> h_connset ch) w1).
Proof.
  apply (left_client_still_talks mem_storage demo_junk 9 demo_ju demo_uc lobby_world 1 bob_c 0 (str_in (b# "bye")) 98 (b# "ye"));
    [exact lobby_reach|vm_compute; reflexivity..|lia].
Defined.

(** A by-index channel for one user. *)
Definition arena_world : World mem :=
  default (start_world demo_uc) (demo_play [ELoadChannel (b# "arena") (b# "Arena") 0 0 1 false true]).
Lemma arena_reach : demo_reachable arena_world.
Proof. apply (demo_reach [ELoadChannel (b# "arena") (b# "Arena") 0 0 1 false true]). vm_compute. reflexivity. Qed.

Lemma by_index_spawns_once_witness :
  exists h2 w', Ensure 5 (b# "arena") 0 [] arena_world = Ret (Some h2, w') /\ h2 <> 0%nat /\
    om_find ci_ltb (b# "arena") (w_channelmap w') = Some h2 /\
    exists ch2, w_channels w' !! h2 = Some ch2 /\ h_byIndex ch2 = false /\ h_byCountry ch2 = false /\
      forall fuel' (w2 : World mem) ch2', w_channelmap w2 = w_channelmap w' -> w_channels w2 !! h2 = Some ch2' ->
        (h_byIndex ch2', h_byCountry ch2', has_room ch2') = (false, false, false) ->
        Ensure fuel' (b# "arena") 0 [] w2 = Ret (None, w2).
Proof.
  apply (by_index_spawns_once mem_storage demo_junk 9 demo_ju demo_uc arena_world 4 (b# "arena") 0 [] 0
           (new_Channel (b# "arena") (b# "Arena") 0 0 1 false true));
    [exact arena_reach|apply (bool_decide_unpack _); vm_compute; exact I|constructor|vm_compute; reflexivity..| |vm_compute; reflexivity].
  vm_compute. congruence.
Defined.

(** The friend list of "/f l" can crash the server: bob asks for it while
    eve, who lists him too, is in a game and has not been in a channel; the
    branch for a friend in a game asks her channel, which is NULL, for its
    name. *)
Theorem friend_list_crashes :
  exists w, demo_reachable w /\ SendChat_Process mem_storage demo_junk 9 1 (str_in (b# "/f l")) w = Crash.
Proof. exists game_world. split; [exact game_reach|]. vm_compute. reflexivity. Qed.

(** A second logon under the same name loses its entry in the pool when
    the first connection ends: bob is online on connection 2, and a lookup of
    his name finds nobody. *)
Theorem second_logon_orphaned :
  exists w, demo_reachable w /\ (c_user <$> w_clients w !! 2%nat) = Some (Some 0%nat) /\
    pool_name (b# "bob") w = Ret (None, w).
Proof.
  set (evs := [EConnect 7000 0 [] []; EConnect 7001 0 [] []; EConnect 7002 0 [] []; ELogon 1 0; ELogon 2 0; EDisconnect 1]).
  exists (default (start_world demo_uc) (demo_play evs)). split; [apply (demo_reach evs); vm_compute; reflexivity|].
  split; vm_compute; reflexivity.
Qed.

(** ** Logons *)

Definition demo_jb (_ n : nat) : bytes := replicate n 0.
Definition carol_pw : bytes := replicate 20 7.
Definition carol : UserCacheItem := new_account carol_pw (SetUserId 1 (new_UserCacheItem (replicate 20 0) (b# "carol"))).
Definition carol_uc : UC mem :=
  let c := (Add demo_junk (b# "carol") 0 (new_UserCache [])).2 in with_heap (<[0%nat := carol]> (uc_heap c)) c.
Definition gate_world (uc : UC mem) : World mem :=
  default (start_world uc) (play mem_storage demo_junk 9 demo_ju [EConnect 7 0 [] []] (start_world uc)).
Definition demo_token : bytes := replicate 8 1.

Lemma gate_inv uc w : play mem_storage demo_junk 9 demo_ju [EConnect 7 0 [] []] (start_world uc) = Some w -> inv w.
Proof. intros H. eapply reachable_inv, play_reachable; [apply reach_start|exact H]. Qed.

Lemma old_logon_decides_witness :
  (exists w', OldAuthLogon2_Process mem_storage demo_junk 9 demo_jb 0
      (logon_in demo_token (old_proof demo_jb demo_token carol_pw) (b# "Carol")) (gate_world carol_uc) = Ret (true, w') /\
    inv w' /\ (exists c', w_clients w' !! 0%nat = Some c' /\ c_user c' = Some 0%nat /\ c_stage c' = BNET_LOGGEDIN) /\
    om_find ci_ltb (u_username carol) (w_clientMap w') = Some 0%nat /\ w_uc w' = w_uc (gate_world carol_uc)) /\
  OldAuthLogon2_Process mem_storage demo_junk 9 demo_jb 0 (logon_in demo_token (replicate 20 9) (b# "Carol")) (gate_world carol_uc)
    = Ret (true, add_out (reply_logon 0 2 []) (gate_world carol_uc)).
Proof.
  assert (inv (gate_world carol_uc)) as Hi by (apply (gate_inv carol_uc); vm_compute; reflexivity).
  assert (is_Some (w_clients (gate_world carol_uc) !! 0%nat)) as Hp by (vm_compute; by eexists).
  assert (length (old_proof demo_jb demo_token carol_pw) = 20%nat) as Hl by (vm_compute; reflexivity).
  assert (no_nul (b# "Carol")) as Hn by (apply (bool_decide_unpack _); vm_compute; exact I).
  assert (forall i n, length (demo_jb i n) = n) as Hj by (intros; apply length_replicate).
  split.
  - pose proof (old_logon_decides mem_storage demo_junk 9 demo_jb Hj 0 0 carol demo_token (old_proof demo_jb demo_token carol_pw)
      (b# "Carol") (gate_world carol_uc) Hi Hp eq_refl Hl Hn ltac:(simpl; lia) ltac:(vm_compute; reflexivity)
      ltac:(vm_compute; reflexivity) ltac:(vm_compute; reflexivity)) as H. cbv zeta in H.
    change (Z.land (u_flag carol) UCF_OLSAUTH =? 0) with false in H. cbv iota in H.
    rewrite decide_True in H by (change (u_passwd carol) with carol_pw; reflexivity). exact H.
  - pose proof (old_logon_decides mem_storage demo_junk 9 demo_jb Hj 0 0 carol demo_token (replicate 20 9)
      (b# "Carol") (gate_world carol_uc) Hi Hp eq_refl eq_refl Hn ltac:(simpl; lia) ltac:(vm_compute; reflexivity)
      ltac:(vm_compute; reflexivity) ltac:(vm_compute; reflexivity)) as H. cbv zeta in H.
    change (Z.land (u_flag carol) UCF_OLSAUTH =? 0) with false in H. cbv iota in H.
    rewrite decide_False in H by (vm_compute; congruence). exact H.
Defined.

Lemma create_then_logon_witness :
  let w := gate_world (new_UserCache []) in
  exists w1 w2 u, OldAccountCreate2_Process mem_storage demo_junk 9 demo_jb 0 (create_in carol_pw (b# "dave")) w = Ret (true, w1) /\
    OldAuthLogon2_Process mem_storage demo_junk 9 demo_jb 0
      (logon_in demo_token (old_proof demo_jb demo_token carol_pw) (b# "dave")) w1 = Ret (true, w2) /\
    (exists c', w_clients w2 !! 0%nat = Some c' /\ c_user c' = Some u /\ c_stage c' = BNET_LOGGEDIN) /\
    (u_id <$> uc_heap (w_uc w2) !! u) = Some 1 /\ om_find ci_ltb (b# "dave") (w_clientMap w2) = Some 0%nat.
Proof.
  set (w := gate_world (new_UserCache [])). cbv zeta.
  assert (inv w) as Hi by (apply (gate_inv (new_UserCache [])); vm_compute; reflexivity).
  assert (is_Some (w_clients w !! 0%nat)) as Hp by (vm_compute; by eexists).
  assert (no_nul (b# "dave")) as Hn by (apply (bool_decide_unpack _); vm_compute; exact I).
  assert (forall i n, length (demo_jb i n) = n) as Hj by (intros; apply length_replicate).
  assert (load_miss demo_junk (Some (b# "dave")) (w_uc w) = index_name mem_storage demo_junk 9 (b# "dave") (w_uc w)) as Hm
    by (vm_compute; reflexivity).
  destruct (load_miss demo_junk (Some (b# "dave")) (w_uc w)) as [[r c1]| |] eqn:E; [|vm_compute in E; congruence..].
  assert (r = None /\ c1 = default (w_uc w) (match index_name mem_storage demo_junk 9 (b# "dave") (w_uc w) with Ret (_, c) => Some c | _ => None end))
    as [-> Ec1] by (rewrite <- Hm; split; [vm_compute in E; congruence|reflexivity]).
  pose proof (create_then_logon mem_storage demo_junk 9 demo_jb Hj 0 carol_pw (b# "dave") c1 demo_token w) as H.
  destruct H as (w1 & w2 & u & H1 & H2 & H3 & H4 & H5); [exact Hi|exact Hp|reflexivity|exact Hn|simpl; lia|by rewrite <- Hm| | | |reflexivity|vm_compute; reflexivity|].
  - eapply load_miss_ok; [|  |exact E]; [apply (new_ok (S := mem) [])|vm_compute; reflexivity].
  - rewrite Ec1. split; [lia|]. split; [vm_compute; split; reflexivity|]. split; [lia|]. intros q v Hq Hv.
    vm_compute in Hq. injection Hq as <-. vm_compute in Hv. injection Hv as <-. reflexivity.
  - intros u a Hu. vm_compute in Hu. destruct u; discriminate Hu.
  - exists w1, w2, u. split; [exact H1|]. split; [exact H2|]. split; [exact H3|]. split; [|exact H5].
    rewrite H4, Ec1. vm_compute. reflexivity.
Defined.
