(* ===== verification/Files.v ===== *)
(** * Files: reading files (common/utils/File.h, File.cpp, the generic stream)

    The file system is an argument: the contents of the files that can be
    opened for reading.  The stream holds what [FILE *] stands for: nothing yet
    (the constructor does not set it), NULL, or an open file with its position. *)

From S2P Require Import Prelude Words.

(** A file system for reading, by path. *)
Notation fsys := (bytes -> option bytes).

Inductive FILE_ptr := Wild | NullFile | File (data : bytes) (pos : nat).
Record FileStream := mkFile { _nocache : bool; _file : FILE_ptr }.

Definition FileStream_ctor : FileStream := mkFile false Wild.

(** [Open] with [canwrite] and [append] false. *)
Definition Open (fs : fsys) (filename : bytes) (nocache : bool) (f : FileStream) : bool * FileStream :=
  match fs filename with
  | Some d => (true, mkFile nocache (File d 0))
  | None => (false, mkFile nocache NullFile)
  end.

(** [fclose] of a pointer that was never set is undefined. *)
Definition Close (f : FileStream) : result FileStream :=
  match _file f with
  | Wild => Crash
  | NullFile => Ret f
  | File _ _ => Ret (mkFile (_nocache f) NullFile)
  end.

(** [ftell], [fseek] and [fread] of anything but an open file are undefined. *)
Definition Size (f : FileStream) : result (Z * FileStream) :=
  match _file f with
  | File d pos => Ret (Z.of_nat (length d), mkFile (_nocache f) (File d (Z.to_nat (u32 (Z.of_nat pos)))))
  | _ => Crash
  end.
Definition Pos (f : FileStream) : result Z :=
  match _file f with File _ pos => Ret (Z.of_nat pos) | _ => Crash end.

(** The bytes read; the position moves behind them. *)
Definition Read (len : Z) (f : FileStream) : result (bytes * FileStream) :=
  match _file f with
  | File d pos => let got := take (Z.to_nat len) (drop pos d) in
                  Ret (got, mkFile (_nocache f) (File d (pos + length got)))
  | _ => Crash
  end.

(** The idiom [size = (uint)fs.Size(); buf.resize(size); fs.Read(&buf[0], size)]
    of the loaders, on a buffer of [size] zeros. *)
Definition slurp (f : FileStream) : result (bytes * FileStream) :=
  '(n, f) ← Size f;
  '(got, f) ← Read (u32 n) f;
  Ret (got ++ replicate (Z.to_nat (u32 n) - length got) 0, f).

(** ** Lemmas *)

Lemma slurp_all d b : Z.of_nat (length d) < 2 ^ 32 -> slurp (mkFile b (File d 0)) = Ret (d, mkFile b (File d (length d))).
Proof.
  intros H. unfold slurp, Size. cbn -[u32 Z.of_nat Z.to_nat Read]. rewrite u32_small by lia.
  change (Z.to_nat (u32 (Z.of_nat 0))) with 0%nat. unfold Read. cbn -[Z.of_nat Z.to_nat].
  by rewrite !Nat2Z.id, firstn_all, Nat.sub_diag, app_nil_r.
Qed.

(** Reading a file that cannot be opened: the result of [Open] is not looked at
    by the loaders, and the next call has a NULL file. *)
Lemma slurp_missing fs name b f : fs name = None -> slurp (snd (Open fs name b f)) = Crash.
Proof. intros E. unfold Open. rewrite E. done. Qed.
