(* ===== verification/MxmlNode.v ===== *)
(** * MxmlNode: the trees of Mini-XML (mxml/mxml-node.c, mxml/mxml-attr.c)

    The configuration files of the daemon are read with the Mini-XML sources in
    mxml/.  A document is a tree of nodes with pointers to parent, siblings,
    first and last child; this file has the node structure, the functions that
    build and take apart such trees, and the attributes of elements.  Nodes
    live in a heap; an allocation can fail ([oom] says which ones do). *)

From S2P Require Import Prelude CStr Stream.
From Stdlib Require Import Floats.SpecFloat.

(** ** Data *)

Notation ptr := (option nat).

Inductive mxml_type_t :=
  | MXML_IGNORE | MXML_ELEMENT | MXML_INTEGER | MXML_OPAQUE | MXML_REAL | MXML_TEXT | MXML_CUSTOM.
#[export] Instance mxml_type_dec : EqDecision mxml_type_t.
Proof. solve_decision. Defined.

(** An attribute; its value is NULL for one without a value. *)
Record mxml_attr_t := mkAttr { attr_name : bytes; attr_value : option bytes }.

(** The union [mxml_value_t] together with the [type] that says which member
    is valid. *)
Inductive mxml_value_t :=
  | VIgnore
  | VElement (name : option bytes) (attrs : list mxml_attr_t)
  | VInteger (i : Z)
  | VOpaque (s : option bytes)
  | VReal (r : spec_float)
  | VText (whitespace : Z) (s : option bytes)
  | VCustom (data destroy : ptr).

Definition type_of (v : mxml_value_t) : mxml_type_t :=
  match v with
  | VIgnore => MXML_IGNORE | VElement _ _ => MXML_ELEMENT | VInteger _ => MXML_INTEGER
  | VOpaque _ => MXML_OPAQUE | VReal _ => MXML_REAL | VText _ _ => MXML_TEXT | VCustom _ _ => MXML_CUSTOM
  end.
(** What [calloc] leaves in a node of the type. *)
Definition zero_value (t : mxml_type_t) : mxml_value_t :=
  match t with
  | MXML_IGNORE => VIgnore | MXML_ELEMENT => VElement None [] | MXML_INTEGER => VInteger 0
  | MXML_OPAQUE => VOpaque None | MXML_REAL => VReal (S754_zero false) | MXML_TEXT => VText 0 None
  | MXML_CUSTOM => VCustom None None
  end.

Record mxml_node_t := mkNode {
  n_value : mxml_value_t;
  n_next : ptr; n_prev : ptr; n_parent : ptr; n_child : ptr; n_last_child : ptr;
  n_ref_count : Z;
  n_user_data : ptr
}.
Definition n_type (n : mxml_node_t) : mxml_type_t := type_of (n_value n).

Definition set_value (v : mxml_value_t) (n : mxml_node_t) : mxml_node_t :=
  mkNode v (n_next n) (n_prev n) (n_parent n) (n_child n) (n_last_child n) (n_ref_count n) (n_user_data n).
Definition set_next (q : ptr) (n : mxml_node_t) : mxml_node_t :=
  mkNode (n_value n) q (n_prev n) (n_parent n) (n_child n) (n_last_child n) (n_ref_count n) (n_user_data n).
Definition set_prev (q : ptr) (n : mxml_node_t) : mxml_node_t :=
  mkNode (n_value n) (n_next n) q (n_parent n) (n_child n) (n_last_child n) (n_ref_count n) (n_user_data n).
Definition set_parent (q : ptr) (n : mxml_node_t) : mxml_node_t :=
  mkNode (n_value n) (n_next n) (n_prev n) q (n_child n) (n_last_child n) (n_ref_count n) (n_user_data n).
Definition set_child (q : ptr) (n : mxml_node_t) : mxml_node_t :=
  mkNode (n_value n) (n_next n) (n_prev n) (n_parent n) q (n_last_child n) (n_ref_count n) (n_user_data n).
Definition set_last_child (q : ptr) (n : mxml_node_t) : mxml_node_t :=
  mkNode (n_value n) (n_next n) (n_prev n) (n_parent n) (n_child n) q (n_ref_count n) (n_user_data n).
Definition set_ref_count (r : Z) (n : mxml_node_t) : mxml_node_t :=
  mkNode (n_value n) (n_next n) (n_prev n) (n_parent n) (n_child n) (n_last_child n) r (n_user_data n).
Definition set_user_data (d : ptr) (n : mxml_node_t) : mxml_node_t :=
  mkNode (n_value n) (n_next n) (n_prev n) (n_parent n) (n_child n) (n_last_child n) (n_ref_count n) d.

(** What the library does besides changing nodes: a message through
    [mxml_error], a call of the destructor of custom data. *)
Inductive effect := EError (msg : bytes) | EDestroy (f data : nat).

Record xml := mkXml { x_heap : gmap nat mxml_node_t; x_count : nat; x_log : list effect }.

(** ** The monad *)

Definition X (A : Type) : Type := xml -> result (A * xml).
#[global] Instance X_ret : MRet X := fun _ a x => Ret (a, x).
#[global] Instance X_bind : MBind X :=
  fun _ _ f m x => match m x with Ret (a, x') => f a x' | Crash => Crash | NoFuel => NoFuel end.

Definition xcrash {A} : X A := fun _ => Crash.
Definition node (p : nat) : X mxml_node_t :=
  fun x => match x_heap x !! p with Some n => Ret (n, x) | None => Crash end.
Definition update (f : gmap nat mxml_node_t -> gmap nat mxml_node_t) : X unit :=
  fun x => Ret (tt, mkXml (f (x_heap x)) (x_count x) (x_log x)).
Definition edit (p : nat) (f : mxml_node_t -> mxml_node_t) : X unit :=
  n ← node p; update (insert p (f n)).
Definition log (e : effect) : X unit := fun x => Ret (tt, mkXml (x_heap x) (x_count x) (x_log x ++ [e])).
(** [mxml_error]: the formatted text, cut to the buffer of 1024 bytes. *)
Definition mxml_error (msg : bytes) : X unit := log (EError (take 1023 msg)).
(** [%s] of a pointer that may be NULL. *)
Definition or_null (s : option bytes) : bytes := default (b# "(null)") s.

Section mxml.
(** Which allocations fail. *)
Context (oom : nat -> bool).

(** [malloc]: an address not used before, or NULL. *)
Definition malloc : X ptr :=
  fun x => Ret (if oom (x_count x) then None else Some (x_count x),
                mkXml (x_heap x) (S (x_count x)) (x_log x)).
Definition strdup (s : bytes) : X (option bytes) :=
  p ← malloc; mret (match p with Some _ => Some (cstr s) | None => None end).
Definition free (p : nat) : X unit :=
  _ ← node p; update (delete p).

(** ** mxml-node.c *)

Definition MXML_ADD_BEFORE : Z := 0.
Definition MXML_ADD_AFTER : Z := 1.

(** [if (q) q->next = v; else parent->child = v;] and its mirror image. *)
Definition link_right (par : nat) (q v : ptr) : X unit :=
  match q with Some q => edit q (set_next v) | None => edit par (set_child v) end.
Definition link_left (par : nat) (q v : ptr) : X unit :=
  match q with Some q => edit q (set_prev v) | None => edit par (set_last_child v) end.

Definition mxmlRemove (nd : ptr) : X unit :=
  match nd with
  | None => mret tt
  | Some p =>
      n ← node p;
      match n_parent n with
      | None => mret tt
      | Some par =>
          link_right par (n_prev n) (n_next n) ;;
          n ← node p;
          link_left par (n_next n) (n_prev n) ;;
          edit p (fun n => set_next None (set_prev None (set_parent None n)))
      end
  end.

(** [!child || child == edge || child->parent != parent]. *)
Definition at_edge (child edge : ptr) (par : nat) : X bool :=
  match child with
  | None => mret true
  | Some c =>
      if decide (edge = Some c) then mret true
      else cn ← node c; mret (negb (bool_decide (n_parent cn = Some par)))
  end.

(** The two branches of [MXML_ADD_BEFORE]. *)
Definition add_first (par p : nat) : X unit :=
  pn ← node par;
  edit p (set_next (n_child pn)) ;;
  link_left par (n_child pn) (Some p) ;;
  edit par (set_child (Some p)).
Definition add_before (par c p : nat) : X unit :=
  edit p (set_next (Some c)) ;;
  cn ← node c;
  edit p (set_prev (n_prev cn)) ;;
  link_right par (n_prev cn) (Some p) ;;
  edit c (set_prev (Some p)).
(** The two branches of [MXML_ADD_AFTER]. *)
Definition add_last (par p : nat) : X unit :=
  edit p (set_parent (Some par)) ;;
  pn ← node par;
  edit p (set_prev (n_last_child pn)) ;;
  link_right par (n_last_child pn) (Some p) ;;
  edit par (set_last_child (Some p)).
Definition add_after (par c p : nat) : X unit :=
  edit p (set_prev (Some c)) ;;
  cn ← node c;
  edit p (set_next (n_next cn)) ;;
  link_left par (n_next cn) (Some p) ;;
  edit c (set_next (Some p)).

Definition mxmlAdd (parent : ptr) (where_ : Z) (child nd : ptr) : X unit :=
  match parent, nd with
  | Some par, Some p =>
      n ← node p;
      match n_parent n with Some _ => mxmlRemove (Some p) | None => mret tt end ;;
      edit p (set_parent (Some par)) ;;
      pn ← node par;
      if where_ =? MXML_ADD_BEFORE then
        b ← at_edge child (n_child pn) par;
        match child with
        | Some c => if b : bool then add_first par p else add_before par c p
        | None => add_first par p
        end
      else if where_ =? MXML_ADD_AFTER then
        b ← at_edge child (n_last_child pn) par;
        match child with
        | Some c => if b : bool then add_last par p else add_after par c p
        | None => add_last par p
        end
      else mret tt
  | _, _ => mret tt
  end.

Definition mxml_new (parent : ptr) (type : mxml_type_t) : X ptr :=
  r ← malloc;
  match r with
  | None => mret None
  | Some p =>
      update (insert p (mkNode (zero_value type) None None None None None 1 None)) ;;
      match parent with
      | Some _ => mxmlAdd parent MXML_ADD_AFTER None (Some p)
      | None => mret tt
      end ;;
      mret (Some p)
  end.

(** [node->value.element.name = s], [node->value.element.attrs = l]. *)
Definition set_elem_name (s : option bytes) (n : mxml_node_t) : mxml_node_t :=
  match n_value n with VElement _ l => set_value (VElement s l) n | _ => n end.
Definition set_elem_attrs (l : list mxml_attr_t) (n : mxml_node_t) : mxml_node_t :=
  match n_value n with VElement s _ => set_value (VElement s l) n | _ => n end.

Definition new_with (parent : ptr) (type : mxml_type_t) (fill : nat -> X unit) : X ptr :=
  r ← mxml_new parent type;
  match r with Some p => fill p ;; mret (Some p) | None => mret None end.

Definition mxmlNewCDATA (parent : ptr) (data : option bytes) : X ptr :=
  match data with
  | None => mret None
  | Some data => new_with parent MXML_ELEMENT (fun p =>
      s ← strdup (b# "![CDATA[" ++ cstr data ++ b# "]]"); edit p (set_elem_name s))
  end.
Definition mxmlNewCustom (parent data destroy : ptr) : X ptr :=
  new_with parent MXML_CUSTOM (fun p => edit p (set_value (VCustom data destroy))).
Definition mxmlNewElement (parent : ptr) (name : option bytes) : X ptr :=
  match name with
  | None => mret None
  | Some name => new_with parent MXML_ELEMENT (fun p => s ← strdup name; edit p (set_elem_name s))
  end.
Definition mxmlNewInteger (parent : ptr) (integer : Z) : X ptr :=
  new_with parent MXML_INTEGER (fun p => edit p (set_value (VInteger integer))).
Definition mxmlNewOpaque (parent : ptr) (opaque : option bytes) : X ptr :=
  match opaque with
  | None => mret None
  | Some s => new_with parent MXML_OPAQUE (fun p => s ← strdup s; edit p (set_value (VOpaque s)))
  end.
Definition mxmlNewReal (parent : ptr) (real : spec_float) : X ptr :=
  new_with parent MXML_REAL (fun p => edit p (set_value (VReal real))).
Definition mxmlNewText (parent : ptr) (whitespace : Z) (string : option bytes) : X ptr :=
  match string with
  | None => mret None
  | Some s => new_with parent MXML_TEXT (fun p => s ← strdup s; edit p (set_value (VText whitespace s)))
  end.
(** [mxmlNewTextf]: [text] is what the format and its arguments give. *)
Definition mxmlNewTextf (parent : ptr) (whitespace : Z) (text : option bytes) : X ptr :=
  match text with
  | None => mret None
  | Some s => new_with parent MXML_TEXT (fun p => s ← strdup s; edit p (set_value (VText whitespace s)))
  end.
Definition mxmlNewXML (version : option bytes) : X ptr :=
  mxmlNewElement None (Some (take 1023
    (b# "?xml version=" ++ [34] ++ cstr (default (b# "1.0") version) ++ [34] ++ b# " encoding=" ++ [34] ++
     b# "utf-8" ++ [34] ++ b# "?"))).

(** Freeing the data of a node: the strings are values here, the destructor of
    custom data is called. *)
Definition free_value (v : mxml_value_t) : X unit :=
  match v with
  | VCustom (Some d) (Some f) => log (EDestroy f d)
  | _ => mret tt
  end.

(** [mxmlDelete] and its loop over the children. *)
Fixpoint delete_node (fuel : nat) (p : nat) : X unit :=
  match fuel with
  | O => fun _ => NoFuel
  | S fuel' =>
      mxmlRemove (Some p) ;;
      delete_children fuel' p ;;
      n ← node p;
      free_value (n_value n) ;;
      free p
  end
with delete_children (fuel : nat) (p : nat) : X unit :=
  match fuel with
  | O => fun _ => NoFuel
  | S fuel' =>
      n ← node p;
      match n_child n with
      | None => mret tt
      | Some c => delete_node fuel' c ;; delete_children fuel' p
      end
  end.

(** Every call and every round of the loop frees a node or is the last for
    its node. *)
Definition mxmlDelete (nd : ptr) : X unit :=
  match nd with
  | None => mret tt
  | Some p => fun x => delete_node (2 * base.size (x_heap x) + 2) p x
  end.

Definition mxmlGetRefCount (nd : ptr) : X Z :=
  match nd with None => mret 0 | Some p => n ← node p; mret (n_ref_count n) end.
Definition mxmlRelease (nd : ptr) : X Z :=
  match nd with
  | None => mret (-1)
  | Some p =>
      n ← node p;
      edit p (set_ref_count (n_ref_count n - 1)) ;;
      if n_ref_count n - 1 <=? 0 then mxmlDelete (Some p) ;; mret 0
      else mret (n_ref_count n - 1)
  end.
Definition mxmlRetain (nd : ptr) : X Z :=
  match nd with
  | None => mret (-1)
  | Some p => n ← node p; edit p (set_ref_count (n_ref_count n + 1)) ;; mret (n_ref_count n + 1)
  end.

(** ** mxml-attr.c *)

(** [!strcmp(attr->name, name)]. *)
Definition is_attr (name : bytes) (a : mxml_attr_t) : bool := bool_decide (cstr (attr_name a) = cstr name).

(** The loops over the attributes. *)
Fixpoint find_attr (name : bytes) (l : list mxml_attr_t) : option mxml_attr_t :=
  match l with
  | [] => None
  | a :: l' => if is_attr name a then Some a else find_attr name l'
  end.
Fixpoint delete_attr (name : bytes) (l : list mxml_attr_t) : list mxml_attr_t :=
  match l with
  | [] => []
  | a :: l' => if is_attr name a then l' else a :: delete_attr name l'
  end.
Fixpoint replace_attr (name : bytes) (v : option bytes) (l : list mxml_attr_t) : option (list mxml_attr_t) :=
  match l with
  | [] => None
  | a :: l' => if is_attr name a then Some (mkAttr (attr_name a) v :: l')
               else cons a <$> replace_attr name v l'
  end.

Definition mxmlElementDeleteAttr (nd : ptr) (name : option bytes) : X unit :=
  match nd with
  | None => mret tt
  | Some p =>
      n ← node p;
      match n_value n, name with
      | VElement _ l, Some name => edit p (set_elem_attrs (delete_attr name l))
      | _, _ => mret tt
      end
  end.

Definition mxmlElementGetAttr (nd : ptr) (name : option bytes) : X (option bytes) :=
  match nd with
  | None => mret None
  | Some p =>
      n ← node p;
      mret (match n_value n, name with VElement _ l, Some name => find_attr name l ≫= attr_value | _, _ => None end)
  end.

Definition no_memory_for (name : bytes) (elem : option bytes) : bytes :=
  b# "Unable to allocate memory for attribute '" ++ cstr name ++ b# "' in element " ++ or_null elem ++ b# "!".

(** [mxml_set_attr] on an element: 0, or -1 when memory is short. *)
Definition mxml_set_attr (p : nat) (name : bytes) (value : option bytes) : X Z :=
  n ← node p;
  match n_value n with
  | VElement elem l =>
      match replace_attr name value l with
      | Some l' => edit p (set_elem_attrs l') ;; mret 0
      | None =>
          room ← malloc;
          match room with
          | None => mxml_error (no_memory_for name elem) ;; mret (-1)
          | Some _ =>
              s ← strdup name;
              match s with
              | None => mxml_error (no_memory_for name elem) ;; mret (-1)
              | Some s => edit p (set_elem_attrs (l ++ [mkAttr s value])) ;; mret 0
              end
          end
      end
  | _ => xcrash
  end.

Definition mxmlElementSetAttr (nd : ptr) (name value : option bytes) : X unit :=
  match nd with
  | None => mret tt
  | Some p =>
      n ← node p;
      match n_type n, name with
      | MXML_ELEMENT, Some name =>
          v ← match value with Some v => strdup v | None => mret None end;
          mxml_set_attr p name v ;; mret tt
      | _, _ => mret tt
      end
  end.

(** [mxmlElementSetAttrf]: [text] is what the format and its arguments give. *)
Definition mxmlElementSetAttrf (nd : ptr) (name text : option bytes) : X unit :=
  match nd with
  | None => mret tt
  | Some p =>
      n ← node p;
      match n_value n, name, text with
      | VElement elem _, Some name, Some text =>
          v ← strdup text;
          match v with
          | None => mxml_error (no_memory_for name elem)
          | Some v => mxml_set_attr p name (Some v) ;; mret tt
          end
      | _, _, _ => mret tt
      end
  end.
End mxml.
