(* ===== verification/MxmlTree.v ===== *)
(** * MxmlTree: the node trees as lists of children

    The pointers of a Mini-XML tree are consistent when they spell out, for
    each node, a list of children ([forest]).  [mxmlRemove] and [mxmlAdd] are
    then operations on these lists, and [mxmlDelete] frees a subtree. *)

From S2P Require Import Prelude OMap CStr Stream MxmlNode.

(** ** Running heap operations *)

(** One field of one node. *)
Definition fld {A} (F : mxml_node_t -> A) (h : gmap nat mxml_node_t) (p : nat) : option A := F <$> h !! p.

Definition with_x (h : gmap nat mxml_node_t) (x : xml) : xml := mkXml h (x_count x) (x_log x).

Lemma xbind_eq {A B} (m : X A) (k : A -> X B) x a x' : m x = Ret (a, x') -> (mbind k m) x = k a x'.
Proof. unfold mbind, X_bind. by intros ->. Qed.

Lemma node_run p x n : x_heap x !! p = Some n -> node p x = Ret (n, x).
Proof. unfold node. by intros ->. Qed.

Lemma edit_run p f x : is_Some (x_heap x !! p) -> edit p f x = Ret (tt, with_x (alter f p (x_heap x)) x).
Proof.
  intros [n Hn]. unfold edit. rewrite (xbind_eq _ _ _ _ _ (node_run _ _ _ Hn)). unfold update, with_x.
  do 3 f_equal. apply map_eq. intros q. destruct (decide (q = p)) as [->|].
  - by rewrite lookup_insert_eq, lookup_alter_eq, Hn.
  - by rewrite lookup_insert_ne, lookup_alter_ne.
Qed.

Lemma is_Some_alter (f : mxml_node_t -> mxml_node_t) q (h : gmap nat mxml_node_t) p : is_Some (alter f q h !! p) <-> is_Some (h !! p).
Proof.
  destruct (decide (p = q)) as [->|]; [rewrite lookup_alter_eq|by rewrite lookup_alter_ne].
  destruct (h !! q); simpl; by split; intros [? ?]; eauto.
Qed.

Lemma fld_Some {A} (F : mxml_node_t -> A) h p a : fld F h p = Some a <-> exists n, h !! p = Some n /\ F n = a.
Proof. unfold fld. rewrite fmap_Some. naive_solver. Qed.
Lemma fld_live {A} (F : mxml_node_t -> A) h p a : fld F h p = Some a -> is_Some (h !! p).
Proof. intros (n & Hn & _)%fld_Some. by eexists. Qed.
Lemma live_fld {A} (F : mxml_node_t -> A) h p : is_Some (h !! p) -> exists a, fld F h p = Some a.
Proof. intros [n Hn]. exists (F n). apply fld_Some. eauto. Qed.

Lemma fld_keep {A} (F : mxml_node_t -> A) f q h p : (forall n, F (f n) = F n) -> fld F (alter f q h) p = fld F h p.
Proof.
  intros HF. unfold fld. destruct (decide (p = q)) as [->|]; [rewrite lookup_alter_eq|by rewrite lookup_alter_ne].
  destruct (h !! q); simpl; [by rewrite HF|done].
Qed.
Lemma fld_set {A} (F : mxml_node_t -> A) f v q h p :
  (forall n, F (f n) = v) -> is_Some (h !! q) ->
  fld F (alter f q h) p = if decide (p = q) then Some v else fld F h p.
Proof.
  intros HF [n Hn]. unfold fld. destruct (decide (p = q)) as [->|]; [|by rewrite lookup_alter_ne].
  rewrite lookup_alter_eq, Hn. simpl. by rewrite HF.
Qed.

(** Evaluate the fields of a heap after a sequence of changes. *)
Ltac live := repeat apply is_Some_alter; done.
Ltac flds := repeat first
  [ rewrite fld_keep by (intros []; reflexivity)
  | rewrite fld_set by first [intros []; reflexivity | live] ].

(** ** Consistent pointers *)

Record forest (h : gmap nat mxml_node_t) (K : gmap nat (list nat)) : Prop := mkForest {
  fo_dom : forall p, is_Some (K !! p) <-> is_Some (h !! p);
  fo_child : forall p ks, K !! p = Some ks -> fld n_child h p = Some (head ks) /\ fld n_last_child h p = Some (last ks);
  fo_kid : forall p l1 c l2, K !! p = Some (l1 ++ c :: l2) ->
    fld n_parent h c = Some (Some p) /\ fld n_prev h c = Some (last l1) /\ fld n_next h c = Some (head l2);
  fo_up : forall c p, fld n_parent h c = Some (Some p) -> exists ks, K !! p = Some ks /\ c ∈ ks;
  fo_root : forall c, fld n_parent h c = Some None -> fld n_prev h c = Some None /\ fld n_next h c = Some None;
  fo_nodup : forall p ks, K !! p = Some ks -> NoDup ks
}.

(** The children of [p]. *)
Definition kids (K : gmap nat (list nat)) (p : nat) : list nat := default [] (K !! p).
Definition child_of (K : gmap nat (list nat)) (c p : nat) : Prop := c ∈ kids K p.
(** No node is below itself. *)
Definition acyclic (K : gmap nat (list nat)) : Prop := forall p, Acc (child_of K) p.

(** Nothing but the links between nodes changed. *)
Definition same_contents (h h' : gmap nat mxml_node_t) : Prop :=
  forall q, fld (fun n => (n_value n, n_ref_count n, n_user_data n)) h' q =
            fld (fun n => (n_value n, n_ref_count n, n_user_data n)) h q.

Lemma kid_split h K p c : forest h K -> fld n_parent h c = Some (Some p) ->
  exists l1 l2, K !! p = Some (l1 ++ c :: l2).
Proof.
  intros Hf Hp. destruct (fo_up _ _ Hf _ _ Hp) as (ks & Hk & Hc).
  apply list_elem_of_split in Hc as (l1 & l2 & ->). eauto.
Qed.

Lemma one_parent h K p q c : forest h K -> child_of K c p -> child_of K c q -> p = q.
Proof.
  intros Hf. unfold child_of, kids. destruct (K !! p) as [ks|] eqn:E1, (K !! q) as [ks'|] eqn:E2; simpl; try (intros; by set_solver).
  intros (l1 & l2 & ->)%list_elem_of_split (l3 & l4 & ->)%list_elem_of_split.
  destruct (fo_kid _ _ Hf _ _ _ _ E1) as [H1 _], (fo_kid _ _ Hf _ _ _ _ E2) as [H2 _]. congruence.
Qed.

Lemma split_app {A} (l1 l2 a b : list A) c : l1 ++ l2 = a ++ c :: b ->
  (exists m, l1 = a ++ c :: m /\ b = m ++ l2) \/ (exists m, l2 = m ++ c :: b /\ a = l1 ++ m).
Proof.
  revert a. induction l1 as [|x l1 IH]; intros a E; simpl in E.
  - right. by exists a.
  - destruct a as [|y a]; simpl in E; injection E as -> E.
    + left. by exists l1.
    + destruct (IH _ E) as [(m & -> & ->)|(m & -> & ->)]; [left|right]; by exists m.
Qed.

Lemma last_app_cons {A} (l : list A) x m : last (l ++ x :: m) = last (x :: m).
Proof.
  induction l as [|y l IH]; [done|]. cbn [app]. rewrite <- IH. by destruct l.
Qed.
Lemma head_app_cons {A} (l : list A) x m : head (l ++ x :: m) = Some (default x (head l)).
Proof. by destruct l. Qed.
Lemma last_elem {A} (l : list A) x : last l = Some x -> x ∈ l.
Proof. rewrite last_Some. intros [k ->]. set_solver. Qed.
Lemma head_elem {A} (l : list A) x : head l = Some x -> x ∈ l.
Proof. destruct l; [done|]. intros [= ->]. left. Qed.

(** ** Taking a node out of and into a list of children *)

(** [h'] is [h] with the neighbours of the gap between [l1] and [l2] linked to
    [mid], and the links of [p] set. *)
Record relinked (h h' : gmap nat mxml_node_t) (par : nat) (l1 mid l2 : list nat) (p : nat) (up pv nx : ptr)
  : Prop := mkRelinked {
  rl_live : forall q, is_Some (h' !! q) <-> is_Some (h !! q);
  rl_same : same_contents h h';
  rl_parent : forall q, fld n_parent h' q = if decide (q = p) then Some up else fld n_parent h q;
  rl_next : forall q, fld n_next h' q = if decide (q = p) then Some nx
    else if decide (last l1 = Some q) then Some (head (mid ++ l2)) else fld n_next h q;
  rl_prev : forall q, fld n_prev h' q = if decide (q = p) then Some pv
    else if decide (head l2 = Some q) then Some (last (l1 ++ mid)) else fld n_prev h q;
  rl_child : forall q, fld n_child h' q = if decide (q = par /\ l1 = []) then Some (head (mid ++ l2)) else fld n_child h q;
  rl_last : forall q, fld n_last_child h' q = if decide (q = par /\ l2 = []) then Some (last (l1 ++ mid)) else fld n_last_child h q
}.

Lemma last_mid {A} (l1 m l2 : list A) : l2 <> [] -> last (l1 ++ m ++ l2) = last (l1 ++ l2).
Proof. destruct l2 as [|x l2]; [done|]. intros _. by rewrite app_assoc, !last_app_cons. Qed.
Lemma head_mid {A} (l1 m l2 : list A) : l1 <> [] -> head (l1 ++ m ++ l2) = head (l1 ++ l2).
Proof. by destruct l1. Qed.

(** Neighbours in the left and in the right part of a list whose middle
    changes. *)
Lemma relinked_left h h' K par l1 m0 mid l2 p up pv nx a c m :
  forest h K -> relinked h h' par l1 mid l2 p up pv nx -> K !! par = Some (l1 ++ m0 ++ l2) ->
  p ∉ l1 -> l1 = a ++ c :: m ->
  fld n_parent h' c = Some (Some par) /\ fld n_prev h' c = Some (last a) /\ fld n_next h' c = Some (head (m ++ mid ++ l2)).
Proof.
  intros Hf Hr HK Hp ->. pose proof (fo_nodup _ _ Hf _ _ HK) as Hnd.
  assert (c <> p) as Hcp by (intros ->; apply Hp; apply elem_of_app; right; left).
  rewrite <- app_assoc in HK. simpl in HK. destruct (fo_kid _ _ Hf _ _ _ _ HK) as (H1 & H2 & H3).
  rewrite (rl_parent _ _ _ _ _ _ _ _ _ _ Hr), (rl_prev _ _ _ _ _ _ _ _ _ _ Hr), (rl_next _ _ _ _ _ _ _ _ _ _ Hr).
  rewrite !(decide_False (P := c = p)) by done. rewrite last_app_cons.
  rewrite <- !app_assoc in Hnd. simpl in Hnd. apply NoDup_app in Hnd as (_ & _ & Hnd). apply NoDup_cons in Hnd as [Hcm Hnd].
  split; [done|]. split.
  - rewrite decide_False; [done|]. intros Hh%head_elem. apply Hcm. set_solver.
  - destruct m as [|y m]; [by rewrite decide_True|]. rewrite decide_False; [by rewrite H3|].
    intros Hl. change (y :: m) with ([y] ++ m) in Hl. apply Hcm. apply elem_of_app. left.
    destruct m as [|z m]; [injection Hl as ->; left|]. apply (last_elem (y :: z :: m)). exact Hl.
Qed.

Lemma relinked_right h h' K par l1 m0 mid l2 p up pv nx a c b :
  forest h K -> relinked h h' par l1 mid l2 p up pv nx -> K !! par = Some (l1 ++ m0 ++ l2) ->
  p ∉ l2 -> l2 = a ++ c :: b ->
  fld n_parent h' c = Some (Some par) /\ fld n_prev h' c = Some (last ((l1 ++ mid) ++ a)) /\ fld n_next h' c = Some (head b).
Proof.
  intros Hf Hr HK Hp ->. pose proof (fo_nodup _ _ Hf _ _ HK) as Hnd.
  assert (c <> p) as Hcp by (intros ->; apply Hp; apply elem_of_app; right; left).
  rewrite !app_assoc in HK. destruct (fo_kid _ _ Hf _ _ _ _ HK) as (H1 & H2 & H3).
  rewrite (rl_parent _ _ _ _ _ _ _ _ _ _ Hr), (rl_prev _ _ _ _ _ _ _ _ _ _ Hr), (rl_next _ _ _ _ _ _ _ _ _ _ Hr).
  rewrite !(decide_False (P := c = p)) by done.
  rewrite !app_assoc in Hnd. apply NoDup_app in Hnd as (_ & Hd & _).
  split; [done|]. split.
  - destruct a as [|y a]; [by rewrite app_nil_r, decide_True|].
    rewrite decide_False.
    + by rewrite last_app_cons, H2, last_app_cons.
    + cbn. intros [= ->]. eapply (Hd c); set_solver.
  - rewrite decide_False; [done|]. intros Hl%last_elem. eapply (Hd c); set_solver.
Qed.

Lemma kid_of h K p ks c : forest h K -> K !! p = Some ks -> c ∈ ks -> fld n_parent h c = Some (Some p).
Proof. intros Hf HK (l1 & l2 & ->)%list_elem_of_split. by destruct (fo_kid _ _ Hf _ _ _ _ HK). Qed.

(** Nodes that are neither in the changed list nor [p] keep their links. *)
Lemma relinked_other h h' K par l1 m0 mid l2 p up pv nx c :
  forest h K -> relinked h h' par l1 mid l2 p up pv nx -> K !! par = Some (l1 ++ m0 ++ l2) ->
  c <> p -> fld n_parent h c <> Some (Some par) ->
  fld n_parent h' c = fld n_parent h c /\ fld n_prev h' c = fld n_prev h c /\ fld n_next h' c = fld n_next h c.
Proof.
  intros Hf Hr HK Hcp Hc.
  rewrite (rl_parent _ _ _ _ _ _ _ _ _ _ Hr), (rl_prev _ _ _ _ _ _ _ _ _ _ Hr), (rl_next _ _ _ _ _ _ _ _ _ _ Hr).
  rewrite !(decide_False (P := c = p)) by done. split; [done|].
  split; rewrite decide_False; try done.
  - intros Hh%head_elem. apply Hc. eapply kid_of; [done..|]. set_solver.
  - intros Hl%last_elem. apply Hc. eapply kid_of; [done..|]. set_solver.
Qed.

(** First and last child after a change of the list of [par]. *)
Lemma relinked_ends h h' K par l1 m0 mid l2 p up pv nx q ks :
  forest h K -> relinked h h' par l1 mid l2 p up pv nx -> K !! par = Some (l1 ++ m0 ++ l2) ->
  <[par := l1 ++ mid ++ l2]> K !! q = Some ks ->
  fld n_child h' q = Some (head ks) /\ fld n_last_child h' q = Some (last ks).
Proof.
  intros Hf Hr HK Hq. rewrite (rl_child _ _ _ _ _ _ _ _ _ _ Hr), (rl_last _ _ _ _ _ _ _ _ _ _ Hr).
  destruct (decide (q = par)) as [->|Hne].
  - rewrite lookup_insert_eq in Hq. injection Hq as <-. destruct (fo_child _ _ Hf _ _ HK) as [H1 H2]. split.
    + destruct l1 as [|x l1]; [by rewrite decide_True|]. rewrite decide_False by naive_solver. by rewrite H1.
    + destruct l2 as [|x l2]; [rewrite decide_True by done; by rewrite !app_nil_r|].
      rewrite decide_False by naive_solver. rewrite H2. by rewrite !last_mid.
  - rewrite lookup_insert_ne in Hq by done. rewrite !decide_False by naive_solver. by apply (fo_child _ _ Hf).
Qed.

Lemma unlink_forest h h' K par l1 p l2 :
  forest h K -> K !! par = Some (l1 ++ p :: l2) -> relinked h h' par l1 [] l2 p None None None ->
  forest h' (<[par := l1 ++ l2]> K).
Proof.
  intros Hf HK Hr. pose proof (fo_nodup _ _ Hf _ _ HK) as Hnd.
  assert (p ∉ l1 /\ p ∉ l2) as [Hp1 Hp2].
  { apply NoDup_app in Hnd as (_ & H1 & H2). apply NoDup_cons in H2 as [H2 _]. split; [|done].
    intros H. eapply H1; [exact H|left]. }
  assert (fld n_parent h p = Some (Some par)) as Hpp by (eapply kid_of; [done..|set_solver]).
  constructor.
  - intros q. rewrite (rl_live _ _ _ _ _ _ _ _ _ _ Hr), <- (fo_dom _ _ Hf).
    destruct (decide (q = par)) as [->|]; [rewrite lookup_insert_eq, HK; by split; eauto|by rewrite lookup_insert_ne].
  - intros q ks Hq. exact (relinked_ends _ _ _ _ _ [p] [] _ _ _ _ _ _ _ Hf Hr HK Hq).
  - intros q a c b Hq. destruct (decide (q = par)) as [->|Hne].
    + rewrite lookup_insert_eq in Hq. injection Hq as Hq. apply split_app in Hq as [(m & E & ->)|(m & E & ->)].
      * exact (relinked_left _ _ _ _ _ [p] [] _ _ _ _ _ _ _ _ Hf Hr HK Hp1 E).
      * pose proof (relinked_right _ _ _ _ _ [p] [] _ _ _ _ _ _ _ _ Hf Hr HK Hp2 E) as Hx. by rewrite app_nil_r in Hx.
    + rewrite lookup_insert_ne in Hq by done. destruct (fo_kid _ _ Hf _ _ _ _ Hq) as (H1 & H2 & H3).
      destruct (relinked_other _ _ _ _ _ [p] _ _ _ _ _ _ c Hf Hr HK) as (-> & -> & ->); [congruence..|done].
  - intros c q Hc. rewrite (rl_parent _ _ _ _ _ _ _ _ _ _ Hr) in Hc. destruct (decide (c = p)) as [|Hcp]; [done|].
    destruct (fo_up _ _ Hf _ _ Hc) as (ks & Hk & Hin). destruct (decide (q = par)) as [->|].
    + eexists. rewrite lookup_insert_eq. split; [done|]. rewrite HK in Hk. injection Hk as <-. set_solver.
    + eexists. rewrite lookup_insert_ne by done. by split.
  - intros c Hc. rewrite (rl_parent _ _ _ _ _ _ _ _ _ _ Hr) in Hc. destruct (decide (c = p)) as [->|Hcp].
    + rewrite (rl_prev _ _ _ _ _ _ _ _ _ _ Hr), (rl_next _ _ _ _ _ _ _ _ _ _ Hr). by rewrite !decide_True.
    + destruct (relinked_other _ _ _ _ _ [p] _ _ _ _ _ _ c Hf Hr HK) as (_ & -> & ->); [congruence..|]. by apply (fo_root _ _ Hf).
  - intros q ks Hq. destruct (decide (q = par)) as [->|Hne].
    + rewrite lookup_insert_eq in Hq. injection Hq as <-. apply NoDup_app in Hnd as (H1 & H2 & H3).
      apply NoDup_cons in H3 as [_ H3]. apply NoDup_app. split; [done|]. split; [|done]. intros x Hx Hx'. eapply H2; [done|by right].
    + rewrite lookup_insert_ne in Hq by done. by eapply (fo_nodup _ _ Hf).
Qed.

Lemma link_forest h h' K par l1 p l2 :
  forest h K -> K !! par = Some (l1 ++ l2) -> fld n_parent h p = Some None ->
  relinked h h' par l1 [p] l2 p (Some par) (last l1) (head l2) ->
  forest h' (<[par := l1 ++ p :: l2]> K).
Proof.
  intros Hf HK Hroot Hr. pose proof (fo_nodup _ _ Hf _ _ HK) as Hnd.
  assert (forall q ks, K !! q = Some ks -> p ∉ ks) as Hp.
  { intros q ks Hq Hin. pose proof (kid_of _ _ _ _ _ Hf Hq Hin). congruence. }
  assert (p ∉ l1 /\ p ∉ l2) as [Hp1 Hp2] by (pose proof (Hp _ _ HK); set_solver).
  constructor.
  - intros q. rewrite (rl_live _ _ _ _ _ _ _ _ _ _ Hr), <- (fo_dom _ _ Hf).
    destruct (decide (q = par)) as [->|]; [rewrite lookup_insert_eq, HK; by split; eauto|by rewrite lookup_insert_ne].
  - intros q ks Hq. exact (relinked_ends _ _ _ _ _ [] [p] _ _ _ _ _ _ _ Hf Hr HK Hq).
  - intros q a c b Hq. destruct (decide (q = par)) as [->|Hne].
    + rewrite lookup_insert_eq in Hq. injection Hq as Hq. apply split_app in Hq as [(m & E & ->)|(m & E & ->)].
      * exact (relinked_left _ _ _ _ _ [] [p] _ _ _ _ _ _ _ _ Hf Hr HK Hp1 E).
      * destruct m as [|y m]; simpl in E.
        -- injection E as <- <-. rewrite app_nil_r. rewrite (rl_parent _ _ _ _ _ _ _ _ _ _ Hr), (rl_prev _ _ _ _ _ _ _ _ _ _ Hr), (rl_next _ _ _ _ _ _ _ _ _ _ Hr). by rewrite !decide_True.
        -- injection E as <- E. pose proof (relinked_right _ _ _ _ _ [] [p] _ _ _ _ _ _ _ _ Hf Hr HK Hp2 E) as Hx. by rewrite <- app_assoc in Hx.
    + rewrite lookup_insert_ne in Hq by done. destruct (fo_kid _ _ Hf _ _ _ _ Hq) as (H1 & H2 & H3).
      destruct (relinked_other _ _ _ _ _ [] _ _ _ _ _ _ c Hf Hr HK) as (-> & -> & ->); [congruence..|done].
  - intros c q Hc. rewrite (rl_parent _ _ _ _ _ _ _ _ _ _ Hr) in Hc. destruct (decide (c = p)) as [->|Hcp].
    + injection Hc as <-. eexists. rewrite lookup_insert_eq. split; [done|]. set_solver.
    + destruct (fo_up _ _ Hf _ _ Hc) as (ks & Hk & Hin). destruct (decide (q = par)) as [->|].
      * eexists. rewrite lookup_insert_eq. split; [done|]. rewrite HK in Hk. injection Hk as <-. set_solver.
      * eexists. rewrite lookup_insert_ne by done. by split.
  - intros c Hc. rewrite (rl_parent _ _ _ _ _ _ _ _ _ _ Hr) in Hc. destruct (decide (c = p)) as [->|Hcp]; [done|].
    destruct (relinked_other _ _ _ _ _ [] _ _ _ _ _ _ c Hf Hr HK) as (_ & -> & ->); [congruence..|]. by apply (fo_root _ _ Hf).
  - intros q ks Hq. destruct (decide (q = par)) as [->|Hne].
    + rewrite lookup_insert_eq in Hq. injection Hq as <-. apply NoDup_app in Hnd as (H1 & H2 & H3).
      apply NoDup_app. split; [done|]. split; [|by constructor]. intros x Hx [->|Hx']%elem_of_cons; [done|]. by eapply H2.
    + rewrite lookup_insert_ne in Hq by done. by eapply (fo_nodup _ _ Hf).
Qed.

(** ** [mxmlRemove] and [mxmlAdd] on the lists *)

Lemma same_contents_trans h1 h2 h3 : same_contents h1 h2 -> same_contents h2 h3 -> same_contents h1 h3.
Proof. intros H1 H2 q. by rewrite H2, H1. Qed.

(** The heaps [link_right] and [link_left] leave. *)
Definition right_heap (par : nat) (q v : ptr) (h : gmap nat mxml_node_t) : gmap nat mxml_node_t :=
  match q with Some q => alter (set_next v) q h | None => alter (set_child v) par h end.
Definition left_heap (par : nat) (q v : ptr) (h : gmap nat mxml_node_t) : gmap nat mxml_node_t :=
  match q with Some q => alter (set_prev v) q h | None => alter (set_last_child v) par h end.

(** The node a [link_] operation writes to. *)
Definition end_live (par : nat) (q : ptr) (h : gmap nat mxml_node_t) : Prop := is_Some (h !! default par q).

Lemma right_run par q v x : end_live par q (x_heap x) -> link_right par q v x = Ret (tt, with_x (right_heap par q v (x_heap x)) x).
Proof. destruct q; apply edit_run. Qed.
Lemma left_run par q v x : end_live par q (x_heap x) -> link_left par q v x = Ret (tt, with_x (left_heap par q v (x_heap x)) x).
Proof. destruct q; apply edit_run. Qed.

Lemma right_live par q v h p : is_Some (right_heap par q v h !! p) <-> is_Some (h !! p).
Proof. destruct q; apply is_Some_alter. Qed.
Lemma left_live par q v h p : is_Some (left_heap par q v h !! p) <-> is_Some (h !! p).
Proof. destruct q; apply is_Some_alter. Qed.

Lemma right_keep {A} (F : mxml_node_t -> A) par q v h p :
  (forall n, F (set_next v n) = F n) -> (forall n, F (set_child v n) = F n) -> fld F (right_heap par q v h) p = fld F h p.
Proof. intros. destruct q; by apply fld_keep. Qed.
Lemma left_keep {A} (F : mxml_node_t -> A) par q v h p :
  (forall n, F (set_prev v n) = F n) -> (forall n, F (set_last_child v n) = F n) -> fld F (left_heap par q v h) p = fld F h p.
Proof. intros. destruct q; by apply fld_keep. Qed.

Lemma right_next par q v h p : end_live par q h ->
  fld n_next (right_heap par q v h) p = if decide (q = Some p) then Some v else fld n_next h p.
Proof.
  intros Hl. destruct q as [q|]; cbn; [|by rewrite fld_keep by (intros []; reflexivity)].
  rewrite (fld_set _ _ v) by first [done | intros []; reflexivity]. repeat case_decide; congruence.
Qed.
Lemma right_child par q v h p : end_live par q h ->
  fld n_child (right_heap par q v h) p = if decide (p = par /\ q = None) then Some v else fld n_child h p.
Proof.
  intros Hl. destruct q as [q|]; cbn; [rewrite fld_keep by (intros []; reflexivity); case_decide; naive_solver|].
  rewrite (fld_set _ _ v) by first [done | intros []; reflexivity]. repeat case_decide; naive_solver.
Qed.
Lemma left_prev par q v h p : end_live par q h ->
  fld n_prev (left_heap par q v h) p = if decide (q = Some p) then Some v else fld n_prev h p.
Proof.
  intros Hl. destruct q as [q|]; cbn; [|by rewrite fld_keep by (intros []; reflexivity)].
  rewrite (fld_set _ _ v) by first [done | intros []; reflexivity]. repeat case_decide; congruence.
Qed.
Lemma left_last par q v h p : end_live par q h ->
  fld n_last_child (left_heap par q v h) p = if decide (p = par /\ q = None) then Some v else fld n_last_child h p.
Proof.
  intros Hl. destruct q as [q|]; cbn; [rewrite fld_keep by (intros []; reflexivity); case_decide; naive_solver|].
  rewrite (fld_set _ _ v) by first [done | intros []; reflexivity]. repeat case_decide; naive_solver.
Qed.

(** Liveness through changes, and the value of a field after them. *)
Ltac live ::= unfold end_live; repeat first [rewrite is_Some_alter | rewrite right_live | rewrite left_live]; done.
Ltac same_field := intros []; reflexivity.
Ltac flds ::= repeat first
  [ rewrite fld_keep by same_field
  | rewrite right_keep by same_field
  | rewrite left_keep by same_field
  | rewrite right_next by live
  | rewrite right_child by live
  | rewrite left_prev by live
  | rewrite left_last by live
  | erewrite fld_set; [|intros ?; cbn; reflexivity|live] ].
(** Running one more step. *)
Ltac xstep := first
  [ erewrite xbind_eq by first [apply edit_run; cbn [x_heap with_x]; live
                               | apply right_run; cbn [x_heap with_x]; live
                               | apply left_run; cbn [x_heap with_x]; live]
  | rewrite edit_run by (cbn [x_heap with_x]; live) ]; cbn [x_heap with_x].

(** Reading a node whose links are known. *)
Lemma node_fields p x (par pv nx : ptr) :
  fld n_parent (x_heap x) p = Some par -> fld n_prev (x_heap x) p = Some pv -> fld n_next (x_heap x) p = Some nx ->
  exists n, node p x = Ret (n, x) /\ n_parent n = par /\ n_prev n = pv /\ n_next n = nx.
Proof.
  intros (n & Hn & <-)%fld_Some. unfold fld. rewrite Hn. intros [= <-] [= <-].
  exists n. by rewrite (node_run _ _ _ Hn).
Qed.

(** What the nodes around position [l1 | l2] of a list of children look like. *)
Lemma around h K par l1 m l2 : forest h K -> K !! par = Some (l1 ++ m ++ l2) ->
  is_Some (h !! par) /\ end_live par (last l1) h /\ end_live par (head l2) h.
Proof.
  intros Hf HK. assert (is_Some (h !! par)) as Hp by (apply (fo_dom _ _ Hf); by eexists).
  split; [done|]. unfold end_live. split.
  - destruct (last l1) as [q|] eqn:E; [|done]. eapply fld_live, kid_of; [done..|]. apply last_elem in E. set_solver.
  - destruct (head l2) as [q|] eqn:E; [|done]. eapply fld_live, kid_of; [done..|]. apply head_elem in E. set_solver.
Qed.

Lemma not_last (l : list nat) p : p ∉ l -> last l <> Some p.
Proof. intros H E%last_elem. done. Qed.
Lemma not_head (l : list nat) p : p ∉ l -> head l <> Some p.
Proof. intros H E%head_elem. done. Qed.
Lemma last_nil_iff {A} (l : list A) : last l = None <-> l = [].
Proof. apply last_None. Qed.
Lemma head_nil_iff {A} (l : list A) : head l = None <-> l = [].
Proof. by destruct l. Qed.

Lemma mxmlRemove_run x K par l1 p l2 :
  forest (x_heap x) K -> K !! par = Some (l1 ++ p :: l2) ->
  exists h', mxmlRemove (Some p) x = Ret (tt, with_x h' x) /\
    relinked (x_heap x) h' par l1 [] l2 p None None None.
Proof.
  intros Hf HK. pose proof (fo_nodup _ _ Hf _ _ HK) as Hnd.
  apply NoDup_app in Hnd as (_ & Hd & [Hp2 _]%NoDup_cons).
  assert (p ∉ l1) as Hp1 by (intros H; eapply Hd; [exact H|left]). clear Hd.
  pose proof (not_last _ _ Hp1) as Hl. pose proof (not_head _ _ Hp2) as Hh.
  destruct (around _ _ _ _ [p] _ Hf HK) as (Hpar & He1 & He2).
  destruct (fo_kid _ _ Hf _ _ _ _ HK) as (H1 & H2 & H3). pose proof (fld_live _ _ _ _ H1) as Hp.
  unfold mxmlRemove. destruct (node_fields _ _ _ _ _ H1 H2 H3) as (n & En & E1 & E2 & E3).
  rewrite (xbind_eq _ _ _ _ _ En), E1, E2, E3. xstep.
  destruct (node_fields p (with_x (right_heap par (last l1) (head l2) (x_heap x)) x) (Some par) (last l1) (head l2))
    as (n' & En' & _ & E2' & E3'); cbn [x_heap with_x]; [by flds..|flds; by rewrite decide_False|].
  rewrite (xbind_eq _ _ _ _ _ En'), E2', E3'. xstep. xstep. eexists. split; [reflexivity|].
  constructor; intros q.
  - rewrite is_Some_alter, left_live, right_live. done.
  - by flds.
  - flds. by repeat case_decide.
  - flds. by repeat case_decide.
  - flds. rewrite app_nil_r. by repeat case_decide.
  - flds. pose proof (last_nil_iff l1). repeat case_decide; naive_solver.
  - flds. rewrite app_nil_r. pose proof (head_nil_iff l2). repeat case_decide; naive_solver.
Qed.

(** The situation the four branches of [mxmlAdd] start from: [p] has no
    siblings, its parent pointer is set, and it goes between [l1] and [l2]. *)
Section adding.
Context (h : gmap nat mxml_node_t) (K : gmap nat (list nat)) (par p : nat) (l1 l2 : list nat) (x : xml).
Hypothesis Hf : forest h K.
Hypothesis HK : K !! par = Some (l1 ++ l2).
Hypothesis Hroot : fld n_parent h p = Some None.

Let h1 := alter (set_parent (Some par)) p h.
Let linked (h' : gmap nat mxml_node_t) := relinked h h' par l1 [p] l2 p (Some par) (last l1) (head l2).

Lemma adding_facts :
  is_Some (h !! par) /\ end_live par (last l1) h /\ end_live par (head l2) h /\ is_Some (h !! p) /\
  last l1 <> Some p /\ head l2 <> Some p /\ fld n_prev h p = Some None /\ fld n_next h p = Some None.
Proof.
  destruct (around _ _ _ _ [] _ Hf HK) as (H1 & H2 & H3).
  assert (p ∉ l1 ++ l2) as Hp by (intros Hin; pose proof (kid_of _ _ _ _ _ Hf HK Hin); congruence).
  split_and!; try done.
  - by eapply fld_live.
  - apply not_last. set_solver.
  - apply not_head. set_solver.
  - by apply (fo_root _ _ Hf).
  - by apply (fo_root _ _ Hf).
Qed.

(** Closing the goals of [relinked] once the heap is known. *)
Ltac finish_link :=
  constructor; intros q;
  [ unfold h1; rewrite ?is_Some_alter, ?left_live, ?right_live, ?is_Some_alter; done
  | unfold h1; by flds
  | unfold h1; flds; cbn in *; repeat case_decide; first [congruence | naive_solver] .. ].

Lemma add_first_run : l1 = [] -> exists h', add_first par p (with_x h1 x) = Ret (tt, with_x h' x) /\ linked h'.
Proof.
  intros E. destruct adding_facts as (Hpar & He1 & He2 & Hp & Hn1 & Hn2 & Hpv & Hnx).
  destruct (fo_child _ _ Hf _ _ HK) as [Hc _]. unfold linked. subst l1. cbn in Hc.
  assert (fld n_child h1 par = Some (head l2)) as (pn & Epn & Ec)%fld_Some by (unfold h1; by flds).
  unfold add_first. erewrite xbind_eq by (apply node_run; exact Epn). rewrite Ec. unfold h1.
  xstep. xstep. xstep. eexists. split; [reflexivity|]. pose proof (head_nil_iff l2). finish_link.
Qed.

Lemma add_last_run : l2 = [] -> exists h', add_last par p (with_x h1 x) = Ret (tt, with_x h' x) /\ linked h'.
Proof.
  intros E. destruct adding_facts as (Hpar & He1 & He2 & Hp & Hn1 & Hn2 & Hpv & Hnx).
  destruct (fo_child _ _ Hf _ _ HK) as [_ Hc]. unfold linked. subst l2. rewrite app_nil_r in Hc.
  unfold add_last, h1. xstep.
  assert (fld n_last_child (alter (set_parent (Some par)) p h1) par = Some (last l1)) as (pn & Epn & Ec)%fld_Some by (unfold h1; by flds).
  erewrite xbind_eq by (apply node_run; exact Epn). rewrite Ec.
  xstep. xstep. xstep. eexists. split; [reflexivity|]. pose proof (last_nil_iff l1).
  assert (last (l1 ++ [p]) = Some p) by apply last_snoc. finish_link.
Qed.

Lemma add_before_run c m : l2 = c :: m -> l1 <> [] ->
  exists h', add_before par c p (with_x h1 x) = Ret (tt, with_x h' x) /\ linked h'.
Proof.
  intros E Hne. destruct adding_facts as (Hpar & He1 & He2 & Hp & Hn1 & Hn2 & Hpv & Hnx).
  unfold linked. subst l2. cbn in He2, Hn2. unfold end_live in He2. cbn in He2.
  destruct (fo_kid _ _ Hf _ _ _ _ HK) as (_ & Hcp & _). assert (p <> c) as Hpc by congruence.
  unfold add_before, h1. xstep.
  assert (fld n_prev (alter (set_next (Some c)) p h1) c = Some (last l1)) as (cn & Ecn & Ec)%fld_Some by (unfold h1; by flds).
  erewrite xbind_eq by (apply node_run; exact Ecn). rewrite Ec.
  xstep. xstep. xstep. eexists. split; [reflexivity|]. pose proof (last_nil_iff l1).
  assert (last (l1 ++ [p]) = Some p) by apply last_snoc. finish_link.
Qed.

Lemma add_after_run c : last l1 = Some c -> l2 <> [] ->
  exists h', add_after par c p (with_x h1 x) = Ret (tt, with_x h' x) /\ linked h'.
Proof.
  intros E Hne. destruct adding_facts as (Hpar & He1 & He2 & Hp & Hn1 & Hn2 & Hpv & Hnx).
  unfold linked. rewrite E in *. unfold end_live in He1. cbn in He1. assert (p <> c) as Hpc by congruence.
  assert (fld n_next h c = Some (head l2)) as Hcn.
  { apply last_Some in E as [k ->]. rewrite <- app_assoc in HK. by destruct (fo_kid _ _ Hf _ _ _ _ HK) as (_ & _ & ?). }
  assert (l1 <> []) by (intros ->; done).
  unfold add_after, h1. xstep.
  assert (fld n_next (alter (set_prev (Some c)) p h1) c = Some (head l2)) as (cn & Ecn & Ec)%fld_Some by (unfold h1; by flds).
  erewrite xbind_eq by (apply node_run; exact Ecn). rewrite Ec.
  xstep. xstep. xstep. eexists. split; [reflexivity|]. pose proof (head_nil_iff l2).
  assert (last (l1 ++ [p]) = Some p) by apply last_snoc. finish_link.
Qed.
End adding.

(** *** The operations on lists of children *)

(** [p] taken out of the list it is in. *)
Definition detach (p : nat) (K : gmap nat (list nat)) : gmap nat (list nat) := base.filter (fun c => c <> p) <$> K.

Fixpoint put_before (c p : nat) (ks : list nat) : list nat :=
  match ks with
  | [] => [p]
  | k :: ks' => if decide (k = c) then p :: k :: ks' else k :: put_before c p ks'
  end.
Fixpoint put_after (c p : nat) (ks : list nat) : list nat :=
  match ks with
  | [] => [p]
  | k :: ks' => if decide (k = c) then k :: p :: ks' else k :: put_after c p ks'
  end.
(** Where [mxmlAdd] puts [p]: next to [child] when that is a child of the
    parent, otherwise at the front or at the end. *)
Definition place (where_ : Z) (child : ptr) (p : nat) (ks : list nat) : list nat :=
  match child with
  | Some c => if decide (c ∈ ks) then (if where_ =? MXML_ADD_BEFORE then put_before c p ks else put_after c p ks)
              else if where_ =? MXML_ADD_BEFORE then p :: ks else ks ++ [p]
  | None => if where_ =? MXML_ADD_BEFORE then p :: ks else ks ++ [p]
  end.

Lemma put_before_split c p l1 l2 : c ∉ l1 -> put_before c p (l1 ++ c :: l2) = l1 ++ p :: c :: l2.
Proof.
  induction l1 as [|k l1 IH]; cbn; intros Hc; [by rewrite decide_True|].
  rewrite decide_False by set_solver. rewrite IH; [done|set_solver].
Qed.
Lemma put_after_split c p l1 l2 : c ∉ l1 -> put_after c p (l1 ++ c :: l2) = l1 ++ c :: p :: l2.
Proof.
  induction l1 as [|k l1 IH]; cbn; intros Hc; [by rewrite decide_True|].
  rewrite decide_False by set_solver. rewrite IH; [done|set_solver].
Qed.

Lemma detach_id p K : (forall q ks, K !! q = Some ks -> p ∉ ks) -> detach p K = K.
Proof.
  intros Hp. apply map_eq. intros q. unfold detach. rewrite lookup_fmap. destruct (K !! q) as [ks|] eqn:E; [|done].
  cbn. f_equal. apply filter_Forall_id, Forall_forall. intros c Hc ->. by eapply Hp.
Qed.
Lemma detach_split h K par l1 p l2 : forest h K -> K !! par = Some (l1 ++ p :: l2) -> detach p K = <[par := l1 ++ l2]> K.
Proof.
  intros Hf HK. pose proof (fo_nodup _ _ Hf _ _ HK) as Hnd. apply NoDup_app in Hnd as (_ & Hd & [Hp2 _]%NoDup_cons).
  apply map_eq. intros q. unfold detach. rewrite lookup_fmap. destruct (decide (q = par)) as [->|Hne].
  - rewrite lookup_insert_eq, HK. cbn [fmap option_fmap option_map]. f_equal. rewrite filter_app, filter_cons, decide_False by naive_solver.
    assert (Forall (fun c => c <> p) l1 /\ Forall (fun c => c <> p) l2) as [F1 F2].
    { rewrite !Forall_forall. split; intros c Hc ->; [|done]. eapply Hd; [exact Hc|left]. }
    by rewrite !filter_Forall_id.
  - rewrite lookup_insert_ne by done. destruct (K !! q) as [ks|] eqn:E; [|done]. cbn. f_equal.
    apply filter_Forall_id, Forall_forall. intros c Hc ->. apply Hne.
    pose proof (kid_of _ _ _ _ _ Hf E Hc) as E1. assert (p ∈ l1 ++ p :: l2) as Hin by set_solver.
    pose proof (kid_of _ _ _ _ _ Hf HK Hin). congruence.
Qed.

Lemma child_of_detach K p c q : child_of (detach p K) c q -> child_of K c q.
Proof.
  unfold child_of, kids, detach. rewrite lookup_fmap. destruct (K !! q); cbn; [|done]. by intros [_ ?]%list_elem_of_filter.
Qed.

(** Hanging [p] below [par] keeps the forest free of cycles when [par] is not
    below [p]. *)
Lemma acyclic_sub K K' : acyclic K -> (forall c q, child_of K' c q -> child_of K c q) -> acyclic K'.
Proof. intros Ha Hs p. induction (Ha p) as [p _ IH]. constructor. auto. Qed.

Lemma acyclic_hang K K' p par :
  acyclic K -> ~ rtc (child_of K) par p ->
  (forall c q, child_of K' c q -> child_of K c q \/ (c = p /\ q = par)) -> acyclic K'.
Proof.
  intros Ha Hnb Hs.
  assert (forall y, ~ rtc (child_of K) par y -> Acc (child_of K') y) as Hclean.
  { intros y. induction (Ha y) as [y _ IH]. intros Hy. constructor. intros c Hc.
    destruct (Hs _ _ Hc) as [Hck|[-> ->]]; [|by destruct Hy]. apply IH; [done|]. intros Hr. apply Hy. by eapply rtc_r. }
  intros y. induction (Ha y) as [y _ IH]. constructor. intros c Hc.
  destruct (Hs _ _ Hc) as [Hck|[-> ->]]; [by apply IH|by apply Hclean].
Qed.

(** [if (node->parent) mxmlRemove(node);] *)
Lemma detach_run x K p n :
  forest (x_heap x) K -> x_heap x !! p = Some n ->
  exists h', match n_parent n with Some _ => mxmlRemove (Some p) | None => mret tt end x = Ret (tt, with_x h' x) /\
    forest h' (detach p K) /\ fld n_parent h' p = Some None /\ same_contents (x_heap x) h'.
Proof.
  intros Hf Hn. destruct (n_parent n) as [par|] eqn:Ep.
  - assert (fld n_parent (x_heap x) p = Some (Some par)) as Hpp by (apply fld_Some; eauto).
    destruct (kid_split _ _ _ _ Hf Hpp) as (l1 & l2 & HK).
    destruct (mxmlRemove_run _ _ _ _ _ _ Hf HK) as (h' & E & Hr). exists h'. split; [done|].
    rewrite (detach_split _ _ _ _ _ _ Hf HK). split; [by eapply unlink_forest|].
    rewrite (rl_parent _ _ _ _ _ _ _ _ _ _ Hr), decide_True by done. split; [done|]. apply Hr.
  - exists (x_heap x). split; [by destruct x|].
    assert (fld n_parent (x_heap x) p = Some None) as Hpp by (apply fld_Some; eauto).
    rewrite detach_id; [done|]. intros q ks Hq Hin. pose proof (kid_of _ _ _ _ _ Hf Hq Hin). congruence.
Qed.

(** Which branch of [mxmlAdd] a child selects. *)
Lemma at_edge_run h K par p ks c edge x :
  forest h K -> K !! par = Some ks -> is_Some (h !! c) -> c <> p ->
  exists b, at_edge (Some c) edge par (with_x (alter (set_parent (Some par)) p h) x)
              = Ret (b, with_x (alter (set_parent (Some par)) p h) x) /\
    (b = false <-> edge <> Some c /\ c ∈ ks).
Proof.
  intros Hf HK Hc Hcp. unfold at_edge. case_decide; [exists true; naive_solver|].
  destruct (live_fld n_parent h c Hc) as [par' Hpar]. assert (fld n_parent (alter (set_parent (Some par)) p h) c = Some par') as E.
  { unfold fld in *. by rewrite lookup_alter_ne. }
  apply fld_Some in E as (cn & Hcn & Ep). erewrite xbind_eq by (apply node_run; exact Hcn). eexists. split; [reflexivity|].
  rewrite negb_false_iff, bool_decide_eq_true, Ep. split.
  - intros ->. split; [done|]. destruct (fo_up _ _ Hf _ _ Hpar) as (ks' & ? & ?). congruence.
  - intros [_ Hin]. pose proof (kid_of _ _ _ _ _ Hf HK Hin). congruence.
Qed.

(** The branch taken puts [p] where [place] says. *)
Section branch.
Context (h : gmap nat mxml_node_t) (K : gmap nat (list nat)) (par p : nat) (ks : list nat) (x : xml) (child : ptr).
Hypothesis Hf : forest h K.
Hypothesis HK : K !! par = Some ks.
Hypothesis Hroot : fld n_parent h p = Some None.
Hypothesis Hc : forall c, child = Some c -> c <> p /\ is_Some (h !! c).

Let x1 := with_x (alter (set_parent (Some par)) p h) x.
Let placed (where_ : Z) (m : X unit) : Prop :=
  exists l1 l2 h', ks = l1 ++ l2 /\ place where_ child p ks = l1 ++ p :: l2 /\
    relinked h h' par l1 [p] l2 p (Some par) (last l1) (head l2) /\ m x1 = Ret (tt, with_x h' x).

Lemma parent_fields : exists pn, node par x1 = Ret (pn, x1) /\ n_child pn = head ks /\ n_last_child pn = last ks.
Proof.
  destruct (fo_child _ _ Hf _ _ HK) as [(n & Hn & <-)%fld_Some Hlc]. unfold fld in Hlc. rewrite Hn in Hlc. injection Hlc as <-.
  unfold x1. assert (fld (fun n => (n_child n, n_last_child n)) (alter (set_parent (Some par)) p h) par = Some (n_child n, n_last_child n))
    as (pn & Epn & E)%fld_Some.
  { rewrite fld_keep by (intros []; reflexivity). apply fld_Some. eauto. }
  injection E as E1 E2. exists pn. split; [by apply node_run|done].
Qed.

(** A child that is somewhere inside the list. *)
Lemma inner_child c : c ∈ ks -> exists l1 l2, ks = l1 ++ c :: l2 /\ c ∉ l1.
Proof.
  intros (l1 & l2 & ->)%list_elem_of_split. pose proof (fo_nodup _ _ Hf _ _ HK) as (_ & Hd & _)%NoDup_app.
  exists l1, l2. split; [done|]. intros H. eapply Hd; [exact H|left].
Qed.

Lemma branch_before : placed MXML_ADD_BEFORE (
  b ← at_edge child (head ks) par;
  match child with
  | Some c => if b : bool then add_first par p else add_before par c p
  | None => add_first par p
  end).
Proof.
  assert (p :: ks = place MXML_ADD_BEFORE child p ks -> placed MXML_ADD_BEFORE (add_first par p)) as Hfirst.
  { intros Hpl. destruct (add_first_run h K par p [] ks x Hf HK Hroot eq_refl) as (h' & Hrun & Hr). by exists [], ks, h'. }
  destruct child as [c|]; [|by apply Hfirst]. destruct (Hc c eq_refl) as [Hcp Hlive].
  destruct (at_edge_run h K par p ks c (head ks) x Hf HK Hlive Hcp) as (b & Eb & Hb).
  unfold placed. rewrite (xbind_eq _ _ _ _ _ Eb). destruct b.
  - apply Hfirst. cbn. case_decide as Hin; [|done]. destruct ks as [|k ks']; [by apply elem_of_nil in Hin|]. cbn.
    destruct (decide (k = c)) as [->|Hkc]; [done|]. exfalso. assert (true = false); [|done]. apply Hb. split; [cbn; congruence|done].
  - destruct Hb as [[Hne Hin] _]; [done|]. destruct (inner_child _ Hin) as (l1 & l2 & E & Hcl). pose proof HK as HK'. rewrite E in HK'.
    destruct (add_before_run h K par p l1 (c :: l2) x Hf HK' Hroot c l2 eq_refl) as (h' & Hrun & Hr).
    { intros ->. apply Hne. by rewrite E. }
    exists l1, (c :: l2), h'. split; [done|]. split; [|done]. cbn. rewrite decide_True by done. rewrite E. by apply put_before_split.
Qed.

Lemma branch_after : placed MXML_ADD_AFTER (
  b ← at_edge child (last ks) par;
  match child with
  | Some c => if b : bool then add_last par p else add_after par c p
  | None => add_last par p
  end).
Proof.
  assert (ks ++ [p] = place MXML_ADD_AFTER child p ks -> placed MXML_ADD_AFTER (add_last par p)) as Hlast.
  { intros Hpl. destruct (add_last_run h K par p ks [] x Hf) as (h' & Hrun & Hr); [by rewrite app_nil_r|done|done|].
    exists ks, [], h'. by rewrite app_nil_r. }
  destruct child as [c|]; [|by apply Hlast]. destruct (Hc c eq_refl) as [Hcp Hlive].
  destruct (at_edge_run h K par p ks c (last ks) x Hf HK Hlive Hcp) as (b & Eb & Hb).
  unfold placed. rewrite (xbind_eq _ _ _ _ _ Eb). destruct b.
  - apply Hlast. cbn. case_decide as Hin; [|done]. destruct (inner_child _ Hin) as (l1 & l2 & E & Hcl).
    destruct (decide (last ks = Some c)) as [Hl|Hl].
    + pose proof (fo_nodup _ _ Hf _ _ HK) as Hnd. rewrite E in Hnd, Hl |- *. apply NoDup_app in Hnd as (_ & _ & [Hc2 _]%NoDup_cons).
      rewrite last_app_cons in Hl. destruct l2 as [|y l2]; [by rewrite put_after_split, <- app_assoc|].
      destruct Hc2. apply last_elem. exact Hl.
    + exfalso. assert (true = false); [|done]. by apply Hb.
  - destruct Hb as [[Hne Hin] _]; [done|]. destruct (inner_child _ Hin) as (l1 & l2 & E & Hcl).
    destruct (add_after_run h K par p (l1 ++ [c]) l2 x Hf) with (c := c) as (h' & Hrun & Hr);
      [by rewrite <- app_assoc, HK, E|done|apply last_snoc| |].
    { intros ->. apply Hne. rewrite E. apply last_snoc. }
    exists (l1 ++ [c]), l2, h'. rewrite <- !app_assoc. split; [done|]. split; [|done].
    cbn. rewrite decide_True by done. rewrite E. by apply put_after_split.
Qed.
End branch.

Lemma elem_of_place where_ child p ks c : c ∈ place where_ child p ks -> c ∈ ks \/ c = p.
Proof.
  assert (forall d, c ∈ put_before d p ks -> c ∈ ks \/ c = p) as Hb.
  { intros d. induction ks as [|k ks IH]; cbn; [set_solver|]. case_decide; set_solver. }
  assert (forall d, c ∈ put_after d p ks -> c ∈ ks \/ c = p) as Ha.
  { intros d. clear Hb. induction ks as [|k ks IH]; cbn; [set_solver|]. case_decide; set_solver. }
  unfold place. destruct child; repeat case_match; try set_solver; eauto.
Qed.

Lemma mxmlAdd_run x K par where_ child p :
  forest (x_heap x) K -> is_Some (K !! par) -> is_Some (K !! p) ->
  where_ = MXML_ADD_BEFORE \/ where_ = MXML_ADD_AFTER ->
  (forall c, child = Some c -> c <> p /\ is_Some (K !! c)) ->
  exists h', mxmlAdd (Some par) where_ child (Some p) x = Ret (tt, with_x h' x) /\
    forest h' (<[par := place where_ child p (kids (detach p K) par)]> (detach p K)) /\ same_contents (x_heap x) h'.
Proof.
  intros Hf Hpar Hp Hw Hc. apply (fo_dom _ _ Hf) in Hp as [n Hn]. unfold mxmlAdd.
  rewrite (xbind_eq _ _ _ _ _ (node_run _ _ _ Hn)).
  destruct (detach_run _ _ _ _ Hf Hn) as (h0 & E0 & Hf0 & Hroot & Hs0). rewrite (xbind_eq _ _ _ _ _ E0).
  assert (is_Some (detach p K !! par)) as [ks HK] by (unfold detach; rewrite lookup_fmap; by apply fmap_is_Some).
  assert (kids (detach p K) par = ks) as -> by (unfold kids; by rewrite HK).
  assert (is_Some (h0 !! p)) as Hp0 by (by eapply fld_live). xstep.
  assert (forall c, child = Some c -> c <> p /\ is_Some (h0 !! c)) as Hc0.
  { intros c E. destruct (Hc c E) as [Hcp Hl]. split; [done|]. apply (fo_dom _ _ Hf0). unfold detach. rewrite lookup_fmap. by apply fmap_is_Some. }
  change (with_x (alter (set_parent (Some par)) p h0) (with_x h0 x)) with (with_x (alter (set_parent (Some par)) p h0) x).
  destruct (parent_fields h0 _ par p ks x Hf0 HK) as (pn & Epn & E1 & E2). rewrite (xbind_eq _ _ _ _ _ Epn), E1, E2.
  assert (exists l1 l2 h', ks = l1 ++ l2 /\ place where_ child p ks = l1 ++ p :: l2 /\
    relinked h0 h' par l1 [p] l2 p (Some par) (last l1) (head l2) /\
    (if where_ =? MXML_ADD_BEFORE then b ← at_edge child (head ks) par;
         match child with Some c => if b : bool then add_first par p else add_before par c p | None => add_first par p end
     else if where_ =? MXML_ADD_AFTER then b ← at_edge child (last ks) par;
         match child with Some c => if b : bool then add_last par p else add_after par c p | None => add_last par p end
     else mret tt) (with_x (alter (set_parent (Some par)) p h0) x) = Ret (tt, with_x h' x)) as (l1 & l2 & h' & Eks & Epl & Hr & Erun).
  { destruct Hw as [-> | ->]; cbn [Z.eqb MXML_ADD_BEFORE MXML_ADD_AFTER];
      [exact (branch_before h0 _ par p ks x child Hf0 HK Hroot Hc0)|exact (branch_after h0 _ par p ks x child Hf0 HK Hroot Hc0)]. }
  exists h'. split; [exact Erun|]. rewrite Epl. subst ks. split; [by eapply link_forest|].
  eapply same_contents_trans; [exact Hs0|]. apply Hr.
Qed.

(** C23: [mxmlAdd] refines an insertion into a list: in a consistent forest
    without cycles, adding a node to a parent that is not below it takes the
    node out of the list of children it was in and puts it before or after the
    given child, or at the front or the end of the parent's list; all pointers
    of the new heap spell out exactly these lists, the forest stays free of
    cycles, and names, values and reference counts are untouched. *)
Theorem mxmlAdd_places x K par where_ child p :
  forest (x_heap x) K -> acyclic K -> is_Some (K !! par) -> is_Some (K !! p) -> ~ rtc (child_of K) par p ->
  where_ = MXML_ADD_BEFORE \/ where_ = MXML_ADD_AFTER ->
  (forall c, child = Some c -> c <> p /\ is_Some (K !! c)) ->
  let K' := <[par := place where_ child p (kids (detach p K) par)]> (detach p K) in
  exists h', mxmlAdd (Some par) where_ child (Some p) x = Ret (tt, with_x h' x) /\
    forest h' K' /\ acyclic K' /\ same_contents (x_heap x) h'.
Proof.
  intros Hf Ha Hpar Hp Hnb Hw Hc K'. destruct (mxmlAdd_run _ _ _ _ _ _ Hf Hpar Hp Hw Hc) as (h' & Erun & Hf' & Hs).
  exists h'. split; [done|]. split; [done|]. split; [|done]. eapply acyclic_hang; [exact Ha|exact Hnb|].
  intros c q Hcq. unfold child_of, kids, K' in Hcq. destruct (decide (q = par)) as [->|Hne].
  - rewrite lookup_insert_eq in Hcq. cbn in Hcq. apply elem_of_place in Hcq as [Hcq| ->]; [|by right]. left. by eapply child_of_detach.
  - rewrite lookup_insert_ne in Hcq by done. left. by eapply child_of_detach.
Qed.

(** ** Building a forest *)

(** A new node without parent. *)
Lemma forest_new h K p v : forest h K -> h !! p = None ->
  forest (<[p := mkNode v None None None None None 1 None]> h) (<[p := []]> K).
Proof.
  intros Hf Hp. assert (K !! p = None) as HKp.
  { destruct (K !! p) eqn:E; [|done]. assert (is_Some (h !! p)) as [? ?] by (apply (fo_dom _ _ Hf); by eexists). congruence. }
  assert (forall {A} (F : mxml_node_t -> A) q, q <> p -> fld F (<[p := mkNode v None None None None None 1 None]> h) q = fld F h q) as Ho.
  { intros A F q Hq. unfold fld. by rewrite lookup_insert_ne. }
  assert (forall {A} (F : mxml_node_t -> A) q a, fld F h q = Some a -> fld F (<[p := mkNode v None None None None None 1 None]> h) q = Some a) as Hk.
  { intros A F q a Ha. rewrite Ho; [done|]. intros ->. unfold fld in Ha. by rewrite Hp in Ha. }
  constructor.
  - intros q. destruct (decide (q = p)) as [->|]; [rewrite !lookup_insert_eq; by split; eauto|].
    rewrite !lookup_insert_ne by done. apply (fo_dom _ _ Hf).
  - intros q ks Hq. destruct (decide (q = p)) as [->|].
    + rewrite lookup_insert_eq in Hq. injection Hq as <-. unfold fld. by rewrite lookup_insert_eq.
    + rewrite lookup_insert_ne in Hq by done. rewrite !Ho by done. by apply (fo_child _ _ Hf).
  - intros q l1 c l2 Hq. destruct (decide (q = p)) as [->|].
    + rewrite lookup_insert_eq in Hq. by destruct l1.
    + rewrite lookup_insert_ne in Hq by done. destruct (fo_kid _ _ Hf _ _ _ _ Hq) as (H1 & H2 & H3). split_and!; by apply Hk.
  - intros c q Hc. destruct (decide (c = p)) as [->|Hcp]; [unfold fld in Hc; by rewrite lookup_insert_eq in Hc|].
    rewrite Ho in Hc by done. destruct (fo_up _ _ Hf _ _ Hc) as (ks & Hks & Hin). exists ks. split; [|done].
    rewrite lookup_insert_ne; [done|]. intros <-. congruence.
  - intros c Hc. destruct (decide (c = p)) as [->|Hcp]; [unfold fld; by rewrite lookup_insert_eq|].
    rewrite Ho in Hc by done. rewrite !Ho by done. by apply (fo_root _ _ Hf).
  - intros q ks Hq. destruct (decide (q = p)) as [->|].
    + rewrite lookup_insert_eq in Hq. injection Hq as <-. constructor.
    + rewrite lookup_insert_ne in Hq by done. by eapply (fo_nodup _ _ Hf).
Qed.
Lemma forest_empty : forest ∅ ∅.
Proof.
  constructor; intros *; rewrite ?lookup_empty; try done; unfold fld; rewrite ?lookup_empty; done.
Qed.
Lemma acyclic_new K p : acyclic K -> acyclic (<[p := []]> K).
Proof.
  intros Ha. eapply acyclic_sub; [exact Ha|]. intros c q. unfold child_of, kids. destruct (decide (q = p)) as [->|].
  - rewrite lookup_insert_eq. cbn. intros []%elem_of_nil.
  - by rewrite lookup_insert_ne.
Qed.
Lemma acyclic_empty : acyclic ∅.
Proof. intros p. constructor. intros c. unfold child_of, kids. rewrite lookup_empty. intros []%elem_of_nil. Qed.

(** Two nodes, the second put below the first. *)
Definition two_nodes : xml :=
  mkXml (<[1%nat := mkNode (VText 0 (Some (b# "x"))) None None None None None 1 None]>
         (<[0%nat := mkNode (VElement (Some (b# "a")) []) None None None None None 1 None]> ∅)) 2 [].

Lemma mxmlAdd_places_witness :
  exists h', mxmlAdd (Some 0%nat) MXML_ADD_AFTER None (Some 1%nat) two_nodes = Ret (tt, with_x h' two_nodes) /\
    fld n_child h' 0 = Some (Some 1%nat) /\ fld n_parent h' 1 = Some (Some 0%nat).
Proof.
  destruct (mxmlAdd_places two_nodes (<[1%nat := []]> (<[0%nat := []]> ∅)) 0 MXML_ADD_AFTER None 1) as (h' & E & Hf & _ & _).
  - apply forest_new; [apply forest_new; [apply forest_empty|done]|done].
  - apply acyclic_new, acyclic_new, acyclic_empty.
  - by eexists.
  - by eexists.
  - intros H. apply rtc_inv in H as [|(c & Hc & _)]; [done|]. unfold child_of, kids in Hc.
    destruct (decide (c = 1%nat)) as [->|]; [by apply elem_of_nil in Hc|]. rewrite lookup_insert_ne in Hc by done.
    destruct (decide (c = 0%nat)) as [->|]; [by apply elem_of_nil in Hc|]. rewrite lookup_insert_ne in Hc by done. by apply elem_of_nil in Hc.
  - by right.
  - done.
  - exists h'. split; [exact E|].
    destruct (fo_child _ _ Hf 0%nat [1%nat]) as [H1 _]; [reflexivity|].
    destruct (fo_kid _ _ Hf 0%nat [] 1%nat []) as (H2 & _ & _); [reflexivity|]. by split.
Defined.
