(* ===== verification/MxmlEntity.v ===== *)
(** * MxmlEntity: character entities (mxml/mxml-entity.c)

    The table of named entities with its binary search, the names that the
    writer uses, and the registry of callbacks, which holds the table's
    lookup alone in the daemons. *)

From S2P Require Import Prelude Words Stream CStr.

Definition entities : list (bytes * Z) := [
  (b# "AElig", 198); (b# "Aacute", 193); (b# "Acirc", 194); (b# "Agrave", 192); (b# "Alpha", 913);
  (b# "Aring", 197); (b# "Atilde", 195); (b# "Auml", 196); (b# "Beta", 914); (b# "Ccedil", 199);
  (b# "Chi", 935); (b# "Dagger", 8225); (b# "Delta", 916); (b# "Dstrok", 208); (b# "ETH", 208);
  (b# "Eacute", 201); (b# "Ecirc", 202); (b# "Egrave", 200); (b# "Epsilon", 917); (b# "Eta", 919);
  (b# "Euml", 203); (b# "Gamma", 915); (b# "Iacute", 205); (b# "Icirc", 206); (b# "Igrave", 204);
  (b# "Iota", 921); (b# "Iuml", 207); (b# "Kappa", 922); (b# "Lambda", 923); (b# "Mu", 924);
  (b# "Ntilde", 209); (b# "Nu", 925); (b# "OElig", 338); (b# "Oacute", 211); (b# "Ocirc", 212);
  (b# "Ograve", 210); (b# "Omega", 937); (b# "Omicron", 927); (b# "Oslash", 216); (b# "Otilde", 213);
  (b# "Ouml", 214); (b# "Phi", 934); (b# "Pi", 928); (b# "Prime", 8243); (b# "Psi", 936); (b# "Rho", 929);
  (b# "Scaron", 352); (b# "Sigma", 931); (b# "THORN", 222); (b# "Tau", 932); (b# "Theta", 920);
  (b# "Uacute", 218); (b# "Ucirc", 219); (b# "Ugrave", 217); (b# "Upsilon", 933); (b# "Uuml", 220);
  (b# "Xi", 926); (b# "Yacute", 221); (b# "Yuml", 376); (b# "Zeta", 918); (b# "aacute", 225);
  (b# "acirc", 226); (b# "acute", 180); (b# "aelig", 230); (b# "agrave", 224); (b# "alefsym", 8501);
  (b# "alpha", 945); (b# "amp", 38); (b# "and", 8743); (b# "ang", 8736); (b# "apos", 39); (b# "aring", 229);
  (b# "asymp", 8776); (b# "atilde", 227); (b# "auml", 228); (b# "bdquo", 8222); (b# "beta", 946);
  (b# "brkbar", 166); (b# "brvbar", 166); (b# "bull", 8226); (b# "cap", 8745); (b# "ccedil", 231);
  (b# "cedil", 184); (b# "cent", 162); (b# "chi", 967); (b# "circ", 710); (b# "clubs", 9827);
  (b# "cong", 8773); (b# "copy", 169); (b# "crarr", 8629); (b# "cup", 8746); (b# "curren", 164);
  (b# "dArr", 8659); (b# "dagger", 8224); (b# "darr", 8595); (b# "deg", 176); (b# "delta", 948);
  (b# "diams", 9830); (b# "die", 168); (b# "divide", 247); (b# "eacute", 233); (b# "ecirc", 234);
  (b# "egrave", 232); (b# "empty", 8709); (b# "emsp", 8195); (b# "ensp", 8194); (b# "epsilon", 949);
  (b# "equiv", 8801); (b# "eta", 951); (b# "eth", 240); (b# "euml", 235); (b# "euro", 8364);
  (b# "exist", 8707); (b# "fnof", 402); (b# "forall", 8704); (b# "frac12", 189); (b# "frac14", 188);
  (b# "frac34", 190); (b# "frasl", 8260); (b# "gamma", 947); (b# "ge", 8805); (b# "gt", 62);
  (b# "hArr", 8660); (b# "harr", 8596); (b# "hearts", 9829); (b# "hellip", 8230); (b# "hibar", 175);
  (b# "iacute", 237); (b# "icirc", 238); (b# "iexcl", 161); (b# "igrave", 236); (b# "image", 8465);
  (b# "infin", 8734); (b# "int", 8747); (b# "iota", 953); (b# "iquest", 191); (b# "isin", 8712);
  (b# "iuml", 239); (b# "kappa", 954); (b# "lArr", 8656); (b# "lambda", 955); (b# "lang", 9001);
  (b# "laquo", 171); (b# "larr", 8592); (b# "lceil", 8968); (b# "ldquo", 8220); (b# "le", 8804);
  (b# "lfloor", 8970); (b# "lowast", 8727); (b# "loz", 9674); (b# "lrm", 8206); (b# "lsaquo", 8249);
  (b# "lsquo", 8216); (b# "lt", 60); (b# "macr", 175); (b# "mdash", 8212); (b# "micro", 181);
  (b# "middot", 183); (b# "minus", 8722); (b# "mu", 956); (b# "nabla", 8711); (b# "nbsp", 160);
  (b# "ndash", 8211); (b# "ne", 8800); (b# "ni", 8715); (b# "not", 172); (b# "notin", 8713);
  (b# "nsub", 8836); (b# "ntilde", 241); (b# "nu", 957); (b# "oacute", 243); (b# "ocirc", 244);
  (b# "oelig", 339); (b# "ograve", 242); (b# "oline", 8254); (b# "omega", 969); (b# "omicron", 959);
  (b# "oplus", 8853); (b# "or", 8744); (b# "ordf", 170); (b# "ordm", 186); (b# "oslash", 248);
  (b# "otilde", 245); (b# "otimes", 8855); (b# "ouml", 246); (b# "para", 182); (b# "part", 8706);
  (b# "permil", 8240); (b# "perp", 8869); (b# "phi", 966); (b# "pi", 960); (b# "piv", 982);
  (b# "plusmn", 177); (b# "pound", 163); (b# "prime", 8242); (b# "prod", 8719); (b# "prop", 8733);
  (b# "psi", 968); (b# "quot", 34); (b# "rArr", 8658); (b# "radic", 8730); (b# "rang", 9002);
  (b# "raquo", 187); (b# "rarr", 8594); (b# "rceil", 8969); (b# "rdquo", 8221); (b# "real", 8476);
  (b# "reg", 174); (b# "rfloor", 8971); (b# "rho", 961); (b# "rlm", 8207); (b# "rsaquo", 8250);
  (b# "rsquo", 8217); (b# "sbquo", 8218); (b# "scaron", 353); (b# "sdot", 8901); (b# "sect", 167);
  (b# "shy", 173); (b# "sigma", 963); (b# "sigmaf", 962); (b# "sim", 8764); (b# "spades", 9824);
  (b# "sub", 8834); (b# "sube", 8838); (b# "sum", 8721); (b# "sup", 8835); (b# "sup1", 185);
  (b# "sup2", 178); (b# "sup3", 179); (b# "supe", 8839); (b# "szlig", 223); (b# "tau", 964);
  (b# "there4", 8756); (b# "theta", 952); (b# "thetasym", 977); (b# "thinsp", 8201); (b# "thorn", 254);
  (b# "tilde", 732); (b# "times", 215); (b# "trade", 8482); (b# "uArr", 8657); (b# "uacute", 250);
  (b# "uarr", 8593); (b# "ucirc", 251); (b# "ugrave", 249); (b# "uml", 168); (b# "upsih", 978);
  (b# "upsilon", 965); (b# "uuml", 252); (b# "weierp", 8472); (b# "xi", 958); (b# "yacute", 253);
  (b# "yen", 165); (b# "yuml", 255); (b# "zeta", 950); (b# "zwj", 8205); (b# "zwnj", 8204)
].

(** [_mxml_entity_cb]: the search loop, then the check of both ends. *)
Definition ent_name (i : nat) : bytes := (nth i entities ([], 0)).1.
Definition ent_val (i : nat) : Z := (nth i entities ([], 0)).2.
Fixpoint entity_search (fuel : nat) (name : bytes) (first last : nat) : Z :=
  if Nat.ltb 1 (last - first) then
    match fuel with
    | O => -1
    | S fuel =>
        let current := Nat.div2 (first + last) in
        let diff := strcmp name (ent_name current) in
        if diff =? 0 then ent_val current
        else if diff <? 0 then entity_search fuel name first current
        else entity_search fuel name current last
    end
  else if strcmp name (ent_name first) =? 0 then ent_val first
  else if strcmp name (ent_name last) =? 0 then ent_val last
  else -1.
Definition _mxml_entity_cb (name : bytes) : Z := entity_search (length entities) name 0 (length entities - 1).

(** The callbacks of the global data; a callback is known by its address. *)
Record entity_cb := mkCb { cb_addr : nat; cb_fun : bytes -> Z }.
Definition default_cbs : list entity_cb := [mkCb 0 _mxml_entity_cb].
Definition mxmlEntityAddCallback (cb : entity_cb) (cbs : list entity_cb) : Z * list entity_cb :=
  if Nat.ltb (length cbs) 100 then (0, cbs ++ [cb]) else (-1, cbs).
Fixpoint mxmlEntityRemoveCallback (addr : nat) (cbs : list entity_cb) : list entity_cb :=
  match cbs with
  | [] => []
  | cb :: cbs => if decide (cb_addr cb = addr) then cbs else cb :: mxmlEntityRemoveCallback addr cbs
  end.
Fixpoint mxmlEntityGetValue (cbs : list entity_cb) (name : bytes) : Z :=
  match cbs with
  | [] => -1
  | cb :: cbs => let ch := cb_fun cb name in if 0 <=? ch then ch else mxmlEntityGetValue cbs name
  end.
Definition mxmlEntityGetName (val : Z) : option bytes :=
  match val with
  | 38 => Some (b# "amp")
  | 60 => Some (b# "lt")
  | 62 => Some (b# "gt")
  | 34 => Some (b# "quot")
  | _ => None
  end.

(** ** The search finds what is in the table *)

(** The table as a list of pairs. *)
Fixpoint lookup_entity (l : list (bytes * Z)) (name : bytes) : Z :=
  match l with
  | [] => -1
  | (n, v) :: l => if decide (cstr name = n) then v else lookup_entity l name
  end.

Lemma cmp_bytes_opp f a b : cmp_bytes f a b = - cmp_bytes f b a.
Proof.
  revert b. induction a as [|x a IH]; intros [|y b]; cbn; try lia.
  rewrite (Z.eqb_sym (f y)). destruct (f x =? f y); [apply IH|lia].
Qed.
Lemma strcmp_0 a b : strcmp a b = 0 <-> cstr a = cstr b.
Proof.
  unfold strcmp. pose proof (cstr_nz a) as Ha. pose proof (cstr_nz b) as Hb. revert Ha Hb. generalize (cstr a) (cstr b).
  induction l as [|x l IH]; intros [|y m] Hx Hy; cbn; unfold id; try done.
  - inversion Hy; subst. split; [lia|done].
  - inversion Hx; subst. split; [lia|done].
  - inversion Hx; inversion Hy; subst. destruct (Z.eqb_spec x y) as [->|Ne]; [rewrite IH by done; split; congruence|].
    split; [lia|congruence].
Qed.

(** Facts about the table, by computation. *)
Definition table_sorted : bool :=
  forallb (fun j => forallb (fun i => strcmp (ent_name i) (ent_name j) <? 0) (seq 0 j)) (seq 0 (length entities)).
Definition table_lookup : bool :=
  forallb (fun i => (lookup_entity entities (ent_name i) =? ent_val i) && bool_decide (cstr (ent_name i) = ent_name i)) (seq 0 (length entities)).
Lemma table_sorted_true : table_sorted = true.
Proof. vm_compute. reflexivity. Qed.
Lemma table_lookup_true : table_lookup = true.
Proof. vm_compute. reflexivity. Qed.
Lemma entities_sorted i j : (i < j < length entities)%nat -> strcmp (ent_name i) (ent_name j) < 0.
Proof.
  intros Hij. pose proof table_sorted_true as H. unfold table_sorted in H.
  rewrite forallb_forall in H. specialize (H j). rewrite in_seq in H. specialize (H ltac:(lia)).
  rewrite forallb_forall in H. specialize (H i). rewrite in_seq in H. by apply Z.ltb_lt, H; lia.
Qed.
Lemma entities_lookup i : (i < length entities)%nat -> lookup_entity entities (ent_name i) = ent_val i /\ cstr (ent_name i) = ent_name i.
Proof.
  intros Hi. pose proof table_lookup_true as H. unfold table_lookup in H.
  rewrite forallb_forall in H. specialize (H i). rewrite in_seq in H. specialize (H ltac:(lia)).
  apply andb_true_iff in H as [H1%Z.eqb_eq H2%bool_decide_eq_true]. done.
Qed.
Lemma lookup_entity_cstr l a b : cstr a = cstr b -> lookup_entity l a = lookup_entity l b.
Proof. intros E. induction l as [|[n v] l IH]; cbn; [done|]. by rewrite E, IH. Qed.
Lemma lookup_entity_none l name : (forall i, (i < length l)%nat -> cstr name <> (nth i l ([], 0)).1) -> lookup_entity l name = -1.
Proof.
  induction l as [|[n v] l IH]; intros H; cbn; [done|]. rewrite decide_False by (apply (H 0%nat); cbn; lia).
  apply IH. intros i Hi. apply (H (S i)). cbn. lia.
Qed.

Lemma entity_found name i : (i < length entities)%nat -> strcmp name (ent_name i) = 0 -> ent_val i = lookup_entity entities name.
Proof.
  intros Hi E%strcmp_0. destruct (entities_lookup i Hi) as [H _]. rewrite <- H. by apply lookup_entity_cstr.
Qed.
Lemma entity_search_spec fuel name first last :
  (last < length entities)%nat -> (last - first <= S fuel)%nat ->
  (forall i, (i < length entities)%nat -> strcmp name (ent_name i) = 0 -> (first <= i <= last)%nat) ->
  (first <= last)%nat -> entity_search fuel name first last = lookup_entity entities name.
Proof.
  revert first last. induction fuel as [|fuel IH]; intros first last Hl Hf Hin Hfl; cbn [entity_search];
    destruct (Nat.ltb_spec 1 (last - first)) as [Hlt|Hge]; try lia.
  2: {
    set (cur := Nat.div2 (first + last)).
    assert (first < cur < last)%nat as Hc.
    { unfold cur. rewrite Nat.div2_div. pose proof (Nat.div_mod_eq (first + last) 2). pose proof (Nat.mod_upper_bound (first + last) 2). lia. }
    destruct (Z.eqb_spec (strcmp name (ent_name cur)) 0) as [E|Ne]; [apply entity_found; [lia|done]|].
    assert (forall i, (i < length entities)%nat -> strcmp name (ent_name i) = 0 -> strcmp name (ent_name cur) = strcmp (ent_name i) (ent_name cur)) as Hsame.
    { intros i Hi E%strcmp_0. unfold strcmp. by rewrite E. }
    assert (forall i j, (i < j < length entities)%nat -> strcmp (ent_name j) (ent_name i) > 0) as Hgt.
    { intros i j Hij. pose proof (entities_sorted i j Hij). unfold strcmp in *. rewrite cmp_bytes_opp. lia. }
    destruct (Z.ltb_spec (strcmp name (ent_name cur)) 0) as [Hneg|Hpos]; apply IH; try lia; intros i Hi E; pose proof (Hin i Hi E);
      rewrite (Hsame i Hi E) in *; destruct (Nat.lt_trichotomy i cur) as [Hlt'|[->|Hgt']]; try lia.
    - specialize (Hgt cur i ltac:(lia)). lia.
    - pose proof (entities_sorted i cur ltac:(lia)). lia. }
  all: destruct (Z.eqb_spec (strcmp name (ent_name first)) 0) as [E1|N1]; [apply entity_found; [lia|done]|];
    destruct (Z.eqb_spec (strcmp name (ent_name last)) 0) as [E2|N2]; [apply entity_found; [lia|done]|];
    symmetry; apply lookup_entity_none; intros i Hi E;
    assert (strcmp name (ent_name i) = 0) as Ei
      by (apply strcmp_0; rewrite (proj2 (entities_lookup i Hi)); exact E);
    pose proof (Hin i Hi Ei); assert (i = first \/ i = last) as [->| ->] by lia; done.
Qed.

(** C34: the binary search of [_mxml_entity_cb] finds exactly what a scan of the
    entity table finds, for every name: the value of the entry with that name,
    or -1. *)
Theorem entity_cb_is_lookup name : _mxml_entity_cb name = lookup_entity entities name.
Proof.
  unfold _mxml_entity_cb. apply entity_search_spec; [cbn; lia|lia| |lia].
  intros i Hi _. lia.
Qed.
