(* ===== verification/MxmlSearch.v ===== *)
(** * MxmlSearch: walking and searching XML trees (mxml/mxml-search.c)

    The walk over a tree of nodes, the search for an element by name and
    attribute, and the search along a path.  In a consistent forest the search
    from a parent is a search in its list of children. *)

From S2P Require Import Prelude Stream CStr OMap MxmlNode MxmlTree.

Definition MXML_DESCEND : Z := 1.
Definition MXML_NO_DESCEND : Z := 0.
Definition MXML_DESCEND_FIRST : Z := -1.

(** A round per node of the heap. *)
Definition heap_fuel {A} (f : nat -> X A) : X A := fun x => f (S (base.size (x_heap x))) x.

(** The loop that goes up from [p] until there is a next node. *)
Fixpoint climb (fuel : nat) (top : ptr) (p : nat) : X ptr :=
  match fuel with
  | O => fun _ => NoFuel
  | S fuel =>
      n ← node p;
      match n_next n with
      | Some q => mret (Some q)
      | None =>
          if decide (n_parent n = top) then mret None
          else match n_parent n with Some q => climb fuel top q | None => mret None end
      end
  end.

Definition mxmlWalkNext (nd top : ptr) (descend : Z) : X ptr :=
  match nd with
  | None => mret None
  | Some p =>
      n ← node p;
      match n_child n, negb (descend =? 0) with
      | Some c, true => mret (Some c)
      | _, _ =>
          if decide (nd = top) then mret None
          else match n_next n, n_parent n with
               | Some q, _ => mret (Some q)
               | None, Some par => if decide (Some par = top) then mret None else heap_fuel (fun fuel => climb fuel top par)
               | None, None => mret None
               end
      end
  end.

Fixpoint deepest_last (fuel : nat) (p : nat) : X nat :=
  match fuel with
  | O => fun _ => NoFuel
  | S fuel => n ← node p; match n_last_child n with Some c => deepest_last fuel c | None => mret p end
  end.
Definition mxmlWalkPrev (nd top : ptr) (descend : Z) : X ptr :=
  match nd with
  | None => mret None
  | Some p =>
      if decide (nd = top) then mret None
      else
        n ← node p;
        match n_prev n with
        | Some q =>
            qn ← node q;
            match n_last_child qn, negb (descend =? 0) with
            | Some c, true => l ← heap_fuel (fun fuel => deepest_last fuel c); mret (Some l)
            | _, _ => mret (Some q)
            end
        | None => if decide (n_parent n = top) then mret None else mret (n_parent n)
        end
  end.

(** [node->type == MXML_ELEMENT && name matches]. *)
Definition name_matches (name : option bytes) (v : mxml_value_t) : bool :=
  match v with
  | VElement (Some s) _ => match name with Some name => strcmp s name =? 0 | None => true end
  | _ => false
  end.
Definition elem_matches (p : nat) (name attr value : option bytes) : X bool :=
  n ← node p;
  if name_matches name (n_value n) then
    match attr with
    | None => mret true
    | Some _ =>
        temp ← mxmlElementGetAttr (Some p) attr;
        mret (match temp, value with
              | Some t, Some v => strcmp v t =? 0
              | Some _, None => true
              | None, _ => false
              end)
    end
  else mret false.

Fixpoint find_loop (fuel : nat) (nd top : ptr) (name attr value : option bytes) (descend : Z) : X ptr :=
  match fuel with
  | O => fun _ => NoFuel
  | S fuel =>
      match nd with
      | None => mret None
      | Some p =>
          b ← elem_matches p name attr value;
          if b : bool then mret nd
          else
            nd ← (if descend =? MXML_DESCEND then mxmlWalkNext nd top MXML_DESCEND else n ← node p; mret (n_next n));
            find_loop fuel nd top name attr value descend
      end
  end.
Definition mxmlFindElement (nd top : ptr) (name attr value : option bytes) (descend : Z) : X ptr :=
  match nd, top, attr, value with
  | None, _, _, _ | _, None, _, _ | _, _, None, Some _ => mret None
  | _, _, _, _ =>
      nd ← mxmlWalkNext nd top descend;
      heap_fuel (fun fuel => find_loop (S fuel) nd top name attr value descend)
  end.

(** The next name of a path: the elements up to a slash, and what is left. *)
Definition split_path (path : bytes) : bytes * bytes :=
  match find_char 47 path with
  | Some i => (take i path, drop (S i) path)
  | None => (path, [])
  end.
Fixpoint path_loop (fuel : nat) (path : bytes) (p : nat) : X ptr :=
  match path with
  | [] => mret (Some p)
  | _ =>
      match fuel with
      | O => fun _ => NoFuel
      | S fuel =>
          let '(path, descend) := match path with
                                  | 42 :: 47 :: path' => (path', MXML_DESCEND)
                                  | _ => (path, MXML_DESCEND_FIRST)
                                  end in
          let '(element, path) := split_path path in
          if Nat.eqb (length element) 0 || Nat.leb 256 (length element) then mret None
          else
            nd ← mxmlFindElement (Some p) (Some p) (Some element) None None descend;
            match nd with Some p => path_loop fuel path p | None => mret None end
      end
  end.
Definition mxmlFindPath (top : ptr) (path : option bytes) : X ptr :=
  match top, cstr <$> path with
  | Some p, Some (c :: path) =>
      nd ← path_loop (S (length path)) (c :: path) p;
      match nd with
      | None => mret None
      | Some p =>
          n ← node p;
          match n_child n with
          | Some c => cn ← node c; mret (if decide (n_type cn = MXML_ELEMENT) then Some p else Some c)
          | None => mret (Some p)
          end
      end
  | _, _ => mret None
  end.

(** ** Searching the children of a node *)

Definition named (name : bytes) (v : mxml_value_t) : bool := name_matches (Some name) v.
(** The first of a list of nodes that is an element called [name]. *)
Fixpoint first_named (h : gmap nat mxml_node_t) (name : bytes) (l : list nat) : ptr :=
  match l with
  | [] => None
  | c :: l => if match fld n_value h c with Some v => named name v | None => false end then Some c else first_named h name l
  end.

Lemma kid_node h K p l1 c l2 : forest h K -> K !! p = Some (l1 ++ c :: l2) ->
  exists n, h !! c = Some n /\ n_next n = head l2 /\ n_parent n = Some p.
Proof.
  intros Hf HK. destruct (fo_kid _ _ Hf _ _ _ _ HK) as (H1 & _ & H3).
  apply fld_Some in H1 as (n & Hn & E1). apply fld_Some in H3 as (n' & Hn' & E3). rewrite Hn in Hn'. injection Hn' as <-. eauto.
Qed.

Lemma find_loop_kids x K p name top descend l1 l2 fuel :
  forest (x_heap x) K -> K !! p = Some (l1 ++ l2) -> (descend =? MXML_DESCEND) = false -> (length l2 < fuel)%nat ->
  find_loop fuel (head l2) top (Some name) None None descend x = Ret (first_named (x_heap x) name l2, x).
Proof.
  revert l1 fuel. induction l2 as [|c l2 IH]; intros l1 [|fuel] Hf HK Hd Hl; cbn [length] in Hl; try lia; [done|].
  destruct (kid_node _ _ _ _ _ _ Hf HK) as (n & Hn & Enx & _). cbn [find_loop head first_named].
  unfold elem_matches. unfold mbind at 1, X_bind at 1. rewrite (xbind_eq _ _ _ _ _ (node_run _ _ _ Hn)).
  unfold fld. rewrite Hn. cbn [fmap option_fmap option_map]. unfold named. destruct (name_matches (Some name) (n_value n)); [done|].
  cbn [mret X_ret]. rewrite Hd. unfold mbind at 1, X_bind at 1. rewrite (xbind_eq _ _ _ _ _ (node_run _ _ _ Hn)).
  cbn [mret X_ret]. rewrite Enx. apply (IH (l1 ++ [c])); [done|by rewrite <- app_assoc|done|lia].
Qed.

Lemma kids_le_heap h K p ks : forest h K -> K !! p = Some ks -> (length ks <= base.size h)%nat.
Proof.
  intros Hf HK. rewrite <- (size_dom h (D := gset nat)).
  rewrite <- (size_list_to_set (C := gset nat) ks) by (by eapply fo_nodup). apply subseteq_size. intros c Hc.
  apply elem_of_list_to_set, list_elem_of_split in Hc as (l1 & l2 & ->).
  destruct (kid_node _ _ _ _ _ _ Hf HK) as (n & Hn & _). apply elem_of_dom. by eexists.
Qed.

(** [mxmlFindElement] from a parent with [MXML_DESCEND_FIRST]: its first child
    of that name. *)
Lemma FindElement_child x K p ks name :
  forest (x_heap x) K -> K !! p = Some ks ->
  mxmlFindElement (Some p) (Some p) (Some name) None None MXML_DESCEND_FIRST x = Ret (first_named (x_heap x) name ks, x).
Proof.
  intros Hf HK. destruct (fo_child _ _ Hf _ _ HK) as [Hc _]. apply fld_Some in Hc as (n & Hn & Ec).
  unfold mxmlFindElement. unfold mbind, X_bind, mxmlWalkNext. unfold mbind, X_bind, node. rewrite Hn, Ec.
  pose proof (kids_le_heap _ _ _ _ Hf HK) as Hle.
  destruct ks as [|c ks]; cbn [head length] in *.
  - cbn. rewrite decide_True by done. done.
  - cbn [negb Z.eqb MXML_DESCEND_FIRST]. unfold heap_fuel.
    apply (find_loop_kids x K p name (Some p) MXML_DESCEND_FIRST [] (c :: ks)); [done|done|done|cbn [length]; lia].
Qed.

(** From a child of [top] with [MXML_NO_DESCEND]: the next sibling of that
    name. *)
Lemma FindElement_next x K p l1 c l2 name :
  forest (x_heap x) K -> K !! p = Some (l1 ++ c :: l2) -> c <> p ->
  mxmlFindElement (Some c) (Some p) (Some name) None None MXML_NO_DESCEND x = Ret (first_named (x_heap x) name l2, x).
Proof.
  intros Hf HK Hcp. destruct (kid_node _ _ _ _ _ _ Hf HK) as (n & Hn & Enx & Epar).
  unfold mxmlFindElement. unfold mbind, X_bind, mxmlWalkNext. unfold mbind, X_bind, node. rewrite Hn, Enx, Epar.
  pose proof (kids_le_heap _ _ _ _ Hf HK) as Hle. rewrite length_app in Hle. cbn [length] in Hle.
  assert (forall nd, (if decide (Some c = Some p) then mret None else nd : X ptr) = nd) as Hdec by (intros; by rewrite decide_False by congruence).
  cbn [negb Z.eqb MXML_NO_DESCEND].
  destruct l2 as [|d l2]; cbn [head].
  - destruct (n_child n); rewrite decide_False by congruence; rewrite decide_True by done; done.
  - unfold heap_fuel. destruct (n_child n); rewrite decide_False by congruence; cbn [mret X_ret];
      apply (find_loop_kids x K p name (Some p) MXML_NO_DESCEND (l1 ++ [c]) (d :: l2)); try done; try (by rewrite <- app_assoc); cbn [length] in *; lia.
Qed.

(** The search splits the list at what it finds. *)
Lemma first_named_split h name l c : first_named h name l = Some c ->
  exists l1 l2 v, l = l1 ++ c :: l2 /\ fld n_value h c = Some v /\ named name v = true /\ first_named h name l1 = None.
Proof.
  induction l as [|d l IH]; cbn; [done|]. destruct (fld n_value h d) as [v|] eqn:Ev; [destruct (named name v) eqn:En|].
  - intros [= ->]. exists [], l, v. done.
  - intros H. destruct (IH H) as (l1 & l2 & v' & -> & H1 & H2 & H3). exists (d :: l1), l2, v'. split_and!; [done..|]. cbn. by rewrite Ev, En.
  - intros H. destruct (IH H) as (l1 & l2 & v' & -> & H1 & H2 & H3). exists (d :: l1), l2, v'. split_and!; [done..|]. cbn. by rewrite Ev.
Qed.
