(* ===== verification/MxmlBuild.v ===== *)
(** * MxmlBuild: growing and deleting XML trees

    The invariant of the heap of nodes between two operations, the effect of
    creating a node below a parent and of setting an attribute, and [mxmlDelete]:
    it ends and frees exactly the node and what is below it. *)

From S2P Require Import Prelude Stream CStr OMap MxmlNode MxmlTree.

(** Consistent links without cycles, below the next free address. *)
Record tree_ok (x : xml) (K : gmap nat (list nat)) : Prop := mkTreeOk {
  to_forest : forest (x_heap x) K;
  to_acyclic : acyclic K;
  to_fresh : forall p, is_Some (x_heap x !! p) -> (p < x_count x)%nat
}.
Lemma tree_ok_nil n l : tree_ok (mkXml ∅ n l) ∅.
Proof.
  assert (forall {A} (F : mxml_node_t -> A) q a, fld F ∅ q = Some a -> False) as Hf by (intros A F q a [? Hn]%fld_live; by rewrite lookup_empty in Hn).
  assert (forall q (ks : list nat), (∅ : gmap nat (list nat)) !! q = Some ks -> False) as HK by (intros q ks Hq; by rewrite lookup_empty in Hq).
  constructor; cbn [x_heap].
  - constructor.
    + intros p. rewrite !lookup_empty. by split; intros [].
    + intros p ks H. by apply HK in H.
    + intros p l1 c l2 H. by apply HK in H.
    + intros c p H. by apply Hf in H.
    + intros c H. by apply Hf in H.
    + intros p ks H. by apply HK in H.
  - intros p. constructor. intros q Hq. unfold child_of, kids in Hq. rewrite lookup_empty in Hq. by apply elem_of_nil in Hq.
  - intros p [? Hn]. by rewrite lookup_empty in Hn.
Qed.
Definition val (x : xml) (p : nat) : option mxml_value_t := fld n_value (x_heap x) p.

Lemma tree_dom x K p : tree_ok x K -> is_Some (K !! p) <-> is_Some (x_heap x !! p).
Proof. intros [Hf _ _]. apply (fo_dom _ _ Hf). Qed.
Lemma tree_lt x K p : tree_ok x K -> is_Some (K !! p) -> (p < x_count x)%nat.
Proof. intros HT Hp. apply (to_fresh _ _ HT), (tree_dom _ _ _ HT), Hp. Qed.
Lemma tree_new_free x K : tree_ok x K -> x_heap x !! x_count x = None /\ K !! x_count x = None.
Proof.
  intros HT. split; apply eq_None_not_Some; intros Hs; [pose proof (to_fresh _ _ HT _ Hs)|pose proof (tree_lt _ _ _ HT Hs)]; lia.
Qed.
Lemma val_live x p v : val x p = Some v -> is_Some (x_heap x !! p).
Proof. apply fld_live. Qed.
Lemma live_val x p : is_Some (x_heap x !! p) -> exists n, x_heap x !! p = Some n /\ val x p = Some (n_value n).
Proof. intros [n Hn]. exists n. split; [done|]. unfold val, fld. by rewrite Hn. Qed.

(** ** Editing values *)

Definition keeps_links (f : mxml_node_t -> mxml_node_t) : Prop :=
  forall n, n_next (f n) = n_next n /\ n_prev (f n) = n_prev n /\ n_parent (f n) = n_parent n /\
    n_child (f n) = n_child n /\ n_last_child (f n) = n_last_child n.

Lemma forest_alter f p h K : keeps_links f -> forest h K -> forest (alter f p h) K.
Proof.
  intros Hk Hf.
  assert (forall {A} (F : mxml_node_t -> A) q, (forall n, F (f n) = F n) -> fld F (alter f p h) q = fld F h q) as Hfld
    by (intros; by apply fld_keep).
  constructor.
  - intros q. rewrite is_Some_alter. apply (fo_dom _ _ Hf).
  - intros q ks Hq. rewrite !Hfld by apply Hk. by apply (fo_child _ _ Hf).
  - intros q l1 c l2 Hq. rewrite !Hfld by apply Hk. by apply (fo_kid _ _ Hf).
  - intros c q. rewrite !Hfld by apply Hk. apply (fo_up _ _ Hf).
  - intros c. rewrite !Hfld by apply Hk. apply (fo_root _ _ Hf).
  - apply (fo_nodup _ _ Hf).
Qed.

Lemma edit_tree_ok x K p f v : tree_ok x K -> keeps_links f -> val x p = Some v ->
  exists x', edit p f x = Ret (tt, x') /\ tree_ok x' K /\ x_count x' = x_count x /\ x_log x' = x_log x /\
    (forall n, x_heap x !! p = Some n -> val x' p = Some (n_value (f n))) /\ (forall q, q <> p -> val x' q = val x q).
Proof.
  intros HT Hk Hv. rewrite edit_run by (by eapply val_live). eexists. split; [done|]. cbn [x_count x_log with_x]. split_and!; [|done..| |].
  - destruct HT as [Hf Ha Hl]. constructor; cbn [x_heap with_x]; [by apply forest_alter|done|].
    intros q. rewrite is_Some_alter. apply Hl.
  - intros n Hn. unfold val, fld. cbn [x_heap with_x]. by rewrite lookup_alter_eq, Hn.
  - intros q Hq. unfold val, fld. cbn [x_heap with_x]. by rewrite lookup_alter_ne.
Qed.

(** ** New nodes *)

(** The children after [p] was added to [parent]. *)
Definition hang (parent : ptr) (p : nat) (K : gmap nat (list nat)) : gmap nat (list nat) :=
  let K := <[p := []]> K in
  match parent with Some par => <[par := kids K par ++ [p]]> K | None => K end.
Lemma hang_self parent p K : parent <> Some p -> hang parent p K !! p = Some [].
Proof.
  intros Hp. unfold hang. destruct parent as [par|]; [rewrite lookup_insert_ne by congruence|]; by rewrite lookup_insert_eq.
Qed.
Lemma hang_parent par p ks K : par <> p -> K !! par = Some ks -> hang (Some par) p K !! par = Some (ks ++ [p]).
Proof. intros Hp HK. unfold hang, kids. rewrite lookup_insert_eq, lookup_insert_ne by done. by rewrite HK. Qed.
Lemma hang_other parent p K q : q <> p -> parent <> Some q -> hang parent p K !! q = K !! q.
Proof.
  intros Hp Hq. unfold hang. destruct parent as [par|]; [rewrite lookup_insert_ne by congruence|]; by rewrite lookup_insert_ne.
Qed.

Definition parent_ok (parent : ptr) (K : gmap nat (list nat)) : Prop := forall par, parent = Some par -> is_Some (K !! par).

Section build.
Context (oom : nat -> bool) (Hoom : forall n, oom n = false).

Lemma malloc_run x : malloc oom x = Ret (Some (x_count x), mkXml (x_heap x) (S (x_count x)) (x_log x)).
Proof. unfold malloc. by rewrite Hoom. Qed.
Lemma strdup_run s x : strdup oom s x = Ret (Some (cstr s), mkXml (x_heap x) (S (x_count x)) (x_log x)).
Proof. unfold strdup, mbind, X_bind. by rewrite malloc_run. Qed.

Lemma mxml_new_run x K parent type :
  tree_ok x K -> parent_ok parent K ->
  let p := x_count x in
  exists x', mxml_new oom parent type x = Ret (Some p, x') /\ tree_ok x' (hang parent p K) /\
    x_count x' = S (x_count x) /\ x_log x' = x_log x /\ val x' p = Some (zero_value type) /\
    (forall q, q <> p -> val x' q = val x q).
Proof.
  intros HT Hpar p. destruct (tree_new_free _ _ HT) as [Hh HK]. fold p in Hh, HK.
  unfold mxml_new. rewrite (xbind_eq _ _ _ _ _ (malloc_run x)). fold p.
  set (h1 := <[p := mkNode (zero_value type) None None None None None 1 None]> (x_heap x)).
  set (x1 := mkXml h1 (S p) (x_log x)).
  rewrite (xbind_eq _ _ _ tt x1) by done.
  assert (tree_ok x1 (<[p := []]> K)) as HT1.
  { destruct HT as [Hf Ha Hl]. constructor; [by apply forest_new|by apply acyclic_new|].
    intros q. cbn. unfold h1. rewrite lookup_insert_is_Some. intros [<-|[_ Hq]]; [lia|]. pose proof (Hl q Hq). unfold p. lia. }
  assert (val x1 p = Some (zero_value type)) as Hvp by (unfold val, fld, x1, h1; cbn; by rewrite lookup_insert_eq).
  assert (forall q, q <> p -> val x1 q = val x q) as Hvq by (intros q Hq; unfold val, fld, x1, h1; cbn; by rewrite lookup_insert_ne).
  destruct parent as [par|]; [|exists x1; split_and!; [done|exact HT1|done|done|exact Hvp|exact Hvq]].
  assert (par <> p) as Hne by (intros ->; destruct (Hpar p eq_refl) as [? ?]; congruence).
  assert (is_Some (<[p := []]> K !! par)) as Hp1 by (rewrite lookup_insert_ne by done; by apply Hpar).
  destruct (mxmlAdd_run x1 (<[p := []]> K) par MXML_ADD_AFTER None p) as (h2 & E & Hf2 & Hs2).
  { apply HT1. } { done. } { rewrite lookup_insert_eq; by eexists. } { by right. } { done. }
  rewrite detach_id in Hf2.
  2: { intros q ks Hq Hin. destruct (decide (q = p)) as [->|Hqp]; [rewrite lookup_insert_eq in Hq; injection Hq as <-; by apply elem_of_nil in Hin|].
       pose proof (kid_of _ _ _ _ _ (to_forest _ _ HT1) ltac:(rewrite lookup_insert_ne by done; rewrite lookup_insert_ne in Hq by done; exact Hq) Hin) as Hk.
       unfold fld, x1, h1 in Hk. cbn in Hk. by rewrite lookup_insert_eq in Hk. }
  rewrite (xbind_eq _ _ _ _ _ E). eexists. split; [done|]. cbn [x_count x_log with_x x1].
  assert (forall q, val (with_x h2 x1) q = val x1 q) as Hv2.
  { intros q. unfold val. specialize (Hs2 q). unfold fld in *. cbn in *.
    destruct (h2 !! q), (h1 !! q); cbn in *; congruence. }
  split_and!; [|done|done|by rewrite Hv2|intros q Hq; rewrite Hv2; by apply Hvq].
  constructor; [exact Hf2| |].
  - apply (acyclic_hang (<[p := []]> K) _ p par); [apply HT1| |].
    + intros Hr. apply rtc_inv_r in Hr as [|(c & _ & Hc)]; [done|].
      unfold child_of, kids in Hc. rewrite lookup_insert_eq in Hc. by apply elem_of_nil in Hc.
    + intros c q. unfold child_of at 1, kids at 1, hang. destruct (decide (q = par)) as [->|Hq]; [rewrite lookup_insert_eq|rewrite lookup_insert_ne by done; by left].
      cbn [default from_option id]. rewrite elem_of_app, list_elem_of_singleton. intros [Hc| ->]; [by left|by right].
  - intros q Hq. cbn in Hq. apply (fo_dom _ _ Hf2) in Hq. assert (is_Some (<[p := []]> K !! q)) as Hq1.
    { destruct (decide (q = par)) as [->|Hqp]; [done|]. by rewrite lookup_insert_ne in Hq. }
    apply (tree_lt _ _ _ HT1 Hq1).
Qed.
(** A node with the value [v] was added at the next address. *)
Record added (x : xml) (K : gmap nat (list nat)) (parent : ptr) (v : mxml_value_t) (x' : xml) : Prop := mkAdded {
  ad_tree : tree_ok x' (hang parent (x_count x) K);
  ad_count : (x_count x < x_count x')%nat;
  ad_log : x_log x' = x_log x;
  ad_val : val x' (x_count x) = Some v;
  ad_other : forall q, q <> x_count x -> val x' q = val x q
}.

(** The constructors: a zeroed node, a copy of the string, the value set. *)
Lemma new_with_run x K parent type (s : bytes) (setv : option bytes -> mxml_node_t -> mxml_node_t) v :
  tree_ok x K -> parent_ok parent K -> (forall s, keeps_links (setv s)) ->
  (forall n, n_value n = zero_value type -> n_value (setv (Some (cstr s)) n) = v) ->
  exists x', new_with oom parent type (fun p => s ← strdup oom s; edit p (setv s)) x = Ret (Some (x_count x), x') /\
    added x K parent v x'.
Proof.
  intros HT Hp Hk Hv. destruct (mxml_new_run x K parent type HT Hp) as (x1 & E1 & HT1 & Hc1 & Hl1 & Hv1 & Ho1).
  unfold new_with. rewrite (xbind_eq _ _ _ _ _ E1). unfold mbind at 1, X_bind at 1.
  rewrite (xbind_eq _ _ _ _ _ (strdup_run s x1)).
  set (x2 := mkXml (x_heap x1) (S (x_count x1)) (x_log x1)).
  assert (tree_ok x2 (hang parent (x_count x) K)) as HT2.
  { destruct HT1 as [Hf Ha Hl]. constructor; [done|done|]. intros q Hq. pose proof (Hl q Hq). cbn. lia. }
  destruct (edit_tree_ok x2 _ (x_count x) (setv (Some (cstr s))) (zero_value type) HT2 (Hk _) Hv1) as (x3 & E3 & HT3 & Hc3 & Hl3 & Hv3 & Ho3).
  rewrite E3. exists x3. split; [done|]. constructor; [done|rewrite Hc3; cbn; lia|by rewrite Hl3| |].
  - destruct (live_val _ _ (val_live _ _ _ Hv1)) as (n & Hn & En). rewrite (Hv3 n Hn). rewrite Hv; [done|]. congruence.
  - intros q Hq. rewrite Ho3 by done. change (val x2 q) with (val x1 q). by apply Ho1.
Qed.

Lemma set_value_links v : keeps_links (set_value v).
Proof. by intros []. Qed.
Lemma set_elem_name_links s : keeps_links (set_elem_name s).
Proof. intros [[] ? ? ? ? ? ? ?]; done. Qed.
Lemma set_elem_attrs_links l : keeps_links (set_elem_attrs l).
Proof. intros [[] ? ? ? ? ? ? ?]; done. Qed.

Lemma mxmlNewElement_run x K parent name : tree_ok x K -> parent_ok parent K ->
  exists x', mxmlNewElement oom parent (Some name) x = Ret (Some (x_count x), x') /\
    added x K parent (VElement (Some (cstr name)) []) x'.
Proof.
  intros HT Hp. apply (new_with_run x K parent MXML_ELEMENT name set_elem_name); [done|done|apply set_elem_name_links|].
  intros n Hn. unfold set_elem_name. by rewrite Hn.
Qed.
Lemma mxmlNewText_run x K parent ws s : tree_ok x K -> parent_ok parent K ->
  exists x', mxmlNewText oom parent ws (Some s) x = Ret (Some (x_count x), x') /\ added x K parent (VText ws (Some (cstr s))) x'.
Proof.
  intros HT Hp. apply (new_with_run x K parent MXML_TEXT s (fun s => set_value (VText ws s))); [done|done|intros; apply set_value_links|done].
Qed.

(** A new attribute. *)
Lemma SetAttr_run x K p name value nm l :
  tree_ok x K -> val x p = Some (VElement nm l) -> find_attr name l = None ->
  exists x', mxmlElementSetAttr oom (Some p) (Some name) (Some value) x = Ret (tt, x') /\ tree_ok x' K /\
    (x_count x <= x_count x')%nat /\ x_log x' = x_log x /\
    val x' p = Some (VElement nm (l ++ [mkAttr (cstr name) (Some (cstr value))])) /\ (forall q, q <> p -> val x' q = val x q).
Proof.
  intros HT Hv Hnew. destruct (live_val _ _ (val_live _ _ _ Hv)) as (n & Hn & En). rewrite Hv in En. injection En as En.
  unfold mxmlElementSetAttr. rewrite (xbind_eq _ _ _ _ _ (node_run _ _ _ Hn)). unfold n_type. rewrite <- En. cbn [type_of].
  rewrite (xbind_eq _ _ _ _ _ (strdup_run value x)). unfold mbind at 1, X_bind at 1, mxml_set_attr.
  set (x1 := mkXml (x_heap x) (S (x_count x)) (x_log x)).
  rewrite (xbind_eq _ _ _ _ _ (node_run p x1 n Hn)), <- En.
  assert (replace_attr name (Some (cstr value)) l = None) as ->.
  { clear -Hnew. induction l as [|a l IH]; cbn in *; [done|]. destruct (is_attr name a); [done|]. by rewrite IH. }
  rewrite (xbind_eq _ _ _ _ _ (malloc_run x1)). rewrite (xbind_eq _ _ _ _ _ (strdup_run name _)).
  cbn [x_heap x_count x_log x1].
  match goal with |- context [edit p ?f] => match goal with |- context [mkXml ?h ?c ?lg] =>
    destruct (edit_tree_ok (mkXml h c lg) K p f (VElement nm l)) as (x2 & E2 & HT2 & Hc2 & Hl2 & Hv2 & Ho2) end end.
  - destruct HT as [Hf Ha Hl]. constructor; [done|done|]. intros q Hq. pose proof (Hl q Hq). cbn. lia.
  - apply set_elem_attrs_links.
  - done.
  - rewrite (xbind_eq _ _ _ _ _ E2). exists x2. split_and!; [done|done|rewrite Hc2; cbn; lia|by rewrite Hl2| |by intros q Hq; rewrite Ho2].
    rewrite (Hv2 n Hn). unfold set_elem_attrs. by rewrite <- En.
Qed.
End build.

(** ** mxmlDelete *)

(** The children lists without the nodes of [R]. *)
Definition prune (R : gset nat) (K : gmap nat (list nat)) : gmap nat (list nat) :=
  base.filter (fun e : nat * list nat => e.1 ∉ R) K.
Lemma prune_in R K q : q ∈ R -> prune R K !! q = None.
Proof. intros Hq. apply map_lookup_filter_None. right. by intros ks _ []. Qed.
Lemma prune_out R K q : q ∉ R -> prune R K !! q = K !! q.
Proof.
  intros Hq. unfold prune. rewrite map_lookup_filter. destruct (K !! q) as [ks|]; cbn; [|done].
  rewrite option_guard_True by done. done.
Qed.
Lemma detach_lookup p K q : detach p K !! q = base.filter (fun c => c <> p) <$> K !! q.
Proof. unfold detach. by rewrite lookup_fmap. Qed.
Lemma child_lookup K c q : child_of K c q <-> exists ks, K !! q = Some ks /\ c ∈ ks.
Proof.
  unfold child_of, kids. destruct (K !! q) as [ks|]; cbn; [naive_solver|]. split; [by intros ?%elem_of_nil|naive_solver].
Qed.

(** A root without children is taken away. *)
Lemma forest_remove h K p : forest h K -> K !! p = Some [] -> (forall q, ~ child_of K p q) -> forest (delete p h) (delete p K).
Proof.
  intros Hf HK Hno.
  assert (forall {A} (F : mxml_node_t -> A) q, q <> p -> fld F (delete p h) q = fld F h q) as Ho
    by (intros A F q Hq; unfold fld; by rewrite lookup_delete_ne).
  constructor.
  - intros q. destruct (decide (q = p)) as [->|Hq]; [rewrite !lookup_delete_eq; by split; intros []|].
    rewrite !lookup_delete_ne by done. apply (fo_dom _ _ Hf).
  - intros q ks [Hq Hk]%lookup_delete_Some. rewrite !Ho by done. by apply (fo_child _ _ Hf).
  - intros q l1 c l2 [Hq Hk]%lookup_delete_Some. rewrite !Ho; [by apply (fo_kid _ _ Hf q)|..];
      intros ->; apply (Hno q), child_lookup; eexists; (split; [exact Hk|]); set_solver.
  - intros c q Hc. destruct (decide (c = p)) as [->|Hcp]; [unfold fld in Hc; by rewrite lookup_delete_eq in Hc|].
    rewrite Ho in Hc by done. destruct (fo_up _ _ Hf _ _ Hc) as (ks & Hk & Hin). exists ks. split; [|done].
    rewrite lookup_delete_ne; [done|]. intros <-. rewrite HK in Hk. injection Hk as <-. by apply elem_of_nil in Hin.
  - intros c Hc. destruct (decide (c = p)) as [->|Hcp]; [unfold fld in Hc; by rewrite lookup_delete_eq in Hc|].
    rewrite Ho in Hc by done. rewrite !Ho by done. by apply (fo_root _ _ Hf).
  - intros q ks [_ Hk]%lookup_delete_Some. by eapply (fo_nodup _ _ Hf).
Qed.

Lemma mxmlRemove_any x K p : tree_ok x K -> is_Some (K !! p) ->
  exists x', mxmlRemove (Some p) x = Ret (tt, x') /\ tree_ok x' (detach p K) /\ x_count x' = x_count x /\
    x_log x' = x_log x /\ forall q, val x' q = val x q.
Proof.
  intros HT Hp. destruct (proj1 (tree_dom _ _ _ HT) Hp) as [n Hn].
  destruct (detach_run x K p n (to_forest _ _ HT) Hn) as (h' & E & Hf & _ & Hs).
  exists (with_x h' x). split_and!; [|constructor; [done| |]|done|done|].
  - destruct (n_parent n) as [par|] eqn:Ep; [done|]. unfold mxmlRemove. rewrite (xbind_eq _ _ _ _ _ (node_run _ _ _ Hn)), Ep. exact E.
  - eapply acyclic_sub; [apply HT|]. apply child_of_detach.
  - intros q Hq. apply (fo_dom _ _ Hf) in Hq. rewrite detach_lookup, fmap_is_Some in Hq. by apply (tree_lt _ _ _ HT).
  - intros q. unfold val. specialize (Hs q). unfold fld in *. cbn. destruct (h' !! q), (x_heap x !! q); cbn in *; congruence.
Qed.

(** [p] and everything below it. *)
Record subtree (K : gmap nat (list nat)) (p : nat) (R : gset nat) : Prop := mkSub {
  su_root : p ∈ R;
  su_below : forall q, q ∈ R -> rtc (child_of K) q p;
  su_closed : forall c q, q ∈ R -> child_of K c q -> c ∈ R
}.

Lemma no_cycle K p c : acyclic K -> child_of K c p -> ~ rtc (child_of K) p c.
Proof.
  intros Ha. revert c. induction (Ha p) as [p _ IH]. intros c Hc Hr.
  apply rtc_inv_r in Hr as [->|(d & Hpd & Hdc)]; [by apply (IH c Hc c)|].
  apply (IH c Hc d Hdc). by eapply rtc_l.
Qed.

(** What deleting comes to for a node: enough fuel, the nodes freed and the
    heap left. *)
Definition deletes (x : xml) (K : gmap nat (list nat)) (p : nat) : Prop :=
  exists R x', (forall fuel, (2 * base.size R <= fuel)%nat -> delete_node fuel p x = Ret (tt, x')) /\
    subtree K p R /\ R ⊆ dom K /\ tree_ok x' (detach p (prune R K)) /\ x_count x' = x_count x /\ forall q, q ∉ R -> val x' q = val x q.

Section children.
Context (K0 : gmap nat (list nat)) (p : nat).
Hypothesis IH : forall c, child_of K0 c p -> forall x K, tree_ok x K -> (forall c q, child_of K c q -> child_of K0 c q) -> is_Some (K !! c) -> deletes x K c.

Lemma children_run ks : forall x K, tree_ok x K -> (forall c q, child_of K c q -> child_of K0 c q) -> K !! p = Some ks ->
  exists R x', (forall fuel, (2 * base.size R + 1 <= fuel)%nat -> delete_children fuel p x = Ret (tt, x')) /\
    p ∉ R /\ (forall c, c ∈ ks -> c ∈ R) /\ (forall q, q ∈ R -> exists c, c ∈ ks /\ rtc (child_of K) q c) /\
    (forall c q, q ∈ R -> child_of K c q -> c ∈ R) /\ R ⊆ dom K /\
    tree_ok x' (<[p := []]> (prune R K)) /\ x_count x' = x_count x /\ forall q, q ∉ R -> val x' q = val x q.
Proof.
  induction ks as [|c cs IHks]; intros x K HT Hsub HK.
  - destruct (proj1 (tree_dom _ _ p HT)) as [n Hn]; [by eexists|]. destruct (fo_child _ _ (to_forest _ _ HT) _ _ HK) as [Hc _].
    apply fld_Some in Hc as (n' & Hn' & Ec). rewrite Hn in Hn'. injection Hn' as <-.
    exists ∅, x. split_and!; [|apply not_elem_of_empty|by intros c ?%elem_of_nil|by intros q ?%elem_of_empty|by intros c q ?%elem_of_empty
      |apply empty_subseteq| |done|done].
    + intros [|fuel] Hf; [lia|]. cbn [delete_children]. rewrite (xbind_eq _ _ _ _ _ (node_run _ _ _ Hn)), Ec. done.
    + assert (<[p:=[]]> (prune ∅ K) = K) as ->; [|done]. unfold prune. rewrite map_filter_id by (intros; set_solver). by apply insert_id.
  - pose proof (to_forest _ _ HT) as HF. assert (child_of K c p) as Hcp by (apply child_lookup; eexists; split; [done|left]).
    assert (is_Some (K !! c)) as Hc.
    { apply (tree_dom _ _ _ HT). eapply fld_live. apply (fo_kid _ _ HF p [] c cs). done. }
    destruct (IH c (Hsub _ _ Hcp) x K HT Hsub Hc) as (R1 & x1 & E1 & HS1 & Hd1 & HT1 & Hc1 & Hv1).
    assert (p ∉ R1) as Hp1. { intros Hin. apply (no_cycle K p c (to_acyclic _ _ HT) Hcp). by apply HS1. }
    pose proof (fo_nodup _ _ HF _ _ HK) as [Hcn Hnd]%NoDup_cons.
    set (K1 := detach c (prune R1 K)) in *.
    assert (forall q, q ∉ R1 -> q <> p -> K1 !! q = K !! q) as HK1.
    { intros q Hq Hqp. unfold K1. rewrite detach_lookup, prune_out by done. destruct (K !! q) as [l|] eqn:El; [|done]. cbn. f_equal.
      apply filter_Forall_id, Forall_forall. intros z Hz ->. apply Hqp. apply (one_parent _ _ q p c HF); [|done]. apply child_lookup. eauto. }
    assert (K1 !! p = Some cs) as HKp.
    { unfold K1. rewrite detach_lookup, prune_out, HK by done. cbn [fmap option_fmap option_map]. f_equal. rewrite filter_cons_False by (intros H; by apply H).
      apply filter_Forall_id, Forall_forall. by intros z Hz ->. }
    assert (forall z q, child_of K1 z q -> child_of K z q) as Hsub1.
    { intros z q Hz%child_of_detach. apply child_lookup in Hz as (l & Hl & Hin). apply child_lookup. exists l.
      split; [|done]. unfold prune in Hl. by apply map_lookup_filter_Some in Hl as [? _]. }
    assert (forall q, q ∈ R1 -> K1 !! q = None) as HKR by (intros q Hq; unfold K1; by rewrite detach_lookup, prune_in).
    destruct (IHks x1 K1 HT1) as (R2 & x2 & E2 & Hp2 & Hin2 & Hb2 & Hcl2 & Hd2 & HT2 & Hc2 & Hv2); [by eauto|done|].
    assert (R1 ## R2) as Hdis. { intros q Hq1 Hq2. apply Hd2, elem_of_dom in Hq2 as [l Hl]. by rewrite HKR in Hl. }
    exists (R1 ∪ R2), x2. split_and!.
    + intros [|fuel] Hf; [lia|]. rewrite size_union in Hf by done.
      assert (1 <= base.size R1)%nat as Hpos. { destruct (base.size R1) eqn:Es; [|lia]. apply size_empty_inv in Es. pose proof (su_root _ _ _ HS1) as H. rewrite Es in H. by apply elem_of_empty in H. }
      destruct (proj1 (tree_dom _ _ p HT)) as [n Hn]; [by eexists|]. destruct (fo_child _ _ HF _ _ HK) as [Hch _].
      apply fld_Some in Hch as (n' & Hn' & Ec). rewrite Hn in Hn'. injection Hn' as <-.
      cbn [delete_children]. rewrite (xbind_eq _ _ _ _ _ (node_run _ _ _ Hn)), Ec. cbn [head].
      rewrite (xbind_eq _ _ _ _ _ (E1 fuel ltac:(lia))). apply E2. lia.
    + by apply not_elem_of_union.
    + intros z [->|Hz]%elem_of_cons; [apply elem_of_union_l, HS1|by apply elem_of_union_r, Hin2].
    + intros q [Hq|Hq]%elem_of_union; [exists c; split; [left|by apply HS1]|].
      destruct (Hb2 q Hq) as (z & Hz & Hr). exists z. split; [by right|]. by eapply rtc_subrel.
    + intros z q [Hq|Hq]%elem_of_union Hz; [apply elem_of_union_l; by eapply su_closed|]. apply elem_of_union_r, (Hcl2 z q Hq).
      assert (q ∉ R1 /\ q <> p) as [Hn1 Hn2] by (split; [intros H1; by apply (Hdis q)|by intros ->]). apply child_lookup in Hz as (l & Hl & Hin). apply child_lookup. exists l. by rewrite HK1.
    + intros q [Hq|Hq]%elem_of_union; [by apply Hd1|]. apply Hd2, elem_of_dom in Hq as Hq'. apply elem_of_dom.
      destruct (decide (q = p)) as [->|Hqp]; [by eexists|]. rewrite <- HK1; [done|intros H1; destruct Hq' as [? Hq']; by rewrite (HKR q H1) in Hq'|done].
    + assert (<[p:=[]]> (prune (R1 ∪ R2) K) = <[p:=[]]> (prune R2 K1)) as ->; [|done]. apply map_eq. intros q.
      destruct (decide (q = p)) as [->|Hqp]; [by rewrite !lookup_insert_eq|]. rewrite !lookup_insert_ne by done.
      destruct (decide (q ∈ R2)) as [H2|H2]; [rewrite !prune_in by (rewrite ?elem_of_union; tauto); done|].
      destruct (decide (q ∈ R1)) as [H1|H1]; [rewrite prune_in, prune_out by (rewrite ?elem_of_union; tauto); by rewrite HKR|].
      rewrite !prune_out by (rewrite ?elem_of_union; tauto). by rewrite HK1.
    + by rewrite Hc2.
    + intros q Hq. apply not_elem_of_union in Hq as [? ?]. rewrite Hv2 by done. by apply Hv1.
Qed.
End children.

Lemma free_value_run v x : exists l, free_value v x = Ret (tt, mkXml (x_heap x) (x_count x) l).
Proof. destruct x as [h c lg]. destruct v as [| | | | | |[d|] [f|]]; by eexists. Qed.

Lemma delete_node_run K0 p : Acc (child_of K0) p -> forall x K, tree_ok x K -> (forall c q, child_of K c q -> child_of K0 c q) ->
  is_Some (K !! p) -> deletes x K p.
Proof.
  induction 1 as [p _ IH]. intros x K HT Hsub Hp.
  destruct (mxmlRemove_any x K p HT Hp) as (x1 & E1 & HT1 & Hc1 & _ & Hv1).
  destruct Hp as [ks HK]. assert (p ∉ ks) as Hpk.
  { intros Hin. apply (no_cycle K p p (to_acyclic _ _ HT)); [apply child_lookup; eauto|done]. }
  assert (detach p K !! p = Some ks) as HK1.
  { rewrite detach_lookup, HK. cbn. f_equal. apply filter_Forall_id, Forall_forall. by intros z Hz ->. }
  destruct (children_run K0 p IH ks x1 (detach p K) HT1) as (R & x2 & E2 & Hpr & Hin & Hb & Hcl & Hd & HT2 & Hc2 & Hv2); [|done|].
  { intros c q Hcq. by apply Hsub, (child_of_detach _ p). }
  set (K2 := <[p := []]> (prune R (detach p K))) in *.
  assert (is_Some (x_heap x2 !! p)) as [n Hn]. { apply (tree_dom _ _ _ HT2). unfold K2. rewrite lookup_insert_eq. by eexists. }
  destruct (free_value_run (n_value n) x2) as [l El].
  exists ({[p]} ∪ R), (mkXml (delete p (x_heap x2)) (x_count x2) l). split_and!.
  - intros [|fuel] Hf; rewrite size_union, size_singleton in Hf by (by apply disjoint_singleton_l); [lia|]. cbn [delete_node].
    rewrite (xbind_eq _ _ _ _ _ E1). rewrite (xbind_eq _ _ _ _ _ (E2 fuel ltac:(lia))).
    rewrite (xbind_eq _ _ _ _ _ (node_run _ _ _ Hn)), (xbind_eq _ _ _ _ _ El). unfold free, mbind, X_bind, node. cbn. rewrite Hn. done.
  - constructor; [by apply elem_of_union_l, elem_of_singleton| |].
    + intros q [->%elem_of_singleton|Hq]%elem_of_union; [done|]. destruct (Hb q Hq) as (c & Hc & Hr). eapply rtc_r.
      * eapply rtc_subrel; [|exact Hr]. intros ? ?. apply child_of_detach.
      * apply child_lookup. eauto.
    + intros c q [->%elem_of_singleton|Hq]%elem_of_union Hc.
      * apply child_lookup in Hc as (l' & Hl' & Hc). rewrite HK in Hl'. injection Hl' as <-. by apply elem_of_union_r, Hin.
      * destruct (decide (c = p)) as [->|Hcp]; [by apply elem_of_union_l, elem_of_singleton|]. apply elem_of_union_r, (Hcl c q Hq).
        apply child_lookup in Hc as (l' & Hl' & Hc). apply child_lookup. rewrite detach_lookup, Hl'. cbn. eexists. split; [done|].
        by apply list_elem_of_filter.
  - intros q [->%elem_of_singleton|Hq]%elem_of_union; [apply elem_of_dom; by eexists|].
    apply Hd, elem_of_dom in Hq. rewrite detach_lookup, fmap_is_Some in Hq. by apply elem_of_dom.
  - assert (detach p (prune ({[p]} ∪ R) K) = delete p K2) as ->.
    { apply map_eq. intros q. rewrite detach_lookup. unfold K2. destruct (decide (q = p)) as [->|Hqp].
      - rewrite lookup_delete_eq, prune_in by (by apply elem_of_union_l, elem_of_singleton). done.
      - rewrite lookup_delete_ne, lookup_insert_ne by done. destruct (decide (q ∈ R)).
        + by rewrite !prune_in by (rewrite ?elem_of_union; tauto).
        + by rewrite !prune_out, detach_lookup by (rewrite ?elem_of_union, ?elem_of_singleton; tauto). }
    destruct HT2 as [Hf2 Ha2 Hl2]. constructor; cbn.
    + apply forest_remove; [done|unfold K2; by rewrite lookup_insert_eq|].
      intros q (l' & Hl' & Hq)%child_lookup. unfold K2 in Hl'. apply lookup_insert_Some in Hl' as [[_ <-]|[_ Hl']]; [by apply elem_of_nil in Hq|].
      apply map_lookup_filter_Some in Hl' as [Hl' _]. rewrite detach_lookup in Hl'. apply fmap_Some in Hl' as (l2 & _ & ->).
      by apply list_elem_of_filter in Hq as [? _].
    + eapply acyclic_sub; [exact Ha2|]. intros c q (l' & [_ Hl']%lookup_delete_Some & Hc)%child_lookup. apply child_lookup. eauto.
    + intros q Hq. apply lookup_delete_is_Some in Hq as [_ Hq]. by apply Hl2.
  - cbn. by rewrite Hc2.
  - intros q [Hqp%not_elem_of_singleton Hq]%not_elem_of_union. transitivity (val x2 q); [|rewrite Hv2 by done; apply Hv1].
    unfold val, fld. cbn. by rewrite lookup_delete_ne.
Qed.

Lemma mxmlDelete_run x K p : tree_ok x K -> is_Some (K !! p) ->
  exists R x', mxmlDelete (Some p) x = Ret (tt, x') /\ (forall q, q ∈ R <-> rtc (child_of K) q p) /\
    tree_ok x' (detach p (prune R K)) /\ (forall q, q ∈ R -> x_heap x' !! q = None) /\ (forall q, q ∉ R -> val x' q = val x q).
Proof.
  intros HT Hp. destruct (delete_node_run K p (to_acyclic _ _ HT p) x K HT ltac:(done) Hp) as (R & x' & E & [Hr Hb Hcl] & Hd & HT' & _ & Hv).
  exists R, x'. split_and!; [| |done| |done].
  - cbn. apply E. assert (base.size R <= base.size (x_heap x))%nat; [|lia].
    rewrite <- (size_dom (x_heap x) (D := gset nat)). apply subseteq_size. intros q Hq. apply elem_of_dom, (tree_dom _ _ _ HT), elem_of_dom, Hd, Hq.
  - intros q. split; [apply Hb|]. intros Hq. clear -Hr Hcl Hq. induction Hq as [|q y z Hqy _ IH]; [done|]. by eapply Hcl; [apply IH|].
  - intros q Hq. apply eq_None_not_Some. intros Hs. apply (tree_dom _ _ _ HT') in Hs. rewrite detach_lookup, prune_in in Hs by done. by destruct Hs.
Qed.

(** C24: [mxmlDelete] ends and frees exactly the subtree: in a consistent forest
    without cycles it returns with the fuel the model gives it; the nodes gone
    are the node and all nodes below it, the others keep their values, and
    what is left is a consistent forest in which the node is nobody's child. *)
Theorem mxmlDelete_frees x K p : tree_ok x K -> is_Some (K !! p) ->
  exists R x', mxmlDelete (Some p) x = Ret (tt, x') /\ (forall q, q ∈ R <-> rtc (child_of K) q p) /\
    tree_ok x' (detach p (prune R K)) /\ (forall q, q ∈ R -> x_heap x' !! q = None) /\ (forall q, q ∉ R -> val x' q = val x q).
Proof. apply mxmlDelete_run. Qed.

(** An empty heap after one [malloc] and one new element. *)
Lemma mxmlDelete_frees_witness : exists x0 (R : gset nat) x', mxmlNewElement (fun _ => false) None (Some (b# "a")) (mkXml ∅ 0 []) = Ret (Some 0%nat, x0) /\
  mxmlDelete (Some 0%nat) x0 = Ret (tt, x') /\ 0%nat ∈ R /\ (forall q, q ∈ R -> x_heap x' !! q = None).
Proof.
  destruct (mxmlNewElement_run (fun _ => false) (fun _ => eq_refl) (mkXml ∅ 0 []) ∅ None (b# "a") (tree_ok_nil 0 []) ltac:(done)) as (x0 & E & Had).
  destruct (mxmlDelete_frees x0 (hang None 0 ∅) 0 (ad_tree _ _ _ _ _ Had) ltac:(by eexists)) as (R & x' & E' & HR & _ & Hd & _).
  exists x0, R, x'. split; [exact E|]. split; [exact E'|]. split; [by apply HR|exact Hd].
Defined.
