(* ===== verification/MxmlLoad.v ===== *)
(** * MxmlLoad: reading XML text (mxml/mxml-file.c)

    [mxmlLoadString] as the daemons call it: without callbacks, so that every
    value is a text node ([type] is [MXML_TEXT] throughout).  The reader is the
    memory behind the string pointer, up to and with the final NUL, and the
    encoding; looking behind the NUL is a [Crash].  The loops have one more
    round than there are bytes left, and each round that goes on takes a byte. *)

From S2P Require Import Prelude Words Stream CStr NumFmt Strtol MxmlNode MxmlEntity.

(** ** The reader *)

Inductive encoding_t := ENCODE_UTF8 | ENCODE_UTF16BE | ENCODE_UTF16LE.
#[export] Instance encoding_eq_dec : EqDecision encoding_t.
Proof. solve_decision. Defined.

Record rd := mkRd { rd_mem : bytes; rd_enc : encoding_t }.

Definition P (A : Type) : Type := rd -> xml -> result (A * rd * xml).
#[global] Instance P_ret : MRet P := fun _ a r x => Ret (a, r, x).
#[global] Instance P_bind : MBind P :=
  fun _ _ f m r x => match m r x with Ret (a, r', x') => f a r' x' | Crash => Crash | NoFuel => NoFuel end.
(** An operation on the nodes. *)
Definition onX {A} (m : X A) : P A :=
  fun r x => match m x with Ret (a, x') => Ret (a, r, x') | Crash => Crash | NoFuel => NoFuel end.
Definition pcrash {A} : P A := fun _ _ => Crash.
Definition no_fuel {A} : P A := fun _ _ => NoFuel.
Definition perror (msg : bytes) : P unit := onX (mxml_error msg).

(** [( *s)[i]] and [( *s) += n]. *)
Definition peek (i : nat) : P Z := fun r x => match rd_mem r !! i with Some b => Ret (b, r, x) | None => Crash end.
Definition advance (n : nat) : P unit := fun r x => Ret (tt, mkRd (drop n (rd_mem r)) (rd_enc r), x).
Definition reader : P rd := fun r x => Ret (r, r, x).
Definition put_reader (r : rd) : P unit := fun _ x => Ret (tt, r, x).
Definition encoding : P encoding_t := fun r x => Ret (rd_enc r, r, x).
Definition set_encoding (e : encoding_t) : P unit := fun r x => Ret (tt, mkRd (rd_mem r) e, x).
(** One more round than bytes are left. *)
Definition with_fuel {A} (f : nat -> P A) : P A := fun r x => f (S (length (rd_mem r))) r x.

Definition EOF : Z := -1.
Definition mxml_bad_char (ch : Z) : bool := (ch <? 32) && negb (ch =? 10) && negb (ch =? 13) && negb (ch =? 9).
Definition mxml_isspace (ch : Z) : bool := (ch =? 32) || (ch =? 9) || (ch =? 13) || (ch =? 10).

(** [0x%02x] and [0x%04x]; the letters are small. *)
Definition hex_text (width : nat) (v : Z) : bytes := map tolower (fmt_hex width 32 v).
Definition bad_control (ch : Z) : bytes :=
  b# "Bad control character 0x" ++ hex_text 2 ch ++ b# " not allowed by XML standard!".
Definition bad_sequence (ch : Z) : bytes := b# "Invalid UTF-8 sequence for character 0x" ++ hex_text 4 ch ++ b# "!".

Definition continuation (b : Z) : bool := Z.land b 0xC0 =? 0x80.
(** The end of a sequence of several bytes, [low] the least value it may have. *)
Definition sequence (ch low : Z) : P (option Z) :=
  if ch <? low then perror (bad_sequence ch) ;; mret None else mret (Some ch).
Definition get2 (ch : Z) : P (option Z) :=
  b0 ← peek 0;
  if negb (continuation b0) then mret None
  else
    let ch := Z.lor (Z.shiftl (Z.land ch 0x1F) 6) (Z.land b0 0x3F) in
    advance 1 ;; sequence ch 0x80.
Definition get3 (ch : Z) : P (option Z) :=
  b0 ← peek 0;
  if negb (continuation b0) then mret None
  else
    b1 ← peek 1;
    if negb (continuation b1) then mret None
    else
      let ch := Z.lor (Z.shiftl (Z.lor (Z.shiftl (Z.land ch 0x0F) 6) (Z.land b0 0x3F)) 6) (Z.land b1 0x3F) in
      advance 2 ;; sequence ch 0x800.
Definition get4 (ch : Z) : P (option Z) :=
  b0 ← peek 0;
  if negb (continuation b0) then mret None
  else
    b1 ← peek 1;
    if negb (continuation b1) then mret None
    else
      b2 ← peek 2;
      if negb (continuation b2) then mret None
      else
        let ch := Z.lor (Z.shiftl (Z.lor (Z.shiftl (Z.lor (Z.shiftl (Z.land ch 0x07) 6) (Z.land b0 0x3F)) 6)
                                    (Z.land b1 0x3F)) 6) (Z.land b2 0x3F) in
        advance 3 ;; sequence ch 0x10000.

(** The second word of a UTF-16 pair, and the character of both. *)
Definition surrogate (ch lch : Z) : Z :=
  if (lch <? 0xDC00) || (0xDFFF <=? lch) then EOF
  else Z.lor (Z.shiftl (Z.land ch 0x3FF) 10) (Z.land lch 0x3FF) + 0x10000.
Definition high_surrogate (ch : Z) : bool := (0xD800 <=? ch) && (ch <=? 0xDBFF).

Definition get_utf16be (ch : Z) : P Z :=
  b0 ← peek 0;
  let ch := Z.lor (Z.shiftl ch 8) b0 in
  advance 1 ;;
  if mxml_bad_char ch then perror (bad_control ch) ;; mret EOF
  else if high_surrogate ch then
    b0 ← peek 0;
    if b0 =? 0 then mret EOF
    else
      b1 ← peek 1;
      advance 2 ;; mret (surrogate ch (Z.lor (Z.shiftl b0 8) b1))
  else mret ch.
(** [back] is the reader before the first byte was taken. *)
Definition get_utf16le (back : rd) (ch : Z) : P Z :=
  b0 ← peek 0;
  let ch := Z.lor ch (Z.shiftl b0 8) in
  if ch =? 0 then put_reader back ;; mret EOF
  else
    advance 1 ;;
    if mxml_bad_char ch then perror (bad_control ch) ;; mret EOF
    else if high_surrogate ch then
      b1 ← peek 1;
      if b1 =? 0 then mret EOF
      else
        b0 ← peek 0;
        advance 2 ;; mret (surrogate ch (Z.lor (Z.shiftl b1 8) b0))
    else mret ch.

Fixpoint string_getc (fuel : nat) : P Z :=
  match fuel with
  | O => no_fuel
  | S fuel =>
      ch ← peek 0;
      enc ← encoding;
      back ← reader;
      if (ch =? 0) && negb (bool_decide (enc = ENCODE_UTF16LE)) then mret EOF
      else
        advance 1 ;;
        match enc with
        | ENCODE_UTF8 =>
            if Z.land ch 0x80 =? 0 then
              if mxml_bad_char ch then perror (bad_control ch) ;; mret EOF else mret ch
            else if ch =? 0xFE then
              b ← peek 0;
              if negb (b =? 0xFF) then mret EOF
              else set_encoding ENCODE_UTF16BE ;; advance 1 ;; string_getc fuel
            else if ch =? 0xFF then
              b ← peek 0;
              if negb (b =? 0xFE) then mret EOF
              else set_encoding ENCODE_UTF16LE ;; advance 1 ;; string_getc fuel
            else if Z.land ch 0xE0 =? 0xC0 then
              o ← get2 ch; mret (default EOF o)
            else if Z.land ch 0xF0 =? 0xE0 then
              o ← get3 ch;
              match o with
              | Some v => if v =? 0xFEFF then string_getc fuel else mret v
              | None => mret EOF
              end
            else if Z.land ch 0xF8 =? 0xF0 then
              o ← get4 ch; mret (default EOF o)
            else mret EOF
        | ENCODE_UTF16BE => get_utf16be ch
        | ENCODE_UTF16LE => get_utf16le back ch
        end
  end.
Definition mxml_string_getc : P Z := with_fuel string_getc.

(** ** Buffers *)

(** The characters in a buffer and its size. *)
Record buf := mkBuf { b_chars : bytes; b_size : Z }.
Definition new_buf (l : bytes) : buf := mkBuf l 64.

Definition utf8 (ch : Z) : bytes :=
  if ch <? 0x80 then [u8 ch]
  else if ch <? 0x800 then [u8 (Z.lor 0xC0 (Z.shiftr ch 6)); u8 (Z.lor 0x80 (Z.land ch 0x3F))]
  else if ch <? 0x10000 then
    [u8 (Z.lor 0xE0 (Z.shiftr ch 12)); u8 (Z.lor 0x80 (Z.land (Z.shiftr ch 6) 0x3F)); u8 (Z.lor 0x80 (Z.land ch 0x3F))]
  else
    [u8 (Z.lor 0xF0 (Z.shiftr ch 18)); u8 (Z.lor 0x80 (Z.land (Z.shiftr ch 12) 0x3F));
     u8 (Z.lor 0x80 (Z.land (Z.shiftr ch 6) 0x3F)); u8 (Z.lor 0x80 (Z.land ch 0x3F))].

Definition to_dec (v : Z) : bytes := fmt_dec false 0 v.

Section load.
Context (oom : nat -> bool).

(** [None] when the buffer cannot grow; it is freed then. *)
Definition mxml_add_char (ch : Z) (b : buf) : X (option buf) :=
  if b_size b - 4 <=? Z.of_nat (length (b_chars b)) then
    let size := if b_size b <? 1024 then b_size b * 2 else b_size b + 1024 in
    room ← malloc oom;
    match room with
    | None => mxml_error (b# "Unable to expand string buffer to " ++ to_dec size ++ b# " bytes!") ;; mret None
    | Some _ => mret (Some (mkBuf (b_chars b ++ utf8 ch) size))
    end
  else mret (Some (mkBuf (b_chars b ++ utf8 ch) (b_size b))).
(** Every caller goes on to its error exit, which frees the buffer a second
    time. *)
Definition add_char (ch : Z) (b : buf) : P buf :=
  o ← onX (mxml_add_char ch b); match o with Some b => mret b | None => pcrash end.

(** ** Entities *)

(** [node->value.element.name]; in a text node the whitespace flag is where an
    element has its name. *)
Definition elem_name (p : nat) : X (option bytes) :=
  n ← node p;
  match n_value n with
  | VElement name _ => mret name
  | VOpaque s => mret s
  | VText ws _ => if ws =? 0 then mret None else xcrash
  | _ => xcrash
  end.
Definition parent_name (parent : ptr) : P bytes :=
  match parent with Some p => s ← onX (elem_name p); mret (or_null s) | None => mret (b# "null") end.

Definition isalnum (c : Z) : bool :=
  ((48 <=? c) && (c <=? 57)) || ((65 <=? c) && (c <=? 90)) || ((97 <=? c) && (c <=? 122)).

(** The characters of the entity's name, and the one behind them. *)
Fixpoint entity_chars (fuel : nat) (parent : ptr) (entity : bytes) : P (Z * bytes) :=
  match fuel with
  | O => no_fuel
  | S fuel =>
      ch ← mxml_string_getc;
      if ch =? EOF then mret (ch, entity)
      else if (126 <? ch) || (negb (isalnum ch) && negb (ch =? 35)) then mret (ch, entity)
      else if Nat.ltb (length entity) 63 then entity_chars fuel parent (entity ++ [ch])
      else
        nm ← parent_name parent;
        perror (b# "Entity name too long under parent <" ++ nm ++ b# ">!") ;; mret (ch, entity)
  end.

(** [entity[0] == '#'] and what follows; there is no sign or space in it. *)
Definition entity_value (entity : bytes) : option Z :=
  match entity with
  | 35 :: 120 :: s => Some (s32 (strtol s 16))
  | 35 :: s => Some (s32 (strtol s 10))
  | _ => None
  end.

Definition mxml_get_entity (parent : ptr) : P Z :=
  r ← with_fuel (fun fuel => entity_chars fuel parent []);
  let '(ch, entity) := r in
  nm ← parent_name parent;
  if negb (ch =? 59) then
    perror (b# "Character entity " ++ [34] ++ entity ++ [34] ++ b# " not terminated under parent <" ++ nm ++ b# ">!") ;; mret EOF
  else
    ch ← match entity_value entity with
         | Some v => mret v
         | None =>
             let v := mxmlEntityGetValue default_cbs entity in
             (if v <? 0 then
                perror (b# "Entity name " ++ [34] ++ entity ++ b# ";" ++ [34] ++ b# " not supported under parent <" ++ nm ++ b# ">!")
              else mret tt) ;; mret v
         end;
    if mxml_bad_char ch then
      perror (b# "Bad control character 0x" ++ hex_text 2 ch ++ b# " under parent <" ++ nm ++ b# "> not allowed by XML standard!") ;;
      mret EOF
    else mret ch.

(** ** mxml_parse_element *)

(** [if(ch == '&') ch = mxml_get_entity()], [None] for the error exit. *)
Definition plain_or_entity (parent : ptr) (ch : Z) : P (option Z) :=
  if ch =? 38 then v ← mxml_get_entity parent; mret (if v =? EOF then None else Some v) else mret (Some ch).

(** The loops that read up to one of the characters [stop], with the character
    they end at. *)
Fixpoint gather (fuel : nat) (stop : Z -> bool) (nd : nat) (b : buf) : P (option (Z * buf)) :=
  match fuel with
  | O => no_fuel
  | S fuel =>
      ch ← mxml_string_getc;
      if ch =? EOF then mret (Some (ch, b))
      else if stop ch then mret (Some (ch, b))
      else
        o ← plain_or_entity (Some nd) ch;
        match o with
        | None => mret None
        | Some ch => b ← add_char ch b; gather fuel stop nd b
        end
  end.
(** The name in quotes; its closing quote, read or from an entity, belongs to
    it. *)
Fixpoint gather_quoted_name (fuel : nat) (quote : Z) (nd : nat) (b : buf) : P (option (Z * buf)) :=
  match fuel with
  | O => no_fuel
  | S fuel =>
      ch ← mxml_string_getc;
      if ch =? EOF then mret (Some (ch, b))
      else
        o ← plain_or_entity (Some nd) ch;
        match o with
        | None => mret None
        | Some ch => b ← add_char ch b; if ch =? quote then mret (Some (ch, b)) else gather_quoted_name fuel quote nd b
        end
  end.

(** [while(ch != EOF && mxml_isspace(ch)) ch = getc()]. *)
Fixpoint skip_ws (fuel : nat) (ch : Z) : P Z :=
  match fuel with
  | O => no_fuel
  | S fuel => if negb (ch =? EOF) && mxml_isspace ch then ch ← mxml_string_getc; skip_ws fuel ch else mret ch
  end.

(** [/] or [?] was read: [>] has to follow. *)
Definition expect_gt (nd : nat) (ch : Z) : P bool :=
  quote ← mxml_string_getc;
  if quote =? 62 then mret true
  else
    nm ← onX (elem_name nd);
    perror (b# "Expected '>' after '" ++ [u8 ch] ++ b# "' for element " ++ or_null nm ++ b# ", but got '" ++ [u8 quote] ++ b# "'!") ;;
    mret false.
Definition missing_value (nd : nat) (name : bytes) : P unit :=
  nm ← onX (elem_name nd);
  perror (b# "Missing value for attribute '" ++ cstr name ++ b# "' in element " ++ or_null nm ++ b# "!").

Definition name_stop (ch : Z) : bool := mxml_isspace ch || (ch =? 61) || (ch =? 47) || (ch =? 62) || (ch =? 63).
Definition value_stop (ch : Z) : bool := mxml_isspace ch || (ch =? 61) || (ch =? 47) || (ch =? 62).

(** The name of an attribute that begins with [ch]; the buffer has [size]
    bytes. *)
Definition read_name (nd : nat) (ch size : Z) : P (option (Z * buf)) :=
  if (ch =? 34) || (ch =? 39) then with_fuel (fun fuel => gather_quoted_name fuel ch nd (mkBuf [u8 ch] size))
  else with_fuel (fun fuel => gather fuel name_stop nd (mkBuf [u8 ch] size)).
(** Its value, with the character behind it. *)
Definition read_value (nd : nat) (ch size : Z) : P (option (Z * buf)) :=
  if (ch =? 39) || (ch =? 34) then with_fuel (fun fuel => gather fuel (Z.eqb ch) nd (mkBuf [] size))
  else with_fuel (fun fuel => gather fuel value_stop nd (mkBuf [u8 ch] size)).

(** One attribute, from the first character [ch] of its name: the character
    behind it and the sizes of both buffers, or [None] for the error exit. *)
Definition read_attr (nd : nat) (ch : Z) (sizes : Z * Z) : P (option (Z * (Z * Z))) :=
  o ← read_name nd ch sizes.1;
  match o with
  | None => mret None
  | Some (ch, name) =>
      old ← onX (mxmlElementGetAttr (Some nd) (Some (b_chars name)));
      match old with
      | Some _ => mret None
      | None =>
          ch ← with_fuel (fun fuel => skip_ws fuel ch);
          if ch =? 61 then
            ch ← mxml_string_getc;
            ch ← with_fuel (fun fuel => skip_ws fuel ch);
            if ch =? EOF then missing_value nd (b_chars name) ;; mret None
            else
              o ← read_value nd ch sizes.2;
              match o with
              | None => mret None
              | Some (ch, value) =>
                  onX (mxmlElementSetAttr oom (Some nd) (Some (b_chars name)) (Some (b_chars value))) ;;
                  mret (Some (ch, (b_size name, b_size value)))
              end
          else missing_value nd (b_chars name) ;; mret None
      end
  end.

Fixpoint parse_attrs (fuel : nat) (nd : nat) (sizes : Z * Z) : P Z :=
  match fuel with
  | O => no_fuel
  | S fuel =>
      ch ← mxml_string_getc;
      if ch =? EOF then mret EOF
      else if mxml_isspace ch then parse_attrs fuel nd sizes
      else if (ch =? 47) || (ch =? 63) then
        ok ← expect_gt nd ch; mret (if ok : bool then ch else EOF)
      else if ch =? 60 then
        nm ← onX (elem_name nd);
        perror (b# "Bare < in element " ++ or_null nm ++ b# "!") ;; mret EOF
      else if ch =? 62 then mret ch
      else
        o ← read_attr nd ch sizes;
        match o with
        | None => mret EOF
        | Some (ch, sizes) =>
            if (ch =? 47) || (ch =? 63) then
              ok ← expect_gt nd ch; mret (if ok : bool then ch else EOF)
            else if ch =? 62 then mret ch
            else parse_attrs fuel nd sizes
        end
  end.

Definition mxml_parse_element (nd : nat) : P Z :=
  name ← onX (malloc oom);
  match name with
  | None => perror (b# "Unable to allocate memory for name!") ;; mret EOF
  | Some _ =>
      value ← onX (malloc oom);
      match value with
      | None => perror (b# "Unable to allocate memory for value!") ;; mret EOF
      | Some _ => with_fuel (fun fuel => parse_attrs fuel nd (64, 64))
      end
  end.

(** ** mxml_load_data *)

(** The local variables of the loop. *)
Record lstate := mkL { l_first : ptr; l_parent : ptr; l_ws : bool; l_buf : buf }.
Definition set_first (q : ptr) (st : lstate) : lstate := mkL q (l_parent st) (l_ws st) (l_buf st).
Definition set_lparent (q : ptr) (st : lstate) : lstate := mkL (l_first st) q (l_ws st) (l_buf st).
Definition set_ws (w : bool) (st : lstate) : lstate := mkL (l_first st) (l_parent st) w (l_buf st).
Definition set_buf (b : buf) (st : lstate) : lstate := mkL (l_first st) (l_parent st) (l_ws st) b.
(** [bufptr = buffer]. *)
Definition rewind (st : lstate) : lstate := set_buf (mkBuf [] (b_size (l_buf st))) st.
(** [if(!first && node) first = node]. *)
Definition note_first (q : ptr) (st : lstate) : lstate := match l_first st with None => set_first q st | Some _ => st end.
Definition b2z (b : bool) : Z := if b then 1 else 0.

(** How a part of the loop's body ends. *)
Inductive flow := Go (st : lstate) | Break (st : lstate) | Error (st : lstate).

(** A value node for the text gathered so far; [ch] comes behind it. *)
Definition add_text (ch : Z) (st : lstate) : P flow :=
  q ← onX (mxmlNewText oom (l_parent st) (b2z (l_ws st)) (Some (b_chars (l_buf st))));
  let st := set_ws (mxml_isspace ch) (rewind st) in
  match q with
  | None =>
      nm ← parent_name (l_parent st);
      perror (b# "Unable to add value node of type MXML_TEXT to parent <" ++ nm ++ b# ">!") ;; mret (Error st)
  | Some _ => mret (Go (note_first q st))
  end.
(** A node for white space alone, in front of a tag. *)
Definition add_space (st : lstate) : P lstate :=
  match l_parent st with
  | Some _ => q ← onX (mxmlNewText oom (l_parent st) (b2z (l_ws st)) (Some [])); mret (set_ws false (note_first q st))
  | None => mret (set_ws false st)
  end.

Definition special_start (s : bytes) : bool :=
  bool_decide (s = b# "?") || bool_decide (s = b# "!--") || bool_decide (s = b# "![CDATA[").
(** What stands behind [<], with the character behind it. *)
Fixpoint gather_tag (fuel : nat) (parent : ptr) (b : buf) : P (option (Z * buf)) :=
  match fuel with
  | O => no_fuel
  | S fuel =>
      ch ← mxml_string_getc;
      if ch =? EOF then mret (Some (ch, b))
      else if mxml_isspace ch || (ch =? 62) || ((ch =? 47) && Nat.ltb 0 (length (b_chars b))) then mret (Some (ch, b))
      else if ch =? 60 then perror (b# "Bare < in element!") ;; mret None
      else if ch =? 38 then
        v ← mxml_get_entity parent;
        if v =? EOF then mret None else b ← add_char v b; gather_tag fuel parent b
      else
        b ← add_char ch b;
        if special_start (b_chars b) then mret (Some (ch, b)) else gather_tag fuel parent b
  end.
(** The loops up to the [>] of a comment, a CDATA section or a processing
    instruction: [ends] looks at what is in the buffer. *)
Fixpoint gather_special (fuel : nat) (ends : bytes -> bool) (b : buf) : P (Z * buf) :=
  match fuel with
  | O => no_fuel
  | S fuel =>
      ch ← mxml_string_getc;
      if ch =? EOF then mret (ch, b)
      else if (ch =? 62) && ends (b_chars b) then mret (ch, b)
      else b ← add_char ch b; gather_special fuel ends b
  end.
(** The last three characters. *)
Definition last3 (s : bytes) : bytes := drop (length s - 3) s.
Definition last2 (s : bytes) : bytes := drop (length s - 2) s.
Definition comment_end (s : bytes) : bool :=
  Nat.ltb 4 (length s) && match last3 s with [a; b; c] => negb (a =? 45) && (b =? 45) && (c =? 45) | _ => false end.
Definition cdata_end (s : bytes) : bool := bool_decide (last2 s = b# "]]").
Definition pi_end (s : bytes) : bool := match last s with Some c => c =? 63 | None => false end.
(** The loop of a declaration, entered with the character [ch]. *)
Fixpoint gather_decl (fuel : nat) (parent : ptr) (ch : Z) (b : buf) : P (option (Z * buf)) :=
  match fuel with
  | O => no_fuel
  | S fuel =>
      if ch =? 62 then mret (Some (ch, b))
      else
        o ← plain_or_entity parent ch;
        match o with
        | None => mret None
        | Some ch =>
            b ← add_char ch b;
            ch ← mxml_string_getc;
            if ch =? EOF then mret (Some (ch, b)) else gather_decl fuel parent ch b
        end
  end.

(** [!parent && first]: the error of a second root. *)
Definition second_root (st : lstate) : P bool :=
  match l_parent st, l_first st with
  | None, Some f =>
      nm ← onX (elem_name f);
      perror (b# "<" ++ b_chars (l_buf st) ++ b# "> cannot be a second root node after <" ++ or_null nm ++ b# ">") ;; mret true
  | _, _ => mret false
  end.
Definition unable_to_add (what : bytes) (st : lstate) : P unit :=
  nm ← parent_name (l_parent st);
  perror (b# "Unable to add " ++ what ++ b# " node to parent <" ++ nm ++ b# ">!").
(** The element for a special tag whose text is in the buffer: [opens] makes
    it the parent when there is none, [soft] leaves the loop without an error
    when there is no memory. *)
Definition add_special (what : bytes) (opens soft : bool) (st : lstate) : P flow :=
  again ← second_root st;
  if again : bool then mret (Error st)
  else
    q ← onX (mxmlNewElement oom (l_parent st) (Some (b_chars (l_buf st))));
    match q with
    | None => unable_to_add what st ;; mret (if soft then Break st else Error st)
    | Some _ =>
        let st := note_first q st in
        mret (Go (match l_parent st with None => if opens then set_lparent q st else st | Some _ => st end))
    end.
Definition early_eof (what : bytes) (st : lstate) : P flow :=
  perror (b# "Early EOF in " ++ what ++ b# " node!") ;; mret (Error st).

Definition special_tag (what : bytes) (ends : bytes -> bool) (opens soft : bool) (st : lstate) : P flow :=
  r ← with_fuel (fun fuel => gather_special fuel ends (l_buf st));
  let '(ch, b) := r in
  if negb (ch =? 62) then early_eof what (set_buf b st) else add_special what opens soft (set_buf b st).
Definition comment_tag (st : lstate) : P flow := special_tag (b# "comment") comment_end false true st.
Definition cdata_tag (st : lstate) : P flow := special_tag (b# "CDATA") cdata_end false false st.
Definition pi_tag (st : lstate) : P flow := special_tag (b# "processing instruction") pi_end true false st.
Definition decl_tag (ch : Z) (st : lstate) : P flow :=
  o ← with_fuel (fun fuel => gather_decl fuel (l_parent st) ch (l_buf st));
  match o with
  | None => mret (Error st)
  | Some (ch, b) =>
      if negb (ch =? 62) then early_eof (b# "declaration") (set_buf b st)
      else add_special (b# "declaration") true false (set_buf b st)
  end.

(** [while(ch != '>' && ch != EOF) ch = getc()]. *)
Fixpoint skip_to_gt (fuel : nat) (ch : Z) : P unit :=
  match fuel with
  | O => no_fuel
  | S fuel => if negb (ch =? 62) && negb (ch =? EOF) then ch ← mxml_string_getc; skip_to_gt fuel ch else mret tt
  end.
Definition mismatch (st : lstate) : P flow :=
  nm ← match l_parent st with Some p => s ← onX (elem_name p); mret (or_null s) | None => mret (b# "(null)") end;
  perror (b# "Mismatched close tag <" ++ b_chars (l_buf st) ++ b# "> under parent <" ++ nm ++ b# ">!") ;; mret (Error st).
Definition close_tag (ch : Z) (st : lstate) : P flow :=
  match l_parent st with
  | None => mismatch st
  | Some p =>
      nm ← onX (elem_name p);
      match nm with
      | None => pcrash
      | Some nm =>
          if negb (strcmp (drop 1 (b_chars (l_buf st))) nm =? 0) then mismatch st
          else
            with_fuel (fun fuel => skip_to_gt fuel ch) ;;
            n ← onX (node p);
            mret (Go (set_lparent (n_parent n) st))
      end
  end.

Definition open_tag (ch : Z) (st : lstate) : P flow :=
  again ← second_root st;
  if again : bool then mret (Error st)
  else
    q ← onX (mxmlNewElement oom (l_parent st) (Some (b_chars (l_buf st))));
    match q with
    | None => unable_to_add (b# "element") st ;; mret (Error st)
    | Some p =>
        o ← (if mxml_isspace ch then
               ch ← mxml_parse_element p; mret (if ch =? EOF then None else Some ch)
             else if ch =? 47 then
               ch ← mxml_string_getc;
               if negb (ch =? 62) then
                 perror (b# "Expected > but got '" ++ [u8 ch] ++ b# "' instead for element <" ++ b_chars (l_buf st) ++ b# "/>!") ;;
                 onX (mxmlDelete (Some p)) ;; mret None
               else mret (Some 47)
             else mret (Some ch));
        match o with
        | None => mret (Error st)
        | Some ch =>
            let st := note_first q st in
            mret (if ch =? EOF then Break st else if negb (ch =? 47) then Go (set_lparent q st) else Go st)
        end
    end.

(** A tag, behind its [<]. *)
Definition tag (st : lstate) : P flow :=
  o ← with_fuel (fun fuel => gather_tag fuel (l_parent st) (mkBuf [] (b_size (l_buf st))));
  match o with
  | None => mret (Error st)
  | Some (ch, b) =>
      let st := set_buf b st in
      f ← (if bool_decide (b_chars b = b# "!--") then comment_tag st
           else if bool_decide (b_chars b = b# "![CDATA[") then cdata_tag st
           else match b_chars b with
                | 63 :: _ => pi_tag st
                | 33 :: _ => decl_tag ch st
                | 47 :: _ => close_tag ch st
                | _ => open_tag ch st
                end);
      mret (match f with Go st => Go (rewind st) | f => f end)
  end.

(** The body of the loop, for the character [ch]. *)
Definition load_round (ch : Z) (st : lstate) : P flow :=
  f ← (if ((ch =? 60) || mxml_isspace ch) && Nat.ltb 0 (length (b_chars (l_buf st))) then add_text ch st
       else mret (Go (if mxml_isspace ch then set_ws true st else st)));
  match f with
  | Go st =>
      st ← (if (ch =? 60) && l_ws st then add_space st else mret st);
      if ch =? 60 then tag st
      else if ch =? 38 then
        v ← mxml_get_entity (l_parent st);
        if v =? EOF then mret (Error st) else b ← add_char v (l_buf st); mret (Go (set_buf b st))
      else if negb (mxml_isspace ch) then b ← add_char ch (l_buf st); mret (Go (set_buf b st))
      else mret (Go st)
  | f => mret f
  end.

Fixpoint load_loop (fuel : nat) (st : lstate) : P (bool * lstate) :=
  match fuel with
  | O => no_fuel
  | S fuel =>
      ch ← mxml_string_getc;
      if ch =? EOF then mret (true, st)
      else
        f ← load_round ch st;
        match f with
        | Go st => load_loop fuel st
        | Break st => mret (true, st)
        | Error st => mret (false, st)
        end
  end.

(** [while(parent->parent != top && parent->parent) parent = parent->parent]. *)
Fixpoint find_top (fuel : nat) (top : ptr) (p : nat) : X nat :=
  match fuel with
  | O => fun _ => NoFuel
  | S fuel =>
      n ← node p;
      match n_parent n with
      | Some q => if decide (top = Some q) then mret p else find_top fuel top q
      | None => mret p
      end
  end.

Definition missing_close (nd : nat) : X unit :=
  nm ← elem_name nd;
  n ← node nd;
  pn ← match n_parent n with Some q => elem_name q | None => mret None end;
  mxml_error (b# "Missing close tag </" ++ or_null nm ++ b# "> under parent <" ++ or_null pn ++ b# ">!").

Definition finish_load (top : ptr) (st : lstate) : X ptr :=
  match l_parent st with
  | Some nd =>
      p ← (fun x => find_top (S (base.size (x_heap x))) top nd x);
      if decide (nd = p) then mret (Some p)
      else missing_close nd ;; mxmlDelete (l_first st) ;; mret None
  | None => mret (l_first st)
  end.

Definition mxml_load_data (top : ptr) : P ptr :=
  room ← onX (malloc oom);
  match room with
  | None => perror (b# "Unable to allocate string buffer!") ;; mret None
  | Some _ =>
      r ← with_fuel (fun fuel => load_loop fuel (mkL None top false (new_buf [])));
      let '(done, st) := r in
      if done : bool then onX (finish_load top st)
      else onX (mxmlDelete (l_first st)) ;; mret None
  end.

(** The string is a C string: the memory behind [s] begins with a NUL. *)
Definition mxmlLoadString (top : ptr) (s : bytes) : X ptr :=
  fun x => match mxml_load_data top (mkRd (s ++ [0]) ENCODE_UTF8) x with
           | Ret (p, _, x') => Ret (p, x')
           | Crash => Crash
           | NoFuel => NoFuel
           end.
End load.
