(* ===== verification/MxmlText.v ===== *)
(** * MxmlText: characters, names and entities of XML text

    How the reader of MxmlLoad takes characters, runs of characters and
    entities from text: what is read back is what was written, and nothing is
    left out or added. *)

From S2P Require Import Prelude Words Stream CStr NumFmt Strtol MxmlNode MxmlTree MxmlEntity MxmlLoad MxmlBuild.

(** ** Running the reader *)

Lemma pbind_eq {A B} (m : P A) (k : A -> P B) r x a r' x' : m r x = Ret (a, r', x') -> (mbind k m) r x = k a r' x'.
Proof. unfold mbind, P_bind. by intros ->. Qed.
Lemma onX_eq {A} (m : X A) r x a x' : m x = Ret (a, x') -> onX m r x = Ret (a, r, x').
Proof. unfold onX. by intros ->. Qed.

(** A reader of UTF-8 in front of [s]. *)
Definition at_ (s : bytes) : rd := mkRd s ENCODE_UTF8.

(** ** UTF-8 *)

(** A character that XML text may contain, without the byte order mark. *)
Definition xchar (c : Z) : Prop := mxml_bad_char c = false /\ c < 0x200000 /\ c <> 0xFEFF.
#[export] Instance xchar_dec c : Decision (xchar c).
Proof. unfold xchar. apply _. Defined.

Lemma range_check (f : Z -> bool) n : forallb f (map Z.of_nat (seq 0 n)) = true -> forall k, 0 <= k < Z.of_nat n -> f k = true.
Proof.
  intros H k Hk. rewrite forallb_forall in H. apply H. rewrite in_map_iff. exists (Z.to_nat k). split; [lia|]. apply in_seq. lia.
Qed.

Lemma cont_byte k : 0 <= k < 64 -> let b := u8 (Z.lor 0x80 k) in continuation b = true /\ Z.land b 0x3F = k.
Proof.
  intros Hk. cbv zeta.
  pose proof (range_check (fun k => continuation (u8 (Z.lor 0x80 k)) && (Z.land (u8 (Z.lor 0x80 k)) 0x3F =? k)) 64 ltac:(vm_compute; reflexivity) k ltac:(lia)) as H.
  apply andb_true_iff in H as [H1 H2%Z.eqb_eq]. done.
Qed.
Lemma low6 c : 0 <= Z.land c 0x3F < 64.
Proof. change 0x3F with (Z.ones 6). rewrite Z.land_ones by lia. apply Z.mod_pos_bound. lia. Qed.
Lemma split6 c : 0 <= c -> c = Z.shiftr c 6 * 64 + Z.land c 0x3F.
Proof.
  intros Hc. change 0x3F with (Z.ones 6). rewrite Z.land_ones, Z.shiftr_div_pow2 by lia. change (2 ^ 6) with 64.
  pose proof (Z.div_mod c 64 ltac:(lia)). lia.
Qed.
Lemma join6 a b : 0 <= a -> 0 <= b < 64 -> Z.lor (Z.shiftl a 6) b = a * 64 + b.
Proof. intros Ha Hb. rewrite lor_shiftl_add by (change (2 ^ 6) with 64; lia). done. Qed.

Lemma lead2 k : 2 <= k < 32 -> let b := u8 (Z.lor 0xC0 k) in
  (b =? 0) = false /\ (Z.land b 0x80 =? 0) = false /\ (b =? 0xFE) = false /\ (b =? 0xFF) = false /\
  (Z.land b 0xE0 =? 0xC0) = true /\ Z.land b 0x1F = k.
Proof.
  intros Hk. cbv zeta.
  pose proof (range_check (fun k => let b := u8 (Z.lor 0xC0 k) in negb (b =? 0) && negb (Z.land b 0x80 =? 0) && negb (b =? 0xFE) && negb (b =? 0xFF) &&
    (Z.land b 0xE0 =? 0xC0) && (Z.land b 0x1F =? k)) 32 ltac:(vm_compute; reflexivity) k ltac:(lia)) as H. cbv zeta in H.
  rewrite !andb_true_iff, !negb_true_iff in H. destruct H as [[[[[? ?] ?] ?] ?] ?%Z.eqb_eq]. done.
Qed.
Lemma lead3 k : 0 <= k < 16 -> let b := u8 (Z.lor 0xE0 k) in
  (b =? 0) = false /\ (Z.land b 0x80 =? 0) = false /\ (b =? 0xFE) = false /\ (b =? 0xFF) = false /\
  (Z.land b 0xE0 =? 0xC0) = false /\ (Z.land b 0xF0 =? 0xE0) = true /\ Z.land b 0x0F = k.
Proof.
  intros Hk. cbv zeta.
  pose proof (range_check (fun k => let b := u8 (Z.lor 0xE0 k) in negb (b =? 0) && negb (Z.land b 0x80 =? 0) && negb (b =? 0xFE) && negb (b =? 0xFF) &&
    negb (Z.land b 0xE0 =? 0xC0) && (Z.land b 0xF0 =? 0xE0) && (Z.land b 0x0F =? k)) 16 ltac:(vm_compute; reflexivity) k ltac:(lia)) as H. cbv zeta in H.
  rewrite !andb_true_iff, !negb_true_iff in H. destruct H as [[[[[[? ?] ?] ?] ?] ?] ?%Z.eqb_eq]. done.
Qed.
Lemma lead4 k : 0 <= k < 8 -> let b := u8 (Z.lor 0xF0 k) in
  (b =? 0) = false /\ (Z.land b 0x80 =? 0) = false /\ (b =? 0xFE) = false /\ (b =? 0xFF) = false /\
  (Z.land b 0xE0 =? 0xC0) = false /\ (Z.land b 0xF0 =? 0xE0) = false /\ (Z.land b 0xF8 =? 0xF0) = true /\ Z.land b 0x07 = k.
Proof.
  intros Hk. cbv zeta.
  pose proof (range_check (fun k => let b := u8 (Z.lor 0xF0 k) in negb (b =? 0) && negb (Z.land b 0x80 =? 0) && negb (b =? 0xFE) && negb (b =? 0xFF) &&
    negb (Z.land b 0xE0 =? 0xC0) && negb (Z.land b 0xF0 =? 0xE0) && (Z.land b 0xF8 =? 0xF0) && (Z.land b 0x07 =? k)) 8 ltac:(vm_compute; reflexivity) k ltac:(lia)) as H. cbv zeta in H.
  rewrite !andb_true_iff, !negb_true_iff in H. destruct H as [[[[[[[? ?] ?] ?] ?] ?] ?] ?%Z.eqb_eq]. done.
Qed.
Lemma ascii_char c : 0 <= c < 128 -> mxml_bad_char c = false -> u8 c = c /\ (c =? 0) = false /\ (Z.land c 0x80 =? 0) = true.
Proof.
  intros Hc Hb. split; [unfold u8; rewrite Z.mod_small; lia|].
  pose proof (range_check (fun c => mxml_bad_char c || (negb (c =? 0) && (Z.land c 0x80 =? 0))) 128 ltac:(vm_compute; reflexivity) c ltac:(lia)) as H.
  cbv beta in H. rewrite Hb in H. cbn [orb] in H. by rewrite andb_true_iff, negb_true_iff in H.
Qed.

Lemma get2_run b0 l s x c : 0x80 <= c -> (continuation b0 = true) -> Z.lor (Z.shiftl (Z.land l 0x1F) 6) (Z.land b0 0x3F) = c ->
  get2 l (at_ (b0 :: s)) x = Ret (Some c, at_ s, x).
Proof.
  intros Hc Hb E. unfold get2, mbind, P_bind. cbn [peek at_ rd_mem lookup list_lookup]. rewrite Hb. cbn [negb].
  cbn [advance rd_mem rd_enc drop]. unfold sequence. rewrite E. destruct (Z.ltb_spec c 0x80); [lia|done].
Qed.
Lemma get3_run b0 b1 l s x c : 0x800 <= c -> (continuation b0 = true) -> (continuation b1 = true) ->
  Z.lor (Z.shiftl (Z.lor (Z.shiftl (Z.land l 0x0F) 6) (Z.land b0 0x3F)) 6) (Z.land b1 0x3F) = c ->
  get3 l (at_ (b0 :: b1 :: s)) x = Ret (Some c, at_ s, x).
Proof.
  intros Hc Hb Hb1 E. unfold get3, mbind, P_bind. cbn [peek at_ rd_mem lookup list_lookup]. rewrite Hb. cbn [negb peek at_ rd_mem lookup list_lookup].
  rewrite Hb1. cbn [negb].
  cbn [advance rd_mem rd_enc drop]. unfold sequence. rewrite E. destruct (Z.ltb_spec c 0x800); [lia|done].
Qed.
Lemma get4_run b0 b1 b2 l s x c : 0x10000 <= c -> (continuation b0 = true) -> (continuation b1 = true) -> (continuation b2 = true) ->
  Z.lor (Z.shiftl (Z.lor (Z.shiftl (Z.lor (Z.shiftl (Z.land l 0x07) 6) (Z.land b0 0x3F)) 6) (Z.land b1 0x3F)) 6) (Z.land b2 0x3F) = c ->
  get4 l (at_ (b0 :: b1 :: b2 :: s)) x = Ret (Some c, at_ s, x).
Proof.
  intros Hc Hb Hb1 Hb2 E. unfold get4, mbind, P_bind. cbn [peek at_ rd_mem lookup list_lookup]. rewrite Hb. cbn [negb peek at_ rd_mem lookup list_lookup].
  rewrite Hb1. cbn [negb peek at_ rd_mem lookup list_lookup]. rewrite Hb2. cbn [negb].
  cbn [advance rd_mem rd_enc drop]. unfold sequence. rewrite E. destruct (Z.ltb_spec c 0x10000); [lia|done].
Qed.

(** The reader decodes what the writer of characters encodes: a character
    that is allowed in XML text, in the UTF-8 form that [mxml_add_char] gives it,
    is read as that character, and the reader stands behind it. *)
Lemma getc_utf8 c s x : xchar c -> s <> [] -> mxml_string_getc (at_ (utf8 c ++ s)) x = Ret (c, at_ s, x).
Proof.
  intros (Hb & Hmax & Hbom) Hs.
  assert (9 <= c) as H9. { unfold mxml_bad_char in Hb. repeat btest; cbn in Hb; try done; lia. }
  unfold mxml_string_getc, with_fuel. cbn [rd_mem at_]. cbn [string_getc]. unfold utf8.
  destruct (Z.ltb_spec c 0x80) as [H1|H1]; [|destruct (Z.ltb_spec c 0x800) as [H2|H2]; [|destruct (Z.ltb_spec c 0x10000) as [H3|H3]]].
  - destruct (ascii_char c ltac:(lia) Hb) as (E1 & E2 & E3). rewrite E1. unfold mbind, P_bind. cbn [peek rd_mem app lookup list_lookup at_ encoding reader rd_enc].
    rewrite E2. cbn [andb advance drop rd_mem rd_enc]. rewrite E3, Hb. done.
  - pose proof (split6 c ltac:(lia)) as Es. pose proof (low6 c) as Hl.
    destruct (lead2 (Z.shiftr c 6) ltac:(lia)) as (L1 & L2 & L3 & L4 & L5 & L6). destruct (cont_byte (Z.land c 0x3F) Hl) as [C1 C2].
    set (b := u8 (Z.lor 0xC0 (Z.shiftr c 6))) in *. set (b0 := u8 (Z.lor 0x80 (Z.land c 0x3F))) in *.
    unfold mbind at 1 2 3, P_bind at 1 2 3. cbn [peek rd_mem app lookup list_lookup at_ encoding reader rd_enc]. rewrite L1. cbn [andb].
    rewrite (pbind_eq (advance 1) _ _ x tt (at_ (b0 :: s)) x) by done. rewrite L2, L3, L4, L5.
    rewrite (pbind_eq _ _ _ _ _ _ _ (get2_run b0 b s x c H1 C1 ltac:(rewrite L6, C2, join6; lia))). done.
  - pose proof (split6 c ltac:(lia)) as Es. pose proof (low6 c) as Hl.
    pose proof (split6 (Z.shiftr c 6) ltac:(lia)) as Es1. pose proof (low6 (Z.shiftr c 6)) as Hl1.
    rewrite Z.shiftr_shiftr in Es1 by lia. change (Z.shiftr c (6 + 6)) with (Z.shiftr c 12) in Es1.
    destruct (lead3 (Z.shiftr c 12) ltac:(lia)) as (L1 & L2 & L3 & L4 & L5 & L6 & L7).
    destruct (cont_byte _ Hl) as [C1 C2]. destruct (cont_byte _ Hl1) as [D1 D2].
    set (b := u8 (Z.lor 0xE0 (Z.shiftr c 12))) in *. set (b0 := u8 (Z.lor 0x80 (Z.land (Z.shiftr c 6) 0x3F))) in *.
    set (b1 := u8 (Z.lor 0x80 (Z.land c 0x3F))) in *.
    unfold mbind at 1 2 3, P_bind at 1 2 3. cbn [peek rd_mem app lookup list_lookup at_ encoding reader rd_enc]. rewrite L1. cbn [andb].
    rewrite (pbind_eq (advance 1) _ _ x tt (at_ (b0 :: b1 :: s)) x) by done. rewrite L2, L3, L4, L5, L6.
    rewrite (pbind_eq _ _ _ _ _ _ _ (get3_run b0 b1 b s x c H2 D1 C1 ltac:(rewrite L7, C2, D2; rewrite (join6 (Z.shiftr c 12)) by lia; rewrite join6 by lia; lia))).
    destruct (Z.eqb_spec c 0xFEFF); [lia|done].
  - pose proof (split6 c ltac:(lia)) as Es. pose proof (low6 c) as Hl.
    pose proof (split6 (Z.shiftr c 6) ltac:(lia)) as Es1. pose proof (low6 (Z.shiftr c 6)) as Hl1.
    rewrite Z.shiftr_shiftr in Es1 by lia. change (Z.shiftr c (6 + 6)) with (Z.shiftr c 12) in Es1.
    pose proof (split6 (Z.shiftr c 12) ltac:(lia)) as Es2. pose proof (low6 (Z.shiftr c 12)) as Hl2.
    rewrite Z.shiftr_shiftr in Es2 by lia. change (Z.shiftr c (12 + 6)) with (Z.shiftr c 18) in Es2.
    destruct (lead4 (Z.shiftr c 18) ltac:(lia)) as (L1 & L2 & L3 & L4 & L5 & L6 & L7 & L8).
    destruct (cont_byte _ Hl) as [C1 C2]. destruct (cont_byte _ Hl1) as [D1 D2]. destruct (cont_byte _ Hl2) as [F1 F2].
    set (b := u8 (Z.lor 0xF0 (Z.shiftr c 18))) in *. set (b0 := u8 (Z.lor 0x80 (Z.land (Z.shiftr c 12) 0x3F))) in *.
    set (b1 := u8 (Z.lor 0x80 (Z.land (Z.shiftr c 6) 0x3F))) in *. set (b2 := u8 (Z.lor 0x80 (Z.land c 0x3F))) in *.
    unfold mbind at 1 2 3, P_bind at 1 2 3. cbn [peek rd_mem app lookup list_lookup at_ encoding reader rd_enc]. rewrite L1. cbn [andb].
    rewrite (pbind_eq (advance 1) _ _ x tt (at_ (b0 :: b1 :: b2 :: s)) x) by done. rewrite L2, L3, L4, L5, L6, L7.
    rewrite (pbind_eq _ _ _ _ _ _ _ (get4_run b0 b1 b2 b s x c H3 F1 D1 C1 ltac:(rewrite L8, C2, D2, F2; rewrite (join6 (Z.shiftr c 18)) by lia; rewrite <- Es2, (join6 (Z.shiftr c 12)) by lia; rewrite join6 by lia; lia))). done.
Qed.

(** ** Buffers and memory *)

(** Only memory was taken. *)
Record quiet (x x' : xml) : Prop := mkQuiet {
  qt_heap : x_heap x' = x_heap x; qt_log : x_log x' = x_log x; qt_count : (x_count x <= x_count x')%nat
}.
Lemma quiet_refl x : quiet x x.
Proof. by constructor. Qed.
Lemma quiet_trans x1 x2 x3 : quiet x1 x2 -> quiet x2 x3 -> quiet x1 x3.
Proof. intros [? ? ?] [? ? ?]. constructor; [congruence..|lia]. Qed.
Lemma quiet_val x x' p : quiet x x' -> val x' p = val x p.
Proof. intros [E _ _]. unfold val. by rewrite E. Qed.
Lemma quiet_tree x x' K : quiet x x' -> tree_ok x K -> tree_ok x' K.
Proof. intros [E _ Hc] [Hf Ha Hl]. constructor; rewrite ?E; [done..|]. intros p Hp. pose proof (Hl p Hp). lia. Qed.
#[global] Hint Resolve quiet_refl : blitz.

Section text.
Context (oom : nat -> bool) (Hoom : forall n, oom n = false).

Lemma add_char_run ch b r x : exists b' x', add_char oom ch b r x = Ret (b', r, x') /\ b_chars b' = b_chars b ++ utf8 ch /\ quiet x x'.
Proof.
  unfold add_char, mxml_add_char. unfold mbind at 1, P_bind at 1. destruct (b_size b - 4 <=? _).
  - rewrite (onX_eq _ r x (Some (mkBuf (b_chars b ++ utf8 ch) (if b_size b <? 1024 then b_size b * 2 else b_size b + 1024)))
      (mkXml (x_heap x) (S (x_count x)) (x_log x))); [|by rewrite (xbind_eq _ _ _ _ _ (malloc_run oom Hoom x))].
    eexists _, _. split; [done|]. split; [done|]. constructor; cbn; [done..|lia].
  - eexists _, _. split; [done|]. split; [done|apply quiet_refl].
Qed.

(** ** Entities *)

(** The name of an entity that stands for [c]. *)
Definition ent_ok (name : bytes) (c : Z) : Prop :=
  Forall (fun ch => isalnum ch = true \/ ch = 35) name /\ (length name <= 63)%nat /\ mxml_bad_char c = false /\
  match entity_value name with Some v => v = c | None => mxmlEntityGetValue default_cbs name = c end.
#[export] Instance ent_ok_dec name c : Decision (ent_ok name c).
Proof. unfold ent_ok. destruct (entity_value name); apply _. Defined.

Lemma utf8_ascii c : 0 <= c < 128 -> utf8 c = [c].
Proof. intros Hc. unfold utf8. destruct (Z.ltb_spec c 0x80); [|lia]. unfold u8. by rewrite Z.mod_small by lia. Qed.
Lemma isalnum_char ch : isalnum ch = true \/ ch = 35 -> xchar ch /\ (ch =? EOF) = false /\ utf8 ch = [ch] /\
  ((126 <? ch) || (negb (isalnum ch) && negb (ch =? 35))) = false.
Proof.
  intros H. assert (0 <= ch < 127) as Hr.
  { destruct H as [H| ->]; [|lia]. unfold isalnum in H. rewrite !orb_true_iff, !andb_true_iff, !Z.leb_le in H. lia. }
  pose proof (range_check (fun ch => negb (isalnum ch || (ch =? 35)) || (negb (mxml_bad_char ch) &&
    negb ((126 <? ch) || (negb (isalnum ch) && negb (ch =? 35))))) 127 ltac:(vm_compute; reflexivity) ch ltac:(lia)) as Hc. cbv beta in Hc.
  assert (isalnum ch || (ch =? 35) = true) as E by (destruct H as [-> | ->]; [done|by rewrite orb_true_r]).
  rewrite E in Hc. cbn [negb orb] in Hc. rewrite !andb_true_iff, !negb_true_iff in Hc. destruct Hc as [? ?].
  split_and!; [unfold xchar; split_and!; [done|lia|lia]|unfold EOF; destruct (Z.eqb_spec ch (-1)); [lia|done]|apply utf8_ascii; lia|done].
Qed.

Lemma entity_chars_run name : Forall (fun ch => isalnum ch = true \/ ch = 35) name -> forall acc fuel parent s x,
  (length acc + length name <= 63)%nat -> (length name < fuel)%nat -> s <> [] ->
  entity_chars fuel parent acc (at_ (name ++ 59 :: s)) x = Ret ((59, acc ++ name), at_ s, x).
Proof.
  induction 1 as [|ch name Hch _ IH]; intros acc [|fuel] parent s x Hl Hf Hs; cbn [length] in *; try lia; cbn [entity_chars app].
  - rewrite (pbind_eq _ _ _ _ 59 (at_ s) x); [|apply (getc_utf8 59 s x); [|done]; by vm_compute]. by rewrite app_nil_r.
  - destruct (isalnum_char ch Hch) as (Hx & He & Hu & Hstop).
    rewrite (pbind_eq _ _ _ _ ch (at_ (name ++ 59 :: s)) x).
    2: { pose proof (getc_utf8 ch (name ++ 59 :: s) x Hx) as H. rewrite Hu in H. apply H. by destruct name. }
    rewrite He, Hstop. destruct (Nat.ltb_spec (length acc) 63); [|lia]. rewrite IH; [by rewrite <- app_assoc|rewrite length_app; cbn; lia|lia|done].
Qed.

(** An element, whose name the error messages need. *)
Definition is_elem (x : xml) (p : nat) : Prop := exists nm l, val x p = Some (VElement nm l).
Definition parent_elem (x : xml) (parent : ptr) : Prop := forall p, parent = Some p -> is_elem x p.
Lemma elem_name_run x p nm l : val x p = Some (VElement nm l) -> elem_name p x = Ret (nm, x).
Proof.
  intros Hv. destruct (live_val _ _ (val_live _ _ _ Hv)) as (n & Hn & E). rewrite Hv in E. injection E as E.
  unfold elem_name. rewrite (xbind_eq _ _ _ _ _ (node_run _ _ _ Hn)), <- E. done.
Qed.
Lemma parent_name_run x parent r : parent_elem x parent -> exists s, parent_name parent r x = Ret (s, r, x).
Proof.
  intros Hp. destruct parent as [p|]; [|by eexists]. destruct (Hp p eq_refl) as (nm & l & Hv). unfold parent_name.
  rewrite (pbind_eq _ _ _ _ _ _ _ (onX_eq _ r x _ _ (elem_name_run _ _ _ _ Hv))). by eexists.
Qed.
Lemma quiet_parent x x' parent : quiet x x' -> parent_elem x parent -> parent_elem x' parent.
Proof. intros Hq Hp p E. destruct (Hp p E) as (nm & l & Hv). exists nm, l. by rewrite (quiet_val _ _ _ Hq). Qed.

Lemma get_entity_run name c parent s x : ent_ok name c -> parent_elem x parent -> s <> [] ->
  mxml_get_entity parent (at_ (name ++ 59 :: s)) x = Ret (c, at_ s, x).
Proof.
  intros (Hn & Hl & Hb & Hv) Hp Hs. unfold mxml_get_entity.
  rewrite (pbind_eq _ _ _ _ (59, name) (at_ s) x).
  2: { unfold with_fuel. apply (entity_chars_run name Hn []); [cbn; lia|cbn; rewrite length_app; cbn; lia|done]. }
  destruct (parent_name_run x parent (at_ s) Hp) as [nm E]. rewrite (pbind_eq _ _ _ _ _ _ _ E). cbn [negb Z.eqb Pos.eqb].
  assert (0 <= c) as Hc. { unfold mxml_bad_char in Hb. repeat btest; cbn in Hb; try done; lia. }
  destruct (entity_value name) as [v|].
  - rewrite (pbind_eq _ _ _ _ v (at_ s) x) by done. subst v. by rewrite Hb.
  - rewrite (pbind_eq _ _ _ _ c (at_ s) x). { by rewrite Hb. }
    rewrite Hv. destruct (Z.ltb_spec c 0); [lia|]. done.
Qed.
End text.
