(* ===== verification/MxmlGrammar.v ===== *)
(** * MxmlGrammar: well-formed XML text and the tree it stands for

    The texts that the reader of MxmlLoad is meant for, with all their layout
    (white space, quotes, entities), as data: [text] spells a layout, [tree] is
    the tree it stands for, and the [_ok] functions say which layouts are well
    formed.  Element and attribute names are ASCII; values and words are any
    characters XML allows, plain or as entities. *)

From S2P Require Import Prelude Words Stream CStr MxmlNode MxmlEntity MxmlLoad MxmlText.

(** ** Characters *)

(** A character as it stands in the text, or as an entity. *)
Inductive item := Raw (c : Z) | Ent (name : bytes) (c : Z).
Definition item_text (i : item) : bytes := match i with Raw c => utf8 c | Ent name _ => 38 :: name ++ [59] end.
Definition item_char (i : item) : Z := match i with Raw c => c | Ent _ c => c end.
Definition items_text (l : list item) : bytes := concat (map item_text l).
(** What the items stand for, in UTF-8. *)
Definition chars (l : list item) : bytes := concat (map (fun i => utf8 (item_char i)) l).
Definition item_ok (stop : Z -> bool) (i : item) : bool :=
  match i with
  | Raw c => bool_decide (xchar c) && negb (c =? 38) && negb (stop c)
  | Ent name c => bool_decide (ent_ok name c)
  end.
Definition spaces (ws : bytes) : bool := forallb mxml_isspace ws.

(** The letters of names: no white space, no [=], [/], [>], [?], [&], [<] and
    quotes. *)
Definition name_char (c : Z) : bool :=
  (33 <=? c) && (c <? 127) && negb (name_stop c) && negb (c =? 38) && negb (c =? 60) && negb (c =? 34) && negb (c =? 39).
Definition name_ok (s : bytes) : bool := negb (bool_decide (s = [])) && forallb name_char s.
(** An element's name also does not begin with [!]. *)
Definition elem_ok (s : bytes) : bool := name_ok s && negb (bool_decide (head s = Some 33)).

(** ** Attributes *)

(** [before name ws1 = ws2 "value"]. *)
Record wattr := mkWA { wa_before : bytes; wa_name : bytes; wa_ws1 : bytes; wa_ws2 : bytes; wa_quote : Z; wa_value : list item }.
Definition attr_text (a : wattr) : bytes :=
  wa_before a ++ wa_name a ++ wa_ws1 a ++ 61 :: wa_ws2 a ++ wa_quote a :: items_text (wa_value a) ++ [wa_quote a].
Definition attrs_text (l : list wattr) : bytes := concat (map attr_text l).
Definition attr_of (a : wattr) : mxml_attr_t := mkAttr (wa_name a) (Some (chars (wa_value a))).
Definition attr_ok (a : wattr) : bool :=
  spaces (wa_before a) && name_ok (wa_name a) && spaces (wa_ws1 a) && spaces (wa_ws2 a) &&
  ((wa_quote a =? 34) || (wa_quote a =? 39)) && forallb (item_ok (Z.eqb (wa_quote a))) (wa_value a).
Definition attrs_ok (l : list wattr) : bool := forallb attr_ok l && bool_decide (NoDup (map wa_name l)).

(** What stands behind the name in an opening tag: attributes behind a first
    white space, and more white space. *)
Record whead := mkWH { wh_name : bytes; wh_attrs : option (Z * list wattr * bytes) }.
Definition head_text (h : whead) : bytes :=
  60 :: wh_name h ++ match wh_attrs h with Some (c, l, ws) => c :: attrs_text l ++ ws | None => [] end.
Definition head_attrs (h : whead) : list wattr := match wh_attrs h with Some (_, l, _) => l | None => [] end.
Definition head_ok (h : whead) : bool :=
  elem_ok (wh_name h) &&
  match wh_attrs h with Some (c, l, ws) => mxml_isspace c && attrs_ok l && spaces ws | None => true end.
Definition head_value (h : whead) : mxml_value_t := VElement (Some (wh_name h)) (map attr_of (head_attrs h)).

(** ** Comments, CDATA sections and processing instructions *)

Inductive special := SComment | SCdata | SPi.
Definition sp_start (k : special) : bytes := match k with SComment => b# "!--" | SCdata => b# "![CDATA[" | SPi => b# "?" end.
Definition sp_end (k : special) : bytes -> bool := match k with SComment => comment_end | SCdata => cdata_end | SPi => pi_end end.
(** The characters behind the start [b], the first [>] that ends the node is
    behind them all. *)
Fixpoint runs_to (ends : bytes -> bool) (b : bytes) (l : list Z) : bool :=
  match l with
  | [] => ends b
  | c :: l => bool_decide (xchar c) && negb ((c =? 62) && ends b) && runs_to ends (b ++ utf8 c) l
  end.
Definition utf8s (l : list Z) : bytes := concat (map utf8 l).
Definition special_name (k : special) (l : list Z) : bytes := sp_start k ++ utf8s l.
Definition special_text (k : special) (l : list Z) : bytes := 60 :: special_name k l ++ [62].
Definition special_ok (k : special) (l : list Z) : bool := runs_to (sp_end k) (sp_start k) l.
Definition special_value (k : special) (l : list Z) : mxml_value_t := VElement (Some (special_name k l)) [].

(** ** Nodes *)

Inductive wnode :=
  | WWord (l : list item)
  | WSpecial (k : special) (l : list Z)
  | WEmpty (h : whead)                                      (* <name ... /> *)
  | WElem (h : whead) (body : wkids) (ws close : bytes)     (* <name ...> body ws </name close> *)
with wkids :=
  | WNil
  | WCons (ws : bytes) (n : wnode) (rest : wkids).

Scheme wnode_mind := Induction for wnode Sort Prop
  with wkids_mind := Induction for wkids Sort Prop.
Combined Scheme wnode_wkids_ind from wnode_mind, wkids_mind.

Fixpoint text (n : wnode) : bytes :=
  match n with
  | WWord l => items_text l
  | WSpecial k l => special_text k l
  | WEmpty h => head_text h ++ [47; 62]
  | WElem h body ws close => head_text h ++ 62 :: kids_text body ++ ws ++ 60 :: 47 :: wh_name h ++ close ++ [62]
  end
with kids_text (ks : wkids) : bytes :=
  match ks with WNil => [] | WCons ws n rest => ws ++ text n ++ kids_text rest end.

(** A tree of nodes. *)
Inductive xnode := XNode (v : mxml_value_t) (kids : list xnode).

Definition some_ws (ws : bytes) : Z := b2z (Nat.ltb 0 (length ws)).
(** White space in front of a tag is a text node without text. *)
Definition space (ws : bytes) : list xnode := match ws with [] => [] | _ => [XNode (VText 1 (Some [])) []] end.
Fixpoint tree (ws : bytes) (n : wnode) : list xnode :=
  match n with
  | WWord l => [XNode (VText (some_ws ws) (Some (chars l))) []]
  | WSpecial k l => space ws ++ [XNode (special_value k l) []]
  | WEmpty h => space ws ++ [XNode (head_value h) []]
  | WElem h body ws' _ => space ws ++ [XNode (head_value h) (kids_tree body ++ space ws')]
  end
with kids_tree (ks : wkids) : list xnode :=
  match ks with WNil => [] | WCons ws n rest => tree ws n ++ kids_tree rest end.

(** A word ends at white space or a tag. *)
Definition word_stop (c : Z) : bool := mxml_isspace c || (c =? 60).
Definition word_ok (l : list item) : bool := negb (bool_decide (l = [])) && forallb (item_ok word_stop) l.
(** The text goes on with a word. *)
Definition starts_word (ks : wkids) : bool := match ks with WCons [] (WWord _) _ => true | _ => false end.
Definition is_word (n : wnode) : bool := match n with WWord _ => true | _ => false end.
Fixpoint node_ok (n : wnode) : bool :=
  match n with
  | WWord l => word_ok l
  | WSpecial k l => special_ok k l
  | WEmpty h => head_ok h
  | WElem h body ws close => head_ok h && kids_ok body && spaces ws && spaces close
  end
with kids_ok (ks : wkids) : bool :=
  match ks with
  | WNil => true
  | WCons ws n rest => spaces ws && node_ok n && kids_ok rest && negb (is_word n && starts_word rest)
  end.

(** ** Documents *)

(** A processing instruction such as [<?xml ... ?>] with everything that
    follows it, or a single element. *)
Inductive wdoc :=
  | DPi (ws : bytes) (pi : list Z) (body : wkids) (ws' : bytes)
  | DRoot (ws : bytes) (root : wnode) (ws' : bytes).
Definition doc_text (d : wdoc) : bytes :=
  match d with
  | DPi ws pi body ws' => ws ++ special_text SPi pi ++ kids_text body ++ ws'
  | DRoot ws root ws' => ws ++ text root ++ ws'
  end.
(** The last word of a document without a tag behind it is not stored. *)
Fixpoint ends_word (ks : wkids) : bool :=
  match ks with WNil => false | WCons _ n WNil => is_word n | WCons _ _ rest => ends_word rest end.
Definition is_elem_node (n : wnode) : bool := match n with WEmpty _ | WElem _ _ _ _ => true | _ => false end.
Definition doc_ok (d : wdoc) : bool :=
  match d with
  | DPi ws pi body ws' => spaces ws && special_ok SPi pi && kids_ok body && spaces ws' && negb (ends_word body)
  | DRoot ws root ws' => spaces ws && node_ok root && is_elem_node root && spaces ws'
  end.
Definition doc_tree (d : wdoc) : xnode :=
  match d with
  | DPi _ pi body _ => XNode (special_value SPi pi) (kids_tree body)
  | DRoot _ root _ => match root with
                      | WElem h body ws _ => XNode (head_value h) (kids_tree body ++ space ws)
                      | WEmpty h => XNode (head_value h) []
                      | _ => XNode VIgnore []
                      end
  end.
