(* ===== verification/MxmlParse.v ===== *)
(** * MxmlParse: the reader builds the tree of a well-formed text

    Running the reader of MxmlLoad on the layouts of MxmlGrammar: attributes,
    tags, words and whole documents. *)

From S2P Require Import Prelude Words Stream CStr OMap MxmlNode MxmlTree MxmlEntity MxmlLoad MxmlBuild MxmlText MxmlGrammar.

(** ** Characters *)

Lemma space_char c : mxml_isspace c = true -> xchar c /\ utf8 c = [c] /\ (c =? EOF) = false /\ 0 <= c < 128.
Proof.
  unfold mxml_isspace. rewrite !orb_true_iff, !Z.eqb_eq. intros [[[-> | ->]| ->]| ->]; by vm_compute.
Qed.
Lemma xchar_EOF c : xchar c -> (c =? EOF) = false.
Proof. intros (Hb & _ & _). unfold EOF. apply Z.eqb_neq. intros ->. done. Qed.
Lemma getc_ascii c s x : 0 <= c < 128 -> mxml_bad_char c = false -> s <> [] -> mxml_string_getc (at_ (c :: s)) x = Ret (c, at_ s, x).
Proof.
  intros Hc Hb Hs. pose proof (getc_utf8 c s x) as H. rewrite utf8_ascii in H by done. apply H; [|done]. unfold xchar. split_and!; [done|lia|lia].
Qed.
Lemma getc_space c s x : mxml_isspace c = true -> s <> [] -> mxml_string_getc (at_ (c :: s)) x = Ret (c, at_ s, x).
Proof. intros (Hx & Hu & _ & Hr)%space_char Hs. apply getc_ascii; [done|apply Hx|done]. Qed.
Lemma getc_eof x : mxml_string_getc (at_ [0]) x = Ret (EOF, at_ [0], x).
Proof. done. Qed.
Lemma app_nonnil {A} (l s : list A) : s <> [] -> l ++ s <> [].
Proof. by destruct l. Qed.
Lemma utf8_len c : (1 <= length (utf8 c))%nat.
Proof. unfold utf8. repeat btest; cbn; lia. Qed.
#[global] Hint Resolve app_nonnil : blitz.
(** Text to the right: [a :: b ++ c :: d]. *)
Ltac norm_app := repeat (progress (rewrite <- ?app_assoc; cbn [app])).
Ltac nonnil := first [done | apply app_nonnil; nonnil].

(** No NUL comes out of a character. *)
Lemma u8_lor_nz a k : 0 < Z.land a 255 -> u8 (Z.lor a k) <> 0.
Proof.
  intros Ha E. unfold u8 in E. change 256 with (2 ^ 8) in E. rewrite <- Z.land_ones in E by lia. change (Z.ones 8) with 255 in E.
  rewrite Z.land_lor_distr_l in E. apply Z.lor_eq_0_iff in E as [E _]. lia.
Qed.
Lemma utf8_nz c : mxml_bad_char c = false -> Forall (fun b => b <> 0) (utf8 c).
Proof.
  intros Hb. unfold utf8. assert (9 <= c). { unfold mxml_bad_char in Hb. repeat btest; cbn in Hb; try done; lia. }
  repeat btest; repeat constructor; try (by apply u8_lor_nz). unfold u8. rewrite Z.mod_small; lia.
Qed.
Lemma cstr_no_nul s : Forall (fun b => b <> 0) s -> cstr s = s.
Proof. induction 1 as [|b s Hb _ IH]; [done|]. cbn. destruct (Z.eqb_spec b 0); [done|]. by rewrite IH. Qed.
Lemma item_good stop i : item_ok stop i = true -> mxml_bad_char (item_char i) = false.
Proof.
  destruct i as [c|nm c]; cbn; [rewrite !andb_true_iff, bool_decide_eq_true; by intros [[[? _] _] _]|rewrite bool_decide_eq_true; by intros (_ & _ & ? & _)].
Qed.
Lemma chars_nz stop l : forallb (item_ok stop) l = true -> Forall (fun b => b <> 0) (chars l).
Proof.
  induction l as [|i l IH]; [constructor|]. cbn [forallb]. intros [Hi Hl]%andb_true_iff. apply Forall_app. split; [|by apply IH].
  by eapply utf8_nz, item_good.
Qed.
Lemma cstr_chars stop l : forallb (item_ok stop) l = true -> cstr (chars l) = chars l.
Proof. intros H. by eapply cstr_no_nul, chars_nz. Qed.
Lemma name_char_facts c : name_char c = true -> 33 <= c < 127 /\ mxml_bad_char c = false /\ utf8 c = [c] /\ (c =? EOF) = false /\
  name_stop c = false /\ (c =? 38) = false /\ (c =? 60) = false /\ (c =? 34) = false /\ (c =? 39) = false.
Proof.
  unfold name_char. rewrite !andb_true_iff, !negb_true_iff. intros [[[[[[H1 H2] H3] H4] H5] H6] H7]. apply Z.leb_le in H1. apply Z.ltb_lt in H2.
  split_and!; [lia|lia| |apply utf8_ascii; lia|unfold EOF; apply Z.eqb_neq; lia|done..].
  unfold mxml_bad_char. destruct (Z.ltb_spec c 32); [lia|done].
Qed.
Lemma names_nz s : forallb name_char s = true -> Forall (fun b => b <> 0) s.
Proof.
  induction s as [|c s IH]; cbn; [constructor|]. intros [(? & _)%name_char_facts Hs]%andb_true_iff. constructor; [lia|auto].
Qed.
Lemma name_ok_cons s : name_ok s = true -> exists c s', s = c :: s' /\ name_char c = true /\ forallb name_char s' = true.
Proof.
  unfold name_ok. rewrite andb_true_iff, negb_true_iff, bool_decide_eq_false. destruct s as [|c s']; [by intros []|].
  cbn. rewrite andb_true_iff. intros [_ [? ?]]. eauto.
Qed.
Lemma cstr_name s : name_ok s = true -> cstr s = s.
Proof. intros (c & s' & -> & Hc & Hs)%name_ok_cons. apply cstr_no_nul, names_nz. cbn. by rewrite Hc. Qed.

Section parse.
Context (oom : nat -> bool) (Hoom : forall n, oom n = false).

(** ** Runs of characters *)

Lemma plain_or_entity_run parent i s x : item_ok (fun _ => false) i = true -> parent_elem x parent -> s <> [] ->
  (mxml_string_getc ≫= plain_or_entity parent) (at_ (item_text i ++ s)) x = Ret (Some (item_char i), at_ s, x).
Proof.
  destruct i as [ch|nm ch]; cbn [item_text item_ok item_char]; intros Hi Hp Hs.
  - rewrite !andb_true_iff, !negb_true_iff, bool_decide_eq_true in Hi. destruct Hi as [[Hx Hamp] _].
    rewrite (pbind_eq _ _ _ _ _ _ _ (getc_utf8 ch _ x Hx Hs)). unfold plain_or_entity. by rewrite Hamp.
  - apply bool_decide_eq_true in Hi. cbn [app]. rewrite <- app_assoc. cbn [app].
    rewrite (pbind_eq _ _ _ _ 38 (at_ (nm ++ 59 :: s)) x); [|apply getc_ascii; [lia|done|by destruct nm]].
    unfold plain_or_entity. cbn [Z.eqb Pos.eqb]. rewrite (pbind_eq _ _ _ _ _ _ _ (get_entity_run nm ch parent s x Hi Hp Hs)).
    assert ((ch =? EOF) = false) as ->; [|done]. destruct Hi as (_ & _ & Hb & _). apply Z.eqb_neq. intros ->. done.
Qed.
(** The first character of an item. *)
Definition item_first (i : item) : Z := match i with Raw c => c | Ent _ _ => 38 end.
Lemma item_getc stop i s x : item_ok stop i = true -> stop 38 = false -> s <> [] ->
  exists s', mxml_string_getc (at_ (item_text i ++ s)) x = Ret (item_first i, at_ s', x) /\ (item_first i =? EOF) = false /\ stop (item_first i) = false.
Proof.
  destruct i as [ch|nm ch]; cbn [item_text item_ok item_first]; intros Hi H38 Hs.
  - rewrite !andb_true_iff, !negb_true_iff, bool_decide_eq_true in Hi. destruct Hi as [[Hx _] Hst].
    eexists. split; [by apply getc_utf8|]. split; [by apply xchar_EOF|done].
  - eexists. split; [apply getc_ascii; [lia|done|by destruct nm]|done].
Qed.
Lemma item_ok_any stop i : item_ok stop i = true -> item_ok (fun _ => false) i = true.
Proof. destruct i; cbn; [rewrite !andb_true_iff; naive_solver|done]. Qed.
Lemma pbind_assoc {A B C} (m : P A) (f : A -> P B) (g : B -> P C) r x : (m ≫= (fun a => f a ≫= g)) r x = ((m ≫= f) ≫= g) r x.
Proof. unfold mbind, P_bind. by destruct (m r x) as [[[? ?] ?]| |]. Qed.

Lemma fuel_bind {A B} (f : nat -> P A) (k : A -> P B) s x a r' x' : f (S (length s)) (at_ s) x = Ret (a, r', x') -> (with_fuel f ≫= k) (at_ s) x = k a r' x'.
Proof. intros E. apply pbind_eq, E. Qed.

Lemma gather_run stop nd c l : forallb (item_ok stop) l = true -> stop 38 = false -> stop c = true -> xchar c -> forall b fuel s x,
  is_elem x nd -> (length (items_text l) < fuel)%nat -> s <> [] ->
  exists b' x', gather oom fuel stop nd b (at_ (items_text l ++ utf8 c ++ s)) x = Ret (Some (c, b'), at_ s, x') /\
    b_chars b' = b_chars b ++ chars l /\ quiet x x'.
Proof.
  intros Hl H38 Hstop Hc. induction l as [|i l IH]; intros b [|fuel] s x Hp Hf Hs; try (cbn in Hf; lia).
  - cbn [gather items_text map concat app]. rewrite (pbind_eq _ _ _ _ _ _ _ (getc_utf8 c s x Hc Hs)). rewrite (xchar_EOF _ Hc), Hstop.
    exists b, x. split; [done|]. cbn. rewrite app_nil_r. split; [done|apply quiet_refl].
  - cbn [forallb] in Hl. apply andb_true_iff in Hl as [Hi Hl]. specialize (IH Hl).
    change (items_text (i :: l)) with (item_text i ++ items_text l) in *. rewrite length_app in Hf. rewrite <- app_assoc.
    assert (items_text l ++ utf8 c ++ s <> []) as Hs' by nonnil.
    destruct (item_getc stop i _ x Hi H38 Hs') as (s' & Eg & Ee & Est).
    pose proof (plain_or_entity_run (Some nd) i _ x (item_ok_any _ _ Hi) ltac:(intros p [= <-]; exact Hp) Hs') as Ep.
    rewrite (pbind_eq _ _ _ _ _ _ _ Eg) in Ep. cbn [gather]. rewrite (pbind_eq _ _ _ _ _ _ _ Eg), Ee, Est, (pbind_eq _ _ _ _ _ _ _ Ep).
    destruct (add_char_run oom Hoom (item_char i) b (at_ (items_text l ++ utf8 c ++ s)) x) as (b1 & x1 & E & Hb & Hq).
    rewrite (pbind_eq _ _ _ _ _ _ _ E). assert (1 <= length (item_text i))%nat by (destruct i; [apply utf8_len|cbn; lia]).
    destruct (IH b1 fuel s x1) as (b2 & x2 & E2 & Hb2 & Hq2); [|lia|done|].
    { destruct Hp as (nm & la & Hv). exists nm, la. by rewrite (quiet_val _ _ _ Hq). }
    exists b2, x2. split; [exact E2|]. split; [|by eapply quiet_trans].
    rewrite Hb2, Hb. cbn. by rewrite <- app_assoc.
Qed.

Lemma skip_ws_stop fuel c r x : mxml_isspace c = false -> skip_ws (S fuel) c r x = Ret (c, r, x).
Proof. intros Hc. cbn [skip_ws]. rewrite Hc. by destruct (negb _). Qed.
Lemma skip_ws_run ws : forall c d s fuel x, spaces (c :: ws) = true -> mxml_isspace d = false -> 0 <= d < 128 -> mxml_bad_char d = false ->
  (S (length ws) < fuel)%nat -> s <> [] -> skip_ws fuel c (at_ (ws ++ d :: s)) x = Ret (d, at_ s, x).
Proof.
  induction ws as [|c' ws IH]; intros c d s [|fuel] x Hws Hd Hr Hb Hf Hs; cbn [length] in Hf; try lia; cbn [spaces forallb] in Hws;
    apply andb_true_iff in Hws as [Hc Hws]; cbn [skip_ws]; destruct (space_char c Hc) as (_ & _ & He & _); rewrite He, Hc; cbn [negb andb app].
  - rewrite (pbind_eq _ _ _ _ _ _ _ (getc_ascii d s x Hr Hb Hs)). destruct fuel; [lia|]. by apply skip_ws_stop.
  - rewrite (pbind_eq _ _ _ _ c' (at_ (ws ++ d :: s)) x). { apply IH; [done..|lia|done]. }
    apply getc_space; [by apply andb_true_iff in Hws as [? _]|nonnil].
Qed.
(** White space and the character behind it, with the first of both already
    taken. *)
Lemma skip_run ws d s x : spaces ws = true -> mxml_isspace d = false -> 0 <= d < 128 -> mxml_bad_char d = false -> s <> [] ->
  exists c s', ws ++ d :: s = c :: s' /\ (mxml_isspace c = true \/ c = d) /\ xchar c /\ utf8 c = [c] /\ s' <> [] /\
    with_fuel (fun fuel => skip_ws fuel c) (at_ s') x = Ret (d, at_ s, x).
Proof.
  intros Hws Hd Hr Hb Hs. destruct ws as [|c ws]; cbn [app].
  - exists d, s. split_and!; [done|by right|unfold xchar; split_and!; [done|lia|lia]|by apply utf8_ascii|done|by apply skip_ws_stop].
  - pose proof Hws as Hc. cbn [spaces forallb] in Hc. apply andb_true_iff in Hc as [Hc _]. destruct (space_char c Hc) as (Hx & Hu & _ & _).
    exists c, (ws ++ d :: s). split_and!; [done|by left|done|done|nonnil|]. unfold with_fuel. cbn [rd_mem at_].
    apply skip_ws_run; [done..| |done]. rewrite length_app. destruct s; [done|]. cbn. lia.
Qed.

(** ** Attributes *)

Lemma raw_text s : forallb name_char s = true -> items_text (map Raw s) = s /\ chars (map Raw s) = s /\ forallb (item_ok name_stop) (map Raw s) = true.
Proof.
  induction s as [|c s IH]; [done|]. cbn [forallb map]. intros [(Hr & Hb & Hu & _ & Hst & H38 & _)%name_char_facts Hs]%andb_true_iff.
  destruct (IH Hs) as (E1 & E2 & E3). unfold items_text, chars in *. cbn [map concat item_text item_char item_ok]. rewrite Hu, E1, E2, E3. split_and!; [done..|].
  rewrite Hst, H38, bool_decide_true; [done|]. unfold xchar. split_and!; [done|lia|lia].
Qed.

Record edited (x : xml) (K : gmap nat (list nat)) (nd : nat) (v : mxml_value_t) (x' : xml) : Prop := mkEdited {
  ed_tree : tree_ok x' K;
  ed_count : (x_count x <= x_count x')%nat;
  ed_log : x_log x' = x_log x;
  ed_val : val x' nd = Some v;
  ed_other : forall q, q <> nd -> val x' q = val x q
}.
Lemma quiet_edited x K nd v x' : quiet x x' -> tree_ok x K -> val x nd = Some v -> edited x K nd v x'.
Proof.
  intros Hq HT Hv. constructor; [by eapply quiet_tree|apply Hq|apply Hq|by rewrite (quiet_val _ _ _ Hq)|intros; by apply quiet_val].
Qed.
Lemma edited_trans x1 K nd v2 x2 v3 x3 : edited x1 K nd v2 x2 -> edited x2 K nd v3 x3 -> edited x1 K nd v3 x3.
Proof.
  intros [? ? E1 ? H1] [? ? E2 ? H2]. constructor; [done|lia|congruence|done|intros q Hq; rewrite H2 by done; by apply H1].
Qed.

Lemma read_name_run nd c s' d s x size : name_char c = true -> forallb name_char s' = true -> name_stop d = true -> xchar d -> utf8 d = [d] ->
  is_elem x nd -> s <> [] ->
  exists b x', read_name oom nd c size (at_ (s' ++ d :: s)) x = Ret (Some (d, b), at_ s, x') /\ b_chars b = c :: s' /\ quiet x x'.
Proof.
  intros (Hr & _ & _ & _ & _ & _ & _ & H34 & H39)%name_char_facts Hs' Hd Hx Hu Hp Hs. unfold read_name. rewrite H34, H39. cbn [orb].
  destruct (raw_text s' Hs') as (E1 & E2 & E3). unfold with_fuel. cbn [rd_mem at_].
  destruct (gather_run name_stop nd d (map Raw s') E3 eq_refl Hd Hx (mkBuf [u8 c] size) (S (length (s' ++ d :: s))) s x Hp) as (b & x' & E & Hb & Hq).
  { rewrite E1, length_app. lia. } { done. }
  rewrite E1, Hu in E. exists b, x'. split; [exact E|]. split; [|done]. rewrite Hb, E2. cbn. unfold u8. by rewrite Z.mod_small by lia.
Qed.

Lemma GetAttr_run x nd nm l name : val x nd = Some (VElement nm l) ->
  mxmlElementGetAttr (Some nd) (Some name) x = Ret (find_attr name l ≫= attr_value, x).
Proof.
  intros Hv. destruct (live_val _ _ (val_live _ _ _ Hv)) as (n & Hn & En). rewrite Hv in En. injection En as En.
  unfold mxmlElementGetAttr. by rewrite (xbind_eq _ _ _ _ _ (node_run _ _ _ Hn)), <- En.
Qed.

Lemma read_attr_run a c s' x K nd nm l sizes s :
  attr_ok a = true -> wa_name a = c :: s' -> tree_ok x K -> val x nd = Some (VElement nm l) -> find_attr (wa_name a) l = None -> s <> [] ->
  exists x' sizes', read_attr oom nd c sizes (at_ (s' ++ wa_ws1 a ++ 61 :: wa_ws2 a ++ wa_quote a :: items_text (wa_value a) ++ wa_quote a :: s)) x =
    Ret (Some (wa_quote a, sizes'), at_ s, x') /\ edited x K nd (VElement nm (l ++ [attr_of a])) x'.
Proof.
  intros Ha En HT Hv Hnew Hs. unfold attr_ok in Ha. rewrite !andb_true_iff in Ha. destruct Ha as [[[[[_ Hn] H1] H2] Hq] Hval].
  pose proof (cstr_name _ Hn) as Hcn. destruct (name_ok_cons _ Hn) as (c' & s'' & E & Hc & Hs'). rewrite En in E. injection E as <- <-.
  set (q := wa_quote a) in *. assert (q = 34 \/ q = 39) as Hq'. { by rewrite orb_true_iff, !Z.eqb_eq in Hq. }
  assert (0 <= q < 128 /\ mxml_bad_char q = false /\ mxml_isspace q = false /\ (q =? EOF) = false /\ ((q =? 39) || (q =? 34)) = true /\ utf8 q = [q] /\ xchar q /\ (q =? 38) = false) as (Q1 & Q2 & Q3 & Q4 & Q5 & Q6 & Q7 & Q8)
    by (destruct Hq' as [-> | ->]; by vm_compute).
  set (vt := items_text (wa_value a) ++ q :: s).
  destruct (skip_run (wa_ws2 a) q vt x H2 Q3 Q1 Q2 ltac:(unfold vt; nonnil)) as (d2 & r2 & E2 & Hd2 & Hx2 & Hu2 & Hr2 & _).
  destruct (skip_run (wa_ws1 a) 61 (wa_ws2 a ++ q :: vt) x H1 eq_refl ltac:(lia) eq_refl ltac:(nonnil)) as (d & r & E1 & Hd & Hx & Hu & Hr & _).
  assert (is_elem x nd) as Hel by (by exists nm, l).
  destruct (read_name_run nd c s' d r x sizes.1 Hc Hs' ltac:(unfold name_stop; destruct Hd as [-> | ->]; by rewrite ?orb_true_r) Hx Hu Hel Hr) as (b & x1 & En1 & Hb & Hq1).
  rewrite E1. unfold read_attr. rewrite (pbind_eq _ _ _ _ _ _ _ En1).
  assert (val x1 nd = Some (VElement nm l)) as Hv1 by (by rewrite (quiet_val _ _ _ Hq1)). rewrite <- En in Hb.
  rewrite (pbind_eq _ _ _ _ _ _ _ (onX_eq _ _ _ _ _ (GetAttr_run x1 nd nm l (b_chars b) Hv1))). rewrite Hb, Hnew. cbn [mbind option_bind].
  destruct (skip_run (wa_ws1 a) 61 (wa_ws2 a ++ q :: vt) x1 H1 eq_refl ltac:(lia) eq_refl ltac:(nonnil)) as (d' & r' & E1' & _ & _ & _ & _ & Esk).
  rewrite E1 in E1'. injection E1' as <- <-. rewrite (pbind_eq _ _ _ _ _ _ _ Esk). cbn [Z.eqb Pos.eqb].
  destruct (skip_run (wa_ws2 a) q vt x1 H2 Q3 Q1 Q2 ltac:(unfold vt; nonnil)) as (d2' & r2' & E2' & _ & _ & _ & _ & Esk2).
  rewrite E2 in E2'. injection E2' as <- <-. rewrite E2.
  pose proof (getc_utf8 d2 r2 x1 Hx2 Hr2) as Eg. rewrite Hu2 in Eg. cbn [app] in Eg. rewrite (pbind_eq _ _ _ _ _ _ _ Eg), (pbind_eq _ _ _ _ _ _ _ Esk2), Q4.
  unfold read_value. rewrite Q5. unfold vt.
  destruct (gather_run (Z.eqb q) nd q (wa_value a) Hval ltac:(done) ltac:(apply Z.eqb_refl) Q7 (mkBuf [] sizes.2) (S (length (items_text (wa_value a) ++ q :: s))) s x1) as (b2 & x2 & Ev & Hb2 & Hq2).
  { by exists nm, l. } { rewrite length_app. lia. } { done. }
  rewrite Q6 in Ev. cbn [app] in Ev. rewrite (fuel_bind (fun fuel => gather oom fuel (Z.eqb q) nd (mkBuf [] sizes.2)) _ _ _ _ _ _ Ev).
  assert (quiet x x2) as Hq12 by (by eapply quiet_trans).
  destruct (SetAttr_run oom Hoom x2 K nd (wa_name a) (chars (wa_value a)) nm l) as (x3 & E3 & HT3 & Hc3 & Hl3 & Hv3 & Ho3).
  { by eapply quiet_tree. } { by rewrite (quiet_val _ _ _ Hq12). } { done. }
  rewrite Hb2. cbn [b_chars app].
  rewrite (pbind_eq _ _ _ _ _ _ _ (onX_eq _ (at_ s) _ _ _ E3)). eexists x3, _. split; [done|].
  rewrite Hcn, (cstr_chars _ _ Hval) in Hv3.
  constructor; [done|destruct Hq12; lia|destruct Hq12; congruence|exact Hv3|]. intros p Hp. rewrite Ho3 by done. by apply quiet_val.
Qed.

(** The end of an opening tag: [>] or [/>]. *)
Definition tail (slash : bool) : bytes := if slash then [47; 62] else [62].
Definition tail_char (slash : bool) : Z := if slash then 47 else 62.

Lemma parse_attrs_ws ws : forall fuel nd sizes s x, spaces ws = true -> s <> [] ->
  parse_attrs oom (length ws + fuel) nd sizes (at_ (ws ++ s)) x = parse_attrs oom fuel nd sizes (at_ s) x.
Proof.
  induction ws as [|c ws IH]; intros fuel nd sizes s x Hws Hs; [done|]. cbn [spaces forallb] in Hws. apply andb_true_iff in Hws as [Hc Hws].
  cbn [length Nat.add parse_attrs app]. rewrite (pbind_eq _ _ _ _ _ _ _ (getc_space c (ws ++ s) x Hc ltac:(nonnil))).
  destruct (space_char c Hc) as (_ & _ & -> & _). rewrite Hc. by apply IH.
Qed.
Lemma parse_attrs_tail slash fuel nd sizes s x : s <> [] ->
  parse_attrs oom (S fuel) nd sizes (at_ (tail slash ++ s)) x = Ret (tail_char slash, at_ s, x).
Proof.
  intros Hs. cbn [parse_attrs]. destruct slash; cbn [tail app].
  - rewrite (pbind_eq _ _ _ _ 47 (at_ (62 :: s)) x) by (by apply getc_ascii). cbn [Z.eqb EOF Pos.eqb orb mxml_isspace]. unfold expect_gt.
    rewrite (pbind_eq _ _ _ x true (at_ s) x); [done|]. by rewrite (pbind_eq _ _ _ _ 62 (at_ s) x) by (by apply getc_ascii).
  - by rewrite (pbind_eq _ _ _ _ 62 (at_ s) x) by (by apply getc_ascii).
Qed.

Lemma find_attr_app name l a : cstr (attr_name a) <> cstr name -> find_attr name l = None -> find_attr name (l ++ [a]) = None.
Proof.
  intros Ha. induction l as [|b l IH]; cbn; [unfold is_attr; by rewrite bool_decide_false|]. by destruct (is_attr name b).
Qed.

Lemma attr_first a s : attr_ok a = true -> exists c s', wa_name a = c :: s' /\ name_char c = true /\
  attr_text a ++ s = wa_before a ++ c :: s' ++ wa_ws1 a ++ 61 :: wa_ws2 a ++ wa_quote a :: items_text (wa_value a) ++ wa_quote a :: s.
Proof.
  intros Ha. unfold attr_ok in Ha. rewrite !andb_true_iff in Ha. destruct Ha as [[[[[_ Hn] _] _] _] _].
  destruct (name_ok_cons _ Hn) as (c & s' & E & Hc & _). exists c, s'. split_and!; [done..|]. unfold attr_text. rewrite E.
  by norm_app.
Qed.

Lemma parse_attrs_run K nd nm slash l : forall la ws sizes fuel s x,
  attrs_ok l = true -> spaces ws = true -> tree_ok x K -> val x nd = Some (VElement nm la) ->
  (forall a, a ∈ l -> find_attr (wa_name a) la = None) -> (length (attrs_text l ++ ws) < fuel)%nat -> s <> [] ->
  exists x', parse_attrs oom fuel nd sizes (at_ (attrs_text l ++ ws ++ tail slash ++ s)) x = Ret (tail_char slash, at_ s, x') /\
    edited x K nd (VElement nm (la ++ map attr_of l)) x'.
Proof.
  induction l as [|a l IH]; intros la ws sizes fuel s x Hl Hws HT Hv Hnew Hf Hs.
  - cbn [attrs_text map concat app] in *. rewrite app_nil_r. replace fuel with (length ws + S (fuel - length ws - 1))%nat by lia.
    rewrite parse_attrs_ws, parse_attrs_tail by (done || by destruct slash). eexists. split; [done|]. apply quiet_edited; [apply quiet_refl|done..].
  - unfold attrs_ok in Hl. cbn [forallb map] in Hl. rewrite !andb_true_iff, bool_decide_eq_true in Hl. destruct Hl as [[Ha Hl] Hnd].
    apply NoDup_cons in Hnd as [Hna Hnd].
    change (attrs_text (a :: l)) with (attr_text a ++ attrs_text l) in *. rewrite <- app_assoc.
    set (s1 := attrs_text l ++ ws ++ tail slash ++ s) in *. assert (s1 <> []) as Hs1 by (unfold s1; nonnil).
    destruct (attr_first a s1 Ha) as (c & s' & En & Hc & Et). rewrite Et.
    assert (spaces (wa_before a) = true /\ name_ok (wa_name a) = true) as [Hb Hn]
      by (unfold attr_ok in Ha; rewrite !andb_true_iff in Ha; by destruct Ha as [[[[[? ?] _] _] _] _]).
    assert (length (attr_text a) = length (wa_before a) + (length (wa_name a) + length (wa_ws1 a) + length (wa_ws2 a) + length (items_text (wa_value a)) + 3))%nat as Hla.
    { unfold attr_text. rewrite !length_app. cbn [length]. rewrite !length_app. cbn [length]. rewrite length_app. cbn [length]. lia. }
    rewrite !length_app, Hla in Hf.
    replace fuel with (length (wa_before a) + S (fuel - length (wa_before a) - 1))%nat by lia. rewrite parse_attrs_ws by (done || nonnil).
    cbn [parse_attrs]. destruct (name_char_facts c Hc) as (Hr & Hbad & _ & He & Hst & H38 & H60 & _ & _).
    erewrite pbind_eq; [|apply getc_ascii; [lia|exact Hbad|nonnil]]. unfold name_stop in Hst. rewrite !orb_false_iff in Hst.
    destruct Hst as [[[[H1 H2] H3] H4] H5]. rewrite He, H1, H3, H5, H60, H4. cbn [orb].
    destruct (read_attr_run a c s' x K nd nm la sizes s1 Ha En HT Hv ltac:(apply Hnew; left) Hs1) as (x1 & sizes1 & E1 & Hed).
    rewrite (pbind_eq _ _ _ _ _ _ _ E1). assert (wa_quote a = 34 \/ wa_quote a = 39) as Hq.
    { unfold attr_ok in Ha. rewrite !andb_true_iff, orb_true_iff, !Z.eqb_eq in Ha. by destruct Ha as [[[[[_ _] _] _] ?] _]. }
    destruct (IH (la ++ [attr_of a]) ws sizes1 (fuel - length (wa_before a) - 1)%nat s x1) as (x2 & E2 & Hed2).
    { unfold attrs_ok. by rewrite Hl, bool_decide_true. } { done. } { apply Hed. } { apply Hed. }
    { intros a' Ha'. apply find_attr_app; [|apply Hnew; by right]. cbn [attr_of attr_name]. rewrite (cstr_name _ Hn). rewrite forallb_forall in Hl.
      specialize (Hl a' ltac:(by apply list_elem_of_In)). unfold attr_ok in Hl. rewrite !andb_true_iff in Hl. destruct Hl as [[[[[_ Hn'] _] _] _] _].
      rewrite (cstr_name _ Hn'). intros E. apply Hna. rewrite E. by apply list_elem_of_fmap_2. }
    { rewrite !length_app. lia. } { done. }
    exists x2. split; [|eapply edited_trans; [exact Hed|]; by rewrite <- app_assoc in Hed2]. rewrite <- E2. by destruct Hq as [-> | ->].
Qed.

Lemma parse_element_run K nd nm slash l ws s x :
  attrs_ok l = true -> spaces ws = true -> tree_ok x K -> val x nd = Some (VElement nm []) -> s <> [] ->
  exists x', mxml_parse_element oom nd (at_ (attrs_text l ++ ws ++ tail slash ++ s)) x = Ret (tail_char slash, at_ s, x') /\
    edited x K nd (VElement nm (map attr_of l)) x'.
Proof.
  intros Hl Hws HT Hv Hs. set (x1 := mkXml (x_heap x) (S (x_count x)) (x_log x)). set (x2 := mkXml (x_heap x) (S (S (x_count x))) (x_log x)).
  assert (quiet x x2) as Hq by (constructor; cbn; [done..|lia]). unfold mxml_parse_element.
  rewrite (pbind_eq _ _ _ _ _ _ x1 (onX_eq _ _ _ _ _ (malloc_run oom Hoom x))).
  rewrite (pbind_eq _ _ _ _ _ _ x2 (onX_eq _ _ _ _ _ (malloc_run oom Hoom x1))).
  destruct (parse_attrs_run K nd nm slash l [] ws (64, 64) (S (length (attrs_text l ++ ws ++ tail slash ++ s))) s x2) as (x3 & E & Hed).
  { done. } { done. } { by eapply quiet_tree. } { done. } { done. } { rewrite !length_app. lia. } { done. }
  exists x3. split; [exact E|]. eapply edited_trans; [by apply quiet_edited|exact Hed].
Qed.
End parse.
