(* ===== verification/MxmlDoc.v ===== *)
(** * MxmlDoc: reading a well-formed document builds its tree

    The loop of the reader over whole documents: tags, words and white space
    of a layout of MxmlGrammar become the nodes of its tree, in the heap and
    linked as MxmlTree asks for. *)

From S2P Require Import Prelude Words Stream CStr OMap MxmlNode MxmlTree MxmlEntity MxmlLoad MxmlBuild MxmlText MxmlGrammar MxmlParse.

(** ** Trees in the heap *)

(** The node [p], at an address from [lo] on, is the root of the tree [t]. *)
Inductive rep (x : xml) (K : gmap nat (list nat)) (lo : nat) : nat -> xnode -> Prop :=
  | rep_node p v qs ts : (lo <= p)%nat -> val x p = Some v -> K !! p = Some qs -> reps x K lo qs ts -> rep x K lo p (XNode v ts)
with reps (x : xml) (K : gmap nat (list nat)) (lo : nat) : list nat -> list xnode -> Prop :=
  | reps_nil : reps x K lo [] []
  | reps_cons p t qs ts : rep x K lo p t -> reps x K lo qs ts -> reps x K lo (p :: qs) (t :: ts).
Scheme rep_mind := Induction for rep Sort Prop with reps_mind := Induction for reps Sort Prop.
Combined Scheme rep_reps_ind from rep_mind, reps_mind.

Lemma reps_app x K lo qs1 ts1 qs2 ts2 : reps x K lo qs1 ts1 -> reps x K lo qs2 ts2 -> reps x K lo (qs1 ++ qs2) (ts1 ++ ts2).
Proof. intros H. revert H. induction qs1 as [|q qs1 IH] in ts1 |- *; intros H1 H2; inversion H1; subst; [done|]. constructor; auto. Qed.

(** Trees stay when the nodes from [lo] on that there were are the same. *)
Lemma rep_frame x K lo x' K' lo' : (lo' <= lo)%nat ->
  (forall q v, (lo <= q)%nat -> val x q = Some v -> val x' q = Some v) ->
  (forall q qs, (lo <= q)%nat -> K !! q = Some qs -> K' !! q = Some qs) ->
  (forall p t, rep x K lo p t -> rep x' K' lo' p t) /\ (forall qs ts, reps x K lo qs ts -> reps x' K' lo' qs ts).
Proof.
  intros Hlo Hv HK.
  apply (rep_reps_ind x K lo (fun p t _ => rep x' K' lo' p t) (fun qs ts _ => reps x' K' lo' qs ts)).
  - intros p v qs ts Hp E1 E2 _ IH. econstructor; [lia|by apply Hv|by apply HK|exact IH].
  - constructor.
  - intros p t qs ts _ IH1 _ IH2. by constructor.
Qed.
Lemma reps_frame x K lo x' K' lo' qs ts : (lo' <= lo)%nat ->
  (forall q v, (lo <= q)%nat -> val x q = Some v -> val x' q = Some v) ->
  (forall q qs, (lo <= q)%nat -> K !! q = Some qs -> K' !! q = Some qs) ->
  reps x K lo qs ts -> reps x' K' lo' qs ts.
Proof. intros Hlo Hv HK. by apply rep_frame. Qed.

(** The trees [ts] were added to the children of [parent]. *)
Record grown (x : xml) (K : gmap nat (list nat)) (parent : ptr) (ts : list xnode) (x' : xml) (K' : gmap nat (list nat)) : Prop := mkGrown {
  gr_tree : tree_ok x' K';
  gr_count : (x_count x <= x_count x')%nat;
  gr_log : x_log x' = x_log x;
  gr_new : exists qs, reps x' K' (x_count x) qs ts /\ (forall par, parent = Some par -> K' !! par = Some (kids K par ++ qs)) /\
    forall q, (x_count x <= q)%nat -> is_Some (K' !! q) -> exists r, r ∈ qs /\ rtc (child_of K') q r;
  gr_old : forall q, (q < x_count x)%nat -> parent <> Some q -> K' !! q = K !! q;
  gr_val : forall q, (q < x_count x)%nat -> val x' q = val x q;
  gr_up : forall q r, (q < x_count x)%nat -> child_of K' q r -> child_of K q r
}.

Lemma grown_refl x K parent : tree_ok x K -> parent_ok parent K -> grown x K parent [] x K.
Proof.
  intros HT Hp. constructor; [done..| |done|done|done]. exists []. split; [constructor|]. split.
  - intros par ->. rewrite app_nil_r. unfold kids. by destruct (Hp par eq_refl) as [ks ->].
  - intros q Hq Hs. pose proof (tree_lt _ _ _ HT Hs). lia.
Qed.
(** Nobody loses a child. *)
Lemma grown_child x K parent ts x' K' : tree_ok x K -> grown x K parent ts x' K' -> forall c q, child_of K c q -> child_of K' c q.
Proof.
  intros HT [_ _ _ (qs & _ & Pn & _) O _ _] c q (ks & Hks & Hc)%child_lookup. apply child_lookup.
  destruct (decide (parent = Some q)) as [E|E]; [exists (kids K q ++ qs)|exists ks].
  - rewrite (Pn q E). split; [done|]. apply elem_of_app. left. unfold kids. by rewrite Hks.
  - rewrite O; [done| |done]. apply (tree_lt _ _ _ HT). by eexists.
Qed.
Lemma grown_trans x K par ts1 x1 K1 ts2 x2 K2 : is_Some (K !! par) -> tree_ok x K ->
  grown x K (Some par) ts1 x1 K1 -> grown x1 K1 (Some par) ts2 x2 K2 -> grown x K (Some par) (ts1 ++ ts2) x2 K2.
Proof.
  intros Hpar HT G1 G2. pose proof (grown_child _ _ _ _ _ _ (gr_tree _ _ _ _ _ _ G1) G2) as Hmono.
  destruct G1 as [T1 C1 L1 (qs1 & N1 & P1 & A1) O1 V1 U1], G2 as [T2 C2 L2 (qs2 & N2 & P2 & A2) O2 V2 U2].
  pose proof (tree_lt _ _ _ HT Hpar) as Hlt.
  constructor; [done|lia|congruence| | | |].
  - exists (qs1 ++ qs2). split; [|split].
    + apply reps_app; [|by eapply reps_frame; [|..|exact N2]; [lia|..]].
      eapply reps_frame; [reflexivity|..|exact N1].
      * intros q v Hq Hv. rewrite V2; [done|]. apply (to_fresh _ _ T1). by eapply val_live.
      * intros q qs Hq HK. rewrite O2; [done|..|intros [= ->]; lia]. apply (tree_lt _ _ _ T1). by eexists.
    + intros par' [= <-]. rewrite (P2 par eq_refl). unfold kids at 1. rewrite (P1 par eq_refl). cbn. by rewrite app_assoc.
    + intros q Hq Hs. destruct (decide (x_count x1 <= q)%nat) as [Hn|Hn].
      * destruct (A2 q Hn Hs) as (r & Hr & Hrtc). exists r. split; [|done]. apply elem_of_app. by right.
      * rewrite O2 in Hs by (lia || intros [= ->]; lia). destruct (A1 q Hq Hs) as (r & Hr & Hrtc). exists r.
        split; [apply elem_of_app; by left|]. by eapply rtc_subrel.
  - intros q Hq Hne. rewrite O2 by (lia || done). by apply O1.
  - intros q Hq. rewrite V2 by lia. by apply V1.
  - intros q r Hq Hc. apply U1; [done|]. apply U2; [lia|done].
Qed.

(** One new node, with the trees below it. *)
Lemma hang_child parent p K q r : q <> p -> child_of (hang parent p K) q r -> child_of K q r.
Proof.
  intros Hq. rewrite !child_lookup. intros (ks & Hks & Hin).
  assert (forall ks, <[p:=[]]> K !! r = Some ks -> q ∈ ks -> exists ks0, K !! r = Some ks0 /\ q ∈ ks0) as Hins.
  { intros ks0 [[_ <-]|[_ H]]%lookup_insert_Some Hin0; [by apply elem_of_nil in Hin0|eauto]. }
  unfold hang in Hks. destruct parent as [par|]; [|by eapply Hins].
  apply lookup_insert_Some in Hks as [[<- <-]|[_ H]]; [|by eapply Hins].
  apply elem_of_app in Hin as [Hin|Hin%list_elem_of_singleton]; [|done]. unfold kids in Hin.
  destruct (<[p:=[]]> K !! par) as [ks|] eqn:E; [|by apply elem_of_nil in Hin]. by eapply Hins.
Qed.
Lemma kids_insert_new p K par : K !! p = None -> kids (<[p:=[]]> K) par = kids K par.
Proof. intros Hp. unfold kids. destruct (decide (par = p)) as [->|]; [rewrite lookup_insert_eq, Hp; done|by rewrite lookup_insert_ne]. Qed.
Lemma hang_kids par p K : par <> p -> K !! p = None -> hang (Some par) p K !! par = Some (kids K par ++ [p]).
Proof. intros Hne Hp. unfold hang. rewrite lookup_insert_eq. by rewrite kids_insert_new. Qed.

(** What was added at [p], and then below it. *)
Lemma rep_of_node x K parent v x1 ts x2 K2 :
  let p := x_count x in let K1 := hang parent p K in
  tree_ok x K -> parent_ok parent K -> (p < x_count x1)%nat ->
  grown x1 K1 (Some p) ts x2 K2 -> val x1 p = Some v -> rep x2 K2 p p (XNode v ts).
Proof.
  intros p K1 HT Hpar Hlt [T2 C2 L2 (qs & N2 & P2 & _) O2 V2 U2] Hv.
  assert (K1 !! p = Some []) as HKp by (apply hang_self; intros E; apply Hpar in E; apply (tree_lt _ _ _ HT) in E; unfold p in E; lia).
  econstructor; [done|by rewrite V2|rewrite (P2 p eq_refl); unfold kids; by rewrite HKp|].
  eapply reps_frame; [|..|exact N2]; [unfold p in *; lia|done..].
Qed.
Lemma below_node x K parent x1 ts x2 K2 :
  let p := x_count x in let K1 := hang parent p K in
  tree_ok x K -> parent_ok parent K -> (p < x_count x1)%nat -> grown x1 K1 (Some p) ts x2 K2 ->
  forall q, (p <= q)%nat -> is_Some (K2 !! q) -> rtc (child_of K2) q p.
Proof.
  intros p K1 HT Hpar Hlt [T2 C2 L2 (qs & N2 & P2 & A2) O2 V2 U2] q Hq Hs.
  assert (forall par, parent = Some par -> (par < p)%nat) as Hpp by (intros par E; apply (tree_lt _ _ _ HT), Hpar, E).
  assert (K1 !! p = Some []) as HKp by (apply hang_self; intros E; apply Hpp in E; lia).
  destruct (decide (q = p)) as [->|Hqp]; [done|]. destruct (decide (x_count x1 <= q)%nat) as [Hn|Hn].
  - destruct (A2 q Hn Hs) as (r & Hr & Hrtc). eapply rtc_r; [exact Hrtc|]. apply child_lookup. exists qs. split; [|done].
    rewrite (P2 p eq_refl). unfold kids. by rewrite HKp.
  - exfalso. rewrite O2 in Hs; [|lia|intros [= ->]; lia]. unfold K1 in Hs. rewrite hang_other in Hs; [|done|intros E; apply Hpp in E; unfold p in E; lia].
    apply (tree_lt _ _ _ HT) in Hs. lia.
Qed.
Lemma grown_node x K parent v x1 ts x2 K2 :
  let p := x_count x in let K1 := hang parent p K in
  tree_ok x K -> parent_ok parent K -> (p < x_count x1)%nat -> x_log x1 = x_log x ->
  (forall q, (q < p)%nat -> val x1 q = val x q) ->
  grown x1 K1 (Some p) ts x2 K2 -> val x1 p = Some v ->
  grown x K parent [XNode v ts] x2 K2.
Proof.
  intros p K1 HT Hpar Hlt Hl1 Hv1 Hg Hv. pose proof (rep_of_node x K parent v x1 ts x2 K2 HT Hpar Hlt Hg Hv) as Hrep.
  pose proof (below_node x K parent x1 ts x2 K2 HT Hpar Hlt Hg) as Hbelow.
  destruct Hg as [T2 C2 L2 (qs & N2 & P2 & A2) O2 V2 U2]. destruct (tree_new_free _ _ HT) as [_ Hnew]. fold p in Hnew.
  assert (forall par, parent = Some par -> (par < p)%nat) as Hpp by (intros par E; apply (tree_lt _ _ _ HT), Hpar, E).
  constructor; [done|unfold p in *; lia|congruence| | | |].
  - exists [p]. split; [|split].
    + constructor; [exact Hrep|constructor].
    + intros par E. pose proof (Hpp par E). rewrite O2; [|lia|intros [= ->]; lia]. unfold K1. rewrite E. apply hang_kids; [lia|done].
    + intros q Hq Hs. exists p. split; [left|]. by apply Hbelow.
  - intros q Hq Hne. rewrite O2; [|unfold p in *; lia|intros [= E]; unfold p in *; lia]. apply hang_other; [unfold p; lia|done].
  - intros q Hq. rewrite V2 by (unfold p in *; lia). by apply Hv1.
  - intros q r Hq Hc. apply (hang_child parent p); [unfold p; lia|]. apply U2; [unfold p in *; lia|done].
Qed.
(** The same from a state before some memory was taken. *)
Lemma below_quiet x K parent ts x0 x' K' (Q : nat -> Prop) : tree_ok x K -> parent_ok parent K -> quiet x x0 -> grown x0 K parent ts x' K' ->
  (forall q, (x_count x0 <= q)%nat -> is_Some (K' !! q) -> Q q) -> forall q, (x_count x <= q)%nat -> is_Some (K' !! q) -> Q q.
Proof.
  intros HT Hpar Hq Hg HQ q Hlt Hs. apply HQ; [|done]. destruct (decide (x_count x0 <= q)%nat) as [|Hn]; [done|]. exfalso.
  rewrite (gr_old _ _ _ _ _ _ Hg) in Hs; [apply (tree_lt _ _ _ HT) in Hs; lia|lia|intros E; apply Hpar, (tree_lt _ _ _ HT) in E; lia].
Qed.
Lemma grown_leaf x K parent v x1 : tree_ok x K -> parent_ok parent K -> added x K parent v x1 ->
  grown x K parent [XNode v []] x1 (hang parent (x_count x) K).
Proof.
  intros HT Hpar [T C L V O]. eapply (grown_node x K parent v x1 []); [done..| | |done].
  - intros q Hq. apply O. lia.
  - apply grown_refl; [done|]. intros p [= <-]. rewrite hang_self; [by eexists|]. intros E. pose proof (tree_lt _ _ _ HT (Hpar _ E)). lia.
Qed.

Lemma grown_quiet x K parent ts x0 x1 K1 : tree_ok x K -> parent_ok parent K -> quiet x x0 -> grown x0 K parent ts x1 K1 -> grown x K parent ts x1 K1.
Proof.
  intros HT Hpar Hq [T C L (qs & N & Pn & A) O V U]. destruct Hq as [Hh Hl Hc]. constructor; [done|lia|congruence| | | |].
  - exists qs. split; [by eapply reps_frame; [|..|exact N]|]. split; [done|]. intros q Hq Hs. apply A; [|done].
    destruct (decide (x_count x0 <= q)%nat) as [|Hn]; [done|]. exfalso.
    rewrite O in Hs; [apply (tree_lt _ _ _ HT) in Hs; lia|lia|intros E; apply Hpar, (tree_lt _ _ _ HT) in E; lia].
  - intros q Hq. apply O. lia.
  - intros q Hq. rewrite V by lia. unfold val. by rewrite Hh.
  - intros q r Hq. apply U. lia.
Qed.
Lemma grown_quiet_r x K parent ts x1 K1 x2 : grown x K parent ts x1 K1 -> quiet x1 x2 -> grown x K parent ts x2 K1.
Proof.
  intros [T C L (qs & N & PA) O V U] Hq. constructor; [by eapply quiet_tree|destruct Hq; lia|destruct Hq; congruence| |done| |done].
  - exists qs. split; [|done]. apply (reps_frame x1 K1 (x_count x)); [done| |done|exact N]. intros q v _ E. by rewrite (quiet_val _ _ _ Hq).
  - intros q Hlt. rewrite (quiet_val _ _ _ Hq). by apply V.
Qed.
Lemma is_elem_grown x K parent ts x' K' p : is_elem x p -> (p < x_count x)%nat -> grown x K parent ts x' K' -> is_elem x' p.
Proof. intros (nm & l & Hv) Hp Hg. exists nm, l. by rewrite (gr_val _ _ _ _ _ _ Hg). Qed.

(** The parent link of a node that was hung up and then grew. *)
Lemma parent_after x K parent v x1 ts x2 K2 :
  let p := x_count x in
  tree_ok x K -> parent_ok parent K -> (p < x_count x1)%nat -> grown x1 (hang parent p K) (Some p) ts x2 K2 -> val x1 p = Some v ->
  fld n_parent (x_heap x2) p = Some parent.
Proof.
  intros p HT Hpar Hlt [T2 C2 L2 _ O2 V2 U2] Hv. destruct (tree_new_free _ _ HT) as [_ Hnew]. fold p in Hnew.
  destruct parent as [par|].
  - pose proof (tree_lt _ _ _ HT (Hpar par eq_refl)) as Hpp. fold p in Hpp.
    apply (kid_of _ K2 par (kids K par ++ [p]) p (to_forest _ _ T2)); [|set_solver].
    rewrite O2; [apply hang_kids; [lia|done]|lia|intros [= ->]; lia].
  - destruct (live_fld n_parent (x_heap x2) p) as [[r|] Hr]; [eapply val_live; by rewrite V2| |done]. exfalso.
    destruct (fo_up _ _ (to_forest _ _ T2) _ _ Hr) as (ks & Hks & Hin).
    assert (child_of (hang None p K) p r) as (ks' & Hks' & Hin')%child_lookup by (apply U2; [done|]; apply child_lookup; eauto).
    cbn in Hks'. apply lookup_insert_Some in Hks' as [[_ <-]|[_ Hks']]; [by apply elem_of_nil in Hin'|].
    pose proof (kid_of _ _ _ _ _ (to_forest _ _ HT) Hks' Hin') as Hk%fld_live. apply (to_fresh _ _ HT) in Hk. unfold p in Hk. lia.
Qed.

Section doc.
Context (oom : nat -> bool) (Hoom : forall n, oom n = false).

(** ** Tags *)

(** A character that belongs to the text behind [<]. *)
Lemma gather_tag_step c fuel parent b s x :
  0 <= c < 128 -> mxml_bad_char c = false -> mxml_isspace c = false -> (c =? 62) = false -> (c =? 60) = false -> (c =? 38) = false ->
  (c <> 47 \/ b_chars b = []) -> s <> [] ->
  exists b' x', gather_tag oom (S fuel) parent b (at_ (c :: s)) x =
      (if special_start (b_chars b') then mret (Some (c, b')) else gather_tag oom fuel parent b') (at_ s) x' /\
    b_chars b' = b_chars b ++ [c] /\ quiet x x'.
Proof.
  intros Hr Hbad Hsp H62 H60 H38 H47 Hs. cbn [gather_tag]. rewrite (pbind_eq _ _ _ _ _ _ _ (getc_ascii c s x Hr Hbad Hs)).
  assert ((c =? EOF) = false) as -> by (unfold EOF; apply Z.eqb_neq; lia). rewrite Hsp, H62, H60, H38. cbn [orb].
  assert ((c =? 47) && Nat.ltb 0 (length (b_chars b)) = false) as ->.
  { destruct H47 as [H| ->]; [|by rewrite andb_false_r]. destruct (Z.eqb_spec c 47); [done|by cbn]. }
  destruct (add_char_run oom Hoom c b (at_ s) x) as (b' & x' & E & Hb & Hq). rewrite (pbind_eq _ _ _ _ _ _ _ E).
  rewrite utf8_ascii in Hb by done. exists b', x'. split; [done|]. done.
Qed.
Lemma special_head s c : head s = Some c -> c <> 63 -> c <> 33 -> special_start s = false.
Proof. destruct s as [|d s]; [done|]. intros [= ->] H1 H2. unfold special_start. rewrite !bool_decide_false; [done|..]; intros E; apply (f_equal head) in E; vm_compute in E; congruence. Qed.
(** What may stand behind a name in a tag. *)
Definition tag_stop (d : Z) : bool := mxml_isspace d || (d =? 62) || (d =? 47).
Lemma tag_stop_facts d : tag_stop d = true -> 0 <= d < 128 /\ mxml_bad_char d = false /\ (d =? EOF) = false.
Proof.
  unfold tag_stop. rewrite !orb_true_iff, !Z.eqb_eq. intros [[(Hx & _ & He & Hr)%space_char| ->]| ->]; [|done..]. split_and!; [lia|lia|apply Hx|done].
Qed.
Lemma gather_tag_run l : forall d fuel parent b s x c,
  forallb name_char l = true -> head (b_chars b) = Some c -> c <> 63 -> c <> 33 -> tag_stop d = true -> (length l < fuel)%nat -> s <> [] ->
  exists b' x', gather_tag oom fuel parent b (at_ (l ++ d :: s)) x = Ret (Some (d, b'), at_ s, x') /\ b_chars b' = b_chars b ++ l /\ quiet x x'.
Proof.
  induction l as [|c0 l IH]; intros d [|fuel] parent b s x c Hl Hb H63 H33 Hd Hf Hs; cbn [length] in Hf; try lia.
  - destruct (tag_stop_facts d Hd) as (Hr & Hbad & He). cbn [app gather_tag]. rewrite (pbind_eq _ _ _ _ _ _ _ (getc_ascii d s x Hr Hbad Hs)), He.
    assert (Nat.ltb 0 (length (b_chars b)) = true) as -> by (destruct (b_chars b); done). rewrite andb_true_r. unfold tag_stop in Hd. rewrite Hd.
    exists b, x. rewrite app_nil_r. split; [done|]. split; [done|apply quiet_refl].
  - cbn [forallb] in Hl. apply andb_true_iff in Hl as [Hc Hl]. destruct (name_char_facts c0 Hc) as (Hr & Hbad & _ & _ & Hst & H38 & H60 & _).
    unfold name_stop in Hst. rewrite !orb_false_iff in Hst. destruct Hst as [[[[H1 H2] H3] H4] H5].
    destruct (gather_tag_step c0 fuel parent b (l ++ d :: s) x) as (b1 & x1 & E1 & Hb1 & Hq1); [lia|done|done|done|done|done| |nonnil|].
    { left. by apply Z.eqb_neq in H3. }
    assert (head (b_chars b1) = Some c) as Hh by (rewrite Hb1; by destruct (b_chars b)).
    rewrite (special_head _ c Hh H63 H33) in E1.
    destruct (IH d fuel parent b1 s x1 c) as (b2 & x2 & E2 & Hb2 & Hq2); [done|done|done|done|done|lia|done|].
    exists b2, x2. cbn [app]. rewrite E1, E2. split; [done|]. rewrite Hb2, Hb1, <- app_assoc. split; [done|]. by eapply quiet_trans.
Qed.
(** The name of a tag: its first character, which may be [/], and the rest. *)
Lemma gather_name c l d parent b s x :
  (name_char c = true \/ c = 47) -> c <> 33 -> forallb name_char l = true -> tag_stop d = true -> b_chars b = [] -> s <> [] ->
  exists b' x', with_fuel (fun fuel => gather_tag oom fuel parent b) (at_ (c :: l ++ d :: s)) x = Ret (Some (d, b'), at_ s, x') /\
    b_chars b' = c :: l /\ quiet x x'.
Proof.
  intros Hc H33 Hl Hd Hb Hs. unfold with_fuel. cbn [rd_mem at_].
  assert (0 <= c < 128 /\ mxml_bad_char c = false /\ mxml_isspace c = false /\ (c =? 62) = false /\ (c =? 60) = false /\ (c =? 38) = false /\ c <> 63) as (Hr & Hbad & H1 & H2 & H3 & H4 & H63).
  { destruct Hc as [(Hr & Hbad & _ & _ & Hst & H38 & H60 & _)%name_char_facts| ->]; [|done]. unfold name_stop in Hst. rewrite !orb_false_iff in Hst.
    destruct Hst as [[[[H1 H2] H3] H4] H5%Z.eqb_neq]. split_and!; [lia|lia|done..]. }
  destruct (gather_tag_step c (length (c :: l ++ d :: s)) parent b (l ++ d :: s) x Hr Hbad H1 H2 H3 H4 ltac:(by right) ltac:(nonnil)) as (b1 & x1 & E1 & Hb1 & Hq1).
  rewrite Hb in Hb1. cbn [app] in Hb1. rewrite (special_head _ c) in E1 by (done || by rewrite Hb1).
  destruct (gather_tag_run l d (length (c :: l ++ d :: s)) parent b1 s x1 c) as (b2 & x2 & E2 & Hb2 & Hq2);
    [done|by rewrite Hb1|done|done|done|cbn; rewrite length_app; lia|done|].
  exists b2, x2. rewrite E1, E2, Hb2, Hb1. split; [done|]. split; [done|]. by eapply quiet_trans.
Qed.

(** The starts of comments, CDATA sections and processing instructions. *)
Lemma gather_prefix l : forall c fuel parent b s x,
  forallb (fun c => (33 <=? c) && (c <? 128) && negb (c =? 62) && negb (c =? 60) && negb (c =? 38) && negb (c =? 47)) (l ++ [c]) = true ->
  (forall l1 l2, l = l1 ++ l2 -> l1 <> [] -> special_start (b_chars b ++ l1) = false) -> special_start (b_chars b ++ l ++ [c]) = true ->
  (length l < fuel)%nat -> s <> [] ->
  exists b' x', gather_tag oom fuel parent b (at_ (l ++ c :: s)) x = Ret (Some (c, b'), at_ s, x') /\ b_chars b' = b_chars b ++ l ++ [c] /\ quiet x x'.
Proof.
  assert (forall c, (33 <=? c) && (c <? 128) && negb (c =? 62) && negb (c =? 60) && negb (c =? 38) && negb (c =? 47) = true ->
    0 <= c < 128 /\ mxml_bad_char c = false /\ mxml_isspace c = false /\ (c =? 62) = false /\ (c =? 60) = false /\ (c =? 38) = false /\ c <> 47) as Hch.
  { intros c. rewrite !andb_true_iff, !negb_true_iff, Z.leb_le, Z.ltb_lt. intros [[[[[H1 H2] H3] H4] H5] H6%Z.eqb_neq].
    split_and!; [lia|lia| | |done..]; [unfold mxml_bad_char; destruct (Z.ltb_spec c 32); [lia|done]|].
    unfold mxml_isspace. rewrite !orb_false_iff, !Z.eqb_neq. lia. }
  induction l as [|c0 l IH]; intros c [|fuel] parent b s x Hok Hno Hyes Hf Hs; cbn [length] in Hf; try lia.
  - cbn [app forallb] in *. rewrite andb_true_r in Hok. destruct (Hch c Hok) as (A1 & A2 & A3 & A4 & A5 & A6 & A7).
    destruct (gather_tag_step c fuel parent b s x A1 A2 A3 A4 A5 A6 ltac:(by left) Hs) as (b1 & x1 & E1 & Hb1 & Hq1).
    exists b1, x1. rewrite E1, Hb1, Hyes. done.
  - cbn [app forallb] in Hok. apply andb_true_iff in Hok as [Hc0 Hok]. destruct (Hch c0 Hc0) as (A1 & A2 & A3 & A4 & A5 & A6 & A7).
    destruct (gather_tag_step c0 fuel parent b (l ++ c :: s) x A1 A2 A3 A4 A5 A6 ltac:(by left) ltac:(nonnil)) as (b1 & x1 & E1 & Hb1 & Hq1).
    rewrite Hb1, (Hno [c0] l) in E1 by done. destruct (IH c fuel parent b1 s x1 Hok) as (b2 & x2 & E2 & Hb2 & Hq2); [| |lia|done|].
    + intros l1 l2 -> Hl1. rewrite Hb1, <- app_assoc. by apply (Hno (c0 :: l1) l2).
    + rewrite Hb1, <- app_assoc. exact Hyes.
    + exists b2, x2. cbn [app]. rewrite E1, E2, Hb2, Hb1, <- app_assoc. split; [done|]. split; [done|]. by eapply quiet_trans.
Qed.

Lemma gather_start k parent b s x : b_chars b = [] -> s <> [] ->
  exists c b' x', with_fuel (fun fuel => gather_tag oom fuel parent b) (at_ (sp_start k ++ s)) x = Ret (Some (c, b'), at_ s, x') /\
    b_chars b' = sp_start k /\ quiet x x'.
Proof.
  intros Hb Hs. unfold with_fuel. cbn [rd_mem at_].
  assert (exists l c, sp_start k = l ++ [c] /\
    forallb (fun c => (33 <=? c) && (c <? 128) && negb (c =? 62) && negb (c =? 60) && negb (c =? 38) && negb (c =? 47)) (l ++ [c]) = true /\
    forallb (fun n => negb (special_start (take (S n) l))) (seq 0 (length l)) = true /\ special_start (l ++ [c]) = true) as (l & c & E & H1 & H2 & H3).
  { destruct k; [exists (b# "!-"), 45|exists (b# "![CDATA"), 91|exists [], 63]; by vm_compute. }
  rewrite E. destruct (gather_prefix l c (S (length ((l ++ [c]) ++ s))) parent b s x) as (b' & x' & Eg & Hb' & Hq).
  - done.
  - intros l1 l2 -> Hl1. rewrite Hb. cbn [app]. rewrite forallb_forall in H2. specialize (H2 (length l1 - 1)%nat).
    assert (0 < length l1)%nat by (destruct l1; [done|cbn; lia]). rewrite negb_true_iff in H2.
    replace (S (length l1 - 1)) with (length l1) in H2 by lia. rewrite take_app_length in H2. apply H2, in_seq. rewrite length_app. lia.
  - by rewrite Hb.
  - rewrite !length_app. lia.
  - done.
  - rewrite Hb in Hb'. exists c, b', x'. rewrite <- app_assoc in Eg |- *. cbn [app] in *. split; [exact Eg|]. done.
Qed.

Lemma gather_special_run ends l : forall b fuel s x, runs_to ends (b_chars b) l = true -> (length l < fuel)%nat -> s <> [] ->
  exists b' x', gather_special oom fuel ends b (at_ (utf8s l ++ 62 :: s)) x = Ret (62, b', at_ s, x') /\ b_chars b' = b_chars b ++ utf8s l /\ quiet x x'.
Proof.
  induction l as [|c l IH]; intros b [|fuel] s x Hr Hf Hs; cbn [length] in Hf; try lia; cbn [runs_to gather_special utf8s map concat app] in *.
  - rewrite (pbind_eq _ _ _ _ _ _ _ (getc_ascii 62 s x ltac:(lia) eq_refl Hs)). cbn [Z.eqb EOF Pos.eqb andb]. rewrite Hr.
    exists b, x. rewrite app_nil_r. split; [done|]. split; [done|apply quiet_refl].
  - rewrite !andb_true_iff, bool_decide_eq_true, negb_true_iff in Hr. destruct Hr as [[Hx Hend] Hr]. rewrite <- app_assoc.
    erewrite pbind_eq; [|apply getc_utf8; [exact Hx|nonnil]]. rewrite (xchar_EOF _ Hx), Hend.
    destruct (add_char_run oom Hoom c b (at_ (utf8s l ++ 62 :: s)) x) as (b1 & x1 & E1 & Hb1 & Hq1). rewrite (pbind_eq _ _ _ _ _ _ _ E1).
    rewrite <- Hb1 in Hr. destruct (IH b1 fuel s x1 Hr ltac:(lia) Hs) as (b2 & x2 & E2 & Hb2 & Hq2).
    exists b2, x2. split; [exact E2|]. rewrite Hb2, Hb1, <- app_assoc. split; [done|]. by eapply quiet_trans.
Qed.
Lemma utf8s_len l : (length l <= length (utf8s l))%nat.
Proof. induction l as [|c l IH]; [done|]. change (utf8s (c :: l)) with (utf8 c ++ utf8s l). rewrite length_app. pose proof (utf8_len c). cbn. lia. Qed.
Lemma runs_nz ends l : forall b, runs_to ends b l = true -> Forall (fun c => c <> 0) (utf8s l).
Proof.
  induction l as [|c l IH]; intros b; [constructor|]. cbn [runs_to]. rewrite !andb_true_iff, bool_decide_eq_true. intros [[[Hx _] _] Hr].
  apply Forall_app. split; [by apply utf8_nz|by eapply IH].
Qed.
Lemma cstr_special k l : special_ok k l = true -> cstr (special_name k l) = special_name k l.
Proof.
  intros Hok. apply cstr_no_nul, Forall_app. split; [|by eapply runs_nz].
  assert (forallb (fun c => negb (c =? 0)) (sp_start k) = true) as H by (destruct k; reflexivity). apply Forall_forall. intros c Hc.
  rewrite forallb_forall in H. specialize (H c ltac:(by apply list_elem_of_In)). by apply negb_true_iff, Z.eqb_neq in H.
Qed.

(** No root yet, or a parent. *)
Definition root_ok (st : lstate) : Prop := l_parent st = None -> l_first st = None.
Lemma second_root_no st r x : root_ok st -> second_root st r x = Ret (false, r, x).
Proof. intros H. unfold second_root. destruct (l_parent st) eqn:E; [done|]. by rewrite (H E). Qed.
Definition or_first (fi : ptr) (p : nat) : ptr := match fi with None => Some p | Some f => Some f end.
Definition opens (k : special) : bool := match k with SPi => true | _ => false end.

Lemma add_special_run what op soft st r x K : tree_ok x K -> parent_ok (l_parent st) K -> root_ok st -> cstr (b_chars (l_buf st)) = b_chars (l_buf st) ->
  exists x', add_special oom what op soft st r x =
      Ret (Go (mkL (or_first (l_first st) (x_count x))
                   (match l_parent st with None => if op : bool then Some (x_count x) else None | pr => pr end) (l_ws st) (l_buf st)), r, x') /\
    added x K (l_parent st) (VElement (Some (b_chars (l_buf st))) []) x'.
Proof.
  intros HT Hp Hr Hc. unfold add_special. rewrite (pbind_eq _ _ _ _ _ _ _ (second_root_no st r x Hr)).
  destruct (mxmlNewElement_run oom Hoom x K (l_parent st) (b_chars (l_buf st)) HT Hp) as (x' & E & Had). rewrite Hc in Had.
  rewrite (pbind_eq _ _ _ _ _ _ _ (onX_eq _ r _ _ _ E)). exists x'. split; [|done].
  destruct st as [[f|] [pr|] ws b]; destruct op; done.
Qed.

Lemma special_run k l st s x K :
  special_ok k l = true -> tree_ok x K -> parent_ok (l_parent st) K -> root_ok st -> s <> [] ->
  exists x0 b x', quiet x x0 /\ b_chars b = [] /\ added x0 K (l_parent st) (special_value k l) x' /\
    tag oom st (at_ (special_name k l ++ 62 :: s)) x =
      Ret (Go (mkL (or_first (l_first st) (x_count x0))
                   (match l_parent st with None => if opens k then Some (x_count x0) else None | pr => pr end) (l_ws st) b), at_ s, x').
Proof.
  intros Hok HT Hp Hr Hs. unfold tag, special_name. rewrite <- app_assoc.
  destruct (gather_start k (l_parent st) (mkBuf [] (b_size (l_buf st))) (utf8s l ++ 62 :: s) x eq_refl ltac:(nonnil)) as (c & b1 & x1 & E1 & Hb1 & Hq1).
  rewrite (pbind_eq _ _ _ _ _ _ _ E1). pose proof Hok as Hrun. unfold special_ok in Hrun. rewrite <- Hb1 in Hrun.
  destruct (gather_special_run (sp_end k) l b1 (S (length (utf8s l ++ 62 :: s))) s x1 Hrun) as (b2 & x2 & E2 & Hb2 & Hq2);
    [rewrite length_app; pose proof (utf8s_len l); lia|done|].
  assert (quiet x x2) as Hq by (by eapply quiet_trans).
  assert (b_chars b2 = special_name k l) as Hn by (by rewrite Hb2, Hb1).
  set (st2 := set_buf b2 (set_buf b1 st)).
  assert (forall what soft, exists x', special_tag oom what (sp_end k) (opens k) soft (set_buf b1 st) (at_ (utf8s l ++ 62 :: s)) x1 =
      Ret (Go (mkL (or_first (l_first st) (x_count x2))
                   (match l_parent st with None => if opens k then Some (x_count x2) else None | pr => pr end) (l_ws st) b2), at_ s, x') /\
    added x2 K (l_parent st) (special_value k l) x') as Hsp.
  { intros what soft. unfold special_tag. cbn [l_buf set_buf]. rewrite (fuel_bind (fun fuel => gather_special oom fuel (sp_end k) b1) _ _ _ _ _ _ E2). cbn [Z.eqb Pos.eqb negb].
    destruct (add_special_run what (opens k) soft st2 (at_ s) x2 K) as (x' & E & Had); [by eapply quiet_tree|done|done| |].
    { cbn [l_buf st2 set_buf]. rewrite Hn. by apply cstr_special. }
    exists x'. split; [exact E|]. cbn [l_parent l_buf st2 set_buf] in Had. rewrite Hn in Had. exact Had. }
  assert (exists what soft, (if bool_decide (b_chars b1 = b# "!--") then comment_tag oom (set_buf b1 st)
           else if bool_decide (b_chars b1 = b# "![CDATA[") then cdata_tag oom (set_buf b1 st)
           else match b_chars b1 with 63 :: _ => pi_tag oom (set_buf b1 st) | 33 :: _ => decl_tag oom c (set_buf b1 st)
                | 47 :: _ => close_tag c (set_buf b1 st) | _ => open_tag oom c (set_buf b1 st) end)
      = special_tag oom what (sp_end k) (opens k) soft (set_buf b1 st)) as (what & soft & Ed).
  { rewrite Hb1. destruct k; eexists _, _; reflexivity. }
  destruct (Hsp what soft) as (x' & E & Had). rewrite Ed, (pbind_eq _ _ _ _ _ _ _ E).
  eexists x2, _, x'. split; [done|]. split; [|split; [exact Had|]]; [|done]. done.
Qed.

Lemma tag_dispatch {A} (c : Z) (s : bytes) (f1 f2 f3 f4 : A) : c <> 63 -> c <> 33 -> c <> 47 ->
  match c :: s with 63 :: _ => f1 | 33 :: _ => f2 | 47 :: _ => f3 | _ => f4 end = f4.
Proof. intros H1 H2 H3. destruct c as [|p|p]; [done| |done]. do 6 (destruct p as [p|p|]; try done). Qed.

Lemma open_run h slash st s x K :
  head_ok h = true -> tree_ok x K -> parent_ok (l_parent st) K -> root_ok st -> s <> [] ->
  exists x0 b x', quiet x x0 /\ b_chars b = [] /\ added x0 K (l_parent st) (head_value h) x' /\
    tag oom st (at_ (drop 1 (head_text h) ++ tail slash ++ s)) x =
      Ret (Go (mkL (or_first (l_first st) (x_count x0))
                   (if slash then l_parent st else Some (x_count x0)) (l_ws st) b), at_ s, x').
Proof.
  intros Hok HT Hp Hr Hs. unfold head_ok, elem_ok in Hok. rewrite !andb_true_iff, negb_true_iff, bool_decide_eq_false in Hok. destruct Hok as [[Hn H33] Hat].
  destruct (name_ok_cons _ Hn) as (c & l & En & Hc & Hl). rewrite En in H33. cbn [head] in H33.
  assert (c <> 63 /\ c <> 33 /\ c <> 47) as (N1 & N2 & N3).
  { destruct (name_char_facts c Hc) as (_ & _ & _ & _ & Hst & _). unfold name_stop in Hst. rewrite !orb_false_iff in Hst.
    destruct Hst as [[[[_ _] ?%Z.eqb_neq] _] ?%Z.eqb_neq]. split_and!; [done|congruence|done]. }
  set (d := match wh_attrs h with Some (c, _, _) => c | None => tail_char slash end).
  set (r := match wh_attrs h with Some (_, l, ws) => attrs_text l ++ ws ++ tail slash ++ s | None => drop 1 (tail slash) ++ s end).
  assert (drop 1 (head_text h) ++ tail slash ++ s = c :: l ++ d :: r) as ->.
  { unfold head_text, d, r. rewrite skipn_cons, drop_0, En. destruct (wh_attrs h) as [[[? ?] ?]|]; [by norm_app|]. rewrite app_nil_r. by destruct slash. }
  assert (r <> []) as Hrn by (unfold r; destruct (wh_attrs h) as [[[? ?] ?]|]; nonnil).
  assert (tag_stop d = true) as Hd.
  { unfold d, tag_stop. destruct (wh_attrs h) as [[[? ?] ?]|]; [|by destruct slash]. rewrite !andb_true_iff in Hat. by destruct Hat as [[-> _] _]. }
  unfold tag. destruct (gather_name c l d (l_parent st) (mkBuf [] (b_size (l_buf st))) r x ltac:(by left) N2 Hl Hd eq_refl Hrn) as (b1 & x1 & E1 & Hb1 & Hq1).
  rewrite (pbind_eq _ _ _ _ _ _ _ E1). rewrite !bool_decide_false by (rewrite Hb1; intros E; apply (f_equal head) in E; vm_compute in E; congruence).
  assert (match b_chars b1 with 63 :: _ => pi_tag oom (set_buf b1 st) | 33 :: _ => decl_tag oom d (set_buf b1 st)
                | 47 :: _ => close_tag d (set_buf b1 st) | _ => open_tag oom d (set_buf b1 st) end = open_tag oom d (set_buf b1 st)) as ->
    by (rewrite Hb1; by apply tag_dispatch).
  unfold open_tag. unfold mbind at 1, P_bind at 1.
  rewrite (pbind_eq _ _ _ _ _ _ _ (second_root_no (set_buf b1 st) (at_ r) x1 Hr)).
  destruct (mxmlNewElement_run oom Hoom x1 K (l_parent st) (b_chars b1)) as (x2 & E2 & Had); [by eapply quiet_tree|done|].
  rewrite Hb1, <- En, (cstr_name _ Hn) in Had. cbn [l_parent l_buf set_buf].
  rewrite (pbind_eq _ _ _ _ _ _ _ (onX_eq _ (at_ r) _ _ _ E2)).
  assert (exists x3, (if mxml_isspace d then ch ← mxml_parse_element oom (x_count x1); mret (if ch =? EOF then None else Some ch)
             else if d =? 47 then
               ch ← mxml_string_getc;
               if negb (ch =? 62) then
                 perror (b# "Expected > but got '" ++ [u8 ch] ++ b# "' instead for element <" ++ b_chars b1 ++ b# "/>!") ;;
                 onX (mxmlDelete (Some (x_count x1))) ;; mret None
               else mret (Some 47)
             else mret (Some d) : P (option Z)) (at_ r) x2 = Ret (Some (tail_char slash), at_ s, x3) /\ added x1 K (l_parent st) (head_value h) x3) as (x3 & E3 & Had3).
  { unfold d, r, head_value, head_attrs. destruct (wh_attrs h) as [[[c0 la] ws]|].
    - rewrite !andb_true_iff in Hat. destruct Hat as [[Hc0 Hla] Hws]. rewrite Hc0. destruct Had as [T C L V O].
      destruct (parse_element_run oom Hoom (hang (l_parent st) (x_count x1) K) (x_count x1) (Some (wh_name h)) slash la ws s x2 Hla Hws T V Hs) as (x3 & E3 & [T3 C3 L3 V3 O3]).
      exists x3. rewrite (pbind_eq _ _ _ _ _ _ _ E3). split; [by destruct slash|]. constructor; [done|lia|congruence|done|]. intros q Hq. rewrite O3 by done. by apply O.
    - exists x2. split; [|done]. destruct slash; cbn [tail tail_char drop app]; [|done].
      change (mxml_isspace 47) with false. cbn [Z.eqb Pos.eqb]. by rewrite (pbind_eq _ _ _ _ _ _ _ (getc_ascii 62 s x2 ltac:(lia) eq_refl Hs)). }
  rewrite (pbind_eq _ _ _ _ _ _ _ E3).
  eexists x1, (mkBuf [] (b_size b1)), x3. split; [done|]. split; [done|]. split; [done|]. destruct st as [[f|] pr ws b]; by destruct slash.
Qed.

Lemma strcmp_refl s : strcmp s s = 0.
Proof. unfold strcmp. induction (cstr s) as [|c l IH]; [done|]. cbn. by rewrite Z.eqb_refl. Qed.
Lemma skip_to_gt_run ws : forall d r s fuel x, ws ++ 62 :: s = d :: r -> spaces ws = true -> (length ws < fuel)%nat -> s <> [] ->
  skip_to_gt fuel d (at_ r) x = Ret (tt, at_ s, x).
Proof.
  induction ws as [|c ws IH]; intros d r s [|fuel] x E Hws Hf Hs; cbn [length] in Hf; try lia; cbn [app] in E; injection E as <- <-; [done|].
  cbn [spaces forallb] in Hws. apply andb_true_iff in Hws as [Hc Hws]. destruct (space_char c Hc) as (_ & _ & He & _).
  assert ((c =? 62) = false) as H62 by (apply Z.eqb_neq; intros ->; done). cbn [skip_to_gt]. rewrite H62, He. cbn [negb andb].
  destruct (ws ++ 62 :: s) as [|d r] eqn:E; [by destruct ws|].
  assert (mxml_string_getc (at_ (d :: r)) x = Ret (d, at_ r, x)) as Eg.
  { destruct ws as [|c' ws]; cbn [app] in E; injection E as <- <-; [by apply getc_ascii|]. cbn [spaces forallb] in Hws. apply andb_true_iff in Hws as [Hc' _].
    apply getc_space; [done|nonnil]. }
  rewrite (pbind_eq _ _ _ _ _ _ _ Eg). apply IH; [done|done|lia|done].
Qed.

Lemma close_run name close st p la up s x K : name_ok name = true -> spaces close = true -> tree_ok x K ->
  l_parent st = Some p -> val x p = Some (VElement (Some name) la) -> fld n_parent (x_heap x) p = Some up -> s <> [] ->
  exists b x', quiet x x' /\ b_chars b = [] /\
    tag oom st (at_ (47 :: name ++ close ++ 62 :: s)) x = Ret (Go (mkL (l_first st) up (l_ws st) b), at_ s, x').
Proof.
  intros Hn Hcl HT Hp Hv Hup Hs. unfold tag. destruct (close ++ 62 :: s) as [|d r] eqn:Er; [by destruct close|].
  assert (tag_stop d = true /\ r <> []) as [Hd Hr].
  { destruct close as [|c close]; cbn [app] in Er; injection Er as <- <-; [done|]. cbn [spaces forallb] in Hcl. apply andb_true_iff in Hcl as [Hc _].
    unfold tag_stop. rewrite Hc. split; [done|nonnil]. }
  assert (forallb name_char name = true) as Hnc by (by destruct (name_ok_cons _ Hn) as (c & s' & -> & Hc & Hs'); cbn; rewrite Hc).
  destruct (gather_name 47 name d (l_parent st) (mkBuf [] (b_size (l_buf st))) r x ltac:(by right) ltac:(done) Hnc Hd eq_refl Hr) as (b1 & x1 & E1 & Hb1 & Hq1).
  rewrite (pbind_eq _ _ _ _ _ _ _ E1). rewrite !bool_decide_false by (rewrite Hb1; intros E; apply (f_equal head) in E; vm_compute in E; congruence).
  rewrite Hb1. unfold mbind at 1, P_bind at 1. unfold close_tag. cbn [l_parent set_buf l_buf]. rewrite Hp, Hb1. cbn [drop].
  assert (val x1 p = Some (VElement (Some name) la)) as Hv1 by (by rewrite (quiet_val _ _ _ Hq1)).
  rewrite (pbind_eq _ _ _ _ _ _ _ (onX_eq _ (at_ r) _ _ _ (elem_name_run _ _ _ _ Hv1))). rewrite strcmp_refl. cbn [Z.eqb negb].
  rewrite (fuel_bind (fun fuel => skip_to_gt fuel d) _ _ _ _ _ _ (skip_to_gt_run close d r s (S (length r)) x1 Er Hcl ltac:(apply (f_equal length) in Er; rewrite length_app in Er; cbn in Er; lia) Hs)).
  apply fld_Some in Hup as (n & Hnd & En). destruct Hq1 as [Hh Hlg Hct].
  rewrite (pbind_eq _ _ _ _ _ _ _ (onX_eq _ (at_ s) _ _ _ (node_run p x1 n ltac:(by rewrite Hh)))).
  eexists (mkBuf [] (b_size b1)), x1. split; [by constructor|]. split; [done|]. rewrite En. done.
Qed.

(** ** The loop *)

(** From [st] the loop takes [s], with [rest] behind it, in at most as many
    rounds as [s] has bytes, and comes to [st']. *)
Definition steps (s rest : bytes) (st : lstate) (x : xml) (st' : lstate) (x' : xml) : Prop :=
  exists n, (n <= length s)%nat /\ forall fuel, load_loop oom (n + fuel) st (at_ (s ++ rest)) x = load_loop oom fuel st' (at_ rest) x'.
Lemma steps_nil rest st x : steps [] rest st x st x.
Proof. by exists 0%nat. Qed.
Lemma steps_app s1 s2 rest st x st1 x1 st2 x2 : steps s1 (s2 ++ rest) st x st1 x1 -> steps s2 rest st1 x1 st2 x2 -> steps (s1 ++ s2) rest st x st2 x2.
Proof.
  intros (n1 & H1 & E1) (n2 & H2 & E2). exists (n1 + n2)%nat. rewrite length_app. split; [lia|]. intros fuel.
  by rewrite <- app_assoc, <- Nat.add_assoc, E1, E2.
Qed.
(** One round. *)
Lemma steps_round c s rest st x st' x' : 0 <= c < 128 -> mxml_bad_char c = false -> s ++ rest <> [] ->
  load_round oom c st (at_ (s ++ rest)) x = Ret (Go st', at_ rest, x') -> steps (c :: s) rest st x st' x'.
Proof.
  intros Hr Hb Hs E. exists 1%nat. split; [cbn; lia|]. intros fuel. cbn [Nat.add load_loop app].
  rewrite (pbind_eq _ _ _ _ _ _ _ (getc_ascii c (s ++ rest) x Hr Hb Hs)).
  assert ((c =? EOF) = false) as -> by (unfold EOF; apply Z.eqb_neq; lia). by rewrite (pbind_eq _ _ _ _ _ _ _ E).
Qed.
Lemma clean_buf b : b_chars b = [] -> Nat.ltb 0 (length (b_chars b)) = false.
Proof. by intros ->. Qed.

(** A tag, from a state without pending text or white space. *)
Lemma steps_tag s rest f pr b x st' x' : b_chars b = [] -> s ++ rest <> [] ->
  tag oom (mkL f pr false b) (at_ (s ++ rest)) x = Ret (Go st', at_ rest, x') -> steps (60 :: s) rest (mkL f pr false b) x st' x'.
Proof.
  intros Hb Hs E. apply steps_round; [lia|done|done|]. unfold load_round. cbn [l_buf Z.eqb Pos.eqb orb andb mxml_isspace]. rewrite (clean_buf _ Hb).
  exact E.
Qed.

Definition pending (ws : bytes) : bool := Nat.ltb 0 (length ws).
Lemma steps_ws ws : forall rest f pr w b x, spaces ws = true -> b_chars b = [] -> rest <> [] ->
  steps ws rest (mkL f pr w b) x (mkL f pr (w || pending ws) b) x.
Proof.
  induction ws as [|c ws IH]; intros rest f pr w b x Hws Hb Hr; [rewrite orb_false_r; apply steps_nil|].
  cbn [spaces forallb] in Hws. apply andb_true_iff in Hws as [Hc Hws]. destruct (space_char c Hc) as (Hx & _ & He & Hrg).
  change (c :: ws) with ([c] ++ ws). rewrite orb_true_r. eapply steps_app; [|eapply (IH _ _ _ true); done].
  apply steps_round; [done|apply Hx|nonnil|]. unfold load_round. cbn [l_buf app]. rewrite Hc, (clean_buf _ Hb), andb_false_r.
  assert ((c =? 60) = false /\ (c =? 38) = false) as [H60 H38] by (split; apply Z.eqb_neq; intros ->; done).
  rewrite (pbind_eq _ _ _ x (Go (mkL f pr true b)) (at_ (ws ++ rest)) x) by done. rewrite H60, H38. done.
Qed.
End doc.
