(* ===== verification/MxmlRead.v ===== *)
(** * MxmlRead: a well-formed document is read into its tree

    The induction over the layout of a document, and the theorem about
    [mxmlLoadString]. *)

From S2P Require Import Prelude Words Stream CStr OMap MxmlNode MxmlTree MxmlEntity MxmlLoad MxmlBuild MxmlText MxmlGrammar MxmlParse MxmlDoc.

Section read.
Context (oom : nat -> bool) (Hoom : forall n, oom n = false).
Notation steps := (steps oom).

(** Up to the way the text is put together. *)
Lemma steps_tag_eq s rest rest' t f pr b x st' x' : rest' = rest -> s ++ rest = t -> b_chars b = [] -> t <> [] ->
  tag oom (mkL f pr false b) (at_ t) x = Ret (Go st', at_ rest', x') -> steps (60 :: s) rest (mkL f pr false b) x st' x'.
Proof. intros -> <-. apply steps_tag. Qed.
Lemma steps_rest_eq s rest rest' st x st' x' : rest = rest' -> steps s rest st x st' x' -> steps s rest' st x st' x'.
Proof. by intros ->. Qed.

(** ** White space and words *)

(** White space in front of a tag becomes a node. *)
Lemma flush_space r f par b x K : b_chars b = [] -> r <> [] -> tree_ok x K -> is_Some (K !! par) ->
  exists x' K', grown x K (Some par) [XNode (VText 1 (Some [])) []] x' K' /\
    steps [] (60 :: r) (mkL (Some f) (Some par) true b) x (mkL (Some f) (Some par) false b) x'.
Proof.
  intros Hb Hr HT Hp. assert (parent_ok (Some par) K) as Hpo by (by intros q [= <-]).
  destruct (mxmlNewText_run oom Hoom x K (Some par) 1 [] HT Hpo) as (x' & E & Had).
  exists x', (hang (Some par) (x_count x) K). split; [by apply grown_leaf|]. exists 0%nat. split; [done|]. intros [|fuel]; [done|].
  cbn [Nat.add app load_loop]. rewrite (pbind_eq _ _ _ _ _ _ _ (getc_ascii 60 r x ltac:(lia) eq_refl Hr)).
  rewrite (pbind_eq _ _ _ _ _ _ _ (getc_ascii 60 r x' ltac:(lia) eq_refl Hr)). cbn [Z.eqb EOF].
  assert (load_round oom 60 (mkL (Some f) (Some par) true b) (at_ r) x = load_round oom 60 (mkL (Some f) (Some par) false b) (at_ r) x') as Er.
  { unfold load_round. cbn [l_buf Z.eqb Pos.eqb orb andb mxml_isspace]. rewrite (clean_buf _ Hb).
    unfold mbind at 1 3, P_bind at 1 3. cbn [mret P_ret l_ws].
    rewrite (pbind_eq _ _ _ x (mkL (Some f) (Some par) false b) (at_ r) x'); [done|].
    unfold add_space. cbn [l_parent l_ws b2z]. by rewrite (pbind_eq _ _ _ _ _ _ _ (onX_eq _ (at_ r) _ _ _ E)). }
  unfold mbind at 1 2, P_bind at 1 2. by rewrite Er.
Qed.

Lemma space_run ws r f par b x K : spaces ws = true -> b_chars b = [] -> r <> [] -> tree_ok x K -> is_Some (K !! par) ->
  exists x' K', grown x K (Some par) (space ws) x' K' /\
    steps ws (60 :: r) (mkL (Some f) (Some par) false b) x (mkL (Some f) (Some par) false b) x'.
Proof.
  intros Hws Hb Hr HT Hp. pose proof (steps_ws oom ws (60 :: r) (Some f) (Some par) false b x Hws Hb ltac:(done)) as Hst.
  destruct ws as [|c ws].
  - exists x, K. split; [apply grown_refl; [done|by intros q [= <-]]|done].
  - destruct (flush_space r f par b x K Hb Hr HT Hp) as (x' & K' & Hg & Hs'). exists x', K'. split; [exact Hg|].
    rewrite <- (app_nil_r (c :: ws)). eapply steps_app; [exact Hst|exact Hs'].
Qed.

(** A pending word becomes a node at the next white space or tag. *)
Lemma flush_word c r f par w b x K : word_stop c = true -> b_chars b <> [] -> cstr (b_chars b) = b_chars b -> r <> [] -> tree_ok x K -> is_Some (K !! par) ->
  exists b' x' K', b_chars b' = [] /\ grown x K (Some par) [XNode (VText (b2z w) (Some (b_chars b))) []] x' K' /\
    steps [] (c :: r) (mkL (Some f) (Some par) w b) x (mkL (Some f) (Some par) false b') x'.
Proof.
  intros Hc Hb Hcs Hr HT Hp. assert (parent_ok (Some par) K) as Hpo by (by intros q [= <-]).
  destruct (mxmlNewText_run oom Hoom x K (Some par) (b2z w) (b_chars b) HT Hpo) as (x' & E & Had). rewrite Hcs in Had.
  set (b' := mkBuf [] (b_size b)). exists b', x', (hang (Some par) (x_count x) K). split; [done|]. split; [by apply grown_leaf|].
  exists 0%nat. split; [done|]. intros [|fuel]; [done|]. unfold word_stop in Hc.
  assert (0 <= c < 128 /\ mxml_bad_char c = false /\ (c =? EOF) = false) as (Hrg & Hbad & He).
  { rewrite orb_true_iff, Z.eqb_eq in Hc. destruct Hc as [(Hx & _ & He & Hrg)%space_char| ->]; [|done]. split_and!; [lia|lia|apply Hx|done]. }
  cbn [Nat.add app load_loop]. rewrite (pbind_eq _ _ _ _ _ _ _ (getc_ascii c r x Hrg Hbad Hr)).
  rewrite (pbind_eq _ _ _ _ _ _ _ (getc_ascii c r x' Hrg Hbad Hr)). rewrite He.
  assert (load_round oom c (mkL (Some f) (Some par) w b) (at_ r) x = load_round oom c (mkL (Some f) (Some par) false b') (at_ r) x') as Er.
  { unfold load_round at 1 2. cbn [l_buf]. rewrite (orb_comm (c =? 60)), Hc.
    assert (Nat.ltb 0 (length (b_chars b)) = true) as -> by (by destruct (b_chars b)). cbn [b' b_chars length Nat.ltb Nat.leb andb].
    rewrite (pbind_eq _ _ _ x (Go (mkL (Some f) (Some par) (mxml_isspace c) b')) (at_ r) x').
    - rewrite (pbind_eq _ _ _ x' (Go (mkL (Some f) (Some par) (mxml_isspace c) b')) (at_ r) x'); [done|]. cbn. by destruct (mxml_isspace c).
    - unfold add_text. cbn [l_parent l_ws l_buf]. by rewrite (pbind_eq _ _ _ _ _ _ _ (onX_eq _ (at_ r) _ _ _ E)). }
  unfold mbind at 1 2, P_bind at 1 2. by rewrite Er.
Qed.

Lemma item_step i rest fi pr w b x : item_ok word_stop i = true -> parent_elem x pr -> rest <> [] ->
  exists b' x', steps (item_text i) rest (mkL fi pr w b) x (mkL fi pr w b') x' /\ b_chars b' = b_chars b ++ utf8 (item_char i) /\ quiet x x'.
Proof.
  intros Hi Hp Hr. destruct (item_getc word_stop i rest x Hi eq_refl Hr) as (s' & Eg & Ee & Est).
  pose proof (plain_or_entity_run pr i rest x (item_ok_any _ _ Hi) Hp Hr) as Ep. rewrite (pbind_eq _ _ _ _ _ _ _ Eg) in Ep.
  destruct (add_char_run oom Hoom (item_char i) b (at_ rest) x) as (b' & x' & Ea & Hb & Hq). exists b', x'. split; [|done].
  exists 1%nat. split; [destruct i; [apply utf8_len|cbn; lia]|]. intros fuel. cbn [Nat.add load_loop].
  rewrite (pbind_eq _ _ _ _ _ _ _ Eg), Ee. unfold word_stop in Est. rewrite orb_false_iff in Est. destruct Est as [Hsp H60].
  rewrite (pbind_eq _ _ _ x (Go (mkL fi pr w b')) (at_ rest) x'); [done|].
  unfold load_round. rewrite Hsp, H60. cbn [orb andb]. rewrite (pbind_eq _ _ _ x (Go (mkL fi pr w b)) (at_ s') x) by done. cbn [l_ws andb].
  rewrite (pbind_eq _ _ _ x (mkL fi pr w b) (at_ s') x) by done. cbn [l_parent l_buf negb].
  unfold plain_or_entity in Ep. destruct (item_first i =? 38) eqn:E38.
  - unfold mbind, P_bind in Ep. destruct (mxml_get_entity pr (at_ s') x) as [[[v r2] x2]| |] eqn:Ege; try done. cbn in Ep.
    destruct (v =? EOF) eqn:Ev; [done|]. injection Ep as -> -> ->. rewrite (pbind_eq _ _ _ _ _ _ _ Ege), Ev. by rewrite (pbind_eq _ _ _ _ _ _ _ Ea).
  - cbn in Ep. injection Ep as Hc ->. rewrite Hc. by rewrite (pbind_eq _ _ _ _ _ _ _ Ea).
Qed.
Lemma items_run l : forall rest fi pr w b x, forallb (item_ok word_stop) l = true -> parent_elem x pr -> rest <> [] ->
  exists b' x', steps (items_text l) rest (mkL fi pr w b) x (mkL fi pr w b') x' /\ b_chars b' = b_chars b ++ chars l /\ quiet x x'.
Proof.
  induction l as [|i l IH]; intros rest fi pr w b x Hl Hp Hr.
  - exists b, x. split; [apply steps_nil|]. cbn. rewrite app_nil_r. split; [done|apply quiet_refl].
  - cbn [forallb] in Hl. apply andb_true_iff in Hl as [Hi Hl].
    destruct (item_step i (items_text l ++ rest) fi pr w b x Hi Hp ltac:(nonnil)) as (b1 & x1 & S1 & Hb1 & Hq1).
    destruct (IH rest fi pr w b1 x1 Hl ltac:(by eapply quiet_parent) Hr) as (b2 & x2 & S2 & Hb2 & Hq2).
    exists b2, x2. split; [by eapply steps_app|]. rewrite Hb2, Hb1, <- app_assoc. split; [done|]. by eapply quiet_trans.
Qed.

(** The text goes on with white space or a tag. *)
Definition follow (rest : bytes) : Prop := match rest with c :: r => word_stop c = true /\ r <> [] | [] => False end.

Lemma word_run l ws rest f par b x K : word_ok l = true -> spaces ws = true -> follow rest ->
  tree_ok x K -> is_Some (K !! par) -> is_elem x par -> b_chars b = [] ->
  exists b' x' K', b_chars b' = [] /\ steps (ws ++ items_text l) rest (mkL (Some f) (Some par) false b) x (mkL (Some f) (Some par) false b') x' /\
    grown x K (Some par) (tree ws (WWord l)) x' K'.
Proof.
  intros Hl Hws Hf HT Hp He Hb. unfold word_ok in Hl. rewrite andb_true_iff, negb_true_iff, bool_decide_eq_false in Hl. destruct Hl as [Hne Hl].
  destruct rest as [|c r]; [done|]. destruct Hf as [Hc Hr].
  pose proof (steps_ws oom ws (items_text l ++ c :: r) (Some f) (Some par) false b x Hws Hb ltac:(nonnil)) as S1. cbn [orb] in S1.
  destruct (items_run l (c :: r) (Some f) (Some par) (pending ws) b x Hl ltac:(by intros p [= <-]) ltac:(done)) as (b2 & x2 & S2 & Hb2 & Hq2).
  rewrite Hb in Hb2. cbn [app] in Hb2.
  destruct (flush_word c r f par (pending ws) b2 x2 K Hc) as (b3 & x3 & K3 & Hb3 & Hg & S3); [|by rewrite Hb2, (cstr_chars _ _ Hl)|done|by eapply quiet_tree|done|].
  { rewrite Hb2. destruct l as [|i l]; [done|]. change (chars (i :: l)) with (utf8 (item_char i) ++ chars l).
    pose proof (utf8_len (item_char i)). destruct (utf8 (item_char i)); [cbn in *; lia|done]. }
  exists b3, x3, K3. split; [done|]. split; [|eapply grown_quiet; [done|by intros q [= <-]|exact Hq2|]; rewrite Hb2 in Hg; exact Hg].
  eapply steps_app; [exact S1|]. rewrite <- (app_nil_r (items_text l)). eapply steps_app; [exact S2|exact S3].
Qed.

(** ** Elements *)

(** What reading the children of [par] comes to. *)
Definition reads_kids (ks : wkids) : Prop := forall rest f par b x K,
  kids_ok ks = true -> rest <> [] -> (ends_word ks = true -> follow rest) ->
  tree_ok x K -> is_Some (K !! par) -> is_elem x par -> b_chars b = [] ->
  exists b' x' K', b_chars b' = [] /\ steps (kids_text ks) rest (mkL (Some f) (Some par) false b) x (mkL (Some f) (Some par) false b') x' /\
    grown x K (Some par) (kids_tree ks) x' K'.

Lemma elem_run h body ws close rest fi pr b x K : reads_kids body ->
  node_ok (WElem h body ws close) = true -> tree_ok x K -> parent_ok pr K -> (pr = None -> fi = None) -> rest <> [] -> b_chars b = [] ->
  exists p b' x' K', b_chars b' = [] /\
    steps (text (WElem h body ws close)) rest (mkL fi pr false b) x (mkL (or_first fi p) pr false b') x' /\
    grown x K pr [XNode (head_value h) (kids_tree body ++ space ws)] x' K' /\
    rep x' K' (x_count x) p (XNode (head_value h) (kids_tree body ++ space ws)) /\ (forall q, (x_count x <= q)%nat -> is_Some (K' !! q) -> rtc (child_of K') q p).
Proof.
  intros IH Hok HT Hpo Hro Hrest Hb. cbn [node_ok] in Hok. rewrite !andb_true_iff in Hok. destruct Hok as [[[Hh Hk] Hws] Hcl].
  set (ct := 47 :: wh_name h ++ close ++ 62 :: rest).
  destruct (open_run oom Hoom h false (mkL fi pr false b) (kids_text body ++ ws ++ 60 :: ct) x K Hh HT Hpo Hro ltac:(nonnil))
    as (x0 & b1 & x1 & Hq0 & Hb1 & Had & E1).
  set (p := x_count x0) in *. pose proof (quiet_tree _ _ _ Hq0 HT) as HT0. destruct Had as [T1 C1 L1 V1 O1].
  assert (hang pr p K !! p = Some []) as HKp by (apply hang_self; intros E; apply Hpo in E; apply (tree_lt _ _ _ HT0) in E; unfold p in E; lia).
  assert (exists f', or_first fi p = Some f') as [f' Hf'] by (destruct fi; by eexists).
  destruct (IH (ws ++ 60 :: ct) f' p b1 x1 (hang pr p K) Hk ltac:(nonnil)) as (b2 & x2 & K2 & Hb2 & S2 & G2).
  { intros _. destruct ws as [|c ws']; [done|]. cbn [spaces forallb] in Hws. apply andb_true_iff in Hws as [Hc _]. cbn [app follow]. unfold word_stop.
    rewrite Hc. split; [done|nonnil]. }
  { done. } { by eexists. } { eexists _, _. exact V1. } { done. }
  assert (is_Some (hang pr p K !! p)) as HKs by (by eexists). pose proof G2 as [T2 C2 _ (qs2 & _ & P2 & _) _ V2 _].
  destruct (space_run ws ct f' p b2 x2 K2 Hws Hb2 ltac:(done) T2) as (x3 & K3 & G3 & S3). { rewrite (P2 p eq_refl). by eexists. }
  pose proof (grown_trans _ _ _ _ _ _ _ _ _ HKs T1 G2 G3) as G13.
  pose proof (parent_after x0 K pr _ x1 _ x3 K3 HT0 Hpo C1 G13 V1) as Hup.
  destruct (close_run oom Hoom (wh_name h) close (mkL (Some f') (Some p) false b2) p (map attr_of (head_attrs h)) pr rest x3 K3) as (b4 & x4 & Hq4 & Hb4 & E4).
  { unfold head_ok, elem_ok in Hh. rewrite !andb_true_iff in Hh. apply Hh. } { done. } { apply G13. } { done. } { rewrite (gr_val _ _ _ _ _ _ G13 p C1). exact V1. } { exact Hup. } { done. }
  pose proof (grown_quiet_r _ _ _ _ _ _ _ G13 Hq4) as G14.
  assert (grown x0 K pr [XNode (head_value h) (kids_tree body ++ space ws)] x4 K3) as G04.
  { eapply grown_node; [done|done|exact C1|exact L1| |exact G14|exact V1]. intros q Hq. apply O1. lia. }
  exists p, b4, x4, K3. split; [done|]. split; [|split; [|split]].
  - cbn [text]. change (head_text h) with (60 :: drop 1 (head_text h)). cbn [app].
    replace (drop 1 (head_text h) ++ 62 :: kids_text body ++ ws ++ 60 :: 47 :: wh_name h ++ close ++ [62])
      with ((drop 1 (head_text h) ++ [62]) ++ kids_text body ++ ws ++ 60 :: 47 :: wh_name h ++ close ++ [62]) by (by rewrite <- app_assoc).
    rewrite app_comm_cons. eapply (steps_app _ _ _ _ _ _ (mkL (or_first fi p) (Some p) false b1) x1).
    { eapply steps_tag_eq; [| |done| |exact E1]; [unfold ct; by norm_app|unfold ct; cbn [MxmlParse.tail]; by norm_app|nonnil]. }
    rewrite Hf'. eapply steps_app; [|eapply steps_app].
    + eapply steps_rest_eq; [|exact S2]. unfold ct. by norm_app.
    + eapply steps_rest_eq; [|exact S3]. unfold ct. by norm_app.
    + eapply steps_tag_eq; [| |done| |exact E4]; [done|by norm_app|nonnil].
  - by eapply grown_quiet.
  - apply (proj1 (rep_frame x4 K3 p x4 K3 (x_count x) ltac:(apply Hq0) ltac:(done) ltac:(done))). by eapply rep_of_node.
  - eapply below_quiet; [done|done|exact Hq0|exact G04|]. by eapply below_node.
Qed.
Lemma empty_run h rest fi pr b x K :
  head_ok h = true -> tree_ok x K -> parent_ok pr K -> (pr = None -> fi = None) -> rest <> [] -> b_chars b = [] ->
  exists p b' x' K', b_chars b' = [] /\
    steps (text (WEmpty h)) rest (mkL fi pr false b) x (mkL (or_first fi p) pr false b') x' /\
    grown x K pr [XNode (head_value h) []] x' K' /\ rep x' K' (x_count x) p (XNode (head_value h) []) /\
    (forall q, (x_count x <= q)%nat -> is_Some (K' !! q) -> rtc (child_of K') q p).
Proof.
  intros Hh HT Hpo Hro Hrest Hb.
  destruct (open_run oom Hoom h true (mkL fi pr false b) rest x K Hh HT Hpo Hro Hrest) as (x0 & b1 & x1 & Hq0 & Hb1 & Had & E1).
  set (p := x_count x0) in *. pose proof (quiet_tree _ _ _ Hq0 HT) as HT0. pose proof (grown_leaf _ _ _ _ _ HT0 Hpo Had) as Hg. destruct Had as [T1 C1 L1 V1 O1].
  assert (hang pr p K !! p = Some []) as HKp by (apply hang_self; intros E; apply Hpo in E; apply (tree_lt _ _ _ HT0) in E; unfold p in E; lia).
  exists p, b1, x1, (hang pr p K). split; [done|]. split; [|split; [by eapply grown_quiet|split]].
  - cbn [text]. change (head_text h) with (60 :: drop 1 (head_text h)). rewrite <- app_comm_cons. eapply steps_tag_eq; [| |done| |exact E1]; [done|cbn [MxmlParse.tail]; by norm_app|nonnil].
  - by econstructor; [apply Hq0|exact V1|exact HKp|constructor].
  - eapply below_quiet; [done|done|exact Hq0|exact Hg|]. eapply below_node; [done|done|exact C1|].
    apply (grown_refl x1 (hang pr p K) (Some p)); [done|]. intros q [= <-]. by eexists.
Qed.

Lemma special_node_run k l rest f par b x K :
  special_ok k l = true -> tree_ok x K -> is_Some (K !! par) -> rest <> [] -> b_chars b = [] ->
  exists b' x' K', b_chars b' = [] /\ steps (special_text k l) rest (mkL (Some f) (Some par) false b) x (mkL (Some f) (Some par) false b') x' /\
    grown x K (Some par) [XNode (special_value k l) []] x' K'.
Proof.
  intros Hok HT Hp Hr Hb. assert (parent_ok (Some par) K) as Hpo by (by intros q [= <-]).
  destruct (special_run oom Hoom k l (mkL (Some f) (Some par) false b) rest x K Hok HT Hpo ltac:(done) Hr) as (x0 & b1 & x1 & Hq0 & Hb1 & Had & E1).
  exists b1, x1, (hang (Some par) (x_count x0) K). split; [done|]. split.
  - eapply steps_tag_eq; [done|by rewrite <- app_assoc|done|nonnil|exact E1].
  - eapply grown_quiet; [done|done|exact Hq0|]. apply grown_leaf; [by eapply quiet_tree|done|exact Had].
Qed.

(** ** Induction over the layout *)

Definition reads_node (n : wnode) : Prop := forall ws rest f par b x K,
  node_ok n = true -> spaces ws = true -> rest <> [] -> (is_word n = true -> follow rest) ->
  tree_ok x K -> is_Some (K !! par) -> is_elem x par -> b_chars b = [] ->
  exists b' x' K', b_chars b' = [] /\ steps (ws ++ text n) rest (mkL (Some f) (Some par) false b) x (mkL (Some f) (Some par) false b') x' /\
    grown x K (Some par) (tree ws n) x' K'.

(** A node that is a tag, behind white space. *)
Lemma tag_node_run n t ws :
  text n = 60 :: t -> t <> [] -> tree ws n = space ws ++ tree [] n ->
  (forall rest f par b x K, rest <> [] -> tree_ok x K -> is_Some (K !! par) -> b_chars b = [] ->
    exists b' x' K', b_chars b' = [] /\ steps (text n) rest (mkL (Some f) (Some par) false b) x (mkL (Some f) (Some par) false b') x' /\
      grown x K (Some par) (tree [] n) x' K') ->
  spaces ws = true -> forall rest f par b x K, rest <> [] -> tree_ok x K -> is_Some (K !! par) -> b_chars b = [] ->
    exists b' x' K', b_chars b' = [] /\ steps (ws ++ text n) rest (mkL (Some f) (Some par) false b) x (mkL (Some f) (Some par) false b') x' /\
      grown x K (Some par) (tree ws n) x' K'.
Proof.
  intros Et Ht Etree Hrun Hws rest f par b x K Hr HT Hp Hb.
  destruct (space_run ws (t ++ rest) f par b x K Hws Hb ltac:(nonnil) HT Hp) as (x1 & K1 & G1 & S1). pose proof G1 as [T1 _ _ (qs & _ & P1 & _) _ _ _].
  destruct (Hrun rest f par b x1 K1 Hr T1) as (b2 & x2 & K2 & Hb2 & S2 & G2). { rewrite (P1 par eq_refl). by eexists. } { done. }
  exists b2, x2, K2. split; [done|]. split; [|rewrite Etree; by eapply grown_trans].
  eapply steps_app; [|exact S2]. by rewrite Et.
Qed.

Lemma tag_text n : node_ok n = true -> is_word n = false -> exists t, text n = 60 :: t /\ t <> [].
Proof.
  intros Hok Hw. destruct n as [l|k l|h|h body ws close]; [done|..]; cbn [text]; unfold special_text, head_text;
    (eexists; split; [reflexivity|nonnil]).
Qed.
Lemma follow_text n rest : node_ok n = true -> is_word n = false -> follow (text n ++ rest).
Proof. intros Hok Hw. destruct (tag_text n Hok Hw) as (t & -> & Ht). split; [done|]. by destruct t. Qed.
Lemma follow_ws c ws rest : mxml_isspace c = true -> rest <> [] -> follow ((c :: ws) ++ rest).
Proof. intros Hc Hr. cbn. unfold word_stop. rewrite Hc. split; [done|nonnil]. Qed.

Lemma follow_kids n ks rest : kids_ok ks = true -> is_word n = true -> starts_word ks = false -> rest <> [] -> (ks = WNil -> follow rest) ->
  follow (kids_text ks ++ rest).
Proof.
  intros Hok Hn Hs Hr Hnil. destruct ks as [|ws n' ks]; [by apply Hnil|]. cbn [kids_ok] in Hok. rewrite !andb_true_iff in Hok. destruct Hok as [[[Hws Hn'] _] _].
  cbn [kids_text]. rewrite <- !app_assoc. destruct ws as [|c ws].
  - cbn [app]. apply follow_text; [done|]. by destruct n'.
  - cbn [spaces forallb] in Hws. apply andb_true_iff in Hws as [Hc _]. apply follow_ws; [done|]. nonnil.
Qed.

Lemma layout_reads : (forall n, reads_node n) /\ (forall ks, reads_kids ks).
Proof.
  apply wnode_wkids_ind.
  - intros l ws rest f par b x K Hok Hws Hr Hf HT Hp He Hb. apply word_run; auto.
  - intros k l ws rest f par b x K Hok Hws Hr _ HT Hp _ Hb. destruct (tag_text (WSpecial k l) Hok eq_refl) as (t & Et & Ht).
    eapply tag_node_run; [exact Et|exact Ht|done| |exact Hws|done..]. clear -Hok Hoom. intros. by apply special_node_run.
  - intros h ws rest f par b x K Hok Hws Hr _ HT Hp _ Hb. destruct (tag_text (WEmpty h) Hok eq_refl) as (t & Et & Ht).
    eapply tag_node_run; [exact Et|exact Ht|done| |exact Hws|done..]. clear -Hok Hoom. intros rest f par b x K Hr HT Hp Hb.
    destruct (empty_run h rest (Some f) (Some par) b x K) as (p & b' & x' & K' & H1 & H2 & H3 & _ & _); [done|done|by intros q [= <-]|done..|]. by exists b', x', K'.
  - intros h body IH ws' close ws rest f par b x K Hok Hws Hr _ HT Hp _ Hb. destruct (tag_text (WElem h body ws' close) Hok eq_refl) as (t & Et & Ht).
    eapply tag_node_run; [exact Et|exact Ht|done| |exact Hws|done..]. clear -Hok Hoom IH. intros rest f par b x K Hr HT Hp Hb.
    destruct (elem_run h body ws' close rest (Some f) (Some par) b x K) as (p & b' & x' & K' & H1 & H2 & H3 & _ & _); [done|done|done|by intros q [= <-]|done..|]. by exists b', x', K'.
  - intros rest f par b x K _ Hr _ HT Hp _ Hb. exists b, x, K. split; [done|]. split; [apply steps_nil|]. apply grown_refl; [done|by intros q [= <-]].
  - intros ws n IHn ks IHk rest f par b x K Hok Hr Hend HT Hp He Hb. cbn [kids_ok] in Hok. rewrite !andb_true_iff, negb_true_iff in Hok.
    destruct Hok as [[[Hws Hn] Hks] Hnw].
    destruct (IHn ws (kids_text ks ++ rest) f par b x K Hn Hws ltac:(nonnil)) as (b1 & x1 & K1 & Hb1 & S1 & G1); [|done|done|done|done|].
    { intros Hw. rewrite Hw in Hnw. cbn in Hnw. apply (follow_kids n); [done|done|done|done|]. intros ->. apply Hend. cbn. exact Hw. }
    pose proof G1 as [T1 _ _ (qs & _ & P1 & _) _ _ _].
    destruct (IHk rest f par b1 x1 K1 Hks Hr) as (b2 & x2 & K2 & Hb2 & S2 & G2); [|done|rewrite (P1 par eq_refl); by eexists| |done|].
    { intros Hw. apply Hend. cbn. by destruct ks. } { eapply is_elem_grown; [exact He| |exact G1]. by apply (tree_lt _ _ _ HT). }
    exists b2, x2, K2. split; [done|]. split; [|by eapply grown_trans]. cbn [kids_text]. rewrite app_assoc. by eapply steps_app.
Qed.

(** ** Documents *)

(** White space in front of the first tag. *)
Lemma flush_lead r w b x : b_chars b = [] -> r <> [] -> steps [] (60 :: r) (mkL None None w b) x (mkL None None false b) x.
Proof.
  intros Hb Hr. destruct w; [|apply steps_nil]. exists 0%nat. split; [done|]. intros [|fuel]; [done|]. cbn [Nat.add app load_loop].
  rewrite !(pbind_eq _ _ _ _ _ _ _ (getc_ascii 60 r x ltac:(lia) eq_refl Hr)). cbn [Z.eqb EOF].
  assert (load_round oom 60 (mkL None None true b) (at_ r) x = load_round oom 60 (mkL None None false b) (at_ r) x) as Er.
  { unfold load_round. cbn [l_buf Z.eqb Pos.eqb orb andb mxml_isspace]. by rewrite (clean_buf _ Hb). }
  unfold mbind at 1 2, P_bind at 1 2. by rewrite Er.
Qed.
Lemma lead_run ws r b x : spaces ws = true -> b_chars b = [] -> r <> [] -> steps ws (60 :: r) (mkL None None false b) x (mkL None None false b) x.
Proof.
  intros Hws Hb Hr. rewrite <- (app_nil_r ws). eapply steps_app; [by apply (steps_ws oom)|]. by apply flush_lead.
Qed.

(** The end of the text, behind white space. *)
Lemma loop_end s ws st x fi pr b x' : spaces ws = true -> b_chars b = [] -> steps s (ws ++ [0]) st x (mkL fi pr false b) x' ->
  load_loop oom (S (length (s ++ ws ++ [0]))) st (at_ (s ++ ws ++ [0])) x = Ret (true, mkL fi pr (pending ws) b, at_ [0], x').
Proof.
  intros Hws Hb Hs. destruct (steps_app oom s ws [0] _ _ _ _ _ _ Hs (steps_ws oom ws [0] fi pr false b x' Hws Hb ltac:(done))) as (n & Hn & E).
  rewrite !length_app in *. replace (S (length s + (length ws + length [0]))) with (n + S (length s + (length ws + 1) - n))%nat by (cbn [length]; lia).
  rewrite app_assoc. rewrite E. cbn [load_loop]. by rewrite (pbind_eq _ _ _ _ _ _ _ (getc_eof x')).
Qed.

Lemma doc_run d x K : doc_ok d = true -> tree_ok x K ->
  exists p x1 K1 pr w b,
    load_loop oom (S (length (doc_text d ++ [0]))) (mkL None None false (new_buf [])) (at_ (doc_text d ++ [0])) x =
      Ret (true, mkL (Some p) pr w b, at_ [0], x1) /\ (pr = None \/ pr = Some p /\ fld n_parent (x_heap x1) p = Some None) /\
    grown x K None [doc_tree d] x1 K1 /\ rep x1 K1 (x_count x) p (doc_tree d) /\ (forall q, (x_count x <= q)%nat -> is_Some (K1 !! q) -> rtc (child_of K1) q p).
Proof.
  intros Hok HT. assert (parent_ok None K) as Hpo by done. destruct d as [ws pi body ws'|ws root ws']; cbn [doc_ok doc_text doc_tree] in *; rewrite !andb_true_iff in Hok.
  - destruct Hok as [[[[Hws Hpi] Hk] Hws'] Hnw%negb_true_iff].
    set (r := special_name SPi pi ++ 62 :: kids_text body ++ ws' ++ [0]).
    destruct (special_run oom Hoom SPi pi (mkL None None false (new_buf [])) (kids_text body ++ ws' ++ [0]) x K Hpi HT Hpo ltac:(done) ltac:(nonnil))
      as (x0 & b1 & x1 & Hq0 & Hb1 & Had & E1). cbn [l_first l_parent l_ws opens or_first] in E1.
    pose proof (quiet_tree _ _ _ Hq0 HT) as HT0. set (p := x_count x0) in *. destruct Had as [T1 C1 L1 V1 O1]. cbn [l_parent] in T1.
    assert (hang None p K !! p = Some []) as HKp by (by apply hang_self).
    destruct (proj2 layout_reads body (ws' ++ [0]) p p b1 x1 (hang None p K) Hk ltac:(nonnil)) as (b2 & x2 & K2 & Hb2 & S2 & G2);
      [by rewrite Hnw|done|by eexists|eexists _, _; exact V1|done|].
    assert (grown x0 K None [XNode (special_value SPi pi) (kids_tree body)] x2 K2) as G02.
    { eapply grown_node; [done|done|exact C1|exact L1| |exact G2|exact V1]. intros q Hq. apply O1. lia. }
    exists p, x2, K2, (Some p), (pending ws'), b2. split_and!.
    + rewrite <- !app_assoc. replace (ws ++ special_text SPi pi ++ kids_text body ++ ws' ++ [0]) with ((ws ++ special_text SPi pi ++ kids_text body) ++ ws' ++ [0]) by (by rewrite <- !app_assoc).
      apply loop_end; [done|done|]. eapply steps_app; [|eapply steps_app; [|exact S2]].
      * eapply steps_rest_eq; [|apply (lead_run ws r); [done|done|unfold r; nonnil]]. unfold r, special_text. by norm_app.
      * eapply steps_tag_eq; [| |done| |exact E1]; [done|by norm_app|nonnil].
    + right. split; [done|]. by apply (parent_after x0 K None _ x1 _ x2 K2 HT0 Hpo C1 G2 V1).
    + by eapply grown_quiet.
    + apply (proj1 (rep_frame x2 K2 p x2 K2 (x_count x) ltac:(apply Hq0) ltac:(done) ltac:(done))). by eapply rep_of_node.
    + eapply below_quiet; [done|done|exact Hq0|exact G02|]. by eapply below_node.
  - destruct Hok as [[[Hws Hn] He] Hws'].
    assert (exists p b1 x1 K1, b_chars b1 = [] /\ steps (text root) (ws' ++ [0]) (mkL None None false (new_buf [])) x (mkL (Some p) None false b1) x1 /\
      grown x K None [doc_tree (DRoot ws root ws')] x1 K1 /\ rep x1 K1 (x_count x) p (doc_tree (DRoot ws root ws')) /\
      (forall q, (x_count x <= q)%nat -> is_Some (K1 !! q) -> rtc (child_of K1) q p)) as (p & b1 & x1 & K1 & Hb1 & S1 & G1 & R1 & B1).
    { destruct root as [|?|h|h body w cl]; try done; cbn [doc_tree].
      - destruct (empty_run h (ws' ++ [0]) None None (new_buf []) x K) as (p & b1 & x1 & K1 & H); [done|done|done|done|nonnil|done|]. by exists p, b1, x1, K1.
      - destruct (elem_run h body w cl (ws' ++ [0]) None None (new_buf []) x K) as (p & b1 & x1 & K1 & H); [apply layout_reads|done|done|done|done|nonnil|done|]. by exists p, b1, x1, K1. }
    exists p, x1, K1, None, (pending ws'), b1. split_and!; [|by left|done|done|done].
     rewrite <- !app_assoc. replace (ws ++ text root ++ ws' ++ [0]) with ((ws ++ text root) ++ ws' ++ [0]) by (by rewrite <- !app_assoc).
      apply loop_end; [done|done|]. destruct (tag_text root Hn) as (t & Et & Ht); [by destruct root|]. eapply steps_app; [|exact S1]. rewrite Et.
      apply (lead_run ws (t ++ ws' ++ [0])); [done|done|nonnil].
Qed.

Lemma finish_run p pr w b x : (pr = None \/ pr = Some p /\ fld n_parent (x_heap x) p = Some None) ->
  finish_load None (mkL (Some p) pr w b) x = Ret (Some p, x).
Proof.
  intros [->|[-> Hup]]; [done|]. apply fld_Some in Hup as (n & Hn & En). unfold finish_load. cbn [l_parent].
  rewrite (xbind_eq _ _ x p x); [by rewrite decide_True|]. cbn [find_top]. by rewrite (xbind_eq _ _ _ _ _ (node_run _ _ _ Hn)), En.
Qed.

(** Reading a well-formed document. *)
Lemma load_doc d x K : doc_ok d = true -> tree_ok x K ->
  exists p x' K', mxmlLoadString oom None (doc_text d) x = Ret (Some p, x') /\ grown x K None [doc_tree d] x' K' /\ rep x' K' (x_count x) p (doc_tree d) /\
    (forall q, (x_count x <= q)%nat -> is_Some (K' !! q) -> rtc (child_of K') q p).
Proof.
  intros Hok HT. set (x0 := mkXml (x_heap x) (S (x_count x)) (x_log x)). assert (quiet x x0) as Hq by (constructor; cbn; [done..|lia]).
  destruct (doc_run d x0 K Hok ltac:(by eapply quiet_tree)) as (p & x1 & K1 & pr & w & b & E & Hpr & G & R & B). exists p, x1, K1.
  split_and!; [|by eapply grown_quiet| |eapply (below_quiet x K None); [done|done|exact Hq|exact G|exact B]].
  - unfold mxmlLoadString, mxml_load_data. change (mkRd (doc_text d ++ [0]) ENCODE_UTF8) with (at_ (doc_text d ++ [0])).
    rewrite (pbind_eq _ _ _ _ _ _ x0 (onX_eq _ _ _ _ _ (malloc_run oom Hoom x))).
    rewrite (fuel_bind (fun fuel => load_loop oom fuel (mkL None None false (new_buf []))) _ _ _ _ _ _ E).
    by rewrite (onX_eq _ (at_ [0]) _ _ _ (finish_run p pr w b x1 Hpr)).
  - apply (proj1 (rep_frame x1 K1 (x_count x0) x1 K1 (x_count x) ltac:(cbn; lia) ltac:(done) ltac:(done))). exact R.
Qed.

(** C4: Reading a well-formed document builds its tree.  For any layout of a
    document, one processing instruction with words, comments and nested
    elements behind it or a single element, with attributes in any order and
    spacing, quotes and entities of both kinds, [mxmlLoadString] returns a root
    whose subtree is exactly the document's tree: names, attributes in order
    with their characters decoded, text and white-space nodes.  The nodes are
    new, the others keep their values and children, the links stay consistent,
    and no error is reported. *)
Theorem mxmlLoadString_reads d x K : doc_ok d = true -> tree_ok x K ->
  exists p x' K', mxmlLoadString oom None (doc_text d) x = Ret (Some p, x') /\
    rep x' K' (x_count x) p (doc_tree d) /\ tree_ok x' K' /\ x_log x' = x_log x /\
    (forall q, (q < x_count x)%nat -> val x' q = val x q /\ K' !! q = K !! q).
Proof.
  intros Hok HT. destruct (load_doc d x K Hok HT) as (p & x' & K' & E & [T C L _ O V _] & R & _). exists p, x', K'. split_and!; [done..|].
  intros q Hq. split; [by apply V|]. by apply O.
Qed.
End read.

(** ** Freeing a document *)

Lemma below_new x K ts x1 K1 p q : tree_ok x K -> grown x K None ts x1 K1 -> (x_count x <= p)%nat -> rtc (child_of K1) q p -> (x_count x <= q)%nat.
Proof.
  intros HT Hg Hp Hq. induction Hq as [|q r p Hqr _ IH]; [done|]. specialize (IH Hp). destruct (decide (x_count x <= q)%nat) as [|Hn]; [done|]. exfalso.
  apply (gr_up _ _ _ _ _ _ Hg) in Hqr; [|lia]. apply child_lookup in Hqr as (ks & Hks & _). pose proof (tree_lt _ _ r HT ltac:(by eexists)). lia.
Qed.
(** The document's root is freed: everything is as before it was read. *)
Lemma free_doc x K t x1 K1 p : tree_ok x K -> grown x K None [t] x1 K1 -> rep x1 K1 (x_count x) p t ->
  (forall q, (x_count x <= q)%nat -> is_Some (K1 !! q) -> rtc (child_of K1) q p) ->
  exists x2, mxmlDelete (Some p) x1 = Ret (tt, x2) /\ tree_ok x2 K /\ forall q, val x2 q = val x q.
Proof.
  intros HT Hg HR Hbelow. assert ((x_count x <= p)%nat /\ is_Some (K1 !! p)) as [Hp Hs] by (inversion HR; by split; [|eexists]).
  pose proof (fun q => below_new _ _ _ _ _ p q HT Hg Hp) as Hnew. destruct Hg as [T1 C1 L1 _ O1 V1 U1].
  destruct (mxmlDelete_run x1 K1 p T1 Hs) as (R & x2 & E & HRr & T2 & Hdead & V2).
  assert (forall q, q ∉ R -> is_Some (K1 !! q) -> (q < x_count x)%nat) as Hold.
  { intros q Hq Hl. destruct (decide (q < x_count x)%nat) as [|Hn]; [done|]. exfalso. apply Hq, HRr, Hbelow; [lia|done]. }
  exists x2. split; [done|]. split.
  - assert (detach p (prune R K1) = K) as <-; [|done]. apply map_eq. intros q. rewrite detach_lookup. destruct (decide (q ∈ R)) as [Hq|Hq].
    + rewrite prune_in by done. symmetry. apply eq_None_not_Some. intros Hk%(tree_lt _ _ _ HT). apply HRr, Hnew in Hq. lia.
    + rewrite prune_out by done. destruct (K1 !! q) as [ks|] eqn:Ek.
      * rewrite <- (O1 q) by (done || by eapply Hold). rewrite Ek. cbn. f_equal. apply filter_Forall_id, Forall_forall. intros c Hc ->.
        assert (K !! q = Some ks) as HK by (rewrite <- (O1 q); [done|by eapply Hold|done]).
        pose proof (kid_of _ _ _ _ _ (to_forest _ _ HT) HK Hc) as Hk%fld_live. apply (to_fresh _ _ HT) in Hk. lia.
      * cbn. destruct (K !! q) as [ks|] eqn:E0; [|done]. rewrite (O1 q) in Ek; [congruence|apply (tree_lt _ _ _ HT); by eexists|done].
  - intros q. destruct (decide (q < x_count x)%nat) as [Hq|Hq].
    + rewrite V2; [by apply V1|]. intros Hin%HRr%Hnew. lia.
    + assert (forall y K0, tree_ok y K0 -> K0 !! q = None -> val y q = None) as Hnone.
      { intros y K0 Hy Hk. destruct (val y q) as [v|] eqn:Ev; [|done]. apply val_live, (tree_dom _ _ _ Hy) in Ev. destruct Ev; congruence. }
      rewrite (Hnone x K HT); [|apply eq_None_not_Some; intros Hk%(tree_lt _ _ _ HT); lia].
      apply (Hnone x2 _ T2). rewrite detach_lookup. destruct (decide (q ∈ R)) as [Hi|Hi]; [by rewrite prune_in|rewrite prune_out by done].
      destruct (K1 !! q) eqn:Ek; [|done]. exfalso. apply Hq, Hold; [done|by eexists].
Qed.

(** ** A document *)

(** [<?xml ?>], a comment, and an element with two attributes, a word with an
    entity and an empty element; the quotes are of both kinds. *)
Definition sample_doc : wdoc :=
  DPi [] (b# "xml version='1.0' ?")
    (WCons [10] (WSpecial SComment (b# " channels --"))
    (WCons [10] (WElem (mkWH (b# "Channels") (Some (32, [mkWA [] (b# "n") [] [] 34 (map Raw (b# "2")); mkWA [32] (b# "title") [32] [32] 39 [Raw 65; Ent (b# "lt") 60; Raw 0xE9; Ent (b# "#x41") 65]], [])))
        (WCons [10; 32] (WWord [Raw 97; Ent (b# "amp") 38]) (WCons [32] (WEmpty (mkWH (b# "Channel") None)) WNil)) [10] [32]) WNil)) [10].

Lemma mxmlLoadString_reads_witness : exists p x' K', mxmlLoadString (fun _ => false) None (doc_text sample_doc) (mkXml ∅ 7 []) = Ret (Some p, x') /\
  rep x' K' 7 p (doc_tree sample_doc) /\
  doc_tree sample_doc =
    XNode (VElement (Some (b# "?xml version='1.0' ?")) [])
      [XNode (VText 1 (Some [])) []; XNode (VElement (Some (b# "!-- channels --")) []) []; XNode (VText 1 (Some [])) [];
       XNode (VElement (Some (b# "Channels")) [mkAttr (b# "n") (Some (b# "2")); mkAttr (b# "title") (Some [65; 60; 0xC3; 0xA9; 65])])
         [XNode (VText 1 (Some (b# "a&"))) []; XNode (VText 1 (Some [])) []; XNode (VElement (Some (b# "Channel")) []) []; XNode (VText 1 (Some [])) []]].
Proof.
  destruct (mxmlLoadString_reads (fun _ => false) (fun _ => eq_refl) sample_doc (mkXml ∅ 7 []) ∅ ltac:(vm_compute; reflexivity) (tree_ok_nil 7 []))
    as (p & x' & K' & E & R & _). exists p, x', K'. split; [exact E|]. split; [exact R|]. vm_compute. reflexivity.
Defined.
