(* ===== verification/XmlConf.v ===== *)
(** * XmlConf: the configuration (common/text/XmlNode.cpp, Cfg.cpp of the daemons)

    [Text::XmlNode] wraps a node of an XML tree; the daemons read their
    configuration, channels, game versions and ladder maps through it.  An
    [XmlNode] is its [_data] and, for its parent, the parent's [_data]: neither
    changes while the object is used. *)

From S2P Require Import Prelude Words Stream CStr Strtol Files MxmlNode MxmlLoad MxmlSearch.

Record XmlNode := mkXN { _data : ptr; _parent : option ptr }.

Section xml.
Context (oom : nat -> bool).

(** [XmlNode(const char * )]: the file is read whole; the destructor of the
    stream closes it. *)
Definition XmlNode_file (fs : fsys) (filename : bytes) : X XmlNode :=
  fun x =>
    let '(ok, f) := Open fs filename false FileStream_ctor in
    if negb ok then Ret (mkXN None None, x)
    else match Size f with
         | Ret (size, f) =>
             if u32 size =? 0 then Ret (mkXN None None, x)
             else match Read (u32 size) f with
                  | Ret (got, f) =>
                      let buf := got ++ replicate (Z.to_nat (u32 size) - length got) 0 in
                      match Close f with
                      | Ret _ => (root ← mxmlLoadString oom None buf; mret (mkXN root None)) x
                      | _ => Crash
                      end
                  | _ => Crash
                  end
         | _ => Crash
         end.
Definition XmlNode_dtor (n : XmlNode) : X unit :=
  match _parent n, _data n with None, Some p => mxmlDelete (Some p) | _, _ => mret tt end.

Definition GetChild (n : XmlNode) (name : bytes) : X (option XmlNode) :=
  q ← mxmlFindElement (_data n) (_data n) (Some name) None None MXML_DESCEND_FIRST;
  mret (match q with Some _ => Some (mkXN q (Some (_data n))) | None => None end).
Definition GetNext (n : XmlNode) (name : bytes) : X (option XmlNode) :=
  let root := match _parent n with None => None | Some d => d end in
  q ← mxmlFindElement (_data n) root (Some name) None None MXML_NO_DESCEND;
  mret (match q with Some _ => Some (mkXN q (_parent n)) | None => None end).

Definition GetAttrString (n : XmlNode) (name : bytes) (def : option bytes) : X (option bytes) :=
  match _data n with
  | None => mret def
  | Some _ => r ← mxmlElementGetAttr (_data n) (Some name); mret (match r with Some _ => r | None => def end)
  end.
Definition GetAttrInteger (n : XmlNode) (name : bytes) (def : Z) : X Z :=
  r ← GetAttrString n name None;
  mret (match r with Some s => atoi s | None => def end).

(** The attributes of one element, in the order of the keys. *)
Fixpoint read_item (child : ptr) (keys : list bytes) : X (list bytes) :=
  match keys with
  | [] => mret []
  | k :: keys =>
      str ← mxmlElementGetAttr child (Some k);
      l ← read_item child keys;
      mret (cstr (default [] str) :: l)
  end.
Fixpoint read_loop (fuel : nat) (nd child : ptr) (keys : list bytes) (name : bytes) (result : list (list bytes))
  : X (list (list bytes)) :=
  match child with
  | None => mret result
  | Some _ =>
      match fuel with
      | O => fun _ => NoFuel
      | S fuel =>
          item ← read_item child keys;
          child ← mxmlFindElement child nd (Some name) None None MXML_NO_DESCEND;
          read_loop fuel nd child keys name (result ++ [item])
      end
  end.
Definition ReadArray (n : XmlNode) (keys : list bytes) (name : bytes) : X (list (list bytes)) :=
  match _data n, keys with
  | None, _ | _, [] => mret []
  | Some _, _ =>
      child ← mxmlFindElement (_data n) (_data n) (Some name) None None MXML_DESCEND_FIRST;
      heap_fuel (fun fuel => read_loop fuel (_data n) child keys name [])
  end.

(** ** Cfg *)

(** [std::string s = node->GetAttrString(name, def)]. *)
Definition str_attr (n : XmlNode) (name def : bytes) : X bytes :=
  s ← GetAttrString n name (Some def); mret (cstr (default [] s)).
Definition uint_attr (n : XmlNode) (name : bytes) (def : Z) : X Z :=
  v ← GetAttrInteger n name def; mret (u32 v).
(** [node.reset(config.GetChild(name)); if(node.get() != NULL) ...]. *)
Definition section_of {A} (config : XmlNode) (name : bytes) (a : A) (f : XmlNode -> X A) : X A :=
  c ← GetChild config name;
  match c with Some n => f n | None => mret a end.

(** [Core::Cfg] of blitzd. *)
Record Cfg := mkCfg {
  c_TcpPort : Z; c_UdpPort : Z; c_Name : bytes;
  c_DBEngine : bytes; c_DBFile : bytes; c_HashtableSize : Z;
  c_CfgDir : bytes; c_FilesDir : bytes; c_GamesDir : bytes; c_DataDir : bytes;
  c_NewsFile : bytes; c_MotdFile : bytes; c_CheckRevFile : bytes; c_ChannelFile : bytes; c_LadderMapFile : bytes
}.
(** The global object before [Load]: zeros and empty strings. *)
Definition Cfg_zero : Cfg := mkCfg 0 0 [] [] [] 0 [] [] [] [] [] [] [] [] [].

Definition Cfg_Server (n : XmlNode) (c : Cfg) : X Cfg :=
  tcp ← uint_attr n (b# "Port") 6112;
  udp ← uint_attr n (b# "UDPPort") 6112;
  name ← str_attr n (b# "Name") (b# "Blitz Daemon Server");
  mret (mkCfg tcp udp name (c_DBEngine c) (c_DBFile c) (c_HashtableSize c) (c_CfgDir c) (c_FilesDir c) (c_GamesDir c)
          (c_DataDir c) (c_NewsFile c) (c_MotdFile c) (c_CheckRevFile c) (c_ChannelFile c) (c_LadderMapFile c)).
Definition Cfg_Data (n : XmlNode) (c : Cfg) : X Cfg :=
  engine ← str_attr n (b# "DbEngine") (b# "sqlite");
  file ← str_attr n (b# "Database") (b# "blitzd.sqlite");
  size ← uint_attr n (b# "HashtableSize") 1024;
  mret (mkCfg (c_TcpPort c) (c_UdpPort c) (c_Name c) engine file size (c_CfgDir c) (c_FilesDir c) (c_GamesDir c)
          (c_DataDir c) (c_NewsFile c) (c_MotdFile c) (c_CheckRevFile c) (c_ChannelFile c) (c_LadderMapFile c)).
Definition Cfg_Dir (n : XmlNode) (c : Cfg) : X Cfg :=
  cfg ← str_attr n (b# "ConfigDir") (b# "config");
  files ← str_attr n (b# "FilesDir") (b# "files");
  games ← str_attr n (b# "GamesDir") (b# "games");
  data ← str_attr n (b# "Datadir") (b# "data");
  mret (mkCfg (c_TcpPort c) (c_UdpPort c) (c_Name c) (c_DBEngine c) (c_DBFile c) (c_HashtableSize c) cfg files games
          data (c_NewsFile c) (c_MotdFile c) (c_CheckRevFile c) (c_ChannelFile c) (c_LadderMapFile c)).
Definition Cfg_File (n : XmlNode) (c : Cfg) : X Cfg :=
  news ← str_attr n (b# "News") (b# "news.txt");
  motd ← str_attr n (b# "Motd") (b# "motd.txt");
  checkrev ← str_attr n (b# "Checkrev") (b# "checkrev.xml");
  channel ← str_attr n (b# "Channel") (b# "channel.xml");
  ladder ← str_attr n (b# "LadderMap") (b# "laddermap.xml");
  mret (mkCfg (c_TcpPort c) (c_UdpPort c) (c_Name c) (c_DBEngine c) (c_DBFile c) (c_HashtableSize c) (c_CfgDir c)
          (c_FilesDir c) (c_GamesDir c) (c_DataDir c) news motd checkrev channel ladder).

Definition Cfg_Load (fs : fsys) (filename : bytes) (c : Cfg) : X Cfg :=
  config ← XmlNode_file fs filename;
  c ← section_of config (b# "Server") c (fun n => Cfg_Server n c);
  c ← section_of config (b# "Data") c (fun n => Cfg_Data n c);
  c ← section_of config (b# "Dir") c (fun n => Cfg_Dir n c);
  c ← section_of config (b# "File") c (fun n => Cfg_File n c);
  XmlNode_dtor config ;; mret c.

(** [Core::Cfg] of baald. *)
Record BaalCfg := mkBaalCfg {
  bc_BlitzDAddr : bytes; bc_BlitzDPort : Z; bc_TcpPort : Z; bc_Name : bytes; bc_Description : bytes;
  bc_HashtableSize : Z; bc_CfgDir : bytes
}.
Definition Baal_Server (n : XmlNode) (c : BaalCfg) : X BaalCfg :=
  addr ← str_attr n (b# "BlitzDAddress") (b# "localhost");
  port ← uint_attr n (b# "BlitzDPort") 6112;
  tcp ← uint_attr n (b# "Port") 6113;
  name ← str_attr n (b# "Name") (b# "Baal Realm");
  desc ← str_attr n (b# "_Description") (b# "Diablo II Baal Realm");
  mret (mkBaalCfg addr port tcp name desc (bc_HashtableSize c) (bc_CfgDir c)).
Definition Baal_Data (n : XmlNode) (c : BaalCfg) : X BaalCfg :=
  size ← uint_attr n (b# "hashtableSize") 1024;
  mret (mkBaalCfg (bc_BlitzDAddr c) (bc_BlitzDPort c) (bc_TcpPort c) (bc_Name c) (bc_Description c) size (bc_CfgDir c)).
Definition Baal_Dir (n : XmlNode) (c : BaalCfg) : X BaalCfg :=
  dir ← str_attr n (b# "configDir") (b# "config");
  mret (mkBaalCfg (bc_BlitzDAddr c) (bc_BlitzDPort c) (bc_TcpPort c) (bc_Name c) (bc_Description c) (bc_HashtableSize c) dir).
Definition BaalCfg_Load (fs : fsys) (filename : bytes) (c : BaalCfg) : X BaalCfg :=
  config ← XmlNode_file fs filename;
  c ← section_of config (b# "Server") c (fun n => Baal_Server n c);
  c ← section_of config (b# "Data") c (fun n => Baal_Data n c);
  c ← section_of config (b# "Dir") c (fun n => Baal_Dir n c);
  XmlNode_dtor config ;; mret c.

(** [Core::Cfg] of shald. *)
Record ShalCfg := mkShalCfg { sc_TcpPort : Z; sc_Name : bytes; sc_Description : bytes; sc_HashtableSize : Z; sc_CfgDir : bytes }.
Definition Shal_Server (n : XmlNode) (c : ShalCfg) : X ShalCfg :=
  tcp ← uint_attr n (b# "Port") 6202;
  name ← str_attr n (b# "Name") (b# "Shal Daemon");
  desc ← str_attr n (b# "_Description") (b# "Shal Memory Cache Daemon");
  mret (mkShalCfg tcp name desc (sc_HashtableSize c) (sc_CfgDir c)).
Definition Shal_Data (n : XmlNode) (c : ShalCfg) : X ShalCfg :=
  size ← uint_attr n (b# "hashtableSize") 1024;
  mret (mkShalCfg (sc_TcpPort c) (sc_Name c) (sc_Description c) size (sc_CfgDir c)).
Definition Shal_Dir (n : XmlNode) (c : ShalCfg) : X ShalCfg :=
  dir ← str_attr n (b# "configDir") (b# "config");
  mret (mkShalCfg (sc_TcpPort c) (sc_Name c) (sc_Description c) (sc_HashtableSize c) dir).
Definition ShalCfg_Load (fs : fsys) (filename : bytes) (c : ShalCfg) : X ShalCfg :=
  config ← XmlNode_file fs filename;
  c ← section_of config (b# "Server") c (fun n => Shal_Server n c);
  c ← section_of config (b# "Data") c (fun n => Shal_Data n c);
  c ← section_of config (b# "Dir") c (fun n => Shal_Dir n c);
  XmlNode_dtor config ;; mret c.
End xml.
