(* ===== verification/CfgLoad.v ===== *)
(** * CfgLoad: what the daemons read from their XML files

    [Text::XmlNode] on a document in the heap gives what the document's tree
    has; so the configuration a daemon gets is a function of the tree of the
    file, and all memory of the document is given back. *)

From S2P Require Import Prelude Words Stream CStr OMap Strtol Files MxmlNode MxmlTree MxmlLoad MxmlSearch MxmlBuild MxmlText MxmlGrammar MxmlParse MxmlDoc MxmlRead XmlConf.

(** ** Looking into a tree *)

Definition t_kids (t : xnode) : list xnode := let 'XNode _ ts := t in ts.
Definition t_named (name : bytes) (t : xnode) : bool := let 'XNode v _ := t in named name v.
(** The children of that name, and the first of them. *)
Definition kids_named (name : bytes) (t : xnode) : list xnode := List.filter (t_named name) (t_kids t).
Definition kid_named (name : bytes) (t : xnode) : option xnode := head (kids_named name t).
Definition t_attr (t : xnode) (name : bytes) : option bytes :=
  match t with XNode (VElement _ l) _ => find_attr name l ≫= attr_value | _ => None end.
Definition t_str (t : xnode) (name def : bytes) : bytes := cstr (default def (t_attr t name)).
Definition t_int (t : xnode) (name : bytes) (def : Z) : Z := match t_attr t name with Some s => atoi s | None => def end.
Definition t_uint (t : xnode) (name : bytes) (def : Z) : Z := u32 (t_int t name def).
(** A row of [ReadArray]. *)
Definition t_row (keys : list bytes) (t : xnode) : list bytes := map (fun k => cstr (default [] (t_attr t k))) keys.

(** [f] of the first child of that name, or what there was before. *)
Definition sect {A} (t : xnode) (name : bytes) (f : xnode -> A) (old : A) : A :=
  match kid_named name t with Some n => f n | None => old end.

(** The configurations, field by field: section, attribute and default. *)
Definition cfg_of (t : xnode) (c : Cfg) : Cfg :=
  mkCfg (sect t (b# "Server") (fun n => t_uint n (b# "Port") 6112) (c_TcpPort c))
        (sect t (b# "Server") (fun n => t_uint n (b# "UDPPort") 6112) (c_UdpPort c))
        (sect t (b# "Server") (fun n => t_str n (b# "Name") (b# "Blitz Daemon Server")) (c_Name c))
        (sect t (b# "Data") (fun n => t_str n (b# "DbEngine") (b# "sqlite")) (c_DBEngine c))
        (sect t (b# "Data") (fun n => t_str n (b# "Database") (b# "blitzd.sqlite")) (c_DBFile c))
        (sect t (b# "Data") (fun n => t_uint n (b# "HashtableSize") 1024) (c_HashtableSize c))
        (sect t (b# "Dir") (fun n => t_str n (b# "ConfigDir") (b# "config")) (c_CfgDir c))
        (sect t (b# "Dir") (fun n => t_str n (b# "FilesDir") (b# "files")) (c_FilesDir c))
        (sect t (b# "Dir") (fun n => t_str n (b# "GamesDir") (b# "games")) (c_GamesDir c))
        (sect t (b# "Dir") (fun n => t_str n (b# "Datadir") (b# "data")) (c_DataDir c))
        (sect t (b# "File") (fun n => t_str n (b# "News") (b# "news.txt")) (c_NewsFile c))
        (sect t (b# "File") (fun n => t_str n (b# "Motd") (b# "motd.txt")) (c_MotdFile c))
        (sect t (b# "File") (fun n => t_str n (b# "Checkrev") (b# "checkrev.xml")) (c_CheckRevFile c))
        (sect t (b# "File") (fun n => t_str n (b# "Channel") (b# "channel.xml")) (c_ChannelFile c))
        (sect t (b# "File") (fun n => t_str n (b# "LadderMap") (b# "laddermap.xml")) (c_LadderMapFile c)).
Definition baal_cfg_of (t : xnode) (c : BaalCfg) : BaalCfg :=
  mkBaalCfg (sect t (b# "Server") (fun n => t_str n (b# "BlitzDAddress") (b# "localhost")) (bc_BlitzDAddr c))
            (sect t (b# "Server") (fun n => t_uint n (b# "BlitzDPort") 6112) (bc_BlitzDPort c))
            (sect t (b# "Server") (fun n => t_uint n (b# "Port") 6113) (bc_TcpPort c))
            (sect t (b# "Server") (fun n => t_str n (b# "Name") (b# "Baal Realm")) (bc_Name c))
            (sect t (b# "Server") (fun n => t_str n (b# "_Description") (b# "Diablo II Baal Realm")) (bc_Description c))
            (sect t (b# "Data") (fun n => t_uint n (b# "hashtableSize") 1024) (bc_HashtableSize c))
            (sect t (b# "Dir") (fun n => t_str n (b# "configDir") (b# "config")) (bc_CfgDir c)).
Definition shal_cfg_of (t : xnode) (c : ShalCfg) : ShalCfg :=
  mkShalCfg (sect t (b# "Server") (fun n => t_uint n (b# "Port") 6202) (sc_TcpPort c))
            (sect t (b# "Server") (fun n => t_str n (b# "Name") (b# "Shal Daemon")) (sc_Name c))
            (sect t (b# "Server") (fun n => t_str n (b# "_Description") (b# "Shal Memory Cache Daemon")) (sc_Description c))
            (sect t (b# "Data") (fun n => t_uint n (b# "hashtableSize") 1024) (sc_HashtableSize c))
            (sect t (b# "Dir") (fun n => t_str n (b# "configDir") (b# "config")) (sc_CfgDir c)).

(** ** The heap and the tree *)

Section heap.
Context (x : xml) (K : gmap nat (list nat)) (lo : nat) (HT : tree_ok x K).
Notation rep := (rep x K lo).
Notation reps := (reps x K lo).

Lemma rep_inv p v ts : rep p (XNode v ts) -> val x p = Some v /\ exists qs, K !! p = Some qs /\ reps qs ts.
Proof. inversion 1; subst. eauto. Qed.
Lemma rep_named name p t : rep p t -> (match fld n_value (x_heap x) p with Some v => named name v | None => false end) = t_named name t.
Proof. destruct t as [v ts]. intros [Hv _]%rep_inv. unfold val in Hv. by rewrite Hv. Qed.

(** The children of that name. *)
Definition ids_named (name : bytes) (qs : list nat) : list nat :=
  List.filter (fun q => match fld n_value (x_heap x) q with Some v => named name v | None => false end) qs.
Lemma first_named_head name qs : first_named (x_heap x) name qs = head (ids_named name qs).
Proof.
  unfold ids_named. induction qs as [|q qs IH]; [done|]. cbn [first_named List.filter].
  by destruct (match fld n_value (x_heap x) q with Some v => named name v | None => false end).
Qed.
Lemma reps_named name qs ts : reps qs ts -> reps (ids_named name qs) (List.filter (t_named name) ts).
Proof.
  revert ts. induction qs as [|q qs IH]; intros ts H; inversion H as [|? t ? ts' Hr Hrs]; subst; [constructor|]. cbn [ids_named List.filter].
  rewrite (rep_named name _ _ Hr). destruct (t_named name t); [constructor; [done|]|]; by apply IH.
Qed.

Lemma GetChild_rep p t par name : rep p t ->
  exists r, GetChild (mkXN (Some p) par) name x = Ret (r, x) /\
    match kid_named name t with
    | Some n => exists c, r = Some (mkXN (Some c) (Some (Some p))) /\ rep c n
    | None => r = None
    end.
Proof.
  destruct t as [v ts]. intros (Hv & qs & HK & Hr)%rep_inv. unfold GetChild. cbn [_data].
  rewrite (xbind_eq _ _ _ _ _ (FindElement_child x K p qs name (to_forest _ _ HT) HK)). rewrite first_named_head.
  eexists. split; [done|]. unfold kid_named, kids_named. cbn [t_kids]. pose proof (reps_named name _ _ Hr) as Hf.
  inversion Hf; subst; cbn [head]; eauto.
Qed.

Lemma rep_attr p t name : rep p t -> mxmlElementGetAttr (Some p) (Some name) x = Ret (t_attr t name, x).
Proof.
  destruct t as [v ts]. intros [Hv _]%rep_inv. destruct (live_val _ _ (val_live _ _ _ Hv)) as (n & Hn & En). rewrite Hv in En. injection En as En.
  unfold mxmlElementGetAttr. rewrite (xbind_eq _ _ _ _ _ (node_run _ _ _ Hn)), <- En. unfold t_attr. by destruct v.
Qed.
Lemma GetAttrString_rep p t par name def : rep p t ->
  GetAttrString (mkXN (Some p) par) name def x = Ret (match t_attr t name with Some s => Some s | None => def end, x).
Proof. intros Hr. unfold GetAttrString. cbn [_data]. rewrite (xbind_eq _ _ _ _ _ (rep_attr p t name Hr)). by destruct (t_attr t name). Qed.
Lemma GetAttrInteger_rep p t par name def : rep p t -> GetAttrInteger (mkXN (Some p) par) name def x = Ret (t_int t name def, x).
Proof.
  intros Hr. unfold GetAttrInteger, t_int. rewrite (xbind_eq _ _ _ _ _ (GetAttrString_rep p t par name None Hr)). by destruct (t_attr t name).
Qed.
Lemma str_attr_rep p t par name def : rep p t -> str_attr (mkXN (Some p) par) name def x = Ret (t_str t name def, x).
Proof.
  intros Hr. unfold str_attr, t_str. rewrite (xbind_eq _ _ _ _ _ (GetAttrString_rep p t par name _ Hr)). by destruct (t_attr t name).
Qed.
Lemma uint_attr_rep p t par name def : rep p t -> uint_attr (mkXN (Some p) par) name def x = Ret (t_uint t name def, x).
Proof. intros Hr. unfold uint_attr. by rewrite (xbind_eq _ _ _ _ _ (GetAttrInteger_rep p t par name def Hr)). Qed.

Lemma section_rep {A} p t par name (a : A) (f : XmlNode -> X A) (g : xnode -> A) :
  rep p t -> (forall c n, rep c n -> f (mkXN (Some c) (Some (Some p))) x = Ret (g n, x)) ->
  section_of (mkXN (Some p) par) name a f x = Ret (sect t name g a, x).
Proof.
  intros Hr Hf. unfold section_of. destruct (GetChild_rep p t par name Hr) as (r & E & Hk). rewrite (xbind_eq _ _ _ _ _ E). unfold sect.
  destruct (kid_named name t) as [n|]; [destruct Hk as (c & -> & Hc); by apply Hf|by rewrite Hk].
Qed.
End heap.

(** Rewriting with what an attribute gives. *)
Ltac attrs Hr := repeat first
  [ rewrite (xbind_eq _ _ _ _ _ (str_attr_rep _ _ _ _ _ _ _ _ Hr))
  | rewrite (xbind_eq _ _ _ _ _ (uint_attr_rep _ _ _ _ _ _ _ _ Hr)) ].

(** ** Files *)

Section files.
Context (oom : nat -> bool) (Hoom : forall n, oom n = false) (fs : fsys) (filename : bytes).

Lemma doc_nonempty d : doc_ok d = true -> doc_text d <> [].
Proof.
  destruct d as [ws pi body ws'|ws root ws']; cbn [doc_ok doc_text]; rewrite !andb_true_iff; [intros _; unfold special_text; nonnil|].
  intros [[[_ Hn] He] _]. destruct (tag_text root Hn) as (t & -> & _); [by destruct root|]. nonnil.
Qed.

(** A file with a document: its tree is in the heap. *)
Lemma XmlNode_file_run d x K : fs filename = Some (doc_text d) -> Z.of_nat (length (doc_text d)) < 2 ^ 32 -> doc_ok d = true -> tree_ok x K ->
  exists p x', XmlNode_file oom fs filename x = Ret (mkXN (Some p) None, x') /\ exists K', grown x K None [doc_tree d] x' K' /\
    rep x' K' (x_count x) p (doc_tree d) /\ (forall q, (x_count x <= q)%nat -> is_Some (K' !! q) -> rtc (child_of K') q p).
Proof.
  intros Hf Hlen Hok HT. destruct (load_doc oom Hoom d x K Hok HT) as (p & x' & K' & E & H). exists p, x'. split; [|eauto].
  unfold XmlNode_file, Open. rewrite Hf. cbn [negb Size _file]. rewrite u32_small by lia.
  destruct (Z.eqb_spec (Z.of_nat (length (doc_text d))) 0) as [H0|_]; [pose proof (doc_nonempty d Hok); destruct (doc_text d); cbn in *; [done|lia]|].
  unfold Read. cbn [_file _nocache]. change (Z.to_nat (u32 (Z.of_nat 0))) with 0%nat. rewrite drop_0, Nat2Z.id, firstn_all, Nat.sub_diag, app_nil_r.
  cbn [Close _file]. by rewrite (xbind_eq _ _ _ _ _ E).
Qed.
(** No file, or an empty one. *)
Lemma XmlNode_file_none x : fs filename = None \/ fs filename = Some [] -> XmlNode_file oom fs filename x = Ret (mkXN None None, x).
Proof. intros [E|E]; unfold XmlNode_file, Open; by rewrite E. Qed.

(** Whatever is read from the document in between, closing it gives back its
    memory. *)
Lemma with_file {A} (m : XmlNode -> X A) (a : A) d x K :
  fs filename = Some (doc_text d) -> Z.of_nat (length (doc_text d)) < 2 ^ 32 -> doc_ok d = true -> tree_ok x K ->
  (forall x1 K1 p, tree_ok x1 K1 -> rep x1 K1 (x_count x) p (doc_tree d) -> m (mkXN (Some p) None) x1 = Ret (a, x1)) ->
  exists x', (n ← XmlNode_file oom fs filename; a ← m n; XmlNode_dtor n ;; mret a) x = Ret (a, x') /\
    tree_ok x' K /\ forall q, val x' q = val x q.
Proof.
  intros Hf Hlen Hok HT Hm. destruct (XmlNode_file_run d x K Hf Hlen Hok HT) as (p & x1 & E & K1 & Hg & Hr & Hb).
  destruct (free_doc x K _ x1 K1 p HT Hg Hr Hb) as (x2 & E2 & H2). exists x2. split; [|done].
  rewrite (xbind_eq _ _ _ _ _ E), (xbind_eq _ _ _ _ _ (Hm x1 K1 p (gr_tree _ _ _ _ _ _ Hg) Hr)).
  by rewrite (xbind_eq (XmlNode_dtor (mkXN (Some p) None)) _ _ _ _ E2).
Qed.

(** ** Configurations *)

Lemma Cfg_Load_doc d c x K : fs filename = Some (doc_text d) -> Z.of_nat (length (doc_text d)) < 2 ^ 32 -> doc_ok d = true -> tree_ok x K ->
  exists x', Cfg_Load oom fs filename c x = Ret (cfg_of (doc_tree d) c, x') /\ tree_ok x' K /\ forall q, val x' q = val x q.
Proof.
  intros Hf Hlen Hok HT. destruct (XmlNode_file_run d x K Hf Hlen Hok HT) as (p & x1 & E & K1 & Hg & Hr & Hb).
  destruct (free_doc x K _ x1 K1 p HT Hg Hr Hb) as (x2 & E2 & H2). exists x2. split; [|done]. pose proof (gr_tree _ _ _ _ _ _ Hg) as T1.
  unfold Cfg_Load. rewrite (xbind_eq _ _ _ _ _ E). set (t := doc_tree d) in *.
  rewrite (xbind_eq _ _ _ _ _ (section_rep x1 K1 _ T1 p t None (b# "Server") c (fun n => Cfg_Server n c)
    (fun n => mkCfg (t_uint n (b# "Port") 6112) (t_uint n (b# "UDPPort") 6112) (t_str n (b# "Name") (b# "Blitz Daemon Server"))
       (c_DBEngine c) (c_DBFile c) (c_HashtableSize c) (c_CfgDir c) (c_FilesDir c) (c_GamesDir c)
       (c_DataDir c) (c_NewsFile c) (c_MotdFile c) (c_CheckRevFile c) (c_ChannelFile c) (c_LadderMapFile c)) Hr
    ltac:(intros q n Hn; unfold Cfg_Server; attrs Hn; reflexivity))).
  set (c1 := sect t (b# "Server") _ c).
  rewrite (xbind_eq _ _ _ _ _ (section_rep x1 K1 _ T1 p t None (b# "Data") c1 (fun n => Cfg_Data n c1)
    (fun n => mkCfg (c_TcpPort c1) (c_UdpPort c1) (c_Name c1) (t_str n (b# "DbEngine") (b# "sqlite")) (t_str n (b# "Database") (b# "blitzd.sqlite"))
       (t_uint n (b# "HashtableSize") 1024) (c_CfgDir c1) (c_FilesDir c1) (c_GamesDir c1)
       (c_DataDir c1) (c_NewsFile c1) (c_MotdFile c1) (c_CheckRevFile c1) (c_ChannelFile c1) (c_LadderMapFile c1)) Hr
    ltac:(intros q n Hn; unfold Cfg_Data; attrs Hn; reflexivity))).
  set (c2 := sect t (b# "Data") _ c1).
  rewrite (xbind_eq _ _ _ _ _ (section_rep x1 K1 _ T1 p t None (b# "Dir") c2 (fun n => Cfg_Dir n c2)
    (fun n => mkCfg (c_TcpPort c2) (c_UdpPort c2) (c_Name c2) (c_DBEngine c2) (c_DBFile c2) (c_HashtableSize c2)
       (t_str n (b# "ConfigDir") (b# "config")) (t_str n (b# "FilesDir") (b# "files")) (t_str n (b# "GamesDir") (b# "games"))
       (t_str n (b# "Datadir") (b# "data")) (c_NewsFile c2) (c_MotdFile c2) (c_CheckRevFile c2) (c_ChannelFile c2) (c_LadderMapFile c2)) Hr
    ltac:(intros q n Hn; unfold Cfg_Dir; attrs Hn; reflexivity))).
  set (c3 := sect t (b# "Dir") _ c2).
  rewrite (xbind_eq _ _ _ _ _ (section_rep x1 K1 _ T1 p t None (b# "File") c3 (fun n => Cfg_File n c3)
    (fun n => mkCfg (c_TcpPort c3) (c_UdpPort c3) (c_Name c3) (c_DBEngine c3) (c_DBFile c3) (c_HashtableSize c3) (c_CfgDir c3)
       (c_FilesDir c3) (c_GamesDir c3) (c_DataDir c3) (t_str n (b# "News") (b# "news.txt")) (t_str n (b# "Motd") (b# "motd.txt"))
       (t_str n (b# "Checkrev") (b# "checkrev.xml")) (t_str n (b# "Channel") (b# "channel.xml")) (t_str n (b# "LadderMap") (b# "laddermap.xml"))) Hr
    ltac:(intros q n Hn; unfold Cfg_File; attrs Hn; reflexivity))).
  rewrite (xbind_eq (XmlNode_dtor (mkXN (Some p) None)) _ _ _ _ E2). unfold cfg_of, c3, c2, c1, sect.
  generalize (kid_named (b# "Server") t) (kid_named (b# "Data") t) (kid_named (b# "Dir") t) (kid_named (b# "File") t).
  intros [] [] [] []; by destruct c.
Qed.
Lemma BaalCfg_Load_doc d c x K : fs filename = Some (doc_text d) -> Z.of_nat (length (doc_text d)) < 2 ^ 32 -> doc_ok d = true -> tree_ok x K ->
  exists x', BaalCfg_Load oom fs filename c x = Ret (baal_cfg_of (doc_tree d) c, x') /\ tree_ok x' K /\ forall q, val x' q = val x q.
Proof.
  intros Hf Hlen Hok HT. destruct (XmlNode_file_run d x K Hf Hlen Hok HT) as (p & x1 & E & K1 & Hg & Hr & Hb).
  destruct (free_doc x K _ x1 K1 p HT Hg Hr Hb) as (x2 & E2 & H2). exists x2. split; [|done]. pose proof (gr_tree _ _ _ _ _ _ Hg) as T1.
  unfold BaalCfg_Load. rewrite (xbind_eq _ _ _ _ _ E). set (t := doc_tree d) in *.
  rewrite (xbind_eq _ _ _ _ _ (section_rep x1 K1 _ T1 p t None (b# "Server") c (fun n => Baal_Server n c)
    (fun n => mkBaalCfg (t_str n (b# "BlitzDAddress") (b# "localhost")) (t_uint n (b# "BlitzDPort") 6112) (t_uint n (b# "Port") 6113)
       (t_str n (b# "Name") (b# "Baal Realm")) (t_str n (b# "_Description") (b# "Diablo II Baal Realm")) (bc_HashtableSize c) (bc_CfgDir c)) Hr
    ltac:(intros q n Hn; unfold Baal_Server; attrs Hn; reflexivity))).
  set (c1 := sect t (b# "Server") _ c).
  rewrite (xbind_eq _ _ _ _ _ (section_rep x1 K1 _ T1 p t None (b# "Data") c1 (fun n => Baal_Data n c1)
    (fun n => mkBaalCfg (bc_BlitzDAddr c1) (bc_BlitzDPort c1) (bc_TcpPort c1) (bc_Name c1) (bc_Description c1) (t_uint n (b# "hashtableSize") 1024) (bc_CfgDir c1)) Hr
    ltac:(intros q n Hn; unfold Baal_Data; attrs Hn; reflexivity))).
  set (c2 := sect t (b# "Data") _ c1).
  rewrite (xbind_eq _ _ _ _ _ (section_rep x1 K1 _ T1 p t None (b# "Dir") c2 (fun n => Baal_Dir n c2)
    (fun n => mkBaalCfg (bc_BlitzDAddr c2) (bc_BlitzDPort c2) (bc_TcpPort c2) (bc_Name c2) (bc_Description c2) (bc_HashtableSize c2) (t_str n (b# "configDir") (b# "config"))) Hr
    ltac:(intros q n Hn; unfold Baal_Dir; attrs Hn; reflexivity))).
  rewrite (xbind_eq (XmlNode_dtor (mkXN (Some p) None)) _ _ _ _ E2). unfold baal_cfg_of, c2, c1, sect.
  generalize (kid_named (b# "Server") t) (kid_named (b# "Data") t) (kid_named (b# "Dir") t). intros [] [] []; by destruct c.
Qed.
Lemma ShalCfg_Load_doc d c x K : fs filename = Some (doc_text d) -> Z.of_nat (length (doc_text d)) < 2 ^ 32 -> doc_ok d = true -> tree_ok x K ->
  exists x', ShalCfg_Load oom fs filename c x = Ret (shal_cfg_of (doc_tree d) c, x') /\ tree_ok x' K /\ forall q, val x' q = val x q.
Proof.
  intros Hf Hlen Hok HT. destruct (XmlNode_file_run d x K Hf Hlen Hok HT) as (p & x1 & E & K1 & Hg & Hr & Hb).
  destruct (free_doc x K _ x1 K1 p HT Hg Hr Hb) as (x2 & E2 & H2). exists x2. split; [|done]. pose proof (gr_tree _ _ _ _ _ _ Hg) as T1.
  unfold ShalCfg_Load. rewrite (xbind_eq _ _ _ _ _ E). set (t := doc_tree d) in *.
  rewrite (xbind_eq _ _ _ _ _ (section_rep x1 K1 _ T1 p t None (b# "Server") c (fun n => Shal_Server n c)
    (fun n => mkShalCfg (t_uint n (b# "Port") 6202) (t_str n (b# "Name") (b# "Shal Daemon")) (t_str n (b# "_Description") (b# "Shal Memory Cache Daemon"))
       (sc_HashtableSize c) (sc_CfgDir c)) Hr
    ltac:(intros q n Hn; unfold Shal_Server; attrs Hn; reflexivity))).
  set (c1 := sect t (b# "Server") _ c).
  rewrite (xbind_eq _ _ _ _ _ (section_rep x1 K1 _ T1 p t None (b# "Data") c1 (fun n => Shal_Data n c1)
    (fun n => mkShalCfg (sc_TcpPort c1) (sc_Name c1) (sc_Description c1) (t_uint n (b# "hashtableSize") 1024) (sc_CfgDir c1)) Hr
    ltac:(intros q n Hn; unfold Shal_Data; attrs Hn; reflexivity))).
  set (c2 := sect t (b# "Data") _ c1).
  rewrite (xbind_eq _ _ _ _ _ (section_rep x1 K1 _ T1 p t None (b# "Dir") c2 (fun n => Shal_Dir n c2)
    (fun n => mkShalCfg (sc_TcpPort c2) (sc_Name c2) (sc_Description c2) (sc_HashtableSize c2) (t_str n (b# "configDir") (b# "config"))) Hr
    ltac:(intros q n Hn; unfold Shal_Dir; attrs Hn; reflexivity))).
  rewrite (xbind_eq (XmlNode_dtor (mkXN (Some p) None)) _ _ _ _ E2). unfold shal_cfg_of, c2, c1, sect.
  generalize (kid_named (b# "Server") t) (kid_named (b# "Data") t) (kid_named (b# "Dir") t). intros [] [] []; by destruct c.
Qed.

Lemma Cfg_Load_none c x : fs filename = None \/ fs filename = Some [] -> Cfg_Load oom fs filename c x = Ret (c, x).
Proof. intros H. unfold Cfg_Load. by rewrite (xbind_eq _ _ _ _ _ (XmlNode_file_none x H)). Qed.

End files.

(** ** etc/BlitzD.xml *)

(** An element over several lines, one attribute on each. *)
Definition conf_elem (name : bytes) (l : list (bytes * bytes)) : wnode :=
  WEmpty (mkWH name (Some (10, map (fun e => mkWA [10; 32; 32] e.1 [] [] 34 (map Raw e.2)) l, [10; 32; 32]))).
(** The file of the repository: its names differ in case from the ones that are
    read. *)
Definition shipped_conf : wdoc :=
  DPi [] (b# "xml version=" ++ [34] ++ b# "1.0" ++ [34] ++ b# " encoding=" ++ [34] ++ b# "UTF-8" ++ [34] ++ b# " ?")
    (WCons [10] (conf_elem (b# "Server") [(b# "port", b# "6112"); (b# "name", b# "Blitz Daemon Server")])
    (WCons [10; 10] (conf_elem (b# "Data") [(b# "dbEngine", b# "sqlite"); (b# "database", b# "blitzd.sqlite"); (b# "hashtableSize", b# "1024")])
    (WCons [10; 10] (conf_elem (b# "Dir") [(b# "configDir", b# "config"); (b# "filesDir", b# "files"); (b# "gamesDir", b# "games"); (b# "datadir", b# "data")])
    (WCons [10; 10] (conf_elem (b# "File") [(b# "news", b# "news.txt"); (b# "motd", b# "motd.txt"); (b# "checkrev", b# "checkrev.xml"); (b# "channel", b# "channel.xml"); (b# "ladderMap", b# "laddermap.xml")])
     WNil)))) [10].
Definition own_conf : wdoc :=
  DPi [] (b# "xml version='1.0' ?")
    (WCons [10] (conf_elem (b# "Server") [(b# "Port", b# "6200"); (b# "Name", b# "Lost Temple")])
    (WCons [10] (conf_elem (b# "Data") []) WNil)) [].

(** The shipped file gives the defaults: no attribute of it is read. *)
Example shipped_conf_defaults : doc_ok shipped_conf = true /\
  cfg_of (doc_tree shipped_conf) Cfg_zero =
    mkCfg 6112 6112 (b# "Blitz Daemon Server") (b# "sqlite") (b# "blitzd.sqlite") 1024 (b# "config") (b# "files") (b# "games") (b# "data")
      (b# "news.txt") (b# "motd.txt") (b# "checkrev.xml") (b# "channel.xml") (b# "laddermap.xml").
Proof. split; vm_compute; reflexivity. Qed.
