(* ===== verification/MemCache.v ===== *)
(** * MemCache: the arena allocator of shald (shald/cache/MemCache.cpp)

    One block of memory from the C library is cut into chunks.  The first word
    of a chunk in use holds its size; a free chunk holds the address of the next
    free chunk and its size; the free list is sorted by address.  [Alloc] is
    first fit, [Free] joins a chunk with its free neighbours.  The memory is a
    map from word addresses to words of 64 bits ([size_t] is 8 bytes); access to
    any other address is a [Crash].

    The abstract view is a [layout]: the sequence of chunks that tiles the
    arena.  The operations on layouts below are a few lines each; the theorems
    relate the code to them. *)

From S2P Require Import Prelude Words.

Notation word_size := 8 (only parsing).
Notation memory := (gmap Z Z).

(** ** The code *)

Definition ALIGN_BYTES : Z := 8.
Definition ALIGN_ALLOC : Z := 16.
Definition COUNT_ALIGNED (n : Z) : Z :=
  Z.land (u64 (n + (ALIGN_ALLOC - 1))) (u64 (Z.lnot (ALIGN_ALLOC - 1))).
Definition CHUNK_USED (n : Z) : Z := n.
Definition CHUNK_NEXT (n : Z) : Z := n.
Definition CHUNK_SIZE (n : Z) : Z := u64 (n + ALIGN_BYTES).

Record MemCache := mkMem { _mem_base : Z; _size : Z; _first_free : Z; _mem : memory }.
Definition set_first (v : Z) (c : MemCache) : MemCache := mkMem (_mem_base c) (_size c) v (_mem c).
Definition set_mem (m : memory) (c : MemCache) : MemCache := mkMem (_mem_base c) (_size c) (_first_free c) m.

Definition ld (c : MemCache) (a : Z) : result Z := deref (_mem c !! a).
Definition st (c : MemCache) (a v : Z) : result MemCache :=
  match _mem c !! a with Some _ => Ret (set_mem (<[a := v]> (_mem c)) c) | None => Crash end.

(** The words of a block of [n] bytes at [a], with what they happen to hold. *)
Definition block (junk : Z -> Z) (a n : Z) : memory :=
  list_to_map ((fun i => let w := a + 8 * Z.of_nat i in (w, junk w)) <$> seq 0 (Z.to_nat (n / 8))).

(** [generic_alloc] takes an [int], which [malloc] gets as a [size_t]. *)
Definition to_int (n : Z) : Z := (n + 2 ^ 31) mod 2 ^ 32 - 2 ^ 31.
Definition generic_alloc (malloc : Z -> option Z) (size : Z) : option Z := malloc (u64 (to_int size)).

Definition Init (malloc : Z -> option Z) (junk : Z -> Z) (c : MemCache) (memsize : Z) : result (bool * MemCache) :=
  let memsize := COUNT_ALIGNED memsize in
  if memsize =? 0 then Ret (false, c) else
  match generic_alloc malloc memsize with
  | None => Ret (false, mkMem 0 (_size c) (_first_free c) (_mem c))
  | Some base =>
      let c := mkMem base memsize base (block junk base (u64 (to_int memsize))) in
      c ← st c (CHUNK_NEXT base) 0;
      c ← st c (CHUNK_SIZE base) memsize;
      Ret (true, c)
  end.

(** [Uninit], also the destructor: [blocks] are the addresses [malloc] has given
    out; [free] of any other address is undefined.  [_mem_base] keeps its value. *)
Definition Uninit (c : MemCache) (blocks : gset Z) : result (gset Z) :=
  if _mem_base c =? 0 then Ret blocks
  else if decide (_mem_base c ∈ blocks) then Ret (blocks ∖ {[_mem_base c]}) else Crash.

(** [if(this_chunk == 0) _first_free = v; else CHUNK_NEXT(this_chunk) = v;] *)
Definition set_link (c : MemCache) (this_chunk v : Z) : result MemCache :=
  if this_chunk =? 0 then Ret (set_first v c) else st c (CHUNK_NEXT this_chunk) v.

(** Taking [memsize] bytes off the chunk out of the free list. *)
Definition carve (c : MemCache) (this_chunk next_chunk size memsize nnext_chunk : Z) : result MemCache :=
  if size =? memsize then set_link c this_chunk nnext_chunk
  else
    c ← set_link c this_chunk (u64 (next_chunk + memsize));
    c ← st c (CHUNK_NEXT (u64 (next_chunk + memsize))) nnext_chunk;
    st c (CHUNK_SIZE (u64 (next_chunk + memsize))) (u64 (size - memsize)).

Fixpoint Alloc_loop (fuel : nat) (c : MemCache) (memsize this_chunk next_chunk : Z) : result (Z * MemCache) :=
  match fuel with
  | O => NoFuel
  | S fuel =>
      if next_chunk =? 0 then Ret (0, c) else
      size ← ld c (CHUNK_SIZE next_chunk);
      if memsize <=? size then
        nnext_chunk ← ld c (CHUNK_NEXT next_chunk);
        c ← carve c this_chunk next_chunk size memsize nnext_chunk;
        c ← st c (CHUNK_USED next_chunk) memsize;
        Ret (u64 (next_chunk + ALIGN_BYTES), c)
      else
        nnext_chunk ← ld c (CHUNK_NEXT next_chunk);
        Alloc_loop fuel c memsize next_chunk nnext_chunk
  end.

(** A chunk has at least 16 bytes. *)
Definition rounds (c : MemCache) : nat := S (Z.to_nat (_size c / 16)).

(** NULL is 0. *)
Definition Alloc (c : MemCache) (memsize : Z) : result (Z * MemCache) :=
  if memsize =? 0 then Ret (0, c) else
  Alloc_loop (rounds c) c (COUNT_ALIGNED (u64 (memsize + ALIGN_BYTES))) 0 (_first_free c).

(** The search of [Free]: the last free chunk before [this_chunk] and the
    first one behind it. *)
Fixpoint Free_loop (fuel : nat) (c : MemCache) (this_chunk prev_chunk next_chunk : Z) : result (Z * Z) :=
  match fuel with
  | O => NoFuel
  | S fuel =>
      if (0 <? next_chunk) && (next_chunk <? this_chunk) then
        nnext ← ld c (CHUNK_NEXT next_chunk);
        Free_loop fuel c this_chunk next_chunk nnext
      else Ret (prev_chunk, next_chunk)
  end.

(** The two branches at the end of each case: the chunk [c0], with the sizes
    before the next chunk adding up to [sz], takes [next_chunk] in or links to
    it. *)
Definition join_next (c : MemCache) (c0 this_chunk this_size sz next_chunk : Z) : result MemCache :=
  if u64 (this_chunk + this_size) =? next_chunk then
    nn ← ld c (CHUNK_NEXT next_chunk);
    c ← st c (CHUNK_NEXT c0) nn;
    ns ← ld c (CHUNK_SIZE next_chunk);
    st c (CHUNK_SIZE c0) (u64 (sz + ns))
  else
    c ← st c (CHUNK_NEXT c0) next_chunk;
    st c (CHUNK_SIZE c0) sz.

(** The chunk goes back into the free list between its two neighbours there. *)
Definition put_back (c : MemCache) (this_chunk this_size prev_chunk next_chunk : Z) : result MemCache :=
  if prev_chunk =? 0 then
    join_next (set_first this_chunk c) this_chunk this_chunk this_size this_size next_chunk
  else
    prev_size ← ld c (CHUNK_SIZE prev_chunk);
    if u64 (prev_chunk + prev_size) =? this_chunk then
      join_next c prev_chunk this_chunk this_size (u64 (prev_size + this_size)) next_chunk
    else
      c ← st c (CHUNK_NEXT prev_chunk) this_chunk;
      join_next c this_chunk this_chunk this_size this_size next_chunk.

Definition Free (c : MemCache) (ptr : Z) : result MemCache :=
  let this_chunk := u64 (ptr - ALIGN_BYTES) in
  '(prev_chunk, next_chunk) ← Free_loop (rounds c) c this_chunk 0 (_first_free c);
  this_size ← ld c (CHUNK_USED this_chunk);
  put_back c this_chunk this_size prev_chunk next_chunk.

(** What [PrintDebugInfo] prints: offset and size of the free chunks. *)
Fixpoint debug_loop (fuel : nat) (c : MemCache) (chunk : Z) : result (list (Z * Z)) :=
  match fuel with
  | O => NoFuel
  | S fuel =>
      if chunk =? 0 then Ret [] else
      size ← ld c (CHUNK_SIZE chunk);
      next ← ld c (CHUNK_NEXT chunk);
      rest ← debug_loop fuel c next;
      Ret ((chunk, size) :: rest)
  end.
Definition PrintDebugInfo (c : MemCache) : result (list (Z * Z)) := debug_loop (rounds c) c (_first_free c).

(** ** The abstract view *)

Record chunk := mkChunk { c_addr : Z; c_size : Z; c_used : bool }.
Notation layout := (list chunk).

(** The chunks follow one another from [lo] to [hi]. *)
Fixpoint tiles (lo : Z) (L : layout) (hi : Z) : Prop :=
  match L with
  | [] => lo = hi
  | c :: L => c_addr c = lo /\ 16 <= c_size c /\ c_size c mod 16 = 0 /\ tiles (lo + c_size c) L hi
  end.

(** First fit. *)
Fixpoint alloc_layout (m : Z) (L : layout) : option (Z * layout) :=
  match L with
  | [] => None
  | c :: L =>
      if negb (c_used c) && (m <=? c_size c) then
        Some (c_addr c,
              if c_size c =? m then mkChunk (c_addr c) m true :: L
              else mkChunk (c_addr c) m true :: mkChunk (c_addr c + m) (c_size c - m) false :: L)
      else match alloc_layout m L with Some (a, L) => Some (a, c :: L) | None => None end
  end.

(** A chunk in front of a layout; a free one takes in a free neighbour. *)
Definition add_chunk (c : chunk) (L : layout) : layout :=
  match L with
  | d :: L' => if c_used c || c_used d then c :: L else mkChunk (c_addr c) (c_size c + c_size d) false :: L'
  | [] => [c]
  end.
Fixpoint free_layout (a : Z) (L : layout) : layout :=
  match L with
  | [] => []
  | c :: L => if c_used c && (c_addr c =? a) then add_chunk (mkChunk a (c_size c) false) L
              else add_chunk c (free_layout a L)
  end.
