(* ===== verification/MemCacheInv.v ===== *)
(** * MemCacheInv: the allocator of shald implements its layout

    The free list in memory against the free chunks of a layout; [Alloc] and
    [Free] step by step; the invariant. *)

From S2P Require Import Prelude Words MemCache.

(** Alignment is stated with [mod]; [lia] treats it by its division equations. *)
Ltac Zify.zify_post_hook ::= Z.to_euclidean_division_equations.

(** ** Lists of free chunks in memory *)

Definition head_addr (F : layout) (p : Z) : Z := match F with [] => p | c :: _ => c_addr c end.
Definition last_addr (F : layout) : Z := match last F with Some c => c_addr c | None => 0 end.

(** The chunks of [F] are linked in this order; the last one points to [p]. *)
Fixpoint seg (m : memory) (F : layout) (p : Z) : Prop :=
  match F with
  | [] => True
  | c :: F => m !! c_addr c = Some (head_addr F p) /\ m !! (c_addr c + 8) = Some (c_size c) /\ seg m F p
  end.

(** Chunks in increasing order, apart from each other, between two bounds. *)
Fixpoint ordered (lo : Z) (F : layout) (hi : Z) : Prop :=
  match F with
  | [] => lo <= hi
  | c :: F => lo <= c_addr c /\ c_addr c mod 8 = 0 /\ 16 <= c_size c /\ c_size c mod 16 = 0
              /\ ordered (c_addr c + c_size c) F hi
  end.

Definition inside (c : chunk) (a : Z) : Prop := c_addr c <= a < c_addr c + c_size c.
Definition outside (F : layout) (a : Z) : Prop := Forall (fun c => ~ inside c a) F.

(** Words outside the chunks of [F] are as before, and the memory has the same
    extent. *)
Record mframe (F : layout) (c c' : MemCache) : Prop := mkFrame {
  fr_base : _mem_base c' = _mem_base c;
  fr_size : _size c' = _size c;
  fr_dom : dom (_mem c') = dom (_mem c);
  fr_word a : outside F a -> _mem c' !! a = _mem c !! a
}.

Lemma mframe_refl F c : mframe F c c.
Proof. by split. Qed.
Lemma mframe_trans F c1 c2 c3 : mframe F c1 c2 -> mframe F c2 c3 -> mframe F c1 c3.
Proof. intros [] []. split; try congruence. intros a Ha. transitivity (_mem c2 !! a); auto. Qed.
Lemma mframe_outside F G c c' : (forall a, outside G a -> outside F a) -> mframe F c c' -> mframe G c c'.
Proof. intros HS []. split; auto. Qed.
Lemma mframe_weaken F G c c' : F ⊆ G -> mframe F c c' -> mframe G c c'.
Proof.
  intros HS. apply mframe_outside. intros a Ha.
  apply Forall_forall. intros d Hd. apply (proj1 (Forall_forall _ _) Ha), HS, Hd.
Qed.
Lemma mframe_first F c v : mframe F c (set_first v c).
Proof. by split. Qed.

Lemma ordered_le lo F hi : ordered lo F hi -> lo <= hi.
Proof. revert lo. induction F as [|c F IH]; intros lo; cbn; [done|]. intros (?&?&?&?&?%IH). lia. Qed.

Lemma ordered_weaken lo lo' F hi : lo' <= lo -> ordered lo F hi -> ordered lo' F hi.
Proof. destruct F; cbn; intuition lia. Qed.

Lemma ordered_app lo F G hi :
  ordered lo (F ++ G) hi <-> exists mid, ordered lo F mid /\ ordered mid G hi.
Proof.
  revert lo. induction F as [|c F IH]; intros lo; cbn.
  - split; [intros H; exists lo; auto with lia|].
    intros (mid & ? & H). destruct G; cbn in *; [lia | intuition lia].
  - rewrite IH. naive_solver.
Qed.

Lemma ordered_inside lo F hi c : ordered lo F hi -> c ∈ F ->
  lo <= c_addr c /\ c_addr c + c_size c <= hi /\ 16 <= c_size c /\ c_addr c mod 8 = 0.
Proof.
  revert lo. induction F as [|d F IH]; intros lo H Hc; [by apply elem_of_nil in Hc|].
  destruct H as (?&?&?&?&H). pose proof (ordered_le _ _ _ H).
  apply elem_of_cons in Hc as [->|Hc]; [lia|]. specialize (IH _ H Hc). lia.
Qed.

Lemma ordered_outside lo F hi a : ordered lo F hi -> a < lo \/ hi <= a -> outside F a.
Proof.
  intros H Ha. apply Forall_forall. intros c Hc. destruct (ordered_inside _ _ _ _ H Hc). unfold inside. lia.
Qed.

Lemma outside_app F G a : outside (F ++ G) a <-> outside F a /\ outside G a.
Proof. apply Forall_app. Qed.

Lemma seg_app m F G p : seg m (F ++ G) p <-> seg m F (head_addr G p) /\ seg m G p.
Proof.
  induction F as [|c F IH]; cbn; [tauto|]. rewrite IH.
  assert (head_addr (F ++ G) p = head_addr F (head_addr G p)) as -> by by destruct F. tauto.
Qed.

Lemma head_addr_app F G p : head_addr (F ++ G) p = head_addr F (head_addr G p).
Proof. by destruct F. Qed.
Lemma last_addr_snoc F c : last_addr (F ++ [c]) = c_addr c.
Proof. unfold last_addr. by rewrite last_snoc. Qed.

Lemma seg_frame m m' lo F hi p :
  ordered lo F hi -> (forall a, lo <= a < hi -> m' !! a = m !! a) -> seg m F p -> seg m' F p.
Proof.
  revert lo. induction F as [|c F IH]; intros lo Ho Hm; [done|]. cbn in *.
  destruct Ho as (?&?&?&?&Ho). pose proof (ordered_le _ _ _ Ho). intros (?&?&?).
  rewrite !Hm by lia. split_and!; [done..|]. eapply IH; [done| |done]. intros a ?. apply Hm. lia.
Qed.

Lemma seg_insert m lo F hi p a v :
  ordered lo F hi -> a < lo \/ hi <= a -> seg m F p -> seg (<[a := v]> m) F p.
Proof. intros Ho Ha. eapply seg_frame; [done|]. intros b ?. rewrite lookup_insert_ne by lia. done. Qed.

Lemma seg_relink m lo F c hi p q :
  ordered lo (F ++ [c]) hi -> seg m (F ++ [c]) p -> seg (<[c_addr c := q]> m) (F ++ [c]) q.
Proof.
  intros Ho Hs. apply ordered_app in Ho as (mid & H1 & H2). destruct H2 as (?&?&?&?&?).
  apply seg_app in Hs as [Hs1 Hs2]. apply seg_app. destruct Hs2 as (?&?&_). split.
  - eapply seg_insert; [exact H1 | lia | exact Hs1].
  - cbn. rewrite lookup_insert_eq, lookup_insert_ne by lia. done.
Qed.

(** ** Reading and writing *)

Lemma ld_run {B} c a v (k : Z -> result B) : _mem c !! a = Some v -> (ld c a ≫= k) = k v.
Proof. intros E. unfold ld. by rewrite E. Qed.
Lemma st_run c a v : a ∈ dom (_mem c) -> st c a v = Ret (set_mem (<[a := v]> (_mem c)) c).
Proof. intros [x E]%elem_of_dom. unfold st. by rewrite E. Qed.
Lemma st_bind {B} c a v (k : MemCache -> result B) :
  a ∈ dom (_mem c) -> (st c a v ≫= k) = k (set_mem (<[a := v]> (_mem c)) c).
Proof. intros H. by rewrite st_run. Qed.

Lemma mframe_st F c a v k : a ∈ dom (_mem c) -> k ∈ F -> inside k a -> mframe F c (set_mem (<[a := v]> (_mem c)) c).
Proof.
  intros Ha Hk Hi. split; cbn; auto; [apply elem_of_dom in Ha; by apply dom_insert_lookup_L|].
  intros b Hb. apply lookup_insert_ne. intros ->. by apply (proj1 (Forall_forall _ _) Hb k).
Qed.

Lemma CHUNK_SIZE_small n : 0 <= n < 2 ^ 64 - 8 -> CHUNK_SIZE n = n + 8.
Proof. intros. unfold CHUNK_SIZE, ALIGN_BYTES, u64. rewrite Z.mod_small; lia. Qed.

(** The free list of a cache is [F]. *)
Definition free_list (c : MemCache) (F : layout) : Prop :=
  _first_free c = head_addr F 0 /\ seg (_mem c) F 0.

(** Changing the link behind the chunks of [P]. *)
Lemma set_link_run lo P hi c p q :
  0 < lo -> ordered lo P hi -> _first_free c = head_addr P p -> seg (_mem c) P p ->
  exists c', set_link c (last_addr P) q = Ret c' /\ _first_free c' = head_addr P q /\ seg (_mem c') P q
    /\ mframe P c c'.
Proof.
  intros Hlo Ho Hf Hs. unfold set_link.
  destruct P as [|t P _] using rev_ind.
  - exists (set_first q c). cbn. split_and!; auto using mframe_first.
  - rewrite last_addr_snoc. pose proof Ho as Ho'. apply ordered_app in Ho' as (mid & H1 & H2&_&?&_).
    pose proof (ordered_le _ _ _ H1). destruct (Z.eqb_spec (c_addr t) 0); [lia|].
    assert (Ht : c_addr t ∈ dom (_mem c)) by (apply seg_app in Hs as [_ [? _]]; eapply elem_of_dom_2; eauto).
    eexists. unfold CHUNK_NEXT. rewrite st_run by done. split_and!; [done| | |].
    + cbn. rewrite Hf. rewrite !head_addr_app. done.
    + cbn. eapply seg_relink; eauto.
    + eapply mframe_st; [done| |].
      { apply elem_of_app; right; apply list_elem_of_singleton; reflexivity. } unfold inside. lia.
Qed.

(** ** Alloc *)

Definition words_in (m : memory) (lo hi : Z) : Prop := forall a, lo <= a < hi -> a mod 8 = 0 -> a ∈ dom m.

(** What is left of the chunk [k] when [ms] bytes are taken. *)
Definition remnant (k : chunk) (ms : Z) : layout :=
  if c_size k =? ms then [] else [mkChunk (c_addr k + ms) (c_size k - ms) false].

Lemma words_in_mframe F c c' lo hi : mframe F c c' -> words_in (_mem c) lo hi -> words_in (_mem c') lo hi.
Proof. intros [] H a ??. rewrite fr_dom0. auto. Qed.

Lemma u64_small z : 0 <= z < 2 ^ 64 -> u64 z = z.
Proof. intros. unfold u64. by apply Z.mod_small. Qed.

Section alloc.
Context (lo hi : Z) (Hlo : 0 < lo) (Hhi : hi < 2 ^ 64).

Lemma st_word (c : MemCache) a v k F :
  words_in (_mem c) lo hi -> lo <= a < hi -> a mod 8 = 0 -> k ∈ F -> inside k a ->
  exists c', st c a v = Ret c' /\ _first_free c' = _first_free c /\ _mem c' = <[a := v]> (_mem c) /\ mframe F c c'.
Proof.
  intros HW Ha Hm Hk Hi. assert (Hd : a ∈ dom (_mem c)) by auto.
  eexists. rewrite st_run by done. split_and!; [done..|]. by eapply mframe_st.
Qed.

(** Cutting the remnant off. *)
Lemma cut_run c P k S ms :
  ordered lo (P ++ k :: S) hi -> free_list c (P ++ k :: S) -> words_in (_mem c) lo hi ->
  16 <= ms < c_size k -> ms mod 16 = 0 ->
  exists c', carve c (last_addr P) (c_addr k) (c_size k) ms (head_addr S 0) = Ret c'
    /\ free_list c' (P ++ remnant k ms ++ S) /\ mframe (P ++ [k]) c c'.
Proof.
  intros Ho [Hf Hs] HW Hms Hm. pose proof Ho as HO. apply ordered_app in HO as (mid & HP & H1&H2&H3&H4&HS).
  pose proof (ordered_le _ _ _ HP). pose proof (ordered_le _ _ _ HS).
  apply seg_app in Hs as [HsP [_ [_ HsS]]]. rewrite head_addr_app in Hf. cbn in HsP, Hf.
  unfold carve, remnant. destruct (Z.eqb_spec (c_size k) ms); [lia|].
  unfold CHUNK_NEXT. rewrite (u64_small (c_addr k + ms)), (u64_small (c_size k - ms)) by lia.
  rewrite CHUNK_SIZE_small by lia.
  destruct (set_link_run lo P mid c (c_addr k) (c_addr k + ms) Hlo HP Hf HsP) as (c1 & -> & Hf1 & Hs1 & Fr1).
  apply (mframe_weaken _ (P ++ [k])) in Fr1; [|set_solver].
  destruct (st_word c1 (c_addr k + ms) (head_addr S 0) k (P ++ [k])) as (c2 & E2 & Hf2 & Hm2 & Fr2);
    [by eapply words_in_mframe | lia | lia | set_solver | unfold inside; lia |].
  destruct (st_word c2 (c_addr k + ms + 8) (c_size k - ms) k (P ++ [k])) as (c3 & E3 & Hf3 & Hm3 & Fr3);
    [eapply words_in_mframe; [exact Fr2|]; by eapply words_in_mframe | lia | lia | set_solver | unfold inside; lia |].
  exists c3. cbn -[set_link st]. rewrite E2. cbn -[st]. split_and!; [exact E3 | |by eauto using mframe_trans]. split.
  - rewrite head_addr_app. cbn. congruence.
  - apply seg_app. cbn. rewrite Hm3, Hm2. rewrite lookup_insert_ne, !lookup_insert_eq by lia.
    split_and!; [| done | done |]; repeat (eapply seg_insert; [eassumption | lia |]); [exact Hs1|].
    eapply seg_frame; [exact HS | | exact HsS]. intros a ?. apply (fr_word _ _ _ Fr1).
    apply outside_app. split; [eapply ordered_outside; [exact HP|lia]|].
    apply Forall_singleton. unfold inside. lia.
Qed.

Lemma carve_run c P k S ms :
  ordered lo (P ++ k :: S) hi -> free_list c (P ++ k :: S) -> words_in (_mem c) lo hi ->
  16 <= ms <= c_size k -> ms mod 16 = 0 ->
  exists c', carve c (last_addr P) (c_addr k) (c_size k) ms (head_addr S 0) = Ret c'
    /\ free_list c' (P ++ remnant k ms ++ S) /\ mframe (P ++ [k]) c c'.
Proof.
  intros Ho HF HW Hms Hm. destruct (Z.eq_dec (c_size k) ms) as [E|E]; [|apply cut_run; auto with lia].
  pose proof HF as [Hf Hs]. apply ordered_app in Ho as (mid & HP & H1&H2&H3&H4&HS).
  apply seg_app in Hs as [HsP [_ [_ HsS]]]. rewrite head_addr_app in Hf. cbn in HsP, Hf.
  unfold carve, remnant. rewrite E, Z.eqb_refl.
  destruct (set_link_run lo P mid c (c_addr k) (head_addr S 0) Hlo HP Hf HsP) as (c1 & -> & Hf1 & Hs1 & Fr1).
  exists c1. split_and!; [done| |eapply mframe_weaken; [|done]; set_solver].
  split; [by rewrite head_addr_app|]. apply seg_app. split; [done|].
  eapply seg_frame; [exact HS | | exact HsS]. intros a ?. apply (fr_word _ _ _ Fr1).
  eapply ordered_outside; [exact HP|lia].
Qed.

Lemma Alloc_here f c P k S ms :
  ordered lo (P ++ k :: S) hi -> free_list c (P ++ k :: S) -> words_in (_mem c) lo hi ->
  16 <= ms <= c_size k -> ms mod 16 = 0 ->
  exists c', Alloc_loop (Datatypes.S f) c ms (last_addr P) (c_addr k) = Ret (c_addr k + 8, c')
    /\ free_list c' (P ++ remnant k ms ++ S) /\ _mem c' !! c_addr k = Some ms /\ mframe (P ++ [k]) c c'.
Proof.
  intros Ho HF HW Hms Hm. pose proof HF as [Hf Hs].
  pose proof Ho as HO. apply ordered_app in HO as (mid & HP & H1&H2&H3&H4&HS).
  pose proof (ordered_le _ _ _ HP). pose proof (ordered_le _ _ _ HS).
  apply seg_app in Hs as [HsP [Hk1 [Hk2 HsS]]]. cbn -[Alloc_loop] in *.
  cbn [Alloc_loop]. destruct (Z.eqb_spec (c_addr k) 0); [lia|].
  rewrite (CHUNK_SIZE_small (c_addr k)) by lia. rewrite (ld_run _ _ _ _ Hk2).
  destruct (Z.leb_spec ms (c_size k)); [|lia]. unfold CHUNK_NEXT at 1. rewrite (ld_run _ _ _ _ Hk1).
  destruct (carve_run c P k S ms Ho HF HW Hms Hm) as (c1 & E1 & HF1 & Fr1). rewrite E1.
  cbn -[st]. destruct (st_word c1 (c_addr k) ms k (P ++ [k])) as (c2 & E2 & Hf2 & Hm2 & Fr2);
    [by eapply words_in_mframe | lia | lia | set_solver | unfold inside; lia |].
  unfold CHUNK_USED. rewrite E2. cbn. exists c2. unfold ALIGN_BYTES. rewrite u64_small by lia.
  split_and!; [done | | by rewrite Hm2, lookup_insert_eq | by eauto using mframe_trans].
  destruct HF1 as [Hf1 Hs1]. split; [congruence|]. rewrite Hm2. rewrite app_assoc in *.
  apply seg_app in Hs1 as [HsA HsB]. apply seg_app. split; [apply seg_app in HsA as [Hs1a Hs1b]; apply seg_app; split|].
  - eapply seg_insert; [exact HP|lia|done].
  - unfold remnant in *. destruct (Z.eqb_spec (c_size k) ms); [done|]. cbn in *.
    rewrite !lookup_insert_ne by lia. tauto.
  - eapply seg_insert; [exact HS|lia|done].
Qed.

Lemma Alloc_skip f c P Q R ms :
  ordered lo (P ++ Q ++ R) hi -> seg (_mem c) (P ++ Q ++ R) 0 -> Forall (fun k => c_size k < ms) Q ->
  Alloc_loop (length Q + f) c ms (last_addr P) (head_addr (Q ++ R) 0)
  = Alloc_loop f c ms (last_addr (P ++ Q)) (head_addr R 0).
Proof.
  revert P. induction Q as [|k Q IH]; intros P Ho Hs HQ; [by rewrite app_nil_r|].
  apply Forall_cons in HQ as [Hk HQ].
  assert (Ho' := Ho). apply ordered_app in Ho' as (mid & HP & H1&H2&H3&H4&H5).
  pose proof (ordered_le _ _ _ HP). pose proof (ordered_le _ _ _ H5).
  assert (Hs' := Hs). apply seg_app in Hs' as [_ [Hn [Hz _]]].
  cbn [length Nat.add app head_addr Alloc_loop]. destruct (Z.eqb_spec (c_addr k) 0); [lia|].
  rewrite (CHUNK_SIZE_small (c_addr k)) by lia. rewrite (ld_run _ _ _ _ Hz).
  destruct (Z.leb_spec ms (c_size k)); [lia|]. unfold CHUNK_NEXT. rewrite (ld_run _ _ _ _ Hn).
  rewrite <- (last_addr_snoc P k). change (P ++ (k :: Q) ++ R) with (P ++ [k] ++ Q ++ R) in Ho, Hs.
  rewrite (app_assoc P [k]) in Ho, Hs. rewrite (IH (P ++ [k])) by done. by rewrite <- app_assoc.
Qed.
End alloc.

Lemma ordered_length lo F hi : ordered lo F hi -> 16 * Z.of_nat (length F) <= hi - lo.
Proof.
  revert lo. induction F as [|c F IH]; intros lo; cbn -[Z.mul Z.of_nat]; [lia|]. intros (?&?&?&?&?%IH). lia.
Qed.

Lemma rounds_enough lo F hi c : ordered lo F hi -> hi - lo = _size c -> exists f, rounds c = (length F + S f)%nat.
Proof.
  intros H%ordered_length E. exists (Z.to_nat (_size c / 16) - length F)%nat. unfold rounds. lia.
Qed.

(** ** Free *)

(** A free chunk in front of a free list, joined with its first chunk when
    they touch. *)
Definition glue (u : chunk) (Q : layout) : layout :=
  match Q with
  | q :: Q' => if c_addr u + c_size u =? c_addr q then mkChunk (c_addr u) (c_size u + c_size q) false :: Q'
               else u :: Q
  | [] => [u]
  end.

(** The free list with the chunk [u] between [P] and [Q]. *)
Definition join (P : layout) (u : chunk) (Q : layout) : layout :=
  match last P with
  | Some t => if c_addr t + c_size t =? c_addr u
              then take (length P - 1) P ++ glue (mkChunk (c_addr t) (c_size t + c_size u) false) Q
              else P ++ glue u Q
  | None => glue u Q
  end.

Lemma head_glue u Q p : head_addr (glue u Q) p = c_addr u.
Proof. destruct Q as [|q Q]; cbn; [done|]. by case_match. Qed.

Section free.
Context (lo hi : Z) (Hlo : 0 < lo) (Hhi : hi < 2 ^ 64).

Lemma join_next_run c k this ts Q :
  lo <= c_addr k -> c_addr k mod 8 = 0 -> 16 <= c_size k -> ordered (c_addr k + c_size k) Q hi ->
  this + ts = c_addr k + c_size k -> words_in (_mem c) lo hi -> seg (_mem c) Q 0 ->
  exists c', join_next c (c_addr k) this ts (c_size k) (head_addr Q 0) = Ret c'
    /\ _first_free c' = _first_free c /\ seg (_mem c') (glue k Q) 0 /\ mframe (k :: Q) c c'.
Proof.
  intros Ha Hal Hz HQ E HW Hs. pose proof (ordered_le _ _ _ HQ). unfold join_next, CHUNK_NEXT.
  rewrite E, (u64_small (c_addr k + c_size k)), (CHUNK_SIZE_small (c_addr k)) by lia.
  assert (Hin : inside k (c_addr k) /\ inside k (c_addr k + 8)) by (unfold inside; lia).
  assert (HS1 : forall v, exists c1, st c (c_addr k) v = Ret c1 /\ _first_free c1 = _first_free c
            /\ _mem c1 = <[c_addr k := v]> (_mem c) /\ mframe (k :: Q) c c1)
    by (intros v; apply (st_word lo hi) with k; [done | lia | lia | set_solver | tauto]).
  assert (HS2 : forall c1 v, mframe (k :: Q) c c1 -> exists c2, st c1 (c_addr k + 8) v = Ret c2
            /\ _first_free c2 = _first_free c1 /\ _mem c2 = <[c_addr k + 8 := v]> (_mem c1) /\ mframe (k :: Q) c1 c2)
    by (intros c1 v Fr; apply (st_word lo hi) with k; [by eapply words_in_mframe | lia | lia | set_solver | tauto]).
  destruct (Z.eqb_spec (c_addr k + c_size k) (head_addr Q 0)) as [Eq|Ne].
  - destruct Q as [|q Q]; [cbn in Eq; lia|]. cbn [head_addr] in *. destruct HQ as (?&?&?&?&HQ).
    pose proof (ordered_le _ _ _ HQ). destruct Hs as (Hn & Hqz & Hs). rewrite (ld_run _ _ _ _ Hn).
    destruct (HS1 (head_addr Q 0)) as (c1 & -> & Hf1 & Hm1 & Fr1). cbn -[st ld].
    rewrite (CHUNK_SIZE_small (c_addr q)), (ld_run _ _ (c_size q)) by (rewrite ?Hm1, ?lookup_insert_ne by lia; done || lia).
    destruct (HS2 c1 (c_size k + c_size q) Fr1) as (c2 & E2 & Hf2 & Hm2 & Fr2). rewrite u64_small by lia.
    exists c2. split_and!; [done | congruence | | by eauto using mframe_trans].
    unfold glue. rewrite Eq, Z.eqb_refl. cbn. rewrite Hm2, Hm1. rewrite lookup_insert_ne, !lookup_insert_eq by lia.
    split_and!; [done..|]. repeat (eapply seg_insert; [eassumption | lia |]). done.
  - destruct (HS1 (head_addr Q 0)) as (c1 & -> & Hf1 & Hm1 & Fr1). cbn -[st].
    destruct (HS2 c1 (c_size k) Fr1) as (c2 & E2 & Hf2 & Hm2 & Fr2).
    exists c2. split_and!; [done | congruence | | by eauto using mframe_trans].
    assert (glue k Q = k :: Q) as ->.
    { destruct Q as [|q Q]; [done|]. cbn in Ne |- *. by destruct (Z.eqb_spec (c_addr k + c_size k) (c_addr q)). }
    cbn. rewrite Hm2, Hm1. rewrite lookup_insert_ne, !lookup_insert_eq by lia.
    split_and!; [done..|]. repeat (eapply seg_insert; [eassumption | lia |]). done.
Qed.

Lemma Free_loop_run f c D P Q a :
  ordered lo (D ++ P ++ Q) hi -> seg (_mem c) (D ++ P ++ Q) 0 ->
  Forall (fun k => c_addr k < a) P -> ordered a Q hi ->
  Free_loop (length P + S f) c a (last_addr D) (head_addr (P ++ Q) 0) = Ret (last_addr (D ++ P), head_addr Q 0).
Proof.
  intros Ho Hs HP HQ. revert D Ho Hs.
  induction HP as [|k P Hk HP IH]; intros D Ho Hs; cbn [length Nat.add Free_loop app].
  - rewrite app_nil_r. destruct Q as [|q Q]; [done|]. cbn in HQ |- *.
    destruct (Z.ltb_spec (c_addr q) a); [lia|]. by rewrite andb_false_r.
  - assert (Ho' := Ho). apply ordered_app in Ho' as (mid & HD & H1&H2&H3&H4&H5). pose proof (ordered_le _ _ _ HD).
    assert (Hs' := Hs). apply seg_app in Hs' as [_ [Hn _]]. cbn [head_addr].
    destruct (Z.ltb_spec 0 (c_addr k)); [|lia]. destruct (Z.ltb_spec (c_addr k) a); [|lia]. cbn [andb].
    unfold CHUNK_NEXT. rewrite (ld_run _ _ _ _ Hn). rewrite <- (last_addr_snoc D k).
    change (D ++ (k :: P) ++ Q) with (D ++ [k] ++ P ++ Q) in Ho, Hs. rewrite (app_assoc D [k]) in Ho, Hs.
    rewrite (IH (D ++ [k])) by done. by rewrite <- app_assoc.
Qed.

Lemma join_snoc P t u Q :
  join (P ++ [t]) u Q = if c_addr t + c_size t =? c_addr u
    then P ++ glue (mkChunk (c_addr t) (c_size t + c_size u) false) Q else (P ++ [t]) ++ glue u Q.
Proof.
  unfold join. rewrite last_snoc, length_app. cbn [length].
  replace (length P + 1 - 1)%nat with (length P) by lia. by rewrite take_length_app.
Qed.

Lemma put_back_first c u Q :
  lo <= c_addr u -> c_addr u mod 8 = 0 -> 16 <= c_size u -> ordered (c_addr u + c_size u) Q hi ->
  words_in (_mem c) lo hi -> seg (_mem c) Q 0 ->
  exists c', put_back c (c_addr u) (c_size u) 0 (head_addr Q 0) = Ret c' /\ free_list c' (glue u Q) /\ mframe (u :: Q) c c'.
Proof.
  intros. unfold put_back. cbn -[join_next].
  destruct (join_next_run (set_first (c_addr u) c) u (c_addr u) (c_size u) Q)
    as (c' & -> & Hf & Hs & Fr); [done..|].
  exists c'. split_and!; [done | split; [by rewrite head_glue|done] | by eapply mframe_trans; [apply mframe_first|]].
Qed.

Lemma put_back_last c P t u Q :
  ordered lo (P ++ [t] ++ u :: Q) hi -> free_list c ((P ++ [t]) ++ Q) -> words_in (_mem c) lo hi ->
  exists c', put_back c (c_addr u) (c_size u) (c_addr t) (head_addr Q 0) = Ret c'
    /\ free_list c' (join (P ++ [t]) u Q) /\ mframe (P ++ [t] ++ u :: Q) c c'.
Proof.
  intros Ho [Hf Hs] HW. apply ordered_app in Ho as (m & HP & K1&K2&K3&K4&H1&H2&H3&H4&HQ).
  pose proof (ordered_le _ _ _ HP). pose proof (ordered_le _ _ _ HQ).
  apply seg_app in Hs as [HsPt HsQ]. apply seg_app in HsPt as HsPt'. destruct HsPt' as [HsP [_ [Htz _]]].
  rewrite !head_addr_app in Hf. cbn in HsP, Hf.
  unfold put_back. rewrite join_snoc. destruct (Z.eqb_spec (c_addr t) 0); [lia|].
  rewrite (CHUNK_SIZE_small (c_addr t)), (ld_run _ _ _ _ Htz), (u64_small (c_addr t + c_size t)) by lia.
  destruct (Z.eqb_spec (c_addr t + c_size t) (c_addr u)) as [E|E].
  - rewrite u64_small by lia.
    destruct (join_next_run c (mkChunk (c_addr t) (c_size t + c_size u) false) (c_addr u) (c_size u) Q)
      as (c' & E1 & Hf' & Hs' & Fr); cbn [c_addr c_size]; [lia | lia | lia | | lia | done | done |].
    { eapply ordered_weaken; [|exact HQ]. lia. }
    cbn [c_addr c_size] in E1. rewrite E1. exists c'. split_and!; [done | split |].
    + rewrite head_addr_app, head_glue. cbn. congruence.
    + apply seg_app. rewrite head_glue. split; [|done]. eapply seg_frame; [exact HP | | exact HsP].
      intros a ?. apply (fr_word _ _ _ Fr). apply (ordered_outside m _ hi); [|lia]. cbn.
      split_and!; [lia..|]. eapply ordered_weaken; [|exact HQ]. lia.
    + eapply mframe_outside; [|exact Fr]. intros a (_ & Ho)%outside_app. unfold outside, inside in *.
      change ([t] ++ u :: Q) with (t :: u :: Q) in Ho. rewrite !Forall_cons in *. cbn. split; [lia | tauto].
  - destruct (st_word lo hi c (c_addr t) (c_addr u) t (P ++ [t] ++ u :: Q)) as (c1 & E1 & Hf1 & Hm1 & Fr1);
      [done | lia | lia | set_solver | unfold inside; lia |].
    unfold CHUNK_NEXT. rewrite E1. cbn -[join_next].
    destruct (join_next_run c1 u (c_addr u) (c_size u) Q) as (c2 & E2 & Hf2 & Hs2 & Fr2);
      [lia.. | done | done | by eapply words_in_mframe | rewrite Hm1; eapply seg_insert; [exact HQ | lia | done] |].
    exists c2. split_and!; [done | split |].
    + rewrite !head_addr_app, head_glue. cbn. congruence.
    + apply seg_app. rewrite head_glue. split; [|done].
      assert (Hb : ordered lo (P ++ [t]) (c_addr u)) by (apply ordered_app; exists m; cbn; auto with lia).
      eapply seg_frame; [exact Hb | | rewrite <- Hm1 || idtac; eapply seg_relink; [exact Hb | exact HsPt]].
      intros a ?. rewrite (fr_word _ _ _ Fr2), Hm1; [done|]. apply (ordered_outside (c_addr u) _ hi); [|lia].
      cbn. split_and!; [lia..|done].
    + eapply mframe_trans; [exact Fr1|]. eapply mframe_weaken; [|exact Fr2]. set_solver.
Qed.

(** The whole of [Free], on the free list: the chunk [u] in use lies between
    [P] and [Q]. *)
Lemma Free_run c P u Q :
  ordered lo (P ++ u :: Q) hi -> free_list c (P ++ Q) -> words_in (_mem c) lo hi -> hi - lo = _size c ->
  _mem c !! c_addr u = Some (c_size u) ->
  exists c', Free c (c_addr u + 8) = Ret c' /\ free_list c' (join P u Q) /\ mframe (P ++ u :: Q) c c'.
Proof.
  intros Ho HF HW Hz Hu. pose proof HF as [Hf Hs].
  assert (Ho' := Ho). apply ordered_app in Ho' as (mid & HP & H1&H2&H3&H4&HQ).
  pose proof (ordered_le _ _ _ HP). pose proof (ordered_le _ _ _ HQ).
  assert (HoPQ : ordered lo ([] ++ P ++ Q) hi).
  { apply (ordered_app lo P Q hi). exists mid. split; [done|]. eapply ordered_weaken; [|exact HQ]. lia. }
  destruct (rounds_enough _ _ _ _ HoPQ Hz) as [f Ef]. cbn in Ef. rewrite length_app in Ef.
  assert (HPa : Forall (fun k => c_addr k < c_addr u) P).
  { apply Forall_forall. intros k Hk. destruct (ordered_inside _ _ _ _ HP Hk). lia. }
  assert (HQa : ordered (c_addr u) Q hi) by (eapply ordered_weaken; [|done]; lia).
  unfold Free, ALIGN_BYTES. replace (c_addr u + 8 - 8) with (c_addr u) by lia. rewrite (u64_small (c_addr u)) by lia.
  replace (rounds c) with (length P + S (length Q + f))%nat by lia.
  pose proof (Free_loop_run (length Q + f) c [] P Q (c_addr u) HoPQ Hs HPa HQa) as EL.
  change (last_addr []) with 0 in EL. rewrite Hf, EL.
  cbn -[put_back]. unfold CHUNK_USED. rewrite (ld_run _ _ _ _ Hu).
  destruct P as [|t P _] using rev_ind.
  - apply put_back_first; auto with lia.
  - rewrite last_addr_snoc, <- app_assoc. apply put_back_last; auto. by rewrite <- app_assoc in Ho.
Qed.
End free.

(** ** Layouts *)

Definition frees (L : layout) : layout := List.filter (fun c => negb (c_used c)) L.
Definition lives (L : layout) : layout := List.filter c_used L.

(** No two free chunks touch. *)
Fixpoint apart (L : layout) : Prop :=
  match L with
  | [] => True
  | c :: L => match L with d :: _ => c_used c || c_used d = true | [] => True end /\ apart L
  end.

Lemma frees_app L K : frees (L ++ K) = frees L ++ frees K.
Proof. apply List.filter_app. Qed.
Lemma frees_elem L c : c ∈ frees L <-> c ∈ L /\ c_used c = false.
Proof. unfold frees. rewrite !list_elem_of_In, List.filter_In, negb_true_iff. done. Qed.

Lemma tiles_ordered lo L hi : tiles lo L hi -> lo mod 8 = 0 -> ordered lo L hi.
Proof.
  revert lo. induction L as [|c L IH]; intros lo; cbn; [lia|]. intros (-> & ? & ? & Ht) ?.
  split_and!; [lia..|]. apply IH; [done|lia].
Qed.
Lemma tiles_app lo L K hi : tiles lo (L ++ K) hi <-> exists mid, tiles lo L mid /\ tiles mid K hi.
Proof. revert lo. induction L as [|c L IH]; intros lo; cbn; [naive_solver|]. rewrite IH. naive_solver. Qed.
Lemma tiles_mod lo L mid : tiles lo L mid -> lo mod 8 = 0 -> mid mod 8 = 0 /\ lo <= mid.
Proof.
  revert lo. induction L as [|c L IH]; intros lo; cbn; [lia|]. intros (?&?&?&Ht) ?.
  apply IH in Ht as []; lia.
Qed.

Lemma ordered_frees lo L hi : ordered lo L hi -> ordered lo (frees L) hi.
Proof.
  revert lo. induction L as [|c L IH]; intros lo; cbn; [done|]. intros (?&?&?&?&Ht%IH).
  destruct (c_used c); cbn; [|tauto]. eapply ordered_weaken; [|exact Ht]. lia.
Qed.

Lemma inside_unique lo L hi c d a :
  ordered lo L hi -> c ∈ L -> d ∈ L -> inside c a -> inside d a -> c = d.
Proof.
  revert lo. induction L as [|e L IH]; intros lo Ho Hc Hd Ic Id; [by apply elem_of_nil in Hc|].
  destruct Ho as (?&?&?&?&Ho). unfold inside in *.
  apply elem_of_cons in Hc as [->|Hc]; apply elem_of_cons in Hd as [->|Hd]; auto.
  - destruct (ordered_inside _ _ _ _ Ho Hd). lia.
  - destruct (ordered_inside _ _ _ _ Ho Hc). lia.
  - by apply (IH _ Ho).
Qed.

Lemma used_outside lo L hi u a : ordered lo L hi -> u ∈ L -> c_used u = true -> inside u a -> outside (frees L) a.
Proof.
  intros Ho Hu Eu Hi. apply Forall_forall. intros k [Hk Ek]%frees_elem Ik.
  rewrite (inside_unique _ _ _ _ _ _ Ho Hu Hk Hi Ik) in Eu. congruence.
Qed.

(** *** Taking a chunk *)

Lemma alloc_layout_cases m L :
  match alloc_layout m L with
  | None => Forall (fun k => c_size k < m) (frees L)
  | Some (a, L') => exists L1 k L2, L = L1 ++ k :: L2 /\ c_used k = false /\ m <= c_size k /\ a = c_addr k
      /\ Forall (fun k => c_size k < m) (frees L1) /\ L' = L1 ++ mkChunk a m true :: remnant k m ++ L2
  end.
Proof.
  induction L as [|c L IH]; cbn; [by constructor|]. unfold frees in *.
  destruct (c_used c) eqn:Eu; cbn.
  - destruct (alloc_layout m L) as [[a L']|]; [|done]. destruct IH as (L1 & k & L2 & -> & ? & ? & ? & ? & ->).
    exists (c :: L1), k, L2. cbn. by rewrite Eu.
  - destruct (Z.leb_spec m (c_size c)).
    + exists [], c, L. unfold remnant. split_and!; try done. by destruct (c_size c =? m).
    + destruct (alloc_layout m L) as [[a L']|]; [|by constructor].
      destruct IH as (L1 & k & L2 & -> & ? & ? & ? & ? & ->).
      exists (c :: L1), k, L2. cbn. rewrite Eu. cbn. split_and!; auto.
Qed.

Lemma apart_app L K : apart (L ++ K) <-> apart L /\ apart K /\
  match last L, K with Some c, d :: _ => c_used c || c_used d = true | _, _ => True end.
Proof.
  induction L as [|c L IH]; [cbn; tauto|]. destruct L as [|d L].
  - cbn. destruct K; cbn; tauto.
  - change (last (c :: d :: L)) with (last (d :: L)). cbn [app apart] in *. rewrite IH. tauto.
Qed.

Lemma apart_carved L1 k L2 a m :
  c_used k = false -> apart (L1 ++ k :: L2) -> apart (L1 ++ mkChunk a m true :: remnant k m ++ L2).
Proof.
  intros Ek [H1 [H2 H3]]%apart_app. apply apart_app. split_and!; [done| |by destruct (last L1); rewrite ?orb_true_r].
  unfold remnant. destruct (Z.eqb_spec (c_size k) m); cbn in *; [destruct L2; tauto|].
  rewrite Ek in H2. destruct L2; tauto.
Qed.

Lemma tiles_carved lo L1 k L2 hi m :
  tiles lo (L1 ++ k :: L2) hi -> 16 <= m <= c_size k -> m mod 16 = 0 ->
  tiles lo (L1 ++ mkChunk (c_addr k) m true :: remnant k m ++ L2) hi.
Proof.
  intros (mid & H1 & Ha & Hz & Hm & H2)%tiles_app Hms Hmm. apply tiles_app. exists mid. split; [done|].
  unfold remnant. destruct (Z.eqb_spec (c_size k) m) as [E|E]; cbn.
  - rewrite E in H2. auto with lia.
  - split_and!; [lia..|]. by replace (mid + m + (c_size k - m)) with (mid + c_size k) by lia.
Qed.

(** *** Giving a chunk back *)

Lemma tiles_add lo c L hi : tiles lo (c :: L) hi -> tiles lo (add_chunk c L) hi.
Proof.
  destruct L as [|d L]; [done|]. cbn. intros (?&?&?&?&?&?&Ht). destruct (c_used c || c_used d); cbn; [done|].
  rewrite Z.add_assoc. split_and!; auto; lia.
Qed.
Lemma tiles_free lo a L hi : tiles lo L hi -> tiles lo (free_layout a L) hi.
Proof.
  revert lo. induction L as [|c L IH]; intros lo; [done|]. cbn. intros (?&?&?&Ht).
  destruct (c_used c && (c_addr c =? a)) eqn:E; apply tiles_add; cbn; split_and!; auto.
  apply andb_true_iff in E as [_ E%Z.eqb_eq]. congruence.
Qed.

Lemma apart_add c L : apart L -> apart (add_chunk c L).
Proof.
  destruct L as [|d L]; [done|]. unfold add_chunk. destruct (c_used c || c_used d) eqn:E; [done|].
  apply orb_false_iff in E as [Ec Ed]. cbn. by rewrite Ed.
Qed.
Lemma apart_free a L : apart L -> apart (free_layout a L).
Proof.
  induction L as [|c L IH]; [done|]. intros [_ H]. cbn [free_layout]. case_match; apply apart_add; auto.
Qed.

Lemma glue_glue c u Q : c_addr c + c_size c = c_addr u ->
  glue c (glue u Q) = glue (mkChunk (c_addr c) (c_size c + c_size u) false) Q.
Proof.
  intros E. destruct Q as [|q Q]; cbn; [by rewrite E, Z.eqb_refl|].
  replace (c_addr c + (c_size c + c_size u)) with (c_addr u + c_size u) by lia.
  case_match; cbn; rewrite E, Z.eqb_refl; [|done]. by rewrite Z.add_assoc.
Qed.

Lemma frees_add lo c L hi : tiles lo (c :: L) hi -> lo mod 8 = 0 -> c_used c = false ->
  frees (add_chunk c L) = glue c (frees L).
Proof.
  intros (Ha & Hz & Hm & Ht) Hlo Ec. destruct L as [|d L]; cbn; rewrite Ec; cbn; [done|].
  destruct Ht as (Hd & ? & ? & Ht). destruct (c_used d) eqn:Ed; cbn.
  - rewrite Ec, Ed. cbn. apply tiles_ordered, ordered_frees in Ht; [|lia].
    change (List.filter _ L) with (frees L). destruct (frees L) as [|q Q]; cbn; [done|].
    destruct Ht as [? _]. destruct (Z.eqb_spec (c_addr c + c_size c) (c_addr q)); [lia|done].
  - destruct (Z.eqb_spec (c_addr c + c_size c) (c_addr d)); [done|lia].
Qed.

Lemma frees_add_used c X : c_used c = true -> frees (add_chunk c X) = frees X.
Proof. intros Ec. destruct X; cbn; rewrite Ec; cbn; by rewrite ?Ec. Qed.

Lemma glue_apart c X : c_addr c + c_size c < head_addr X (c_addr c + c_size c + 1) -> glue c X = c :: X.
Proof. destruct X as [|x X]; cbn; [done|]. intros. destruct (Z.eqb_spec (c_addr c + c_size c) (c_addr x)); [lia|done]. Qed.

Lemma head_join P u Q p : head_addr (join P u Q) p = head_addr P (c_addr u).
Proof.
  destruct P as [|t P _] using rev_ind; [apply head_glue|]. rewrite join_snoc, head_addr_app.
  case_match; rewrite ?head_addr_app, ?head_glue; done.
Qed.

Lemma join_cons c P u Q : (P = [] -> c_addr c + c_size c < c_addr u) -> join (c :: P) u Q = c :: join P u Q.
Proof.
  intros HP. destruct P as [|t P _] using rev_ind.
  - specialize (HP eq_refl). unfold join. cbn. destruct (Z.eqb_spec (c_addr c + c_size c) (c_addr u)); [lia|done].
  - change (c :: P ++ [t]) with ((c :: P) ++ [t]). rewrite !join_snoc. by case_match.
Qed.

(** The chunk [u] in use, between [L1] and [L2]. *)
Lemma frees_free lo L1 u L2 hi :
  tiles lo (L1 ++ u :: L2) hi -> lo mod 8 = 0 -> apart (L1 ++ u :: L2) -> c_used u = true ->
  frees (free_layout (c_addr u) (L1 ++ u :: L2))
  = join (frees L1) (mkChunk (c_addr u) (c_size u) false) (frees L2).
Proof.
  revert lo. induction L1 as [|c L1 IH]; intros lo Ht Hlo Hap Eu.
  - cbn. rewrite Eu, Z.eqb_refl. cbn. by apply (frees_add lo _ _ hi).
  - cbn [app] in *. pose proof (tiles_ordered _ _ _ Ht Hlo) as Ho. destruct Ho as (?&?&?&?&Ho).
    destruct Ht as (Hc & ? & ? & Ht). destruct Hap as [Hcd Hap]. cbn [free_layout].
    assert (Hu : c_addr c + c_size c <= c_addr u) by (destruct (ordered_inside _ _ _ u Ho); [set_solver|lia]).
    destruct (Z.eqb_spec (c_addr c) (c_addr u)); [lia|]. rewrite andb_false_r.
    specialize (IH _ Ht ltac:(lia) Hap Eu). destruct (c_used c) eqn:Ec.
    { rewrite (frees_add_used _ _ Ec), IH. cbn. by rewrite Ec. }
    rewrite (frees_add lo _ _ hi); [| |done|done]. 2:{ cbn. split_and!; [done..|]. by apply tiles_free. }
    rewrite IH. cbn. rewrite Ec. cbn. change (List.filter _ L1) with (frees L1).
    destruct L1 as [|d L1]; cbn in Hcd.
    + destruct Ht as (Hd & _). unfold join. cbn [frees List.filter last c_addr c_size].
      destruct (Z.eqb_spec (c_addr c + c_size c) (c_addr u)); [|lia]. by rewrite glue_glue.
    + destruct Ho as (?&?&?&?&Ho).
      assert (Hu2 : c_addr d + c_size d <= c_addr u) by (destruct (ordered_inside _ _ _ u Ho); [set_solver|lia]).
      cbn. rewrite Hcd. cbn. change (List.filter _ L1) with (frees L1).
      apply ordered_app in Ho as (mid & Ho1%ordered_frees & _).
      rewrite join_cons by (cbn; lia). apply glue_apart. rewrite head_join.
      destruct (frees L1); cbn in *; lia.
Qed.

(** ** The invariant *)

Record Inv (c : MemCache) (L : layout) : Prop := mkInv {
  inv_pos : 0 < _mem_base c;
  inv_align : _mem_base c mod 8 = 0;
  inv_top : _mem_base c + _size c < 2 ^ 64;
  inv_words : words_in (_mem c) (_mem_base c) (_mem_base c + _size c);
  inv_tiles : tiles (_mem_base c) L (_mem_base c + _size c);
  inv_apart : apart L;
  inv_free : free_list c (frees L);
  inv_used k : k ∈ L -> c_used k = true -> _mem c !! c_addr k = Some (c_size k)
}.

Lemma mframe_Inv F c c' L L' : Inv c L -> mframe F c c' -> 
  tiles (_mem_base c) L' (_mem_base c + _size c) -> apart L' -> free_list c' (frees L') ->
  (forall k, k ∈ L' -> c_used k = true -> _mem c' !! c_addr k = Some (c_size k)) -> Inv c' L'.
Proof.
  intros [] Fr Ht Ha Hf Hu. pose proof (fr_base _ _ _ Fr) as Eb. pose proof (fr_size _ _ _ Fr) as Ez.
  split; rewrite ?Eb, ?Ez; auto. by eapply words_in_mframe.
Qed.

Lemma frees_carved L1 k L2 a m :
  frees (L1 ++ mkChunk a m true :: remnant k m ++ L2) = frees L1 ++ remnant k m ++ frees L2.
Proof. rewrite frees_app. cbn. rewrite List.filter_app. unfold remnant. by case_match. Qed.

(** A chunk in use keeps its size word. *)
Lemma used_kept c c' L k :
  Inv c L -> mframe (frees L) c c' -> k ∈ L -> c_used k = true -> _mem c' !! c_addr k = Some (c_size k).
Proof.
  intros HI Fr Hk Ek. pose proof (tiles_ordered _ _ _ (inv_tiles _ _ HI) (inv_align _ _ HI)) as Ho.
  rewrite (fr_word _ _ _ Fr); [by apply (inv_used _ _ HI)|]. eapply used_outside; [done..|].
  destruct (ordered_inside _ _ _ _ Ho Hk). unfold inside. lia.
Qed.

Lemma Alloc_layout c L ms :
  Inv c L -> 16 <= ms -> ms mod 16 = 0 ->
  match alloc_layout ms L with
  | None => Alloc_loop (rounds c) c ms 0 (_first_free c) = Ret (0, c)
  | Some (a, L') => exists c', Alloc_loop (rounds c) c ms 0 (_first_free c) = Ret (a + 8, c')
                               /\ Inv c' L' /\ mframe (frees L) c c'
  end.
Proof.
  intros HI Hms Hmm. pose proof HI as [Hp Ha Ht HW HT Hap [Hf Hs] Hu].
  pose proof (tiles_ordered _ _ _ HT Ha) as Ho. pose proof (ordered_frees _ _ _ Ho) as HoF.
  destruct (rounds_enough _ _ _ c HoF ltac:(lia)) as [f ->].
  pose proof (alloc_layout_cases ms L) as HC. destruct (alloc_layout ms L) as [[a L']|].
  - destruct HC as (L1 & k & L2 & -> & Ek & Hk & -> & HL1 & ->).
    rewrite frees_app in *. cbn [frees List.filter] in *. rewrite Ek in *. cbn [negb] in *.
    change (List.filter _ L2) with (frees L2) in *.
    rewrite length_app, <- Nat.add_assoc, Hf.
    pose proof (Alloc_skip _ _ Hp Ht (length (k :: frees L2) + S f) c [] (frees L1) (k :: frees L2) ms HoF Hs HL1) as E.
    cbn [last_addr last app head_addr] in E. change (last_addr []) with 0 in E. rewrite E. clear E.
    replace (length (k :: frees L2) + S f)%nat with (S (length (frees L2) + S f)) by (cbn; lia).
    destruct (Alloc_here _ _ Hp Ht (length (frees L2) + S f) c (frees L1) k (frees L2) ms) as (c' & E & HF' & Hm' & Fr);
      [done | split; done | done | lia | done |].
    exists c'. split_and!; [done| |eapply mframe_weaken; [|done]; set_solver].
    apply (mframe_weaken _ (frees (L1 ++ k :: L2))) in Fr; [|rewrite frees_app; cbn; rewrite Ek; cbn; set_solver].
    eapply mframe_Inv; [done..|by apply tiles_carved|by apply apart_carved|by rewrite frees_carved|].
    intros d Hd Ed. rewrite !elem_of_app, elem_of_cons, elem_of_app in Hd. destruct Hd as [Hd|[->|[Hd|Hd]]].
    + eapply used_kept; eauto. set_solver.
    + done.
    + unfold remnant in Hd. case_match; [set_solver|]. apply list_elem_of_singleton in Hd as ->. done.
    + eapply used_kept; eauto. set_solver.
  - rewrite Hf.
    pose proof (Alloc_skip _ _ Hp Ht (S f) c [] (frees L) [] ms) as E. rewrite !app_nil_r in E. cbn [app] in E.
    change (last_addr []) with 0 in E. rewrite E by done. by cbn.
Qed.

(** The chunks in use after a release: the same ones without the released one. *)
Lemma lives_add c X : lives (add_chunk c X) = lives (c :: X).
Proof.
  destruct X as [|d X]; [done|]. cbn. destruct (c_used c) eqn:Ec, (c_used d) eqn:Ed; cbn; rewrite ?Ec, ?Ed; done.
Qed.
Lemma lives_elem L c : c ∈ lives L <-> c ∈ L /\ c_used c = true.
Proof. unfold lives. rewrite !list_elem_of_In, List.filter_In. done. Qed.
Lemma lives_app L K : lives (L ++ K) = lives L ++ lives K.
Proof. apply List.filter_app. Qed.

Lemma lives_cons c X Y : lives X = lives Y -> lives (c :: X) = lives (c :: Y).
Proof. intros E. cbn. change (lives X = lives Y) in E. unfold lives in E. by rewrite E. Qed.

Lemma lives_free lo L1 u L2 hi : ordered lo (L1 ++ u :: L2) hi -> c_used u = true ->
  lives (free_layout (c_addr u) (L1 ++ u :: L2)) = lives (L1 ++ L2).
Proof.
  revert lo. induction L1 as [|c L1 IH]; intros lo Ho Eu; cbn [app free_layout].
  - rewrite Eu, Z.eqb_refl. cbn [andb]. by rewrite lives_add.
  - destruct Ho as (?&?&?&?&Ho). destruct (ordered_inside _ _ _ u Ho); [set_solver|].
    destruct (Z.eqb_spec (c_addr c) (c_addr u)); [lia|]. rewrite andb_false_r, lives_add.
    apply lives_cons, (IH _ Ho Eu).
Qed.

Lemma Free_layout c L u :
  Inv c L -> u ∈ L -> c_used u = true ->
  exists c', Free c (c_addr u + 8) = Ret c' /\ Inv c' (free_layout (c_addr u) L) /\ mframe (u :: frees L) c c'.
Proof.
  intros HI Hu Eu. pose proof HI as [Hp Ha Ht HW HT Hap HF HU].
  pose proof (tiles_ordered _ _ _ HT Ha) as Ho. apply list_elem_of_split in Hu as (L1 & L2 & ->).
  pose proof (HU u ltac:(set_solver) Eu) as Hm.
  assert (HoF : ordered (_mem_base c) (frees L1 ++ u :: frees L2) (_mem_base c + _size c)).
  { apply ordered_app in Ho as (mid & H1 & H2 & H3 & H4 & H5 & H6). apply ordered_app. exists mid.
    cbn. eauto 10 using ordered_frees. }
  assert (EF : frees (L1 ++ u :: L2) = frees L1 ++ frees L2) by (rewrite frees_app; cbn; by rewrite Eu).
  rewrite EF in HF.
  destruct (Free_run _ _ Hp Ht c (frees L1) (mkChunk (c_addr u) (c_size u) false) (frees L2)) as (c' & E & HF' & Fr);
    [|done|done|lia|done|].
  { apply ordered_app in HoF as (mid & H1 & H2). apply ordered_app. exists mid. done. }
  assert (Fr' : mframe (u :: frees (L1 ++ u :: L2)) c c').
  { eapply mframe_outside; [|exact Fr]. intros a. rewrite EF. unfold outside, inside.
    rewrite Forall_cons, !Forall_app, Forall_cons. cbn. tauto. }
  exists c'. split_and!; [done| |done].
  eapply mframe_Inv; [done..|by apply tiles_free|by apply apart_free|by erewrite frees_free|].
  intros k Hk Ek. assert (Hl : k ∈ lives (L1 ++ L2)) by (rewrite <- (lives_free _ L1 u L2 _ Ho Eu); by apply lives_elem).
  apply lives_elem in Hl as [Hk' _].
  rewrite (fr_word _ _ _ Fr'); [apply HU; [set_solver|done]|].
  assert (HkL : k ∈ L1 ++ u :: L2) by set_solver. destruct (ordered_inside _ _ _ _ Ho HkL).
  apply Forall_cons. split; [|eapply used_outside; [done..|unfold inside; lia]].
  intros Hi. assert (c_addr k + c_size k <= c_addr u \/ c_addr u + c_size u <= c_addr k); [|unfold inside in Hi; lia].
  apply ordered_app in Ho as (mid & H1 & H2 & _ & _ & _ & H6).
  apply elem_of_app in Hk' as [Hk'|Hk']; [destruct (ordered_inside _ _ _ _ H1 Hk') | destruct (ordered_inside _ _ _ _ H6 Hk')]; lia.
Qed.
