(* ===== verification/MemClaims.v ===== *)
(** * MemClaims: what the allocator of shald promises

    Requests of a client, the run of the code and of the layouts on them, and
    the theorems: the code implements the layouts, blocks keep their contents,
    released memory is available again, and what happens at the end of the
    range of [size_t]. *)

From S2P Require Import Prelude Words MemCache MemCacheInv.

(** ** Sizes *)

Lemma land_align x : 0 <= x < 2 ^ 64 -> Z.land x (u64 (Z.lnot 15)) = 16 * (x / 16).
Proof.
  intros Hx. change (u64 (Z.lnot 15)) with (Z.shiftl (Z.ones 60) 4). apply Z.bits_inj'. intros n Hn.
  rewrite Z.land_spec, Z.shiftl_spec by lia. replace (16 * (x / 16)) with (Z.shiftl (Z.shiftr x 4) 4)
    by (rewrite Z.shiftl_mul_pow2, Z.shiftr_div_pow2 by lia; lia).
  rewrite Z.shiftl_spec by lia. destruct (Z.ltb_spec n 4).
  - rewrite !(Z.testbit_neg_r _ (n - 4)) by lia. apply andb_false_r.
  - rewrite Z.shiftr_spec by lia. replace (n - 4 + 4) with n by lia. destruct (Z.ltb_spec n 64).
    + rewrite Z.ones_spec_low by lia. apply andb_true_r.
    + rewrite Z.ones_spec_high by lia. rewrite andb_false_r. symmetry.
      destruct (Z.eq_dec x 0) as [->|]; [apply Z.testbit_0_l|]. apply Z.bits_above_log2; [lia|].
      apply Z.log2_lt_pow2; [lia|]. apply Z.lt_le_trans with (2 ^ 64); [lia|]. by apply Z.pow_le_mono_r.
Qed.

(** The bytes a request of [n] takes, with the header. *)
Definition gross (n : Z) : Z := 16 * ((n + 23) / 16).

Lemma COUNT_ALIGNED_small n : 0 <= n < 2 ^ 64 - 15 -> COUNT_ALIGNED n = 16 * ((n + 15) / 16).
Proof.
  intros. unfold COUNT_ALIGNED, ALIGN_ALLOC. change (16 - 1) with 15. rewrite (u64_small (n + 15)) by lia.
  apply land_align. lia.
Qed.

(** The requests whose size does not wrap. *)
Definition sane (n : Z) : Prop := 0 <= n < 2 ^ 64 - 23.

Lemma aligned_gross n : sane n -> COUNT_ALIGNED (u64 (n + ALIGN_BYTES)) = gross n.
Proof.
  unfold sane, ALIGN_BYTES. intros. rewrite u64_small, COUNT_ALIGNED_small by lia. unfold gross.
  by replace (n + 8 + 15) with (n + 23) by lia.
Qed.
Lemma gross_bounds n : 0 < n -> 16 <= gross n /\ gross n mod 16 = 0 /\ n + 8 <= gross n < n + 24.
Proof. unfold gross. intros. lia. Qed.

(** ** Init *)

Lemma block_dom junk a n w : w ∈ dom (block junk a n) <-> exists i : nat, w = a + 8 * Z.of_nat i /\ Z.of_nat i < n / 8.
Proof.
  unfold block. rewrite dom_list_to_map_L, elem_of_list_to_set, <- list_fmap_compose, list_elem_of_fmap.
  split.
  - intros (i & -> & Hi%elem_of_seq). exists i. cbn. split; [done|]. lia.
  - intros (i & -> & Hi). exists i. split; [done|]. apply elem_of_seq. lia.
Qed.

Lemma block_words junk a n : a mod 8 = 0 -> words_in (block junk a n) a (a + 16 * (n / 16)).
Proof.
  intros Ha w Hw Hm. apply block_dom. exists (Z.to_nat ((w - a) / 8)). rewrite Z2Nat.id by lia. lia.
Qed.

(** A block of memory as [malloc] gives it: not NULL, aligned, in the address
    space. *)
Definition proper_block (base size : Z) : Prop := 0 < base /\ base mod 8 = 0 /\ base + size < 2 ^ 64.

Lemma Init_Inv malloc junk c n base :
  0 < n < 2 ^ 31 - 15 -> malloc (16 * ((n + 15) / 16)) = Some base -> proper_block base (16 * ((n + 15) / 16)) ->
  exists c', Init malloc junk c n = Ret (true, c') /\ _mem_base c' = base /\ _size c' = 16 * ((n + 15) / 16)
    /\ Inv c' [mkChunk base (16 * ((n + 15) / 16)) false].
Proof.
  intros Hn Hmal (Hb & Hal & Htop). unfold Init. rewrite COUNT_ALIGNED_small by lia.
  set (z := 16 * ((n + 15) / 16)) in *. assert (16 <= z < 2 ^ 31 /\ z mod 16 = 0 /\ 16 * (z / 16) = z) as (?&?&Ez) by (unfold z; lia).
  clearbody z.
  destruct (Z.eqb_spec z 0); [lia|]. unfold generic_alloc, to_int.
  assert (u64 ((z + 2 ^ 31) mod 2 ^ 32 - 2 ^ 31) = z) as -> by (rewrite Z.mod_small, u64_small by lia; lia).
  rewrite Hmal. unfold CHUNK_NEXT. rewrite CHUNK_SIZE_small by lia.
  set (c0 := mkMem base z base (block junk base z)).
  pose proof (block_words junk base z Hal) as HW. rewrite Ez in HW. change (block junk base z) with (_mem c0) in HW.
  rewrite (st_bind c0) by (apply HW; lia).
  rewrite st_bind by (cbn; apply elem_of_dom; rewrite lookup_insert_ne by lia; apply elem_of_dom, HW; lia).
  eexists. split_and!; [done..|]. split; cbn; try done; try lia.
  - intros a ??. apply dom_insert, elem_of_union_r, dom_insert, elem_of_union_r, HW; done.
  - split; [done|]. cbn. rewrite lookup_insert_ne, !lookup_insert_eq by lia. done.
  - intros k ->%list_elem_of_singleton. done.
Qed.

(** ** Requests *)

(** What a client does: it asks for [n] bytes, gives a block back, or stores a
    word in a block it holds. *)
Inductive request := Ask (n : Z) | Release (p : Z) | Poke (a v : Z).

Definition serve (c : MemCache) (r : request) : result (Z * MemCache) :=
  match r with
  | Ask n => Alloc c n
  | Release p => c ← Free c p; Ret (0, c)
  | Poke a v => c ← st c a v; Ret (0, c)
  end.
Fixpoint serve_all (c : MemCache) (rs : list request) : result (list Z * MemCache) :=
  match rs with
  | [] => Ret ([], c)
  | r :: rs => '(p, c) ← serve c r; '(ps, c) ← serve_all c rs; Ret (p :: ps, c)
  end.

(** The same on layouts. *)
Definition plan (L : layout) (r : request) : Z * layout :=
  match r with
  | Ask n => if n =? 0 then (0, L)
             else match alloc_layout (gross n) L with Some (a, L') => (a + 8, L') | None => (0, L) end
  | Release p => (0, free_layout (p - 8) L)
  | Poke _ _ => (0, L)
  end.
Fixpoint plan_all (L : layout) (rs : list request) : list Z * layout :=
  match rs with
  | [] => ([], L)
  | r :: rs => let '(p, L) := plan L r in let '(ps, L) := plan_all L rs in (p :: ps, L)
  end.

(** The requests a client may make: no size that wraps, only blocks it holds,
    only words behind the header. *)
Definition may (L : layout) (r : request) : Prop :=
  match r with
  | Ask n => sane n
  | Release p => exists u, u ∈ lives L /\ p = c_addr u + 8
  | Poke a v => a mod 8 = 0 /\ exists u, u ∈ lives L /\ c_addr u + 8 <= a < c_addr u + c_size u
  end.
Fixpoint may_all (L : layout) (rs : list request) : Prop :=
  match rs with
  | [] => True
  | r :: rs => may L r /\ may_all (snd (plan L r)) rs
  end.

(** ** One request *)

Definition same_arena (c c' : MemCache) : Prop := _mem_base c' = _mem_base c /\ _size c' = _size c.
Lemma mframe_arena F c c' : mframe F c c' -> same_arena c c'.
Proof. by intros []. Qed.

Lemma seg_poke m lo F hi p a v : ordered lo F hi -> outside F a -> seg m F p -> seg (<[a := v]> m) F p.
Proof.
  intros Ho HF. revert lo Ho. induction HF as [|k F Hk HF IH]; intros lo Ho Hs; [done|].
  destruct Ho as (?&?&?&?&Ho), Hs as (?&?&Hs). unfold inside in Hk. cbn. rewrite !lookup_insert_ne by lia.
  split_and!; [done..|]. by eapply IH.
Qed.

Lemma Poke_Inv c L a v u :
  Inv c L -> u ∈ lives L -> a mod 8 = 0 -> c_addr u + 8 <= a < c_addr u + c_size u ->
  exists c', st c a v = Ret c' /\ Inv c' L /\ _mem c' = <[a := v]> (_mem c) /\ same_arena c c'.
Proof.
  intros HI [Hu Eu]%lives_elem Ha Hi. pose proof HI as [Hp Hal Ht HW HT Hap [Hf Hs] HU].
  pose proof (tiles_ordered _ _ _ HT Hal) as Ho. destruct (ordered_inside _ _ _ _ Ho Hu) as (?&?&?&?).
  destruct (st_word _ _ c a v u [u] HW) as (c' & E & Hf' & Hm & Fr);
    [lia | done | set_solver | unfold inside; lia |].
  exists c'. split_and!; [done| |done|by eapply mframe_arena]. eapply mframe_Inv; [done..| |].
  - split; [congruence|]. rewrite Hm.
    eapply seg_poke; [by apply ordered_frees| |done]. eapply used_outside; [done..|]. unfold inside; lia.
  - intros k Hk Ek. rewrite Hm. rewrite lookup_insert_ne; [by apply HU|]. intros ->.
    destruct (ordered_inside _ _ _ _ Ho Hk) as (?&?&?&?).
    assert (u = k) as <-; [|lia]. by apply (inside_unique _ _ _ _ _ (c_addr k) Ho Hu Hk); unfold inside; lia.
Qed.

Lemma serve_plan c L r :
  Inv c L -> may L r ->
  exists c', serve c r = Ret (fst (plan L r), c') /\ Inv c' (snd (plan L r)) /\ same_arena c c'.
Proof.
  intros HI Hr. destruct r as [n|p|a v]; cbn -[Free st Alloc gross] in *.
  - unfold Alloc. destruct (Z.eqb_spec n 0); [by exists c|]. unfold sane in Hr. destruct (gross_bounds n); [lia|].
    rewrite aligned_gross by done. pose proof (Alloc_layout c L (gross n) HI ltac:(lia) ltac:(tauto)) as HA.
    destruct (alloc_layout (gross n) L) as [[a L']|]; [|by exists c].
    destruct HA as (c' & ? & ? & ?). eauto using mframe_arena.
  - destruct Hr as (u & [Hu Eu]%lives_elem & ->). destruct (Free_layout c L u HI Hu Eu) as (c' & -> & ? & ?).
    replace (c_addr u + 8 - 8) with (c_addr u) by lia. eauto using mframe_arena.
  - destruct Hr as (Ha & u & Hu & Hi). destruct (Poke_Inv c L a v u HI Hu Ha Hi) as (c' & -> & ? & _ & ?). eauto.
Qed.

(** ** Runs *)

Lemma serve_all_plan c L rs :
  Inv c L -> may_all L rs ->
  exists c', serve_all c rs = Ret (fst (plan_all L rs), c') /\ Inv c' (snd (plan_all L rs)) /\ same_arena c c'.
Proof.
  revert c L. induction rs as [|r rs IH]; intros c L HI Hr; cbn; [by exists c|]. destruct Hr as [Hr Hrs].
  destruct (serve_plan c L r HI Hr) as (c1 & -> & HI1 & [??]). cbn.
  destruct (plan L r) as [p L1]. cbn in *. destruct (IH _ _ HI1 Hrs) as (c2 & -> & HI2 & [??]). cbn.
  destruct (plan_all L1 rs) as [ps L2]. cbn in *. exists c2. split_and!; [done..|]. split; congruence.
Qed.

(** What a layout says to the client: the block of a new pointer is large
    enough and overlaps no other. *)
Definition disjoint_lives (L : layout) : Prop :=
  forall u v a, u ∈ lives L -> v ∈ lives L -> inside u a -> inside v a -> u = v.

Lemma Inv_disjoint c L : Inv c L -> disjoint_lives L.
Proof.
  intros HI u v a [Hu _]%lives_elem [Hv _]%lives_elem.
  eapply inside_unique; [|done..]. by apply tiles_ordered; [apply HI|apply HI].
Qed.

Lemma plan_Ask L n : n <> 0 -> fst (plan L (Ask n)) <> 0 ->
  mkChunk (fst (plan L (Ask n)) - 8) (gross n) true ∈ lives (snd (plan L (Ask n))).
Proof.
  intros Hn. cbn. destruct (Z.eqb_spec n 0); [done|]. pose proof (alloc_layout_cases (gross n) L) as HC.
  destruct (alloc_layout (gross n) L) as [[a L']|]; [|done]. destruct HC as (L1 & k & L2 & _ & _ & _ & _ & _ & ->).
  intros _. cbn. replace (a + 8 - 8) with a by lia. apply lives_elem. split; [set_solver|done].
Qed.

Lemma plan_all_app L rs r :
  plan_all L (rs ++ [r]) = (fst (plan_all L rs) ++ [fst (plan (snd (plan_all L rs)) r)],
                            snd (plan (snd (plan_all L rs)) r)).
Proof.
  revert L. induction rs as [|q rs IH]; intros L; cbn; [by destruct (plan L r)|].
  destruct (plan L q) as [p L1]. cbn. rewrite IH. by destruct (plan_all L1 rs).
Qed.

(** C5: the allocator refines the layouts.  From a state that represents a
    layout, such as the one after [Init], every sequence of requests a client may
    make runs to its end without touching memory outside the arena and without
    looping, the pointers returned are those first fit gives on the layout, and
    the final memory represents the final layout, whose blocks in use do not
    overlap. *)
Theorem serve_all_refines c L rs :
  Inv c L -> may_all L rs ->
  exists c', serve_all c rs = Ret (fst (plan_all L rs), c')
    /\ Inv c' (snd (plan_all L rs)) /\ disjoint_lives (snd (plan_all L rs)).
Proof.
  intros HI Hr. destruct (serve_all_plan c L rs HI Hr) as (c' & ? & ? & _). eauto using Inv_disjoint.
Qed.

(** A run: two blocks, a store, a release, and the first fit again. *)
Definition demo_base : MemCache :=
  match Init (fun n => Some 4096) (fun _ => 0) (mkMem 0 0 0 ∅) 100 with Ret (_, c) => c | _ => mkMem 0 0 0 ∅ end.
Definition demo_requests : list request := [Ask 20; Ask 8; Poke 4104 77; Release 4104; Ask 24].

Lemma demo_Inv : Inv demo_base [mkChunk 4096 112 false].
Proof.
  destruct (Init_Inv (fun n => Some 4096) (fun _ => 0) (mkMem 0 0 0 ∅) 100 4096) as (c' & E & _ & _ & HI);
    [lia | done | unfold proper_block; lia |]. unfold demo_base. rewrite E. exact HI.
Qed.
Lemma demo_may : may_all [mkChunk 4096 112 false] demo_requests.
Proof.
  cbn. unfold sane. split_and!; try lia; try done.
  - exists (mkChunk 4096 32 true). cbn. split; [left|lia].
  - exists (mkChunk 4096 32 true). split; [left|done].
Qed.

Lemma serve_all_refines_witness :
  exists c', serve_all demo_base demo_requests = Ret ([4104; 4136; 0; 0; 4104], c')
    /\ Inv c' [mkChunk 4096 32 true; mkChunk 4128 16 true; mkChunk 4144 64 false].
Proof.
  destruct (serve_all_refines demo_base [mkChunk 4096 112 false] demo_requests demo_Inv demo_may) as (c' & E & HI & _).
  exists c'. split; [exact E | exact HI].
Defined.

(** ** Contents *)

(** The request does not concern the word [a] of the block [u]. *)
Definition spares (u : chunk) (a : Z) (r : request) : Prop :=
  match r with Ask _ => True | Release p => p <> c_addr u + 8 | Poke b _ => b <> a end.

Lemma lives_split L u : u ∈ lives L -> exists L1 L2, L = L1 ++ u :: L2 /\ c_used u = true /\ lives L = lives L1 ++ u :: lives L2.
Proof.
  intros [Hu Eu]%lives_elem. apply list_elem_of_split in Hu as (L1 & L2 & ->). exists L1, L2.
  split_and!; [done..|]. rewrite lives_app. cbn. by rewrite Eu.
Qed.

Lemma plan_keeps c L r u a :
  Inv c L -> may L r -> u ∈ lives L -> inside u a -> spares u a r -> u ∈ lives (snd (plan L r)).
Proof.
  intros HI Hr Hu Hi Hs. pose proof (tiles_ordered _ _ _ (inv_tiles _ _ HI) (inv_align _ _ HI)) as Ho.
  destruct r as [n|p|b v]; cbn -[gross lives] in *; [| |done].
  - destruct (n =? 0); [done|]. pose proof (alloc_layout_cases (gross n) L) as HC.
    destruct (alloc_layout (gross n) L) as [[x L']|]; [|done].
    destruct HC as (L1 & k & L2 & -> & Ek & _ & _ & _ & ->). cbn -[lives]. apply lives_elem in Hu as [Hu Eu]. apply lives_elem.
    split; [|done]. assert (u <> k) by congruence. set_solver.
  - destruct Hr as (w & Hw & ->). replace (c_addr w + 8 - 8) with (c_addr w) by lia.
    apply lives_split in Hw as (L1 & L2 & -> & Ew & _). rewrite (lives_free _ _ _ _ _ Ho Ew).
    apply lives_elem in Hu as [Hu Eu]. apply lives_elem. split; [|done]. assert (u <> w) by congruence. set_solver.
Qed.

Lemma serve_keeps c L r u a :
  Inv c L -> may L r -> u ∈ lives L -> c_addr u + 8 <= a < c_addr u + c_size u -> spares u a r ->
  exists c', serve c r = Ret (fst (plan L r), c') /\ _mem c' !! a = _mem c !! a.
Proof.
  intros HI Hr [Hu Eu]%lives_elem Ha Hs. pose proof (tiles_ordered _ _ _ (inv_tiles _ _ HI) (inv_align _ _ HI)) as Ho.
  assert (Hi : inside u a) by (unfold inside; lia). pose proof (used_outside _ _ _ _ _ Ho Hu Eu Hi) as Hout.
  destruct r as [n|p|b v]; cbn -[Free st Alloc gross] in *.
  - unfold Alloc. destruct (Z.eqb_spec n 0); [eauto|]. unfold sane in Hr. destruct (gross_bounds n); [lia|].
    rewrite aligned_gross by done. pose proof (Alloc_layout c L (gross n) HI ltac:(lia) ltac:(tauto)) as HA.
    destruct (alloc_layout (gross n) L) as [[x L']|]; [|eauto]. destruct HA as (c' & ? & ? & Fr).
    exists c'. split; [done|]. by apply (fr_word _ _ _ Fr).
  - destruct Hr as (w & [Hw Ew]%lives_elem & ->). destruct (Free_layout c L w HI Hw Ew) as (c' & E & _ & Fr).
    exists c'. rewrite E. split; [done|]. apply (fr_word _ _ _ Fr). apply Forall_cons. split; [|done].
    intros Hi'. assert (u = w) as -> by by apply (inside_unique _ _ _ _ _ a Ho Hu Hw). done.
  - destruct Hr as (Hb & w & Hw & Hwi). destruct (Poke_Inv c L b v w HI Hw Hb Hwi) as (c' & E & _ & Hm & _).
    exists c'. rewrite E. split; [done|]. rewrite Hm. by apply lookup_insert_ne.
Qed.

(** C10: contents are safe.  A word a client has stored in a block it holds is
    still there after any requests that neither release the block nor store to
    that word, whatever else is allocated, released and joined meanwhile. *)
Theorem blocks_keep_contents c L rs u a :
  Inv c L -> may_all L rs -> u ∈ lives L -> c_addr u + 8 <= a < c_addr u + c_size u -> Forall (spares u a) rs ->
  exists ps c', serve_all c rs = Ret (ps, c') /\ _mem c' !! a = _mem c !! a.
Proof.
  intros HI Hr Hu Ha Hs. revert c L HI Hr Hu. induction Hs as [|r rs Hsr Hs IH]; intros c L HI Hr Hu; [cbn; eauto|].
  destruct Hr as [Hr Hrs]. destruct (serve_keeps c L r u a HI Hr Hu Ha Hsr) as (c1 & E & Hm).
  destruct (serve_plan c L r HI Hr) as (c1' & E' & HI1 & _). rewrite E in E'. injection E' as <-.
  destruct (IH _ _ HI1 Hrs) as (ps & c2 & E2 & Hm2).
  { eapply plan_keeps; eauto. unfold inside. lia. }
  cbn. rewrite E. cbn. rewrite E2. cbn. eexists _, _. split; [done|]. congruence.
Qed.

Definition demo_held : MemCache := match serve_all demo_base [Ask 20; Poke 4104 77] with Ret (_, c) => c | _ => demo_base end.
Lemma demo_held_Inv : Inv demo_held [mkChunk 4096 32 true; mkChunk 4128 80 false].
Proof.
  destruct (serve_all_plan demo_base [mkChunk 4096 112 false] [Ask 20; Poke 4104 77] demo_Inv) as (c' & E & HI & _).
  { cbn. unfold sane. split_and!; try lia; try done. exists (mkChunk 4096 32 true). cbn. split; [left|lia]. }
  unfold demo_held. rewrite E. exact HI.
Qed.
Lemma blocks_keep_contents_witness :
  exists ps c', serve_all demo_held [Ask 8; Ask 30; Release 4136] = Ret (ps, c') /\ _mem c' !! 4104 = Some 77.
Proof.
  replace (Some 77) with (_mem demo_held !! 4104) by (vm_compute; reflexivity).
  apply (blocks_keep_contents demo_held [mkChunk 4096 32 true; mkChunk 4128 80 false] _ (mkChunk 4096 32 true));
    [exact demo_held_Inv | | left | cbn; lia | by repeat constructor].
  cbn. unfold sane. split_and!; try lia; try done. exists (mkChunk 4128 16 true). split; [do 1 right; left|done].
Defined.

(** ** Availability *)

Lemma no_lives_single c L : Inv c L -> 0 < _size c -> lives L = [] -> L = [mkChunk (_mem_base c) (_size c) false].
Proof.
  intros HI Hz HL. pose proof HI as [_ _ _ _ HT Hap _ _]. destruct L as [|[a z b] [|d L]]; cbn in *.
  - lia.
  - destruct b; [done|]. f_equal. f_equal; lia.
  - destruct b; [done|]. cbn in Hap. destruct Hap as [Hd _]. by rewrite Hd in HL.
Qed.

(** The requests that give the blocks [us] back. *)
Definition give_back (us : layout) : list request := (fun u => Release (c_addr u + 8)) <$> us.

Lemma give_back_all c L us :
  Inv c L -> us ≡ₚ lives L -> may_all L (give_back us) /\ lives (snd (plan_all L (give_back us))) = [].
Proof.
  revert c L. induction us as [|u us IH]; intros c L HI HP.
  - apply Permutation_nil_l in HP. done.
  - assert (Hu : u ∈ lives L) by (rewrite <- HP; left).
    assert (Hm : may L (Release (c_addr u + 8))) by (exists u; done).
    destruct (serve_plan c L _ HI Hm) as (c1 & _ & HI1 & _).
    pose proof (tiles_ordered _ _ _ (inv_tiles _ _ HI) (inv_align _ _ HI)) as Ho.
    destruct (IH _ _ HI1) as [IH1 IH2].
    + cbn -[lives]. replace (c_addr u + 8 - 8) with (c_addr u) by lia.
      apply lives_split in Hu as (L1 & L2 & -> & Eu & EL). rewrite (lives_free _ _ _ _ _ Ho Eu).
      rewrite EL, <- Permutation_middle in HP. apply Permutation_cons_inv in HP. by rewrite lives_app.
    + cbn -[lives] in *. split; [done|]. by destruct (plan_all _ _).
Qed.

(** C26: released memory is available again.  From every state of the
    allocator, giving back the blocks in use, in any order, succeeds, and
    after that every request the arena can hold with its header is served: nothing is
    lost to fragmentation. *)
Theorem released_memory_returns c L us n :
  Inv c L -> us ≡ₚ lives L -> 0 < n -> gross n <= _size c ->
  exists ps c' p c'', serve_all c (give_back us) = Ret (ps, c') /\ Alloc c' n = Ret (p, c'') /\ p <> 0.
Proof.
  intros HI HP Hn Hz. destruct (gross_bounds n Hn) as (?&?&?). pose proof (inv_top _ _ HI). pose proof (inv_pos _ _ HI).
  destruct (give_back_all c L us HI HP) as [Hm HL]. destruct (serve_all_plan c L _ HI Hm) as (c' & E & HI' & EB & EZ).
  pose proof (no_lives_single _ _ HI' ltac:(lia) HL) as EL.
  assert (Hs : sane n) by (unfold sane; lia).
  destruct (serve_plan c' _ (Ask n) HI' Hs) as (c'' & E2 & _). rewrite EL in E2. cbn -[Alloc gross] in E2.
  destruct (Z.eqb_spec n 0); [lia|]. destruct (Z.leb_spec (gross n) (_size c')); [|lia]. cbn -[Alloc] in E2.
  eexists _, c', _, c''. split_and!; [done..|]. lia.
Qed.

Lemma released_memory_returns_witness :
  exists ps c' p c'', serve_all demo_held (give_back [mkChunk 4096 32 true]) = Ret (ps, c')
    /\ Alloc c' 100 = Ret (p, c'') /\ p <> 0.
Proof.
  apply (released_memory_returns demo_held [mkChunk 4096 32 true; mkChunk 4128 80 false]);
    [exact demo_held_Inv | reflexivity | lia | vm_compute; discriminate].
Defined.

(** ** The end of the range *)

Lemma wrapped_size n : 2 ^ 64 - 7 <= n < 2 ^ 64 -> COUNT_ALIGNED (u64 (n + ALIGN_BYTES)) = 16.
Proof.
  intros. unfold ALIGN_BYTES, u64 at 1. replace ((n + 8) mod 2 ^ 64) with (n + 8 - 2 ^ 64) by lia.
  rewrite COUNT_ALIGNED_small by lia. lia.
Qed.

(** [memsize + ALIGN_BYTES] wraps.  A request for the largest sizes of
    [size_t] is served with the first free chunk, cut to sixteen bytes, instead
    of being refused. *)
Theorem Alloc_wraps c L n a L' :
  Inv c L -> 2 ^ 64 - 7 <= n < 2 ^ 64 -> alloc_layout 16 L = Some (a, L') ->
  exists c', Alloc c n = Ret (a + 8, c') /\ Inv c' L' /\ mkChunk a 16 true ∈ lives L'.
Proof.
  intros HI Hn HL. unfold Alloc. destruct (Z.eqb_spec n 0); [lia|]. rewrite wrapped_size by done.
  pose proof (Alloc_layout c L 16 HI ltac:(lia) ltac:(lia)) as HA. pose proof (alloc_layout_cases 16 L) as HC.
  rewrite HL in HA, HC. destruct HA as (c' & -> & HI' & _). exists c'. split_and!; [done..|].
  destruct HC as (L1 & k & L2 & _ & _ & _ & _ & _ & ->). apply lives_elem. split; [set_solver|done].
Qed.

Lemma Alloc_wraps_witness :
  exists c', Alloc demo_base (2 ^ 64 - 1) = Ret (4104, c')
    /\ Inv c' [mkChunk 4096 16 true; mkChunk 4112 96 false]
    /\ mkChunk 4096 16 true ∈ lives [mkChunk 4096 16 true; mkChunk 4112 96 false].
Proof.
  apply (Alloc_wraps demo_base [mkChunk 4096 112 false] (2 ^ 64 - 1) 4096); [exact demo_Inv | lia | reflexivity].
Defined.

(** [Uninit] leaves [_mem_base] as it was, so the destructor gives the same
    block back a second time. *)
Lemma Uninit_twice c blocks :
  _mem_base c <> 0 -> (b ← Uninit c blocks; Uninit c b) = Crash.
Proof.
  intros H. unfold Uninit. destruct (Z.eqb_spec (_mem_base c) 0); [done|]. case_decide; [|done]. cbn.
  destruct (Z.eqb_spec (_mem_base c) 0); [done|]. rewrite decide_False by set_solver. done.
Qed.

