(* ===== verification/Time.v ===== *)
(** * Time: time stamps and time spans (common/utils/Timestamp.h, Timespan.h)

    Both classes wrap a signed 64-bit number of microseconds.  Signed overflow
    is undefined in C++; the operations here are the exact ones, and the
    theorems say for which values they stay in range. *)

From S2P Require Import Prelude Words.

Definition int64_ok (z : Z) : Prop := - 2 ^ 63 <= z < 2 ^ 63.
(** Conversion to [int]. *)
Definition to_int32 (z : Z) : Z := (z + 2 ^ 31) mod 2 ^ 32 - 2 ^ 31.

(** ** Timestamp *)

Definition resolution : Z := 1000000.
Record Timestamp := mkTs { _ts : Z }.

Definition Timestamp_add (t : Timestamp) (d : Z) : Timestamp := mkTs (_ts t + d).
Definition Timestamp_sub (t : Timestamp) (d : Z) : Timestamp := mkTs (_ts t - d).
Definition Timestamp_diff (t u : Timestamp) : Z := _ts t - _ts u.
(** [/] truncates towards zero. *)
Definition epochTime (t : Timestamp) : Z := Z.quot (_ts t) resolution.
Definition utc_base : Z := Z.shiftl 0x01b21dd2 32 + 0x13814000.
Definition utcTime (t : Timestamp) : Z := _ts t * 10 + utc_base.
(** [FileTimeVal] is unsigned. *)
Definition fileTime (t : Timestamp) : Z := u64 (_ts t * 10 + 0x019DB1DE + 0xD53E8000).
Definition epochMicroseconds (t : Timestamp) : Z := _ts t.
Definition fromEpochTime (t : Z) : Timestamp := mkTs (t * resolution).
Definition fromUtcTime (v : Z) : Timestamp := mkTs (Z.quot (v - utc_base) 10).
(** The unsigned quotient, converted to the signed type. *)
Definition to_int64 (z : Z) : Z := (z + 2 ^ 63) mod 2 ^ 64 - 2 ^ 63.
Definition fromFileTime (f : Z) : Timestamp := mkTs (to_int64 (u64 (f - 0x019DB1DE - 0xD53E8000) / 10)).
(** [update] from what [gettimeofday] fills in. *)
Definition Timestamp_update (tv_sec tv_usec : Z) : Timestamp := mkTs (tv_sec * resolution + tv_usec).
Definition elapsed (now t : Timestamp) : Z := Timestamp_diff now t.
Definition isElapsed (now t : Timestamp) (interval : Z) : bool := interval <=? Timestamp_diff now t.

(** ** Timespan *)

Definition MILLISECONDS : Z := 1000.
Definition SECONDS : Z := 1000 * MILLISECONDS.
Definition MINUTES : Z := 60 * SECONDS.
Definition HOURS : Z := 60 * MINUTES.
Definition DAYS : Z := 24 * HOURS.

Record Timespan := mkSpan { _span : Z }.
Definition Timespan_make (days hours minutes seconds microseconds : Z) : Timespan :=
  mkSpan (microseconds + seconds * SECONDS + minutes * MINUTES + hours * HOURS + days * DAYS).
Definition Timespan_timeval (seconds microseconds : Z) : Timespan := mkSpan (seconds * SECONDS + microseconds).
Definition Timespan_plus (a b : Timespan) : Timespan := mkSpan (_span a + _span b).
Definition Timespan_minus (a b : Timespan) : Timespan := mkSpan (_span a - _span b).

Definition days (t : Timespan) : Z := to_int32 (Z.quot (_span t) DAYS).
Definition hours (t : Timespan) : Z := to_int32 (Z.rem (Z.quot (_span t) HOURS) 24).
Definition totalHours (t : Timespan) : Z := to_int32 (Z.quot (_span t) HOURS).
Definition minutes (t : Timespan) : Z := to_int32 (Z.rem (Z.quot (_span t) MINUTES) 60).
Definition totalMinutes (t : Timespan) : Z := to_int32 (Z.quot (_span t) MINUTES).
Definition seconds (t : Timespan) : Z := to_int32 (Z.rem (Z.quot (_span t) SECONDS) 60).
Definition totalSeconds (t : Timespan) : Z := to_int32 (Z.quot (_span t) SECONDS).
Definition milliseconds (t : Timespan) : Z := to_int32 (Z.rem (Z.quot (_span t) MILLISECONDS) 1000).
Definition totalMilliseconds (t : Timespan) : Z := Z.quot (_span t) MILLISECONDS.
Definition microseconds (t : Timespan) : Z := to_int32 (Z.rem (_span t) 1000).
Definition useconds (t : Timespan) : Z := to_int32 (Z.rem (_span t) 1000000).

(** ** Theorems *)

Lemma to_int32_small z : - 2 ^ 31 <= z < 2 ^ 31 -> to_int32 z = z.
Proof. intros. unfold to_int32. rewrite Z.mod_small; lia. Qed.

(** The fields of a span in normal form are read back, and nothing overflows. *)
Theorem Timespan_fields d h m s us :
  0 <= d < 2 ^ 26 -> 0 <= h < 24 -> 0 <= m < 60 -> 0 <= s < 60 -> 0 <= us < 1000000 ->
  let t := Timespan_make d h m s us in
  int64_ok (_span t) /\ days t = d /\ hours t = h /\ minutes t = m /\ seconds t = s /\ useconds t = us
  /\ milliseconds t * 1000 + microseconds t = us.
Proof.
  intros Hd Hh Hm Hs Hu. unfold int64_ok, days, hours, minutes, seconds, useconds, milliseconds, microseconds,
    Timespan_make, DAYS, HOURS, MINUTES, SECONDS, MILLISECONDS. cbn [_span].
  set (x := us + _ + _ + _ + _).
  assert (Hx : 0 <= x) by (unfold x; lia).
  rewrite !Z.quot_div_nonneg, !Z.rem_mod_nonneg by (try apply Z.div_pos; lia).
  assert (x / (24 * (60 * (60 * (1000 * 1000)))) = d) as -> by (unfold x; symmetry; eapply (Z.div_unique _ _ _ (us + s * 1000000 + m * 60000000 + h * 3600000000)); lia).
  assert (x / (60 * (60 * (1000 * 1000))) = h + 24 * d) as ->
    by (unfold x; symmetry; eapply (Z.div_unique _ _ _ (us + s * 1000000 + m * 60000000)); lia).
  assert (x / (60 * (1000 * 1000)) = m + 60 * (h + 24 * d)) as ->
    by (unfold x; symmetry; eapply (Z.div_unique _ _ _ (us + s * 1000000)); lia).
  assert (x / (1000 * 1000) = s + 60 * (m + 60 * (h + 24 * d))) as ->
    by (unfold x; symmetry; eapply (Z.div_unique _ _ _ us); lia).
  assert (x mod 1000000 = us) as -> by (symmetry; apply (Z.mod_unique _ _ (s + 60 * (m + 60 * (h + 24 * d)))); unfold x; lia).
  assert (Hm1 : (x / 1000) mod 1000 = us / 1000).
  { symmetry. apply (Z.mod_unique _ _ (s + 60 * (m + 60 * (h + 24 * d)))); [left; split; [apply Z.div_pos; lia|apply Z.div_lt_upper_bound; lia]|].
    replace x with (us + (1000 * (s + 60 * (m + 60 * (h + 24 * d)))) * 1000) by (unfold x; lia). rewrite Z.div_add by lia. lia. }
  assert (Hm2 : x mod 1000 = us mod 1000).
  { replace x with (us + (1000 * (s + 60 * (m + 60 * (h + 24 * d)))) * 1000) by (unfold x; lia). by rewrite Z.mod_add by lia. }
  rewrite Hm1, Hm2. pose proof (Z.div_mod us 1000 ltac:(lia)). pose proof (Z.mod_pos_bound us 1000 ltac:(lia)).
  pose proof (Z.div_pos us 1000 ltac:(lia) ltac:(lia)).
  rewrite (Z.add_comm h), (Z.mul_comm 24), Z.add_comm, Z.mod_add, Z.mod_small by lia.
  rewrite (Z.mul_comm 60), Z.mod_add, Z.mod_small, (Z.mul_comm 60), Z.mod_add, Z.mod_small by lia.
  rewrite !to_int32_small by lia. unfold x. split_and!; lia.
Qed.

Lemma utc_roundtrip t : fromUtcTime (utcTime t) = t.
Proof.
  unfold fromUtcTime, utcTime. replace (_ts t * 10 + utc_base - utc_base) with (_ts t * 10) by lia.
  rewrite Z.quot_mul by lia. by destruct t.
Qed.
Lemma epoch_roundtrip s : epochTime (fromEpochTime s) = s.
Proof. unfold epochTime, fromEpochTime. cbn. by rewrite Z.quot_mul. Qed.

Lemma file_roundtrip t : 0 <= _ts t -> _ts t * 10 + 2 ^ 33 < 2 ^ 64 -> fromFileTime (fileTime t) = t.
Proof.
  intros H0 H1. unfold fromFileTime, fileTime, u64.
  rewrite (Z.mod_small (_ts t * 10 + _ + _)) by lia.
  replace (_ts t * 10 + 27111902 + 3577643008 - 27111902 - 3577643008) with (_ts t * 10) by lia.
  rewrite Z.mod_small, Z.div_mul by lia. unfold to_int64. rewrite Z.mod_small by lia.
  destruct t as [z]. cbn. f_equal. lia.
Qed.

(** The Unix epoch as a Windows file time is 0x019DB1DE shifted by 32 bits plus
    0xD53E8000, the base the other platform branch of [update] uses;
    [fileTime] adds the high half without the shift, and is off by the
    difference for every time stamp in range. *)
Definition file_epoch : Z := Z.shiftl 0x019DB1DE 32 + 0xD53E8000.
Lemma fileTime_misses_shift t :
  0 <= _ts t -> _ts t * 10 + file_epoch < 2 ^ 64 ->
  fileTime t = _ts t * 10 + file_epoch - (2 ^ 32 - 1) * 0x019DB1DE.
Proof.
  intros H0 H1. unfold fileTime, u64. rewrite Z.mod_small.
  - unfold file_epoch. rewrite Z.shiftl_mul_pow2 by lia. lia.
  - unfold file_epoch in H1. rewrite Z.shiftl_mul_pow2 in H1 by lia. lia.
Qed.
