(* ===== verification/Caches.v ===== *)
(** * Caches: files, realms and news (blitzd/cache)

    [FileCache] keeps the files clients download, [RealmCache] the realm
    servers that have registered, [NewsCache] the message of the day and the
    news items by time. *)

From S2P Require Import Prelude Words Stream OMap CStr Files Time.
From Stdlib Require Import Sorted.

(** ** Files *)

Record FileCacheItem := mkFileItem { fi_data : bytes; fi_ft : Z }.
Notation FileCache := (list (bytes * FileCacheItem)).

(** [stat]: the modification time, when the call succeeds. *)
Definition FileCacheItem_Load (fs : fsys) (stat : bytes -> option Z) (n : bytes) : result (option FileCacheItem) :=
  let '(ok, f) := Open fs n false FileStream_ctor in
  if ok then
    '(data, f) ← slurp f;
    _ ← Close f;
    Ret (Some (mkFileItem data (match stat n with Some t => fileTime (fromEpochTime t) | None => 0 end)))
  else Ret None.
Definition GetSize (i : FileCacheItem) : Z := u32 (Z.of_nat (length (fi_data i))).

Section files.
Context (fs : fsys) (stat : bytes -> option Z) (dir : bytes).

Definition FetchFile (m : FileCache) (filename : bytes) : result (option FileCacheItem * FileCache) :=
  ptr ← FileCacheItem_Load fs stat (dir ++ [47] ++ filename);
  match ptr with
  | Some i => Ret (ptr, om_insert bytes_ltb filename i m)
  | None => Ret (None, m)
  end.
Definition FileCache_at (m : FileCache) (fn : bytes) : result (option FileCacheItem * FileCache) :=
  match om_find bytes_ltb fn m with
  | Some i => Ret (Some i, m)
  | None => FetchFile m fn
  end.
End files.

(** ** Realms *)

Record RealmCacheItem := mkRealm { rl_name : bytes; rl_desc : bytes; rl_port : Z; rl_ip : Z }.
Notation RealmCache := (list (bytes * RealmCacheItem)).

Definition RealmCache_Add (m : RealmCache) (name desc : bytes) (port ip : Z) : option RealmCacheItem * RealmCache :=
  match om_find bytes_ltb name m with
  | Some _ => (None, m)
  | None => let r := mkRealm name desc port ip in (Some r, om_insert bytes_ltb name r m)
  end.
Definition RealmCache_at (m : RealmCache) (name : bytes) : option RealmCacheItem := om_find bytes_ltb name m.
Definition RealmCache_BuildPacket (m : RealmCache) (out : Stream) : Stream :=
  foldl (fun out e => put_str (rl_desc e.2) (put_str (rl_name e.2) (put_u32 1 out)))
        (put_u32 (u32 (Z.of_nat (length m))) out) m.

(** ** News *)

Record NewsCache := mkNews { _newsmap : list (Z * bytes); _motd : bytes }.

Definition SetMotd (m : bytes) (n : NewsCache) : NewsCache := mkNews (_newsmap n) m.
Definition GetMotd (n : NewsCache) : bytes := _motd n.
Definition NewsCache_Add (t : Z) (text : bytes) (n : NewsCache) : NewsCache :=
  mkNews (om_insert Z.ltb t text (_newsmap n)) (_motd n).

(** [sscanf] with [%d] and the characters between: each number is stored when
    it is there; the scan stops at the first mismatch. *)
Fixpoint scan_digits (acc : Z) (s : bytes) : Z * bytes :=
  match s with
  | c :: s' => if (48 <=? c) && (c <=? 57) then scan_digits (acc * 10 + (c - 48)) s' else (acc, s)
  | [] => (acc, [])
  end.
Definition is_digit (c : Z) : bool := (48 <=? c) && (c <=? 57).
Definition blank (c : Z) : bool := (c =? 32) || ((9 <=? c) && (c <=? 13)).
Fixpoint skip_blank (s : bytes) : bytes :=
  match s with c :: s' => if blank c then skip_blank s' else s | [] => [] end.
Definition scan_int (s : bytes) : option (Z * bytes) :=
  match skip_blank s with
  | c :: s' =>
      if is_digit c then Some (scan_digits 0 (c :: s'))
      else if (c =? 45) || (c =? 43) then
        match s' with
        | d :: _ => if is_digit d then let '(v, r) := scan_digits 0 s' in Some (if c =? 45 then - v else v, r) else None
        | [] => None
        end
      else None
  | [] => None
  end.
(** The format after the first [%d]: what stands before each further one. *)
Inductive sep := SepChar (c : Z) | SepBlank.
Definition scan_sep (p : sep) (s : bytes) : option bytes :=
  match p with
  | SepBlank => Some (skip_blank s)
  | SepChar c => match s with x :: s' => if x =? c then Some s' else None | [] => None end
  end.
Fixpoint scan_fields (junk : list Z) (seps : list sep) (s : bytes) : list Z :=
  match junk, seps with
  | j :: junk, p :: seps =>
      match scan_sep p s with
      | Some s => match scan_int s with Some (v, s) => v :: scan_fields junk seps s | None => j :: junk end
      | None => j :: junk
      end
  | _, _ => junk
  end.
Definition date_seps : list sep := [SepBlank; SepChar 45; SepChar 45; SepBlank; SepChar 58; SepChar 58].

(** [mktime] of year, month, day, hour, minute, second as the structure has
    them; [junk] is what the six fields hold before. *)
Definition NewsCache_AddDate (mktime : list Z -> Z) (junk : list Z) (t text : bytes) (n : NewsCache) : NewsCache :=
  match scan_fields junk date_seps (cstr t) with
  | y :: mo :: r => NewsCache_Add (u32 (mktime (y - 1900 :: mo - 1 :: r))) text n
  | _ => n
  end.

(** The scan for two equal characters; it stops with one character left when
    there is none. *)
Fixpoint find_mark (a : Z) (s : bytes) : bytes :=
  match s with
  | x :: ((y :: _) as s') => if (x =? a) && (y =? a) then s else find_mark a s'
  | _ => s
  end.
Definition is_nl (c : Z) : bool := (c =? 13) || (c =? 10).
Fixpoint skip_nl (s : bytes) : bytes :=
  match s with c :: s' => if is_nl c then skip_nl s' else s | [] => [] end.
(** [while(end > start && ...) -- end;] on the text. *)
Definition trim_nl (s : bytes) : bytes := rev (skip_nl (rev s)).
(** What stands before the suffix [t] of [s]. *)
Definition upto (s t : bytes) : bytes := take (length s - length t) s.

(** The items of the file, from behind a pair of opening braces. *)
Fixpoint news_loop (fuel : nat) (s : bytes) (add : bytes -> bytes -> NewsCache -> NewsCache) (n : NewsCache) : NewsCache :=
  match fuel with
  | O => n
  | S fuel =>
      if Nat.ltb 1 (length s) then
        let s1 := find_mark 125 s in
        if Nat.leb (length s1) 1 then n else
        let date := upto s s1 in
        let s2 := skip_nl (drop 2 s1) in
        match s2 with
        | [] => n
        | _ =>
            let s3 := find_mark 123 s2 in
            let n := add date (trim_nl (upto s2 s3)) n in
            if Nat.ltb 1 (length s3) then news_loop fuel (drop 2 s3) add n else n
        end
      else n
  end.
Definition parse_news (content : bytes) (add : bytes -> bytes -> NewsCache -> NewsCache) (n : NewsCache) : NewsCache :=
  let s := find_mark 123 content in
  let s := if Nat.ltb 1 (length s) then drop 2 s else s in
  news_loop (S (length s)) s add n.

Definition NewsCache_Load (fs : fsys) (motd_path news_path : bytes) (add : bytes -> bytes -> NewsCache -> NewsCache)
  (n : NewsCache) : result NewsCache :=
  let '(_, f) := Open fs motd_path false FileStream_ctor in
  '(motd, f) ← slurp f;
  f ← Close f;
  let '(_, f) := Open fs news_path false f in
  '(content, f) ← slurp f;
  _ ← Close f;
  Ret (parse_news content add (SetMotd motd n)).

Definition OldestTime (n : NewsCache) : Z := match _newsmap n with [] => 0 | e :: _ => e.1 end.
Definition NewestTime (n : NewsCache) : Z := match last (_newsmap n) with None => 0 | Some e => e.1 end.

(** [GetAfter]: from the entry after the first one that is newer, 250 at most;
    [result] starts empty in its only caller. *)
Definition GetAfter (t : Z) (n : NewsCache) : Z * list (Z * bytes) :=
  match om_upper Z.ltb t (_newsmap n) with
  | [] => (0, [])
  | _ :: rest => let l := take 250 rest in
                 (Z.of_nat (length l), foldl (fun m e => om_insert Z.ltb e.1 e.2 m) [] l)
  end.

(** [BNetReplyNews::Pack]; [now] is [time(NULL)]. *)
Definition BNetReplyNews_Pack (n : NewsCache) (now last_time : Z) (st : Stream) : option Stream :=
  let '(c, news) := GetAfter last_time n in
  let st := put_u32 (NewestTime n) (put_u32 (OldestTime n) (put_u32 (u32 now) (put_u8 (u8 (c + 1)) st))) in
  let st := put_cstr (GetMotd n) (put_u32 0 st) in
  Some (if 0 <? c then foldl (fun st e => put_cstr e.2 (put_u32 e.1 st)) st news else st).

(** ** Lemmas on the news *)

Definition no (a : Z) (s : bytes) : Prop := Forall (fun c => c <> a) s.

Lemma find_mark_hit a p r : no a p -> find_mark a (p ++ a :: a :: r) = a :: a :: r.
Proof.
  induction 1 as [|x p Hx Hp IH]; cbn; [by rewrite Z.eqb_refl|].
  destruct (p ++ a :: a :: r) as [|y s] eqn:E; [by destruct p|].
  destruct (Z.eqb_spec x a); [done|]. exact IH.
Qed.
Lemma find_mark_miss a p x : no a p -> find_mark a (p ++ [x]) = [x].
Proof.
  induction 1 as [|y p Hy Hp IH]; cbn; [done|].
  destruct (p ++ [x]) as [|z s] eqn:E; [by destruct p|]. destruct (Z.eqb_spec y a); [done|]. exact IH.
Qed.
Lemma upto_app p s : upto (p ++ s) s = p.
Proof. unfold upto. rewrite length_app. replace (_ - _)%nat with (length p) by lia. apply take_app_length. Qed.

Lemma skip_nl_id s : (forall c r, s = c :: r -> is_nl c = false) -> skip_nl s = s.
Proof. destruct s as [|c s]; [done|]. intros H. cbn. by rewrite (H c s). Qed.
Lemma skip_nl_one s : skip_nl (10 :: s) = skip_nl s.
Proof. done. Qed.

(** Texts as they appear in the file: not empty, without braces, and without a
    newline at either end. *)
Definition text_ok (s : bytes) : Prop :=
  no 123 s /\ s <> [] /\ (forall c r, s = c :: r -> is_nl c = false) /\ (forall c r, s = r ++ [c] -> is_nl c = false).

Lemma trim_nl_one s : (forall c r, s = r ++ [c] -> is_nl c = false) -> trim_nl s = s /\ trim_nl (s ++ [10]) = s.
Proof.
  intros H. unfold trim_nl. rewrite rev_app_distr. cbn [rev app]. rewrite skip_nl_one.
  rewrite skip_nl_id; [by rewrite rev_involutive|]. intros c r E. apply (H c (rev r)).
  rewrite <- (rev_involutive s), E. done.
Qed.

(** One item of the file and the whole file. *)
Definition news_item (e : bytes * bytes) : bytes := b# "{{" ++ e.1 ++ b# "}}" ++ [10] ++ e.2 ++ [10].
Definition news_file (l : list (bytes * bytes)) : bytes := mjoin (news_item <$> l).
Definition item_ok (e : bytes * bytes) : Prop := no 125 e.1 /\ text_ok e.2.

Section parse.
Context (add : bytes -> bytes -> NewsCache -> NewsCache).

(** One round of the loop, from behind the opening braces. *)
Lemma news_round fuel e rest n :
  item_ok e ->
  (rest = [] \/ exists r, rest = 123 :: 123 :: r) ->
  news_loop (S fuel) (e.1 ++ 125 :: 125 :: 10 :: e.2 ++ 10 :: rest) add n
  = match rest with [] => add e.1 e.2 n | _ => news_loop fuel (drop 2 rest) add (add e.1 e.2 n) end.
Proof.
  intros [Hd (Ht & Hne & Hb & He)] Hr. destruct e as [d t]. cbn [fst snd] in *. cbn [news_loop].
  assert (Nat.ltb 1 (length (d ++ 125 :: 125 :: 10 :: t ++ 10 :: rest)) = true) as ->
    by (apply Nat.ltb_lt; rewrite length_app; cbn; lia).
  rewrite find_mark_hit by done. cbn [length Nat.leb]. rewrite upto_app. cbn [drop].
  rewrite skip_nl_one, skip_nl_id by (intros c r E; destruct t as [|c' t']; [done|]; injection E as <- _; by apply (Hb c' t')).
  destruct (t ++ 10 :: rest) as [|z s] eqn:E; [by destruct t|]. rewrite <- E. clear E z s.
  destruct Hr as [->|[r ->]].
  - rewrite find_mark_miss by done. cbn [length Nat.ltb Nat.leb]. rewrite upto_app.
    by rewrite (proj1 (trim_nl_one t He)).
  - assert (t ++ 10 :: 123 :: 123 :: r = (t ++ [10]) ++ 123 :: 123 :: r) as -> by by rewrite <- app_assoc.
    rewrite find_mark_hit by (apply Forall_app; split; [done|repeat constructor; lia]).
    rewrite upto_app. cbn [length Nat.ltb Nat.leb]. by rewrite (proj2 (trim_nl_one t He)).
Qed.

Lemma news_file_head l : news_file l = [] \/ exists r, news_file l = 123 :: 123 :: r.
Proof. destruct l as [|[d t] l]; [by left|]. right. cbn. eauto. Qed.

Lemma news_loop_items fuel e l n :
  item_ok e -> Forall item_ok l -> (length l < fuel)%nat ->
  news_loop fuel (drop 2 (news_file (e :: l))) add n = foldl (fun n e => add e.1 e.2 n) n (e :: l).
Proof.
  intros He Hl. revert fuel e He n. induction Hl as [|e' l He' Hl IH]; intros fuel e He n Hf; (destruct fuel as [|fuel]; [lia|]).
  - pose proof (news_round fuel e [] n He ltac:(auto)) as R. destruct e as [d t]. cbn [fst snd] in R.
    change (drop 2 (news_file [(d, t)])) with ((d ++ 125 :: 125 :: 10 :: t ++ [10]) ++ []). rewrite app_nil_r.
    by rewrite R.
  - pose proof (news_round fuel e (news_file (e' :: l)) n He (news_file_head (e' :: l))) as R.
    destruct e as [d t]. cbn [fst snd] in R.
    assert (drop 2 (news_file ((d, t) :: e' :: l)) = d ++ 125 :: 125 :: 10 :: t ++ 10 :: news_file (e' :: l)) as ->.
    { cbn. rewrite <- !app_assoc. cbn. by rewrite <- !app_assoc. }
    rewrite R. destruct (news_file_head (e' :: l)) as [E|[r E]]; [by destruct e'|].
    assert (forall A (x y : A), match news_file (e' :: l) with [] => x | _ => y end = y) as -> by (intros; by rewrite E).
    rewrite IH; [done|done|cbn in *; lia].
Qed.

(** The news file is read back.  A file that lists items as [{{date}}],
    newline, text, newline is parsed into exactly these items, in order,
    whatever [Add] does with them. *)
Theorem news_file_roundtrip l n :
  Forall item_ok l -> parse_news (news_file l) add n = foldl (fun n e => add e.1 e.2 n) n l.
Proof.
  intros Hl. unfold parse_news. destruct Hl as [|e l He Hl]; [done|].
  assert (find_mark 123 (news_file (e :: l)) = news_file (e :: l)) as -> by by destruct e.
  assert (Nat.ltb 1 (length (news_file (e :: l))) = true) as -> by by destruct e.
  apply news_loop_items; [done..|]. clear.
  assert (forall l, (length l <= length (news_file l))%nat) as H.
  { clear. induction l as [|[d t] l IH]; [done|]. unfold news_file in *. rewrite fmap_cons, mjoin_cons, length_app. cbn. lia. }
  specialize (H l). rewrite length_drop. destruct e as [d t]. unfold news_file in *. rewrite fmap_cons, mjoin_cons, length_app.
  unfold news_item at 1. rewrite !length_app. change (length (b# "{{")) with 2%nat. change (length (b# "}}")) with 2%nat.
  cbn [length fst snd]. lia.
Qed.


(** The last character of the file is taken for the end: without a final
    newline, the last item loses its last character. *)
Lemma news_last_character_lost d t c n :
  no 125 d -> text_ok t -> parse_news (b# "{{" ++ d ++ b# "}}" ++ t ++ [c]) add n = add d t n.
Proof.
  intros Hd (Ht & Hne & Hb & He). set (s := d ++ 125 :: 125 :: t ++ [c]).
  change (news_loop (S (length s)) s add n = add d t n). cbn [news_loop].
  assert (Nat.ltb 1 (length s) = true) as -> by (apply Nat.ltb_lt; unfold s; rewrite length_app; cbn; lia).
  subst s. rewrite find_mark_hit by done. cbn [length Nat.leb].
  rewrite upto_app. change (drop 2 (125 :: 125 :: t ++ [c])) with (t ++ [c]).
  rewrite skip_nl_id by (intros x r E; destruct t as [|c' t']; [done|]; injection E as <- _; by apply (Hb c' t')).
  destruct (t ++ [c]) as [|z s'] eqn:E; [by destruct t|]. rewrite <- E. clear E z s'.
  rewrite find_mark_miss by done. cbn [length Nat.ltb Nat.leb]. rewrite upto_app.
  by rewrite (proj1 (trim_nl_one t He)).
Qed.
End parse.

Lemma news_file_roundtrip_witness :
  parse_news (news_file [(b# "2010-05-01 12:00:00", b# "Hello"); (b# "2010-06-01 00:00:00", b# "World")])
    (fun d t n => NewsCache_Add (Z.of_nat (length (_newsmap n)) + 1) (d ++ t) n) (mkNews [] [])
  = mkNews [(1, b# "2010-05-01 12:00:00Hello"); (2, b# "2010-06-01 00:00:00World")] [].
Proof.
  rewrite news_file_roundtrip; [reflexivity|].
  repeat (apply Forall_cons; split; [split; [by repeat constructor|]|]); [| |constructor].
  all: split; [by repeat constructor|]; split; [done|]; split.
  all: intros c r; cbn; intros E.
  1, 3: injection E as <- _; reflexivity.
  all: apply (f_equal last) in E; rewrite last_snoc in E; injection E as <-; reflexivity.
Defined.

(** ** What a client gets to see *)

Lemma take_sorted k (m : list (Z * bytes)) : om_sorted Z.ltb m -> om_sorted Z.ltb (take k m).
Proof.
  intros H. revert k. induction H as [|x m Hm IH Hx]; intros [|k]; cbn; constructor; [apply IH|by apply Forall_take].
Qed.

(** What [GetAfter] returns.  Of the items newer than the time the client
    names, the oldest is left out, and at most 250 of the others are returned, in
    order. *)
Theorem GetAfter_result t n :
  om_sorted Z.ltb (_newsmap n) ->
  GetAfter t n = let l := take 250 (tail (base.filter (fun e => t < e.1) (_newsmap n))) in (Z.of_nat (length l), l).
Proof.
  intros Hs. unfold GetAfter. rewrite (om_upper_spec Z.ltb t (_newsmap n) Hs).
  assert (base.filter (fun e : Z * bytes => Z.ltb t e.1 = true) (_newsmap n) = base.filter (fun e => t < e.1) (_newsmap n)) as ->
    by (apply list_filter_iff; intros e; apply Z.ltb_lt).
  pose proof (om_filter_sorted Z.ltb (fun e => t < e.1) (_newsmap n) Hs) as Hf.
  destruct (base.filter _ (_newsmap n)) as [|e rest]; [done|]. cbn [tail].
  apply StronglySorted_inv in Hf as [Hf _]. f_equal. rewrite (om_rebuild Z.ltb (take 250 rest) []); [done|].
  by apply take_sorted.
Qed.

Lemma GetAfter_result_witness :
  GetAfter 5 (mkNews [(3, b# "a"); (7, b# "b"); (9, b# "c")] []) = (1, [(9, b# "c")]).
Proof.
  rewrite GetAfter_result; [reflexivity|]. repeat constructor.
Defined.

(** The files of the cache: whatever the path says. *)
Lemma FileCache_at_any fs stat dir m fn data :
  om_find bytes_ltb fn m = None -> fs (dir ++ [47] ++ fn) = Some data -> Z.of_nat (length data) < 2 ^ 32 ->
  exists i, FileCache_at fs stat dir m fn = Ret (Some i, om_insert bytes_ltb fn i m) /\ fi_data i = data.
Proof.
  intros Hn Hf Hl. unfold FileCache_at, FetchFile, FileCacheItem_Load, Open. rewrite Hn, Hf, slurp_all by done. cbn.
  eexists. split; [done|]. done.
Qed.

(** A file that has been served is served again as it was. *)
Lemma FileCache_at_again fs fs' stat stat' dir m fn i m' :
  FileCache_at fs stat dir m fn = Ret (Some i, m') -> FileCache_at fs' stat' dir m' fn = Ret (Some i, m').
Proof.
  unfold FileCache_at. destruct (om_find bytes_ltb fn m) as [j|] eqn:E.
  - intros [= -> ->]. by rewrite E.
  - unfold FetchFile. destruct (FileCacheItem_Load fs stat (dir ++ [47] ++ fn)) as [[j|]| |]; cbn; try done.
    intros [= -> <-]. by rewrite (om_find_insert bytes_ltb fn i m).
Qed.

(** A registered realm is found and cannot be registered again. *)
Lemma RealmCache_Add_find m name desc port ip r m' :
  RealmCache_Add m name desc port ip = (Some r, m') ->
  RealmCache_at m' name = Some r /\ rl_name r = name /\
  forall d p a, RealmCache_Add m' name d p a = (None, m').
Proof.
  unfold RealmCache_Add, RealmCache_at. destruct (om_find bytes_ltb name m) eqn:E; [done|]. intros [= <- <-].
  by rewrite (om_find_insert bytes_ltb name _ m).
Qed.
