(* ===== verification/Revision.v ===== *)
(** * Revision: the check of the game version (blitzd/cache/CheckRevision.cpp)

    The server sends every client a formula and expects the value the formula
    has over the game's files.  [Load] draws a formula and computes the values
    of the configured games; [Calculate] parses a formula and runs it over the
    words of three files; [findRev] looks a client's answer up. *)

From S2P Require Import Prelude Words Stream CStr Strtol NumFmt Files.

(** ** Calculate *)

Definition mpqHashValues : list Z :=
  [0xE7F4CB62; 0xF6A14FFC; 0xAA5504AF; 0x871FCDC2; 0x11BF6A18; 0xC57292E6; 0x7927D27E; 0x2FEC8733].

(** One entry of the arrays [opTarg], [opVal1], [opType], [opVal2]. *)
Record operation := mkOp { opTarg : Z; opVal1 : Z; opType : Z; opVal2 : Z }.

(** Access to an array of four, as C++ does it: outside is undefined. *)
Definition cell (l : list Z) (i : Z) : result Z := if 0 <=? i then deref (l !! Z.to_nat i) else Crash.
Definition set_cell (l : list Z) (i v : Z) : result (list Z) :=
  if (0 <=? i) && (i <? Z.of_nat (length l)) then Ret (<[Z.to_nat i := v]> l) else Crash.

(** [operator[]] of a string: the byte behind the end is the NUL. *)
Definition char_at (s : bytes) (i : nat) : result Z :=
  if Nat.eqb i (length s) then Ret 0 else deref (s !! i).

(** [(c == 'S') ? 3 : (c - 'A')], as an unsigned number. *)
Definition var_index (c : Z) : Z := if c =? 83 then 3 else u32 (schar c - 65).

(** One token: [None] is [return false]. *)
Definition parse_token (oval : list Z) (ops : list operation) (token : bytes)
  : result (option (list Z * list operation)) :=
  match find_char 61 token with
  | None => Ret (Some (oval, ops))
  | Some _ =>
      match SeperateString token 61 0 with
      | [n; v] =>
          n0 ← char_at n 0;
          let targ := var_index n0 in
          v0 ← char_at v 0;
          if (48 <=? v0) && (v0 <=? 57) then
            oval ← set_cell oval targ (u32 (strtoul v 10));
            Ret (Some (oval, ops))
          else
            v1 ← char_at v 1;
            v2 ← char_at v 2;
            if Nat.ltb (length ops) 4 then
              Ret (Some (oval, ops ++ [mkOp targ (var_index v0) v1 (var_index v2)]))
            else Crash
      | _ => if Nat.ltb 1 (length token) then Ret None else Ret (Some (oval, ops))
      end
  end.
Fixpoint parse_tokens (oval : list Z) (ops : list operation) (tokens : list bytes)
  : result (option (list Z * list operation)) :=
  match tokens with
  | [] => Ret (Some (oval, ops))
  | t :: tokens => r ← parse_token oval ops t;
                   match r with Some (oval, ops) => parse_tokens oval ops tokens | None => Ret None end
  end.

(** A file, filled up to a multiple of 1024 with 0xff, 0xfe, ... *)
Definition padded (data : bytes) : bytes :=
  let fLen := length data in
  let bufSize := Z.to_nat (Z.land (u32 (Z.of_nat fLen + 1023)) (Z.lnot 1023)) in
  data ++ map (fun j => u8 (255 - Z.of_nat j)) (seq 0 (bufSize - fLen)).
Definition read_file (fs : fsys) (dir name : bytes) : result bytes :=
  let '(_, f) := Open fs (dir ++ [47] ++ name) false FileStream_ctor in
  '(data, f) ← slurp f;
  _ ← Close f;
  Ret (padded data).

(** The words of a buffer. *)
Fixpoint words32 (n : nat) (buf : bytes) : list Z :=
  match n with O => [] | S n => le_val (take 4 buf) :: words32 n (drop 4 buf) end.
Definition buf_words (buf : bytes) : list Z := words32 (Z.to_nat (Z.shiftr (Z.of_nat (length buf)) 2)) buf.

Definition run_op (val : list Z) (o : operation) : result (list Z) :=
  let binop (f : Z -> Z -> result Z) :=
    a ← cell val (opVal1 o); b ← cell val (opVal2 o); r ← f a b; set_cell val (opTarg o) r in
  match opType o with
  | 43 => binop (fun a b => Ret (u32 (a + b)))
  | 45 => binop (fun a b => Ret (u32 (a - b)))
  | 94 => binop (fun a b => Ret (Z.lxor a b))
  | 42 => binop (fun a b => Ret (u32 (a * b)))
  | 47 => binop (fun a b => if b =? 0 then Crash else Ret (a / b))
  | _ => Ret val
  end.
Fixpoint run_ops (val : list Z) (ops : list operation) : result (list Z) :=
  match ops with [] => Ret val | o :: ops => val ← run_op val o; run_ops val ops end.
Fixpoint run_words (val : list Z) (ops : list operation) (ws : list Z) : result (list Z) :=
  match ws with
  | [] => Ret val
  | w :: ws => val ← set_cell val 3 w; val ← run_ops val ops; run_words val ops ws
  end.

(** One round of the loop over [verIndex]. *)
Definition version_value (oval : list Z) (ops : list operation) (ws : list Z) (verIndex : Z) : result Z :=
  h ← cell mpqHashValues verIndex;
  a ← cell oval 0;
  val ← set_cell oval 0 (Z.lxor a h);
  val ← run_words val ops ws;
  cell val 2.
Fixpoint version_loop (oval : list Z) (ops : list operation) (ws : list Z) (rounds : nat) (verIndex : Z)
  (res : list Z) : result (list Z) :=
  match rounds with
  | O => Ret res
  | S rounds => v ← version_value oval ops ws verIndex;
                res ← set_cell res verIndex v;
                version_loop oval ops ws rounds (verIndex + 1) res
  end.

(** [junk] is what the stack holds in [oval]. *)
Definition Calculate (junk : list Z) (fs : fsys) (dir formulaStr : bytes) (fileNames : bytes * bytes * bytes)
  (res : list Z) (sindex eindex : Z) : result (option (list Z)) :=
  let '(f1, f2, f3) := fileNames in
  p ← parse_tokens junk [] (SeperateString formulaStr 32 0);
  match p with
  | None => Ret None
  | Some (oval, ops) =>
      b1 ← read_file fs dir f1;
      b2 ← read_file fs dir f2;
      b3 ← read_file fs dir f3;
      res ← version_loop oval ops (buf_words b1 ++ buf_words b2 ++ buf_words b3)
              (Z.to_nat (eindex - sindex + 1)) sindex res;
      Ret (Some res)
  end.

(** ** Load and findRev *)

Definition rop : list Z := [43; 45; 94].
(** The text [sprintf] writes. *)
Definition formula (a b c : Z) (o1 o2 o3 o4 : Z) : bytes :=
  b# "A=" ++ print_nat 10 a ++ b# " B=" ++ print_nat 10 b ++ b# " C=" ++ print_nat 10 c ++ b# " 4 A=A" ++ [o1]
  ++ b# "S B=B" ++ [o2] ++ b# "C C=C" ++ [o3] ++ b# "A A=A" ++ [o4] ++ b# "B".

(** What the random generator returns to [Load]. *)
Record draws := mkDraws { d_a : Z; d_b : Z; d_c : Z; d_op1 : Z; d_op2 : Z; d_op3 : Z; d_op4 : Z }.
Definition pick (r : Z) : Z := nth (Z.to_nat (u8 r mod 3)) rop 0.
Definition draw_formula (d : draws) : bytes :=
  formula (Z.land (d_a d) 0x7FFFFFFF) (Z.land (d_b d) 0x7FFFFFFF) (Z.land (d_c d) 0x7FFFFFFF)
    (pick (d_op1 d)) (pick (d_op2 d)) (pick (d_op3 d)) (pick (d_op4 d)).

Record Rev := mkRev { gameName : bytes; gameId : Z; chksum : list Z; exeVer : Z }.
Record CheckRevision := mkCheck { _formula : bytes; _revlist : list Rev }.

(** A row of the XML array: the values of the six keys. *)
Record rev_row := mkRow { r_name : bytes; r_id : bytes; r_file1 : bytes; r_file2 : bytes; r_file3 : bytes; r_exever : bytes }.

(** [*(uint * )s.c_str()]: [mem] is what follows the string in memory. *)
Definition peek_uint (mem s : bytes) : Z := le_val (take 4 (s ++ [0] ++ mem)).
Definition exe_version (s : bytes) : Z :=
  u32 (if strcmpni s (b# "0x") 2 =? 0 then strtoul (drop 2 (cstr s)) 16 else strtoul s 10).

(** [junk] and [jres] are what [oval] and [rev.chksum] hold before they are set. *)
Definition load_row (mem : bytes) (junk jres : list Z) (fs : fsys) (dir formula : bytes) (r : rev_row) (revs : list Rev)
  : result (list Rev) :=
  let id := Reverse (peek_uint mem (r_id r)) in
  if Nat.ltb 0 (length (r_file1 r)) && Nat.ltb 0 (length (r_file2 r)) && Nat.ltb 0 (length (r_file3 r)) && negb (id =? 0)
  then
    s ← Calculate junk fs dir formula
          (r_id r ++ [47] ++ r_file1 r, r_id r ++ [47] ++ r_file2 r, r_id r ++ [47] ++ r_file3 r)
          jres 0 7;
    match s with
    | Some s => Ret (revs ++ [mkRev (r_name r) id s (exe_version (r_exever r))])
    | None => Ret revs
    end
  else Ret revs.
Fixpoint load_rows (mem : bytes) (junk jres : list Z) (fs : fsys) (dir formula : bytes) (rows : list rev_row)
  (revs : list Rev) : result (list Rev) :=
  match rows with
  | [] => Ret revs
  | r :: rows => revs ← load_row mem junk jres fs dir formula r revs; load_rows mem junk jres fs dir formula rows revs
  end.
(** [rows] is [None] when the file has no [Revisions] element. *)
Definition CheckRevision_Load (mem : bytes) (junk jres : list Z) (fs : fsys) (dir : bytes) (d : draws)
  (rows : option (list rev_row)) (c : CheckRevision) : result CheckRevision :=
  let f := draw_formula d in
  revs ← match rows with Some rows => load_rows mem junk jres fs dir f rows (_revlist c) | None => Ret (_revlist c) end;
  Ret (mkCheck f revs).

Fixpoint find_in (verIndex chk ver : Z) (l : list Rev) : result (option Rev) :=
  match l with
  | [] => Ret None
  | r :: l => s ← cell (chksum r) verIndex;
              if (s =? chk) && ((exeVer r =? 0) || (exeVer r =? ver)) then Ret (Some r)
              else find_in verIndex chk ver l
  end.
Definition findRev (c : CheckRevision) (verIndex chk ver : Z) : result (option Rev) := find_in verIndex chk ver (_revlist c).
Definition GetFormula (c : CheckRevision) : bytes := cstr (_formula c).
