(* ===== verification/RevisionClaims.v ===== *)
(** * RevisionClaims: the formula interpreter against the formula's meaning

    The value of a generated formula as a recursion over the words of the files,
    and the theorem that parsing and interpreting its text computes it. *)

From S2P Require Import Prelude Words Stream CStr NumFmt Files Strtol Revision.

(** ** The meaning of a generated formula *)

Definition meaning (o a b : Z) : Z :=
  if o =? 43 then u32 (a + b) else if o =? 45 then u32 (a - b) else Z.lxor a b.

(** One word: A=A?S B=B?C C=C?A A=A?B. *)
Definition formula_step (o1 o2 o3 o4 : Z) (abc : Z * Z * Z) (s : Z) : Z * Z * Z :=
  let '(a, b, c) := abc in
  let a := meaning o1 a s in let b := meaning o2 b c in let c := meaning o3 c a in let a := meaning o4 a b in
  (a, b, c).
Definition formula_value (d : draws) (ws : list Z) (h : Z) : Z :=
  snd (foldl (formula_step (pick (d_op1 d)) (pick (d_op2 d)) (pick (d_op3 d)) (pick (d_op4 d)))
         (Z.lxor (Z.land (d_a d) 0x7FFFFFFF) h, Z.land (d_b d) 0x7FFFFFFF, Z.land (d_c d) 0x7FFFFFFF) ws).

(** ** The text *)

Lemma print10 n : 0 <= n -> Forall (fun c => 48 <= c <= 57) (print_nat 10 n) /\ print_nat 10 n <> [].
Proof.
  intros Hn. unfold print_nat. split; [|apply digits_nonempty; lia]. generalize (S (Z.to_nat (Z.log2 n))) as f.
  intros f. revert n Hn. induction f as [|f IH]; intros n Hn; cbn [digits]; [constructor|].
  unfold digit. btest.
  - repeat constructor; lia.
  - apply Forall_app. split; [apply IH, Z.div_pos; lia|]. pose proof (Z.mod_pos_bound n 10). btest; [|lia].
    repeat constructor; lia.
Qed.

Lemma digits_prefix_all s acc :
  Forall (fun c => 48 <= c <= 57) s -> digits_prefix 10 acc s = foldl (fun a c => a * 10 + undigit c) acc s.
Proof.
  intros H. revert acc. induction H as [|c s Hc H IH]; intros acc; cbn; [done|].
  assert (digit_val c = c - 48) as E by (unfold digit_val; repeat btest; cbn; lia). rewrite E.
  btest; [|lia]. rewrite IH. unfold undigit. btest; [done|lia].
Qed.

Lemma cstr_digits s : Forall (fun c => 48 <= c <= 57) s -> cstr s = s.
Proof. induction 1 as [|c s Hc H IH]; [done|]. cbn. btest; [lia|]. by rewrite IH. Qed.

Lemma strtoul_print n : 0 <= n < 2 ^ 64 -> strtoul (print_nat 10 n) 10 = n.
Proof.
  intros Hn. destruct (print10 n) as [Hd Hne]; [lia|]. pose proof (print_parse 10 ltac:(lia) n ltac:(lia)) as HP.
  unfold strtoul. rewrite cstr_digits by done.
  assert (skip_space (print_nat 10 n) = print_nat 10 n) as ->.
  { destruct Hd as [|c s Hc _]; [done|]. cbn. assert (isspace c = false) as ->; [|done].
    unfold isspace. repeat btest; cbn; try lia; done. }
  destruct (print_nat 10 n) as [|c s]; [done|]. pose proof (digits_prefix_all _ 0 Hd) as HX.
  apply Forall_cons in Hd as [Hc Hd].
  unfold parse_nat in HP. rewrite <- HX in HP. destruct (Z.eqb_spec c 45); [lia|]. destruct (Z.eqb_spec c 43); [lia|].
  destruct s as [|x [|y s]]; cbn -[digits_prefix Z.pow Z.leb]; rewrite HP; btest; lia.
Qed.

Lemma tokens_cons d t s : Forall (fun x => x <> d) t -> t <> [] -> tokens_ref d [] (t ++ d :: s) = t :: tokens_ref d [] s.
Proof. intros H Hne. rewrite tokens_ref_run by done. cbn. rewrite Z.eqb_refl. by destruct t. Qed.
Lemma tokens_last d t : Forall (fun x => x <> d) t -> t <> [] -> tokens_ref d [] t = [t].
Proof. intros H Hne. rewrite <- (app_nil_r t) at 1. rewrite tokens_ref_run by done. cbn. by destruct t. Qed.

(** ** Parsing *)

Lemma parse_assign x i n o0 o1 o2 o3 ops :
  48 <> x -> x <> 61 -> var_index x = i -> 0 <= i < 4 -> 0 <= n < 2 ^ 31 ->
  parse_token [o0; o1; o2; o3] ops (x :: 61 :: print_nat 10 n) = Ret (Some (<[Z.to_nat i := n]> [o0; o1; o2; o3], ops)).
Proof.
  intros _ Hx Hi Hi4 Hn. destruct (print10 n) as [Hd Hne]; [lia|]. unfold parse_token.
  assert (find_char 61 (x :: 61 :: print_nat 10 n) = Some 1%nat) as ->.
  { cbn. destruct (Z.eqb_spec x 61); done. }
  assert (SeperateString (x :: 61 :: print_nat 10 n) 61 0 = [[x]; print_nat 10 n]) as ->.
  { rewrite SeperateString_tokens. change (drop 0 ?l) with l. change (x :: 61 :: print_nat 10 n) with ([x] ++ 61 :: print_nat 10 n).
    rewrite tokens_cons, tokens_last; try done; [|by repeat constructor].
    eapply Forall_impl; [exact Hd|]. cbn. lia. }
  pose proof (strtoul_print n ltac:(lia)) as HS.
  destruct (print_nat 10 n) as [|c s] eqn:E; [done|]. apply Forall_cons in Hd as [Hc _].
  unfold char_at. cbn -[strtoul set_cell]. destruct (Z.leb_spec 48 c); [|lia]. destruct (Z.leb_spec c 57); [|lia].
  cbn -[strtoul set_cell]. rewrite HS, Hi, u32_small by lia. unfold set_cell.
  destruct (Z.leb_spec 0 i); [|lia]. destruct (Z.ltb_spec i (Z.of_nat (length [o0; o1; o2; o3]))); [done|cbn in *; lia].
Qed.

Lemma pick_rop r : pick r = 43 \/ pick r = 45 \/ pick r = 94.
Proof.
  unfold pick. pose proof (Z.mod_pos_bound (u8 r) 3 ltac:(lia)) as H.
  assert (u8 r mod 3 = 0 \/ u8 r mod 3 = 1 \/ u8 r mod 3 = 2) as [-> | [-> | ->]] by lia; auto.
Qed.

Lemma picks_rop a b c d : Forall (fun o => o = 43 \/ o = 45 \/ o = 94) [pick a; pick b; pick c; pick d].
Proof. repeat (apply Forall_cons; split; [apply pick_rop|]). constructor. Qed.

(** The operations of a generated formula. *)
Definition formula_ops (o1 o2 o3 o4 : Z) : list operation := [mkOp 0 0 o1 3; mkOp 1 1 o2 2; mkOp 2 2 o3 0; mkOp 0 0 o4 1].

Lemma parse_formula a b c o1 o2 o3 o4 j0 j1 j2 j3 :
  0 <= a < 2 ^ 31 -> 0 <= b < 2 ^ 31 -> 0 <= c < 2 ^ 31 -> Forall (fun o => o = 43 \/ o = 45 \/ o = 94) [o1; o2; o3; o4] ->
  parse_tokens [j0; j1; j2; j3] [] (SeperateString (formula a b c o1 o2 o3 o4) 32 0)
  = Ret (Some ([a; b; c; j3], formula_ops o1 o2 o3 o4)).
Proof.
  intros Ha Hb Hc Ho. rewrite !Forall_cons in Ho. destruct Ho as (H1 & H2 & H3 & H4 & _).
  assert (HT : forall x n, x <> 32 -> 0 <= n -> Forall (fun y => y <> 32) (x :: 61 :: print_nat 10 n)).
  { intros x n Hx Hn. repeat constructor; [done..|]. destruct (print10 n Hn) as [Hd _].
    eapply Forall_impl; [exact Hd|]. cbn. lia. }
  assert (SeperateString (formula a b c o1 o2 o3 o4) 32 0
    = [65 :: 61 :: print_nat 10 a; 66 :: 61 :: print_nat 10 b; 67 :: 61 :: print_nat 10 c; [52];
       [65; 61; 65; o1; 83]; [66; 61; 66; o2; 67]; [67; 61; 67; o3; 65]; [65; 61; 65; o4; 66]]) as ->.
  { rewrite SeperateString_tokens. change (drop 0 ?l) with l.
    change (formula a b c o1 o2 o3 o4) with ((65 :: 61 :: print_nat 10 a) ++ 32 :: (66 :: 61 :: print_nat 10 b)
      ++ 32 :: (67 :: 61 :: print_nat 10 c) ++ 32 :: [52] ++ 32 :: [65; 61; 65; o1; 83] ++ 32 :: [66; 61; 66; o2; 67]
      ++ 32 :: [67; 61; 67; o3; 65] ++ 32 :: [65; 61; 65; o4; 66]).
    repeat (rewrite tokens_cons; [|first [apply HT; lia | repeat constructor; lia]|done]).
    rewrite tokens_last; [done|repeat constructor; lia|done]. }
  pose proof (parse_assign 65 0 a j0 j1 j2 j3 [] ltac:(done) ltac:(done) eq_refl ltac:(lia) Ha) as E1.
  pose proof (parse_assign 66 1 b a j1 j2 j3 [] ltac:(done) ltac:(done) eq_refl ltac:(lia) Hb) as E2.
  pose proof (parse_assign 67 2 c a b j2 j3 [] ltac:(done) ltac:(done) eq_refl ltac:(lia) Hc) as E3.
  change (<[Z.to_nat 0 := a]> _) with [a; j1; j2; j3] in E1. change (<[Z.to_nat 1 := b]> _) with [a; b; j2; j3] in E2.
  change (<[Z.to_nat 2 := c]> _) with [a; b; c; j3] in E3.
  cbn [parse_tokens]. rewrite E1. cbn [mbind result_bind]. rewrite E2. cbn [mbind result_bind]. rewrite E3.
  cbn [mbind result_bind].
  destruct H1 as [-> | [-> | ->]], H2 as [-> | [-> | ->]], H3 as [-> | [-> | ->]], H4 as [-> | [-> | ->]]; reflexivity.
Qed.

(** ** Running *)

Lemma run_op_0_0_3 o a b c s : o = 43 \/ o = 45 \/ o = 94 -> run_op [a; b; c; s] (mkOp 0 0 o 3) = Ret [meaning o a s; b; c; s].
Proof. by intros [-> | [-> | ->]]. Qed.
Lemma run_op_1_1_2 o a b c s : o = 43 \/ o = 45 \/ o = 94 -> run_op [a; b; c; s] (mkOp 1 1 o 2) = Ret [a; meaning o b c; c; s].
Proof. by intros [-> | [-> | ->]]. Qed.
Lemma run_op_2_2_0 o a b c s : o = 43 \/ o = 45 \/ o = 94 -> run_op [a; b; c; s] (mkOp 2 2 o 0) = Ret [a; b; meaning o c a; s].
Proof. by intros [-> | [-> | ->]]. Qed.
Lemma run_op_0_0_1 o a b c s : o = 43 \/ o = 45 \/ o = 94 -> run_op [a; b; c; s] (mkOp 0 0 o 1) = Ret [meaning o a b; b; c; s].
Proof. by intros [-> | [-> | ->]]. Qed.

Lemma run_words_formula o1 o2 o3 o4 ws a b c s :
  Forall (fun o => o = 43 \/ o = 45 \/ o = 94) [o1; o2; o3; o4] ->
  exists s', run_words [a; b; c; s] (formula_ops o1 o2 o3 o4) ws
    = Ret (let '(a, b, c) := foldl (formula_step o1 o2 o3 o4) (a, b, c) ws in [a; b; c; s']).
Proof.
  rewrite !Forall_cons. intros (H1 & H2 & H3 & H4 & _). revert a b c s.
  induction ws as [|w ws IH]; intros a b c s; [by exists s|].
  destruct (IH (meaning o4 (meaning o1 a w) (meaning o2 b c)) (meaning o2 b c) (meaning o3 c (meaning o1 a w)) w) as [s' E].
  exists s'. cbn [run_words foldl formula_step]. change (set_cell [a; b; c; s] 3 w) with (Ret [a; b; c; w]).
  cbn [mbind result_bind formula_ops run_ops]. rewrite run_op_0_0_3 by done. cbn [mbind result_bind].
  rewrite run_op_1_1_2 by done. cbn [mbind result_bind]. rewrite run_op_2_2_0 by done. cbn [mbind result_bind].
  rewrite run_op_0_0_1 by done. cbn [mbind result_bind]. exact E.
Qed.

Lemma land31 x : 0 <= Z.land x 0x7FFFFFFF < 2 ^ 31.
Proof. change 0x7FFFFFFF with (Z.ones 31). rewrite Z.land_ones by lia. solve_mod. Qed.

Lemma version_value_formula d ws j3 i h :
  0 <= i -> mpqHashValues !! Z.to_nat i = Some h ->
  version_value [Z.land (d_a d) 0x7FFFFFFF; Z.land (d_b d) 0x7FFFFFFF; Z.land (d_c d) 0x7FFFFFFF; j3]
    (formula_ops (pick (d_op1 d)) (pick (d_op2 d)) (pick (d_op3 d)) (pick (d_op4 d))) ws i = Ret (formula_value d ws h).
Proof.
  intros Hi Hh. unfold version_value.
  assert (cell mpqHashValues i = Ret h) as -> by (unfold cell; destruct (Z.leb_spec 0 i); [by rewrite Hh|lia]).
  cbn [mbind result_bind].
  change (cell _ 0) with (Ret (Z.land (d_a d) 0x7FFFFFFF)). cbn [mbind result_bind].
  change (set_cell _ 0 ?v) with (Ret [v; Z.land (d_b d) 0x7FFFFFFF; Z.land (d_c d) 0x7FFFFFFF; j3]). cbn [mbind result_bind].
  destruct (run_words_formula (pick (d_op1 d)) (pick (d_op2 d)) (pick (d_op3 d)) (pick (d_op4 d)) ws
    (Z.lxor (Z.land (d_a d) 0x7FFFFFFF) h) (Z.land (d_b d) 0x7FFFFFFF) (Z.land (d_c d) 0x7FFFFFFF) j3) as [s' E].
  { apply picks_rop. }
  rewrite E. unfold formula_value. destruct (foldl _ _ ws) as [[a b] c]. reflexivity.
Qed.

(** ** The theorems *)

(** The words [Calculate] sees of three files. *)
Definition game_words (d1 d2 d3 : bytes) : list Z :=
  buf_words (padded d1) ++ buf_words (padded d2) ++ buf_words (padded d3).

(** The files of a game, where the daemon looks for them. *)
Definition has_file (fs : fsys) (dir name data : bytes) : Prop :=
  fs (dir ++ [47] ++ name) = Some data /\ Z.of_nat (length data) < 2 ^ 32.

Lemma read_file_run fs dir name data : has_file fs dir name data -> read_file fs dir name = Ret (padded data).
Proof. intros [E H]. unfold read_file, Open. rewrite E. by rewrite slurp_all. Qed.

Lemma version_step d ws j3 n i h res :
  0 <= i -> mpqHashValues !! Z.to_nat i = Some h -> (Z.to_nat i < length res)%nat ->
  version_loop [Z.land (d_a d) 0x7FFFFFFF; Z.land (d_b d) 0x7FFFFFFF; Z.land (d_c d) 0x7FFFFFFF; j3]
    (formula_ops (pick (d_op1 d)) (pick (d_op2 d)) (pick (d_op3 d)) (pick (d_op4 d))) ws (S n) i res
  = version_loop [Z.land (d_a d) 0x7FFFFFFF; Z.land (d_b d) 0x7FFFFFFF; Z.land (d_c d) 0x7FFFFFFF; j3]
    (formula_ops (pick (d_op1 d)) (pick (d_op2 d)) (pick (d_op3 d)) (pick (d_op4 d))) ws n (i + 1)
    (<[Z.to_nat i := formula_value d ws h]> res).
Proof.
  intros Hi Hh Hl. cbn [version_loop]. rewrite (version_value_formula _ _ _ _ h) by done. cbn [mbind result_bind].
  unfold set_cell. destruct (Z.leb_spec 0 i); [|lia]. destruct (Z.ltb_spec i (Z.of_nat (length res))); [done|lia].
Qed.

Lemma version_loop_formula d ws j3 jres :
  length jres = 8%nat ->
  version_loop [Z.land (d_a d) 0x7FFFFFFF; Z.land (d_b d) 0x7FFFFFFF; Z.land (d_c d) 0x7FFFFFFF; j3]
    (formula_ops (pick (d_op1 d)) (pick (d_op2 d)) (pick (d_op3 d)) (pick (d_op4 d))) ws 8 0 jres
  = Ret (formula_value d ws <$> mpqHashValues).
Proof.
  intros HJ. do 8 (erewrite version_step by (done || lia || (rewrite !length_insert, HJ; lia)); cbn [Z.add Pos.add Pos.succ]).
  do 8 (destruct jres as [|? jres]; [done|]). destruct jres; [|done]. reflexivity.
Qed.

Lemma Calculate_formula d junk fs dir f1 f2 f3 d1 d2 d3 jres :
  length junk = 4%nat -> length jres = 8%nat ->
  has_file fs dir f1 d1 -> has_file fs dir f2 d2 -> has_file fs dir f3 d3 ->
  Calculate junk fs dir (draw_formula d) (f1, f2, f3) jres 0 7
  = Ret (Some (formula_value d (game_words d1 d2 d3) <$> mpqHashValues)).
Proof.
  intros HJ HR H1 H2 H3. do 4 (destruct junk as [|? junk]; [done|]). destruct junk; [|done].
  unfold Calculate, draw_formula. rewrite parse_formula by (apply land31 || apply picks_rop).
  cbn [mbind result_bind]. rewrite (read_file_run _ _ _ _ H1), (read_file_run _ _ _ _ H2), (read_file_run _ _ _ _ H3).
  cbn [mbind result_bind]. change (Z.to_nat (7 - 0 + 1)) with 8%nat.
  fold (game_words d1 d2 d3). by rewrite version_loop_formula.
Qed.

(** A row of the configuration whose three files exist, with their contents. *)
Definition good_row (fs : fsys) (dir mem : bytes) (r : rev_row) (ws : list Z) : Prop :=
  exists d1 d2 d3, has_file fs dir (r_id r ++ [47] ++ r_file1 r) d1 /\ has_file fs dir (r_id r ++ [47] ++ r_file2 r) d2
    /\ has_file fs dir (r_id r ++ [47] ++ r_file3 r) d3 /\ ws = game_words d1 d2 d3
    /\ r_file1 r <> [] /\ r_file2 r <> [] /\ r_file3 r <> [] /\ Reverse (peek_uint mem (r_id r)) <> 0.

(** The revision the row becomes. *)
Definition row_rev (mem : bytes) (d : draws) (r : rev_row) (ws : list Z) : Rev :=
  mkRev (r_name r) (Reverse (peek_uint mem (r_id r))) (formula_value d ws <$> mpqHashValues) (exe_version (r_exever r)).

Section load.
Context (fs : fsys) (dir mem : bytes) (junk jres : list Z) (d : draws).
Context (HJ : length junk = 4%nat) (HR : length jres = 8%nat).

Lemma load_row_good r ws revs :
  good_row fs dir mem r ws -> load_row mem junk jres fs dir (draw_formula d) r revs = Ret (revs ++ [row_rev mem d r ws]).
Proof.
  intros (d1 & d2 & d3 & H1 & H2 & H3 & -> & N1 & N2 & N3 & Hid). unfold load_row.
  destruct (r_file1 r) as [|x1 l1] eqn:E1; [done|]. destruct (r_file2 r) as [|x2 l2] eqn:E2; [done|].
  destruct (r_file3 r) as [|x3 l3] eqn:E3; [done|]. cbn [length Nat.ltb Nat.leb andb].
  destruct (Z.eqb_spec (Reverse (peek_uint mem (r_id r))) 0); [done|]. cbn [negb].
  by rewrite (Calculate_formula d junk fs dir _ _ _ d1 d2 d3 jres).
Qed.

Lemma load_rows_good rows wss revs :
  Forall2 (good_row fs dir mem) rows wss ->
  load_rows mem junk jres fs dir (draw_formula d) rows revs = Ret (revs ++ zip_with (row_rev mem d) rows wss).
Proof.
  intros H. revert revs. induction H as [|r ws rows wss Hr H IH]; intros revs; cbn [load_rows zip_with].
  - by rewrite app_nil_r.
  - rewrite (load_row_good r ws revs Hr). cbn [mbind result_bind]. by rewrite IH, <- app_assoc.
Qed.
End load.

Lemma find_in_hit l i chk ver :
  0 <= i -> Forall (fun r => is_Some (chksum r !! Z.to_nat i)) l ->
  (exists r, r ∈ l /\ chksum r !! Z.to_nat i = Some chk /\ (exeVer r = 0 \/ exeVer r = ver)) ->
  exists r, find_in i chk ver l = Ret (Some r) /\ r ∈ l /\ chksum r !! Z.to_nat i = Some chk
    /\ (exeVer r = 0 \/ exeVer r = ver).
Proof.
  intros Hi HF. induction HF as [|r l [s Hs] HF IH]; intros (q & Hq & Hc & Hv); [by apply elem_of_nil in Hq|].
  cbn [find_in]. assert (cell (chksum r) i = Ret s) as -> by (unfold cell; destruct (Z.leb_spec 0 i); [by rewrite Hs|lia]).
  cbn [mbind result_bind].
  destruct ((s =? chk) && ((exeVer r =? 0) || (exeVer r =? ver))) eqn:E.
  - apply andb_true_iff in E as [->%Z.eqb_eq Ev]. exists r. split_and!; [done|left|done|].
    apply orb_true_iff in Ev as [?%Z.eqb_eq|?%Z.eqb_eq]; auto.
  - apply elem_of_cons in Hq as [->|Hq].
    + exfalso. rewrite Hs in Hc. injection Hc as ->. rewrite Z.eqb_refl in E. cbn in E.
      destruct (Z.eqb_spec (exeVer r) 0), (Z.eqb_spec (exeVer r) ver); cbn in E; try done. tauto.
    + destruct IH as (q' & ? & ? & ? & ?); [eauto|]. exists q'. split_and!; auto. by right.
Qed.

(** C12: a genuine client passes the version check.  When the files of the
    configured games exist, [Load] succeeds whatever formula it draws and
    whatever the uninitialised arrays hold, and a client that answers, for any of the eight
    versions, the value the formula denotes over the words of its three files
    (and has the configured executable version) is found by [findRev]. *)
Theorem genuine_client_passes fs dir mem junk jres d rows wss r ws i h ver :
  length junk = 4%nat -> length jres = 8%nat -> Forall2 (good_row fs dir mem) rows wss ->
  (r, ws) ∈ zip rows wss -> 0 <= i -> mpqHashValues !! Z.to_nat i = Some h ->
  exe_version (r_exever r) = 0 \/ exe_version (r_exever r) = ver ->
  exists c, CheckRevision_Load mem junk jres fs dir d (Some rows) (mkCheck [] []) = Ret c
    /\ _formula c = draw_formula d
    /\ exists rev, findRev c i (formula_value d ws h) ver = Ret (Some rev)
       /\ chksum rev !! Z.to_nat i = Some (formula_value d ws h) /\ (exeVer rev = 0 \/ exeVer rev = ver).
Proof.
  intros HJ HR HG Hr Hi Hh Hv. unfold CheckRevision_Load. cbn [_revlist].
  rewrite (load_rows_good fs dir mem junk jres d HJ HR rows wss [] HG). eexists. split_and!; [done..|].
  unfold findRev. cbn [_revlist mbind result_bind app].
  destruct (find_in_hit (zip_with (row_rev mem d) rows wss) i (formula_value d ws h) ver Hi) as (rev & E & _ & Hc & Hx).
  - apply Forall_forall. intros q Hq. rewrite elem_of_lookup_zip_with in Hq. destruct Hq as (k & x & y & -> & _).
    cbn [row_rev chksum]. rewrite list_lookup_fmap, Hh. cbn. eauto.
  - exists (row_rev mem d r ws). split_and!; [|cbn [row_rev chksum]; by rewrite list_lookup_fmap, Hh|done].
    rewrite elem_of_lookup_zip_with in Hr. destruct Hr as (k & x & y & [= <- <-] & Hx & Hy).
    rewrite elem_of_lookup_zip_with. eauto 10.
  - eauto.
Qed.

(** A configuration with one game of three small files. *)
Definition demo_fs : fsys := fun p =>
  if decide (p = b# "games/W3XP/a") then Some [1; 2; 3] else if decide (p = b# "games/W3XP/b") then Some [7]
  else if decide (p = b# "games/W3XP/c") then Some [] else None.
Definition demo_row : rev_row := mkRow (b# "TFT") (b# "W3XP") (b# "a") (b# "b") (b# "c") (b# "0x1B").
Definition demo_draws : draws := mkDraws 1234567 89 4000000000 7 8 9 10.

Lemma genuine_client_passes_witness :
  exists c, CheckRevision_Load [] [9; 9; 9; 9] (replicate 8 0) demo_fs (b# "games") demo_draws (Some [demo_row]) (mkCheck [] [])
      = Ret c
    /\ _formula c = draw_formula demo_draws
    /\ exists rev, findRev c 2 (formula_value demo_draws (game_words [1; 2; 3] [7] []) 0xAA5504AF) 27 = Ret (Some rev)
       /\ chksum rev !! Z.to_nat 2 = Some (formula_value demo_draws (game_words [1; 2; 3] [7] []) 0xAA5504AF)
       /\ (exeVer rev = 0 \/ exeVer rev = 27).
Proof.
  apply (genuine_client_passes demo_fs (b# "games") [] [9; 9; 9; 9] (replicate 8 0) demo_draws [demo_row]
    [game_words [1; 2; 3] [7] []] demo_row (game_words [1; 2; 3] [7] []) 2 0xAA5504AF 27).
  - reflexivity.
  - reflexivity.
  - constructor; [|constructor]. exists [1; 2; 3], [7], []. unfold has_file.
    split_and!; try done; vm_compute; reflexivity.
  - left.
  - lia.
  - reflexivity.
  - right. vm_compute. reflexivity.
Defined.

(** The value a version has in this configuration. *)
Example demo_value :
  formula_value demo_draws (game_words [1; 2; 3] [7] []) 0xAA5504AF <> formula_value demo_draws (game_words [1; 2; 4] [7] []) 0xAA5504AF.
Proof. vm_compute. discriminate. Qed.

(** A configured file that is missing: [Open] fails, and [Size] has a NULL
    file; the daemon does not get past [Load]. *)
Lemma missing_game_file_crashes mem junk jres fs dir d r rows c :
  length junk = 4%nat -> r_file1 r <> [] -> r_file2 r <> [] -> r_file3 r <> [] ->
  Reverse (peek_uint mem (r_id r)) <> 0 -> fs (dir ++ [47] ++ r_id r ++ [47] ++ r_file1 r) = None ->
  CheckRevision_Load mem junk jres fs dir d (Some (r :: rows)) c = Crash.
Proof.
  intros HJ N1 N2 N3 Hid HF. unfold CheckRevision_Load. cbn [load_rows]. unfold load_row.
  destruct (r_file1 r) as [|x1 l1] eqn:E1; [done|]. destruct (r_file2 r) as [|x2 l2] eqn:E2; [done|].
  destruct (r_file3 r) as [|x3 l3] eqn:E3; [done|]. cbn [length Nat.ltb Nat.leb andb].
  destruct (Z.eqb_spec (Reverse (peek_uint mem (r_id r))) 0); [done|]. cbn [negb].
  do 4 (destruct junk as [|? junk]; [done|]). destruct junk; [|done]. unfold Calculate, draw_formula.
  rewrite parse_formula by (apply land31 || apply picks_rop). cbn [mbind result_bind].
  assert (read_file fs dir (r_id r ++ [47] ++ x1 :: l1) = Crash) as ->; [|done].
  unfold read_file, Open. by rewrite HF.
Qed.
