(* ===== verification/Ladder.v ===== *)
(** * Ladder: Warcraft III ladder data (blitzd/games/war3)

    [LadderData] collects the map sets, ladders and pages of the configuration
    and writes the five blocks a client asks for; [LadderInfo] compresses them.
    The configuration is given as the elements the XML reader finds; the
    compressor is an argument. *)

From S2P Require Import Prelude Words Stream CStr.

(** ** Tables *)

Definition mi_min : list nat := [0; 12; 17; 18]%nat.
Definition mapinfo_prefix_template : list (list Z) :=
  [[0x00; 0x00; 0x03; 0x3F; 0x00]; [0x01; 0x00; 0x02; 0x3F; 0x00]; [0x02; 0x00; 0x01; 0x3F; 0x00];
   [0x03; 0x00; 0x01; 0x3F; 0x00]; [0x05; 0x00; 0x01; 0x3F; 0x00]; [0x06; 0x00; 0x01; 0x3F; 0x00];
   [0x07; 0x00; 0x01; 0x3F; 0x00]; [0x08; 0x00; 0x01; 0x3F; 0x00]; [0x09; 0x00; 0x01; 0x3F; 0x00];
   [0x0A; 0x00; 0x01; 0x3F; 0x00]; [0x0B; 0x00; 0x01; 0x3F; 0x00]; [0x04; 0x00; 0x02; 0x3F; 0x00];
   [0x00; 0x00; 0x02; 0x3F; 0x02]; [0x02; 0x00; 0x02; 0x3F; 0x03]; [0x03; 0x00; 0x02; 0x3F; 0x04];
   [0x04; 0x00; 0x02; 0x3F; 0x02]; [0x01; 0x00; 0x02; 0x3F; 0x02]; [0x00; 0x01; 0x00; 0x3F; 0x00]].
Definition ladder_shortname : list bytes :=
  [b# "SOLO"; b# "TEAM"; b# "FFA "; b# "2VS2"; b# "3VS3"; b# "4VS4"; b# "CLNS"; b# "CLN2"; b# "CLN3"; b# "CLN4"].
Definition page_name : list bytes := [b# "server"; b# "player"; b# "tourney"; b# "clan"].
Definition mapinfo_tag : list bytes :=
  [b# "1vs1"; b# "2vs2"; b# "3vs3"; b# "4vs4"; b# "5vs5"; b# "6vs6"; b# "2vs2vs2"; b# "3vs3vs3"; b# "4vs4vs4";
   b# "2vs2vs2vs2"; b# "3vs3vs3vs3"; b# "ffa"; b# "2vs2"; b# "3vs3"; b# "4vs4"; b# "2vs2vs2"; b# "ffa"; b# "tourney"].
Definition defaultDesc : list bytes :=
  [b# "One vs. One"; b# "Two vs. Two"; b# "Three vs. Three"; b# "Four vs. Four"; b# "Five vs. Five"; b# "Six Vs. Six";
   b# "Two vs. Two vs. Two"; b# "Three vs. Three vs. Three"; b# "Four vs. Four vs. Four";
   b# "Two vs. Two vs. Two vs. Two"; b# "Three vs. Three vs. Three vs. Three"; b# "Small Free for All";
   b# "Two vs. Two"; b# "Three vs. Three"; b# "Four vs. Four"; b# "Two vs. Two vs. Two"; b# "Team Free for All";
   b# "Tournament Game"].
Definition defaultDescLong : list bytes :=
  [b# "Two players fight to the death"; b# "Two teams of two vie for dominance";
   b# "Two teams of three face off on the battlefield"; b# "Two teams of four head to battle";
   b# "Two teams of five - who will prevail?"; b# "Two teams of six - get ready to rumble!";
   b# "Three teams of two, can you handle it?"; b# "Three teams of three battle each other";
   b# "Three teams of four - things getting crowded?"; b# "Four teams of two, is this a challenge?";
   b# "Four teams of three, the ultimate challenge!"; b# "Can you defeat 3-5 opponents alone?";
   b# "Two teams of two vie for dominance"; b# "Two teams of three face off on the battlefield";
   b# "Two teams of four head to battle"; b# "Three teams of two, can you handle it?";
   b# "Can your team defeat 1-2 others?"; b# "Tournament Game"].
Definition ladder_default : list bytes :=
  [b# "Solo Games"; b# "Team Games"; b# "Free For all Games"; b# "2 Player Team"; b# "3 Player Team"; b# "4 Player Team";
   b# "Solo Games"; b# "2 Player Team"; b# "3 Player Team"; b# "4 Player Team"].

(** ** State *)

Record LadderData := mkLadder {
  l_maplist : list bytes;
  l_mapindex : list (list Z);
  map_desc : list bytes;
  map_longDesc : list bytes;
  ladder_desc : list bytes;
  ladder_url : list bytes;
  page_url : list bytes;
  mapinfo_prefix : list (list Z)
}.
Definition LadderData_ctor : LadderData :=
  mkLadder [] [] (replicate 18 []) (replicate 18 []) (replicate 10 []) (replicate 10 []) (replicate 4 [])
    mapinfo_prefix_template.

(** ** Loading *)

(** [for(; i < n; i ++) if(strcmpi(names[i], s) == 0) break;]: the position, or
    the number of names. *)
Fixpoint index_of (s : bytes) (names : list bytes) : nat :=
  match names with
  | [] => 0
  | x :: names => if strcmpi x s =? 0 then 0 else S (index_of s names)
  end.

Definition AddMap (mapname : bytes) (type : nat) (d : LadderData) : LadderData :=
  if Nat.leb 100 (length (l_maplist d)) then d else
  let i := index_of mapname (l_maplist d) in
  let maplist := if Nat.eqb i (length (l_maplist d)) then l_maplist d ++ [mapname] else l_maplist d in
  let mapindex := if u8 (Z.of_nat (length (l_mapindex d))) <=? Z.of_nat type
                  then take (type + 1) (l_mapindex d) ++ replicate (type + 1 - length (l_mapindex d)) []
                  else l_mapindex d in
  let row := default [] (mapindex !! type) in
  mkLadder maplist (<[type := row ++ [u8 (Z.of_nat i)]]> mapindex) (map_desc d) (map_longDesc d) (ladder_desc d)
    (ladder_url d) (page_url d) (mapinfo_prefix d).

(** A [Maps] element: its attributes and the paths of its maps. *)
Record xml_maps := mkXmlMaps { xm_type : bytes; xm_desc : bytes; xm_longDesc : bytes; xm_thumbsDown : Z; xm_paths : list bytes }.
Record xml_ladder := mkXmlLadder {
  xl_mapsets : option (list (bytes * list xml_maps));
  xl_ladders : option (list (bytes * bytes * bytes));
  xl_pages : option (list (bytes * bytes))
}.

Definition mapset_type (typestr : bytes) : option nat :=
  if strcmpi typestr (b# "PG") =? 0 then Some 0%nat
  else if strcmpi typestr (b# "AT") =? 0 then Some 1%nat
  else if strcmpi typestr (b# "TOURNEY") =? 0 then Some 2%nat
  else None.
(** The search of a tag between the bounds of its type. *)
Definition find_tag (type : nat) (typestr : bytes) : option nat :=
  let a := nth type mi_min 0%nat in let b := nth (type + 1) mi_min 0%nat in
  let i := index_of typestr (take (b - a) (drop a mapinfo_tag)) in
  if Nat.ltb i (b - a) then Some (a + i)%nat else None.
Definition put_maps (mtype : nat) (m : xml_maps) (d : LadderData) : LadderData :=
  let prefix := <[2%nat := u8 (xm_thumbsDown m)]> (default [] (mapinfo_prefix d !! mtype)) in
  let d := mkLadder (l_maplist d) (l_mapindex d) (<[mtype := xm_desc m]> (map_desc d))
             (<[mtype := xm_longDesc m]> (map_longDesc d)) (ladder_desc d) (ladder_url d) (page_url d)
             (<[mtype := prefix]> (mapinfo_prefix d)) in
  foldl (fun d p => AddMap p mtype d) d (xm_paths m).
Definition load_maps (type : nat) (d : LadderData) (m : xml_maps) : LadderData :=
  match find_tag type (xm_type m) with Some mtype => put_maps mtype m d | None => d end.
Definition load_mapset (d : LadderData) (s : bytes * list xml_maps) : LadderData :=
  match mapset_type s.1 with Some type => foldl (load_maps type) d s.2 | None => d end.
Definition load_ladder (d : LadderData) (r : bytes * bytes * bytes) : LadderData :=
  let '(type, desc, url) := r in
  let i := index_of type ladder_shortname in
  if Nat.ltb i 10 then
    mkLadder (l_maplist d) (l_mapindex d) (map_desc d) (map_longDesc d) (<[i := desc]> (ladder_desc d))
      (<[i := url]> (ladder_url d)) (page_url d) (mapinfo_prefix d)
  else d.
Definition load_page (d : LadderData) (r : bytes * bytes) : LadderData :=
  let i := index_of r.1 page_name in
  if Nat.ltb i 4 then
    mkLadder (l_maplist d) (l_mapindex d) (map_desc d) (map_longDesc d) (ladder_desc d) (ladder_url d)
      (<[i := r.2]> (page_url d)) (mapinfo_prefix d)
  else d.
Definition LadderData_Load (x : xml_ladder) (d : LadderData) : LadderData :=
  let d := foldl load_mapset d (default [] (xl_mapsets x)) in
  let d := foldl load_ladder d (default [] (xl_ladders x)) in
  foldl load_page d (default [] (xl_pages x)).

(** ** The five blocks *)

Definition GetUrlData (d : LadderData) : bytes :=
  _buf (foldl (fun st u => put_str u st) empty_stream (page_url d)).
Definition GetMapName (d : LadderData) : bytes :=
  _buf (foldl (fun st m => put_str m st) (put_u8 (u8 (Z.of_nat (length (l_maplist d)))) empty_stream) (l_maplist d)).

(** The rows of one type that have maps: [i] runs from [mi_min[z]] to the end
    of the index or of the type. *)
Definition used_rows (d : LadderData) (z : nat) : list nat :=
  let a := nth z mi_min 0%nat in let b := nth (z + 1) mi_min 0%nat in
  base.filter (fun i => default [] (l_mapindex d !! i) <> []) (seq a (Nat.min (length (l_mapindex d)) b - a)).
(** [mapinfo_prefix[i]] has 18 rows. *)
Definition mapinfo_row (d : LadderData) (i : nat) : result bytes :=
  p ← deref (mapinfo_prefix d !! i);
  row ← deref (l_mapindex d !! i);
  Ret (p ++ [u8 (Z.of_nat (length row))] ++ row).
Fixpoint mapinfo_rows (d : LadderData) (l : list nat) : result bytes :=
  match l with [] => Ret [] | i :: l => r ← mapinfo_row d i; rs ← mapinfo_rows d l; Ret (r ++ rs) end.
Fixpoint mapinfo_types (d : LadderData) (zs : list nat) : result (Z * bytes) :=
  match zs with
  | [] => Ret (0, [])
  | z :: zs =>
      let rows := used_rows d z in
      match rows with
      | [] => mapinfo_types d zs
      | _ => rs ← mapinfo_rows d rows;
             '(c, out) ← mapinfo_types d zs;
             Ret (c + 1, [u8 (Z.of_nat z); u8 (Z.of_nat (length rows))] ++ rs ++ out)
      end
  end.
Definition GetMapInfo (d : LadderData) : result bytes :=
  '(c, out) ← mapinfo_types d [0; 1; 2]%nat; Ret (u8 c :: out).

Definition or_default (s : bytes) (dflt : bytes) : bytes := if Nat.eqb (length s) 0 then dflt else s.
Definition mapdesc_row (d : LadderData) (z i : nat) : result bytes :=
  p ← deref (mapinfo_prefix d !! i);
  p0 ← deref (p !! 0%nat);
  s ← deref (map_desc d !! i);
  s' ← deref (map_longDesc d !! i);
  e ← deref (defaultDesc !! i);
  e' ← deref (defaultDescLong !! i);
  Ret ([u8 (Z.of_nat z); p0] ++ _buf (put_str (or_default s' e') (put_str (or_default s e) empty_stream))).
Fixpoint mapdesc_rows (d : LadderData) (l : list (nat * nat)) : result bytes :=
  match l with [] => Ret [] | (z, i) :: l => r ← mapdesc_row d z i; rs ← mapdesc_rows d l; Ret (r ++ rs) end.
Definition GetMapDesc (d : LadderData) : result bytes :=
  let rows := mjoin ((fun z => (fun i => (z, i)) <$> used_rows d z) <$> [0; 1; 2]%nat) in
  out ← mapdesc_rows d rows; Ret (u8 (Z.of_nat (length rows)) :: out).

Definition ladder_row (d : LadderData) (i : nat) : bytes :=
  let n := default [] (ladder_shortname !! i) in
  let s := default [] (ladder_desc d !! i) in
  rev n ++ _buf (put_str (default [] (ladder_url d !! i))
                   (put_str (if Nat.ltb 0 (length s) then s else default [] (ladder_default !! i)) empty_stream)).
Definition GetLadderData (d : LadderData) : bytes := 10 :: mjoin (ladder_row d <$> seq 0 10).

(** ** LadderInfo *)

(** [compress src room]: the stream zlib writes when it fits in [room] bytes;
    [left] is what the buffer holds when it does not. *)
Definition BuildData (compress : bytes -> Z -> option bytes) (left : bytes -> bytes) (data : bytes) : bytes :=
  let n := Z.of_nat (length data) in
  let len := n + n / 16 in
  let out := match compress data len with Some z => z | None => take (Z.to_nat len) (left data) end in
  le_bytes 2 (u16 n) ++ le_bytes 2 (u16 (Z.of_nat (length out))) ++ out.

(** ** The invariant *)

Record ladder_ok (d : LadderData) : Prop := mkLadderOk {
  lo_maps : (length (l_maplist d) <= 100)%nat;
  lo_distinct i j x y : l_maplist d !! i = Some x -> l_maplist d !! j = Some y -> (i < j)%nat -> strcmpi x y <> 0;
  lo_rows : (length (l_mapindex d) <= 18)%nat;
  lo_index : Forall (Forall (fun b => 0 <= b < Z.of_nat (length (l_maplist d)))) (l_mapindex d);
  lo_desc : length (map_desc d) = 18%nat;
  lo_long : length (map_longDesc d) = 18%nat;
  lo_ladders : length (ladder_desc d) = 10%nat /\ length (ladder_url d) = 10%nat /\ length (page_url d) = 4%nat;
  lo_prefix : length (mapinfo_prefix d) = 18%nat /\ Forall (fun p => length p = 5%nat) (mapinfo_prefix d)
}.

Lemma index_of_le s l : (index_of s l <= length l)%nat.
Proof. induction l as [|x l IH]; cbn; [lia|]. btest; lia. Qed.
Lemma index_of_new s l i x : index_of s l = length l -> l !! i = Some x -> strcmpi x s <> 0.
Proof.
  revert i. induction l as [|y l IH]; intros i E Hi; [done|]. cbn in E. btest; [lia|]. injection E as E.
  destruct i as [|i]; cbn in Hi; [congruence|]. eauto.
Qed.

Lemma AddMap_ok m t d : (t < 18)%nat -> ladder_ok d -> ladder_ok (AddMap m t d).
Proof.
  intros Ht [Hm Hd Hr Hi Hds Hl Hld Hp]. unfold AddMap. destruct (Nat.leb_spec 100 (length (l_maplist d))); [done|].
  pose proof (index_of_le m (l_maplist d)) as Hle.
  set (i := index_of m (l_maplist d)) in *.
  set (ml := if Nat.eqb i (length (l_maplist d)) then _ else _).
  set (mi := if _ <=? Z.of_nat t then _ else _).
  assert (Hml : (length (l_maplist d) <= length ml <= 100)%nat /\ (i < length ml)%nat).
  { unfold ml. destruct (Nat.eqb_spec i (length (l_maplist d))); rewrite ?length_app; cbn; lia. }
  assert (Hmi : (length mi <= 18)%nat /\ (t < length mi)%nat /\ Forall (Forall (fun b => 0 <= b < Z.of_nat (length ml))) mi).
  { assert (Hold : Forall (Forall (fun b => 0 <= b < Z.of_nat (length ml))) (l_mapindex d)).
    { eapply Forall_impl; [exact Hi|]. intros r Hrow. eapply Forall_impl; [exact Hrow|]. cbn. lia. }
    unfold mi. rewrite u8_small by lia. destruct (Z.leb_spec (Z.of_nat (length (l_mapindex d))) (Z.of_nat t)).
    - rewrite length_app, length_take, length_replicate. split_and!; [lia..|]. apply Forall_app. split; [by apply Forall_take|].
      apply Forall_replicate. constructor.
    - split_and!; [lia..|done]. }
  destruct Hmi as (Hmi1 & Hmi2 & Hmi3).
  assert (Hrow : Forall (fun b => 0 <= b < Z.of_nat (length ml)) (default [] (mi !! t))).
  { destruct (mi !! t) as [r|] eqn:E; cbn; [|constructor]. by apply (Forall_lookup_1 _ _ _ _ Hmi3 E). }
  split; cbn; auto; try lia.
  - intros j k x y Hj Hk Hjk. unfold ml in *. destruct (Nat.eqb_spec i (length (l_maplist d))) as [E|E]; [|by apply (Hd j k)].
    apply lookup_lt_Some in Hk as Hk'. rewrite length_app in Hk'. cbn in Hk'.
    rewrite lookup_app_l in Hj by lia. destruct (Nat.eq_dec k (length (l_maplist d))) as [->|Ne].
    + rewrite lookup_app_r, Nat.sub_diag in Hk by lia. injection Hk as <-. by apply (index_of_new _ _ j x E).
    + rewrite lookup_app_l in Hk by lia. by apply (Hd j k).
  - rewrite length_insert. lia.
  - apply Forall_insert; [done|]. apply Forall_app. split; [done|]. repeat constructor; rewrite u8_small; lia.
Qed.

Lemma find_tag_range t s k : (t < 3)%nat -> find_tag t s = Some k -> (k < 18)%nat.
Proof.
  intros Ht. unfold find_tag. generalize (index_of s (take (nth (t + 1) mi_min 0%nat - nth t mi_min 0%nat)
    (drop (nth t mi_min 0%nat) mapinfo_tag))) as i. intros i.
  destruct t as [|[|[|t]]]; [..|lia]; cbn -[Nat.ltb];
    match goal with |- context [Nat.ltb i ?n] => destruct (Nat.ltb_spec i n) end; try done; intros [= <-]; lia.
Qed.

Lemma foldl_ok {A} (f : LadderData -> A -> LadderData) l d :
  (forall d x, ladder_ok d -> ladder_ok (f d x)) -> ladder_ok d -> ladder_ok (foldl f d l).
Proof. intros Hf. revert d. induction l as [|x l IH]; intros d Hd; cbn; auto. Qed.

Lemma put_maps_ok k m d : (k < 18)%nat -> ladder_ok d -> ladder_ok (put_maps k m d).
Proof.
  intros Hk [Hm Hd Hr Hi Hds Hl Hld [Hp1 Hp2]]. unfold put_maps. apply foldl_ok; [intros; by apply AddMap_ok|].
  split; cbn; rewrite ?length_insert; auto. split; [done|]. apply Forall_insert; [done|]. rewrite length_insert.
  destruct (mapinfo_prefix d !! k) as [p|] eqn:E; [|apply lookup_ge_None in E; lia].
  cbn. by apply (Forall_lookup_1 _ _ _ _ Hp2 E).
Qed.

Lemma Load_ok x d : ladder_ok d -> ladder_ok (LadderData_Load x d).
Proof.
  intros Hd. unfold LadderData_Load. apply foldl_ok; [|apply foldl_ok; [|apply foldl_ok; [|done]]].
  - intros d' r [? ? ? ? ? ? (?&?&?) ?]. unfold load_page. case_match; split; cbn; rewrite ?length_insert; auto.
  - intros d' [[t s] u] [? ? ? ? ? ? (?&?&?) ?]. unfold load_ladder. case_match; split; cbn; rewrite ?length_insert; auto.
  - intros d' [t ms] Hd'. unfold load_mapset. cbn. destruct (mapset_type t) as [k|] eqn:Ek; [|done].
    assert (Hk : (k < 3)%nat) by (unfold mapset_type in Ek; repeat case_match; try done; injection Ek as <-; lia).
    apply foldl_ok; [|done]. intros d'' m Hd''. unfold load_maps.
    destruct (find_tag k (xm_type m)) eqn:E; [|done]. apply put_maps_ok; [|done]. by eapply find_tag_range.
Qed.

Lemma ctor_ok : ladder_ok LadderData_ctor.
Proof. split; cbn; auto; try lia. split; [done|]. by repeat constructor. Qed.

Lemma mapinfo_row_ok d i : ladder_ok d -> (i < length (l_mapindex d))%nat -> exists r, mapinfo_row d i = Ret r.
Proof.
  intros [? ? Hr ? ? ? ? [Hp _]] Hi. unfold mapinfo_row.
  destruct (lookup_lt_is_Some_2 (mapinfo_prefix d) i ltac:(lia)) as [p ->].
  destruct (lookup_lt_is_Some_2 (l_mapindex d) i Hi) as [row ->]. cbn. eauto.
Qed.
Lemma used_rows_range d z : Forall (fun i => (i < length (l_mapindex d))%nat) (used_rows d z).
Proof.
  apply Forall_forall. intros i Hi. unfold used_rows in Hi. apply list_elem_of_filter in Hi as [_ Hi%elem_of_seq]. lia.
Qed.
Lemma mapinfo_rows_ok d l : ladder_ok d -> Forall (fun i => (i < length (l_mapindex d))%nat) l ->
  exists r, mapinfo_rows d l = Ret r.
Proof.
  intros Hd. induction 1 as [|i l Hi Hl [rs IH]]; cbn; [eauto|]. destruct (mapinfo_row_ok d i Hd Hi) as [r ->].
  cbn. rewrite IH. cbn. eauto.
Qed.
Lemma mapinfo_types_ok d zs : ladder_ok d -> exists r, mapinfo_types d zs = Ret r.
Proof.
  intros Hd. induction zs as [|z zs [[c out] IH]]; cbn [mapinfo_types]; [eauto|].
  destruct (mapinfo_rows_ok d (used_rows d z) Hd (used_rows_range d z)) as [r E].
  destruct (used_rows d z); [eauto|]. rewrite E, IH. cbn. eauto.
Qed.
Lemma mapdesc_row_ok d z i : ladder_ok d -> (i < length (l_mapindex d))%nat -> exists r, mapdesc_row d z i = Ret r.
Proof.
  intros [? ? Hr ? Hds Hl ? [Hp1 Hp2]] Hi. unfold mapdesc_row.
  destruct (lookup_lt_is_Some_2 (mapinfo_prefix d) i ltac:(lia)) as [p Ep]. rewrite Ep. cbn.
  assert (Hp : length p = 5%nat) by apply (Forall_lookup_1 _ _ _ _ Hp2 Ep).
  destruct (lookup_lt_is_Some_2 p 0%nat ltac:(lia)) as [p0 ->]. cbn.
  destruct (lookup_lt_is_Some_2 (map_desc d) i ltac:(lia)) as [s ->]. cbn.
  destruct (lookup_lt_is_Some_2 (map_longDesc d) i ltac:(lia)) as [s' ->]. cbn.
  destruct (lookup_lt_is_Some_2 defaultDesc i ltac:(cbn; lia)) as [e ->]. cbn.
  destruct (lookup_lt_is_Some_2 defaultDescLong i ltac:(cbn; lia)) as [e' ->]. cbn. eauto.
Qed.
Lemma mapdesc_rows_ok d l : ladder_ok d -> Forall (fun e => (e.2 < length (l_mapindex d))%nat) l ->
  exists r, mapdesc_rows d l = Ret r.
Proof.
  intros Hd. induction 1 as [|[z i] l Hi Hl [rs IH]]; cbn [mapdesc_rows]; [eauto|].
  destruct (mapdesc_row_ok d z i Hd Hi) as [r ->]. cbn. rewrite IH. cbn. eauto.
Qed.
Lemma used_pairs_range d zs :
  Forall (fun e => (e.2 < length (l_mapindex d))%nat) (mjoin ((fun z => (fun i => (z, i)) <$> used_rows d z) <$> zs)).
Proof.
  induction zs as [|z zs IH]; cbn; [constructor|]. apply Forall_app. split; [|exact IH].
  apply Forall_fmap. eapply Forall_impl; [apply used_rows_range|]. done.
Qed.

Lemma GetMapInfo_ok d : ladder_ok d -> exists b, GetMapInfo d = Ret b.
Proof. intros Hd. unfold GetMapInfo. destruct (mapinfo_types_ok d [0; 1; 2]%nat Hd) as [[c out] ->]. cbn. eauto. Qed.
Lemma GetMapDesc_ok d : ladder_ok d -> exists b, GetMapDesc d = Ret b.
Proof. intros Hd. unfold GetMapDesc. destruct (mapdesc_rows_ok d _ Hd (used_pairs_range d [0; 1; 2]%nat)) as [r ->]. cbn. eauto. Qed.

(** C36: ladder data is well formed.  Whatever the configuration lists, after
    loading there are at most one hundred maps, no two with the same name up to
    capitals, every index in a category refers to a map, every array has its size, and the
    blocks for map categories and descriptions are built without an access out
    of range. *)
Theorem ladder_well_formed x :
  let d := LadderData_Load x LadderData_ctor in
  ladder_ok d /\ (exists b, GetMapInfo d = Ret b) /\ (exists b, GetMapDesc d = Ret b).
Proof.
  intros d. assert (Hd : ladder_ok d) by apply Load_ok, ctor_ok. split_and!; [done|by apply GetMapInfo_ok|by apply GetMapDesc_ok].
Qed.

(** The hundredth map closes the list: a map that is already there is not
    entered in a further category either. *)
Lemma AddMap_full m t d : (100 <= length (l_maplist d))%nat -> AddMap m t d = d.
Proof. intros H. unfold AddMap. destruct (Nat.leb_spec 100 (length (l_maplist d))); [done|lia]. Qed.
