(* ===== verification/XmlLoaders.v ===== *)
(** * XmlLoaders: channels, game versions and ladder maps from XML files

    [ChannelCache::Load], [CheckRevision::Load] and [LadderData::Load] read
    their tables through [Text::XmlNode]; what they get is a function of the
    tree of the file. *)

From S2P Require Import Prelude Words Stream CStr OMap Strtol Files MxmlNode MxmlTree MxmlLoad MxmlSearch MxmlBuild MxmlText MxmlGrammar MxmlParse MxmlDoc MxmlRead XmlConf CfgLoad.
From S2P Require Import Storage UserItem UserCache World Chat ChatInv ChatSafe Revision Ladder.

(** ** Definitions *)

Section loaders.
Context (oom : nat -> bool) (fs : fsys).

(** [cfg.GetCfgDir() + '/' + file]. *)
Definition conf_path (dir file : bytes) : bytes := dir ++ [47] ++ file.

(** ChannelCache.cpp *)
Definition channel_keys : list bytes :=
  [b# "name"; b# "short"; b# "gameId"; b# "maxUser"; b# "byCountry"; b# "byIndex"; b# "flag"].
Definition Public : Z := 1.
(** One row; [None] for one without a name. *)
Definition channel_row (r : list bytes) : option event :=
  let chname := nth 0 r [] in
  if bool_decide (chname = []) then None
  else
    let shortname := nth 1 r [] in
    let gid := nth 2 r [] in
    let gameid := if Nat.leb 4 (length gid) then Reverse (le_val (take 4 gid)) else 0 in
    let maxUser := u32 (strtoul (nth 3 r []) 10) in
    let maxUser := if maxUser =? 0 then u32 (-1) else maxUser in
    let byCountry := 0 <? strtoul (nth 4 r []) 10 in
    let byIndex := 0 <? strtoul (nth 5 r []) 10 in
    let flag := u32 (strtoul (nth 6 r []) 10) in
    let flag := if flag =? 0 then Public else flag in
    Some (ELoadChannel (if bool_decide (shortname = []) then chname else shortname) chname gameid flag maxUser byCountry byIndex).
(** The calls of [Add], in their order. *)
Definition ChannelCache_Load (c : Cfg) : X (list event) :=
  xml ← XmlNode_file oom fs (conf_path (c_CfgDir c) (c_ChannelFile c));
  rows ← section_of xml (b# "Channels") [] (fun n => ReadArray n channel_keys (b# "Channel"));
  XmlNode_dtor xml ;; mret (omap channel_row rows).

(** CheckRevision.cpp *)
Definition rev_keys : list bytes := [b# "gameName"; b# "gameId"; b# "file1"; b# "file2"; b# "file3"; b# "exever"].
Definition rev_row_of (r : list bytes) : rev_row :=
  mkRow (nth 0 r []) (nth 1 r []) (nth 2 r []) (nth 3 r []) (nth 4 r []) (nth 5 r []).
Definition CheckRevision_rows (c : Cfg) : X (option (list rev_row)) :=
  xml ← XmlNode_file oom fs (conf_path (c_CfgDir c) (c_CheckRevFile c));
  rows ← section_of xml (b# "Revisions") None (fun n => rows ← ReadArray n rev_keys (b# "Revision"); mret (Some (map rev_row_of rows)));
  XmlNode_dtor xml ;; mret rows.

(** LadderData.cpp: the loop over the [Maps] elements of a set. *)
Fixpoint maps_loop (fuel : nat) (type : nat) (child2 : option XmlNode) (d : LadderData) : X LadderData :=
  match child2 with
  | None => mret d
  | Some n =>
      match fuel with
      | O => fun _ => NoFuel
      | S fuel =>
          typestr ← str_attr n (b# "type") [];
          match find_tag type typestr with
          | None => next ← GetNext n (b# "Maps"); maps_loop fuel type next d
          | Some mtype =>
              desc ← str_attr n (b# "desc") [];
              longDesc ← str_attr n (b# "longDesc") [];
              thumbsDown ← GetAttrInteger n (b# "thumbsDown") 0;
              result ← ReadArray n [b# "path"] (b# "Map");
              next ← GetNext n (b# "Maps");
              maps_loop fuel type next (put_maps mtype (mkXmlMaps typestr desc longDesc thumbsDown (map (fun r => nth 0 r []) result)) d)
          end
      end
  end.
Fixpoint mapset_loop (fuel : nat) (child : option XmlNode) (d : LadderData) : X LadderData :=
  match child with
  | None => mret d
  | Some n =>
      match fuel with
      | O => fun _ => NoFuel
      | S fuel =>
          typestr ← str_attr n (b# "type") [];
          match mapset_type typestr with
          | None => next ← GetNext n (b# "Mapset"); mapset_loop fuel next d
          | Some type =>
              child2 ← GetChild n (b# "Maps");
              d ← heap_fuel (fun f => maps_loop f type child2 d);
              next ← GetNext n (b# "Mapset");
              mapset_loop fuel next d
          end
      end
  end.
Definition ladder_row (r : list bytes) : bytes * bytes * bytes := (nth 0 r [], nth 1 r [], nth 2 r []).
Definition page_row (r : list bytes) : bytes * bytes := (nth 0 r [], nth 1 r []).
Definition LadderData_Load_file (c : Cfg) (d : LadderData) : X LadderData :=
  xml ← XmlNode_file oom fs (conf_path (c_CfgDir c) (c_LadderMapFile c));
  d ← section_of xml (b# "Mapsets") d (fun n =>
        child ← GetChild n (b# "Mapset"); heap_fuel (fun f => mapset_loop f child d));
  d ← section_of xml (b# "Ladders") d (fun n =>
        rows ← ReadArray n [b# "type"; b# "desc"; b# "url"] (b# "Ladder"); mret (foldl load_ladder d (map ladder_row rows)));
  d ← section_of xml (b# "Pages") d (fun n =>
        rows ← ReadArray n [b# "type"; b# "url"] (b# "Page"); mret (foldl load_page d (map page_row rows)));
  XmlNode_dtor xml ;; mret d.
End loaders.

(** ** The tables of a tree *)

Definition table (t : xnode) (section name : bytes) (keys : list bytes) : option (list (list bytes)) :=
  (fun n => map (t_row keys) (kids_named name n)) <$> kid_named section t.
Definition maps_of (m : xnode) : xml_maps :=
  mkXmlMaps (t_str m (b# "type") []) (t_str m (b# "desc") []) (t_str m (b# "longDesc") []) (t_int m (b# "thumbsDown") 0)
    (map (fun r => nth 0 r []) (map (t_row [b# "path"]) (kids_named (b# "Map") m))).
Definition ladder_of (t : xnode) : xml_ladder :=
  mkXmlLadder
    ((fun n => map (fun s => (t_str s (b# "type") [], map maps_of (kids_named (b# "Maps") s))) (kids_named (b# "Mapset") n)) <$> kid_named (b# "Mapsets") t)
    (map ladder_row <$> table t (b# "Ladders") (b# "Ladder") [b# "type"; b# "desc"; b# "url"])
    (map page_row <$> table t (b# "Pages") (b# "Page") [b# "type"; b# "url"]).

(** ** Siblings *)

Section siblings.
Context (x : xml) (K : gmap nat (list nat)) (lo : nat) (HT : tree_ok x K).
Notation rep := (rep x K lo).
Notation reps := (reps x K lo).

Lemma ids_split name l c r : ids_named x name l = c :: r -> exists l1 l2, l = l1 ++ c :: l2 /\ r = ids_named x name l2.
Proof.
  induction l as [|q l IH]; [done|]. cbn [ids_named List.filter].
  destruct (match fld n_value (x_heap x) q with Some v => named name v | None => false end).
  - intros [= <- <-]. by exists [], l.
  - intros E. destruct (IH E) as (l1 & l2 & -> & ->). by exists (q :: l1), l2.
Qed.
Lemma child_not_self p l1 c l2 : K !! p = Some (l1 ++ c :: l2) -> c <> p.
Proof.
  intros HK ->. apply (no_cycle K p p (to_acyclic _ _ HT)); [|done]. apply child_lookup. eexists. split; [exact HK|].
  apply elem_of_app. right. left.
Qed.
Lemma find_next p name l1 c l2 : K !! p = Some (l1 ++ c :: l2) ->
  mxmlFindElement (Some c) (Some p) (Some name) None None MXML_NO_DESCEND x = Ret (head (ids_named x name l2), x).
Proof.
  intros HK. rewrite (FindElement_next x K p l1 c l2 name (to_forest _ _ HT) HK) by (by eapply child_not_self). by rewrite first_named_head.
Qed.
Lemma GetNext_rep p name l1 c l2 : K !! p = Some (l1 ++ c :: l2) ->
  GetNext (mkXN (Some c) (Some (Some p))) name x =
    Ret (match ids_named x name l2 with c' :: _ => Some (mkXN (Some c') (Some (Some p))) | [] => None end, x).
Proof.
  intros HK. unfold GetNext. cbn [_parent _data]. rewrite (xbind_eq _ _ _ _ _ (find_next p name l1 c l2 HK)). by destruct (ids_named x name l2).
Qed.

Lemma read_item_rep c t keys : rep c t -> read_item (Some c) keys x = Ret (t_row keys t, x).
Proof.
  intros Hr. induction keys as [|k keys IH]; [done|]. cbn [read_item t_row map].
  rewrite (xbind_eq _ _ _ _ _ (rep_attr x K lo c t k Hr)), (xbind_eq _ _ _ _ _ IH). done.
Qed.
Lemma read_loop_rep p name keys cs : forall ts fuel l1 c l2 acc,
  K !! p = Some (l1 ++ c :: l2) -> cs = ids_named x name l2 -> reps (c :: cs) ts -> (length ts < fuel)%nat ->
  read_loop fuel (Some p) (Some c) keys name acc x = Ret (acc ++ map (t_row keys) ts, x).
Proof.
  induction cs as [|c' cs IH]; intros ts [|fuel] l1 c l2 acc HK E Hr Hf; inversion Hr as [|? t ? ts' Hc Hrs]; subst; cbn [length] in Hf; try lia;
    cbn [read_loop]; rewrite (xbind_eq _ _ _ _ _ (read_item_rep c t keys Hc)), (xbind_eq _ _ _ _ _ (find_next p name l1 c l2 HK)), <- E; cbn [head].
  - inversion Hrs; subst. by destruct fuel.
  - symmetry in E. destruct (ids_split _ _ _ _ E) as (m1 & m2 & -> & E2). rewrite (IH ts' fuel (l1 ++ c :: m1) c' m2); [|by rewrite <- app_assoc|done|done|lia].
    by rewrite <- app_assoc.
Qed.
Lemma reps_length qs ts : reps qs ts -> length qs = length ts.
Proof. revert ts. induction qs as [|q qs IH]; intros ts H; inversion H; subst; [done|]. cbn. f_equal. by apply IH. Qed.
Lemma reps_nil_inv ts : reps [] ts -> ts = [].
Proof. by inversion 1. Qed.
Lemma ids_length name qs : (length (ids_named x name qs) <= length qs)%nat.
Proof.
  induction qs as [|q qs IH]; [done|]. unfold ids_named in *. cbn [List.filter length].
  destruct (match fld n_value (x_heap x) q with Some v => named name v | None => false end); cbn [length]; lia.
Qed.
(** The fuel of the loops covers the children of a node. *)
Lemma ids_fuel p name qs : K !! p = Some qs -> (length (ids_named x name qs) < S (base.size (x_heap x)))%nat.
Proof. intros HK. pose proof (kids_le_heap _ _ _ _ (to_forest _ _ HT) HK). pose proof (ids_length name qs). lia. Qed.

Lemma ReadArray_rep p t par keys name : rep p t -> keys <> [] ->
  ReadArray (mkXN (Some p) par) keys name x = Ret (map (t_row keys) (kids_named name t), x).
Proof.
  destruct t as [v ts]. intros (Hv & qs & HK & Hr)%rep_inv Hk. unfold ReadArray. cbn [_data]. destruct keys as [|k keys']; [done|]. set (keys := k :: keys').
  rewrite (xbind_eq _ _ _ _ _ (FindElement_child x K p qs name (to_forest _ _ HT) HK)). rewrite first_named_head.
  pose proof (reps_named x K lo name qs ts Hr) as Hf. unfold kids_named. cbn [t_kids]. pose proof (ids_fuel p name qs HK) as Hfuel. rewrite (reps_length _ _ Hf) in Hfuel.
  destruct (ids_named x name qs) as [|c cs] eqn:E; cbn [head]; [by rewrite (reps_nil_inv _ Hf)|]. destruct (ids_split _ _ _ _ E) as (l1 & l2 & -> & E2).
  unfold heap_fuel. rewrite (read_loop_rep p name keys cs (List.filter (t_named name) ts) _ l1 c l2 []); done.
Qed.

(** ** The ladder *)

Lemma maps_loop_rep p type cs : forall ts fuel l1 c l2 d,
  K !! p = Some (l1 ++ c :: l2) -> cs = ids_named x (b# "Maps") l2 -> reps (c :: cs) ts -> (length ts < fuel)%nat ->
  maps_loop fuel type (Some (mkXN (Some c) (Some (Some p)))) d x = Ret (foldl (load_maps type) d (map maps_of ts), x).
Proof.
  induction cs as [|c' cs IH]; intros ts [|fuel] l1 c l2 d HK E Hr Hf; inversion Hr as [|? t ? ts' Hc Hrs]; subst; cbn [length] in Hf; try lia; cbn [maps_loop map foldl];
    pose proof (GetNext_rep p (b# "Maps") l1 c l2 HK) as En; rewrite <- E in En; rewrite (xbind_eq _ _ _ _ _ (str_attr_rep _ _ _ _ _ _ _ _ Hc));
    unfold load_maps at 2; change (xm_type (maps_of t)) with (t_str t (b# "type") []).
  - inversion Hrs; subst. destruct (find_tag type (t_str t (b# "type") [])).
    + attrs Hc. rewrite (xbind_eq _ _ _ _ _ (GetAttrInteger_rep _ _ _ _ _ _ _ _ Hc)), (xbind_eq _ _ _ _ _ (ReadArray_rep c t (Some (Some p)) [b# "path"] (b# "Map") Hc ltac:(done))), (xbind_eq _ _ _ _ _ En).
      by destruct fuel.
    + rewrite (xbind_eq _ _ _ _ _ En). by destruct fuel.
  - symmetry in E. destruct (ids_split _ _ _ _ E) as (m1 & m2 & -> & E2). destruct (find_tag type (t_str t (b# "type") [])).
    + attrs Hc. rewrite (xbind_eq _ _ _ _ _ (GetAttrInteger_rep _ _ _ _ _ _ _ _ Hc)), (xbind_eq _ _ _ _ _ (ReadArray_rep c t (Some (Some p)) [b# "path"] (b# "Map") Hc ltac:(done))), (xbind_eq _ _ _ _ _ En).
      rewrite (IH ts' fuel (l1 ++ c :: m1) c' m2); [done|by rewrite <- app_assoc|done|done|lia].
    + rewrite (xbind_eq _ _ _ _ _ En). rewrite (IH ts' fuel (l1 ++ c :: m1) c' m2); [done|by rewrite <- app_assoc|done|done|lia].
Qed.
(** One set: the maps of it are loaded when its type is known. *)
Lemma mapset_step p c t fuel d : rep c t ->
  mapset_loop (S fuel) (Some (mkXN (Some c) (Some (Some p)))) d x =
    (next ← GetNext (mkXN (Some c) (Some (Some p))) (b# "Mapset");
     mapset_loop fuel next (load_mapset d (t_str t (b# "type") [], map maps_of (kids_named (b# "Maps") t)))) x.
Proof.
  intros Hc. cbn [mapset_loop]. rewrite (xbind_eq _ _ _ _ _ (str_attr_rep _ _ _ _ _ _ _ _ Hc)). unfold load_mapset. cbn [fst snd].
  destruct (mapset_type (t_str t (b# "type") [])) as [type|]; [|done].
  destruct t as [v ts]. pose proof Hc as (Hv & qs & HKc & Hr)%rep_inv. unfold GetChild at 1. cbn [_data]. unfold mbind at 1, X_bind at 1.
  rewrite (xbind_eq _ _ _ _ _ (FindElement_child x K c qs (b# "Maps") (to_forest _ _ HT) HKc)). rewrite first_named_head.
  pose proof (reps_named x K lo (b# "Maps") qs ts Hr) as Hf. unfold kids_named. cbn [t_kids]. pose proof (ids_fuel c (b# "Maps") qs HKc) as Hfuel.
  rewrite (reps_length _ _ Hf) in Hfuel. destruct (ids_named x (b# "Maps") qs) as [|m ms] eqn:E; cbn [head mret X_ret].
  - rewrite (reps_nil_inv _ Hf). done.
  - destruct (ids_split _ _ _ _ E) as (l1 & l2 & -> & E2).
    rewrite (xbind_eq (heap_fuel _) _ x _ x (maps_loop_rep c type ms _ _ l1 m l2 d HKc E2 Hf Hfuel)). done.
Qed.
Lemma mapset_loop_rep p cs : forall ts fuel l1 c l2 d,
  K !! p = Some (l1 ++ c :: l2) -> cs = ids_named x (b# "Mapset") l2 -> reps (c :: cs) ts -> (length ts < fuel)%nat ->
  mapset_loop fuel (Some (mkXN (Some c) (Some (Some p)))) d x =
    Ret (foldl load_mapset d (map (fun s => (t_str s (b# "type") [], map maps_of (kids_named (b# "Maps") s))) ts), x).
Proof.
  induction cs as [|c' cs IH]; intros ts [|fuel] l1 c l2 d HK E Hr Hf; inversion Hr as [|? t ? ts' Hc Hrs]; subst; cbn [length] in Hf; try lia;
    pose proof (GetNext_rep p (b# "Mapset") l1 c l2 HK) as En; rewrite <- E in En;
    (assert (mapset_loop (S fuel) (Some (mkXN (Some c) (Some (Some p)))) d x =
       (next ← GetNext (mkXN (Some c) (Some (Some p))) (b# "Mapset");
        mapset_loop fuel next (load_mapset d (t_str t (b# "type") [], map maps_of (kids_named (b# "Maps") t)))) x) as Estep;
     [|rewrite Estep, (xbind_eq _ _ _ _ _ En); cbn [map foldl]]).
  - by apply mapset_step.
  - inversion Hrs; subst. by destruct fuel.
  - by apply mapset_step.
  - symmetry in E. destruct (ids_split _ _ _ _ E) as (m1 & m2 & -> & E2).
    rewrite (IH ts' fuel (l1 ++ c :: m1) c' m2); [done|by rewrite <- app_assoc|done|done|lia].
Qed.
End siblings.

(** ** What the files say *)

Section files.
Context (oom : nat -> bool) (Hoom : forall n, oom n = false) (fs : fsys).

Lemma table_rep x K lo p t par section name keys : tree_ok x K -> rep x K lo p t -> keys <> [] ->
  section_of (mkXN (Some p) par) section [] (fun n => ReadArray n keys name) x = Ret (default [] (table t section name keys), x).
Proof.
  intros HT Hr Hk. rewrite (section_rep x K lo HT p t par section [] _ (fun n => map (t_row keys) (kids_named name n)) Hr).
  - unfold sect, table. by destruct (kid_named section t).
  - intros c n Hn. by apply (ReadArray_rep x K lo).
Qed.

Lemma ChannelCache_Load_doc c d x K :
  fs (conf_path (c_CfgDir c) (c_ChannelFile c)) = Some (doc_text d) -> Z.of_nat (length (doc_text d)) < 2 ^ 32 -> doc_ok d = true -> tree_ok x K ->
  exists x', ChannelCache_Load oom fs c x = Ret (omap channel_row (default [] (table (doc_tree d) (b# "Channels") (b# "Channel") channel_keys)), x') /\
    tree_ok x' K /\ forall q, val x' q = val x q.
Proof.
  intros Hf Hlen Hok HT. destruct (XmlNode_file_run oom Hoom fs _ d x K Hf Hlen Hok HT) as (p & x1 & E & K1 & Hg & Hr & Hb).
  destruct (free_doc x K _ x1 K1 p HT Hg Hr Hb) as (x2 & E2 & H2). exists x2. split; [|done].
  unfold ChannelCache_Load. rewrite (xbind_eq _ _ _ _ _ E).
  rewrite (xbind_eq _ _ _ _ _ (table_rep x1 K1 _ p _ None (b# "Channels") (b# "Channel") channel_keys (gr_tree _ _ _ _ _ _ Hg) Hr ltac:(done))).
  by rewrite (xbind_eq (XmlNode_dtor (mkXN (Some p) None)) _ _ _ _ E2).
Qed.

Lemma CheckRevision_rows_doc c d x K :
  fs (conf_path (c_CfgDir c) (c_CheckRevFile c)) = Some (doc_text d) -> Z.of_nat (length (doc_text d)) < 2 ^ 32 -> doc_ok d = true -> tree_ok x K ->
  exists x', CheckRevision_rows oom fs c x = Ret (map rev_row_of <$> table (doc_tree d) (b# "Revisions") (b# "Revision") rev_keys, x') /\
    tree_ok x' K /\ forall q, val x' q = val x q.
Proof.
  intros Hf Hlen Hok HT. destruct (XmlNode_file_run oom Hoom fs _ d x K Hf Hlen Hok HT) as (p & x1 & E & K1 & Hg & Hr & Hb).
  destruct (free_doc x K _ x1 K1 p HT Hg Hr Hb) as (x2 & E2 & H2). exists x2. split; [|done].
  unfold CheckRevision_rows. rewrite (xbind_eq _ _ _ _ _ E).
  rewrite (xbind_eq _ _ _ _ _ (section_rep x1 K1 _ (gr_tree _ _ _ _ _ _ Hg) p _ None (b# "Revisions") None _
    (fun n => Some (map rev_row_of (map (t_row rev_keys) (kids_named (b# "Revision") n)))) Hr
    (fun c n Hn => xbind_eq _ _ _ _ _ (ReadArray_rep x1 K1 _ (gr_tree _ _ _ _ _ _ Hg) c n _ rev_keys (b# "Revision") Hn ltac:(done))))).
  rewrite (xbind_eq (XmlNode_dtor (mkXN (Some p) None)) _ _ _ _ E2). unfold sect, table. by destruct (kid_named (b# "Revisions") (doc_tree d)).
Qed.

Lemma Mapsets_rep x K lo (HT : tree_ok x K) c n par d : rep x K lo c n ->
  (child ← GetChild (mkXN (Some c) par) (b# "Mapset"); heap_fuel (fun f => mapset_loop f child d)) x =
    Ret (foldl load_mapset d (map (fun s => (t_str s (b# "type") [], map maps_of (kids_named (b# "Maps") s))) (kids_named (b# "Mapset") n)), x).
Proof.
  destruct n as [v ts]. intros (Hv & qs & HK & Hr)%rep_inv. unfold GetChild. cbn [_data]. unfold mbind at 1, X_bind at 1.
  rewrite (xbind_eq _ _ _ _ _ (FindElement_child x K c qs (b# "Mapset") (to_forest _ _ HT) HK)). rewrite first_named_head.
  pose proof (reps_named x K lo (b# "Mapset") qs ts Hr) as Hf. unfold kids_named at 2. cbn [t_kids]. pose proof (ids_fuel x K HT c (b# "Mapset") qs HK) as Hfuel.
  rewrite (reps_length x K lo _ _ Hf) in Hfuel. destruct (ids_named x (b# "Mapset") qs) as [|m ms] eqn:E; cbn [head mret X_ret].
  - rewrite (reps_nil_inv x K lo _ Hf). done.
  - destruct (ids_split x _ _ _ _ E) as (l1 & l2 & -> & E2). exact (mapset_loop_rep x K lo HT c ms _ _ l1 m l2 d HK E2 Hf Hfuel).
Qed.

Lemma LadderData_Load_doc c d ld x K :
  fs (conf_path (c_CfgDir c) (c_LadderMapFile c)) = Some (doc_text d) -> Z.of_nat (length (doc_text d)) < 2 ^ 32 -> doc_ok d = true -> tree_ok x K ->
  exists x', LadderData_Load_file oom fs c ld x = Ret (LadderData_Load (ladder_of (doc_tree d)) ld, x') /\ tree_ok x' K /\ forall q, val x' q = val x q.
Proof.
  intros Hf Hlen Hok HT. destruct (XmlNode_file_run oom Hoom fs _ d x K Hf Hlen Hok HT) as (p & x1 & E & K1 & Hg & Hr & Hb).
  destruct (free_doc x K _ x1 K1 p HT Hg Hr Hb) as (x2 & E2 & H2). exists x2. split; [|done]. pose proof (gr_tree _ _ _ _ _ _ Hg) as T1. clear Hg Hb H2 Hok.
  unfold LadderData_Load_file. rewrite (xbind_eq _ _ _ _ _ E). set (t := doc_tree d) in *.
  rewrite (xbind_eq _ _ _ _ _ (section_rep x1 K1 _ T1 p t None (b# "Mapsets") ld _ _ Hr (fun c n Hn => Mapsets_rep x1 K1 _ T1 c n _ ld Hn))).
  set (d1 := sect t (b# "Mapsets") _ ld).
  rewrite (xbind_eq _ _ _ _ _ (section_rep x1 K1 _ T1 p t None (b# "Ladders") d1 _ (fun n => foldl load_ladder d1 (map ladder_row _)) Hr
    (fun c n Hn => xbind_eq _ _ _ _ _ (ReadArray_rep x1 K1 _ T1 c n _ [b# "type"; b# "desc"; b# "url"] (b# "Ladder") Hn ltac:(done))))).
  set (d2 := sect t (b# "Ladders") _ d1).
  rewrite (xbind_eq _ _ _ _ _ (section_rep x1 K1 _ T1 p t None (b# "Pages") d2 _ (fun n => foldl load_page d2 (map page_row _)) Hr
    (fun c n Hn => xbind_eq _ _ _ _ _ (ReadArray_rep x1 K1 _ T1 c n _ [b# "type"; b# "url"] (b# "Page") Hn ltac:(done))))).
  rewrite (xbind_eq (XmlNode_dtor (mkXN (Some p) None)) _ _ _ _ E2). unfold LadderData_Load, ladder_of, table. cbn [xl_mapsets xl_ladders xl_pages].
  unfold d2, d1, sect. generalize (kid_named (b# "Mapsets") t) (kid_named (b# "Ladders") t) (kid_named (b# "Pages") t). intros [] [] []; reflexivity.
Qed.
End files.
