(* ===== verification/Server.v ===== *)
(** * Server: the whole state of blitzd and the remaining handlers

    The world of clients, channels, games and accounts together with the file,
    realm and news caches, the version check and the ladder blocks; and the
    handlers that use them: blitzd/plugins/bnet (those not in Handlers),
    blitzd/plugins/file, blitzd/plugins/baal, blitzd/plugins/init.  What comes
    from outside (files, clock, random numbers, peer addresses) are arguments. *)

From S2P Require Import Prelude Words Stream OMap CStr ShaCtx Sha1 Srp3 Storage UserItem UserCache Framing Packets World Chat Commands Handlers Files Time Caches Strtol Revision Ladder.

(** The five compressed blocks of [LadderInfo]. *)
Record LadderInfo := mkInfo { comp_urldata : bytes; comp_mapname : bytes; comp_mapinfo : bytes; comp_mapdesc : bytes; comp_ladderdata : bytes }.

(** [LadderInfo::Init], after [LadderData::Load]. *)
Definition LadderInfo_Init (compress : bytes -> Z -> option bytes) (left_ : bytes -> bytes) (d : LadderData) : result LadderInfo :=
  mi ← GetMapInfo d;
  md ← GetMapDesc d;
  let build := BuildData compress left_ in
  Ret (mkInfo (build (GetUrlData d)) (build (GetMapName d)) (build mi) (build md) (build (GetLadderData d))).

Record Server S := mkServer {
  sv_world : World S;
  sv_files : FileCache;
  sv_realms : RealmCache;
  sv_news : NewsCache;
  sv_check : CheckRevision;
  sv_ladder : LadderInfo;
  sv_closing : list nat
}.
Arguments mkServer {S}. Arguments sv_world {S}. Arguments sv_files {S}. Arguments sv_realms {S}. Arguments sv_news {S}.
Arguments sv_check {S}. Arguments sv_ladder {S}. Arguments sv_closing {S}.

Section monad.
Context {S : Type}.
Definition N (A : Type) : Type := Server S -> result (A * Server S).
#[global] Instance N_ret : MRet N := fun _ a s => Ret (a, s).
#[global] Instance N_bind : MBind N := fun _ _ f m s => match m s with Ret (a, s') => f a s' | Crash => Crash | NoFuel => NoFuel end.

Definition set_world (w : World S) (s : Server S) : Server S :=
  mkServer w (sv_files s) (sv_realms s) (sv_news s) (sv_check s) (sv_ladder s) (sv_closing s).
Definition set_files (f : FileCache) (s : Server S) : Server S :=
  mkServer (sv_world s) f (sv_realms s) (sv_news s) (sv_check s) (sv_ladder s) (sv_closing s).
Definition set_realms (r : RealmCache) (s : Server S) : Server S :=
  mkServer (sv_world s) (sv_files s) r (sv_news s) (sv_check s) (sv_ladder s) (sv_closing s).
Definition set_closing (l : list nat) (s : Server S) : Server S :=
  mkServer (sv_world s) (sv_files s) (sv_realms s) (sv_news s) (sv_check s) (sv_ladder s) l.

Definition ask {A} (f : Server S -> A) : N A := fun s => Ret (f s, s).
Definition change (f : Server S -> Server S) : N unit := fun s => Ret (tt, f s).
Definition ncrash {A} : N A := fun _ => Crash.
(** An operation of the world. *)
Definition onW {A} (m : M S A) : N A :=
  fun s => match m (sv_world s) with Ret (a, w) => Ret (a, set_world w s) | Crash => Crash | NoFuel => NoFuel end.
(** A computation that may fail. *)
Definition pure {A} (r : result A) : N A := fun s => match r with Ret a => Ret (a, s) | Crash => Crash | NoFuel => NoFuel end.
End monad.
Arguments N S A : clear implicits.

(** [htons] on a little-endian machine; [htonl] is [Reverse]. *)
Definition htons (x : Z) : Z := Z.lor (Z.shiftl (Z.land x 0xFF) 8) (Z.land (Z.shiftr x 8) 0xFF).
Notation htonl := Reverse.

Section server.
Context {S : Type} (store : Storage_ops S) (junk : nat -> bytes) (ufuel : nat).
Context (ju : nat -> Z) (jb : nat -> nat -> bytes).
(** The file system, the directory of the files, [time(NULL)], and the stack
    the digests start from. *)
Context (fs : fsys) (stat : bytes -> option Z) (dir : bytes) (now : Z) (stack_block : bytes).
(** Whether a vector of so many elements can be allocated; otherwise the
    exception ends the process. *)
Context (room : Z -> bool).
Abbreviation N := (N S).
Abbreviation M := (M S).

Definition file_at (fn : bytes) : N (option FileCacheItem) :=
  fun s => match FileCache_at fs stat dir (sv_files s) fn with
           | Ret (r, m) => Ret (r, set_files m s)
           | Crash => Crash
           | NoFuel => NoFuel
           end.

(** ** Version check *)

Definition BNetAuthInfo_Pack (p : nat) : N (Stream -> option Stream) :=
  c ← onW (client p);
  let fn := b# "ver-ix86-" ++ [48 + c_token c mod 8] ++ b# ".mpq" in
  ptr ← file_at fn;
  k ← ask sv_check;
  mret (fun st =>
    match ptr with
    | None => None
    | Some i =>
        let st := put_u32 (c_session c) (put_u32 (c_token c) (put_u32 (c_protocolVer c) st)) in
        let st := put_cstr (GetFormula k) (put_cstr fn (put_u64 (fi_ft i) st)) in
        Some (if c_protocolVer c =? 2 then append_zero 128 st else st)
    end).

(** [sid] and [tick]: the random number and the clock of [SendPing]. *)
Definition AuthInfo_Process (sid tick : Z) (p : nat) (in_ : Stream) : N bool :=
  let '(protocol, in_) := get_u32 (ju 0) in_ in
  let '(platform, in_) := get_u32 (ju 1) in_ in
  let '(product, in_) := get_u32 (ju 2) in_ in
  let '(ver, in_) := get_u32 (ju 3) in_ in
  let '(gamelang, in_) := get_u32 (ju 4) in_ in
  let '(natIP, in_) := get_u32 (ju 5) in_ in
  let '(tzone, in_) := get_u32 (ju 6) in_ in
  let '(locale, in_) := get_u32 (ju 7) in_ in
  let '(bnlang, in_) := get_u32 (ju 8) in_ in
  let '(country_abr, in_) := get_str in_ in
  let '(country_name, in_) := get_str in_ in
  onW (edit_client p (SetAuthInfo platform product ver gamelang natIP tzone locale bnlang country_abr country_name)) ;;
  onW (SendPing p sid tick) ;;
  pk ← BNetAuthInfo_Pack p;
  onW (send_bnet p cmd_AuthInfo pk) ;; mret true.

Definition AuthCheck_Process (p : nat) (in_ : Stream) : N bool :=
  let '(ticks, in_) := get_u32 (ju 0) in_ in
  let '(exever, in_) := get_u32 (ju 1) in_ in
  let '(exechksum, in_) := get_u32 (ju 2) in_ in
  let '(count, in_) := get_u32 (ju 3) in_ in
  let '(spawn, in_) := get_u32 (ju 4) in_ in
  let in_ := skip (Z.to_nat (u32 (count * 36))) in_ in
  let '(exeinfo, in_) := get_str in_ in
  let '(owner, in_) := get_str in_ in
  c ← onW (client p);
  k ← ask sv_check;
  r ← pure (findRev k (c_token c mod 8) exechksum exever);
  let code := match r with
              | Some rev => if gameId rev =? c_gameid c then 0 else 0x101
              | None => 0x101
              end in
  onW (send_bnet p cmd_AuthCheck (BNetAuthCheck_Pack code [])) ;; mret true.

(** ** Files *)

Definition QueryIcon_Process (p : nat) (in_ : Stream) : N bool :=
  c ← onW (client p);
  let filename := if c_protocolVer c =? 2 then b# "icons-WAR3.bni" else b# "icons_STAR.bni" in
  ptr ← file_at filename;
  match ptr with
  | None => mret false
  | Some i => onW (send_bnet p cmd_ReplyIcon (BNetReplyIcon_Pack (fi_ft i) filename)) ;; mret true
  end.
Definition QueryFileInfo_Process (p : nat) (in_ : Stream) : N bool :=
  let '(fileid, in_) := get_u64 (ju 0) in_ in
  let '(filename, in_) := get_str in_ in
  ptr ← file_at filename;
  match ptr with
  | None => mret false
  | Some i => onW (send_bnet p cmd_ReplyFileInfo (BNetReplyFileInfo_Pack fileid (fi_ft i) filename)) ;; mret true
  end.

(** [FileHeader::Build]: the header, its own size in front, then the data from
    the offset on. *)
Definition FileHeader_Build (fileName : bytes) (adid extag offset : Z) : N (option bytes) :=
  ptr ← file_at fileName;
  mret (match ptr with
        | None => None
        | Some i =>
            let n := Z.of_nat (length (fi_data i)) in
            if (n =? 0) || (n <=? offset) then None
            else
              let st := put_u32 extag (put_u32 adid (put_u32 (u32 (GetSize i - offset)) (put_u32 0 empty_stream))) in
              let st := put_cstr fileName (put_u64 (fi_ft i) st) in
              let st := poke 0 (le_bytes 4 (u32 (Z.of_nat (size st)))) st in
              Some (_buf (append (drop (Z.to_nat offset) (fi_data i)) st))
        end).
Definition FileReq_Process (p : nat) (in_ : Stream) : N bool :=
  let '(plat, in_) := get_u32 (ju 0) in_ in
  let '(prod, in_) := get_u32 (ju 1) in_ in
  let '(adid, in_) := get_u32 (ju 2) in_ in
  let '(extag, in_) := get_u32 (ju 3) in_ in
  let '(offset, in_) := get_u32 (ju 4) in_ in
  let '(ft, in_) := get_u64 (ju 5) in_ in
  let '(fileName, in_) := get_str in_ in
  b ← FileHeader_Build fileName adid extag offset;
  onW (build_and_send p b) ;; mret true.
Definition RawReq_Process (p : nat) (in_ : Stream) : N bool :=
  let '(offset, in_) := get_u32 (ju 0) in_ in
  let '(ft, in_) := get_u64 (ju 1) in_ in
  let in_ := skip 40 in_ in
  let '(fileName, in_) := get_str in_ in
  b ← FileHeader_Build fileName 0 0 offset;
  onW (build_and_send p b) ;; mret true.
Definition TokenReq_Process (p : nat) (in_ : Stream) : N bool :=
  onW (SetStage p FILERAW) ;;
  c ← onW (client p);
  onW (send p (FileToken_Build (c_token c))) ;; mret true.

(** ** Small ones *)

Definition CheckAd_Process (p : nat) (in_ : Stream) : N bool := mret true.
Definition ClickAd_Process (p : nat) (in_ : Stream) : N bool := mret true.
Definition DisplayAd_Process (p : nat) (in_ : Stream) : N bool := mret true.
Definition QueryAdUrl_Process (p : nat) (in_ : Stream) : N bool := mret true.
Definition ResetPassword_Process (p : nat) (in_ : Stream) : N bool := mret true.
(** The results are read and dropped. *)
Definition GameResult_Process (p : nat) (in_ : Stream) : N bool :=
  let '(gtype, in_) := get_u32 (ju 0) in_ in
  let '(rcount, in_) := get_u32 (ju 1) in_ in
  mret (rcount <=? 12).
Definition QueryNews_Process (p : nat) (in_ : Stream) : N bool :=
  let '(last_time, in_) := get_u32 (ju 0) in_ in
  n ← ask sv_news;
  onW (send_bnet p cmd_ReplyNews (BNetReplyNews_Pack n now last_time)) ;; mret true.
Definition BNetRealmList2_Pack (m : RealmCache) (st : Stream) : option Stream := Some (RealmCache_BuildPacket m (put_u32 0 st)).
Definition QueryRealms2_Process (p : nat) (in_ : Stream) : N bool :=
  r ← ask sv_realms;
  onW (send_bnet p cmd_RealmList2 (BNetRealmList2_Pack r)) ;; mret true.

Definition InitBnet_Process (p : nat) (in_ : Stream) : N bool := onW (SetStage p BNET) ;; mret true.
Definition InitFile_Process (p : nat) (in_ : Stream) : N bool := onW (SetStage p FILETRANS) ;; mret true.
Definition InitBaal_Process (p : nat) (in_ : Stream) : N bool :=
  onW (SetStage p BAAL) ;;
  c ← onW (client p);
  onW (build_and_send p (Baal_Build 0 0x01 (BaalAuthInfo_Pack (c_session c)))) ;; mret true.

(** ** Warcraft III *)

Definition war3_block (i : LadderInfo) (tag : Z) : option (Z * bytes) :=
  if tag =? 0x55524c then Some (0xBF1F1047, comp_urldata i)
  else if tag =? 0x4d4150 then Some (0x70E2E0D5, comp_mapname i)
  else if tag =? 0x54595045 then Some (0x7C87DEEE, comp_mapinfo i)
  else if tag =? 0x44455343 then Some (0xA4F0A22F, comp_mapdesc i)
  else if tag =? 0x4c414452 then Some (0x3BADE25A, comp_ladderdata i)
  else None.
Definition BNetWar3Info_Pack (i : LadderInfo) (subcmd cookie tag : Z) (is_last : bool) (st : Stream) : option Stream :=
  let st := put_u8 subcmd st in
  if subcmd =? 2 then
    let st := put_u32 tag (put_u8 1 (put_u32 cookie st)) in
    match war3_block i tag with
    | Some (sum, block) => Some (put_u8 (if is_last then 0 else 1) (put_bytes block (put_u32 sum st)))
    | None => None
    end
  else None.
Fixpoint war3_loop (p : nat) (cookie : Z) (i : nat) (c : nat) (in_ : Stream) : N unit :=
  match c with
  | O => mret tt
  | Datatypes.S c =>
      let '(tag, in_) := get_u32 (ju (2 * i)) in_ in
      let '(unk, in_) := get_u32 (ju (2 * i + 1)) in_ in
      l ← ask sv_ladder;
      onW (send_bnet p cmd_War3Info (BNetWar3Info_Pack l 2 cookie tag (Nat.eqb c 0))) ;;
      war3_loop p cookie (Datatypes.S i) c in_
  end.
Definition QueryWar3Info_Process (p : nat) (in_ : Stream) : N bool :=
  let '(subcmd, in_) := get_u8 (ju 0) in_ in
  if subcmd =? 2 then
    let '(cookie, in_) := get_u32 (ju 1) in_ in
    let '(c, in_) := get_u8 (ju 2) in_ in
    if c =? 0 then mret true else war3_loop p cookie 2 (Z.to_nat c) in_ ;; mret true
  else mret true.

(** ** Profile data *)

(** [ptr->GetData(k)]: the lookup enters the key. *)
Definition get_data (u : nat) (k : bytes) : M bytes :=
  a ← account u;
  let '(v, a') := GetData k a in
  edit_account u (fun _ => a') ;; mret v.

Definition Profile_Process (p : nat) (in_ : Stream) : N bool :=
  let '(token, in_) := get_u32 (ju 0) in_ in
  let '(username, in_) := get_str in_ in
  ptr ← onW (find_user store junk ufuel username);
  match ptr with
  | None => mret false
  | Some u =>
      d ← onW (get_data u (b# "Profile\Description"));
      l ← onW (get_data u (b# "Profile\Location"));
      onW (send_bnet p cmd_Profile (BNetProfile_Pack token 0 d l 0)) ;; mret true
  end.

(** The two loops that read names: an empty name ends the packet, except as
    the first account or as the last key. *)
Fixpoint read_names (stop : nat -> bool) (i n : nat) (in_ : Stream) : option (list bytes * Stream) :=
  match n with
  | O => Some ([], in_)
  | Datatypes.S n =>
      let '(x, in_) := get_str in_ in
      if (Nat.eqb (length x) 0) && stop i then None
      else '(l, in_) ← read_names stop (i + 1) n in_; Some (x :: l, in_)
  end.
Definition stop_account (i : nat) : bool := Nat.ltb 0 i.
Definition stop_key (kcount : Z) (i : nat) : bool := Z.of_nat i <? u32 (kcount - 1).
(** Whose data is meant. *)
Definition named_account (p : nat) (name : bytes) : M (option nat) :=
  if Nat.eqb (length name) 0 then c ← client p; mret (c_user c) else find_user store junk ufuel name.

Fixpoint read_row (u : nat) (keys : list bytes) : M (list bytes) :=
  match keys with
  | [] => mret []
  | k :: keys =>
      v ← (if Nat.eqb (length k) 0 then mret [] else get_data u k);
      r ← read_row u keys;
      mret (v :: r)
  end.
Fixpoint read_rows (p : nat) (names keys : list bytes) : M (list (list bytes)) :=
  match names with
  | [] => mret []
  | x :: names =>
      u ← named_account p x;
      r ← match u with Some u => read_row u keys | None => mret (map (fun _ => []) keys) end;
      rs ← read_rows p names keys;
      mret (r :: rs)
  end.
Definition ReadUserData_Process (p : nat) (in_ : Stream) : N bool :=
  let '(acount, in_) := get_u32 (ju 0) in_ in
  let '(kcount, in_) := get_u32 (ju 1) in_ in
  let '(token, in_) := get_u32 (ju 2) in_ in
  if negb (room acount && room kcount) then ncrash else
  match read_names stop_account 0 (Z.to_nat acount) in_ with
  | None => mret false
  | Some (anames, in_) =>
      match read_names (stop_key kcount) 0 (Z.to_nat kcount) in_ with
      | None => mret false
      | Some (knames, in_) =>
          rows ← onW (read_rows p anames knames);
          onW (send_bnet p cmd_ReadUserData (BNetReadUserData_Pack acount kcount token rows)) ;; mret true
      end
  end.

(** The inner loop of [WriteUserData] looks at [knames[i]], the key with the
    number of the account. *)
Fixpoint write_row (u : nat) (ki : option bytes) (keys values : list bytes) : M unit :=
  match keys, values with
  | k :: keys, v :: values =>
      (match ki with
       | None => crash
       | Some n => if Nat.eqb (length n) 0 then mret tt else edit_account u (SetData k v)
       end) ;; write_row u ki keys values
  | _, _ => mret tt
  end.
Fixpoint write_rows (p : nat) (i : nat) (names keys values : list bytes) : M unit :=
  match names with
  | [] => mret tt
  | x :: names =>
      u ← named_account p x;
      (match u with Some u => write_row u (keys !! i) keys values | None => mret tt end) ;;
      write_rows p (i + 1) names keys values
  end.
Definition WriteUserData_Process (p : nat) (in_ : Stream) : N bool :=
  let '(acount, in_) := get_u32 (ju 0) in_ in
  let '(kcount, in_) := get_u32 (ju 1) in_ in
  if negb (room acount && room kcount) then ncrash else
  match read_names stop_account 0 (Z.to_nat acount) in_ with
  | None => mret false
  | Some (anames, in_) =>
      match read_names (stop_key kcount) 0 (Z.to_nat kcount) in_ with
      | None => mret false
      | Some (knames, in_) =>
          match read_names (fun _ => false) 0 (Z.to_nat kcount) in_ with
          | None => mret false
          | Some (kvalues, in_) => onW (write_rows p 0 anames knames kvalues) ;; mret true
          end
      end
  end.

(** ** Game list *)

(** One game as the list shows it. *)
Definition adv_entry (gm : Game) (host : Client) (st : Stream) : Stream :=
  let st := put_u16 2 (put_u32 (g_option gm) (put_u32 (g_type gm) st)) in
  let st := put_u32 (htonl (c_gameIp host)) (put_u16 (htons (c_gamePort host)) st) in
  let st := put_u32 (g_stime gm) (put_u32 (Z.lor (Z.land (g_flag gm) 0x02) 0x04) (put_u64 0 st)) in
  put_cstr (g_stat gm) (put_cstr (g_passwd gm) (put_cstr (g_name gm) st)).
Definition adv_match (cond mask : Z) (gm : Game) : bool :=
  ((mask =? 0) || (Z.land (g_type gm) mask =? Z.land cond mask)) && g_broadcast gm.
(** The loop over the games; [c] counts the matching ones. *)
Fixpoint adv_loop (cond mask startidx maxcount : Z) (games : list (bytes * nat)) (c : Z) (st : Stream) : M (Z * Stream) :=
  match games with
  | [] => mret (c, st)
  | (_, g) :: games =>
      gm ← game g;
      r ← match g_host gm with
          | Some h =>
              if adv_match cond mask gm then
                let c := u32 (c + 1) in
                if (startidx <? c) && (c <=? maxcount) then host ← client h; mret (c, adv_entry gm host st)
                else mret (c, st)
              else mret (c, st)
          | None => mret (c, st)
          end;
      let '(c, st) := r in
      if c =? maxcount then mret (c, st) else adv_loop cond mask startidx maxcount games c st
  end.
(** The comparison of the passwords compares two buffers by address, which
    are never the same. *)
Definition BNetAdvListEx_body (cond mask startidx maxcount : Z) (gamename : bytes) (st : Stream) : M Stream :=
  match gamename with
  | [] =>
      let pos := size st in
      games ← get w_game_map;
      '(c, st) ← adv_loop cond mask startidx maxcount games 0 (put_u32 0 st);
      let st := if c =? 0 then put_u32 0 st else st in
      mret (poke pos (le_bytes 4 c) st)
  | _ =>
      ptr ← GameCache_index gamename;
      match ptr with
      | None => mret (put_u32 1 (put_u32 0 st))
      | Some g =>
          gm ← game g;
          match g_host gm with
          | None => mret (put_u32 1 (put_u32 0 st))
          | Some h =>
              if negb (Z.land (g_flag gm) 0x02 =? 0) then mret (put_u32 3 (put_u32 0 st))
              else if negb (Z.land (g_flag gm) 0x08 =? 0) then mret (put_u32 4 (put_u32 0 st))
              else if negb (Nat.eqb (length (g_passwd gm)) 0) then mret (put_u32 2 (put_u32 0 st))
              else host ← client h; mret (adv_entry gm host st)
          end
      end
  end.
(** A packet whose [Pack] reads the world: [Build] around a body that is
    computed on the header. *)
Definition BNet_header (cmd : Z) : Stream := put_u32 (u16 cmd) empty_stream.
Definition BNet_close (st : Stream) : bytes := _buf (poke 2 (le_bytes 2 (u16 (Z.of_nat (size st)))) st).

Definition GetAdvListEx_Process (p : nat) (in_ : Stream) : N bool :=
  let '(cond, in_) := get_u32 (ju 0) in_ in
  let '(mask, in_) := get_u32 (ju 1) in_ in
  let '(startidx, in_) := get_u32 (ju 2) in_ in
  let '(maxcount, in_) := get_u32 (ju 3) in_ in
  let '(gamename, in_) := get_str in_ in
  let '(gamepass, in_) := get_str in_ in
  let '(gamestat, in_) := get_str in_ in
  st ← onW (BNetAdvListEx_body cond mask startidx maxcount gamename (BNet_header cmd_AdvListEx));
  onW (send p (BNet_close st)) ;; mret true.

(** ** Channel list *)

Fixpoint list_channels (mine : option nat) (l : list nat) (st : Stream) : M Stream :=
  match l with
  | [] => mret st
  | h :: l =>
      ch ← channel h;
      list_channels mine l
        (if negb (h_spawned ch) && negb (bool_decide (Some h = mine)) then put_str (h_name ch) st else st)
  end.
(** [itemlist] is a reference to the list of the client's game, so that
    [itemlist = channelCache[0]] overwrites that list. *)
Definition BNetListChannel_body (p : nat) (st : Stream) : M Stream :=
  c ← client p;
  l ← ChannelCache_tag (c_gameid c);
  st ← list_channels (c_channel c) l st;
  l0 ← ChannelCache_tag 0;
  modify (fun w => set_w_game_channelmap (om_insert Z.ltb (c_gameid c) l0 (w_game_channelmap w)) w) ;;
  st ← list_channels (c_channel c) l0 st;
  mret (put_u8 0 st).
Definition ListChannel_Process (p : nat) (in_ : Stream) : N bool :=
  st ← onW (BNetListChannel_body p (BNet_header cmd_ListChannel));
  onW (send p (BNet_close st)) ;; mret true.

(** ** Realms *)

(** The hash both sides of a realm logon compute. *)
Definition realm_proof (cookie session token : Z) (passwd : bytes) : bytes :=
  sha1_digest stack_block [le_bytes 4 cookie; le_bytes 4 session; le_bytes 4 token; take 20 passwd].

Definition BNetRealmLogonEx_Pack (p : nat) (cookie : Z) (realmName : bytes) : N (Stream -> option Stream) :=
  m ← ask sv_realms;
  c ← onW (client p);
  match RealmCache_at m realmName with
  | None => mret (fun st => Some (put_u32 0x80000001 (put_u32 cookie st)))
  | Some realm =>
      match c_user c with
      | None => mret (fun st => Some (put_u32 0x80000002 (put_u32 cookie st)))
      | Some u =>
          a ← onW (account u);
          mret (fun st =>
            let st := put_u32 (c_session c) (put_u32 0 (put_u32 0 (put_u32 cookie st))) in
            let st := put_u32 (htons (rl_port realm)) (put_u32 (htonl (rl_ip realm)) st) in
            let st := put_u32 (c_version c) (put_u32 (c_gameid c) (append_zero 12 st)) in
            let st := append_zero 8 st in
            Some (put_str (u_username a) (append (realm_proof cookie (c_session c) (c_token c) (u_passwd a)) st)))
      end
  end.
Definition RealmLogonEx_Process (p : nat) (in_ : Stream) : N bool :=
  let '(cookie, in_) := get_u32 (ju 0) in_ in
  let in_ := skip 20 in_ in
  let '(realmName, in_) := get_str in_ in
  pk ← BNetRealmLogonEx_Pack p cookie realmName;
  onW (send_bnet p cmd_RealmLogonEx pk) ;; mret true.

(** [peer]: the address [getpeername] returns, in network order. *)
Definition RealmAuth_Process (peer : nat -> option Z) (p : nat) (in_ : Stream) : N bool :=
  let '(token, in_) := get_u32 (ju 0) in_ in
  let '(session, in_) := get_u32 (ju 1) in_ in
  let '(port, in_) := get_u16 (ju 2) in_ in
  let '(name, in_) := get_str in_ in
  let '(desc, in_) := get_str in_ in
  let refuse := (onW (build_and_send p (Baal_Build token 0x02 (BaalAuthReply_Pack 1))) ;;
                 change (fun s => set_closing (p :: sv_closing s) s) ;; mret true) in
  c ← onW (client p);
  if session =? c_session c then
    m ← ask sv_realms;
    match RealmCache_at m name, peer p with
    | None, Some addr =>
        change (set_realms (RealmCache_Add m name desc port (htonl addr)).2) ;;
        onW (build_and_send p (Baal_Build token 0x02 (BaalAuthReply_Pack 0))) ;; mret true
    | _, _ => refuse
    end
  else refuse.

Definition UserCheck_Process (p : nat) (in_ : Stream) : N bool :=
  let '(remote_token, in_) := get_u32 (ju 0) in_ in
  let '(cookie, in_) := get_u32 (ju 1) in_ in
  let '(_, hash, in_) := read (jb 0 20) 20 in_ in
  let '(name, in_) := get_str in_ in
  q ← onW (pool_name name);
  res ← match q with
        | None => mret 0x0C
        | Some q =>
            c ← onW (client q);
            match c_user c with
            | None => mret 0x0C
            | Some u =>
                a ← onW (account u);
                mret (if decide (realm_proof cookie (c_session c) (c_token c) (u_passwd a) = hash) then 0 else 0x0C)
            end
        end;
  onW (build_and_send p (Baal_Build remote_token 0x10 (BaalCheckReply_Pack res))) ;; mret true.
End server.
