(* ===== verification/Startup.v ===== *)
(** * Startup: from the configuration to a running server (blitzd/core/DaemonLoop.cpp)

    [DaemonLoop::Run] up to the sockets: the configuration is read, the storage
    chosen and opened, the account counters, game versions, news, channels and
    ladder maps are loaded.  The files are the argument [fs], the database that
    [sqlite3_open] gives for a file name is [open_db]. *)

From S2P Require Import Prelude Words Stream CStr OMap Strtol Files MxmlNode MxmlTree MxmlLoad MxmlSearch MxmlBuild MxmlText MxmlGrammar MxmlDoc MxmlRead XmlConf CfgLoad XmlLoaders.
From S2P Require Import ShaCtx Sha1 Srp3 NumFmt Storage UserItem UserCache Framing Packets World Chat ChatInv ChatOps ChatLife ChatTables Commands Handlers ChatSafe Time Caches Revision Ladder Server.

(** [Storage::SetEngine]: is [storage] set? *)
Definition SetEngine (name : bytes) : bool := strcmpi name (b# "sqlite") =? 0.

Section startup.
Context (oom : nat -> bool) (fs : fsys) {S : Type} (store : Storage_ops S) (open_db : bytes -> S).
Context (junk : nat -> bytes) (ufuel : nat) (ju : nat -> Z).
(** The garbage, random numbers and clock of the loaders, and zlib. *)
Context (mem : bytes) (junkv jres : list Z) (d : draws) (add : bytes -> bytes -> NewsCache -> NewsCache)
  (compress : bytes -> Z -> option bytes) (left_ : bytes -> bytes).

(** A computation that does not touch the XML heap. *)
Definition lift {A} (r : result A) : X A :=
  fun x => match r with Ret a => Ret (a, x) | Crash => Crash | NoFuel => NoFuel end.
Fixpoint perform_all (es : list event) (w : World S) : result (World S) :=
  match es with
  | [] => Ret w
  | e :: es => match perform store junk ufuel ju e w with Ret (_, w') => perform_all es w' | Crash => Crash | NoFuel => NoFuel end
  end.

Definition Run_start : X (Cfg * Server S) :=
  c ← Cfg_Load oom fs (b# "BlitzD.xml") Cfg_zero;
  if negb (SetEngine (c_DBEngine c)) then xcrash
  else
    uc ← lift (LoadFromDB store (new_UserCache (open_db (c_DBFile c))));
    rows ← CheckRevision_rows oom fs c;
    rev ← lift (CheckRevision_Load mem junkv jres fs (c_GamesDir c) d rows (mkCheck [] []));
    news ← lift (NewsCache_Load fs (conf_path (c_CfgDir c) (c_MotdFile c)) (conf_path (c_CfgDir c) (c_NewsFile c)) add (mkNews [] []));
    channels ← ChannelCache_Load oom fs c;
    w ← lift (perform_all channels (start_world uc));
    data ← LadderData_Load_file oom fs c LadderData_ctor;
    info ← lift (LadderInfo_Init compress left_ data);
    mret (c, mkServer w [] [] news rev info []).

(** ** Loading channels *)

(** A configured channel. *)
Definition is_load (e : event) : Prop := exists sn n tag flag mu bc bi, e = ELoadChannel sn n tag flag mu bc bi /\ no_nul n.

Lemma load_run e w : is_load e -> exists w', perform store junk ufuel ju e w = Ret (tt, w') /\ w_uc w' = w_uc w /\
  (length (w_channelmap w') <= length (w_channelmap w) + 2)%nat.
Proof.
  intros (sn & n & tag & flag & mu & bc & bi & -> & _). cbn [perform]. unfold ChannelCache_New, alloc_Channel, ChannelCache_Add.
  set (ch := new_Channel sn n tag flag mu bc bi).
  set (w1 := set_w_alloc (w_alloc w + 1)%nat (set_w_channels (<[w_alloc w := ch]> (w_channels w)) w)).
  assert (w_channels w1 !! w_alloc w = Some ch) as Hch by (destruct w; apply lookup_insert_eq).
  unfold mbind, M_bind. cbn [get modify mret M_ret]. fold w1. rewrite (channel_eq _ _ _ Hch).
  pose proof (om_insert_length_le ci_ltb (h_short ch) (w_alloc w) (w_channelmap w1)) as L1.
  pose proof (om_insert_length_le ci_ltb (h_name ch) (w_alloc w) (om_insert ci_ltb (h_short ch) (w_alloc w) (w_channelmap w1))) as L2.
  assert (w_channelmap w1 = w_channelmap w /\ w_uc w1 = w_uc w) as [E1 E2] by (by destruct w).
  destruct (negb (strcmpi (h_short ch) (h_name ch) =? 0)); cbn [when modify mret M_ret]; eexists; (split; [reflexivity|]);
    rewrite <- ?E1, <- ?E2; destruct w1; cbn in *; (split; [done|lia]).
Qed.

Lemma loads_reach uc es : Forall is_load es -> forall w, reachable store junk ufuel ju uc w -> w_uc w = uc -> 0 <= uc_count uc < 2 ^ 32 ->
  Z.of_nat (length (w_channelmap w) + 2 * length es) < 2 ^ 31 - 3 ->
  exists w', perform_all es w = Ret w' /\ reachable store junk ufuel ju uc w'.
Proof.
  induction 1 as [|e es He _ IH]; intros w Hr Huc Hc Hl; [by exists w|]. cbn [perform_all length] in *.
  destruct (load_run e w He) as (w' & E & Hu & Hlen). rewrite E. apply IH; [|by rewrite Hu|done|lia].
  eapply reach_step; [exact Hr| |exact E]. destruct He as (sn & n & tag & flag & mu & bc & bi & -> & Hn).
  unfold deliverable, table_room. split_and!; [done|by intros ? ? ? ? ? ? ? [= <- <- <- <- <- <- <-]|done|done|lia|rewrite Huc; lia|rewrite Huc; lia].
Qed.

Lemma rows_load rows : Forall (fun r => Forall no_nul r) rows -> Forall is_load (omap channel_row rows).
Proof.
  induction 1 as [|r rows Hr _ IH]; [constructor|]. cbn [omap list_omap]. unfold channel_row at 1. destruct (bool_decide _) eqn:E; [exact IH|].
  constructor; [|exact IH]. eexists _, _, _, _, _, _, _. split; [reflexivity|]. apply bool_decide_eq_false in E.
  destruct r as [|n r]; [done|]. by inversion Hr.
Qed.
Lemma table_no_nul t sec name keys : Forall (fun r => Forall no_nul r) (default [] (table t sec name keys)).
Proof.
  unfold table. destruct (kid_named sec t) as [n|]; [|constructor]. cbn. apply Forall_map. apply Forall_true. intros k. unfold t_row. apply Forall_map, Forall_true.
  intros a. apply cstr_nz.
Qed.
(** ** The whole start *)

Lemma count_range c c' : LoadFromDB store c = Ret c' -> 0 <= uc_count c < 2 ^ 32 -> 0 <= uc_count c' < 2 ^ 32.
Proof.
  intros E Hc. unfold LoadFromDB in E.
  assert (forall v, 0 <= u32 v < 2 ^ 32) as Hu by (intros v; unfold u32; apply Z.mod_pos_bound; lia).
  destruct (st_GetAll store (b# "users") [b# "MAX(userid)"] [] (uc_db c)).2 as [|[|cell l] ls]; [| |destruct (as_int cell) as [v|]]; cbn in E; try done;
    match type of E with context [snd ?r] => destruct r.2 as [|[|cell2 l2] ls2] end; try done;
    try (injection E as <-; exact Hc); destruct (as_int cell2); try done; injection E as <-; apply Hu.
Qed.

(** A file with a document. *)
Definition file_doc (name : bytes) (doc : wdoc) : Prop :=
  fs name = Some (doc_text doc) /\ Z.of_nat (length (doc_text doc)) < 2 ^ 32 /\ doc_ok doc = true.

Lemma news_run motd news m1 m2 n : fs motd = Some m1 -> fs news = Some m2 -> Z.of_nat (length m1) < 2 ^ 32 -> Z.of_nat (length m2) < 2 ^ 32 ->
  NewsCache_Load fs motd news add n = Ret (parse_news m2 add (SetMotd m1 n)).
Proof.
  intros E1 E2 L1 L2. unfold NewsCache_Load, Open. rewrite E1, (slurp_all m1 false L1). cbn. rewrite E2, (slurp_all m2 false L2). done.
Qed.

Lemma info_run ld : ladder_ok ld -> exists i, LadderInfo_Init compress left_ ld = Ret i.
Proof.
  intros Hl. unfold LadderInfo_Init. destruct (GetMapInfo_ok ld Hl) as [mi ->], (GetMapDesc_ok ld Hl) as [md ->]. by eexists.
Qed.

Context (Hoom : forall n, oom n = false).

(** C8: The daemon comes up.  With well-formed XML files, a configuration that
    names the sqlite engine, readable news, a database that answers the two
    queries and game files for the version table, the start ends without a
    crash: the configuration is that of the file, the server's channels are
    the rows of the channel file in order, its state is one from which all
    theorems about traffic hold, the ladder blocks are built, and the memory of
    the four documents is given back. *)
Theorem startup_serves x K conf check chan lad uc rev m1 m2 :
  let c := cfg_of (doc_tree conf) Cfg_zero in
  let channels := omap channel_row (default [] (table (doc_tree chan) (b# "Channels") (b# "Channel") channel_keys)) in
  tree_ok x K ->
  file_doc (b# "BlitzD.xml") conf -> SetEngine (c_DBEngine c) = true ->
  LoadFromDB store (new_UserCache (open_db (c_DBFile c))) = Ret uc ->
  file_doc (conf_path (c_CfgDir c) (c_CheckRevFile c)) check ->
  CheckRevision_Load mem junkv jres fs (c_GamesDir c) d (map rev_row_of <$> table (doc_tree check) (b# "Revisions") (b# "Revision") rev_keys) (mkCheck [] []) = Ret rev ->
  fs (conf_path (c_CfgDir c) (c_MotdFile c)) = Some m1 -> fs (conf_path (c_CfgDir c) (c_NewsFile c)) = Some m2 ->
  Z.of_nat (length m1) < 2 ^ 32 -> Z.of_nat (length m2) < 2 ^ 32 ->
  file_doc (conf_path (c_CfgDir c) (c_ChannelFile c)) chan -> Z.of_nat (length channels) < 2 ^ 30 - 2 ->
  file_doc (conf_path (c_CfgDir c) (c_LadderMapFile c)) lad ->
  exists w info x', Run_start x = Ret ((c, mkServer w [] [] (parse_news m2 add (SetMotd m1 (mkNews [] []))) rev info []), x') /\
    perform_all channels (start_world uc) = Ret w /\ reachable store junk ufuel ju uc w /\
    LadderInfo_Init compress left_ (LadderData_Load (ladder_of (doc_tree lad)) LadderData_ctor) = Ret info /\
    tree_ok x' K /\ forall q, val x' q = val x q.
Proof.
  intros c channels HT (F0 & L0 & D0) He Hdb (F1 & L1 & D1) Hrev Hm1 Hm2 Lm1 Lm2 (F2 & L2 & D2) Hn (F3 & L3 & D3).
  destruct (Cfg_Load_doc oom Hoom fs _ conf Cfg_zero x K F0 L0 D0 HT) as (x1 & E1 & T1 & V1). fold c in E1.
  destruct (CheckRevision_rows_doc oom Hoom fs c check x1 K F1 L1 D1 T1) as (x2 & E2 & T2 & V2).
  destruct (ChannelCache_Load_doc oom Hoom fs c chan x2 K F2 L2 D2 T2) as (x3 & E3 & T3 & V3). fold channels in E3.
  destruct (LadderData_Load_doc oom Hoom fs c lad LadderData_ctor x3 K F3 L3 D3 T3) as (x4 & E4 & T4 & V4).
  destruct (loads_reach uc channels (rows_load _ (table_no_nul _ _ _ _)) (start_world uc)) as (w & Ew & Hw);
    [constructor|done|eapply count_range; [exact Hdb|cbn; lia]|cbn; lia|].
  destruct (info_run (LadderData_Load (ladder_of (doc_tree lad)) LadderData_ctor)) as [info Ei]; [apply Load_ok, ctor_ok|].
  exists w, info, x4. split_and!; [|done|done|done|done|intros q; by rewrite V4, V3, V2, V1].
  unfold Run_start. rewrite (xbind_eq _ _ _ _ _ E1), He. cbn [negb].
  rewrite (xbind_eq _ _ x1 uc x1) by (unfold lift; by rewrite Hdb). rewrite (xbind_eq _ _ _ _ _ E2).
  rewrite (xbind_eq _ _ x2 rev x2) by (unfold lift; by rewrite Hrev).
  rewrite (xbind_eq _ _ x2 _ x2) by (unfold lift; rewrite (news_run _ _ m1 m2); done).
  rewrite (xbind_eq _ _ _ _ _ E3). rewrite (xbind_eq _ _ x3 w x3) by (unfold lift; by rewrite Ew).
  rewrite (xbind_eq _ _ _ _ _ E4). rewrite (xbind_eq _ _ x4 info x4) by (unfold lift; by rewrite Ei). done.
Qed.

(** C40: No engine, no daemon.  When the configuration does not exist, is empty,
    has no [Data] element, or names an engine other than sqlite, [storage] stays
    NULL and the next statement of the start is a call through it: a crash. *)
Theorem startup_needs_engine x K :
  tree_ok x K ->
  (fs (b# "BlitzD.xml") = None \/ fs (b# "BlitzD.xml") = Some [] \/
   exists conf, file_doc (b# "BlitzD.xml") conf /\ SetEngine (sect (doc_tree conf) (b# "Data") (fun n => t_str n (b# "DbEngine") (b# "sqlite")) []) = false) ->
  Run_start x = Crash.
Proof.
  intros HT [H|[H|(conf & (F0 & L0 & D0) & He)]].
  - unfold Run_start. by rewrite (xbind_eq _ _ _ _ _ (Cfg_Load_none oom fs _ Cfg_zero x (or_introl H))).
  - unfold Run_start. by rewrite (xbind_eq _ _ _ _ _ (Cfg_Load_none oom fs _ Cfg_zero x (or_intror H))).
  - destruct (Cfg_Load_doc oom Hoom fs _ conf Cfg_zero x K F0 L0 D0 HT) as (x1 & E1 & _). unfold Run_start. rewrite (xbind_eq _ _ _ _ _ E1).
    unfold cfg_of. cbn [c_DBEngine]. change (c_DBEngine Cfg_zero) with ([] : bytes). by rewrite He.
Qed.
End startup.

(** ** A start *)

Definition xml_head : list Z := b# "xml version='1.0' ?".
Definition channel_elem (name short gid max : bytes) : wnode :=
  conf_elem (b# "Channel") [(b# "name", name); (b# "short", short); (b# "gameId", gid); (b# "maxUser", max)].
Definition demo_channels : wdoc :=
  DPi [] xml_head
    (WCons [10] (WElem (mkWH (b# "Channels") None)
       (WCons [10; 9] (channel_elem (b# "Warcraft III") (b# "W3") (b# "W3XP") (b# "100"))
       (WCons [10; 9] (channel_elem (b# "Chat") [] [] (b# "0")) WNil)) [10] []) WNil) [10].
Definition demo_revisions : wdoc := DPi [] xml_head (WCons [10] (WEmpty (mkWH (b# "Revisions") None)) WNil) [].
Definition demo_ladder : wdoc :=
  DPi [] xml_head
    (WCons [10] (WElem (mkWH (b# "Mapsets") None)
       (WCons [] (WElem (mkWH (b# "Mapset") (Some (32, [mkWA [] (b# "type") [] [] 34 (map Raw (b# "PG"))], [])))
          (WCons [] (WElem (mkWH (b# "Maps") (Some (32, [mkWA [] (b# "type") [] [] 34 (map Raw (b# "1vs1"))], [])))
             (WCons [] (conf_elem (b# "Map") [(b# "path", b# "EchoIsles.w3x")]) WNil) [] []) WNil) [] []) WNil) [] []) WNil) [].
Definition demo_files : fsys := fun name =>
  if bool_decide (name = b# "BlitzD.xml") then Some (doc_text shipped_conf)
  else if bool_decide (name = b# "config/channel.xml") then Some (doc_text demo_channels)
  else if bool_decide (name = b# "config/checkrev.xml") then Some (doc_text demo_revisions)
  else if bool_decide (name = b# "config/laddermap.xml") then Some (doc_text demo_ladder)
  else if bool_decide (name = b# "config/motd.txt") then Some (b# "Welcome")
  else if bool_decide (name = b# "config/news.txt") then Some []
  else None.
(** A database without accounts. *)
Definition no_accounts : Storage_ops unit :=
  mkStorage unit (fun _ _ s => (true, s)) (fun s => s) (fun s => s) (fun s => s) (fun _ _ _ s => Some (true, s))
    (fun _ _ r s => (true, r ++ [[DInt 0]])) (fun _ _ _ r s => (true, r)) (fun _ s => s) (fun _ _ s => s).

Lemma startup_serves_witness : exists w info x',
  Run_start (fun _ => false) demo_files no_accounts (fun _ => tt) (fun _ => []) 0 (fun _ => 0) [] [] [] (mkDraws 1 2 3 0 1 2 0) (fun _ _ n => n)
    (fun _ _ => None) (fun b => b) (mkXml ∅ 0 []) =
    Ret ((cfg_of (doc_tree shipped_conf) Cfg_zero, mkServer w [] [] (mkNews [] (b# "Welcome")) (mkCheck (draw_formula (mkDraws 1 2 3 0 1 2 0)) []) info []), x') /\
  perform_all no_accounts (fun _ => []) 0 (fun _ => 0)
    [ELoadChannel (b# "W3") (b# "Warcraft III") 0x57335850 1 100 false false; ELoadChannel (b# "Chat") (b# "Chat") 0 1 (2 ^ 32 - 1) false false]
    (start_world (mkUC ∅ 0 1 0 [] [] tt)) = Ret w /\
  reachable no_accounts (fun _ => []) 0 (fun _ => 0) (mkUC ∅ 0 1 0 [] [] tt) w.
Proof.
  destruct (startup_serves (fun _ => false) demo_files no_accounts (fun _ => tt) (fun _ => []) 0 (fun _ => 0) [] [] [] (mkDraws 1 2 3 0 1 2 0) (fun _ _ n => n)
    (fun _ _ => None) (fun b => b) (fun _ => eq_refl) (mkXml ∅ 0 []) ∅ shipped_conf demo_revisions demo_channels demo_ladder
    (mkUC ∅ 0 1 0 [] [] tt) (mkCheck (draw_formula (mkDraws 1 2 3 0 1 2 0)) []) (b# "Welcome") [] (tree_ok_nil 0 []))
    as (w & info & x' & E & Hw & Hr & _);
    [unfold file_doc; split_and!; vm_compute; reflexivity|vm_compute; reflexivity|vm_compute; reflexivity|unfold file_doc; split_and!; vm_compute; reflexivity
    |vm_compute; reflexivity|vm_compute; reflexivity|vm_compute; reflexivity|vm_compute; reflexivity|vm_compute; reflexivity
    |unfold file_doc; split_and!; vm_compute; reflexivity|vm_compute; reflexivity|unfold file_doc; split_and!; vm_compute; reflexivity|].
  exists w, info, x'. split; [exact E|]. split; [|exact Hr]. rewrite <- Hw. vm_compute. reflexivity.
Defined.
Lemma startup_needs_engine_witness :
  Run_start (fun _ => false) (fun _ => None) no_accounts (fun _ => tt) (fun _ => []) 0 (fun _ => 0) [] [] [] (mkDraws 1 2 3 0 1 2 0) (fun _ _ n => n)
    (fun _ _ => None) (fun b => b) (mkXml ∅ 0 []) = Crash.
Proof. apply (startup_needs_engine _ _ _ _ _ _ _ _ _ _ _ _ _ _ (fun _ => eq_refl) (mkXml ∅ 0 []) ∅ (tree_ok_nil 0 [])). by left. Defined.
