(* ===== verification/Dispatch.v ===== *)
(** * Dispatch: from the bytes of a connection to the handlers

    [PluginManager] (interface/PluginManager.cpp) keeps a table of handlers by
    operation code; the suites (blitzd/plugins) fill one each.  [receive] is
    [Client::OnRecv] with the suites of the server: the composition of the
    input loops, the tables and the handlers. *)

From S2P Require Import Prelude Words Stream OMap CStr ShaCtx Sha1 Srp3 Storage UserItem UserCache Framing Packets World Chat Commands Handlers Files Time Caches Strtol Revision Ladder Server.

(** ** PluginManager *)

Section manager.
Context {P : Type}.
(** [_plugins[65536]]: the entries that are not NULL. *)
Notation PluginManager := (gmap Z P).

(** [ushort op < 65536] always holds. *)
Definition Load (m : PluginManager) (e : Z * P) : PluginManager := <[u16 e.1 := e.2]> m.
(** [PLUGIN_SUITE_BEGIN ... PLUGIN_ADD ... PLUGIN_SUITE_END]. *)
Definition suite_of (l : list (Z * P)) : PluginManager := foldl Load ∅ l.
Definition find_plugin (m : PluginManager) (op : Z) : option P := m !! u16 op.
End manager.

(** What the handlers take from outside; each may differ from state to state. *)
Record outside S := mkOutside {
  o_ju : Server S -> nat -> Z;
  o_jb : Server S -> nat -> nat -> bytes;
  o_fs : Server S -> fsys;
  o_stat : Server S -> bytes -> option Z;
  o_now : Server S -> Z;
  o_tick : Server S -> Z;
  o_random : Server S -> Z;
  o_peer : Server S -> nat -> option Z
}.
Arguments mkOutside {S}. Arguments o_ju {S}. Arguments o_jb {S}. Arguments o_fs {S}. Arguments o_stat {S}.
Arguments o_now {S}. Arguments o_tick {S}. Arguments o_random {S}. Arguments o_peer {S}.

Section dispatch.
Context {S : Type} (store : Storage_ops S) (junk : nat -> bytes) (ufuel : nat).
Context (E : outside S) (dir stack_block : bytes) (room : Z -> bool) (G : Gmp).
Abbreviation N := (N S).
Abbreviation M := (M S).
(** [IPlugin::Process(TcpClient&, Stream&)]. *)
Abbreviation plugin := (nat -> Stream -> N bool).

(** A handler of the world with the uninitialised memory of its call. *)
Definition world_plugin (h : (nat -> Z) -> (nat -> nat -> bytes) -> nat -> Stream -> M bool) : plugin :=
  fun p in_ s => onW (h (o_ju E s) (o_jb E s) p in_) s.
Definition server_plugin (h : (nat -> Z) -> nat -> Stream -> N bool) : plugin := fun p in_ s => h (o_ju E s) p in_ s.

(** ** The suites, in the order of the sources *)

Definition pl_AuthInfo : Z * plugin :=
  (0x50FF, fun p in_ s => AuthInfo_Process (o_ju E s) (o_fs E s) (o_stat E s) dir (o_random E s) (o_tick E s) p in_ s).
Definition pl_AuthCheck : Z * plugin := (0x51FF, server_plugin AuthCheck_Process).
Definition pl_AccountCreate : Z * plugin :=
  (0x52FF, world_plugin (fun ju jb => AccountCreate_Process store junk ufuel jb)).
Definition pl_AccountChange : Z * plugin :=
  (0x55FF, fun p in_ s => onW (AccountChange_Process store junk ufuel (o_jb E s) G stack_block (o_random E s) p in_) s).
Definition pl_AccountChangeProof : Z * plugin := (0x56FF, world_plugin (fun ju jb => AccountChangeProof_Process jb)).
Definition pl_AuthLogon : Z * plugin :=
  (0x53FF, fun p in_ s => onW (AuthLogon_Process store junk ufuel (o_jb E s) G stack_block (o_random E s) p in_) s).
Definition pl_AuthLogonProof : Z * plugin := (0x54FF, world_plugin (fun ju jb => AuthLogonProof_Process jb)).
Definition pl_ChangeEmail : Z * plugin := (0x5BFF, world_plugin (fun ju jb => ChangeEmail_Process store junk ufuel)).
Definition pl_OldAccountChange : Z * plugin :=
  (0x31FF, world_plugin (fun ju jb => OldAccountChange_Process store junk ufuel jb)).
Definition pl_OldAccountCreate2 : Z * plugin :=
  (0x3DFF, world_plugin (fun ju jb => OldAccountCreate2_Process store junk ufuel jb)).
Definition pl_OldAuthLogon2 : Z * plugin :=
  (0x3AFF, world_plugin (fun ju jb => OldAuthLogon2_Process store junk ufuel jb)).
Definition pl_Ping : Z * plugin := (0x25FF, fun p in_ s => onW (Ping_Process (o_ju E s) (o_tick E s) p in_) s).
Definition pl_QueryFileInfo : Z * plugin :=
  (0x33FF, fun p in_ s => QueryFileInfo_Process (o_ju E s) (o_fs E s) (o_stat E s) dir p in_ s).
Definition pl_QueryIcon : Z * plugin := (0x2DFF, fun p in_ s => QueryIcon_Process (o_fs E s) (o_stat E s) dir p in_ s).
Definition pl_ReadUserData : Z * plugin :=
  (0x26FF, server_plugin (fun ju => ReadUserData_Process store junk ufuel ju room)).
Definition pl_ResetPassword : Z * plugin := (0x5AFF, ResetPassword_Process).
Definition pl_SetEmail : Z * plugin := (0x59FF, world_plugin (fun ju jb => SetEmail_Process)).
Definition pl_StopAdv : Z * plugin := (0x02FF, world_plugin (fun ju jb p in_ => StopAdv_Process p)).
Definition pl_UDPResponse : Z * plugin := (0x14FF, world_plugin (fun ju jb p in_ => UDPResponse_Process p)).

Definition PluginBNet : gmap Z plugin := suite_of
  [pl_AuthInfo; pl_AuthCheck; pl_AccountCreate; pl_AccountChange; pl_AccountChangeProof; pl_AuthLogon;
   pl_AuthLogonProof; pl_ChangeEmail; pl_OldAccountChange; pl_OldAccountCreate2; pl_OldAuthLogon2; pl_Ping;
   pl_QueryFileInfo; pl_QueryIcon; pl_ReadUserData; pl_ResetPassword; pl_SetEmail; pl_StopAdv; pl_UDPResponse].

Definition pl_CheckAd : Z * plugin := (0x15FF, CheckAd_Process).
Definition pl_ClickAd : Z * plugin := (0x16FF, ClickAd_Process).
Definition pl_EnterChat : Z * plugin := (0x0AFF, world_plugin (fun ju jb => EnterChat_Process)).
Definition pl_FriendsList : Z * plugin := (0x65FF, world_plugin (fun ju jb p in_ => FriendsList_Process p)).
Definition pl_FriendUpdate : Z * plugin := (0x66FF, world_plugin (fun ju jb => FriendUpdate_Process ju)).
Definition pl_GameResult : Z * plugin := (0x2CFF, server_plugin GameResult_Process).
Definition pl_GetAdvListEx : Z * plugin := (0x09FF, server_plugin GetAdvListEx_Process).
Definition pl_JoinChannel : Z * plugin := (0x0CFF, world_plugin (fun ju jb => JoinChannel_Process ju)).
Definition pl_LeaveChat : Z * plugin := (0x10FF, world_plugin (fun ju jb p in_ => LeaveChat_Process p)).
Definition pl_LeaveGame : Z * plugin := (0x1FFF, world_plugin (fun ju jb p in_ => LeaveGame_Process p)).
Definition pl_ListChannel : Z * plugin := (0x0BFF, ListChannel_Process).
Definition pl_NetGamePort : Z * plugin := (0x45FF, world_plugin (fun ju jb => NetGamePort_Process ju)).
Definition pl_NotifyJoin : Z * plugin := (0x22FF, world_plugin (fun ju jb => NotifyJoin_Process ju)).
Definition pl_Null : Z * plugin := (0x00FF, world_plugin (fun ju jb p in_ => Null_Process p)).
Definition pl_Profile : Z * plugin := (0x35FF, server_plugin (fun ju => Profile_Process store junk ufuel ju)).
Definition pl_QueryAdUrl : Z * plugin := (0x41FF, QueryAdUrl_Process).
Definition pl_QueryNews : Z * plugin := (0x46FF, fun p in_ s => QueryNews_Process (o_ju E s) (o_now E s) p in_ s).
Definition pl_QueryRealms2 : Z * plugin := (0x40FF, QueryRealms2_Process).
Definition pl_QueryWar3Info : Z * plugin := (0x44FF, server_plugin QueryWar3Info_Process).
Definition pl_RealmLogonEx : Z * plugin := (0x3EFF, server_plugin (fun ju => RealmLogonEx_Process ju stack_block)).
Definition pl_SendChat : Z * plugin := (0x0EFF, world_plugin (fun ju jb => SendChat_Process store junk ufuel)).
Definition pl_StartAdvEx3 : Z * plugin := (0x1CFF, world_plugin (fun ju jb => StartAdvEx3_Process ju)).
Definition pl_SwitchGameID : Z * plugin := (0x5CFF, world_plugin (fun ju jb => SwitchGameID_Process ju)).
Definition pl_WriteUserData : Z * plugin :=
  (0x27FF, server_plugin (fun ju => WriteUserData_Process store junk ufuel ju room)).

Definition loggedin_plugins : list (Z * plugin) :=
  [pl_CheckAd; pl_ClickAd; pl_EnterChat; pl_FriendsList; pl_FriendUpdate; pl_GameResult; pl_GetAdvListEx;
   pl_JoinChannel; pl_LeaveChat; pl_LeaveGame; pl_ListChannel; pl_NetGamePort; pl_NotifyJoin; pl_Null; pl_Ping;
   pl_Profile; pl_QueryAdUrl; pl_QueryFileInfo; pl_QueryIcon; pl_QueryNews; pl_QueryRealms2; pl_QueryWar3Info;
   pl_ReadUserData; pl_RealmLogonEx; pl_SendChat; pl_SetEmail; pl_StartAdvEx3; pl_StopAdv; pl_SwitchGameID;
   pl_UDPResponse; pl_WriteUserData].
Definition PluginBNetLoggedIn : gmap Z plugin := suite_of loggedin_plugins.

Definition pl_FileReq : Z * plugin :=
  (0x0100, fun p in_ s => FileReq_Process (o_ju E s) (o_fs E s) (o_stat E s) dir p in_ s).
Definition pl_TokenReq : Z * plugin := (0x0200, TokenReq_Process).
Definition pl_RawReq : Z * plugin :=
  (0, fun p in_ s => RawReq_Process (o_ju E s) (o_fs E s) (o_stat E s) dir p in_ s).
Definition PluginFile : gmap Z plugin := suite_of [pl_FileReq; pl_TokenReq; pl_RawReq].

Definition pl_InitBnet : Z * plugin := (0x01, InitBnet_Process).
Definition pl_InitFile : Z * plugin := (0x02, InitFile_Process).
Definition pl_InitBaal : Z * plugin := (0x65, InitBaal_Process).
Definition PluginInit : gmap Z plugin := suite_of [pl_InitBnet; pl_InitFile; pl_InitBaal].

Definition pl_RealmAuth : Z * plugin :=
  (0x02, fun p in_ s => RealmAuth_Process (o_ju E s) (o_peer E s) p in_ s).
Definition pl_UserCheck : Z * plugin :=
  (0x10, fun p in_ s => UserCheck_Process (o_ju E s) (o_jb E s) stack_block p in_ s).
Definition PluginBaal : gmap Z plugin := suite_of [pl_RealmAuth; pl_UserCheck].

(** ** Processing *)

(** [PluginManager::Process(TcpClient&, ushort, Stream&)]. *)
Definition Process (m : gmap Z plugin) (p : nat) (op : Z) (in_ : Stream) : N bool :=
  match find_plugin m op with Some h => h p in_ | None => mret false end.

(** The suites as the input loops call them: the answer is not looked at; a
    crash ends the process. *)
Definition drive (m : gmap Z plugin) (p : nat) (op : Z) (in_ : Stream) (w : result (Server S)) : result (Server S) :=
  s ← w; '(_, s) ← Process m p op in_ s; Ret s.

Definition stage_at (w : result (Server S)) (p : nat) : Stage_t :=
  match w with
  | Ret s => match w_clients (sv_world s) !! p with Some c => c_stage c | None => CONNECTED end
  | _ => CONNECTED
  end.

(** [OnRecv] of the connection [p] on the bytes in its buffer; memory
    allocation succeeds. *)
Definition receive (p : nat) (sbuf : bytes) (w : result (Server S)) : bytes * result (Server S) :=
  OnRecv (fun _ => true) (fun _ => []) (drive PluginInit p) (drive PluginBNet p) (drive PluginBNetLoggedIn p)
    (drive PluginFile p) (drive PluginBaal p) (fun w => stage_at w p) sbuf w.

(** Bytes that arrive in chunks: each is appended to what is left. *)
Fixpoint receive_all (p : nat) (sbuf : bytes) (chunks : list bytes) (w : result (Server S)) : bytes * result (Server S) :=
  match chunks with
  | [] => (sbuf, w)
  | c :: chunks => let '(sbuf, w) := receive p (sbuf ++ c) w in receive_all p sbuf chunks w
  end.
End dispatch.
