(* ===== verification/StageInv.v ===== *)
(** * StageInv: the handlers of a logged-in connection change no stage

    Every handler of [PluginBNetLoggedIn] leaves the stage of every connection
    as it is.  The proof goes operation by operation; the tactic [stage] takes a
    handler apart. *)

From S2P Require Import Prelude Words Stream OMap CStr ShaCtx Sha1 Srp3 Storage UserItem UserCache Framing Packets World Chat Commands Handlers Files Time Caches Strtol Revision Ladder Server Dispatch.

Create HintDb stages.

Section ops.
Context {S : Type}.

Definition stage_of (w : World S) (p : nat) : option Stage_t := c_stage <$> w_clients w !! p.
(** The operation keeps the stages, when it returns. *)
Definition kstage {A} (m : M S A) : Prop := forall w a w', m w = Ret (a, w') -> forall p, stage_of w' p = stage_of w p.

Lemma ks_ret {A} (a : A) : kstage (mret a).
Proof. by intros w b w' [= <- <-]. Qed.
Lemma ks_bind {A B} (m : M S A) (f : A -> M S B) : kstage m -> (forall a, kstage (f a)) -> kstage (mbind f m).
Proof.
  intros Hm Hf w b w' E p. unfold mbind, M_bind in E. destruct (m w) as [[a w1]| |] eqn:E1; try done.
  rewrite (Hf a w1 b w' E p). by apply (Hm w a w1).
Qed.
Lemma ks_get {A} (f : World S -> A) : kstage (get f).
Proof. by intros w b w' [= <- <-]. Qed.
Lemma ks_crash {A} : kstage (crash : M S A).
Proof. by intros w b w'. Qed.
Lemma ks_client p : kstage (client p).
Proof. intros w b w'. unfold client. case_match; [|done]. by intros [= <- <-]. Qed.
Lemma ks_channel p : kstage (channel p).
Proof. intros w b w'. unfold channel. case_match; [|done]. by intros [= <- <-]. Qed.
Lemma ks_game p : kstage (game p).
Proof. intros w b w'. unfold game. case_match; [|done]. by intros [= <- <-]. Qed.
Lemma ks_account p : kstage (account p).
Proof. intros w b w'. unfold account. case_match; [|done]. by intros [= <- <-]. Qed.
Lemma ks_modify (f : World S -> World S) : (forall w, w_clients (f w) = w_clients w) -> kstage (modify f).
Proof. intros Hf w b w' [= <- <-] p. unfold stage_of. by rewrite Hf. Qed.
Lemma ks_edit_client q f : (forall c, c_stage (f c) = c_stage c) -> kstage (edit_client q f : M S unit).
Proof.
  intros Hf w b w' E p. unfold edit_client, mbind, M_bind, client in E.
  destruct (w_clients w !! q) as [c|] eqn:Ec; [|done]. injection E as _ <-. unfold stage_of. destruct w; cbn in *.
  destruct (decide (p = q)) as [->|Ne]; [by rewrite lookup_insert_eq, Ec; cbn; rewrite Hf|by rewrite lookup_insert_ne].
Qed.
Lemma ks_with_users {A} (f : UC S -> result (A * UC S)) : kstage (with_users f).
Proof. intros w b w' E p. unfold with_users in E. case_match; [|done..]. case_match. injection E as _ <-. by destruct w. Qed.
Lemma ks_when (b : bool) (m : M S unit) : kstage m -> kstage (when b m).
Proof. destruct b; [done|]. intros _. apply ks_ret. Qed.
Lemma ks_for_each {A} (l : list A) (f : A -> M S unit) : (forall a, kstage (f a)) -> kstage (for_each l f).
Proof. intros Hf. induction l as [|a l IH]; cbn; [apply ks_ret|]. apply ks_bind; auto. Qed.
Lemma ks_lift {A} (r : result A) : kstage (lift r : M S A).
Proof. intros w b w'. unfold lift. case_match; [|done..]. by intros [= <- <-]. Qed.
End ops.

(** Taking a handler apart: the branches of its tests, its binds, its calls. *)
Ltac stage :=
  repeat (cbv beta zeta;
    first
      [ solve [auto 2 with stages nocore]
      | apply ks_edit_client; intros []; reflexivity
      | apply ks_bind; [|intros ?]
      | apply ks_ret | apply ks_get | apply ks_crash | apply ks_client | apply ks_channel | apply ks_game
      | apply ks_account | apply ks_with_users | apply ks_lift
      | apply ks_modify; intros []; reflexivity
      | apply ks_when
      | apply ks_for_each; intros ?
      | match goal with
        | |- kstage (match ?x with _ => _ end) => destruct x
        | |- kstage (let '_ := ?x in _) => destruct x
        end ]).

Section chat.
Context {S : Type} (store : Storage_ops S) (junk : nat -> bytes) (ufuel : nat).
Implicit Types (p : nat).

Lemma ks_edit_channel h f : kstage (S := S) (edit_channel h f).
Proof. unfold edit_channel. stage. Qed.
Lemma ks_edit_game g f : kstage (S := S) (edit_game g f).
Proof. unfold edit_game. stage. Qed.
Lemma ks_edit_account u f : kstage (S := S) (edit_account u f).
Proof. unfold edit_account. stage. Qed.
Lemma ks_send p b : kstage (S := S) (send p b).
Proof. unfold send. stage. Qed.
Hint Resolve ks_edit_channel ks_edit_game ks_edit_account ks_send : stages.
Lemma ks_build_and_send p b : kstage (S := S) (build_and_send p b).
Proof. unfold build_and_send. stage. Qed.
Lemma ks_send_bnet p cmd pk : kstage (S := S) (send_bnet p cmd pk).
Proof. apply ks_build_and_send. Qed.
Lemma ks_GetUsername p : kstage (S := S) (GetUsername p).
Proof. unfold GetUsername. stage. Qed.
Lemma ks_GetFlag p : kstage (S := S) (Client_GetFlag p).
Proof. unfold Client_GetFlag. stage. Qed.
Hint Resolve ks_build_and_send ks_send_bnet ks_GetUsername ks_GetFlag : stages.
Lemma ks_BuildMessagePacket cl type msg : kstage (S := S) (BuildMessagePacket cl type msg).
Proof. unfold BuildMessagePacket. stage. Qed.
Hint Resolve ks_BuildMessagePacket : stages.
Lemma ks_Send a b t m : kstage (S := S) (Send a b t m).
Proof. unfold Send. stage. Qed.
Lemma ks_SendSet l c t m i : kstage (S := S) (SendSet l c t m i).
Proof. unfold SendSet, SendToSet. stage. Qed.
Hint Resolve ks_Send ks_SendSet : stages.
Lemma ks_SetGame p g : kstage (S := S) (Client_SetGame p g).
Proof. unfold Client_SetGame. stage. Qed.
Lemma ks_SetChannel p g : kstage (S := S) (Client_SetChannel p g).
Proof. unfold Client_SetChannel. stage. Qed.
Hint Resolve ks_SetGame ks_SetChannel : stages.
Lemma ks_Game_delete g : kstage (S := S) (Game_delete g).
Proof. unfold Game_delete. stage. Qed.
Hint Resolve ks_Game_delete : stages.
Lemma ks_GameCache_Remove n : kstage (S := S) (GameCache_Remove n).
Proof. unfold GameCache_Remove. stage. Qed.
Lemma ks_GameCache_Add j n : kstage (S := S) (GameCache_Add j n).
Proof. unfold GameCache_Add. stage. Qed.
Lemma ks_GameCache_index n : kstage (S := S) (GameCache_index n).
Proof. apply ks_get. Qed.
Hint Resolve ks_GameCache_Remove ks_GameCache_Add ks_GameCache_index : stages.
Lemma ks_Game_Leave g p : kstage (S := S) (Game_Leave g p).
Proof. unfold Game_Leave. stage. Qed.
Lemma ks_Channel_Leave h p : kstage (S := S) (Channel_Leave h p).
Proof. unfold Channel_Leave. stage. Qed.
Hint Resolve ks_Game_Leave ks_Channel_Leave : stages.
Lemma ks_leave_game p : kstage (S := S) (leave_game p).
Proof. unfold leave_game. stage. Qed.
Lemma ks_leave_channel p : kstage (S := S) (leave_channel p).
Proof. unfold leave_channel. stage. Qed.
Hint Resolve ks_leave_game ks_leave_channel : stages.
Lemma ks_Channel_Join h p : kstage (S := S) (Channel_Join h p).
Proof. unfold Channel_Join. stage. Qed.
Lemma ks_Channel_Talk h p m : kstage (S := S) (Channel_Talk h p m).
Proof. unfold Channel_Talk. stage. Qed.
Lemma ks_Channel_Emote h p m : kstage (S := S) (Channel_Emote h p m).
Proof. unfold Channel_Emote. stage. Qed.
Lemma ks_Game_Join g p : kstage (S := S) (Game_Join g p).
Proof. unfold Game_Join. stage. Qed.
Lemma ks_pool_name n : kstage (S := S) (pool_name n).
Proof. apply ks_get. Qed.
Hint Resolve ks_Channel_Join ks_Channel_Talk ks_Channel_Emote ks_Game_Join ks_pool_name : stages.
Lemma ks_FindOnlineUser n c a : kstage (S := S) (FindOnlineUser n c a).
Proof. unfold FindOnlineUser. stage. Qed.
Hint Resolve ks_FindOnlineUser : stages.
Lemma ks_SendWhisper n c m a : kstage (S := S) (SendWhisper n c m a).
Proof. unfold SendWhisper. stage. Qed.
Lemma ks_alloc_Channel ch : kstage (S := S) (alloc_Channel ch).
Proof. unfold alloc_Channel. stage. Qed.
Hint Resolve ks_SendWhisper ks_alloc_Channel : stages.
Lemma ks_Spawn h n : kstage (S := S) (Spawn h n).
Proof. unfold Spawn. stage. Qed.
Lemma ks_ChannelCache_index n : kstage (S := S) (ChannelCache_index n).
Proof. apply ks_get. Qed.
Lemma ks_ChannelCache_tag n : kstage (S := S) (ChannelCache_tag n).
Proof. unfold ChannelCache_tag. stage. Qed.
Lemma ks_ChannelCache_Add h : kstage (S := S) (ChannelCache_Add h).
Proof. unfold ChannelCache_Add. stage. Qed.
Hint Resolve ks_Spawn ks_ChannelCache_index ks_ChannelCache_tag ks_ChannelCache_Add : stages.
Lemma ks_ChannelCache_New a b c d e f g : kstage (S := S) (ChannelCache_New a b c d e f g).
Proof. unfold ChannelCache_New. stage. Qed.
Lemma ks_ensure_index f h n i : kstage (S := S) (ensure_index f h n i).
Proof. revert i. induction f as [|f IH]; intros i; cbn [ensure_index]; [by intros w a w'|]. stage. Qed.
Hint Resolve ks_ChannelCache_New ks_ensure_index : stages.
Lemma ks_Ensure f n t c : kstage (S := S) (Ensure f n t c).
Proof. unfold Ensure. stage. Qed.
Hint Resolve ks_Ensure : stages.
Lemma ks_DelFlag p f : kstage (S := S) (Client_DelFlag p f).
Proof. unfold Client_DelFlag. stage. Qed.
Lemma ks_AddFlag p f : kstage (S := S) (Client_AddFlag p f).
Proof. unfold Client_AddFlag. stage. Qed.
Hint Resolve ks_DelFlag ks_AddFlag : stages.

(** ** Commands *)

Lemma ks_Info p m : kstage (S := S) (Info p m).
Proof. unfold Info. stage. Qed.
Hint Resolve ks_Info : stages.
Lemma ks_find_user n : kstage (find_user store junk ufuel n).
Proof. apply ks_with_users. Qed.
Lemma ks_friend_place fr c : kstage (S := S) (friend_place fr c).
Proof. unfold friend_place. stage. Qed.
Lemma ks_friend_client cl n : kstage (S := S) (friend_client cl n).
Proof. unfold friend_client. stage. Qed.
Hint Resolve ks_find_user ks_friend_place ks_friend_client : stages.
Lemma ks_FriendUpdate_Pack i cl fr : kstage (S := S) (BNetFriendUpdate_Pack i cl fr).
Proof. unfold BNetFriendUpdate_Pack. stage. Qed.
Lemma ks_FriendAdd_Pack cl fr : kstage (S := S) (BNetFriendAdd_Pack cl fr).
Proof. unfold BNetFriendAdd_Pack. stage. Qed.
Lemma ks_friends_entries l st : kstage (S := S) (friends_entries l st).
Proof. revert st. induction l as [|f l IH]; intros st; cbn [friends_entries]; stage; apply IH. Qed.
Hint Resolve ks_FriendUpdate_Pack ks_FriendAdd_Pack ks_friends_entries : stages.
Lemma ks_FriendsList_Pack cl : kstage (S := S) (BNetFriendsList_Pack cl).
Proof. unfold BNetFriendsList_Pack. stage. Qed.
Lemma ks_friend_clients m l t : kstage (S := S) (friend_clients m l t).
Proof. revert t. induction l as [|f l IH]; intros t; cbn [friend_clients]; stage; apply IH. Qed.
Hint Resolve ks_FriendsList_Pack ks_friend_clients : stages.
Lemma ks_FriendWhisper u f t m : kstage (S := S) (FriendWhisper u f t m).
Proof. unfold FriendWhisper. stage. Qed.
Lemma ks_FriendSendInfo u t m : kstage (S := S) (FriendSendInfo u t m).
Proof. unfold FriendSendInfo. stage. Qed.
Lemma ks_friend_help p : kstage (S := S) (friend_help p).
Proof. unfold friend_help. stage. Qed.
Lemma ks_friend_text fr n : kstage (S := S) (friend_text fr n).
Proof. unfold friend_text. stage. Qed.
Hint Resolve ks_FriendWhisper ks_FriendSendInfo ks_friend_help ks_friend_text : stages.
Lemma ks_friend_line p fr : kstage (S := S) (friend_line p fr).
Proof. unfold friend_line. stage. Qed.
Hint Resolve ks_friend_line : stages.
Lemma ks_friend_list p : kstage (S := S) (friend_list p).
Proof. unfold friend_list. stage. Qed.
Lemma ks_friend_add p a : kstage (friend_add store junk ufuel p a).
Proof. unfold friend_add. stage. Qed.
Lemma ks_with_friend p a k : (forall x y z t, kstage (k x y z t)) -> kstage (with_friend store junk ufuel p a k).
Proof. intros Hk. unfold with_friend. stage. Qed.
Hint Resolve ks_friend_list ks_friend_add : stages.
Lemma ks_Friend_Process p a r : kstage (Friend_Process store junk ufuel p a r).
Proof.
  unfold Friend_Process, friend_remove, friend_demote, friend_promote.
  repeat (first [apply ks_with_friend; intros|progress stage]).
Qed.
Lemma ks_Ensure_any n t c : kstage (S := S) (Ensure_any n t c).
Proof. unfold Ensure_any. stage. Qed.
Hint Resolve ks_Friend_Process ks_Ensure_any : stages.
Lemma ks_Command_Process p t : kstage (Command_Process store junk ufuel p t).
Proof.
  unfold Command_Process, Away_Process, DND_Process, Channels_Process, Join_Process, Reply_Process,
    Whisper_Process, Status_Process, WhoIs_Process. stage.
Qed.
Hint Resolve ks_Command_Process : stages.

(** ** Handlers of the world *)

Context (ju : nat -> Z).
Lemma ks_JoinChannel p i : kstage (S := S) (JoinChannel_Process ju p i).
Proof. unfold JoinChannel_Process. stage. Qed.
Lemma ks_SendChat p i : kstage (SendChat_Process store junk ufuel p i).
Proof. unfold SendChat_Process. stage. Qed.
Lemma ks_NotifyJoin p i : kstage (S := S) (NotifyJoin_Process ju p i).
Proof. unfold NotifyJoin_Process. stage. Qed.
Lemma ks_StartAdvEx3 p i : kstage (S := S) (StartAdvEx3_Process ju p i).
Proof. unfold StartAdvEx3_Process. stage. Qed.
Lemma ks_StopAdv p : kstage (S := S) (StopAdv_Process p).
Proof. unfold StopAdv_Process. stage. Qed.
Lemma ks_EnterChat p i : kstage (S := S) (EnterChat_Process p i).
Proof. unfold EnterChat_Process. stage. Qed.
Lemma ks_FriendsList p : kstage (S := S) (FriendsList_Process p).
Proof. unfold FriendsList_Process. stage. Qed.
Lemma ks_FriendUpdate p i : kstage (S := S) (FriendUpdate_Process ju p i).
Proof. unfold FriendUpdate_Process. stage. Qed.
Lemma ks_SetEmail p i : kstage (S := S) (SetEmail_Process p i).
Proof. unfold SetEmail_Process. stage. Qed.
Lemma ks_Ping t p i : kstage (S := S) (Ping_Process ju t p i).
Proof.
  unfold Ping_Process. destruct (get_u32 (ju 0) i). apply ks_bind; [|intros; apply ks_ret].
  apply ks_edit_client. intros c. unfold CheckEnd. repeat case_match; by destruct c.
Qed.
Lemma ks_get_data u k : kstage (S := S) (get_data u k).
Proof. unfold get_data. stage. Qed.
Hint Resolve ks_get_data : stages.
Lemma ks_named_account p n : kstage (named_account store junk ufuel p n).
Proof. unfold named_account. stage. Qed.
Lemma ks_read_row u l : kstage (S := S) (read_row u l).
Proof. induction l; cbn [read_row]; stage. Qed.
Hint Resolve ks_named_account ks_read_row : stages.
Lemma ks_read_rows p n k : kstage (read_rows store junk ufuel p n k).
Proof. induction n; cbn [read_rows]; stage. Qed.
Lemma ks_write_row u ki k v : kstage (S := S) (write_row u ki k v).
Proof. revert v. induction k; intros [|? v]; cbn [write_row]; stage. Qed.
Hint Resolve ks_read_rows ks_write_row : stages.
Lemma ks_write_rows p i n k v : kstage (write_rows store junk ufuel p i n k v).
Proof. revert i. induction n; intros i; cbn [write_rows]; stage. Qed.
Lemma ks_adv_loop a b c d l n st : kstage (S := S) (adv_loop a b c d l n st).
Proof. revert n st. induction l as [|[]]; intros n0 st; cbn [adv_loop]; stage. Qed.
Hint Resolve ks_write_rows ks_adv_loop : stages.
Lemma ks_AdvListEx a b c d n st : kstage (S := S) (BNetAdvListEx_body a b c d n st).
Proof. unfold BNetAdvListEx_body. stage. Qed.
Lemma ks_list_channels m l st : kstage (S := S) (list_channels m l st).
Proof. revert st. induction l; intros st; cbn [list_channels]; stage. Qed.
Hint Resolve ks_AdvListEx ks_list_channels : stages.
Lemma ks_ListChannel p st : kstage (S := S) (BNetListChannel_body p st).
Proof. unfold BNetListChannel_body. stage. Qed.
End chat.

#[export] Hint Resolve ks_JoinChannel ks_SendChat ks_NotifyJoin ks_StartAdvEx3 ks_StopAdv ks_EnterChat ks_FriendsList
  ks_FriendUpdate ks_SetEmail ks_Ping ks_get_data ks_read_rows ks_write_rows ks_AdvListEx ks_ListChannel ks_leave_game
  ks_leave_channel ks_send_bnet ks_send ks_find_user ks_DelFlag : stages.

(** ** Handlers of the server *)

Section server.
Context {S : Type}.

Definition nstage {A} (m : N S A) : Prop :=
  forall s a s', m s = Ret (a, s') -> forall p, stage_of (sv_world s') p = stage_of (sv_world s) p.

Lemma ns_ret {A} (a : A) : nstage (mret a).
Proof. by intros w b w' [= <- <-]. Qed.
Lemma ns_bind {A B} (m : N S A) (f : A -> N S B) : nstage m -> (forall a, nstage (f a)) -> nstage (mbind f m).
Proof.
  intros Hm Hf s b s' E p. unfold mbind, N_bind in E. destruct (m s) as [[a s1]| |] eqn:E1; try done.
  rewrite (Hf a s1 b s' E p). by apply (Hm s a s1).
Qed.
Lemma ns_ask {A} (f : Server S -> A) : nstage (ask f).
Proof. by intros w b w' [= <- <-]. Qed.
Lemma ns_crash {A} : nstage (ncrash : N S A).
Proof. by intros w b w'. Qed.
Lemma ns_onW {A} (m : M S A) : kstage m -> nstage (onW m).
Proof.
  intros Hm s a s' E p. unfold onW in E. destruct (m (sv_world s)) as [[b w]| |] eqn:Em; try done.
  injection E as <- <-. by apply (Hm _ _ _ Em).
Qed.
Lemma ns_file_at fs stat dir fn : nstage (file_at fs stat dir fn).
Proof. intros s a s' E p. unfold file_at in E. case_match; try done. case_match. by injection E as <- <-. Qed.
(** What the handler takes from outside may depend on the state. *)
Lemma ns_outside {A O} (o : Server S -> O) (m : O -> N S A) : (forall x, nstage (m x)) -> nstage (fun s => m (o s) s).
Proof. intros Hm s a s' E. by apply (Hm (o s)) in E. Qed.
End server.

Ltac nstages :=
  repeat (cbv beta zeta;
    first
      [ apply ns_bind; [|intros ?]
      | apply ns_ret | apply ns_ask | apply ns_crash | apply ns_file_at
      | apply ns_onW; solve [stage]
      | solve [auto 2 with stages nocore]
      | match goal with
        | |- nstage (match ?x with _ => _ end) => destruct x
        | |- nstage (let '_ := ?x in _) => destruct x
        end ]).

Section suite.
Context {S : Type} (store : Storage_ops S) (junk : nat -> bytes) (ufuel : nat).
Context (E : outside S) (dir stack_block : bytes) (room : Z -> bool).

Lemma ns_war3_loop ju p k i c st : nstage (S := S) (war3_loop ju p k i c st).
Proof. revert i st. induction c; intros i st; cbn [war3_loop]; nstages. Qed.
Hint Resolve ns_war3_loop : stages.

Lemma ns_QueryIcon fs stat p i : nstage (S := S) (QueryIcon_Process fs stat dir p i).
Proof. unfold QueryIcon_Process. nstages. Qed.
Lemma ns_QueryFileInfo ju fs stat p i : nstage (S := S) (QueryFileInfo_Process ju fs stat dir p i).
Proof. unfold QueryFileInfo_Process. nstages. Qed.
Lemma ns_QueryNews ju now p i : nstage (S := S) (QueryNews_Process ju now p i).
Proof. unfold QueryNews_Process. nstages. Qed.
Lemma ns_QueryWar3Info ju p i : nstage (S := S) (QueryWar3Info_Process ju p i).
Proof. unfold QueryWar3Info_Process. nstages. Qed.
Lemma ns_Profile ju p i : nstage (Profile_Process store junk ufuel ju p i).
Proof. unfold Profile_Process. nstages. Qed.
Lemma ns_ReadUserData ju p i : nstage (ReadUserData_Process store junk ufuel ju room p i).
Proof. unfold ReadUserData_Process. nstages. Qed.
Lemma ns_WriteUserData ju p i : nstage (WriteUserData_Process store junk ufuel ju room p i).
Proof. unfold WriteUserData_Process. nstages. Qed.
Lemma ns_GetAdvListEx ju p i : nstage (S := S) (GetAdvListEx_Process ju p i).
Proof. unfold GetAdvListEx_Process. nstages. Qed.
Lemma ns_RealmLogonEx ju p i : nstage (S := S) (RealmLogonEx_Process ju stack_block p i).
Proof. unfold RealmLogonEx_Process, BNetRealmLogonEx_Pack. nstages. Qed.
End suite.
