(* ===== verification/Session.v ===== *)
(** * Session: a logged-in connection from its bytes to its handlers

    The composition of the input buffer, the input loop, the table of
    [PluginBNetLoggedIn] and its handlers: what a session does does not depend
    on how its bytes arrive. *)

From S2P Require Import Prelude Words Stream OMap CStr ShaCtx Sha1 Srp3 Storage UserItem UserCache Framing Packets World Chat Commands Handlers Files Time Caches Strtol Revision Ladder Server Dispatch StageInv.

(** ** The table *)

Lemma suite_find {P} (l : list (Z * P)) op h : find_plugin (suite_of l) op = Some h -> exists e, e ∈ l /\ u16 e.1 = u16 op /\ e.2 = h.
Proof.
  unfold find_plugin, suite_of. induction l as [|e l IH] using rev_ind; [done|].
  rewrite foldl_app. cbn [foldl]. unfold Load at 1. rewrite lookup_insert_Some.
  intros [[E1 E2]|[_ E]].
  - exists e. repeat split; [set_solver|done|done].
  - destruct (IH E) as (e' & He & E'). exists e'. split; [set_solver|done].
Qed.

(** ** Invariants of the input loop *)

Section loop.
Context {W : Type} (alloc : Z -> bool) (junk : nat -> bytes) (size_of op_of : Z -> Z) (f : Z -> Stream -> W -> W).

Lemma frame_loop_inv (P : W -> Prop) : (forall op st w, P w -> P (f op st w)) ->
  forall fuel b w, P w -> P (frame_loop alloc junk size_of op_of f fuel b w).2.
Proof.
  intros Hf fuel. induction fuel as [|fuel IH]; intros b w Hw; cbn [frame_loop]; [done|].
  repeat case_match; cbn [snd]; auto.
Qed.
End loop.

Section session.
Context {S : Type} (store : Storage_ops S) (junk : nat -> bytes) (ufuel : nat).
Context (E : outside S) (dir stack_block : bytes) (room : Z -> bool) (G : Gmp).
Notation receive := (receive store junk ufuel E dir stack_block room G).
Notation receive_all := (receive_all store junk ufuel E dir stack_block room G).
Notation loggedin_plugins := (loggedin_plugins store junk ufuel E dir stack_block room).
Notation PluginBNetLoggedIn := (PluginBNetLoggedIn store junk ufuel E dir stack_block room).
Notation loop p b w := (ProcessBNetLoggedIn (fun _ => true) (fun _ => []) (drive PluginBNetLoggedIn p) b w).

Lemma loggedin_keep_stages : Forall (fun e => forall p i, nstage (e.2 p i)) loggedin_plugins.
Proof.
  assert (forall (h : (nat -> Z) -> (nat -> nat -> bytes) -> nat -> Stream -> M S bool) p i,
    (forall ju jb, kstage (h ju jb p i)) -> nstage (world_plugin E h p i)) as HW.
  { intros h p i Hh. apply (ns_outside (fun s => (o_ju E s, o_jb E s)) (fun o => onW (h o.1 o.2 p i))).
    intros x. apply ns_onW, Hh. }
  assert (forall (h : (nat -> Z) -> nat -> Stream -> N S bool) p i,
    (forall ju, nstage (h ju p i)) -> nstage (server_plugin E h p i)) as HS.
  { intros h p i Hh. apply (ns_outside (o_ju E) (fun o => h o p i)), Hh. }
  repeat constructor; intros p i; cbn [fst snd];
    first [ apply HW; intros ju jb; unfold LeaveGame_Process, LeaveChat_Process, NetGamePort_Process, Null_Process,
              SwitchGameID_Process, UDPResponse_Process; stage
          | apply HS; intros ju; unfold GameResult_Process;
            first [apply ns_GetAdvListEx|apply ns_Profile|apply ns_QueryWar3Info|apply ns_ReadUserData
                  |apply ns_RealmLogonEx|apply ns_WriteUserData|nstages]
          | idtac ].
  all: try (unfold CheckAd_Process, ClickAd_Process, QueryAdUrl_Process, QueryRealms2_Process, ListChannel_Process; nstages).
  - apply (ns_outside (fun s => (o_ju E s, o_tick E s)) (fun o => onW (Ping_Process o.1 o.2 p i))).
    intros x. apply ns_onW, ks_Ping.
  - apply (ns_outside (fun s => (o_ju E s, o_fs E s, o_stat E s)) (fun o => QueryFileInfo_Process o.1.1 o.1.2 o.2 dir p i)).
    intros x. apply ns_QueryFileInfo.
  - apply (ns_outside (fun s => (o_fs E s, o_stat E s)) (fun o => QueryIcon_Process o.1 o.2 dir p i)).
    intros x. apply ns_QueryIcon.
  - apply (ns_outside (fun s => (o_ju E s, o_now E s)) (fun o => QueryNews_Process o.1 o.2 p i)).
    intros x. apply ns_QueryNews.
Qed.

(** The connection is logged in, unless the process has ended. *)
Definition in_session (p : nat) (w : result (Server S)) : Prop :=
  forall s, w = Ret s -> stage_of (sv_world s) p = Some BNET_LOGGEDIN.

Lemma loggedin_stage q op i : nstage (Process PluginBNetLoggedIn q op i).
Proof.
  unfold Process. destruct (find_plugin _ op) as [h|] eqn:Eh; [|apply ns_ret].
  destruct (suite_find loggedin_plugins op h Eh) as (e & He & _ & <-).
  pose proof loggedin_keep_stages as Hall. rewrite Forall_forall in Hall. by apply Hall.
Qed.

Lemma drive_stage (m : gmap Z (nat -> Stream -> N S bool)) p q op i w :
  nstage (Process m q op i) -> in_session p w -> in_session p (drive m q op i w).
Proof.
  intros Hm Hw s' Es. unfold drive in Es. destruct w as [s| |]; try done. cbn in Es.
  destruct (Process m q op i s) as [[b s1]| |] eqn:E1; try done. injection Es as <-.
  rewrite (Hm s b s1 E1 p). by apply Hw.
Qed.
Lemma drive_session p q op i w : in_session p w -> in_session p (drive PluginBNetLoggedIn q op i w).
Proof. apply drive_stage, loggedin_stage. Qed.

Definition dead {A} (w : result A) : Prop := match w with Ret _ => False | _ => True end.
Lemma drive_dead (m : gmap Z (nat -> Stream -> N S bool)) p op i w : dead w -> drive m p op i w = w.
Proof. by destruct w. Qed.

Lemma loop_dead p b w : dead w -> (loop p b w).2 = w.
Proof.
  intros Hd. apply (frame_loop_inv _ _ _ _ _ (fun w' => w' = w)); [|done].
  intros op st ? ->. by apply drive_dead.
Qed.
Lemma receive_dead p b w : dead w -> (receive p b w).2 = w.
Proof.
  intros Hd. unfold Dispatch.receive, OnRecv.
  assert (stage_at w p = CONNECTED) as Hs by (by destruct w).
  destruct b as [|x b]; [done|]. cbn [sb_length length Nat.eqb]. rewrite Hs. unfold sb_read.
  rewrite drive_dead, Hs by done. by case_match.
Qed.

Lemma receive_loop p b s : in_session p (Ret s) -> receive p b (Ret s) = loop p b (Ret s).
Proof.
  intros Hs. specialize (Hs s eq_refl). unfold stage_of in Hs.
  assert (stage_at (Ret s) p = BNET_LOGGEDIN) as Ha.
  { unfold stage_at. destruct (w_clients (sv_world s) !! p) as [c|]; [|done]. by injection Hs. }
  unfold Dispatch.receive, OnRecv. destruct b as [|x b]; [done|]. cbn [sb_length length Nat.eqb]. rewrite Ha.
  cbn [sb_length length Nat.eqb]. by rewrite Ha.
Qed.

(** Chunk by chunk, [receive_all] is the loop on what is left. *)
Lemma receive_all_feed p chunks : forall b b' w, in_session p w -> (dead w \/ b = b') ->
  let r := receive_all p b chunks w in
  let r' := foldl (feed (fun b w => loop p b w)) (b', w) chunks in
  r.2 = r'.2 /\ (dead r.2 \/ r.1 = r'.1).
Proof.
  induction chunks as [|c chunks IH]; intros b b' w Hw Hb; [done|]. cbn [Dispatch.receive_all foldl].
  change (feed (fun b w => loop p b w) (b', w) c) with (loop p (b' ++ c) w).
  assert (in_session p (loop p (b' ++ c) w).2) as Hw'.
  { apply (frame_loop_inv _ _ _ _ _ (in_session p)); [|done]. intros op st w'. apply drive_session. }
  assert ((receive p (b ++ c) w).2 = (loop p (b' ++ c) w).2 /\
          (dead (receive p (b ++ c) w).2 \/ (receive p (b ++ c) w).1 = (loop p (b' ++ c) w).1)) as [E2 E1].
  { destruct Hb as [Hd| ->].
    - rewrite receive_dead, loop_dead by done. auto.
    - destruct w as [s| |]; [by rewrite receive_loop; [auto|]|..];
        rewrite receive_dead, loop_dead by done; split; auto; left; done. }
  destruct (receive p (b ++ c) w) as [b1 w1]. destruct (loop p (b' ++ c) w) as [b2 w2]. cbn [fst snd] in *. subst w2.
  by apply IH.
Qed.
End session.

(** The statement is [session_chunks] below, for the other proofs. *)
Lemma session_fold {S} (store : Storage_ops S) junk ufuel E dir stack_block room G p s fs t chunks :
  stage_of (sv_world s) p = Some BNET_LOGGEDIN ->
  Forall frame_ok fs -> partial high_half t ->
  mjoin chunks = mjoin (enc_bnet <$> fs) ++ t ->
  let suite := PluginBNetLoggedIn store junk ufuel E dir stack_block room in
  let final := foldl (fun w f => drive suite p f.1 (stream_of f.2) w) (Ret s) fs in
  let got := receive_all store junk ufuel E dir stack_block room G p [] chunks (Ret s) in
  got.2 = final /\
  forall s', final = Ret s' -> got.1 = t /\ stage_of (sv_world s') p = Some BNET_LOGGEDIN.
Proof.
  intros Hs Hfs Ht Ec suite final got.
  assert (in_session p (Ret s)) as Hin by (by intros ? [= <-]).
  destruct (receive_all_feed store junk ufuel E dir stack_block room G p chunks [] [] (Ret s) Hin) as [E2 E1];
    [by right|].
  assert (foldl (feed (ProcessBNetLoggedIn (fun _ => true) (fun _ => []) (drive suite p))) ([], Ret s) chunks = (t, final)) as EF
    by exact (feed_frames (fun _ => true) (fun _ => []) (fun _ => eq_refl) high_half low_half enc_bnet
      (fun h => proj1 (half_bound h)) (drive suite p) fs t chunks (Ret s) Hfs Ht Ec).
  change (got.2 = (foldl (feed (ProcessBNetLoggedIn (fun _ => true) (fun _ => []) (drive suite p))) ([], Ret s) chunks).2) in E2.
  change (dead got.2 \/ got.1 = (foldl (feed (ProcessBNetLoggedIn (fun _ => true) (fun _ => []) (drive suite p))) ([], Ret s) chunks).1) in E1.
  rewrite EF in E1, E2. cbn [fst snd] in E1, E2.
  split; [exact E2|]. intros s' Es'.
  split; [destruct E1 as [Hd|E1]; [|exact E1]; by rewrite E2, Es' in Hd|].
  assert (in_session p final) as Hf; [|by apply Hf].
  subst final. clear -Hin. revert Hin. generalize (Ret s : result (Server S)). induction fs as [|f fs IH]; intros w Hw; [done|].
  cbn [foldl]. by apply IH, drive_session.
Qed.

(** C3: what a logged-in connection does does not depend on how the network
    cuts its bytes.  When the bytes are whole packets followed by an incomplete
    one, received in any pieces by [OnRecv], the server ends in the state the
    handlers of [PluginBNetLoggedIn] reach on those packets one after the other,
    a crash included; the incomplete packet stays in the buffer, and the
    connection is still logged in. *)
Theorem session_chunks {S} (store : Storage_ops S) junk ufuel E dir stack_block room G p s fs t chunks :
  stage_of (sv_world s) p = Some BNET_LOGGEDIN ->
  Forall frame_ok fs -> partial high_half t ->
  mjoin chunks = mjoin (enc_bnet <$> fs) ++ t ->
  let suite := PluginBNetLoggedIn store junk ufuel E dir stack_block room in
  let final := foldl (fun w f => drive suite p f.1 (stream_of f.2) w) (Ret s) fs in
  let got := receive_all store junk ufuel E dir stack_block room G p [] chunks (Ret s) in
  got.2 = final /\
  forall s', final = Ret s' -> got.1 = t /\ stage_of (sv_world s') p = Some BNET_LOGGEDIN.
Proof. apply session_fold. Qed.
