(* ===== verification/SessionSafe.v ===== *)
(** * SessionSafe: a logged-in connection cannot crash the server by chatting

    The packets of channels, games, chat lines and the small queries, as bytes:
    whatever their bodies and however the network cuts them, the handlers
    return and keep the state consistent. *)

From S2P Require Import Prelude Words Stream OMap CStr ShaCtx Sha1 BSha1 Srp3 NumFmt Storage UserItem UserCache Framing Packets World Chat ChatInv ChatOps ChatLife ChatTables Commands Handlers ChatSafe Files Time Caches Strtol Revision Ladder Server Dispatch StageInv Session.

(** The packets whose handlers reach the account store or the files, or walk
    the game list. *)
Definition storage_ops : list Z :=
  [0x65FF; 0x09FF; 0x35FF; 0x33FF; 0x2DFF; 0x26FF; 0x59FF; 0x27FF].
(** A packet of the chat side: no friend command, and none of those. *)
Definition chat_packet (f : Z * bytes) : Prop :=
  f.1 ∉ storage_ops /\ (f.1 = 0x0EFF -> friend_command (get_str (stream_of f.2)).1 = false).
#[export] Instance chat_packet_dec f : Decision (chat_packet f).
Proof. apply _. Defined.

Section safe.
Context {S : Type} (store : Storage_ops S) (junk : nat -> bytes) (ufuel : nat).
Context (E : outside S) (dir stack_block : bytes) (room : Z -> bool).
Implicit Types (s : Server S) (w : World S).

Definition nsurvives {A} (m : N S A) s : Prop := exists a s', m s = Ret (a, s') /\ inv (sv_world s').

Lemma nsv_ret {A} (a : A) s : inv (sv_world s) -> nsurvives (mret a) s.
Proof. intros Hi. by exists a, s. Qed.
Lemma nsv_onW {A} (m : M S A) s : survives m (sv_world s) -> nsurvives (onW m) s.
Proof. intros (a & w' & Hm & Hi). exists a, (set_world w' s). unfold onW. by rewrite Hm. Qed.
Lemma nsv_onW_ret {A} (m : M S A) (b : bool) s : survives m (sv_world s) -> nsurvives (mbind (fun _ => mret b) (onW m)) s.
Proof.
  intros (a & w' & Hm & Hi). exists b, (set_world w' s). unfold mbind, N_bind, onW. by rewrite Hm.
Qed.
Lemma nsv_eq {A B} (m : N S A) (f : A -> N S B) s a : m s = Ret (a, s) -> nsurvives (f a) s -> nsurvives (mbind f m) s.
Proof. intros Hm (b & s' & Hb & Hi). exists b, s'. split; [|done]. unfold mbind, N_bind. by rewrite Hm. Qed.
Lemma onW_eq {A} (m : M S A) s a : m (sv_world s) = Ret (a, sv_world s) -> onW m s = Ret (a, s).
Proof. intros Hm. unfold onW. rewrite Hm. by destruct s. Qed.

(** A packet to the connection itself. *)
Lemma nsv_answer p cmd pk (b : bool) s : inv (sv_world s) -> is_Some (w_clients (sv_world s) !! p) ->
  nsurvives (mbind (fun _ => mret b) (onW (send_bnet p cmd pk))) s.
Proof. intros Hi Hp. by apply nsv_onW_ret, ok_survives, send_bnet_ok. Qed.

(** ** The small handlers *)

Lemma EnterChat_survives p in_ w : inv w -> is_Some (w_clients w !! p) -> survives (EnterChat_Process p in_) w.
Proof.
  intros Hi [c Hc]. unfold EnterChat_Process. eapply safe_eq; [by apply client_eq|].
  destruct (c_user c) as [u|] eqn:Eu; [|by apply safe_ret].
  destruct (wk_user _ _ (proj1 Hi) p c u Hc Eu) as [a Ha]. eapply safe_eq; [unfold account; by rewrite Ha|].
  destruct (get_str in_). apply survives_then, ok_survives, send_bnet_ok; [done|by eexists].
Qed.
Lemma FriendUpdate_survives ju p in_ w : inv w -> is_Some (w_clients w !! p) -> survives (FriendUpdate_Process ju p in_) w.
Proof.
  intros Hi [c Hc]. unfold FriendUpdate_Process. destruct (get_u8 (ju 0%nat) in_).
  eapply safe_eq; [by apply client_eq|]. destruct (c_user c) as [u|] eqn:Eu; [|by apply safe_ret].
  destruct (wk_user _ _ (proj1 Hi) p c u Hc Eu) as [a Ha]. eapply safe_eq; [unfold account; by rewrite Ha|]. by apply safe_ret.
Qed.
(** A change of a client that keeps what the invariant looks at. *)
Lemma edit_survives p f w : inv w -> is_Some (w_clients w !! p) ->
  (forall c, c_user (f c) = c_user c /\ c_channel (f c) = c_channel c /\ c_game (f c) = c_game c) ->
  survives (mbind (fun _ => mret true) (edit_client p f)) w.
Proof. intros Hi Hp Hf. by apply survives_then, ok_survives, edit_client_ok. Qed.

Lemma tag_list_live tag h w : inv w -> h ∈ game_channels tag w -> is_Some (w_channels w !! h).
Proof.
  intros Hi Hh. unfold game_channels in Hh. destruct (om_find Z.ltb _ _) eqn:Ef; [|by apply not_elem_of_nil in Hh].
  by eapply (proj2 (proj2 (proj2 Hi))).
Qed.
Lemma set_list_inv tag l w : inv w -> (forall h, h ∈ l -> is_Some (w_channels w !! h)) ->
  inv (set_w_game_channelmap (om_insert Z.ltb tag l (w_game_channelmap w)) w).
Proof.
  intros (Hok & Hpool & Ht1 & Ht2) Hl. split; [by apply okx_game_channelmap|]. destruct w; cbn in *.
  split; [done|]. split; [done|]. intros t k h. cbn. rewrite find_ids_insert. case_decide; [|apply Ht2].
  intros [= <-]. apply Hl.
Qed.
Lemma game_channels_set t tag l w :
  game_channels t (set_w_game_channelmap (om_insert Z.ltb tag l (w_game_channelmap w)) w) =
    if decide (t = tag) then l else game_channels t w.
Proof. destruct w. unfold game_channels. cbn. rewrite find_ids_insert. by repeat case_decide. Qed.
Lemma list_channels_eq mine l w : (forall h, h ∈ l -> is_Some (w_channels w !! h)) ->
  forall st, exists st', list_channels mine l st w = Ret (st', w).
Proof.
  induction l as [|h l IH]; intros Hl st; cbn [list_channels]; [by eexists|].
  destruct (Hl h) as [ch Hch]; [by left|]. rewrite (bind_eq _ _ _ _ _ (channel_eq _ _ _ Hch)).
  apply IH. intros k Hk. apply Hl. by right.
Qed.

Lemma ListChannel_body_safe p c st w : inv w -> w_clients w !! p = Some c ->
  safe (BNetListChannel_body p st) w (fun _ w' => inv w' /\ w_clients w' !! p = Some c /\
    game_channels (c_gameid c) w' = game_channels 0 w).
Proof.
  intros Hi Hc. unfold BNetListChannel_body.
  eapply safe_eq; [by apply client_eq|].
  set (l := game_channels (c_gameid c) w).
  set (w1 := set_w_game_channelmap (om_insert Z.ltb (c_gameid c) l (w_game_channelmap w)) w).
  eapply (safe_eq _ _ w l w1); [done|].
  assert (inv w1) as Hi1 by (apply set_list_inv; [done|]; intros h; by apply tag_list_live).
  assert (forall h, h ∈ l -> is_Some (w_channels w1 !! h)) as Hl 
    by (intros h Hh; pose proof (tag_list_live _ h w Hi Hh); subst w1; clearbody l; by destruct w).
  destruct (list_channels_eq (c_channel c) l w1 Hl st) as [st1 E1]. eapply safe_eq; [exact E1|].
  set (l0 := game_channels 0 w1).
  set (w2 := set_w_game_channelmap (om_insert Z.ltb 0 l0 (w_game_channelmap w1)) w1).
  eapply (safe_eq _ _ w1 l0 w2); [done|].
  assert (inv w2) as Hi2 by (apply set_list_inv; [done|]; intros h; by apply tag_list_live).
  set (w3 := set_w_game_channelmap (om_insert Z.ltb (c_gameid c) l0 (w_game_channelmap w2)) w2).
  eapply (safe_eq _ _ w2 tt w3); [done|].
  assert (forall h, h ∈ l0 -> is_Some (w_channels w2 !! h)) as Hl0
    by (intros h Hh; pose proof (tag_list_live 0 h w1 Hi1 Hh); subst w2; clearbody l0; by destruct w1).
  assert (inv w3) as Hi3 by (by apply set_list_inv).
  destruct (list_channels_eq (c_channel c) l0 w3 ltac:(intros h Hh; specialize (Hl0 h Hh); subst w3; clearbody w2; by destruct w2) st1) as [st2 E2].
  eapply safe_eq; [exact E2|]. apply safe_ret. split; [done|].
  split; [subst w3 w2 w1; clearbody l l0; by destruct w|].
  subst w3. rewrite game_channels_set, decide_True by done. subst l0 w1. rewrite game_channels_set.
  case_decide as Ez; [|done]. subst l. by rewrite Ez.
Qed.
Lemma ListChannel_survives p in_ s :
  inv (sv_world s) -> is_Some (w_clients (sv_world s) !! p) -> nsurvives (ListChannel_Process p in_) s.
Proof.
  intros Hi [c Hc]. unfold ListChannel_Process.
  destruct (ListChannel_body_safe p c (BNet_header cmd_ListChannel) (sv_world s) Hi Hc) as (st & w' & Hb & Hi' & Hc' & _).
  exists true, (set_world (add_out [(p, BNet_close st)] w') s).
  split; [|by apply inv_add_out]. unfold mbind, N_bind, onW. rewrite Hb. cbn [sv_world set_world].
  by rewrite (send_eq _ _ _ _ Hc').
Qed.

Lemma war3_loop_survives ju p cookie i n in_ s : inv (sv_world s) -> is_Some (w_clients (sv_world s) !! p) ->
  nsurvives (mbind (fun _ => mret true) (war3_loop ju p cookie i n in_)) s.
Proof.
  revert i in_ s. induction n as [|n IH]; intros i in_ s Hi Hp; cbn [war3_loop]; [by exists true, s|].
  destruct (get_u32 _ in_) as [tag i1]. destruct (get_u32 _ i1) as [unk i2].
  destruct (send_bnet_ok p cmd_War3Info (BNetWar3Info_Pack (sv_ladder s) 2 cookie tag (Nat.eqb n 0)) (sv_world s) Hi Hp)
    as ([] & w' & Hm & Hi' & Hfr).
  destruct (IH (Datatypes.S i) i2 (set_world w' s) Hi') as (b & s' & Hb & Hi2); [by eapply frame_live|].
  exists b, s'. split; [|done]. rewrite <- Hb. unfold mbind, N_bind, ask, onW. by rewrite Hm.
Qed.
Lemma QueryWar3Info_survives ju p in_ s :
  inv (sv_world s) -> is_Some (w_clients (sv_world s) !! p) -> nsurvives (QueryWar3Info_Process ju p in_) s.
Proof.
  intros Hi Hp. unfold QueryWar3Info_Process. destruct (get_u8 _ in_) as [sub i1]. case_match; [|by apply nsv_ret].
  destruct (get_u32 _ i1) as [cookie i2]. destruct (get_u8 _ i2) as [c i3]. case_match; [by apply nsv_ret|].
  by apply war3_loop_survives.
Qed.
Lemma RealmLogonEx_survives ju p in_ s :
  inv (sv_world s) -> is_Some (w_clients (sv_world s) !! p) -> nsurvives (RealmLogonEx_Process ju stack_block p in_) s.
Proof.
  intros Hi Hp. unfold RealmLogonEx_Process. destruct (get_u32 _ in_) as [cookie i1].
  destruct (get_str (skip 20 i1)) as [name i2].
  assert (exists pk, BNetRealmLogonEx_Pack stack_block p cookie name s = Ret (pk, s)) as [pk Epk];
    [|eapply nsv_eq; [exact Epk|by apply nsv_answer]].
  destruct Hp as [c Hc]. unfold BNetRealmLogonEx_Pack, mbind, N_bind, ask.
  rewrite (onW_eq (client p) s c) by (by apply client_eq). destruct (RealmCache_at _ name); [|by eexists].
  destruct (c_user c) as [u|] eqn:Eu; [|by eexists].
  destruct (wk_user _ _ (proj1 Hi) p c u Hc Eu) as [a Ha].
  rewrite (onW_eq (account u) s a) by (unfold account; by rewrite Ha). by eexists.
Qed.

Lemma GameResult_survives ju p in_ s : inv (sv_world s) -> nsurvives (GameResult_Process ju p in_) s.
Proof.
  intros Hi. unfold GameResult_Process. destruct (get_u32 _ in_) as [g i1]. destruct (get_u32 _ i1). by apply nsv_ret.
Qed.
Lemma QueryNews_survives ju now p in_ s : inv (sv_world s) -> is_Some (w_clients (sv_world s) !! p) ->
  nsurvives (QueryNews_Process ju now p in_) s.
Proof.
  intros Hi Hp. unfold QueryNews_Process. destruct (get_u32 _ in_). eapply nsv_eq; [done|]. by apply nsv_answer.
Qed.

(** ** Every chat packet *)

Lemma survives_drop {A} (m : M S A) w : survives (mbind (fun _ => mret tt) m) w -> survives m w.
Proof.
  intros (a & w' & Hm & Hi). unfold mbind, M_bind in Hm. destruct (m w) as [[b w1]| |] eqn:E1; try done.
  injection Hm as <- <-. by exists b, w1.
Qed.
(** The handler of a packet that is one of the events of the chat side. *)
Lemma event_survives {A} ju e p (m : M S A) w :
  perform store junk ufuel ju e = mbind (fun _ => mret tt) m -> event_client e = Some p ->
  (forall p u, e <> ELogon p u) -> (forall q i, e = ESendChat q i -> friend_command (get_str i).1 = false) ->
  inv w -> is_Some (w_clients w !! p) -> table_room w -> 0 <= uc_count (w_uc w) < 2 ^ 32 -> survives m w.
Proof.
  intros Em Ee Hl Hf Hi Hp Hr Hc. apply survives_drop. rewrite <- Em. apply perform_survives; [done|].
  repeat split; try done; try lia.
  - intros q Eq. congruence.
  - intros sn n tag flag mu bc bi ->. done.
  - intros q u ->. by destruct (Hl q u).
Qed.

Notation loggedin_plugins := (loggedin_plugins store junk ufuel E dir stack_block room).
Notation PluginBNetLoggedIn := (PluginBNetLoggedIn store junk ufuel E dir stack_block room).

(** The state in which a packet of [p] is safe. *)
Definition ready (p : nat) s : Prop :=
  inv (sv_world s) /\ is_Some (w_clients (sv_world s) !! p) /\ table_room (sv_world s) /\
  0 <= uc_count (w_uc (sv_world s)) < 2 ^ 32.

Lemma world_survives (h : (nat -> Z) -> (nat -> nat -> bytes) -> nat -> Stream -> M S bool) p in_ s :
  (forall ju jb, survives (h ju jb p in_) (sv_world s)) -> nsurvives (world_plugin E h p in_) s.
Proof. intros Hh. by apply nsv_onW. Qed.

(** Closing the goals of the table, by the kind of handler. *)
Ltac answers :=
  first
    [ by apply nsv_ret
    | match goal with Hst : _ ∉ storage_ops |- _ => solve [exfalso; apply Hst; vm_compute; repeat constructor] end
    | by apply nsv_answer ].

Lemma table_survives p s : ready p s ->
  Forall (fun e => forall in_, e.1 ∉ storage_ops -> (e.1 = 0x0EFF -> friend_command (get_str in_).1 = false) ->
    nsurvives (e.2 p in_) s) loggedin_plugins.
Proof.
  intros (Hi & Hp & Hr & Hc).
  unfold Dispatch.loggedin_plugins. repeat (apply Forall_cons; split); [..|done]; cbn [fst snd]; intros in_ Hst Hfr;
    try answers.
  all: try (apply world_survives; intros ju jb).
  - by apply EnterChat_survives.
  - by apply FriendUpdate_survives.
  - by apply GameResult_survives.
  - by apply (event_survives ju (EJoinChannel p in_) p).
  - by apply (event_survives ju (ELeaveChat p) p).
  - by apply (event_survives ju (ELeaveGame p) p).
  - by apply ListChannel_survives.
  - unfold NetGamePort_Process. destruct (get_u16 _ in_). apply edit_survives; [done..|by intros []].
  - by apply (event_survives ju (ENotifyJoin p in_) p).
  - by apply survives_then, ok_survives, send_bnet_ok.
  - apply nsv_onW. unfold Ping_Process. destruct (get_u32 _ in_). apply edit_survives; [done..|].
    intros c. unfold CheckEnd. repeat case_match; by destruct c.
  - by apply QueryNews_survives.
  - by apply QueryWar3Info_survives.
  - by apply RealmLogonEx_survives.
  - apply (event_survives ju (ESendChat p in_) p); try done. intros q i [= <- <-]. by apply Hfr.
  - by apply (event_survives ju (EStartAdvEx3 p in_) p).
  - by apply (event_survives ju (EStopAdv p) p).
  - unfold SwitchGameID_Process. destruct (get_u32 _ in_). apply edit_survives; [done..|by intros []].
  - apply edit_survives; [done..|by intros []].
Qed.

Lemma chat_packet_survives p op body s : ready p s -> frame_ok (op, body) -> chat_packet (op, body) ->
  nsurvives (Process PluginBNetLoggedIn p op (stream_of body)) s.
Proof.
  intros Hs [Hop _] [Hst Hfr]. cbn [fst snd] in *.
  unfold Process. destruct (find_plugin _ op) as [h|] eqn:Eh; [|apply nsv_ret, Hs].
  destruct (suite_find loggedin_plugins op h Eh) as (e & He & Eop & <-).
  pose proof (table_survives p s Hs) as Hall. rewrite Forall_forall in Hall.
  assert (e.1 = op) as <-; [|by apply Hall].
  rewrite (u16_small op) in Eop by lia. rewrite <- Eop. symmetry. apply u16_small.
  cut (Forall (fun e => 0 <= e.1 < 65536) loggedin_plugins); [rewrite Forall_forall; auto|].
  repeat (apply Forall_cons; split); [..|done]; split; by vm_compute.
Qed.

Abbreviation run p s fs := (foldl (fun r f => drive PluginBNetLoggedIn p f.1 (stream_of f.2) r) (Ret s) fs).

(** Packet after packet, as long as the tables have room. *)
Lemma chat_packets_survive p fs : forall s,
  stage_of (sv_world s) p = Some BNET_LOGGEDIN -> inv (sv_world s) ->
  Forall frame_ok fs -> Forall chat_packet fs ->
  (forall k s1, run p s (take k fs) = Ret s1 ->
     table_room (sv_world s1) /\ 0 <= uc_count (w_uc (sv_world s1)) < 2 ^ 32) ->
  exists s', run p s fs = Ret s' /\ inv (sv_world s').
Proof.
  induction fs as [|[op body] fs IH]; intros s Hs Hi Hok Hch Hroom; [by exists s|].
  apply Forall_cons in Hok as [Hok Hoks], Hch as [Hc Hcs].
  assert (ready p s) as Hr.
  { split; [done|]. split; [|by apply (Hroom 0%nat)]. unfold stage_of in Hs.
    destruct (w_clients (sv_world s) !! p) as [c|]; [by exists c|done]. }
  destruct (chat_packet_survives p op body s Hr Hok Hc) as (b & s1 & E1 & Hi1).
  assert (drive PluginBNetLoggedIn p op (stream_of body) (Ret s) = Ret s1) as Ed.
  { unfold drive. cbn [mbind result_bind]. by rewrite E1. }
  cbn [foldl fst snd]. rewrite Ed. apply IH; try done.
  - rewrite (loggedin_stage store junk ufuel E dir stack_block room p op _ _ _ _ E1). done.
  - intros k s2 E2. apply (Hroom (Datatypes.S k)). cbn [take foldl fst snd]. by rewrite Ed.
Qed.
End safe.


(** Asking for the channel list changes it.  [itemlist] is a reference to
    the list of the client's game, so the assignment that was to go on with the
    channels of all games replaces that list: from then on the channels of the
    game are no longer listed, to anybody. *)
Theorem channel_list_forgets {S} p c st (w : World S) :
  inv w -> w_clients w !! p = Some c ->
  exists st' w', BNetListChannel_body p st w = Ret (st', w') /\ inv w' /\
    game_channels (c_gameid c) w' = game_channels 0 w.
Proof.
  intros Hi Hc. destruct (ListChannel_body_safe p c st w Hi Hc) as (st' & w' & Hb & Hi' & _ & Hl). by exists st', w'.
Qed.
