(* ===== verification/SessionDemo.v ===== *)
(** * SessionDemo: concrete sessions, from the bytes on

    The states in which the properties of Session and SessionSafe are
    evaluated, and what a logon in the middle of a read does. *)

From S2P Require Import Prelude Words Stream OMap CStr ShaCtx Sha1 BSha1 Srp3 NumFmt Storage UserItem UserCache Framing Packets World Chat ChatInv ChatOps ChatLife ChatTables Commands Handlers ChatSafe ChatClaims Logon ChatDemo Files Time Caches Strtol Revision Ladder Server Dispatch StageInv Session SessionSafe.

Definition demo_outside : outside mem :=
  mkOutside (fun _ => demo_ju) (fun _ => demo_jb) (fun _ _ => None) (fun _ _ => None) (fun _ => 0) (fun _ => 0) (fun _ => 0) (fun _ _ => None).
Definition demo_server (w : World mem) : Server mem := mkServer w [] [] (mkNews [] []) (mkCheck [] []) (mkInfo [] [] [] [] []) [].
Abbreviation demo_receive := (receive_all mem_storage demo_junk 9 demo_outside [] [] (fun _ => true) gmp_ref).
Abbreviation demo_suite := (PluginBNetLoggedIn mem_storage demo_junk 9 demo_outside [] [] (fun _ => true)).

(** bob talks and leaves the channel; the last packet is not complete. *)
Definition talk_frame : Z * bytes := (0x0EFF, b# "hello" ++ [0]).
Definition leave_frame : Z * bytes := (0x10FF, []).
Definition some_chunks : list bytes :=
  [[255; 14]; [10; 0] ++ b# "he"; b# "llo" ++ [0; 255; 16; 4; 0; 255]; [14]].

Lemma session_chunks_witness :
  let final := foldl (fun w f => drive demo_suite 1 f.1 (stream_of f.2) w) (Ret (demo_server lobby_world)) [talk_frame; leave_frame] in
  let got := demo_receive 1 [] some_chunks (Ret (demo_server lobby_world)) in
  got.2 = final /\ (forall s', final = Ret s' -> got.1 = [255; 14] /\ stage_of (sv_world s') 1 = Some BNET_LOGGEDIN).
Proof.
  apply (session_chunks mem_storage demo_junk 9 demo_outside [] [] (fun _ => true) gmp_ref 1 (demo_server lobby_world)
    [talk_frame; leave_frame] [255; 14] some_chunks).
  - vm_compute. reflexivity.
  - repeat constructor; cbn; unfold byte_ok; lia.
  - left. simpl. lia.
  - vm_compute. reflexivity.
Defined.

Definition roomy (r : result (Server mem)) : bool :=
  match r with
  | Ret s => (Z.of_nat (length (w_channelmap (sv_world s))) <? 2 ^ 31 - 3) &&
             ((0 <=? uc_count (w_uc (sv_world s))) && (uc_count (w_uc (sv_world s)) <? 2 ^ 32))
  | _ => false
  end.


(** ** A logon in the middle of a read *)

(** carol's account, a channel, and her connection, which is object 1. *)
Definition gate : World mem :=
  default (start_world carol_uc)
    (play mem_storage demo_junk 9 demo_ju
      [ELoadChannel (b# "Lobby") (b# "Lobby") 0 0 100 false false; EConnect 7 0 [] []] (start_world carol_uc)).
Definition logon_frame : Z * bytes := (0x3AFF, demo_token ++ old_proof demo_jb demo_token carol_pw ++ b# "carol" ++ [0]).
Definition join_frame : Z * bytes := (0x0CFF, [0; 0; 0; 0] ++ b# "Lobby" ++ [0]).
Definition in_channel (r : result (Server mem)) : option (Stage_t * option nat) :=
  match r with Ret s => (fun c => (c_stage c, c_channel c)) <$> w_clients (sv_world s) !! 1%nat | _ => None end.


(** One packet of a logged-in connection makes the server read past the end
    of a vector, which ends it here: of two accounts and one key, the loop over
    the keys of the second account tests the name of the second key, the index
    of the account where that of the key is meant. *)
Theorem write_user_data_crashes :
  let body := le_bytes 4 2 ++ le_bytes 4 1 ++ [0] ++ b# "eve" ++ [0] ++ b# "key" ++ [0] ++ b# "value" ++ [0] in
  demo_receive 1 [] [enc_bnet (0x27FF, body)] (Ret (demo_server lobby_world)) = ([], Crash).
Proof. vm_compute. reflexivity. Qed.

(** A channel of the client's own game, and one of all games. *)
Definition two_lists : World mem :=
  default (start_world demo_uc)
    (play mem_storage demo_junk 9 demo_ju
      [ELoadChannel (b# "W3") (b# "Frozen Throne") 5 0 100 false false; ELoadChannel (b# "Lobby") (b# "Lobby") 0 0 100 false false;
       EConnect 7 0 [] []] (start_world demo_uc)).
Definition two_lists_in : World mem :=
  match edit_client 2 (set_c_gameid 5) two_lists with Ret (_, w) => w | _ => two_lists end.

Lemma channel_list_forgets_witness :
  game_channels 5 two_lists_in = [0%nat] /\
  exists st' w', BNetListChannel_body 2 empty_stream two_lists_in = Ret (st', w') /\ inv w' /\
    game_channels 5 w' = [1%nat].
Proof.
  split; [vm_compute; reflexivity|].
  assert (inv two_lists) as Hi.
  { eapply (reachable_inv mem_storage demo_junk 9 demo_ju demo_uc), play_reachable; [apply reach_start|].
    instantiate (1 := [ELoadChannel (b# "W3") (b# "Frozen Throne") 5 0 100 false false;
      ELoadChannel (b# "Lobby") (b# "Lobby") 0 0 100 false false; EConnect 7 0 [] []]). vm_compute. reflexivity. }
  destruct (edit_client_ok 2 (set_c_gameid 5) two_lists Hi) as (u & w & Hm & Hi' & _);
    [vm_compute; by eexists|by intros []|].
  assert (two_lists_in = w) as Ew by (unfold two_lists_in; by rewrite Hm).
  rewrite <- Ew in Hi'.
  destruct (w_clients two_lists_in !! 2%nat) as [c|] eqn:Ec; [|vm_compute in Ec; discriminate Ec].
  destruct (channel_list_forgets 2 c empty_stream two_lists_in Hi' Ec) as (st' & w' & Hb & Hi2 & Hl).
  exists st', w'. split; [exact Hb|]. split; [exact Hi2|].
  assert (c_gameid c = 5) as Eg by (vm_compute in Ec; injection Ec as <-; reflexivity).
  rewrite <- Eg, Hl. vm_compute. reflexivity.
Defined.
