(* ===== verification/Baald.v ===== *)
(** * Baald: the realm daemon

    baald/core/Client.cpp, baald/core/BlitzConn.cpp, baald/plugins and
    baald/packets: the daemon stands between the game clients of a realm and
    blitzd, to which it passes on their logon.  One record holds the clients
    (at their addresses), the pool by session, the connection to blitzd and the
    output. *)

From S2P Require Import Prelude Words Stream Packets Dispatch.

(** [Core::Client::Stage_t] of baald. *)
Inductive RStage := R_CONNECTED | R_BNETREALM | R_D2GS.
#[export] Instance RStage_eq_dec : EqDecision RStage.
Proof. solve_decision. Defined.

(** [Core::Client]; [BlitzConn] has the buffer alone. *)
Record RClient := mkRClient { rc_buffer : Stream; rc_stage : RStage; rc_session : Z }.
Definition set_rbuffer (b : Stream) (c : RClient) : RClient := mkRClient b (rc_stage c) (rc_session c).
Definition set_rstage (s : RStage) (c : RClient) : RClient := mkRClient (rc_buffer c) s (rc_session c).

(** The other end of a [TcpClient]: a client of the realm, or blitzd. *)
Inductive peer := PClient (p : nat) | PBlitz.
#[export] Instance peer_eq_dec : EqDecision peer.
Proof. solve_decision. Defined.

Record Realm := mkRealmD {
  rd_clients : gmap nat RClient;
  rd_alloc : nat;
  rd_current_session : Z;
  rd_sessionMap : gmap Z nat;
  rd_conn : option Stream;
  rd_out : list (peer * bytes)
}.
Definition set_rclients (m : gmap nat RClient) (r : Realm) : Realm :=
  mkRealmD m (rd_alloc r) (rd_current_session r) (rd_sessionMap r) (rd_conn r) (rd_out r).
Definition set_rpool (m : gmap Z nat) (r : Realm) : Realm :=
  mkRealmD (rd_clients r) (rd_alloc r) (rd_current_session r) m (rd_conn r) (rd_out r).
Definition set_rconn (b : option Stream) (r : Realm) : Realm :=
  mkRealmD (rd_clients r) (rd_alloc r) (rd_current_session r) (rd_sessionMap r) b (rd_out r).
Definition radd_out (l : list (peer * bytes)) (r : Realm) : Realm :=
  mkRealmD (rd_clients r) (rd_alloc r) (rd_current_session r) (rd_sessionMap r) (rd_conn r) (rd_out r ++ l).

(** ** The monad *)

Definition R (A : Type) : Type := Realm -> result (A * Realm).
#[global] Instance R_ret : MRet R := fun _ a r => Ret (a, r).
#[global] Instance R_bind : MBind R := fun _ _ f m r => match m r with Ret (a, r') => f a r' | Crash => Crash | NoFuel => NoFuel end.
Definition rask {A} (f : Realm -> A) : R A := fun r => Ret (f r, r).
Definition rchange (f : Realm -> Realm) : R unit := fun r => Ret (tt, f r).
Definition rcrash {A} : R A := fun _ => Crash.
Definition rclient (p : nat) : R RClient := fun r => match rd_clients r !! p with Some c => Ret (c, r) | None => Crash end.
Definition redit (p : nat) (f : RClient -> RClient) : R unit :=
  c ← rclient p; rchange (fun r => set_rclients (<[p := f c]> (rd_clients r)) r).

(** [TcpClient::Send] and [BuildAndSendTo]; [BlitzConn::Get()] without a
    connection is the NULL reference. *)
Definition rsend (to : peer) (b : bytes) : R unit :=
  match to with
  | PClient p => _ ← rclient p; rchange (radd_out [(to, b)])
  | PBlitz => k ← rask rd_conn; match k with Some _ => rchange (radd_out [(to, b)]) | None => rcrash end
  end.
Definition rbuild_and_send (to : peer) (o : option bytes) : R unit :=
  match o with Some b => rsend to b | None => mret tt end.

(** ** The packets *)

(** [PacketRealm::Build]. *)
Definition Realm_Build (cmd : Z) (pack : Stream -> option Stream) : option bytes :=
  st ← pack (put_u8 (u8 cmd) (put_u16 0 empty_stream));
  Some (_buf (poke 0 (le_bytes 2 (u16 (Z.of_nat (size st)))) st)).
Definition RealmStartupConn_Pack (result : Z) (st : Stream) : option Stream := Some (put_u32 result st).
(** [PacketBaal::Build] of baald is that of blitzd. *)
Definition BaalUserCheck_Pack (cookie : Z) (hash username : bytes) (st : Stream) : option Stream :=
  Some (put_str username (append (take 20 hash) (put_u32 cookie st))).
Definition BaalRealmAuth_Pack (session tcpPort : Z) (name description : bytes) (st : Stream) : option Stream :=
  Some (put_str description (put_str name (put_u16 (u16 tcpPort) (put_u32 session st)))).

(** ** The pool and the life of a client *)

Definition ClientPool_Add (p : nat) : R unit :=
  c ← rclient p; rchange (fun r => set_rpool (<[rc_session c := p]> (rd_sessionMap r)) r).
Definition ClientPool_Remove (s : Z) : R unit := rchange (fun r => set_rpool (delete s (rd_sessionMap r)) r).
Definition ClientPool_index (s : Z) : R (option nat) := rask (fun r => rd_sessionMap r !! s).
Definition ClientPool_GetCount : R Z := rask (fun r => u32 (Z.of_nat (base.size (rd_sessionMap r)))).

Definition RClient_new : R nat :=
  r ← rask id;
  let p := rd_alloc r in
  let s := u32 (rd_current_session r + 1) in
  rchange (fun r => mkRealmD (<[p := mkRClient empty_stream R_CONNECTED s]> (rd_clients r)) (S p) s
                      (rd_sessionMap r) (rd_conn r) (rd_out r)) ;;
  ClientPool_Add p ;; mret p.
Definition RClient_delete (p : nat) : R unit :=
  c ← rclient p;
  ClientPool_Remove (rc_session c) ;;
  rchange (fun r => set_rclients (delete p (rd_clients r)) r).

(** [BlitzConn::BlitzConn], when the connection succeeds; [BlitzConn::Init]. *)
Definition BlitzConn_new : R unit := rchange (set_rconn (Some empty_stream)) ;; rsend PBlitz [0x65].
Definition BlitzConn_Init (connects : bool) : R unit :=
  if connects then BlitzConn_new else rchange (set_rconn None).

(** ** The handlers *)

Section handlers.
(** Uninitialised memory, and the configuration. *)
Context (ju : nat -> Z) (jb : nat -> nat -> bytes) (tcpPort : Z) (realm_name realm_desc : bytes).

(** [(Core::Client&)cl] of a connection that is no client is not defined. *)
Definition as_client (cl : peer) : R nat := match cl with PClient p => mret p | PBlitz => rcrash end.

Definition InitBnetRealm_Process (cl : peer) (in_ : Stream) : R bool :=
  p ← as_client cl; redit p (set_rstage R_BNETREALM) ;; mret true.
Definition InitD2GS_Process (cl : peer) (in_ : Stream) : R bool :=
  p ← as_client cl; redit p (set_rstage R_D2GS) ;; mret true.

Definition StartupConn_Process (cl : peer) (in_ : Stream) : R bool :=
  p ← as_client cl;
  c ← rclient p;
  let '(cookie, in_) := get_u32 (ju 0) in_ in
  let in_ := skip 40 in_ in
  let '(_, hash, in_) := read (jb 0 20) 20 in_ in
  let '(username, in_) := get_str in_ in
  rbuild_and_send PBlitz (Baal_Build (rc_session c) 0x10 (BaalUserCheck_Pack cookie hash username)) ;; mret true.

Definition AuthInfo_Process (cl : peer) (in_ : Stream) : R bool :=
  let '(token, in_) := get_u32 (ju 0) in_ in
  let '(session, in_) := get_u32 (ju 1) in_ in
  rbuild_and_send cl (Baal_Build token 0x02 (BaalRealmAuth_Pack session tcpPort realm_name realm_desc)) ;; mret true.
Definition UserCheck_Process (cl : peer) (in_ : Stream) : R bool :=
  let '(token, in_) := get_u32 (ju 0) in_ in
  client ← ClientPool_index token;
  match client with
  | None => mret false
  | Some q =>
      let '(result, in_) := get_u32 (ju 1) in_ in
      rbuild_and_send (PClient q) (Realm_Build 0x01 (RealmStartupConn_Pack result)) ;; mret true
  end.

Abbreviation plugin := (peer -> Stream -> R bool).
Definition PluginInit : gmap Z plugin := suite_of [(0x01, InitBnetRealm_Process); (0x64, InitD2GS_Process)].
Definition PluginRealm : gmap Z plugin := suite_of [(0x01, StartupConn_Process)].
Definition PluginBaal : gmap Z plugin := suite_of [(0x01, AuthInfo_Process); (0x10, UserCheck_Process)].
Definition RProcess (m : gmap Z plugin) (cl : peer) (op : Z) (in_ : Stream) : R bool :=
  match find_plugin m op with Some h => h cl in_ | None => mret false end.

(** ** Input *)

(** [Stream st(buf + h, psize - h)]: a size under the header's is a negative
    length. *)
Definition body_of (h psize : nat) (buf : bytes) : option bytes :=
  if Nat.ltb psize h then None else Some (take (psize - h) (drop h buf)).
(** [if(psize < size) _buffer.pop_front(psize); else _buffer.clear();]. *)
Definition consume (psize size : nat) (b : Stream) : Stream := if Nat.ltb psize size then pop_front psize b else clear b.

(** [ProcessBNetRealm]; a round takes at least the header from the buffer. *)
Fixpoint ProcessBNetRealm (fuel : nat) (p : nat) : R unit :=
  match fuel with
  | O => fun _ => NoFuel
  | S fuel =>
      c ← rclient p;
      let buf := _buf (rc_buffer c) in
      let psize := Z.to_nat (le_val (take 2 buf)) in
      if Nat.leb 3 (length buf) && Nat.leb psize (length buf) then
        match body_of 3 psize buf with
        | None => rcrash
        | Some body =>
            RProcess PluginRealm (PClient p) (nth 2 buf 0) (stream_of body) ;;
            redit p (fun c' => set_rbuffer (consume psize (length buf) (rc_buffer c')) c') ;;
            ProcessBNetRealm fuel p
        end
      else mret tt
  end.

Definition RClient_OnRecv (p : nat) (buf : bytes) : R unit :=
  match buf with
  | [] => mret tt
  | op :: rest =>
      c ← rclient p;
      buf ← (if decide (rc_stage c = R_CONNECTED) then
               RProcess PluginInit (PClient p) op empty_stream ;; mret rest
             else mret buf);
      match buf with
      | [] => mret tt
      | _ =>
          redit p (fun c => set_rbuffer (append buf (rc_buffer c)) c) ;;
          c ← rclient p;
          match rc_stage c with
          | R_BNETREALM => ProcessBNetRealm (S (length (_buf (rc_buffer c)))) p
          | _ => mret tt
          end
      end
  end.

(** [BlitzConn::ProcessBaal] and [BlitzConn::OnRecv]. *)
Definition rconn : R Stream := fun r => match rd_conn r with Some b => Ret (b, r) | None => Crash end.
Fixpoint ProcessBaal (fuel : nat) : R unit :=
  match fuel with
  | O => fun _ => NoFuel
  | S fuel =>
      b ← rconn;
      let buf := _buf b in
      let psize := Z.to_nat (le_val (take 2 buf)) in
      if Nat.leb 4 (length buf) && Nat.leb psize (length buf) then
        match body_of 4 psize buf with
        | None => rcrash
        | Some body =>
            RProcess PluginBaal PBlitz (le_val (take 2 (drop 2 buf))) (stream_of body) ;;
            b ← rconn;
            rchange (set_rconn (Some (consume psize (length buf) b))) ;;
            ProcessBaal fuel
        end
      else mret tt
  end.
Definition BlitzConn_OnRecv (buf : bytes) : R unit :=
  b ← rconn;
  rchange (set_rconn (Some (append buf b))) ;;
  ProcessBaal (S (length (_buf b ++ buf))).

(** ** The loops end *)

Lemma rbuild_and_send_conn to o (r : Realm) b r' : rbuild_and_send to o r = Ret (b, r') -> rd_clients r' = rd_clients r /\ rd_conn r' = rd_conn r.
Proof.
  unfold rbuild_and_send, rsend, rclient, rask, rchange, mret, R_ret, mbind, R_bind. destruct o as [bs|]; [|by intros [= _ <-]].
  destruct to as [p|]; cbn; [destruct (rd_clients r !! p)|destruct (rd_conn r) eqn:?]; try done; by intros [= _ <-].
Qed.
Lemma rbuild_and_send_fuel to o (r : Realm) : rbuild_and_send to o r <> NoFuel.
Proof.
  unfold rbuild_and_send, rsend, rclient, rask, rchange, mret, R_ret, mbind, R_bind. destruct o as [bs|]; [|done].
  destruct to as [p|]; cbn; [by destruct (rd_clients r !! p)|by destruct (rd_conn r)].
Qed.
(** What the loops need of their handlers. *)
Definition keeps (h : R bool) : Prop :=
  forall r, h r <> NoFuel /\ forall b r', h r = Ret (b, r') -> rd_clients r' = rd_clients r /\ rd_conn r' = rd_conn r.
Lemma keeps_ret (b : bool) : keeps (mret b).
Proof. intros r. unfold mret, R_ret. split; [done|]. by intros ? ? [= _ <-]. Qed.
Lemma keeps_send to o : keeps (rbuild_and_send to o ;; mret true).
Proof.
  intros r. unfold mret, R_ret, mbind, R_bind. pose proof (rbuild_and_send_conn to o r) as Hc. pose proof (rbuild_and_send_fuel to o r).
  destruct (rbuild_and_send to o r) as [[[] r1]| |]; [|by split..]. split; [done|]. intros b r' [= _ <-]. by eapply Hc.
Qed.
Lemma keeps_ask {A} (m : R A) f :
  (forall r, m r = Crash \/ exists a, m r = Ret (a, r)) -> (forall a, keeps (f a)) -> keeps (mbind f m).
Proof.
  intros Hm Hf r. unfold mbind, R_bind. destruct (Hm r) as [E|[a E]]; rewrite E; [by split|apply Hf].
Qed.
Lemma realm_keeps cl op in_ : keeps (RProcess PluginRealm cl op in_).
Proof.
  unfold RProcess. destruct (find_plugin PluginRealm op) as [h|] eqn:E; [|apply keeps_ret].
  change ((<[1 := StartupConn_Process]> (∅ : gmap Z plugin)) !! u16 op = Some h) in E.
  apply lookup_insert_Some in E as [[_ <-]|[_ E]]; [|by apply lookup_empty_Some in E].
  unfold StartupConn_Process. apply keeps_ask; [intros r; destruct cl; [right; by eexists|by left]|]. intros p.
  apply keeps_ask; [intros r; unfold rclient; destruct (rd_clients r !! p); [right; by eexists|by left]|]. intros c.
  destruct (get_u32 _ _), (read _ _ _) as [[] ?], (get_str _). apply keeps_send.
Qed.
Lemma baal_keeps cl op in_ : keeps (RProcess PluginBaal cl op in_).
Proof.
  unfold RProcess. destruct (find_plugin PluginBaal op) as [h|] eqn:E; [|apply keeps_ret].
  change ((<[0x10 := UserCheck_Process]> (<[1 := AuthInfo_Process]> (∅ : gmap Z plugin))) !! u16 op = Some h) in E.
  apply lookup_insert_Some in E as [[_ <-]|[_ E]].
  - unfold UserCheck_Process. destruct (get_u32 _ in_) as [token i1]. apply keeps_ask; [intros r; right; by eexists|].
    intros [q|]; [|apply keeps_ret]. destruct (get_u32 _ i1). apply keeps_send.
  - apply lookup_insert_Some in E as [[_ <-]|[_ E]]; [|by apply lookup_empty_Some in E].
    unfold AuthInfo_Process. destruct (get_u32 _ in_) as [? i1], (get_u32 _ i1). apply keeps_send.
Qed.

Lemma consume_shorter psize (b : Stream) : (0 < psize <= length (_buf b))%nat -> (length (_buf (consume psize (length (_buf b)) b)) < length (_buf b))%nat.
Proof.
  intros Hp. unfold consume. destruct (Nat.ltb_spec psize (length (_buf b))) as [Hl|Hl]; [|cbn; lia].
  unfold pop_front. repeat case_match; cbn; rewrite ?length_drop; lia.
Qed.

(** Each round takes a packet from the buffer. *)
Lemma ProcessBNetRealm_ends fuel p c r :
  rd_clients r !! p = Some c -> (length (_buf (rc_buffer c)) < fuel)%nat -> ProcessBNetRealm fuel p r <> NoFuel.
Proof.
  revert c r. induction fuel as [|fuel IH]; intros c r Hc Hf; [lia|].
  cbn [ProcessBNetRealm]. unfold mbind at 1, R_bind at 1, rclient at 1. rewrite Hc.
  set (psize := Z.to_nat _). destruct (_ && _) eqn:Eg; [|done].
  apply andb_true_iff in Eg as [_ Hp%Nat.leb_le]. unfold body_of. destruct (Nat.ltb_spec psize 3); [done|].
  destruct (realm_keeps (PClient p) (nth 2 (_buf (rc_buffer c)) 0) (stream_of (take (psize - 3) (drop 3 (_buf (rc_buffer c))))) r) as [Hn Hk].
  unfold mbind at 1, R_bind at 1. destruct (RProcess _ _ _ _ r) as [[b r1]| |]; [|done..].
  destruct (Hk b r1 eq_refl) as [Ec _]. unfold redit, mbind, R_bind, rclient, rchange. rewrite Ec, Hc.
  eapply IH; [cbn; rewrite Ec; apply lookup_insert_eq|].
  cbn [rc_buffer set_rbuffer]. pose proof (consume_shorter psize (rc_buffer c)). lia.
Qed.
Lemma ProcessBaal_ends fuel k r :
  rd_conn r = Some k -> (length (_buf k) < fuel)%nat -> ProcessBaal fuel r <> NoFuel.
Proof.
  revert k r. induction fuel as [|fuel IH]; intros k r Hc Hf; [lia|].
  cbn [ProcessBaal]. unfold mbind at 1, R_bind at 1, rconn at 1. rewrite Hc.
  set (psize := Z.to_nat _). destruct (_ && _) eqn:Eg; [|done].
  apply andb_true_iff in Eg as [_ Hp%Nat.leb_le]. unfold body_of. destruct (Nat.ltb_spec psize 4); [done|].
  destruct (baal_keeps PBlitz (le_val (take 2 (drop 2 (_buf k)))) (stream_of (take (psize - 4) (drop 4 (_buf k)))) r) as [Hn Hk].
  unfold mbind at 1, R_bind at 1. destruct (RProcess _ _ _ _ r) as [[b r1]| |]; [|done..].
  destruct (Hk b r1 eq_refl) as [_ Ec]. unfold mbind, R_bind, rconn, rchange. rewrite Ec, Hc.
  eapply IH; [done|]. pose proof (consume_shorter psize k). lia.
Qed.
End handlers.
