(* ===== verification/RealmLogon.v ===== *)
(** * RealmLogon: a logon to a realm, across the two daemons

    A game client asks blitzd for a realm ([RealmLogonEx]), takes what it gets
    to baald ([StartupConn]), which asks blitzd ([UserCheck] there) and tells the
    client the verdict ([UserCheck] of baald). *)

From S2P Require Import Prelude Words Stream OMap CStr ShaCtx Sha1 BSha1 Srp3 NumFmt Storage UserItem UserCache Framing Packets World Chat ChatInv ChatOps ChatLife ChatTables Commands Handlers ChatSafe Logon Files Time Caches Strtol Revision Ladder Server Dispatch StageInv SessionSafe.
From S2P Require Baald.
Import Baald (Realm, rd_clients, rd_sessionMap, rd_conn, rd_out, radd_out, RClient, rc_buffer, rc_stage, rc_session,
  PClient, PBlitz, R_BNETREALM, RClient_OnRecv, BlitzConn_OnRecv, BaalUserCheck_Pack, RealmStartupConn_Pack, Realm_Build).

(** ** Bytes *)

Lemma sha1_digest_length block parts : length (sha1_digest block parts) = 20%nat.
Proof.
  unfold sha1_digest, sha1_run, SHA1Result, Result.
  destruct (sha1_inputs _ _) as [c|]; [|done]. by destruct (negb (Corrupted c =? 0)).
Qed.
Lemma realm_proof_length block cookie session token pw : length (realm_proof block cookie session token pw) = 20%nat.
Proof. apply sha1_digest_length. Qed.

Lemma skip_rest n st r : ok st -> rest st = r -> (n <= length r)%nat -> ok (skip n st) /\ rest (skip n st) = drop n r.
Proof.
  intros Hok Hr Hn. split; [by apply skip_ok|]. pose proof (length_rest st) as Hl. rewrite Hr in Hl. destruct Hok as [Hwf _].
  unfold wf, skip, rest, size in *. cbn [_pos _buf]. destruct (Nat.ltb_spec (length (_buf st)) (_pos st + n)); [lia|].
  by rewrite <- drop_drop, Hr.
Qed.

(** A packet of the realm protocol, and of the protocol between the daemons. *)
Definition enc_realm (op : Z) (body : bytes) : bytes := le_bytes 2 (Z.of_nat (length body) + 3) ++ [op] ++ body.

Lemma le_val_small n v : 0 <= v < 256 ^ Z.of_nat n -> le_val (le_bytes n v) = v.
Proof. intros Hv. by rewrite le_val_le_bytes, Z.mod_small. Qed.

Lemma Baal_Build_enc token cmd pack body :
  0 <= cmd < 65536 -> (forall st, pack st = Some (mkStream (_pos st) (_buf st ++ body))) ->
  Z.of_nat (length body) < 65528 ->
  Baal_Build token cmd pack = Some (enc_low (cmd, le_bytes 4 token ++ body)).
Proof.
  intros Hc Hp Hl. unfold Baal_Build. rewrite Hp. cbn [mbind option_bind]. f_equal. unfold enc_low, poke. cbn [fst snd].
  cbn [put_u16 put_u32 put_le append empty_stream _buf _pos size]. rewrite u16_small by done.
  unfold put_u32, put_u16, put_le, append. cbn [_buf _pos].
  assert (size (mkStream 0 ((((([] : bytes) ++ le_bytes 2 0) ++ le_bytes 2 cmd) ++ le_bytes 4 token) ++ body)) = (length (le_bytes 4 token ++ body) + 4)%nat) as Hs.
  { unfold size. cbn [_buf]. rewrite !length_app, !length_le_bytes. cbn [length]. lia. }
  rewrite Hs. rewrite Nat2Z.inj_add, u16_small by (rewrite length_app, length_le_bytes; lia).
  cbn [take app]. rewrite length_le_bytes. cbn [Nat.add]. rewrite <- !app_assoc. done.
Qed.

(** ** blitzd: the check *)

Section check.
Context {S : Type} (stack_block : bytes).
Implicit Types (s : Server S) (w : World S).

(** What the check of [name] with [hash] comes to. *)
Definition verdict w (cookie : Z) (hash name : bytes) : Z :=
  match om_find ci_ltb name (w_clientMap w) with
  | None => 0x0C
  | Some q =>
      match w_clients w !! q with
      | None => 0x0C
      | Some c =>
          match c_user c ≫= fun u => uc_heap (w_uc w) !! u with
          | None => 0x0C
          | Some a => if decide (realm_proof stack_block cookie (c_session c) (c_token c) (u_passwd a) = hash) then 0 else 0x0C
          end
      end
  end.

Definition check_body (n cookie : Z) (hash name : bytes) : bytes := le_bytes 4 n ++ le_bytes 4 cookie ++ hash ++ name ++ [0].

Lemma UserCheck_verdict ju (jb : nat -> nat -> bytes) k n cookie hash name s :
  inv (sv_world s) -> is_Some (w_clients (sv_world s) !! k) ->
  0 <= n < 2 ^ 32 -> 0 <= cookie < 2 ^ 32 -> length hash = 20%nat -> no_nul name -> Z.of_nat (length name) < 65000 ->
  length (jb 0%nat 20%nat) = 20%nat ->
  UserCheck_Process ju jb stack_block k (stream_of (check_body n cookie hash name)) s =
    Ret (true, set_world (add_out [(k, enc_low (0x10, le_bytes 4 n ++ le_bytes 4 (verdict (sv_world s) cookie hash name)))] (sv_world s)) s).
Proof.
  intros Hi [ck Hk] Hn Hc Hh Hnul Hl Hjb.
  assert (length (check_body n cookie hash name) = (29 + length name)%nat) as Hlen.
  { unfold check_body. rewrite !length_app, !length_le_bytes, Hh. cbn [length]. lia. }
  destruct (stream_of_ok (check_body n cookie hash name)) as [Ho Hr]; [rewrite Hlen; lia|].
  unfold UserCheck_Process. unfold get_u32.
  destruct (get_le_app 4 n (ju 0%nat) _ _ Ho Hr) as (i1 & -> & Ho1 & Hr1).
  destruct (get_le_app 4 cookie (ju 1%nat) _ _ Ho1 Hr1) as (i2 & -> & Ho2 & Hr2).
  destruct (read_app (jb 0%nat 20%nat) 20 hash _ _ Ho2 Hr2 Hh Hjb) as (i3 & -> & Ho3 & Hr3).
  destruct (get_str_app name [] i3 Ho3 Hnul Hr3) as (i4 & -> & _).
  change (256 ^ Z.of_nat 4) with (2 ^ 32). rewrite !Z.mod_small by done.
  set (v := verdict (sv_world s) cookie hash name).
  assert (forall (m : N S Z), m s = Ret (v, s) ->
    mbind (fun res => mbind (fun _ => mret true) (onW (build_and_send k (Baal_Build n 0x10 (BaalCheckReply_Pack res))))) m s =
      Ret (true, set_world (add_out [(k, enc_low (0x10, le_bytes 4 n ++ le_bytes 4 v))] (sv_world s)) s)) as Hans.
  { intros m Hm. unfold mbind at 1, N_bind at 1. rewrite Hm.
    rewrite (Baal_Build_enc n 0x10 (BaalCheckReply_Pack v) (le_bytes 4 v)); [|lia|done|rewrite length_le_bytes; lia].
    unfold mbind, N_bind, onW, build_and_send. by rewrite (send_eq _ _ _ _ Hk). }
  unfold mbind at 1, N_bind at 1. rewrite (onW_eq (pool_name name) s (om_find ci_ltb name (w_clientMap (sv_world s)))) by done.
  apply Hans. subst v. unfold verdict.
  destruct (om_find ci_ltb name (w_clientMap (sv_world s))) as [q|] eqn:Eq; [|done].
  destruct (proj1 (proj2 Hi) name q Eq) as (c & u & a & Hq & Hu & Ha & _). rewrite Hq, Hu. cbn [mbind option_bind]. rewrite Ha.
  unfold mbind, N_bind. rewrite (onW_eq (client q) s c) by (by apply client_eq). rewrite Hu.
  rewrite (onW_eq (account u) s a) by (unfold account; by rewrite Ha). done.
Qed.
End check.

Section daemons.
Context {S : Type} (store : Storage_ops S) (junk : nat -> bytes) (ufuel : nat).
Context (E : outside S) (dir stack_block : bytes) (room : Z -> bool) (G : Gmp).
Notation receive := (receive store junk ufuel E dir stack_block room G).
Implicit Types (s : Server S).

(** A whole packet of a realm's connection. *)
Lemma receive_baal k op body s : stage_of (sv_world s) k = Some BAAL -> frame_ok (op, body) ->
  receive k (enc_low (op, body)) (Ret s) = ([], drive (PluginBaal E stack_block) k op (stream_of body) (Ret s)).
Proof.
  intros Hs Hf.
  assert (stage_at (Ret s) k = BAAL) as Ha.
  { unfold stage_at. unfold stage_of in Hs. destruct (w_clients (sv_world s) !! k) as [c|]; [by injection Hs|done]. }
  assert (partial low_half []) as Hp by (left; cbn; lia).
  destruct (framed_encoded (fun _ => true) (fun _ => []) (fun _ => eq_refl) low_half high_half enc_low
    (drive (PluginBaal E stack_block) k) (fun h => proj2 (half_bound h)) [(op, body)] [] ltac:(by constructor) Hp) as [_ Hrun].
  specialize (Hrun (Ret s)). rewrite fmap_cons, mjoin_cons in Hrun. cbn [mjoin list_join fmap list_fmap] in Hrun.
  rewrite !app_nil_r in Hrun.
  assert (sb_length (enc_low (op, body)) <> 0%nat) as Hl by (unfold sb_length, enc_low; rewrite length_app, length_le_bytes; lia).
  unfold Dispatch.receive, OnRecv. apply Nat.eqb_neq in Hl. rewrite Hl, Ha, Hl, Ha. unfold ProcessBaal. exact Hrun.
Qed.

Lemma drive_check k i s : drive (PluginBaal E stack_block) k 0x10 i (Ret s) =
  match UserCheck_Process (o_ju E s) (o_jb E s) stack_block k i s with Ret (_, s') => Ret s' | Crash => Crash | NoFuel => NoFuel end.
Proof.
  assert (find_plugin (PluginBaal E stack_block) 0x10 = Some (snd (pl_UserCheck E stack_block))) as Hf by reflexivity.
  unfold drive, Process. rewrite Hf. cbn [mbind result_bind]. unfold pl_UserCheck. cbn [snd].
  by destruct (UserCheck_Process _ _ _ _ _ _) as [[b s']| |].
Qed.

Lemma check_received k n cookie hash name s :
  inv (sv_world s) -> stage_of (sv_world s) k = Some BAAL ->
  0 <= n < 2 ^ 32 -> 0 <= cookie < 2 ^ 32 -> length hash = 20%nat -> bytes_ok hash -> no_nul name -> bytes_ok name ->
  Z.of_nat (length name) < 65000 -> length (o_jb E s 0%nat 20%nat) = 20%nat ->
  receive k (enc_low (0x10, check_body n cookie hash name)) (Ret s) =
    ([], Ret (set_world (add_out [(k, enc_low (0x10, le_bytes 4 n ++ le_bytes 4 (verdict stack_block (sv_world s) cookie hash name)))] (sv_world s)) s)).
Proof.
  intros Hi Hs Hn Hc Hh Hhb Hnul Hnb Hl Hjb. rewrite receive_baal; [|done|].
  - rewrite drive_check, UserCheck_verdict; try done. unfold stage_of in Hs.
    destruct (w_clients (sv_world s) !! k) as [c|]; [by exists c|done].
  - split; [cbn; lia|]. cbn [snd]. unfold check_body. rewrite !length_app, !length_le_bytes, Hh. cbn [length]. split; [|lia].
    unfold bytes_ok. rewrite !Forall_app. split_and!; try done; try apply le_bytes_ok. repeat constructor; unfold byte_ok; lia.
Qed.
End daemons.

(** ** baald: passing on *)

Lemma rbind_eq {A B} (m : Baald.R A) (f : A -> Baald.R B) (r : Realm) a r' : m r = Ret (a, r') -> mbind f m r = f a r'.
Proof. intros Hm. unfold mbind, Baald.R_bind. by rewrite Hm. Qed.
Lemma rclient_eq p c (r : Realm) : rd_clients r !! p = Some c -> Baald.rclient p r = Ret (c, r).
Proof. intros Hc. unfold Baald.rclient. by rewrite Hc. Qed.
Lemma redit_eq p c f (r : Realm) : rd_clients r !! p = Some c ->
  Baald.redit p f r = Ret (tt, Baald.set_rclients (<[p := f c]> (rd_clients r)) r).
Proof. intros Hc. unfold Baald.redit. by rewrite (rbind_eq _ _ _ _ _ (rclient_eq _ _ _ Hc)). Qed.

Section baald.
Context (ju : nat -> Z) (jb : nat -> nat -> bytes) (Hjb : length (jb 0%nat 20%nat) = 20%nat).
Implicit Types (r : Realm).

Definition startup_body (cookie : Z) (filler hash name : bytes) : bytes := le_bytes 4 cookie ++ filler ++ hash ++ name ++ [0].

Lemma StartupConn_run q c cookie filler hash name r :
  rd_clients r !! q = Some c -> is_Some (rd_conn r) ->
  0 <= cookie < 2 ^ 32 -> length filler = 40%nat -> length hash = 20%nat -> no_nul name -> Z.of_nat (length name) < 65000 ->
  Baald.StartupConn_Process ju jb (PClient q) (stream_of (startup_body cookie filler hash name)) r =
    Ret (true, radd_out [(PBlitz, enc_low (0x10, check_body (rc_session c) cookie hash name))] r).
Proof.
  intros Hq [k Hk] Hc Hf Hh Hnul Hl.
  assert (length (startup_body cookie filler hash name) = (65 + length name)%nat) as Hlen.
  { unfold startup_body. rewrite !length_app, length_le_bytes, Hf, Hh. cbn [length]. lia. }
  destruct (stream_of_ok (startup_body cookie filler hash name)) as [Ho Hr]; [rewrite Hlen; lia|].
  unfold Baald.StartupConn_Process, Baald.as_client. rewrite (rbind_eq _ _ r q r) by done.
  rewrite (rbind_eq _ _ _ _ _ (rclient_eq _ _ _ Hq)). unfold get_u32.
  destruct (get_le_app 4 cookie (ju 0%nat) _ _ Ho Hr) as (i1 & -> & Ho1 & Hr1).
  destruct (skip_rest 40 i1 _ Ho1 Hr1) as [Ho2 Hr2]; [rewrite length_app; lia|].
  rewrite drop_app_length' in Hr2 by done.
  destruct (read_app (jb 0%nat 20%nat) 20 hash _ _ Ho2 Hr2 Hh Hjb) as (i3 & -> & Ho3 & Hr3).
  destruct (get_str_app name [] i3 Ho3 Hnul Hr3) as (i4 & -> & _).
  change (256 ^ Z.of_nat 4) with (2 ^ 32). rewrite Z.mod_small by done.
  rewrite (Baal_Build_enc _ 0x10 (BaalUserCheck_Pack cookie hash name) (le_bytes 4 cookie ++ hash ++ name ++ [0])).
  - unfold Baald.rbuild_and_send, Baald.rsend, mbind, Baald.R_bind, Baald.rask. rewrite Hk. done.
  - lia.
  - intros st. unfold BaalUserCheck_Pack, put_str, append, put_u32, put_le. cbn [_pos _buf].
    rewrite (take_ge hash) by lia. unfold append. cbn [_pos _buf]. by rewrite <- !app_assoc.
  - rewrite !length_app, length_le_bytes, Hh. cbn [length]. lia.
Qed.

(** A whole packet that is alone in the buffer. *)
Lemma enc_realm_facts op body : Z.of_nat (length body) < 65000 ->
  let b := enc_realm op body in
  length b = (length body + 3)%nat /\ Z.to_nat (le_val (take 2 b)) = (length body + 3)%nat /\ nth 2 b 0 = op /\
  Baald.body_of 3 (length body + 3) b = Some body /\ exists x l, b = x :: l.
Proof.
  intros Hl. cbv zeta.
  assert (length (enc_realm op body) = (length body + 3)%nat) as Hlen
    by (unfold enc_realm; rewrite !length_app, length_le_bytes; cbn [length]; lia).
  split_and!; [done| |done| |by eexists _, _].
  - unfold enc_realm. rewrite take_app_length' by (by rewrite length_le_bytes).
    rewrite le_val_small; [lia|]. change (256 ^ Z.of_nat 2) with 65536. lia.
  - unfold Baald.body_of. destruct (Nat.ltb_spec (length body + 3) 3); [lia|].
    replace (length body + 3 - 3)%nat with (length body) by lia.
    change (drop 3 (enc_realm op body)) with body. by rewrite take_ge by lia.
Qed.

Lemma realm_round q n op body r r1 b fuel :
  Z.of_nat (length body) < 65000 ->
  rd_clients r !! q = Some (Baald.mkRClient (stream_of (enc_realm op body)) R_BNETREALM n) ->
  Baald.RProcess (Baald.PluginRealm ju jb) (PClient q) op (stream_of body) r = Ret (b, r1) ->
  rd_clients r1 = rd_clients r ->
  Baald.ProcessBNetRealm ju jb (S (S fuel)) q r =
    Ret (tt, Baald.set_rclients (<[q := Baald.mkRClient empty_stream R_BNETREALM n]> (rd_clients r)) r1).
Proof.
  intros Hl Hq Hp Hr1. destruct (enc_realm_facts op body Hl) as (F1 & F2 & F3 & F4 & _).
  cbn [Baald.ProcessBNetRealm]. rewrite (rbind_eq _ _ _ _ _ (rclient_eq _ _ _ Hq)). cbn [rc_buffer _buf stream_of].
  rewrite F1, F2, F3, F4. rewrite (proj2 (Nat.leb_le 3 (length body + 3))), Nat.leb_refl by lia. cbn [andb].
  rewrite (rbind_eq _ _ _ _ _ Hp). erewrite rbind_eq; [|apply redit_eq; by rewrite Hr1].
  unfold Baald.consume. rewrite Nat.ltb_irrefl. rewrite Hr1.
  erewrite rbind_eq; [|apply rclient_eq; cbn [rd_clients Baald.set_rclients]; apply lookup_insert_eq].
  done.
Qed.

Lemma realm_received q n op body r r1 b :
  Z.of_nat (length body) < 65000 ->
  let buffered := Baald.set_rclients (<[q := Baald.mkRClient (stream_of (enc_realm op body)) R_BNETREALM n]> (rd_clients r)) r in
  rd_clients r !! q = Some (Baald.mkRClient empty_stream R_BNETREALM n) ->
  Baald.RProcess (Baald.PluginRealm ju jb) (PClient q) op (stream_of body) buffered = Ret (b, r1) ->
  rd_clients r1 = rd_clients buffered ->
  RClient_OnRecv ju jb q (enc_realm op body) r = Ret (tt, Baald.set_rclients (rd_clients r) r1).
Proof.
  intros Hl buffered Hq Hp Hr1. destruct (enc_realm_facts op body Hl) as (_ & _ & _ & _ & x & l & Ee).
  unfold RClient_OnRecv. rewrite Ee. rewrite (rbind_eq _ _ _ _ _ (rclient_eq _ _ _ Hq)). cbn [rc_stage].
  rewrite decide_False by done. rewrite (rbind_eq _ _ r (x :: l) r) by done. rewrite <- Ee.
  rewrite (rbind_eq _ _ _ _ _ (redit_eq _ _ _ _ Hq)).
  change (Baald.set_rclients (<[q:=_]> (rd_clients r)) r) with buffered.
  assert (rd_clients buffered !! q = Some (Baald.mkRClient (stream_of (enc_realm op body)) R_BNETREALM n)) as Hb
    by apply lookup_insert_eq.
  rewrite (rbind_eq _ _ _ _ _ (rclient_eq _ _ _ Hb)). cbn [rc_stage rc_buffer _buf stream_of].
  rewrite Ee at 1. cbn [length]. rewrite (realm_round q n op body buffered r1 b); [|done..].
  subst buffered. cbn [rd_clients Baald.set_rclients]. by rewrite insert_insert_eq, insert_id.
Qed.

Lemma startup_received q n cookie filler hash name r :
  rd_clients r !! q = Some (Baald.mkRClient empty_stream R_BNETREALM n) -> is_Some (rd_conn r) ->
  0 <= cookie < 2 ^ 32 -> length filler = 40%nat -> length hash = 20%nat -> no_nul name -> Z.of_nat (length name) < 60000 ->
  RClient_OnRecv ju jb q (enc_realm 1 (startup_body cookie filler hash name)) r =
    Ret (tt, radd_out [(PBlitz, enc_low (0x10, check_body n cookie hash name))] r).
Proof.
  intros Hq Hk Hc Hf Hh Hnul Hl.
  assert (Z.of_nat (length (startup_body cookie filler hash name)) < 65000) as Hlen.
  { unfold startup_body. rewrite !length_app, length_le_bytes, Hf, Hh. cbn [length]. lia. }
  set (body := startup_body cookie filler hash name) in *.
  erewrite realm_received; [|exact Hlen|exact Hq| |].
  2: { change (Baald.RProcess (Baald.PluginRealm ju jb) (PClient q) 1 (stream_of body))
         with (Baald.StartupConn_Process ju jb (PClient q) (stream_of body)).
       eapply StartupConn_run; [apply lookup_insert_eq|done|done|done|done|done|lia]. }
  2: done.
  cbn [rc_session]. by destruct r.
Qed.

End baald.

(** ** baald: the answer *)

Section answer.
Context (ju : nat -> Z) (tcpPort : Z) (realm_name realm_desc : bytes).
Implicit Types (r : Realm).

Lemma enc_low_facts op body : 0 <= op < 65536 -> Z.of_nat (length body) < 65000 ->
  let b := enc_low (op, body) in
  length b = (length body + 4)%nat /\ Z.to_nat (le_val (take 2 b)) = (length body + 4)%nat /\
  le_val (take 2 (drop 2 b)) = op /\ Baald.body_of 4 (length body + 4) b = Some body.
Proof.
  intros Hop Hl. cbv zeta.
  assert (length (enc_low (op, body)) = (length body + 4)%nat) as Hlen
    by (unfold enc_low; rewrite !length_app, !length_le_bytes; cbn [snd]; lia).
  split_and!; [done| | |].
  - unfold enc_low. rewrite take_app_length' by (by rewrite length_le_bytes). cbn [snd].
    rewrite le_val_small; [lia|]. change (256 ^ Z.of_nat 2) with 65536. lia.
  - unfold enc_low. rewrite drop_app_length' by (by rewrite length_le_bytes).
    rewrite take_app_length' by (by rewrite length_le_bytes). by apply le_val_small.
  - unfold Baald.body_of. destruct (Nat.ltb_spec (length body + 4) 4); [lia|].
    replace (length body + 4 - 4)%nat with (length body) by lia.
    change (drop 4 (enc_low (op, body))) with body. by rewrite take_ge by lia.
Qed.

Lemma conn_received op body r r1 b : 0 <= op < 65536 -> Z.of_nat (length body) < 65000 ->
  rd_conn r = Some empty_stream ->
  let buffered := Baald.set_rconn (Some (stream_of (enc_low (op, body)))) r in
  Baald.RProcess (Baald.PluginBaal ju tcpPort realm_name realm_desc) PBlitz op (stream_of body) buffered = Ret (b, r1) ->
  rd_conn r1 = rd_conn buffered ->
  BlitzConn_OnRecv ju tcpPort realm_name realm_desc (enc_low (op, body)) r = Ret (tt, Baald.set_rconn (rd_conn r) r1).
Proof.
  intros Hop Hl Hk buffered Hp Hr1. destruct (enc_low_facts op body Hop Hl) as (F1 & F2 & F3 & F4).
  assert (forall x y, rd_conn x = Some y -> Baald.rconn x = Ret (y, x)) as Hconn by (intros x y Hx; unfold Baald.rconn; by rewrite Hx).
  unfold BlitzConn_OnRecv. rewrite (rbind_eq _ _ _ _ _ (Hconn _ _ Hk)).
  rewrite (rbind_eq _ _ r tt buffered) by done. cbn [_buf empty_stream app]. rewrite F1.
  replace (S (length body + 4)) with (S (S (length body + 3))) by lia. cbn [Baald.ProcessBaal].
  rewrite (rbind_eq _ _ buffered (stream_of (enc_low (op, body))) buffered) by done. cbn [_buf stream_of].
  rewrite F1, F2, F3, F4. rewrite (proj2 (Nat.leb_le 4 (length body + 4))), Nat.leb_refl by lia. cbn [andb].
  rewrite (rbind_eq _ _ _ _ _ Hp). rewrite (rbind_eq _ _ _ _ _ (Hconn _ _ Hr1)).
  unfold Baald.consume. rewrite Nat.ltb_irrefl.
  rewrite (rbind_eq _ _ r1 tt (Baald.set_rconn (Some empty_stream) r1)) by done. by rewrite Hk.
Qed.

(** The packet that tells the client the verdict. *)
Definition verdict_packet (v : Z) : bytes := enc_realm 1 (le_bytes 4 v).

Lemma answer_received q n c v r : 0 <= n < 2 ^ 32 -> 0 <= v < 2 ^ 32 ->
  rd_conn r = Some empty_stream -> rd_sessionMap r !! n = Some q -> rd_clients r !! q = Some c ->
  BlitzConn_OnRecv ju tcpPort realm_name realm_desc (enc_low (0x10, le_bytes 4 n ++ le_bytes 4 v)) r =
    Ret (tt, radd_out [(PClient q, verdict_packet v)] r).
Proof.
  intros Hn Hv Hk Hs Hq. set (body := le_bytes 4 n ++ le_bytes 4 v).
  assert (length body = 8%nat) as Hlen by (unfold body; by rewrite length_app, !length_le_bytes).
  set (b := enc_low (16, body)).
  destruct (stream_of_ok body) as [Ho Hr]; [rewrite Hlen; lia|].
  subst b. erewrite conn_received; [|lia|rewrite Hlen; lia|done| |].
  2: { change (Baald.RProcess (Baald.PluginBaal ju tcpPort realm_name realm_desc) PBlitz 16 (stream_of body))
         with (Baald.UserCheck_Process ju PBlitz (stream_of body)).
       unfold Baald.UserCheck_Process, get_u32.
       destruct (get_le_app 4 n (ju 0%nat) _ _ Ho Hr) as (i1 & -> & Ho1 & Hr1).
       rewrite <- (app_nil_r (le_bytes 4 v)) in Hr1.
       destruct (get_le_app 4 v (ju 1%nat) _ _ Ho1 Hr1) as (i2 & E2 & _). rewrite E2.
       change (256 ^ Z.of_nat 4) with (2 ^ 32). rewrite !Z.mod_small by done.
       erewrite rbind_eq; [|unfold Baald.ClientPool_index, Baald.rask; cbn [Baald.set_rconn rd_sessionMap]; by rewrite Hs].
       cbv beta iota. erewrite rbind_eq; [done|]. unfold Baald.rbuild_and_send, Realm_Build, RealmStartupConn_Pack. cbn [mbind option_bind].
       unfold Baald.rsend. erewrite rbind_eq; [done|]. by apply rclient_eq. }
  2: done.
  by destruct r.
Qed.
End answer.

(** ** A realm comes up *)

Section handshake.
Context {S : Type} (store : Storage_ops S) (junk : nat -> bytes) (ufuel : nat).
Context (E : outside S) (dir stack_block : bytes) (room : Z -> bool) (G : Gmp).
Notation receive := (receive store junk ufuel E dir stack_block room G).
Implicit Types (s : Server S).

(** After the protocol byte: the stage, and the session number sent out. *)
Definition greeted (k : nat) (c : Client) s : Server S :=
  set_world (add_out [(k, enc_low (0x01, le_bytes 4 0 ++ le_bytes 4 (c_session c)))]
    (set_w_clients (<[k := set_c_stage BAAL c]> (w_clients (sv_world s))) (sv_world s))) s.

Lemma receive_greeting k c s : w_clients (sv_world s) !! k = Some c -> c_stage c = CONNECTED ->
  receive k [0x65] (Ret s) = ([], Ret (greeted k c s)).
Proof.
  intros Hk Hst.
  assert (stage_at (Ret s) k = CONNECTED) as Ha by (unfold stage_at; by rewrite Hk).
  unfold Dispatch.receive, OnRecv. cbn [sb_length length Nat.eqb]. rewrite Ha. cbn [sb_read take drop le_val sb_length length Nat.eqb].
  change (101 + 256 * 0) with 101. f_equal.
  assert (find_plugin PluginInit 101 = Some (snd (@pl_InitBaal S))) as Hf by reflexivity.
  unfold drive, Process. rewrite Hf. cbn [mbind result_bind pl_InitBaal snd].
  unfold InitBaal_Process, mbind, N_bind. unfold onW at 1, SetStage. rewrite (edit_client_eq _ _ _ _ Hk).
  cbn [decide]. rewrite decide_False by done.
  set (w1 := set_w_clients (<[k := set_c_stage BAAL c]> (w_clients (sv_world s))) (sv_world s)).
  assert (w_clients w1 !! k = Some (set_c_stage BAAL c)) as Hk1
    by (subst w1; destruct (sv_world s); cbn; apply lookup_insert_eq).
  unfold onW. cbn [sv_world set_world]. rewrite (client_eq _ _ _ Hk1). cbn [sv_world set_world].
  rewrite (Baal_Build_enc 0 0x01 _ (le_bytes 4 (c_session (set_c_stage BAAL c)))); [|lia|done|rewrite length_le_bytes; lia].
  unfold build_and_send. rewrite (send_eq _ _ _ _ Hk1). unfold greeted. fold w1. by destruct c.
Qed.

Definition auth_body (token session port : Z) (name desc : bytes) : bytes :=
  le_bytes 4 token ++ le_bytes 4 session ++ le_bytes 2 port ++ name ++ 0 :: desc ++ [0].

(** [RealmAuth] for a realm whose name is free. *)
Lemma RealmAuth_registers ju peer k c addr session port name desc s :
  peer k = Some addr -> w_clients (sv_world s) !! k = Some c -> c_session c = session -> 0 <= session < 2 ^ 32 -> 0 <= port < 65536 ->
  no_nul name -> no_nul desc -> Z.of_nat (length name) < 30000 -> Z.of_nat (length desc) < 30000 ->
  RealmCache_at (sv_realms s) name = None ->
  exists s', RealmAuth_Process ju peer k (stream_of (auth_body 0 session port name desc)) s = Ret (true, s') /\
    sv_realms s' = (RealmCache_Add (sv_realms s) name desc port (htonl addr)).2 /\
    sv_closing s' = sv_closing s /\
    sv_world s' = add_out [(k, enc_low (0x02, le_bytes 4 0 ++ le_bytes 4 0))] (sv_world s).
Proof.
  intros Hpeer Hk Hs Hr Hp Hn Hd Hln Hld Hfree.
  assert (length (auth_body 0 session port name desc) = (12 + length name + length desc)%nat) as Hlen.
  { unfold auth_body. rewrite !length_app, !length_le_bytes. cbn [length]. rewrite length_app. cbn [length]. lia. }
  destruct (stream_of_ok (auth_body 0 session port name desc)) as [Ho Hro]; [rewrite Hlen; lia|].
  unfold RealmAuth_Process, get_u32, get_u16.
  destruct (get_le_app 4 0 (ju 0%nat) _ _ Ho Hro) as (i1 & -> & Ho1 & Hr1).
  destruct (get_le_app 4 session (ju 1%nat) _ _ Ho1 Hr1) as (i2 & -> & Ho2 & Hr2).
  destruct (get_le_app 2 port (ju 2%nat) _ _ Ho2 Hr2) as (i3 & -> & Ho3 & Hr3).
  destruct (get_str_app name _ i3 Ho3 Hn Hr3) as (i4 & -> & Ho4 & Hr4).
  destruct (get_str_app desc [] i4 Ho4 Hd Hr4) as (i5 & -> & _).
  change (256 ^ Z.of_nat 4) with (2 ^ 32). change (256 ^ Z.of_nat 2) with 65536. rewrite !Z.mod_small by lia.
  unfold mbind at 1, N_bind at 1. rewrite (onW_eq (client k) s c) by (by apply client_eq).
  rewrite Hs, Z.eqb_refl. unfold mbind, N_bind, ask. rewrite Hfree, Hpeer.
  rewrite (Baal_Build_enc 0 0x02 _ (le_bytes 4 0)); [|lia|done|rewrite length_le_bytes; lia].
  unfold change, onW, build_and_send. cbn [sv_world set_realms]. rewrite (send_eq _ _ _ _ Hk). by eexists.
Qed.
End handshake.

(** [AuthInfo] of baald. *)
Lemma auth_answered ju tcpPort rname rdesc session r : 0 <= session < 2 ^ 32 -> 0 <= tcpPort < 65536 ->
  Z.of_nat (length rname) < 30000 -> Z.of_nat (length rdesc) < 30000 -> rd_conn r = Some empty_stream ->
  BlitzConn_OnRecv ju tcpPort rname rdesc (enc_low (0x01, le_bytes 4 0 ++ le_bytes 4 session)) r =
    Ret (tt, radd_out [(PBlitz, enc_low (0x02, auth_body 0 session tcpPort rname rdesc))] r).
Proof.
  intros Hs Ht Hn Hd Hk. set (body := le_bytes 4 0 ++ le_bytes 4 session).
  assert (length body = 8%nat) as Hlen by (unfold body; by rewrite length_app, !length_le_bytes).
  destruct (stream_of_ok body) as [Ho Hr]; [rewrite Hlen; lia|].
  erewrite conn_received; [|lia|rewrite Hlen; lia|done| |].
  2: { change (Baald.RProcess (Baald.PluginBaal ju tcpPort rname rdesc) PBlitz 1 (stream_of body))
         with (Baald.AuthInfo_Process ju tcpPort rname rdesc PBlitz (stream_of body)).
       unfold Baald.AuthInfo_Process, get_u32.
       destruct (get_le_app 4 0 (ju 0%nat) _ _ Ho Hr) as (i1 & -> & Ho1 & Hr1).
       rewrite <- (app_nil_r (le_bytes 4 session)) in Hr1.
       destruct (get_le_app 4 session (ju 1%nat) _ _ Ho1 Hr1) as (i2 & E2 & _). rewrite E2.
       change (256 ^ Z.of_nat 4) with (2 ^ 32). rewrite !Z.mod_small by lia.
       rewrite (Baal_Build_enc 0 0x02 _ (le_bytes 4 session ++ le_bytes 2 tcpPort ++ rname ++ 0 :: rdesc ++ [0])).
       - unfold Baald.rbuild_and_send, Baald.rsend, mbind, Baald.R_bind, Baald.rask. cbn [rd_conn Baald.set_rconn]. done.
       - lia.
       - intros st. unfold Baald.BaalRealmAuth_Pack, put_str, put_u16, put_u32, put_le, append. cbn [_pos _buf].
         rewrite u16_small by lia. by rewrite <- !app_assoc.
       - rewrite !length_app, !length_le_bytes. cbn [length]. rewrite length_app. cbn [length]. lia. }
  2: done.
  by destruct r.
Qed.

(** ** blitzd: the reply the client takes along *)

Section reply.
Context {S : Type} (stack_block : bytes).
Implicit Types (s : Server S).

Definition reply_head (cookie : Z) (c : Client) : bytes :=
  le_bytes 4 cookie ++ le_bytes 4 0 ++ le_bytes 4 0 ++ le_bytes 4 (c_session c).
Definition reply_where (realm : RealmCacheItem) : bytes :=
  le_bytes 4 (htonl (rl_ip realm)) ++ le_bytes 4 (htons (rl_port realm)).
Definition reply_tail (cookie : Z) (c : Client) (a : UserCacheItem) : bytes :=
  replicate 12 0 ++ le_bytes 4 (c_gameid c) ++ le_bytes 4 (c_version c) ++ replicate 8 0 ++
  realm_proof stack_block cookie (c_session c) (c_token c) (u_passwd a) ++ u_username a ++ [0].
Definition reply_body (cookie : Z) (c : Client) (a : UserCacheItem) (realm : RealmCacheItem) : bytes :=
  reply_head cookie c ++ reply_where realm ++ reply_tail cookie c a.
Definition logon_packet (cookie : Z) (twenty rname : bytes) : bytes := le_bytes 4 cookie ++ twenty ++ rname ++ [0].

Lemma RealmLogonEx_reply ju p c u a realm cookie twenty rname s :
  w_clients (sv_world s) !! p = Some c -> c_user c = Some u -> uc_heap (w_uc (sv_world s)) !! u = Some a ->
  RealmCache_at (sv_realms s) rname = Some realm ->
  0 <= cookie < 2 ^ 32 -> length twenty = 20%nat -> no_nul rname -> Z.of_nat (length rname) < 60000 ->
  Z.of_nat (length (u_username a)) < 60000 ->
  RealmLogonEx_Process ju stack_block p (stream_of (logon_packet cookie twenty rname)) s =
    Ret (true, set_world (add_out [(p, enc_bnet (cmd_RealmLogonEx, reply_body cookie c a realm))] (sv_world s)) s).
Proof.
  intros Hp Hu Ha Hrealm Hc H20 Hnul Hl Hlu.
  assert (length (logon_packet cookie twenty rname) = (25 + length rname)%nat) as Hlen.
  { unfold logon_packet. rewrite !length_app, length_le_bytes, H20. cbn [length]. lia. }
  destruct (stream_of_ok (logon_packet cookie twenty rname)) as [Ho Hr]; [rewrite Hlen; lia|].
  unfold RealmLogonEx_Process, get_u32.
  destruct (get_le_app 4 cookie (ju 0%nat) _ _ Ho Hr) as (i1 & -> & Ho1 & Hr1).
  destruct (skip_rest 20 i1 _ Ho1 Hr1) as [Ho2 Hr2]; [rewrite length_app; lia|].
  rewrite drop_app_length' in Hr2 by done.
  destruct (get_str_app rname [] _ Ho2 Hnul Hr2) as (i3 & -> & _).
  change (256 ^ Z.of_nat 4) with (2 ^ 32). rewrite Z.mod_small by done.
  unfold BNetRealmLogonEx_Pack, mbind, N_bind, ask. rewrite (onW_eq (client p) s c) by (by apply client_eq).
  rewrite Hrealm, Hu. rewrite (onW_eq (account u) s a) by (unfold account; by rewrite Ha).
  unfold onW, send_bnet, build_and_send, mret at 1, N_ret at 1.
  erewrite BNet_Build_enc; [by rewrite (send_eq _ _ _ _ Hp)|done| |].
  - intros st. unfold append_zero, put_u32, put_le, reply_body, reply_head, reply_where, reply_tail.
    cbn [Nat.ltb Nat.leb]. unfold put_str, append. cbn [_pos _buf]. by rewrite <- !app_assoc.
  - unfold reply_body, reply_head, reply_where, reply_tail.
    rewrite !length_app, !length_le_bytes, !length_replicate, realm_proof_length. cbn [length]. lia.
Qed.
End reply.

(** ** The theorems *)

(** What the game client sends to the realm: the reply without the address of
    the realm. *)
Definition startup_of (reply : bytes) : bytes :=
  let body := drop 4 reply in enc_realm 1 (take 16 body ++ drop 24 body).

Lemma startup_of_reply block cookie c a realm :
  startup_of (enc_bnet (cmd_RealmLogonEx, reply_body block cookie c a realm)) =
    enc_realm 1 (startup_body cookie (le_bytes 4 0 ++ le_bytes 4 0 ++ le_bytes 4 (c_session c) ++ replicate 12 0 ++
                   le_bytes 4 (c_gameid c) ++ le_bytes 4 (c_version c) ++ replicate 8 0)
      (realm_proof block cookie (c_session c) (c_token c) (u_passwd a)) (u_username a)).
Proof. reflexivity. Qed.

Section claims.
Context {S : Type} (store : Storage_ops S) (junk : nat -> bytes) (ufuel : nat).
Context (E : outside S) (dir stack_block : bytes) (room : Z -> bool) (G : Gmp).
Context (ju : nat -> Z) (jb : nat -> nat -> bytes) (tcpPort : Z) (realm_name realm_desc : bytes).
(** A buffer on the stack has its size. *)
Context (Hout : forall s i n, length (o_jb E s i n) = n) (Hjb : forall i n, length (jb i n) = n).
Notation receive := (receive store junk ufuel E dir stack_block room G).
Notation answered := (BlitzConn_OnRecv ju tcpPort realm_name realm_desc).
Implicit Types (s : Server S) (r : Realm).

(** The two daemons in the states between packets: [k] is the connection of the
    realm in blitzd, [q] a client of the realm with the session [n]. *)
Definition linked s (k : nat) r (q : nat) (n : Z) : Prop :=
  inv (sv_world s) /\ stage_of (sv_world s) k = Some BAAL /\ 0 <= n < 2 ^ 32 /\
  rd_conn r = Some empty_stream /\ rd_sessionMap r !! n = Some q /\
  rd_clients r !! q = Some (Baald.mkRClient empty_stream R_BNETREALM n).

Lemma realm_check s k r q n cookie filler hash name :
  linked s k r q n -> 0 <= cookie < 2 ^ 32 -> length filler = 40%nat -> length hash = 20%nat -> bytes_ok hash ->
  no_nul name -> bytes_ok name -> Z.of_nat (length name) < 60000 ->
  exists ask answer,
    RClient_OnRecv ju jb q (enc_realm 1 (startup_body cookie filler hash name)) r = Ret (tt, radd_out [(PBlitz, ask)] r) /\
    receive k ask (Ret s) = ([], Ret (set_world (add_out [(k, answer)] (sv_world s)) s)) /\
    answered answer (radd_out [(PBlitz, ask)] r) =
      Ret (tt, radd_out [(PBlitz, ask); (PClient q, verdict_packet (verdict stack_block (sv_world s) cookie hash name))] r).
Proof.
  intros (Hi & Hk & Hn & Hconn & Hpool & Hq) Hc Hf Hh Hhb Hnul Hnb Hl. eexists _, _. split_and!.
  - by apply startup_received.
  - apply check_received; try done. lia.
  - erewrite answer_received; try done.
    + unfold radd_out. cbn. by rewrite <- app_assoc.
    + unfold verdict. repeat case_match; lia.
Qed.



Lemma drive_auth k i s : drive (PluginBaal E stack_block) k 0x02 i (Ret s) =
  match RealmAuth_Process (o_ju E s) (o_peer E s) k i s with Ret (_, s') => Ret s' | Crash => Crash | NoFuel => NoFuel end.
Proof.
  assert (find_plugin (PluginBaal E stack_block) 0x02 = Some (snd (pl_RealmAuth E))) as Hf by reflexivity.
  unfold drive, Process. rewrite Hf. cbn [mbind result_bind]. unfold pl_RealmAuth. cbn [snd].
  by destruct (RealmAuth_Process _ _ _ _ _) as [[b s']| |].
Qed.

End claims.

(** A realm packet that announces less than its header makes baald build a
    stream of negative length. *)
Lemma short_realm_packet_crashes ju jb q n v x r : 0 <= v < 3 ->
  rd_clients r !! q = Some (Baald.mkRClient empty_stream R_BNETREALM n) ->
  RClient_OnRecv ju jb q (le_bytes 2 v ++ [x]) r = Crash.
Proof.
  intros Hv Hq. set (b := le_bytes 2 v ++ [x]).
  assert (exists y l, b = y :: l) as (y & l & Eb) by (by eexists _, _).
  assert (Z.to_nat (le_val (take 2 b)) = Z.to_nat v) as Hsz
    by (f_equal; apply (le_val_small 2 v); change (256 ^ Z.of_nat 2) with 65536; lia).
  unfold RClient_OnRecv. rewrite Eb. rewrite (rbind_eq _ _ _ _ _ (rclient_eq _ _ _ Hq)). cbn [rc_stage].
  rewrite decide_False by done. rewrite (rbind_eq _ _ r (y :: l) r) by done. rewrite <- Eb.
  rewrite (rbind_eq _ _ _ _ _ (redit_eq _ _ _ _ Hq)).
  erewrite rbind_eq; [|apply rclient_eq; cbn [rd_clients Baald.set_rclients]; apply lookup_insert_eq].
  cbn [rc_stage rc_buffer _buf append empty_stream app Baald.set_rbuffer Baald.ProcessBNetRealm].
  erewrite rbind_eq; [|apply rclient_eq; cbn [rd_clients Baald.set_rclients]; apply lookup_insert_eq].
  cbn [rc_stage rc_buffer _buf append empty_stream app Baald.set_rbuffer].
  change (length b) with 3%nat. rewrite Hsz. rewrite (proj2 (Nat.leb_le (Z.to_nat v) 3)) by lia. cbn [Nat.leb andb].
  unfold Baald.body_of. by rewrite (proj2 (Nat.ltb_lt (Z.to_nat v) 3)) by lia.
Qed.
