(* ===== verification/RealmDemo.v ===== *)
(** * RealmDemo: a concrete logon to a realm

    The two daemons as they come up: bob is online at blitzd, a realm has
    connected to it, and a client has connected to the realm. *)

From S2P Require Import Prelude Words Stream OMap CStr ShaCtx Sha1 BSha1 Srp3 NumFmt Storage UserItem UserCache Framing Packets World Chat ChatInv ChatOps ChatLife ChatTables Commands Handlers ChatSafe ChatClaims Logon ChatDemo Files Time Caches Strtol Revision Ladder Server Dispatch StageInv Session SessionSafe SessionDemo Baald RealmLogon.

(** ** blitzd *)

Definition realm_events : list event := two_online ++ [EConnect 7002 0 [] []].
Definition online_world : World mem := default (start_world demo_uc) (demo_play realm_events).
Definition baal_world : World mem := match SetStage 3 BAAL online_world with Ret (_, w) => w | _ => online_world end.
Definition d2_realm : RealmCacheItem := mkRealm (b# "D2") (b# "a realm") 6113 0x7F000001.
Definition baal_server : Server mem := set_realms [(b# "D2", d2_realm)] (demo_server baal_world).

Lemma baal_inv : inv baal_world.
Proof.
  assert (inv online_world) as Hi.
  { apply (reachable_inv mem_storage demo_junk 9 demo_ju demo_uc), (demo_reach realm_events). vm_compute. reflexivity. }
  destruct (SetStage_ok 3 BAAL online_world Hi) as (u & w & Hm & Hi' & _); [vm_compute; by eexists|].
  unfold baal_world. by rewrite Hm.
Qed.

(** ** baald *)

Definition baald_start : Realm := mkRealmD ∅ 0 0 ∅ None [].
Definition baald_up : Realm :=
  match (BlitzConn_Init true ;; p ← RClient_new; RClient_OnRecv demo_ju demo_jb p [1]) baald_start with
  | Ret (_, r) => r
  | _ => baald_start
  end.
Example baald_greets : rd_out baald_up = [(PBlitz, [0x65])].
Proof. vm_compute. reflexivity. Qed.

Lemma demo_linked : linked baal_server 3 baald_up 0 1.
Proof. split; [exact baal_inv|]. split_and!; try lia; vm_compute; reflexivity. Qed.

Abbreviation demo_received := (Dispatch.receive mem_storage demo_junk 9 demo_outside [] [] (fun _ => true) gmp_ref).
Abbreviation demo_answered := (BlitzConn_OnRecv demo_ju 6113 (b# "D2") (b# "a realm")).


(** bob's own logon. *)
Definition bob_online : Client := default bob_c (w_clients baal_world !! 1%nat).
Definition bob_account : UserCacheItem := default carol (uc_heap (w_uc baal_world) !! 0%nat).


(** The realm registers at a blitzd that does not know it. *)
Definition bare_server : Server mem := demo_server online_world.
Definition peer_outside : outside mem :=
  mkOutside (fun _ => demo_ju) (fun _ => demo_jb) (fun _ _ => None) (fun _ _ => None) (fun _ => 0) (fun _ => 0) (fun _ => 0)
    (fun _ _ => Some 0x0100007F).
Abbreviation peer_received := (Dispatch.receive mem_storage demo_junk 9 peer_outside [] [] (fun _ => true) gmp_ref).

