(* ===== verification/Shared.v ===== *)
(** * Shared: the counted pointers of common/utils/SharedPtr.h

    Counters and objects live on a heap; a [SharedPtr] is a variable with an
    address of its own.  Deleting an object or a counter that is not there, or
    using a counter that is gone, is a crash.  The counter is an [int]
    (common/utils/AtomicCounter.h), with its mutex left out. *)

From S2P Require Import Prelude Words.

Record SharedPtr := mkPtr { _pCounter : option nat; _ptr : option nat }.
Definition null_ptr : SharedPtr := mkPtr None None.

Record heap := mkHeap {
  h_counts : gmap nat Z;
  h_objs : gset nat;
  h_next : nat;
  h_vars : gmap nat SharedPtr
}.
Definition set_counts (c : gmap nat Z) (h : heap) : heap := mkHeap c (h_objs h) (h_next h) (h_vars h).
Definition set_objs (o : gset nat) (h : heap) : heap := mkHeap (h_counts h) o (h_next h) (h_vars h).
Definition set_vars (v : gmap nat SharedPtr) (h : heap) : heap := mkHeap (h_counts h) (h_objs h) (h_next h) v.

(** ** The monad *)

Definition H (A : Type) : Type := heap -> result (A * heap).
#[global] Instance H_ret : MRet H := fun _ a h => Ret (a, h).
#[global] Instance H_bind : MBind H := fun _ _ f m h => match m h with Ret (a, h') => f a h' | Crash => Crash | NoFuel => NoFuel end.
Definition hchange (f : heap -> heap) : H unit := fun h => Ret (tt, f h).
Definition hcrash {A} : H A := fun _ => Crash.
Definition var (x : nat) : H SharedPtr := fun h => match h_vars h !! x with Some p => Ret (p, h) | None => Crash end.
Definition put (x : nat) (p : SharedPtr) : H unit := hchange (fun h => set_vars (<[x := p]> (h_vars h)) h).

(** ** [ReferenceCounter] *)

Definition as_int (z : Z) : Z := (z + 2 ^ 31) mod 2 ^ 32 - 2 ^ 31.
Definition new_RC : H nat :=
  fun h => let k := h_next h in Ret (k, mkHeap (<[k := 1]> (h_counts h)) (h_objs h) (S k) (h_vars h)).
Definition count (k : nat) : H Z := fun h => match h_counts h !! k with Some v => Ret (v, h) | None => Crash end.
Definition duplicate (k : nat) : H unit := v ← count k; hchange (fun h => set_counts (<[k := as_int (v + 1)]> (h_counts h)) h).
Definition release_RC (k : nat) : H Z :=
  v ← count k; hchange (fun h => set_counts (<[k := as_int (v - 1)]> (h_counts h)) h) ;; mret (as_int (v - 1)).
Definition delete_RC (k : nat) : H unit := _ ← count k; hchange (fun h => set_counts (delete k (h_counts h)) h).

(** [ReleasePolicy::release]: [delete] of an object, or of NULL. *)
Definition delete_obj (o : option nat) : H unit :=
  match o with
  | None => mret tt
  | Some o => fun h => if decide (o ∈ h_objs h) then Ret (tt, set_objs (h_objs h ∖ {[o]}) h) else Crash
  end.

(** ** [SharedPtr] *)

(** [if(_pCounter) _pCounter->duplicate()]. *)
Definition dup_if (p : SharedPtr) : H unit := match _pCounter p with Some k => duplicate k | None => mret tt end.

Definition ctor_null (x : nat) : H unit := put x null_ptr.
Definition ctor_ptr (x : nat) (ptr : option nat) : H unit :=
  c ← match ptr with Some _ => k ← new_RC; mret (Some k) | None => mret None end;
  put x (mkPtr c ptr).
Definition ctor_copy (x y : nat) : H unit := p ← var y; put x p ;; dup_if p.

Definition release (x : nat) : H unit :=
  p ← var x;
  match _pCounter p with
  | None => mret tt
  | Some k =>
      i ← release_RC k;
      if i =? 0 then delete_obj (_ptr p) ;; delete_RC k ;; put x null_ptr else mret tt
  end.
(** The variable is gone when its destructor has run. *)
Definition dtor (x : nat) : H unit := release x ;; hchange (fun h => set_vars (delete x (h_vars h)) h).

Definition assign_ptr (x : nat) (ptr : option nat) : H unit :=
  p ← var x;
  if decide (_ptr p = ptr) then mret tt
  else
    pTmp ← match ptr with Some _ => k ← new_RC; mret (Some k) | None => mret None end;
    release x ;;
    put x (mkPtr pTmp ptr).
Definition swap (x y : nat) : H unit := p ← var x; q ← var y; put x q ;; put y p.
(** [tmp] is a variable on the stack. *)
Definition assign (x y : nat) : H unit :=
  if decide (x = y) then mret tt
  else
    tmp ← (fun h => Ret (fresh (dom (h_vars h)), h));
    ctor_copy tmp y ;; swap x tmp ;; dtor tmp.
Definition reset (x : nat) : H unit := assign_ptr x None.

Definition get (x : nat) : H (option nat) := p ← var x; mret (_ptr p).
Definition referenceCount (x : nat) : H Z :=
  p ← var x; match _pCounter p with Some k => count k | None => mret 1 end.

(** ** The invariant *)

(** The variables that hold the counter [k]. *)
Definition refs (k : nat) (V : gmap nat SharedPtr) : nat :=
  base.size (base.filter (fun e : nat * SharedPtr => _pCounter e.2 = Some k) V).
Definition holds (k : nat) (p : SharedPtr) : nat := if decide (_pCounter p = Some k) then 1 else 0.

Lemma refs_insert k V x p : V !! x = None -> refs k (<[x := p]> V) = (refs k V + holds k p)%nat.
Proof.
  intros Hx. unfold refs, holds. rewrite map_filter_insert. case_decide as Hp; cbn in Hp.
  - rewrite decide_True by done. rewrite map_size_insert_None by (rewrite map_lookup_filter_None; by left). lia.
  - rewrite decide_False by done. rewrite delete_id by done. lia.
Qed.
Lemma refs_delete k V x p : V !! x = Some p -> refs k V = (refs k (delete x V) + holds k p)%nat.
Proof.
  intros Hx. rewrite <- (insert_delete_id V x p) at 1 by done. apply refs_insert. apply lookup_delete_eq.
Qed.
Lemma refs_size k V : (refs k V <= base.size V)%nat.
Proof. unfold refs. apply map_subseteq_size, map_filter_subseteq. Qed.
Lemma refs_zero k V : refs k V = 0%nat <-> forall x p, V !! x = Some p -> _pCounter p <> Some k.
Proof.
  unfold refs. rewrite map_size_empty_iff. split.
  - intros He x p Hx Hp. assert (base.filter (fun e : nat * SharedPtr => _pCounter e.2 = Some k) V !! x = Some p) as Hf
      by (by apply map_lookup_filter_Some). by rewrite He, lookup_empty in Hf.
  - intros Hall. apply map_empty. intros x. apply map_lookup_filter_None. right. intros p Hp. by apply (Hall x).
Qed.
Lemma refs_pos k V : refs k V <> 0%nat -> exists x p, V !! x = Some p /\ _pCounter p = Some k.
Proof.
  intros Hn. unfold refs in Hn.
  destruct (map_choose (base.filter (fun e : nat * SharedPtr => _pCounter e.2 = Some k) V)) as (x & p & Hxp).
  { intros He. apply Hn. rewrite He. apply map_size_empty. }
  apply map_lookup_filter_Some in Hxp as [Hx Hp]. eauto.
Qed.

(** The counters and objects of [h] agree with the variables [V], which are
    those of [h] between two operations. *)
Record counted (h : heap) (V : gmap nat SharedPtr) : Prop := mkCounted {
  ct_shape : forall x p, V !! x = Some p ->
    p = null_ptr \/ exists k o, p = mkPtr (Some k) (Some o) /\ is_Some (h_counts h !! k);
  ct_count : forall k v, h_counts h !! k = Some v -> v = Z.of_nat (refs k V) /\ 0 < v /\ (k < h_next h)%nat;
  ct_pair : forall x y p q, V !! x = Some p -> V !! y = Some q -> (_pCounter p = _pCounter q <-> _ptr p = _ptr q);
  ct_objs : forall o, o ∈ h_objs h <-> exists x p, V !! x = Some p /\ _ptr p = Some o
}.

Lemma as_int_small z : - 2 ^ 31 <= z < 2 ^ 31 -> as_int z = z.
Proof. intros Hz. unfold as_int. rewrite Z.mod_small by lia. lia. Qed.

(** A variable that holds nothing. *)
Lemma counted_null h V x : counted h V -> V !! x = None -> counted h (<[x := null_ptr]> V).
Proof.
  intros [Hs Hc Hp Ho] Hx. split.
  - intros y p [[<- <-]|[_ Hy]]%lookup_insert_Some; [by left|by eapply Hs].
  - intros k v Hk. rewrite refs_insert by done. unfold holds. cbn. rewrite decide_False by done. rewrite Nat.add_0_r. by apply Hc.
  - assert (forall y q, V !! y = Some q -> (None = _pCounter q <-> None = _ptr q)) as Hn.
    { intros y q Hy. destruct (Hs y q Hy) as [->|(k & o & -> & _)]; [done|]. by split. }
    intros a b p q [[<- <-]|[_ Ha]]%lookup_insert_Some [[<- <-]|[_ Hb]]%lookup_insert_Some; cbn; [done|by eapply Hn| |by eapply Hp].
    pose proof (Hn a p Ha) as Hn'. split; intros Ee; symmetry; apply Hn'; done.
  - intros o. rewrite Ho. split.
    + intros (y & p & Hy & E). exists y, p. split; [|done]. rewrite lookup_insert_ne; [done|congruence].
    + intros (y & p & [[<- <-]|[_ Hy]]%lookup_insert_Some & E); [done|eauto].
Qed.

(** A new object in a new counter. *)
Lemma counted_new h V x o :
  counted h V -> V !! x = None -> o ∉ h_objs h ->
  let k := h_next h in
  counted (mkHeap (<[k := 1]> (h_counts h)) ({[o]} ∪ h_objs h) (S k) (h_vars h)) (<[x := mkPtr (Some k) (Some o)]> V).
Proof.
  intros [Hs Hc Hp Ho] Hx Hno k.
  assert (h_counts h !! k = None) as Hk.
  { destruct (h_counts h !! k) as [v|] eqn:E; [|done]. destruct (Hc k v E) as (_ & _ & Hlt). unfold k in Hlt. lia. }
  assert (forall y q, V !! y = Some q -> _pCounter q <> Some k /\ _ptr q <> Some o) as Hfree.
  { intros y q Hy. split.
    - intros E. destruct (Hs y q Hy) as [->|(k' & o' & -> & [v Hv])]; [done|]. cbn in E. injection E as ->. congruence.
    - intros E. apply Hno, Ho. eauto. }
  split; cbn [h_counts h_objs h_next].
  - intros y p [[<- <-]|[Ne Hy]]%lookup_insert_Some.
    + right. exists k, o. split; [done|]. rewrite lookup_insert_eq. by eexists.
    + destruct (Hs y p Hy) as [->|(k' & o' & -> & Hv)]; [by left|]. right. exists k', o'. split; [done|].
      by apply lookup_insert_is_Some'; right.
  - intros j v [[<- <-]|[Ne Hj]]%lookup_insert_Some.
    + rewrite refs_insert by done. unfold holds. cbn. rewrite decide_True by done.
      assert (refs k V = 0%nat) as -> by (apply refs_zero; intros y q Hy; by apply (Hfree y q)). lia.
    + rewrite refs_insert by done. unfold holds. cbn. rewrite decide_False by congruence. rewrite Nat.add_0_r.
      destruct (Hc j v Hj) as (E & Hpos & Hlt). unfold k. lia.
  - intros a b p q [[<- <-]|[_ Ha]]%lookup_insert_Some [[<- <-]|[_ Hb]]%lookup_insert_Some; cbn; [done| | |by eapply Hp].
    + destruct (Hfree b q Hb). split; intros E; congruence.
    + destruct (Hfree a p Ha). split; intros E; congruence.
  - intros o'. rewrite elem_of_union, elem_of_singleton, Ho. split.
    + intros [->|(y & p & Hy & E)]; [exists x; eexists; by rewrite lookup_insert_eq|].
      exists y, p. split; [|done]. rewrite lookup_insert_ne; [done|congruence].
    + intros (y & p & [[<- <-]|[_ Hy]]%lookup_insert_Some & E); [left; cbn in E; congruence|right; eauto].
Qed.

(** One more variable for what [y] points to. *)
Lemma counted_dup h V x y p :
  counted h V -> V !! x = None -> V !! y = Some p -> Z.of_nat (base.size V) < 2 ^ 31 - 1 ->
  exists h', dup_if p h = Ret (tt, h') /\ counted h' (<[x := p]> V) /\ h_vars h' = h_vars h /\ h_next h' = h_next h /\ h_objs h' = h_objs h.
Proof.
  intros HI Hx Hy Hsz. pose proof HI as [Hs Hc Hp Ho]. destruct (Hs y p Hy) as [->|(k & o & -> & [v Hk])].
  { exists h. split_and!; [done|by apply counted_null|done..]. }
  destruct (Hc k v Hk) as (Ev & Hpos & Hlt). pose proof (refs_size k V).
  unfold dup_if, duplicate, count, mbind, H_bind. cbn [_pCounter]. rewrite Hk. unfold hchange. eexists.
  split; [done|]. split_and!; [|done..]. rewrite as_int_small by lia. split; cbn [h_counts h_objs h_next set_counts].
  - intros z q [[<- <-]|[Ne Hz]]%lookup_insert_Some.
    + right. exists k, o. split; [done|]. rewrite lookup_insert_eq. by eexists.
    + destruct (Hs z q Hz) as [->|(k' & o' & -> & Hv)]; [by left|]. right. exists k', o'. split; [done|].
      by apply lookup_insert_is_Some'; right.
  - intros j w [[<- <-]|[Ne Hj]]%lookup_insert_Some; rewrite refs_insert by done; unfold holds; cbn.
    + rewrite decide_True by done. lia.
    + rewrite decide_False by congruence. rewrite Nat.add_0_r. by apply Hc.
  - intros a b q r [[<- <-]|[_ Ha]]%lookup_insert_Some [[<- <-]|[_ Hb]]%lookup_insert_Some;
      [done|by eapply (Hp y b)|by eapply (Hp a y)|by eapply Hp].
  - intros o'. rewrite Ho. split.
    + intros (z & q & Hz & E). exists z, q. split; [|done]. rewrite lookup_insert_ne; [done|congruence].
    + intros (z & q & [[<- <-]|[_ Hz]]%lookup_insert_Some & E); eauto.
Qed.

(** Taking a variable away that holds nothing, or is one of several. *)
Lemma counted_delete_null h V x : counted h V -> V !! x = Some null_ptr -> counted h (delete x V).
Proof.
  intros [Hs Hc Hp Ho] Hx. split.
  - intros y p [_ Hy]%lookup_delete_Some. by eapply Hs.
  - intros k v Hk. destruct (Hc k v Hk) as (E & ? & ?). rewrite (refs_delete k V x null_ptr Hx) in E.
    unfold holds in E. cbn in E. rewrite decide_False in E by done. split_and!; [lia|done..].
  - intros a b p q [_ Ha]%lookup_delete_Some [_ Hb]%lookup_delete_Some. by eapply Hp.
  - intros o. rewrite Ho. split; intros (y & p & Hy & E).
    + exists y, p. split; [|done]. apply lookup_delete_Some. split; [|done]. intros <-. rewrite Hx in Hy. by injection Hy as <-.
    + apply lookup_delete_Some in Hy as [_ Hy]. eauto.
Qed.

Lemma counted_one_less h V x k o v :
  counted h V -> V !! x = Some (mkPtr (Some k) (Some o)) -> h_counts h !! k = Some v -> 1 < v ->
  counted (set_counts (<[k := v - 1]> (h_counts h)) h) (delete x V).
Proof.
  intros [Hs Hc Hp Ho] Hx Hk Hv. destruct (Hc k v Hk) as (Ev & _ & Hlt).
  rewrite (refs_delete k V x _ Hx) in Ev. unfold holds in Ev. cbn in Ev. rewrite decide_True in Ev by done.
  split; cbn [h_counts h_objs h_next set_counts].
  - intros y p [_ Hy]%lookup_delete_Some. destruct (Hs y p Hy) as [->|(k' & o' & -> & Hv')]; [by left|]. right.
    exists k', o'. split; [done|]. by apply lookup_insert_is_Some'; right.
  - intros j w [[<- <-]|[Ne Hj]]%lookup_insert_Some; [lia|]. destruct (Hc j w Hj) as (E & ? & ?).
    rewrite (refs_delete j V x _ Hx) in E. unfold holds in E. cbn in E. rewrite decide_False in E by congruence.
    split_and!; [lia|done..].
  - intros a b p q [_ Ha]%lookup_delete_Some [_ Hb]%lookup_delete_Some. by eapply Hp.
  - intros o'. rewrite Ho. split; intros (y & p & Hy & E); [|apply lookup_delete_Some in Hy as [_ Hy]; eauto].
    destruct (decide (y = x)) as [->|Ne]; [|exists y, p; by rewrite lookup_delete_ne].
    rewrite Hx in Hy. injection Hy as <-. cbn in E. injection E as <-.
    destruct (refs_pos k (delete x V)) as (z & q & Hz & Eq); [lia|]. exists z, q. split; [done|].
    apply lookup_delete_Some in Hz as [_ Hz]. by apply (Hp z x q _ Hz Hx).
Qed.

(** Taking the last variable away, with the object and its counter. *)
Lemma counted_last h V x k o :
  counted h V -> V !! x = Some (mkPtr (Some k) (Some o)) -> h_counts h !! k = Some 1 ->
  counted (mkHeap (delete k (h_counts h)) (h_objs h ∖ {[o]}) (h_next h) (h_vars h)) (delete x V).
Proof.
  intros [Hs Hc Hp Ho] Hx Hk. destruct (Hc k 1 Hk) as (Ev & _ & _).
  rewrite (refs_delete k V x _ Hx) in Ev. unfold holds in Ev. cbn in Ev. rewrite decide_True in Ev by done.
  assert (refs k (delete x V) = 0%nat) as H0 by lia. rewrite refs_zero in H0.
  assert (forall y p, delete x V !! y = Some p -> _ptr p <> Some o) as Hno.
  { intros y p Hy E. apply (H0 y p Hy). apply lookup_delete_Some in Hy as [_ Hy]. by apply (Hp y x p _ Hy Hx). }
  split; cbn [h_counts h_objs h_next].
  - intros y p Hy. pose proof Hy as [_ Hy']%lookup_delete_Some.
    destruct (Hs y p Hy') as [->|(k' & o' & -> & Hv)]; [by left|]. right. exists k', o'. split; [done|].
    apply lookup_delete_is_Some. split; [|done]. intros <-. by apply (H0 y _ Hy).
  - intros j w [Ne Hj]%lookup_delete_Some. destruct (Hc j w Hj) as (E & ? & ?).
    rewrite (refs_delete j V x _ Hx) in E. unfold holds in E. cbn in E. rewrite decide_False in E by congruence.
    split_and!; [lia|done..].
  - intros a b p q [_ Ha]%lookup_delete_Some [_ Hb]%lookup_delete_Some. by eapply Hp.
  - intros o'. rewrite elem_of_difference, elem_of_singleton, Ho. split.
    + intros [(y & p & Hy & E) Ne]. exists y, p. split; [|done]. apply lookup_delete_Some. split; [|done].
      intros <-. rewrite Hx in Hy. injection Hy as <-. cbn in E. congruence.
    + intros (y & p & Hy & E). split; [apply lookup_delete_Some in Hy as [_ Hy]; eauto|]. intros ->. by apply (Hno y p Hy).
Qed.

(** The invariant reads the counters, the objects and the next address. *)
Lemma counted_ext h h' V :
  counted h V -> h_counts h' = h_counts h -> h_objs h' = h_objs h -> h_next h' = h_next h -> counted h' V.
Proof. intros [Hs Hc Hp Ho] Ec Eo En. split; rewrite ?Ec, ?Eo, ?En; done. Qed.

(** [release]: the variable no longer counts, whatever it still holds. *)
Lemma release_counted h V x p :
  counted h V -> V !! x = Some p -> h_vars h !! x = Some p -> Z.of_nat (base.size V) < 2 ^ 31 ->
  exists h' p', release x h = Ret (tt, h') /\ counted h' (delete x V) /\ h_vars h' = <[x := p']> (h_vars h) /\ h_next h' = h_next h.
Proof.
  intros HI Hx Hv Hsz. pose proof HI as [Hs Hc Hp Ho]. unfold release, mbind at 1, H_bind at 1, var. rewrite Hv.
  destruct (Hs x p Hx) as [->|(k & o & -> & [v Hk])]; cbn [_pCounter null_ptr].
  { exists h, null_ptr. split_and!; [done|by apply counted_delete_null|by rewrite insert_id|done]. }
  destruct (Hc k v Hk) as (Ev & Hpos & _). pose proof (refs_size k V).
  unfold release_RC, count, mbind, H_bind, hchange. rewrite Hk. rewrite as_int_small by lia. unfold mret, H_ret.
  destruct (Z.eqb_spec (v - 1) 0) as [E0|Ne].
  - assert (v = 1) as -> by lia. cbn [delete_obj _ptr h_objs set_counts].
    rewrite decide_True by (apply Ho; by eexists _, _). unfold delete_RC, count, mbind, H_bind, put, hchange.
    cbn [h_counts set_objs set_counts]. rewrite lookup_insert_eq. eexists _, null_ptr. split; [done|].
    split_and!; [|done..]. cbn. rewrite delete_insert_eq. by apply (counted_ext _ _ _ (counted_last h V x k o HI Hx Hk)).
  - eexists _, (mkPtr (Some k) (Some o)). split; [done|]. split_and!; [|cbn; by rewrite insert_id|done].
    apply (counted_one_less h V x k o v); try done. lia.
Qed.

(** Giving the variables other addresses changes nothing. *)
Lemma refs_kmap f `{!Inj (=) (=) f} k V : refs k (kmap f V) = refs k V.
Proof.
  induction V as [|x p V Hx IH] using map_ind; [by rewrite kmap_empty|].
  rewrite kmap_insert, !refs_insert, IH; try done. by rewrite lookup_kmap.
Qed.
Lemma counted_kmap f `{!Inj (=) (=) f} h V : counted h V -> counted h (kmap f V).
Proof.
  intros [Hs Hc Hp Ho]. split.
  - intros x p (y & -> & Hy)%lookup_kmap_Some; [by eapply Hs|done].
  - intros k v. rewrite (refs_kmap f). apply Hc.
  - intros x y p q (a & -> & Ha)%lookup_kmap_Some (b & -> & Hb)%lookup_kmap_Some; [by eapply Hp|done..].
  - intros o. rewrite Ho. split.
    + intros (x & p & Hx & E). exists (f x), p. by rewrite lookup_kmap.
    + intros (x & p & (a & -> & Ha)%lookup_kmap_Some & E); [eauto|done].
Qed.

Definition transp (x y z : nat) : nat := if decide (z = x) then y else if decide (z = y) then x else z.
Lemma transp_inv x y z : transp x y (transp x y z) = z.
Proof. unfold transp. repeat case_decide; congruence. Qed.
#[local] Instance transp_inj x y : Inj (=) (=) (transp x y).
Proof. intros a b E. by rewrite <- (transp_inv x y a), E, transp_inv. Qed.

Lemma lookup_transp x y (V : gmap nat SharedPtr) z : (kmap (transp x y) V : gmap nat SharedPtr) !! z = V !! transp x y z.
Proof. pose proof (lookup_kmap (M2 := gmap nat) (transp x y) V (transp x y z)) as E. by rewrite transp_inv in E. Qed.
Lemma counted_swap h V x y p q :
  counted h V -> V !! x = Some p -> V !! y = Some q -> counted h (<[y := p]> (<[x := q]> V)).
Proof.
  intros HI Hx Hy. replace (<[y := p]> (<[x := q]> V)) with (kmap (M2 := gmap nat) (transp x y) V); [by apply counted_kmap; [apply _|]|].
  apply map_eq. intros z. rewrite lookup_transp. unfold transp. case_decide as Ex; [|case_decide as Ey].
  - subst z. destruct (decide (x = y)) as [<-|Ne]; [rewrite lookup_insert_eq; congruence|].
    by rewrite lookup_insert_ne, lookup_insert_eq.
  - subst z. by rewrite lookup_insert_eq.
  - by rewrite !lookup_insert_ne.
Qed.
Lemma counted_rename h V x y p :
  counted h (<[y := p]> V) -> V !! x = None -> V !! y = None -> counted h (<[x := p]> V).
Proof.
  intros HI Hx Hy. replace (<[x := p]> V) with (kmap (M2 := gmap nat) (transp x y) (<[y := p]> V)); [by apply counted_kmap; [apply _|]|].
  apply map_eq. intros z. rewrite lookup_transp. unfold transp. case_decide as Ex; [|case_decide as Ey].
  - subst z. by rewrite !lookup_insert_eq.
  - subst z. destruct (decide (x = y)) as [->|Ne]; [done|]. by rewrite !lookup_insert_ne, Hx, Hy.
  - by rewrite !lookup_insert_ne.
Qed.

(** ** The operations on a program's variables *)

(** [new C]: the address of an object that was not there. *)
Definition new_obj : H nat := fun h => let o := fresh (h_objs h) in Ret (o, set_objs ({[o]} ∪ h_objs h) h).

Inductive sp_op : Type :=
  | SpNull (x : nat) | SpNew (x : nat) | SpCopy (x y : nat) | SpAssignNew (x : nat)
  | SpAssign (x y : nat) | SpSwap (x y : nat) | SpReset (x : nat) | SpDestroy (x : nat).
Definition perform (o : sp_op) : H unit :=
  match o with
  | SpNull x => ctor_null x
  | SpNew x => o ← new_obj; ctor_ptr x (Some o)
  | SpCopy x y => ctor_copy x y
  | SpAssignNew x => o ← new_obj; assign_ptr x (Some o)
  | SpAssign x y => assign x y
  | SpSwap x y => swap x y
  | SpReset x => reset x
  | SpDestroy x => dtor x
  end.

(** What the variables point to, and what each operation makes of it. *)
Definition view (h : heap) : gmap nat (option nat) := _ptr <$> h_vars h.
Definition alive (v : gmap nat (option nat)) (o : nat) : Prop := exists x, v !! x = Some (Some o).
Inductive sp_spec : sp_op -> gmap nat (option nat) -> gmap nat (option nat) -> Prop :=
  | spec_null x v : v !! x = None -> sp_spec (SpNull x) v (<[x := None]> v)
  | spec_new x o v : v !! x = None -> ~ alive v o -> sp_spec (SpNew x) v (<[x := Some o]> v)
  | spec_copy x y p v : v !! x = None -> v !! y = Some p -> sp_spec (SpCopy x y) v (<[x := p]> v)
  | spec_assign_new x o v : is_Some (v !! x) -> ~ alive v o -> sp_spec (SpAssignNew x) v (<[x := Some o]> v)
  | spec_assign x y p v : is_Some (v !! x) -> v !! y = Some p -> sp_spec (SpAssign x y) v (<[x := p]> v)
  | spec_swap x y p q v : v !! x = Some p -> v !! y = Some q -> sp_spec (SpSwap x y) v (<[y := p]> (<[x := q]> v))
  | spec_reset x v : is_Some (v !! x) -> sp_spec (SpReset x) v (<[x := None]> v)
  | spec_destroy x v : is_Some (v !! x) -> sp_spec (SpDestroy x) v (delete x v).

(** A constructor runs on fresh storage, everything else on a live variable. *)
Definition legal (o : sp_op) (h : heap) : Prop :=
  match o with
  | SpNull x | SpNew x => h_vars h !! x = None
  | SpCopy x y => h_vars h !! x = None /\ is_Some (h_vars h !! y)
  | SpAssignNew x | SpReset x | SpDestroy x => is_Some (h_vars h !! x)
  | SpAssign x y | SpSwap x y => is_Some (h_vars h !! x) /\ is_Some (h_vars h !! y)
  end /\ Z.of_nat (base.size (h_vars h)) < 2 ^ 31 - 2.
#[global] Instance legal_dec o h : Decision (legal o h).
Proof. unfold legal. destruct o; apply _. Defined.
Definition okay (h : heap) : Prop := counted h (h_vars h).
Definition no_ptrs : heap := mkHeap ∅ ∅ 0 ∅.

(** An operation runs, keeps the books and does what its specification says. *)
Definition does (o : sp_op) (h : heap) : Prop := exists h', perform o h = Ret (tt, h') /\ okay h' /\ sp_spec o (view h) (view h').

Lemma view_insert o x p h h' :
  h_vars h' = <[x := p]> (h_vars h) -> sp_spec o (view h) (<[x := _ptr p]> (view h)) -> sp_spec o (view h) (view h').
Proof. intros E. unfold view. by rewrite E, fmap_insert. Qed.
Lemma view_lookup x p h : h_vars h !! x = Some p -> view h !! x = Some (_ptr p).
Proof. intros E. unfold view. by rewrite lookup_fmap, E. Qed.
Lemma view_some x p h : h_vars h !! x = Some p -> is_Some (view h !! x).
Proof. intros E. eexists. by apply view_lookup. Qed.
Lemma view_none x h : h_vars h !! x = None -> view h !! x = None.
Proof. intros E. unfold view. by rewrite lookup_fmap, E. Qed.
Lemma alive_obj h o : okay h -> alive (view h) o <-> o ∈ h_objs h.
Proof.
  intros [_ _ _ Ho]. rewrite Ho. unfold alive, view. split.
  - intros [x Hx]. rewrite lookup_fmap in Hx. destruct (h_vars h !! x) as [p|] eqn:E; [|done].
    exists x, p. split; [done|]. cbn in Hx. by injection Hx.
  - intros (x & p & Hx & E). exists x. by rewrite lookup_fmap, Hx, <- E.
Qed.
Lemma fresh_dead h : okay h -> ~ alive (view h) (fresh (h_objs h)).
Proof. intros HI. rewrite alive_obj by done. apply is_fresh. Qed.

Lemma ctor_null_does x h : okay h -> legal (SpNull x) h -> does (SpNull x) h.
Proof.
  intros HI [Hx _]. eexists. split; [done|]. split.
  - apply (counted_ext _ _ _ (counted_null _ _ _ HI Hx)); done.
  - apply (view_insert _ x null_ptr); [done|]. by apply spec_null, view_none.
Qed.
Lemma ctor_new_does x h : okay h -> legal (SpNew x) h -> does (SpNew x) h.
Proof.
  intros HI [Hx _]. eexists. split; [done|]. split.
  - by apply (counted_ext _ _ _ (counted_new _ _ _ _ HI Hx (is_fresh _))).
  - eapply (view_insert _ x); [done|]. by apply spec_new; [apply view_none|apply fresh_dead].
Qed.
Lemma ctor_copy_run x y p h :
  okay h -> h_vars h !! x = None -> h_vars h !! y = Some p -> Z.of_nat (base.size (h_vars h)) < 2 ^ 31 - 1 ->
  exists h', ctor_copy x y h = Ret (tt, h') /\ okay h' /\ h_vars h' = <[x := p]> (h_vars h).
Proof.
  intros HI Hx Hy Hsz. set (h1 := set_vars (<[x := p]> (h_vars h)) h).
  destruct (counted_dup h1 (h_vars h) x y p) as (h' & Ed & HI' & Ev & _); [by apply (counted_ext _ _ _ HI)|done..|].
  exists h'. split; [|split].
  - unfold ctor_copy, mbind, H_bind, var, put, hchange. by rewrite Hy.
  - unfold okay. by rewrite Ev.
  - done.
Qed.
Lemma ctor_copy_does x y h : okay h -> legal (SpCopy x y) h -> does (SpCopy x y) h.
Proof.
  intros HI [[Hx [p Hy]] Hsz]. destruct (ctor_copy_run x y p h) as (h' & E & HI' & Ev); [done..|lia|].
  exists h'. split_and!; [done..|]. apply (view_insert _ x p); [done|]. by apply spec_copy; [apply view_none|apply view_lookup].
Qed.
Lemma swap_run x y p q h :
  okay h -> h_vars h !! x = Some p -> h_vars h !! y = Some q ->
  exists h', swap x y h = Ret (tt, h') /\ okay h' /\ h_vars h' = <[y := p]> (<[x := q]> (h_vars h)).
Proof.
  intros HI Hx Hy. unfold swap, mbind, H_bind, var, put, hchange. rewrite Hx, Hy. eexists. split_and!; [done| |done].
  by apply (counted_ext _ _ _ (counted_swap _ _ _ _ _ _ HI Hx Hy)).
Qed.
Lemma swap_does x y h : okay h -> legal (SpSwap x y) h -> does (SpSwap x y) h.
Proof.
  intros HI [[[p Hx] [q Hy]] _]. destruct (swap_run x y p q h) as (h' & E & HI' & Ev); [done..|].
  exists h'. split_and!; [done..|]. unfold view at 2. rewrite Ev, !fmap_insert. by apply spec_swap; apply view_lookup.
Qed.

Lemma dtor_run x p h :
  okay h -> h_vars h !! x = Some p -> Z.of_nat (base.size (h_vars h)) < 2 ^ 31 ->
  exists h', dtor x h = Ret (tt, h') /\ okay h' /\ h_vars h' = delete x (h_vars h).
Proof.
  intros HI Hx Hsz. destruct (release_counted h (h_vars h) x p) as (h' & p' & E & HI' & Ev & _); [done..|].
  assert (h_vars (set_vars (delete x (h_vars h')) h') = delete x (h_vars h)) as Ed.
  { cbn. by rewrite Ev, delete_insert_eq. }
  eexists. split_and!; [|by unfold okay; rewrite Ed; apply (counted_ext _ _ _ HI')|done].
  unfold dtor, mbind, H_bind. by rewrite E.
Qed.
Lemma dtor_does x h : okay h -> legal (SpDestroy x) h -> does (SpDestroy x) h.
Proof.
  intros HI [[p Hx] Hsz]. destruct (dtor_run x p h) as (h' & E & HI' & Ev); [done..|lia|].
  exists h'. split_and!; [done..|]. unfold view at 2. rewrite Ev, fmap_delete. by apply spec_destroy, (view_some x p).
Qed.

(** [assign]: a copy on the stack, exchanged with the variable and destroyed. *)
Lemma assign_does x y h : okay h -> legal (SpAssign x y) h -> does (SpAssign x y) h.
Proof.
  intros HI [[[p Hx] [q Hy]] Hsz]. unfold does. cbn [perform]. unfold assign. case_decide as Exy.
  - subst y. exists h. split_and!; [done..|]. apply (view_insert _ x q); [by rewrite insert_id|].
    by apply spec_assign; [apply (view_some x p)|apply view_lookup].
  - pose (tmp := fresh (dom (h_vars h))). assert (h_vars h !! tmp = None) as Ht by (apply not_elem_of_dom, is_fresh).
    assert (tmp <> x /\ tmp <> y) as [Nx Ny] by (split; congruence).
    destruct (ctor_copy_run tmp y q h) as (h1 & E1 & HI1 & Ev1); [done..|lia|].
    destruct (swap_run x tmp p q h1) as (h2 & E2 & HI2 & Ev2); [done| | |].
    { by rewrite Ev1, lookup_insert_ne. }
    { by rewrite Ev1, lookup_insert_eq. }
    assert (h_vars h2 = <[tmp := p]> (<[x := q]> (h_vars h))) as Ev2'.
    { rewrite Ev2, Ev1, (insert_insert_ne _ x tmp) by done. by rewrite insert_insert_eq. }
    assert ((<[x := q]> (h_vars h)) !! tmp = None) as Ht' by (by rewrite lookup_insert_ne).
    destruct (dtor_run tmp p h2) as (h3 & E3 & HI3 & Ev3); [done|by rewrite Ev2', lookup_insert_eq| |].
    { rewrite Ev2', map_size_insert_None, map_size_insert, Hx by done. unfold id. lia. }
    exists h3. split_and!; [|done|].
    { unfold mbind, H_bind. fold tmp. by rewrite E1, E2. }
    apply (view_insert _ x q); [by rewrite Ev3, Ev2', delete_insert_id|].
    by apply spec_assign; [apply (view_some x p)|apply view_lookup].
Qed.

(** [assign(C* )], on NULL and on a new object. *)
Lemma reset_does x h : okay h -> legal (SpReset x) h -> does (SpReset x) h.
Proof.
  intros HI [[p Hx] Hsz]. unfold does. cbn [perform]. unfold reset, assign_ptr, mbind, H_bind, var. rewrite Hx.
  assert (sp_spec (SpReset x) (view h) (<[x := None]> (view h))) as Hspec by (by apply spec_reset, (view_some x p)).
  case_decide as Ep.
  - exists h. split_and!; [done..|]. apply (view_insert _ x p); [by rewrite insert_id|by rewrite Ep].
  - destruct (release_counted h (h_vars h) x p) as (h' & p' & E & HI' & Ev & _); [done..|lia|].
    unfold mret, H_ret. rewrite E. unfold put, hchange.
    assert (<[x := mkPtr None None]> (h_vars h') = <[x := mkPtr None None]> (delete x (h_vars h))) as Er.
    { by rewrite Ev, insert_insert_eq, insert_delete_eq. }
    eexists. split_and!; [done| |apply (view_insert _ x null_ptr); [cbn; by rewrite Er, insert_delete_eq|done]].
    unfold okay. cbn [h_vars set_vars]. rewrite Er. eapply counted_ext; [apply counted_null; [exact HI'|apply lookup_delete_eq]|done..].
Qed.
Lemma assign_new_does x h : okay h -> legal (SpAssignNew x) h -> does (SpAssignNew x) h.
Proof.
  intros HI [[p Hx] Hsz]. unfold does. cbn [perform]. unfold mbind at 1, H_bind at 1, new_obj. set (o := fresh (h_objs h)).
  unfold assign_ptr, mbind, H_bind, var. cbn [h_vars set_objs]. rewrite Hx.
  rewrite decide_False; [|intros Ep; apply (fresh_dead h HI); exists x; by rewrite (view_lookup x p h Hx), Ep].
  pose (tmp := fresh (dom (h_vars h))). assert (h_vars h !! tmp = None) as Ht by (apply not_elem_of_dom, is_fresh).
  assert (tmp <> x) as Nx by congruence.
  pose proof (counted_new h (h_vars h) tmp o HI Ht (is_fresh _)) as HI1. cbv zeta in HI1.
  unfold new_RC, mret, H_ret. cbn [h_counts h_objs h_next h_vars set_objs].
  destruct (release_counted _ _ x p HI1) as (h' & p' & E & HI' & Ev & _); [by rewrite lookup_insert_ne|done| |].
  { rewrite map_size_insert_None by done. lia. }
  rewrite E. unfold put, hchange. cbn [h_vars] in Ev. rewrite delete_insert_ne in HI' by done.
  apply (counted_rename _ _ x) in HI'; [|apply lookup_delete_eq|by rewrite lookup_delete_ne].
  rewrite insert_delete_eq in HI'. eexists. split_and!; [done| |].
  - unfold okay. cbn [h_vars set_vars]. rewrite Ev, insert_insert_eq. by apply (counted_ext _ _ _ HI').
  - apply (view_insert _ x (mkPtr (Some (h_next h)) (Some o))); [cbn; by rewrite Ev, insert_insert_eq|].
    apply spec_assign_new; [by apply (view_some x p)|by apply fresh_dead].
Qed.

(** ** Programs *)

Lemma perform_does o h : okay h -> legal o h -> does o h.
Proof.
  destruct o; intros HI Hl;
    [by apply ctor_null_does|by apply ctor_new_does|by apply ctor_copy_does|by apply assign_new_does
    |by apply assign_does|by apply swap_does|by apply reset_does|by apply dtor_does].
Qed.

Lemma no_ptrs_okay : okay no_ptrs.
Proof.
  unfold okay. split; unfold no_ptrs; cbn [h_counts h_objs h_next h_vars].
  - by intros x p Hx%lookup_empty_Some.
  - by intros k v Hk%lookup_empty_Some.
  - by intros x y p q Hx%lookup_empty_Some.
  - intros o. split; [set_solver|]. by intros (x & p & Hx%lookup_empty_Some & _).
Qed.

Inductive sp_reach : heap -> Prop :=
  | reach_none : sp_reach no_ptrs
  | reach_op o h h' : sp_reach h -> legal o h -> perform o h = Ret (tt, h') -> sp_reach h'.

Lemma sp_reach_okay h : sp_reach h -> okay h.
Proof.
  induction 1 as [|o h h' _ IH Hl E]; [exact no_ptrs_okay|].
  destruct (perform_does o h IH Hl) as (h1 & E1 & HI & _). rewrite E1 in E. by injection E as <-.
Qed.

(** The variables that point where [x] does. *)
Definition sharers (h : heap) (x : nat) : nat :=
  base.size (base.filter (fun e : nat * option nat => Some e.2 = view h !! x) (view h)).

Lemma sharers_refs h x k o :
  okay h -> h_vars h !! x = Some (mkPtr (Some k) (Some o)) -> sharers h x = refs k (h_vars h).
Proof.
  intros HI Hx. unfold sharers, refs. rewrite (view_lookup x _ h Hx). cbn [_ptr].
  replace (base.filter (fun e : nat * option nat => Some e.2 = Some (Some o)) (view h))
    with (_ptr <$> base.filter (fun e : nat * SharedPtr => _pCounter e.2 = Some k) (h_vars h)); [apply map_size_fmap|].
  destruct HI as [_ _ Hp _]. apply map_eq. intros y. apply option_eq. intros q. unfold view.
  rewrite lookup_fmap_Some, map_lookup_filter_Some, lookup_fmap_Some. setoid_rewrite map_lookup_filter_Some. cbn. split.
  - intros (r & <- & Hy & Ek). split; [eauto|]. f_equal. by apply (Hp y x r _ Hy Hx).
  - intros [(r & <- & Hy) Eq]. exists r. split_and!; [done..|]. injection Eq as Eq. by apply (Hp y x r _ Hy Hx).
Qed.

(** C20: [SharedPtr] keeps its promise.  After any sequence of constructions,
    copies, assignments, exchanges, resets and destructions of fewer than
    2^31 - 2 pointers: the next operation runs (no object or counter is
    deleted twice or used after its deletion) and leaves every variable
    pointing where the specification says; the objects that exist are exactly
    those that some variable points to; no counter is left over; and
    [referenceCount] of a pointer that is not NULL is the number of pointers
    to its object. *)
Theorem SharedPtr_counts h :
  sp_reach h ->
  (forall o, legal o h -> exists h', perform o h = Ret (tt, h') /\ sp_reach h' /\ sp_spec o (view h) (view h')) /\
  (forall ob, ob ∈ h_objs h <-> alive (view h) ob) /\
  (forall k, is_Some (h_counts h !! k) -> exists x p, h_vars h !! x = Some p /\ _pCounter p = Some k) /\
  (forall x ob, get x h = Ret (Some ob, h) -> referenceCount x h = Ret (Z.of_nat (sharers h x), h)).
Proof.
  intros Hr. pose proof (sp_reach_okay h Hr) as HI. pose proof HI as [Hs Hc _ _]. split_and!.
  - intros o Hl. destruct (perform_does o h HI Hl) as (h' & E & _ & Hsp). exists h'. split_and!; [done|by eapply reach_op|done].
  - intros ob. by rewrite alive_obj.
  - intros k [v Hk]. apply refs_pos. destruct (Hc k v Hk). lia.
  - intros x ob. unfold get, referenceCount, mbind, H_bind, var. destruct (h_vars h !! x) as [p|] eqn:Hx; [|done].
    intros E. unfold mret, H_ret in E. injection E as Ep. destruct (Hs x p Hx) as [->|(k & o & -> & [v Hk])]; [done|].
    cbn [_pCounter]. unfold count. rewrite Hk. rewrite (sharers_refs h x k o HI Hx). by destruct (Hc k v Hk) as [-> _].
Qed.

(** A sequence of operations, each of which must be allowed. *)
Fixpoint perform_all (l : list sp_op) (h : heap) : option heap :=
  match l with
  | [] => Some h
  | o :: l =>
      if bool_decide (legal o h)
      then match perform o h with Ret (_, h') => perform_all l h' | _ => None end
      else None
  end.
Lemma perform_all_reach l h h' : sp_reach h -> perform_all l h = Some h' -> sp_reach h'.
Proof.
  revert h. induction l as [|o l IH]; intros h Hr E; cbn in E; [by injection E as <-|].
  destruct (bool_decide_reflect (legal o h)) as [Hl|]; [|done].
  destruct (perform o h) as [[[] h1]| |] eqn:Ep; [|done..]. apply (IH h1); [|done]. by eapply reach_op.
Qed.

(** Three pointers to one object, one of which then moves to a second object. *)
Definition demo_ops : list sp_op := [SpNew 0; SpCopy 1 0; SpNull 2; SpAssign 2 1; SpAssignNew 1].
Definition demo_heap : heap := match perform_all demo_ops no_ptrs with Some h => h | None => no_ptrs end.

Lemma SharedPtr_counts_witness :
  sp_reach demo_heap /\ referenceCount 0 demo_heap = Ret (2, demo_heap) /\ referenceCount 1 demo_heap = Ret (1, demo_heap).
Proof.
  assert (sp_reach demo_heap) as Hr.
  { apply (perform_all_reach demo_ops no_ptrs); [exact reach_none|vm_compute; reflexivity]. }
  split; [exact Hr|]. destruct (SharedPtr_counts demo_heap Hr) as (_ & _ & _ & Hc).
  split; [apply (Hc 0%nat 0%nat)|apply (Hc 1%nat 1%nat)]; vm_compute; reflexivity.
Defined.
