(* ===== verification/EvBuffer.v ===== *)
(** * EvBuffer: the byte queues of libevent (libevent/buffer.c)

    What a connection receives and what it has still to send lies in an
    [evbuffer]: a linked list of chains, each with a block of memory of which a
    part in the middle holds data.  This file has the structures of
    evbuffer-internal.h and the functions the sockets of the daemons use:
    appending, copying out, draining, and the transfers from and to a socket.
    The chains of a buffer live in a heap; an allocation can fail ([oom] says
    which ones do), and its memory has arbitrary contents ([junk]).  What
    [readv] and [writev] do is an argument. *)

From S2P Require Import Prelude Words.

(** ** Structures *)

Notation cptr := (option nat).

(** [struct evbuffer_chain]. *)
Record evbuffer_chain := mkChain {
  ch_next : cptr;
  ch_buffer_len : Z;
  ch_misalign : Z;
  ch_off : Z;
  ch_flags : Z;
  ch_buffer : bytes
}.
Definition set_next (q : cptr) (c : evbuffer_chain) : evbuffer_chain :=
  mkChain q (ch_buffer_len c) (ch_misalign c) (ch_off c) (ch_flags c) (ch_buffer c).
Definition set_misalign (z : Z) (c : evbuffer_chain) : evbuffer_chain :=
  mkChain (ch_next c) (ch_buffer_len c) z (ch_off c) (ch_flags c) (ch_buffer c).
Definition set_off (z : Z) (c : evbuffer_chain) : evbuffer_chain :=
  mkChain (ch_next c) (ch_buffer_len c) (ch_misalign c) z (ch_flags c) (ch_buffer c).
Definition set_flags (z : Z) (c : evbuffer_chain) : evbuffer_chain :=
  mkChain (ch_next c) (ch_buffer_len c) (ch_misalign c) (ch_off c) z (ch_buffer c).
Definition set_buffer (b : bytes) (c : evbuffer_chain) : evbuffer_chain :=
  mkChain (ch_next c) (ch_buffer_len c) (ch_misalign c) (ch_off c) (ch_flags c) b.

Definition EVBUFFER_IMMUTABLE : Z := 0x0008.
Definition EVBUFFER_MEM_PINNED_R : Z := 0x0010.
Definition EVBUFFER_MEM_PINNED_W : Z := 0x0020.
Definition EVBUFFER_MEM_PINNED_ANY : Z := Z.lor EVBUFFER_MEM_PINNED_R EVBUFFER_MEM_PINNED_W.
Definition EVBUFFER_DANGLING : Z := 0x0040.
Definition has_flag (c : evbuffer_chain) (m : Z) : bool := negb (Z.land (ch_flags c) m =? 0).
Definition CHAIN_PINNED (c : evbuffer_chain) : bool := has_flag c EVBUFFER_MEM_PINNED_ANY.
Definition CHAIN_PINNED_R (c : evbuffer_chain) : bool := has_flag c EVBUFFER_MEM_PINNED_R.
Definition CHAIN_SPACE_LEN (c : evbuffer_chain) : Z :=
  if has_flag c EVBUFFER_IMMUTABLE then 0 else u64 (ch_buffer_len c - (ch_misalign c + ch_off c)).

(** [struct evbuffer_chain **]: [&buf->first], or [&c->next]. *)
Inductive chainp := P_first | P_next (c : nat).
#[export] Instance chainp_eq_dec : EqDecision chainp.
Proof. solve_decision. Defined.

(** [struct evbuffer_cb_info]; what a callback of the buffer is told. *)
Record cb_info := mkInfo { orig_size : Z; n_added : Z; n_deleted : Z }.

(** [struct evbuffer], with its chains; of the entries of [callbacks] the
    flags are kept, the functions are called by who calls the buffer. *)
Record evbuffer := mkEvb {
  eb_first : cptr;
  eb_last : cptr;
  eb_last_with_datap : chainp;
  eb_total_len : Z;
  eb_n_add_for_cb : Z;
  eb_n_del_for_cb : Z;
  eb_freeze_start : bool;
  eb_freeze_end : bool;
  eb_callbacks : list Z;
  eb_heap : gmap nat evbuffer_chain;
  eb_count : nat
}.
Definition set_first (p : cptr) (b : evbuffer) : evbuffer :=
  mkEvb p (eb_last b) (eb_last_with_datap b) (eb_total_len b) (eb_n_add_for_cb b) (eb_n_del_for_cb b) (eb_freeze_start b) (eb_freeze_end b) (eb_callbacks b) (eb_heap b) (eb_count b).
Definition set_last (p : cptr) (b : evbuffer) : evbuffer :=
  mkEvb (eb_first b) p (eb_last_with_datap b) (eb_total_len b) (eb_n_add_for_cb b) (eb_n_del_for_cb b) (eb_freeze_start b) (eb_freeze_end b) (eb_callbacks b) (eb_heap b) (eb_count b).
Definition set_datap (p : chainp) (b : evbuffer) : evbuffer :=
  mkEvb (eb_first b) (eb_last b) p (eb_total_len b) (eb_n_add_for_cb b) (eb_n_del_for_cb b) (eb_freeze_start b) (eb_freeze_end b) (eb_callbacks b) (eb_heap b) (eb_count b).
Definition set_total (z : Z) (b : evbuffer) : evbuffer :=
  mkEvb (eb_first b) (eb_last b) (eb_last_with_datap b) z (eb_n_add_for_cb b) (eb_n_del_for_cb b) (eb_freeze_start b) (eb_freeze_end b) (eb_callbacks b) (eb_heap b) (eb_count b).
Definition set_counts (a d : Z) (b : evbuffer) : evbuffer :=
  mkEvb (eb_first b) (eb_last b) (eb_last_with_datap b) (eb_total_len b) a d (eb_freeze_start b) (eb_freeze_end b) (eb_callbacks b) (eb_heap b) (eb_count b).
Definition set_heap (h : gmap nat evbuffer_chain) (b : evbuffer) : evbuffer :=
  mkEvb (eb_first b) (eb_last b) (eb_last_with_datap b) (eb_total_len b) (eb_n_add_for_cb b) (eb_n_del_for_cb b) (eb_freeze_start b) (eb_freeze_end b) (eb_callbacks b) h (eb_count b).
Definition bump (b : evbuffer) : evbuffer :=
  mkEvb (eb_first b) (eb_last b) (eb_last_with_datap b) (eb_total_len b) (eb_n_add_for_cb b) (eb_n_del_for_cb b) (eb_freeze_start b) (eb_freeze_end b) (eb_callbacks b) (eb_heap b) (S (eb_count b)).

(** [evbuffer_new], [evbuffer_add_cb], [evbuffer_freeze] and
    [evbuffer_unfreeze]. *)
Definition evbuffer_new : evbuffer := mkEvb None None P_first 0 0 0 false false [] ∅ 0.
Definition EVBUFFER_CB_ENABLED : Z := 1.
Definition EVBUFFER_CB_NODEFER : Z := 2.
(** A new entry goes to the head of the list. *)
Definition evbuffer_add_cb (b : evbuffer) : evbuffer :=
  mkEvb (eb_first b) (eb_last b) (eb_last_with_datap b) (eb_total_len b) (eb_n_add_for_cb b) (eb_n_del_for_cb b) (eb_freeze_start b) (eb_freeze_end b) (EVBUFFER_CB_ENABLED :: eb_callbacks b) (eb_heap b) (eb_count b).
Definition set_freeze (start v : bool) (b : evbuffer) : evbuffer :=
  mkEvb (eb_first b) (eb_last b) (eb_last_with_datap b) (eb_total_len b) (eb_n_add_for_cb b) (eb_n_del_for_cb b)
    (if start then v else eb_freeze_start b) (if start then eb_freeze_end b else v) (eb_callbacks b) (eb_heap b) (eb_count b).
Definition evbuffer_freeze (start : bool) : evbuffer -> evbuffer := set_freeze start true.
Definition evbuffer_unfreeze (start : bool) : evbuffer -> evbuffer := set_freeze start false.

(** ** The monad *)

Definition E (A : Type) : Type := evbuffer -> result (A * evbuffer).
#[global] Instance E_ret : MRet E := fun _ a b => Ret (a, b).
#[global] Instance E_bind : MBind E :=
  fun _ _ f m b => match m b with Ret (a, b') => f a b' | Crash => Crash | NoFuel => NoFuel end.

Definition ecrash {A} : E A := fun _ => Crash.
Definition ev {A} (f : evbuffer -> A) : E A := fun b => Ret (f b, b).
Definition upd (f : evbuffer -> evbuffer) : E unit := fun b => Ret (tt, f b).
(** A failed [EVUTIL_ASSERT] ends the program. *)
Definition EVUTIL_ASSERT (c : bool) : E unit := if c then mret tt else ecrash.
Definition chain (c : nat) : E evbuffer_chain := fun b => match eb_heap b !! c with Some x => Ret (x, b) | None => Crash end.
Definition the_chain (p : cptr) : E (nat * evbuffer_chain) :=
  match p with None => ecrash | Some c => x ← chain c; mret (c, x) end.
Definition edit_chain (c : nat) (f : evbuffer_chain -> evbuffer_chain) : E unit :=
  x ← chain c; upd (fun b => set_heap (<[c := f x]> (eb_heap b)) b).
(** [*pp], and [*pp = v]. *)
Definition get_pp (pp : chainp) : E cptr :=
  match pp with P_first => ev eb_first | P_next c => x ← chain c; mret (ch_next x) end.
Definition set_pp (pp : chainp) (v : cptr) : E unit :=
  match pp with P_first => upd (set_first v) | P_next c => edit_chain c (set_next v) end.

(** Reading and writing the memory of a chain, which has [buffer_len] bytes. *)
Definition memcpy_to (c : nat) (at_ : Z) (data : bytes) : E unit :=
  x ← chain c;
  let n := Z.to_nat at_ in
  if (0 <=? at_) && Nat.leb (n + length data) (length (ch_buffer x))
  then edit_chain c (set_buffer (take n (ch_buffer x) ++ data ++ drop (n + length data) (ch_buffer x)))
  else ecrash.
Definition memcpy_from (c : nat) (at_ len : Z) : E bytes :=
  x ← chain c;
  if (0 <=? at_) && (0 <=? len) && (at_ + len <=? Z.of_nat (length (ch_buffer x)))
  then mret (take (Z.to_nat len) (drop (Z.to_nat at_) (ch_buffer x)))
  else ecrash.

(** A conversion to [int]. *)
Definition to_int (z : Z) : Z := let m := u32 z in if m <? 2 ^ 31 then m else m - 2 ^ 32.

(** The rounds of a loop over the chains. *)
Definition chain_fuel {A} (f : nat -> E A) : E A := fun b => f (S (S (base.size (eb_heap b)))) b.
Definition no_rounds {A} : E A := fun _ => NoFuel.

(** ** Callbacks *)

(** [evbuffer_run_callbacks] for a buffer whose callbacks are not deferred; one
    entry of the result for each call. *)
Definition run_entry (mask masked_val : Z) (info : cb_info) (flags : Z) : list cb_info :=
  if Z.land flags mask =? masked_val then [info] else [].
Definition evbuffer_run_callbacks : E (list cb_info) :=
  cbs ← ev eb_callbacks;
  match cbs with
  | [] => upd (set_counts 0 0) ;; mret []
  | _ :: _ =>
      a ← ev eb_n_add_for_cb;
      d ← ev eb_n_del_for_cb;
      if (a =? 0) && (d =? 0) then mret []
      else
        new_size ← ev eb_total_len;
        let info := mkInfo (u64 (u64 (new_size + d) - a)) a d in
        upd (set_counts 0 0) ;;
        mret (flat_map (run_entry EVBUFFER_CB_ENABLED EVBUFFER_CB_ENABLED info) cbs)
  end.
Definition evbuffer_invoke_callbacks : E (list cb_info) :=
  cbs ← ev eb_callbacks;
  match cbs with
  | [] => upd (set_counts 0 0) ;; mret []
  | _ :: _ => evbuffer_run_callbacks
  end.
Definition count_add (n : Z) : E unit := upd (fun b => set_counts (u64 (eb_n_add_for_cb b + n)) (eb_n_del_for_cb b) b).
Definition count_del (n : Z) : E unit := upd (fun b => set_counts (eb_n_add_for_cb b) (u64 (eb_n_del_for_cb b + n)) b).
Definition add_total (n : Z) : E unit := upd (fun b => set_total (u64 (eb_total_len b + n)) b).

(** ** Chains *)

Section evbuffer.
Context (oom : nat -> bool) (junk : nat -> nat -> Z).

Definition EVBUFFER_CHAIN_SIZE : Z := 48.
Definition MIN_BUFFER_SIZE : Z := 1024.
(** The loop that doubles [to_alloc]. *)
Fixpoint alloc_size (fuel : nat) (to_alloc size : Z) : result Z :=
  if to_alloc <? size then
    match fuel with O => NoFuel | S fuel => alloc_size fuel (u64 (Z.shiftl to_alloc 1)) size end
  else Ret to_alloc.
Definition evbuffer_chain_new (size : Z) : E cptr :=
  fun b =>
    match alloc_size 64 MIN_BUFFER_SIZE (u64 (size + EVBUFFER_CHAIN_SIZE)) with
    | Ret to_alloc =>
        let p := eb_count b in
        if oom p then Ret (None, bump b)
        else
          let n := to_alloc - EVBUFFER_CHAIN_SIZE in
          Ret (Some p, set_heap (<[p := mkChain None n 0 0 0 (map (junk p) (seq 0 (Z.to_nat n)))]> (eb_heap b)) (bump b))
    | Crash => Crash
    | NoFuel => NoFuel
    end.
(** A pinned chain is only marked.  The flags for mapped, sent and referenced
    memory, whose release the function also does, are set by functions the
    daemons do not call. *)
Definition evbuffer_chain_free (c : nat) : E unit :=
  x ← chain c;
  if CHAIN_PINNED x then edit_chain c (set_flags (Z.lor (ch_flags x) EVBUFFER_DANGLING))
  else upd (fun b => set_heap (delete c (eb_heap b)) b).
Fixpoint free_all (fuel : nat) (p : cptr) : E unit :=
  match p with
  | None => mret tt
  | Some c =>
      match fuel with
      | O => no_rounds
      | S fuel => x ← chain c; evbuffer_chain_free c ;; free_all fuel (ch_next x)
      end
  end.
Definition evbuffer_free_all_chains (p : cptr) : E unit := chain_fuel (fun fuel => free_all fuel p).
Fixpoint all_empty (fuel : nat) (p : cptr) : E bool :=
  match p with
  | None => mret true
  | Some c =>
      match fuel with
      | O => no_rounds
      | S fuel => x ← chain c; if negb (ch_off x =? 0) then mret false else all_empty fuel (ch_next x)
      end
  end.
Definition evbuffer_chains_all_empty (p : cptr) : E bool := chain_fuel (fun fuel => all_empty fuel p).
Definition ZERO_CHAIN : E unit :=
  upd (fun b => set_total 0 (set_datap P_first (set_last None (set_first None b)))).
Definition HAS_PINNED_R : E bool :=
  p ← ev eb_last;
  match p with None => mret false | Some c => x ← chain c; mret (CHAIN_PINNED_R x) end.

(** The search for the first chain without data, from [*ch] on. *)
Fixpoint victim (fuel : nat) (ch : chainp) : E chainp :=
  p ← get_pp ch;
  match p with
  | None => mret ch
  | Some c =>
      x ← chain c;
      if negb (ch_off x =? 0) || CHAIN_PINNED x then
        match fuel with O => no_rounds | S fuel => victim fuel (P_next c) end
      else mret ch
  end.
Definition evbuffer_chain_insert (c : nat) : E unit :=
  pp ← ev eb_last_with_datap;
  p ← get_pp pp;
  (match p with
   | None =>
       EVUTIL_ASSERT (bool_decide (pp = P_first)) ;;
       first ← ev eb_first;
       EVUTIL_ASSERT (bool_decide (first = None)) ;;
       upd (set_first (Some c)) ;; upd (set_last (Some c))
   | Some _ =>
       ch ← chain_fuel (fun fuel => victim fuel pp);
       v ← get_pp ch;
       (match v with
        | None =>
            l ← ev eb_last;
            '(lc, _) ← the_chain l;
            edit_chain lc (set_next (Some c)) ;;
            x ← chain c;
            if negb (ch_off x =? 0) then upd (set_datap (P_next lc)) else mret tt
        | Some _ =>
            empty ← evbuffer_chains_all_empty v;
            EVUTIL_ASSERT empty ;;
            evbuffer_free_all_chains v ;;
            set_pp ch (Some c)
        end) ;;
       upd (set_last (Some c))
   end) ;;
  x ← chain c;
  add_total (ch_off x).
Definition evbuffer_chain_insert_new (datlen : Z) : E cptr :=
  p ← evbuffer_chain_new datlen;
  match p with None => mret None | Some c => evbuffer_chain_insert c ;; mret (Some c) end.

(** ** Appending *)

Definition MAX_TO_REALIGN_IN_EXPAND : Z := 2048.
Definition evbuffer_chain_align (c : nat) : E unit :=
  x ← chain c;
  EVUTIL_ASSERT (negb (has_flag x EVBUFFER_IMMUTABLE)) ;;
  EVUTIL_ASSERT (negb (has_flag x EVBUFFER_MEM_PINNED_ANY)) ;;
  d ← memcpy_from c (ch_misalign x) (ch_off x);
  memcpy_to c 0 d ;;
  edit_chain c (set_misalign 0).
Definition evbuffer_chain_should_realign (x : evbuffer_chain) (datlen : Z) : bool :=
  (datlen <=? u64 (ch_buffer_len x - ch_off x)) && (ch_off x <? ch_buffer_len x / 2) && (ch_off x <=? MAX_TO_REALIGN_IN_EXPAND).

Definition EVBUFFER_CHAIN_MAX_AUTO_SIZE : Z := 4096.
(** Data that fits into the last chain, at [at_] of its memory. *)
Definition put_in (c : nat) (at_ : Z) (data : bytes) : E unit :=
  memcpy_to c at_ data ;;
  edit_chain c (fun x => set_off (ch_off x + Z.of_nat (length data)) x) ;;
  add_total (Z.of_nat (length data)) ;;
  count_add (Z.of_nat (length data)).
(** The part behind [we need to add another chain]; [remain] bytes still go
    into chain [c]. *)
Definition add_chain (c : nat) (remain : Z) (data : bytes) : E (Z * list cb_info) :=
  let datlen := Z.of_nat (length data) in
  x ← chain c;
  let to_alloc := ch_buffer_len x in
  let to_alloc := if to_alloc <=? EVBUFFER_CHAIN_MAX_AUTO_SIZE / 2 then u64 (Z.shiftl to_alloc 1) else to_alloc in
  let to_alloc := if to_alloc <? datlen then datlen else to_alloc in
  p ← evbuffer_chain_new to_alloc;
  match p with
  | None => mret (-1, [])
  | Some tmp =>
      let r := Z.to_nat remain in
      (if negb (remain =? 0) then put_in c (ch_misalign x + ch_off x) (take r data) else mret tt) ;;
      memcpy_to tmp 0 (drop r data) ;;
      edit_chain tmp (set_off (Z.of_nat (length (drop r data)))) ;;
      evbuffer_chain_insert tmp ;;
      count_add (Z.of_nat (length (drop r data))) ;;
      l ← evbuffer_invoke_callbacks;
      mret (0, l)
  end.
(** The chain [buf->last], or a new one. *)
Definition last_chain (datlen : Z) : E cptr :=
  p ← ev eb_last;
  match p with
  | Some c => mret (Some c)
  | None => evbuffer_chain_insert_new datlen
  end.
(** The part behind the choice of the chain. *)
Definition add_to (c : nat) (data : bytes) : E (Z * list cb_info) :=
  let datlen := Z.of_nat (length data) in
  x ← chain c;
  if negb (has_flag x EVBUFFER_IMMUTABLE) then
    let remain := u64 (ch_buffer_len x - ch_misalign x - ch_off x) in
    if datlen <=? remain then
      put_in c (ch_misalign x + ch_off x) data ;;
      l ← evbuffer_invoke_callbacks; mret (0, l)
    else if negb (CHAIN_PINNED x) && evbuffer_chain_should_realign x datlen then
      evbuffer_chain_align c ;;
      put_in c (ch_off x) data ;;
      l ← evbuffer_invoke_callbacks; mret (0, l)
    else add_chain c remain data
  else add_chain c 0 data.
Definition evbuffer_add (data : bytes) : E (Z * list cb_info) :=
  fz ← ev eb_freeze_end;
  if fz : bool then mret (-1, [])
  else
    p ← last_chain (Z.of_nat (length data));
    match p with
    | None => mret (-1, [])
    | Some c => add_to c data
    end.

(** ** Taking out *)

Definition evbuffer_get_length : E Z := ev eb_total_len.

(** The loop of [evbuffer_drain]: the chain it stops at, and what remains to
    be taken from it. *)
Fixpoint drain_loop (fuel : nat) (p : cptr) (remaining : Z) : E (cptr * Z) :=
  '(c, x) ← the_chain p;
  if ch_off x <=? remaining then
    match fuel with
    | O => no_rounds
    | S fuel =>
        let remaining := u64 (remaining - ch_off x) in
        pp ← ev eb_last_with_datap;
        p ← get_pp pp;
        (if bool_decide (p = Some c) then upd (set_datap P_first) else mret tt) ;;
        pp ← ev eb_last_with_datap;
        (if bool_decide (pp = P_next c) then upd (set_datap P_first) else mret tt) ;;
        if CHAIN_PINNED_R x then
          EVUTIL_ASSERT (remaining =? 0) ;;
          edit_chain c (fun x => set_off 0 (set_misalign (ch_misalign x + ch_off x) x)) ;;
          mret (Some c, remaining)
        else
          evbuffer_chain_free c ;; drain_loop fuel (ch_next x) remaining
    end
  else mret (p, remaining).
Definition evbuffer_drain (len : Z) : E (Z * list cb_info) :=
  old_len ← ev eb_total_len;
  if old_len =? 0 then mret (0, [])
  else
    fz ← ev eb_freeze_start;
    if fz : bool then mret (-1, [])
    else
      pinned ← HAS_PINNED_R;
      len ← (if (old_len <=? len) && negb pinned then
               p ← ev eb_first;
               evbuffer_free_all_chains p ;; ZERO_CHAIN ;; mret old_len
             else
               let len := if old_len <=? len then old_len else len in
               upd (fun b => set_total (u64 (eb_total_len b - len)) b) ;;
               first ← ev eb_first;
               '(p, remaining) ← chain_fuel (fun fuel => drain_loop fuel first len);
               upd (set_first p) ;;
               (match p with
                | None => mret tt
                | Some c => edit_chain c (fun x => set_off (ch_off x - remaining) (set_misalign (ch_misalign x + remaining) x))
                end) ;; mret len);
      count_del len ;;
      l ← evbuffer_invoke_callbacks;
      mret (0, l).

(** The loop of [evbuffer_copyout] and the copy behind it. *)
Fixpoint copy_loop (fuel : nat) (p : cptr) (datlen : Z) : E bytes :=
  if datlen =? 0 then mret []
  else
    '(c, x) ← the_chain p;
    if ch_off x <=? datlen then
      match fuel with
      | O => no_rounds
      | S fuel =>
          d ← memcpy_from c (ch_misalign x) (ch_off x);
          let datlen := u64 (datlen - ch_off x) in
          EVUTIL_ASSERT (bool_decide (is_Some (ch_next x)) || (datlen =? 0)) ;;
          r ← copy_loop fuel (ch_next x) datlen;
          mret (d ++ r)
      end
    else memcpy_from c (ch_misalign x) datlen.
(** The number of bytes, and the bytes. *)
Definition evbuffer_copyout (datlen : Z) : E (Z * bytes) :=
  p ← ev eb_first;
  total ← ev eb_total_len;
  let datlen := if total <=? datlen then total else datlen in
  if datlen =? 0 then mret (0, [])
  else
    fz ← ev eb_freeze_start;
    if fz : bool then mret (-1, [])
    else
      d ← chain_fuel (fun fuel => copy_loop fuel p datlen);
      mret (datlen, d).
Definition evbuffer_remove (datlen : Z) : E (Z * bytes * list cb_info) :=
  '(n, d) ← evbuffer_copyout datlen;
  if 0 <? n then
    '(r, l) ← evbuffer_drain n;
    mret (to_int (if r <? 0 then -1 else n), d, l)
  else mret (to_int n, d, []).

(** ** Receiving *)

(** The loop of [_evbuffer_expand_fast] over the chains from the last one with
    data: [None] when there is space enough, otherwise the space found and the
    number of chains it is in. *)
Fixpoint expand_loop (fuel : nat) (p : cptr) (datlen n avail used : Z) : E (option (Z * Z)) :=
  match p with
  | None => mret (Some (avail, used))
  | Some c =>
      match fuel with
      | O => no_rounds
      | S fuel =>
          x ← chain c;
          '(avail, used) ←
            (if negb (ch_off x =? 0) then
               let space := CHAIN_SPACE_LEN x in
               pp ← ev eb_last_with_datap;
               q ← get_pp pp;
               EVUTIL_ASSERT (bool_decide (q = Some c)) ;;
               mret (if negb (space =? 0) then (u64 (avail + space), used + 1) else (avail, used))
             else
               edit_chain c (set_misalign 0) ;;
               mret (u64 (avail + ch_buffer_len x), used + 1));
          if datlen <=? avail then mret None
          else if used =? n then mret (Some (avail, used))
          else expand_loop fuel (ch_next x) datlen n avail used
      end
  end.
(** The loop that frees the chains without data. *)
Fixpoint free_empty (fuel : nat) (p : cptr) : E unit :=
  match p with
  | None => mret tt
  | Some c =>
      match fuel with
      | O => no_rounds
      | S fuel => x ← chain c; EVUTIL_ASSERT (ch_off x =? 0) ;; evbuffer_chain_free c ;; free_empty fuel (ch_next x)
      end
  end.
(** The part for more than [n] chains: all chains without data make place for
    a new one. *)
Definition replace_empty (datlen : Z) : E Z :=
  pp ← ev eb_last_with_datap;
  q ← get_pp pp;
  '(c, x) ← the_chain q;
  '(rmv_all, avail, p) ←
    (if ch_off x =? 0 then
       first ← ev eb_first;
       EVUTIL_ASSERT (bool_decide (first = Some c)) ;; mret (true, 0, Some c)
     else mret (false, CHAIN_SPACE_LEN x, ch_next x));
  chain_fuel (fun fuel => free_empty fuel p) ;;
  t ← evbuffer_chain_new (u64 (datlen - avail));
  match t with
  | None =>
      (if rmv_all : bool then ZERO_CHAIN
       else upd (set_last (Some c)) ;; edit_chain c (set_next None)) ;; mret (-1)
  | Some tmp =>
      (if rmv_all : bool then upd (set_first (Some tmp)) ;; upd (set_last (Some tmp)) ;; upd (set_datap P_first)
       else edit_chain c (set_next (Some tmp)) ;; upd (set_last (Some tmp))) ;; mret 0
  end.
Definition _evbuffer_expand_fast (datlen n : Z) : E Z :=
  EVUTIL_ASSERT (2 <=? n) ;;
  l ← ev eb_last;
  usable ← (match l with None => mret false | Some c => x ← chain c; mret (negb (has_flag x EVBUFFER_IMMUTABLE)) end);
  if negb usable then
    p ← evbuffer_chain_insert_new datlen;
    mret (match p with None => -1 | Some _ => 0 end)
  else
    pp ← ev eb_last_with_datap;
    first ← get_pp pp;
    r ← chain_fuel (fun fuel => expand_loop fuel first datlen n 0 0);
    match r with
    | None => mret 0
    | Some (avail, used) =>
        if used <? n then
          t ← evbuffer_chain_new (u64 (datlen - avail));
          match t with
          | None => mret (-1)
          | Some tmp =>
              l ← ev eb_last;
              '(lc, _) ← the_chain l;
              edit_chain lc (set_next (Some tmp)) ;;
              upd (set_last (Some tmp)) ;; mret 0
          end
        else replace_empty datlen
    end.

(** [_evbuffer_read_setup_vecs] with [exact]: the chains to read into, each
    with the number of bytes, and where the first of them hangs. *)
Fixpoint setup_loop (fuel : nat) (p : cptr) (howmuch so_far : Z) : E (list (nat * Z)) :=
  match fuel with
  | O => mret []
  | S fuel =>
      if so_far <? howmuch then
        '(c, x) ← the_chain p;
        let avail := CHAIN_SPACE_LEN x in
        let avail := if howmuch - so_far <? avail then howmuch - so_far else avail in
        r ← setup_loop fuel (ch_next x) howmuch (so_far + avail);
        mret ((c, avail) :: r)
      else mret []
  end.
Definition _evbuffer_read_setup_vecs (howmuch : Z) (n_vecs_avail : nat) : E (list (nat * Z) * chainp) :=
  firstchainp ← ev eb_last_with_datap;
  q ← get_pp firstchainp;
  '(c, x) ← the_chain q;
  let firstchainp := if CHAIN_SPACE_LEN x =? 0 then P_next c else firstchainp in
  p ← get_pp firstchainp;
  vecs ← setup_loop n_vecs_avail p howmuch 0;
  mret (vecs, firstchainp).

(** [readv] puts the bytes into the vectors in their order. *)
Fixpoint scatter (vecs : list (nat * Z)) (data : bytes) : E unit :=
  match vecs with
  | [] => mret tt
  | (c, len) :: vecs =>
      x ← chain c;
      memcpy_to c (ch_misalign x + ch_off x) (take (Z.to_nat len) data) ;;
      scatter vecs (drop (Z.to_nat len) data)
  end.
(** The loop that moves the ends of the chains. *)
Fixpoint commit_loop (nvecs : nat) (pp : chainp) (remaining : Z) : E unit :=
  match nvecs with
  | O => mret tt
  | S nvecs =>
      q ← get_pp pp;
      '(c, x) ← the_chain q;
      let space := CHAIN_SPACE_LEN x in
      if space <? remaining then
        edit_chain c (fun x => set_off (ch_off x + space) x) ;;
        commit_loop nvecs (P_next c) (remaining - space)
      else
        edit_chain c (fun x => set_off (ch_off x + remaining) x) ;;
        upd (set_datap pp)
  end.
Definition EVBUFFER_MAX_READ : Z := 4096.
Definition NUM_READ_IOVEC : nat := 4.
(** [readable] is what the socket says it has ([FIONREAD]); [readv n] what
    reading up to [n] bytes from it gives, [None] for an error. *)
Definition evbuffer_read (readable : Z) (readv : Z -> option bytes) (howmuch : Z) : E (Z * list cb_info) :=
  fz ← ev eb_freeze_end;
  if fz : bool then mret (-1, [])
  else
    let n := if (readable <=? 0) || (EVBUFFER_MAX_READ <? readable) then EVBUFFER_MAX_READ else readable in
    let howmuch := if (howmuch <? 0) || (n <? howmuch) then n else howmuch in
    r ← _evbuffer_expand_fast howmuch (Z.of_nat NUM_READ_IOVEC);
    if r =? -1 then mret (-1, [])
    else
      '(vecs, pp) ← _evbuffer_read_setup_vecs howmuch NUM_READ_IOVEC;
      match readv (foldr Z.add 0 (map snd vecs)) with
      | None => mret (-1, [])
      | Some [] => mret (0, [])
      | Some data =>
          scatter vecs data ;;
          commit_loop (length vecs) pp (Z.of_nat (length data)) ;;
          add_total (Z.of_nat (length data)) ;;
          count_add (Z.of_nat (length data)) ;;
          l ← evbuffer_invoke_callbacks;
          mret (Z.of_nat (length data), l)
      end.

(** ** Sending *)

Definition NUM_WRITE_IOVEC : nat := 128.
(** The vectors of [evbuffer_write_iovec]. *)
Fixpoint gather_iov (i : nat) (p : cptr) (howmuch : Z) : E (list bytes) :=
  match i, p with
  | S i, Some c =>
      if howmuch =? 0 then mret []
      else
        x ← chain c;
        if ch_off x <=? howmuch then
          d ← memcpy_from c (ch_misalign x) (ch_off x);
          r ← gather_iov i (ch_next x) (howmuch - ch_off x);
          mret (d :: r)
        else
          d ← memcpy_from c (ch_misalign x) howmuch; mret [d]
  | _, _ => mret []
  end.
(** The result of [writev], and the bytes the socket has taken. *)
Definition evbuffer_write_iovec (writev : bytes -> Z) (howmuch : Z) : E (Z * bytes) :=
  p ← ev eb_first;
  if howmuch <? 0 then mret (-1, [])
  else
    iov ← gather_iov NUM_WRITE_IOVEC p howmuch;
    match iov with
    | [] => mret (0, [])
    | _ :: _ => let n := writev (mjoin iov) in mret (n, take (Z.to_nat n) (mjoin iov))
    end.
Definition evbuffer_write_atmost (writev : bytes -> Z) (howmuch : Z) : E (Z * bytes * list cb_info) :=
  fz ← ev eb_freeze_start;
  if fz : bool then mret (-1, [], [])
  else
    total ← ev eb_total_len;
    let howmuch := if (howmuch <? 0) || (total <? howmuch) then total else howmuch in
    '(n, sent) ← (if 0 <? howmuch then evbuffer_write_iovec writev howmuch else mret (-1, []));
    if 0 <? n then
      '(_, l) ← evbuffer_drain n; mret (n, sent, l)
    else mret (n, sent, []).
End evbuffer.
