(* ===== verification/EvQueue.v ===== *)
(** * EvQueue: buffers hold queues of bytes

    [holds k b bs] says that the linked chains of [b] carry the bytes [bs]:
    the list is closed, every chain's data lies inside its memory, [last] and
    [last_with_datap] are where they belong, the length is right, and there are
    no other chains in the heap.  Every function of EvBuffer keeps it and does
    to [bs] what it should. *)

From S2P Require Import Prelude Words EvBuffer.

(** ** The shape of a buffer *)

Notation chains := (list (nat * evbuffer_chain)).

Definition hd_ptr (cs : chains) : cptr := fst <$> head cs.
Fixpoint linked (p : cptr) (cs : chains) : Prop :=
  match cs with
  | [] => p = None
  | (c, x) :: r => p = Some c /\ linked (ch_next x) r
  end.
(** The data of a chain, and of all. *)
Definition cdat (x : evbuffer_chain) : bytes := take (Z.to_nat (ch_off x)) (drop (Z.to_nat (ch_misalign x)) (ch_buffer x)).
Definition contents (cs : chains) : bytes := mjoin (map (fun e => cdat e.2) cs).
Record chain_ok (x : evbuffer_chain) : Prop := {
  co_mis : 0 <= ch_misalign x;
  co_off : 0 <= ch_off x;
  co_fit : ch_misalign x + ch_off x <= ch_buffer_len x;
  co_len : Z.of_nat (length (ch_buffer x)) = ch_buffer_len x;
  co_max : ch_buffer_len x <= 2 ^ 62 - 48;
  co_flags : ch_flags x = 0;
  co_pos : 0 < ch_buffer_len x
}.
Definition has_data (e : nat * evbuffer_chain) : Prop := 0 < ch_off e.2.
Definition no_data (e : nat * evbuffer_chain) : Prop := ch_off e.2 = 0.
(** The pointer to the chain behind [l]. *)
Definition ptr_to (l : chains) : chainp := match last l with None => P_first | Some (c, _) => P_next c end.

(** A buffer that is appended to has no chains behind the last one with data;
    one that is read into can have. *)
Inductive side := In | Out.
Inductive data_at (k : side) : chainp -> chains -> Prop :=
  | da_none : data_at k P_first []
  | da_some l c x r : Forall has_data l -> Forall no_data r -> (k = Out -> r = []) -> (l = [] \/ 0 < ch_off x) ->
      data_at k (ptr_to l) (l ++ (c, x) :: r).

Record evrep (k : side) (b : evbuffer) (cs : chains) : Prop := {
  er_linked : linked (eb_first b) cs;
  er_heap : eb_heap b = list_to_map cs;
  er_nodup : NoDup cs.*1;
  er_fresh : Forall (fun c => (c < eb_count b)%nat) cs.*1;
  er_ok : Forall (fun e => chain_ok e.2) cs;
  er_last : eb_last b = fst <$> last cs;
  er_total : eb_total_len b = Z.of_nat (length (contents cs));
  er_datap : data_at k (eb_last_with_datap b) cs
}.
Definition holds (k : side) (b : evbuffer) (bs : bytes) : Prop :=
  exists cs, evrep k b cs /\ contents cs = bs /\ eb_n_add_for_cb b = 0 /\ eb_n_del_for_cb b = 0.

(** What stays as it is set up, and what the callbacks are told. *)
Definition same_setup (b b' : evbuffer) : Prop :=
  eb_freeze_start b' = eb_freeze_start b /\ eb_freeze_end b' = eb_freeze_end b /\ eb_callbacks b' = eb_callbacks b.
Definition told (b : evbuffer) (old added deleted : Z) : list cb_info :=
  if (added =? 0) && (deleted =? 0) then []
  else flat_map (run_entry EVBUFFER_CB_ENABLED EVBUFFER_CB_ENABLED (mkInfo old added deleted)) (eb_callbacks b).

(** ** Lists of chains and the heap *)

Lemma ebind_eq {A B} (m : E A) (f : A -> E B) b a b' : m b = Ret (a, b') -> (m ≫= f) b = f a b'.
Proof. intros H. unfold mbind, E_bind. by rewrite H. Qed.

Lemma contents_app l r : contents (l ++ r) = contents l ++ contents r.
Proof. unfold contents. by rewrite map_app, join_app. Qed.
Lemma contents_cons e r : contents (e :: r) = cdat e.2 ++ contents r.
Proof. done. Qed.
Lemma cdat_nil x : ch_off x = 0 -> cdat x = [].
Proof. intros E. unfold cdat. by rewrite E. Qed.
Lemma contents_nil r : Forall no_data r -> contents r = [].
Proof. induction 1 as [|e r He _ IH]; [done|]. by rewrite contents_cons, IH, (cdat_nil _ He). Qed.
Lemma cdat_length x : chain_ok x -> Z.of_nat (length (cdat x)) = ch_off x.
Proof. intros [? ? ? ? ? ? ?]. unfold cdat. rewrite length_take, length_drop. lia. Qed.

Lemma linked_app p l r : linked p (l ++ r) ->
  match last l with None => p = hd_ptr r | Some (_, x) => ch_next x = hd_ptr r end /\ linked (hd_ptr r) r.
Proof.
  revert p. induction l as [|[c x] l IH]; intros p H; cbn [app last] in *.
  - destruct r as [|[c x] r]; [done|]. cbn in *. by destruct H as [-> ?].
  - destruct H as [-> H]. destruct (IH _ H) as [H1 H2]. destruct l as [|e l]; [by split|]. change (last ((c, x) :: e :: l)) with (last (e :: l)).
    destruct (last (e :: l)) as [[]|] eqn:El; [done|]. by apply last_None in El.
Qed.
Lemma linked_hd p cs : linked p cs -> p = hd_ptr cs.
Proof. destruct cs as [|[c x] cs]; [done|]. by intros [-> _]. Qed.
Lemma linked_edit p l c x x' r : ch_next x' = ch_next x -> linked p (l ++ (c, x) :: r) -> linked p (l ++ (c, x') :: r).
Proof.
  intros E. revert p. induction l as [|[c0 x0] l IH]; intros p; cbn [app linked].
  - by rewrite E.
  - intros [-> H]. split; [done|]. by apply IH.
Qed.
(** Another tail. *)
Lemma linked_graft p l c x r s : linked p (l ++ (c, x) :: r) -> linked (hd_ptr s) s ->
  linked p (l ++ (c, set_next (hd_ptr s) x) :: s).
Proof.
  revert p. induction l as [|[c0 x0] l IH]; intros p; cbn [app linked].
  - intros [-> _] Hs. by split.
  - intros [-> H] Hs. split; [done|]. by apply IH.
Qed.

Lemma heap_at (l : chains) c x r : NoDup (l ++ (c, x) :: r).*1 -> (list_to_map (l ++ (c, x) :: r) : gmap nat evbuffer_chain) !! c = Some x.
Proof. intros H. apply elem_of_list_to_map_1; [done|]. apply elem_of_app. right. left. Qed.
Lemma heap_put (l : chains) c x x' r : NoDup (l ++ (c, x) :: r).*1 ->
  <[c := x']> (list_to_map (l ++ (c, x) :: r) : gmap nat evbuffer_chain) = list_to_map (l ++ (c, x') :: r).
Proof.
  rewrite fmap_app. cbn. intros (_ & Hl & _)%NoDup_app. induction l as [|[c0 x0] l IH]; cbn [app list_to_map foldr].
  - apply insert_insert_eq.
  - rewrite insert_insert_ne by (intros ->; by apply (Hl c0); left). f_equal. apply IH. intros a Ha. apply Hl. by right.
Qed.
Lemma heap_drop (l : chains) c x r : NoDup (l ++ (c, x) :: r).*1 ->
  delete c (list_to_map (l ++ (c, x) :: r) : gmap nat evbuffer_chain) = list_to_map (l ++ r).
Proof.
  rewrite fmap_app. cbn. intros (_ & Hl & Hr)%NoDup_app. apply NoDup_cons in Hr as [Hc _]. induction l as [|[c0 x0] l IH]; cbn [app list_to_map foldr].
  - rewrite delete_insert_eq. apply delete_id, not_elem_of_list_to_map_1. done.
  - rewrite delete_insert_ne by (intros ->; by apply (Hl c0); left). f_equal. apply IH. intros a Ha. apply Hl. by right.
Qed.
Lemma heap_new (cs : chains) c x : c ∉ cs.*1 -> <[c := x]> (list_to_map cs : gmap nat evbuffer_chain) = list_to_map (cs ++ [(c, x)]).
Proof.
  induction cs as [|[c0 x0] cs IH]; intros H; [done|]. cbn in *. rewrite not_elem_of_cons in H. destruct H as [Hne H].
  rewrite <- IH by done. by rewrite insert_insert_ne.
Qed.
Lemma heap_size (cs : chains) : NoDup cs.*1 -> base.size (list_to_map cs : gmap nat evbuffer_chain) = length cs.
Proof.
  intros H. rewrite <- (length_map_to_list), <- (length_map fst), <- (length_map fst cs). apply Permutation_length.
  change (map fst) with (fmap (M := list) (fst (A := nat) (B := evbuffer_chain))). f_equiv. by apply map_to_list_to_map.
Qed.
Lemma nodup_fresh (l : list nat) n : NoDup l -> Forall (fun a => (a < n)%nat) l -> NoDup (l ++ [n]).
Proof.
  intros Hn Hl. apply NoDup_app. split_and!; [done| |apply NoDup_singleton]. intros a Ha E%list_elem_of_singleton. rewrite Forall_forall in Hl. specialize (Hl _ Ha). cbn in Hl. lia.
Qed.
Lemma fst_edit (l : chains) c x x' r : (l ++ (c, x') :: r).*1 = (l ++ (c, x) :: r).*1.
Proof. by rewrite !fmap_app. Qed.

(** ** Steps on one chain *)

Definition hp (b : evbuffer) (cs : chains) : Prop := eb_heap b = list_to_map cs /\ NoDup cs.*1.
Lemma er_hp k b cs : evrep k b cs -> hp b cs.
Proof. intros H. split; [apply H|apply H]. Qed.
Lemma hp_edit b l c x x' r b' : hp b (l ++ (c, x) :: r) -> eb_heap b' = list_to_map (l ++ (c, x') :: r) -> hp b' (l ++ (c, x') :: r).
Proof. intros [_ H] E. split; [done|]. by rewrite (fst_edit _ _ x). Qed.

Lemma hp_set b l c x x' r : hp b (l ++ (c, x) :: r) -> hp (set_heap (list_to_map (l ++ (c, x') :: r)) b) (l ++ (c, x') :: r).
Proof. intros H. by eapply hp_edit. Qed.
Lemma hp_same b b' cs : eb_heap b' = eb_heap b -> hp b cs -> hp b' cs.
Proof. intros E [H1 H2]. split; [by rewrite E|done]. Qed.
Lemma no_flags x m : ch_flags x = 0 -> has_flag x m = false.
Proof. intros E. unfold has_flag. by rewrite E. Qed.

Section steps.
Context (b : evbuffer) (l : chains) (c : nat) (x : evbuffer_chain) (r : chains).
Context (H : hp b (l ++ (c, x) :: r)).

Lemma chain_run : chain c b = Ret (x, b).
Proof. unfold chain. rewrite (proj1 H), heap_at by apply H. done. Qed.
Lemma the_chain_run : the_chain (Some c) b = Ret ((c, x), b).
Proof. unfold the_chain. by rewrite (ebind_eq _ _ _ _ _ chain_run). Qed.
Lemma edit_chain_run f : edit_chain c f b = Ret (tt, set_heap (list_to_map (l ++ (c, f x) :: r)) b).
Proof. unfold edit_chain. rewrite (ebind_eq _ _ _ _ _ chain_run). unfold upd. cbv beta. rewrite (proj1 H), heap_put by apply H. done. Qed.
Lemma free_run : ch_flags x = 0 -> evbuffer_chain_free c b = Ret (tt, set_heap (list_to_map (l ++ r)) b).
Proof.
  intros Hf. unfold evbuffer_chain_free. rewrite (ebind_eq _ _ _ _ _ chain_run). unfold CHAIN_PINNED. rewrite no_flags by done.
  unfold upd. cbv beta. rewrite (proj1 H), heap_drop by apply H. done.
Qed.
Lemma memcpy_to_run at_ data : 0 <= at_ -> at_ + Z.of_nat (length data) <= Z.of_nat (length (ch_buffer x)) ->
  memcpy_to c at_ data b = Ret (tt, set_heap (list_to_map (l ++ (c, set_buffer (take (Z.to_nat at_) (ch_buffer x) ++ data ++
    drop (Z.to_nat at_ + length data) (ch_buffer x)) x) :: r)) b).
Proof.
  intros H0 Hl. unfold memcpy_to. rewrite (ebind_eq _ _ _ _ _ chain_run). destruct (Z.leb_spec 0 at_); [|lia].
  destruct (Nat.leb_spec (Z.to_nat at_ + length data) (length (ch_buffer x))); [|lia]. apply edit_chain_run.
Qed.
Lemma memcpy_from_run at_ len : 0 <= at_ -> 0 <= len -> at_ + len <= Z.of_nat (length (ch_buffer x)) ->
  memcpy_from c at_ len b = Ret (take (Z.to_nat len) (drop (Z.to_nat at_) (ch_buffer x)), b).
Proof.
  intros H0 Hl Hs. unfold memcpy_from. rewrite (ebind_eq _ _ _ _ _ chain_run). destruct (Z.leb_spec 0 at_), (Z.leb_spec 0 len); try lia.
  destruct (Z.leb_spec (at_ + len) (Z.of_nat (length (ch_buffer x)))); [done|lia].
Qed.
Lemma read_data_run : chain_ok x -> memcpy_from c (ch_misalign x) (ch_off x) b = Ret (cdat x, b).
Proof. intros [? ? ? ? ? ? ?]. apply memcpy_from_run; lia. Qed.
End steps.

Lemma set_heap_twice h h' b : set_heap h (set_heap h' b) = set_heap h b.
Proof. done. Qed.

Lemma set_heap_id b h : eb_heap b = h -> set_heap h b = b.
Proof. intros <-. by destruct b. Qed.

Lemma u64_id z : 0 <= z < 2 ^ 64 -> u64 z = z.
Proof. intros. by apply Z.mod_small. Qed.
Lemma space_len x : chain_ok x -> CHAIN_SPACE_LEN x = ch_buffer_len x - (ch_misalign x + ch_off x).
Proof. intros [? ? ? ? ? ? ?]. unfold CHAIN_SPACE_LEN. rewrite no_flags by done. apply u64_id. lia. Qed.

(** Data behind the data of a chain. *)
Definition filled (x : evbuffer_chain) (data : bytes) : evbuffer_chain :=
  set_off (ch_off x + Z.of_nat (length data))
    (set_buffer (take (Z.to_nat (ch_misalign x + ch_off x)) (ch_buffer x) ++ data ++
                 drop (Z.to_nat (ch_misalign x + ch_off x) + length data) (ch_buffer x)) x).
Lemma filled_ok x data : chain_ok x -> Z.of_nat (length data) <= ch_buffer_len x - (ch_misalign x + ch_off x) ->
  chain_ok (filled x data) /\ cdat (filled x data) = cdat x ++ data /\ ch_next (filled x data) = ch_next x.
Proof.
  intros [? ? ? Hl ? ? ?] Hs. split_and!; [split; cbn; try done; try lia| |done].
  - rewrite !length_app, length_take, length_drop. lia.
  - unfold cdat. cbn. set (m := Z.to_nat (ch_misalign x)). set (o := Z.to_nat (ch_off x)).
    replace (Z.to_nat (ch_misalign x + ch_off x)) with (m + o)%nat by lia.
    replace (Z.to_nat (ch_off x + Z.of_nat (length data))) with (o + length data)%nat by lia.
    rewrite drop_app_le by (rewrite length_take; lia). rewrite <- take_drop_commute, Nat.add_comm.
    rewrite take_app_ge by (rewrite length_take, length_drop; lia). rewrite length_take, length_drop.
    replace (length data + o - o `min` (length (ch_buffer x) - m))%nat with (length data) by lia.
    by rewrite take_app_length.
Qed.
Lemma put_in_run b l c x r data : hp b (l ++ (c, x) :: r) -> chain_ok x ->
  Z.of_nat (length data) <= ch_buffer_len x - (ch_misalign x + ch_off x) ->
  put_in c (ch_misalign x + ch_off x) data b =
    Ret (tt, set_counts (u64 (eb_n_add_for_cb b + Z.of_nat (length data))) (eb_n_del_for_cb b)
               (set_total (u64 (eb_total_len b + Z.of_nat (length data))) (set_heap (list_to_map (l ++ (c, filled x data) :: r)) b))).
Proof.
  intros H Hx Hs. destruct Hx as [? ? ? ? ? ? ?]. unfold put_in.
  rewrite (ebind_eq _ _ _ _ _ (memcpy_to_run b l c x r H (ch_misalign x + ch_off x) data ltac:(lia) ltac:(lia))).
  rewrite (ebind_eq _ _ _ _ _ (edit_chain_run _ l c _ r (hp_set b l c x _ r H) _)). done.
Qed.
(** Data moved to the start of the memory. *)
Definition aligned (x : evbuffer_chain) : evbuffer_chain :=
  set_misalign 0 (set_buffer (cdat x ++ drop (length (cdat x)) (ch_buffer x)) x).
Lemma aligned_ok x : chain_ok x -> chain_ok (aligned x) /\ cdat (aligned x) = cdat x /\ ch_next (aligned x) = ch_next x.
Proof.
  intros Hx. pose proof (cdat_length x Hx) as Hc. destruct Hx as [? ? ? Hl ? ? ?]. split_and!; [split; cbn; try done; try lia| |done].
  - rewrite length_app, length_drop. lia.
  - unfold cdat at 1. cbn. rewrite drop_0. rewrite take_app_le by lia. apply take_ge. lia.
Qed.
Lemma align_run b l c x r : hp b (l ++ (c, x) :: r) -> chain_ok x ->
  evbuffer_chain_align c b = Ret (tt, set_heap (list_to_map (l ++ (c, aligned x) :: r)) b).
Proof.
  intros H Hx. pose proof (cdat_length x Hx) as Hc. unfold evbuffer_chain_align. rewrite (ebind_eq _ _ _ _ _ (chain_run b l c x r H)). rewrite !no_flags by apply Hx. cbn [negb].
  unfold EVUTIL_ASSERT at 1 2. rewrite (ebind_eq _ _ b tt b), (ebind_eq _ _ b tt b) by done.
  rewrite (ebind_eq _ _ _ _ _ (read_data_run b l c x r H Hx)). destruct Hx as [? ? ? ? ? ? ?].
  rewrite (ebind_eq _ _ _ _ _ (memcpy_to_run b l c x r H 0 (cdat x) ltac:(lia) ltac:(lia))).
  rewrite (edit_chain_run _ l c _ r (hp_set b l c x _ r H) _). done.
Qed.

(** ** Pointers into the list *)

Lemma get_pp_run b l r : linked (eb_first b) (l ++ r) -> hp b (l ++ r) -> get_pp (ptr_to l) b = Ret (hd_ptr r, b).
Proof.
  intros Hl Hh. apply linked_app in Hl as [Hl _]. unfold ptr_to, get_pp. destruct (last l) as [[c x]|] eqn:E.
  - apply last_Some in E as [l' ->]. rewrite <- app_assoc in Hh. by rewrite (ebind_eq _ _ _ _ _ (chain_run b l' c x r Hh)), Hl.
  - unfold ev. by rewrite Hl.
Qed.

(** ** Callbacks *)

Lemma invoke_run b old : 0 <= eb_n_add_for_cb b < 2 ^ 64 -> 0 <= old < 2 ^ 64 -> 0 <= old + eb_n_add_for_cb b < 2 ^ 64 ->
  eb_total_len b = old + eb_n_add_for_cb b - eb_n_del_for_cb b ->
  evbuffer_invoke_callbacks b = Ret (told b old (eb_n_add_for_cb b) (eb_n_del_for_cb b), set_counts 0 0 b).
Proof.
  intros H0 H1 H2 Ht. unfold evbuffer_invoke_callbacks, evbuffer_run_callbacks, told, ev, upd. unfold mbind, E_bind.
  destruct (eb_callbacks b) as [|f cbs] eqn:E; cbn [flat_map].
  - by destruct ((eb_n_add_for_cb b =? 0) && (eb_n_del_for_cb b =? 0)).
  - rewrite E. destruct ((eb_n_add_for_cb b =? 0) && (eb_n_del_for_cb b =? 0)) eqn:E0.
    + apply andb_true_iff in E0 as [E1%Z.eqb_eq E2%Z.eqb_eq]. destruct b; cbn in *. by subst.
    + rewrite Ht. replace (old + eb_n_add_for_cb b - eb_n_del_for_cb b + eb_n_del_for_cb b) with (old + eb_n_add_for_cb b) by lia.
      rewrite (u64_id (old + eb_n_add_for_cb b)) by lia. replace (old + eb_n_add_for_cb b - eb_n_add_for_cb b) with old by lia. by rewrite u64_id.
Qed.

(** ** New chains *)

Section alloc.
Context (oom : nat -> bool) (junk : nat -> nat -> Z).

Lemma alloc_size_run size fuel : size <= 2 ^ 62 -> forall i, 0 <= i <= 62 -> 62 - i <= Z.of_nat fuel ->
  exists j, i <= j <= 62 /\ alloc_size fuel (2 ^ i) size = Ret (2 ^ j) /\ size <= 2 ^ j.
Proof.
  intros Hs. induction fuel as [|fuel IH]; intros i Hi Hf; cbn [alloc_size]; destruct (Z.ltb_spec (2 ^ i) size) as [Hlt|]; try (exists i; split_and!; (lia || done)).
  - assert (i = 62) as -> by lia. lia.
  - assert (i < 62) as Hi' by (destruct (decide (i = 62)) as [->|]; lia).
    rewrite Z.shiftl_mul_pow2 by lia. replace (2 ^ i * 2 ^ 1) with (2 ^ (i + 1)) by (rewrite Z.pow_add_r by lia; done).
    rewrite u64_id by (split; [lia|apply Z.pow_lt_mono_r; lia]). destruct (IH (i + 1) ltac:(lia) ltac:(lia)) as (j & Hj & E & H). exists j. split_and!; [lia|lia|done|done].
Qed.
(** A chain as it comes from [evbuffer_chain_new]. *)
Definition blank (p : nat) (n : Z) : evbuffer_chain := mkChain None n 0 0 0 (map (junk p) (seq 0 (Z.to_nat n))).
Lemma blank_ok p n : 0 < n <= 2 ^ 62 - 48 -> chain_ok (blank p n).
Proof. intros Hn. split; cbn; try lia. rewrite length_map, length_seq. lia. Qed.
Lemma chain_new_run b size : 0 <= size <= 2 ^ 62 - 48 ->
  exists n, size <= n /\ 976 <= n <= 2 ^ 62 - 48 /\
    evbuffer_chain_new oom junk size b =
      if oom (eb_count b) then Ret (None, bump b)
      else Ret (Some (eb_count b), set_heap (<[eb_count b := blank (eb_count b) n]> (eb_heap b)) (bump b)).
Proof.
  intros Hs. unfold evbuffer_chain_new, EVBUFFER_CHAIN_SIZE, MIN_BUFFER_SIZE. rewrite u64_id by lia.
  destruct (alloc_size_run (size + 48) 64 ltac:(lia) 10 ltac:(lia) ltac:(lia)) as (j & Hj & E & H1). change (2 ^ 10) with 1024 in E.
  rewrite E. exists (2 ^ j - 48). pose proof (Z.pow_le_mono_r 2 j 62 ltac:(lia) ltac:(lia)). pose proof (Z.pow_le_mono_r 2 10 j ltac:(lia) ltac:(lia)).
  split_and!; [lia..|]. by destruct (oom (eb_count b)).
Qed.
End alloc.

(** ** Linking a new chain *)

Lemma total_run n b : add_total n b = Ret (tt, set_total (u64 (eb_total_len b + n)) b).
Proof. done. Qed.
Lemma insert_first b n y : eb_first b = None -> eb_last_with_datap b = P_first -> hp b [(n, y)] ->
  evbuffer_chain_insert n b =
    Ret (tt, set_total (u64 (eb_total_len b + ch_off y)) (set_last (Some n) (set_first (Some n) b))).
Proof.
  intros Hf Hp Hh. unfold evbuffer_chain_insert. rewrite (ebind_eq (ev _) _ b P_first b) by (unfold ev; by rewrite Hp).
  rewrite (ebind_eq (get_pp P_first) _ b None b) by (cbn; unfold ev; by rewrite Hf).
  erewrite ebind_eq; cycle 1.
  { rewrite bool_decide_true by done. rewrite (ebind_eq _ _ b tt b), (ebind_eq (ev eb_first) _ b None b) by (unfold ev; by rewrite ?Hf). done. }
  rewrite (ebind_eq _ _ _ y _ (chain_run (set_last (Some n) (set_first (Some n) b)) [] n y [] (hp_same b _ _ eq_refl Hh))). reflexivity.
Qed.
Lemma ptr_to_snoc l c x : ptr_to (l ++ [(c, x)]) = P_next c.
Proof. unfold ptr_to. by rewrite last_snoc. Qed.
Lemma victim_end fuel b cs s : linked (eb_first b) cs -> hp b (cs ++ s) -> victim fuel (ptr_to cs) b = Ret (ptr_to cs, b).
Proof.
  intros Hl Hh. assert (get_pp (ptr_to cs) b = Ret (None, b)) as E.
  { unfold ptr_to, get_pp. rewrite <- (app_nil_r cs) in Hl. apply linked_app in Hl as [Hl _]. destruct (last cs) as [[c x]|] eqn:El.
    - apply last_Some in El as [l' ->]. rewrite <- app_assoc in Hh. by rewrite (ebind_eq _ _ _ _ _ (chain_run b l' c x s Hh)), Hl.
    - unfold ev. by rewrite Hl. }
  destruct fuel; cbn [victim]; by rewrite (ebind_eq _ _ _ _ _ E).
Qed.

(** Behind a last chain with data. *)
Lemma insert_append b l k x n y : linked (eb_first b) (l ++ [(k, x)]) -> hp b (l ++ [(k, x)] ++ [(n, y)]) ->
  eb_last b = Some k -> eb_last_with_datap b = ptr_to l -> ch_off x <> 0 -> ch_off y <> 0 ->
  evbuffer_chain_insert n b =
    Ret (tt, set_total (u64 (eb_total_len b + ch_off y)) (set_last (Some n) (set_datap (P_next k)
      (set_heap (list_to_map (l ++ (k, set_next (Some n) x) :: [(n, y)])) b)))).
Proof.
  intros Hl Hh Hla Hp Hx Hy. unfold evbuffer_chain_insert. rewrite (ebind_eq (ev _) _ b (ptr_to l) b) by (unfold ev; by rewrite Hp).
  assert (get_pp (ptr_to l) b = Ret (Some k, b)) as Eg.
  { unfold ptr_to, get_pp. apply linked_app in Hl as [Hl _]. destruct (last l) as [[c0 x0]|] eqn:E.
    - apply last_Some in E as [l' ->]. rewrite <- app_assoc in Hh. by rewrite (ebind_eq _ _ _ _ _ (chain_run b l' c0 x0 _ Hh)), Hl.
    - unfold ev. by rewrite Hl. }
  rewrite (ebind_eq _ _ _ _ _ Eg).
  assert (chain_fuel (fun fuel => victim fuel (ptr_to l)) b = Ret (P_next k, b)) as Ev.
  { unfold chain_fuel. generalize (S (base.size (eb_heap b))). intros f. cbn [victim]. rewrite (ebind_eq _ _ _ _ _ Eg), (ebind_eq _ _ _ _ _ (chain_run b l k x [(n, y)] Hh)).
    rewrite (proj2 (Z.eqb_neq _ _) Hx). cbn [negb orb]. rewrite <- (ptr_to_snoc l k x). apply (victim_end _ b (l ++ [(k, x)]) [(n, y)]); [done|]. by rewrite <- app_assoc. }
  assert (ch_next x = None) as Hn by (apply linked_app in Hl as [_ [_ Hl]]; by cbn in Hl).
  assert (hp (set_heap (list_to_map (l ++ (k, set_next (Some n) x) :: [(n, y)])) b) ((l ++ [(k, set_next (Some n) x)]) ++ (n, y) :: [])) as Hh2
    by (rewrite <- app_assoc; by apply (hp_set b l k x)).
  erewrite ebind_eq; cycle 1.
  { rewrite (ebind_eq _ _ _ _ _ Ev). rewrite (ebind_eq (get_pp (P_next k)) _ b None b); [|cbn; by rewrite (ebind_eq _ _ _ _ _ (chain_run b l k x [(n, y)] Hh)), Hn].
    erewrite ebind_eq; [reflexivity|]. rewrite (ebind_eq (ev eb_last) _ b (Some k) b) by (unfold ev; by rewrite Hla).
    rewrite (ebind_eq _ _ _ _ _ (the_chain_run b l k x [(n, y)] Hh)), (ebind_eq _ _ _ _ _ (edit_chain_run b l k x [(n, y)] Hh _)).
    rewrite (ebind_eq _ _ _ y _ (chain_run _ _ n y [] Hh2)). by rewrite (proj2 (Z.eqb_neq _ _) Hy). }
  rewrite (ebind_eq _ _ _ y _ (chain_run (set_last (Some n) (set_datap (P_next k) (set_heap (list_to_map (l ++ (k, set_next (Some n) x) :: [(n, y)])) b))) _ n y [] (hp_same _ _ _ eq_refl Hh2))).
  reflexivity.
Qed.
(** In place of an only chain without data. *)
Lemma insert_replace b k x n y : linked (eb_first b) [(k, x)] -> hp b [(k, x); (n, y)] ->
  eb_last_with_datap b = P_first -> ch_off x = 0 -> ch_flags x = 0 ->
  evbuffer_chain_insert n b =
    Ret (tt, set_total (u64 (eb_total_len b + ch_off y)) (set_last (Some n) (set_first (Some n) (set_heap (list_to_map [(n, y)]) b)))).
Proof.
  intros Hl Hh Hp Hx Hf. pose proof Hl as [Efirst Hn]. cbn in Hn. unfold evbuffer_chain_insert. rewrite (ebind_eq (ev _) _ b P_first b) by (unfold ev; by rewrite Hp).
  assert (get_pp P_first b = Ret (Some k, b)) as Eg by (cbn; unfold ev; by rewrite Efirst).
  rewrite (ebind_eq _ _ _ _ _ Eg).
  assert (chain_fuel (fun fuel => victim fuel P_first) b = Ret (P_first, b)) as Ev.
  { unfold chain_fuel. cbn [victim]. rewrite (ebind_eq _ _ _ _ _ Eg), (ebind_eq _ _ _ _ _ (chain_run b [] k x [(n, y)] Hh)). unfold CHAIN_PINNED. by rewrite Hx, no_flags. }
  erewrite ebind_eq; cycle 1.
  { rewrite (ebind_eq _ _ _ _ _ Ev), (ebind_eq _ _ _ _ _ Eg). erewrite ebind_eq; [reflexivity|].
    rewrite (ebind_eq (evbuffer_chains_all_empty (Some k)) _ b true b).
    2:{ unfold evbuffer_chains_all_empty, chain_fuel. cbn [all_empty]. by rewrite (ebind_eq _ _ _ _ _ (chain_run b [] k x [(n, y)] Hh)), Hx, Hn. }
    rewrite (ebind_eq (EVUTIL_ASSERT true) _ b tt b) by done.
    rewrite (ebind_eq (evbuffer_free_all_chains (Some k)) _ b tt (set_heap (list_to_map [(n, y)]) b)); [reflexivity|].
    unfold evbuffer_free_all_chains, chain_fuel. cbn [free_all]. rewrite (ebind_eq _ _ _ _ _ (chain_run b [] k x [(n, y)] Hh)), (ebind_eq _ _ _ _ _ (free_run b [] k x [(n, y)] Hh Hf)).
    by rewrite Hn. }
  assert (hp (set_last (Some n) (set_first (Some n) (set_heap (list_to_map [(n, y)]) b))) ([] ++ (n, y) :: [])) as Hh2.
  { split; [done|]. destruct Hh as [_ Hh]. by apply NoDup_cons in Hh as [_ ?]. }
  rewrite (ebind_eq _ _ _ y _ (chain_run _ [] n y [] Hh2)). reflexivity.
Qed.

(** ** The place of the last chain with data *)

Record spot (k : side) (b : evbuffer) (l : chains) (c : nat) (x : evbuffer_chain) (r : chains) : Prop := {
  sp_rep : evrep k b (l ++ (c, x) :: r);
  sp_ptr : eb_last_with_datap b = ptr_to l;
  sp_before : Forall has_data l;
  sp_behind : Forall no_data r;
  sp_end : k = Out -> r = [];
  sp_here : l = [] \/ 0 < ch_off x
}.
Lemma rep_spot k b cs : evrep k b cs ->
  (cs = [] /\ eb_last_with_datap b = P_first) \/ exists l c x r, cs = l ++ (c, x) :: r /\ spot k b l c x r.
Proof.
  intros H. pose proof (er_datap _ _ _ H) as Hd. inversion Hd as [E1 E2|l c x r H1 H2 H3 H4 E1 E2]; subst; [by left|].
  right. exists l, c, x, r. split; [done|]. by split.
Qed.
Lemma spot_ok k b l c x r : spot k b l c x r -> chain_ok x.
Proof. intros H. pose proof (er_ok _ _ _ (sp_rep _ _ _ _ _ _ H)) as Ho. by apply Forall_app in Ho as [_ [? _]%Forall_cons]. Qed.
Lemma spot_hp k b l c x r : spot k b l c x r -> hp b (l ++ (c, x) :: r).
Proof. intros H. apply (er_hp k), H. Qed.
Lemma spot_fresh k b l c x r : spot k b l c x r -> eb_count b ∉ (l ++ (c, x) :: r).*1.
Proof. intros H Hin. pose proof (er_fresh _ _ _ (sp_rep _ _ _ _ _ _ H)) as Hf. rewrite Forall_forall in Hf. specialize (Hf _ Hin). lia. Qed.

(** The same place with other contents. *)
Lemma spot_edit k b l c x r b' x' : spot k b l c x r -> chain_ok x' -> ch_next x' = ch_next x -> (l = [] \/ 0 < ch_off x') ->
  eb_first b' = eb_first b -> eb_heap b' = list_to_map (l ++ (c, x') :: r) -> eb_count b' = eb_count b -> eb_last b' = eb_last b ->
  eb_last_with_datap b' = eb_last_with_datap b -> eb_total_len b' = Z.of_nat (length (contents (l ++ (c, x') :: r))) ->
  spot k b' l c x' r.
Proof.
  intros [[Hl Hh Hn Hf Ho Hla Ht Hd] Hp H1 H2 H3 H4] Hx Hnx Hdx E1 E2 E3 E4 E5 E6. split; [|by rewrite E5|done..]. split.
  - rewrite E1. by eapply linked_edit.
  - done.
  - by rewrite (fst_edit _ _ x).
  - by rewrite (fst_edit _ _ x), E3.
  - apply Forall_app in Ho as [? [? ?]%Forall_cons]. apply Forall_app. split; [done|]. by constructor.
  - rewrite E4, Hla. rewrite !last_app. destruct r as [|e r]; [done|]. cbn [last]. by destruct r.
  - done.
  - rewrite E5, Hp. by constructor.
Qed.

Section adding.
Context (oom : nat -> bool) (junk : nat -> nat -> Z).

(** What a call of [evbuffer_add] does to a buffer that holds [bs]. *)
Definition added (b : evbuffer) (bs data : bytes) (res : Z * list cb_info) (b' : evbuffer) : Prop :=
  same_setup b b' /\
  ((res = (0, told b (Z.of_nat (length bs)) (Z.of_nat (length data)) 0) /\ holds Out b' (bs ++ data)) \/
   (res = (-1, []) /\ holds Out b' bs /\ exists n, oom n = true)).

Lemma told_run b1 b old a : 0 <= old -> 0 <= a -> old + a < 2 ^ 63 -> eb_callbacks b1 = eb_callbacks b ->
  eb_n_add_for_cb b1 = a -> eb_n_del_for_cb b1 = 0 -> eb_total_len b1 = old + a ->
  (l ← evbuffer_invoke_callbacks; mret (0, l)) b1 = Ret ((0, told b old a 0), set_counts 0 0 b1).
Proof.
  intros H0 H1 H2 Hc Ha Hd Ht. rewrite (ebind_eq _ _ _ _ _ (invoke_run b1 old ltac:(lia) ltac:(lia) ltac:(lia) ltac:(lia))).
  unfold told. by rewrite Ha, Hd, Hc.
Qed.

(** Data put into the last chain. *)
Lemma put_added b l c x x1 data : spot Out b l c x [] -> eb_n_add_for_cb b = 0 -> eb_n_del_for_cb b = 0 ->
  chain_ok x1 -> cdat x1 = cdat x -> ch_next x1 = ch_next x ->
  Z.of_nat (length data) <= ch_buffer_len x1 - (ch_misalign x1 + ch_off x1) -> Z.of_nat (length (contents (l ++ [(c, x)]) ++ data)) < 2 ^ 61 ->
  exists res b', (put_in c (ch_misalign x1 + ch_off x1) data ;; l ← evbuffer_invoke_callbacks; mret (0, l))
      (set_heap (list_to_map (l ++ [(c, x1)])) b) = Ret (res, b') /\ added b (contents (l ++ [(c, x)])) data res b'.
Proof.
  intros Hs Ha Hd Hx1 Hc1 Hn1 Hfit Hlen. set (b1 := set_heap _ b). destruct (filled_ok x1 data Hx1 Hfit) as (Hf & Hcf & Hnf).
  pose proof (er_total _ _ _ (sp_rep _ _ _ _ _ _ Hs)) as Ht. rewrite length_app in Hlen.
  rewrite (ebind_eq _ _ _ _ _ (put_in_run b1 l c x1 [] data (hp_set b l c x x1 [] (spot_hp _ _ _ _ _ _ Hs)) Hx1 Hfit)).
  change (eb_n_add_for_cb b1) with (eb_n_add_for_cb b). change (eb_n_del_for_cb b1) with (eb_n_del_for_cb b). change (eb_total_len b1) with (eb_total_len b).
  rewrite Ha, Hd, Ht, Z.add_0_l, !u64_id by lia.
  rewrite (told_run _ b (Z.of_nat (length (contents (l ++ [(c, x)])))) (Z.of_nat (length data))) by (cbn; lia || done).
  eexists _, _. split; [reflexivity|]. split; [done|]. left. split; [done|].
  assert (contents (l ++ [(c, filled x1 data)]) = contents (l ++ [(c, x)]) ++ data) as Ec.
  { rewrite !contents_app, !contents_cons. cbn [snd]. rewrite Hcf, Hc1. cbn [contents map mjoin list_join]. by rewrite !app_nil_r, app_assoc. }
  exists (l ++ [(c, filled x1 data)]). split_and!; [|done|done|done].
  apply (sp_rep Out _ l c (filled x1 data) []), (spot_edit Out b l c x [] _ (filled x1 data)); try done.
  - destruct (sp_here _ _ _ _ _ _ Hs) as [?|H0]; [by left|right]. pose proof (cdat_length _ (spot_ok _ _ _ _ _ _ Hs)). pose proof (cdat_length _ Hx1). rewrite Hc1 in *. cbn. lia.
  - rewrite Ec, length_app. cbn. lia.
Qed.

(** A chain behind the last one. *)
Lemma evrep_append b l c x n y b' : spot Out b l c x [] -> 0 < ch_off x -> chain_ok y -> ch_next y = None -> (n < eb_count b')%nat -> (eb_count b <= n)%nat -> 0 < ch_off y ->
  eb_first b' = eb_first b -> eb_heap b' = list_to_map (l ++ (c, set_next (Some n) x) :: [(n, y)]) -> eb_last b' = Some n ->
  eb_last_with_datap b' = P_next c -> eb_total_len b' = Z.of_nat (length (contents (l ++ (c, x) :: [(n, y)]))) ->
  evrep Out b' (l ++ (c, set_next (Some n) x) :: [(n, y)]).
Proof.
  intros [[Hl Hh Hn Hf Ho Hla Ht Hd] Hp H1 H2 H3 H4] Hx Hy Hny Hc Hc' Hoy E1 E2 E3 E4 E5.
  assert (Forall (fun a => (a < n)%nat) (l ++ [(c, x)]).*1) as Hlt by (eapply Forall_impl; [exact Hf|]; cbn; lia).
  assert (forall A, (l ++ (c, set_next (Some n) x) :: [(n, y)]).*1 ++ A = (l ++ [(c, x)]).*1 ++ n :: A) as Efst by (intros A; rewrite !fmap_app; cbn; by rewrite <- !app_assoc).
  specialize (Efst []). rewrite app_nil_r in Efst. split.
  - rewrite E1. eapply (linked_graft _ _ _ _ _ [(n, y)]); [exact Hl|]. by split.
  - done.
  - rewrite Efst. by apply nodup_fresh.
  - rewrite Efst. apply Forall_app. split; [eapply Forall_impl; [exact Hlt|]; cbn; lia|]. by constructor.
  - apply Forall_app in Ho as [? [Hox _]%Forall_cons]. apply Forall_app. split; [done|]. constructor; [|by constructor]. destruct Hox. by split.
  - rewrite E3, last_app. done.
  - rewrite E5. do 2 f_equal. by rewrite !contents_app, !contents_cons.
  - rewrite E4. replace (l ++ (c, set_next (Some n) x) :: [(n, y)]) with ((l ++ [(c, set_next (Some n) x)]) ++ (n, y) :: []) by (by rewrite <- app_assoc).
    rewrite <- (ptr_to_snoc l c (set_next (Some n) x)). constructor; [|done|done|by right]. apply Forall_app. split; [done|]. by constructor.
Qed.
(** An only chain. *)
Lemma evrep_single k b n y : chain_ok y -> ch_next y = None -> (n < eb_count b)%nat -> eb_first b = Some n -> eb_heap b = list_to_map [(n, y)] ->
  eb_last b = Some n -> eb_last_with_datap b = P_first -> eb_total_len b = Z.of_nat (length (contents [(n, y)])) -> evrep k b [(n, y)].
Proof.
  intros. split; try done.
  - apply NoDup_singleton.
  - by constructor.
  - by constructor.
  - replace (eb_last_with_datap b) with (ptr_to []) by done. apply (da_some k [] n y []); [done..|by left].
Qed.

Lemma finish_new b l c x x1 d1 d2 m b2 (n := eb_count b) :
  spot Out b l c x [] -> chain_ok x1 -> ch_next x1 = ch_next x -> cdat x1 = cdat x ++ d1 -> d2 <> [] -> Z.of_nat (length d2) <= m -> 0 < m <= 2 ^ 62 - 48 ->
  Z.of_nat (length (contents (l ++ [(c, x)]) ++ d1 ++ d2)) < 2 ^ 61 ->
  eb_first b2 = eb_first b -> hp b2 (l ++ (c, x1) :: [(n, blank junk n m)]) -> eb_last b2 = eb_last b -> eb_last_with_datap b2 = eb_last_with_datap b ->
  eb_count b2 = S n -> eb_total_len b2 = Z.of_nat (length (contents (l ++ [(c, x)]))) + Z.of_nat (length d1) ->
  eb_n_add_for_cb b2 = Z.of_nat (length d1) -> eb_n_del_for_cb b2 = 0 -> same_setup b b2 ->
  exists res b', (memcpy_to n 0 d2 ;; edit_chain n (set_off (Z.of_nat (length d2))) ;; evbuffer_chain_insert n ;;
      count_add (Z.of_nat (length d2)) ;; l ← evbuffer_invoke_callbacks; mret (0, l)) b2 = Ret (res, b') /\
    added b (contents (l ++ [(c, x)])) (d1 ++ d2) res b'.
Proof.
  intros Hs Hx1 Hn1 Hc1 Hd2 Hm Hm0 Hlen E1 E2 E3 E4 E5 E6 E7 E8 E9.
  set (y := filled (blank junk n m) d2). destruct (filled_ok (blank junk n m) d2 (blank_ok junk n m Hm0) ltac:(cbn; lia)) as (Hy & Hcy & Hny).
  change (cdat (blank junk n m)) with ([] : bytes) in Hcy. rewrite app_nil_l in Hcy. fold y in Hy, Hcy, Hny.
  assert (ch_off y = Z.of_nat (length d2)) as Hoy by done. assert (0 < length d2)%nat as Hpos by (destruct d2; [done|cbn; lia]).
  assert (Eapp : l ++ (c, x1) :: [(n, blank junk n m)] = (l ++ [(c, x1)]) ++ (n, blank junk n m) :: []) by (by rewrite <- app_assoc).
  rewrite !length_app in Hlen. rewrite Eapp in E2.
  rewrite (ebind_eq _ _ _ _ _ (memcpy_to_run b2 _ n _ [] E2 0 d2 ltac:(lia) ltac:(cbn; rewrite length_map, length_seq; lia))).
  rewrite (ebind_eq _ _ _ _ _ (edit_chain_run _ _ n _ [] (hp_set b2 _ n _ _ [] E2) _)). rewrite set_heap_twice.
  match goal with |- context [set_off ?a (set_buffer ?z ?w)] => change (set_off a (set_buffer z w)) with y end.
  assert (hp (set_heap (list_to_map ((l ++ [(c, x1)]) ++ [(n, y)])) b2) (l ++ [(c, x1)] ++ [(n, y)])) as Hh3 by (rewrite app_assoc; by apply (hp_set b2 _ n (blank junk n m))).
  set (b3 := set_heap (list_to_map ((l ++ [(c, x1)]) ++ [(n, y)])) b2) in *.
  assert (contents (l ++ [(c, x1)]) = contents (l ++ [(c, x)]) ++ d1) as Ecx.
  { rewrite !contents_app, !contents_cons. cbn [snd]. rewrite Hc1. cbn [contents map mjoin list_join]. by rewrite !app_nil_r, app_assoc. }
  pose proof (er_last _ _ _ (sp_rep _ _ _ _ _ _ Hs)) as Hla. rewrite last_snoc in Hla. cbn in Hla.
  pose proof (er_linked _ _ _ (sp_rep _ _ _ _ _ _ Hs)) as Hlk. rewrite <- E1 in Hlk. apply (linked_edit _ _ _ _ x1) in Hlk; [|done]. change (eb_first b2) with (eb_first b3) in Hlk. destruct E9 as (F1 & F2 & F3).
  set (old := Z.of_nat (length (contents (l ++ [(c, x)])))) in *.
  destruct (decide (ch_off x1 = 0)) as [Hx0|Hx0].
  - assert (l = []) as ->.
    { destruct (sp_here _ _ _ _ _ _ Hs) as [?|H0]; [done|]. pose proof (cdat_length _ (spot_ok _ _ _ _ _ _ Hs)). pose proof (cdat_length _ Hx1) as Hl1. rewrite Hc1, length_app in Hl1. lia. }
    assert (contents ([] ++ [(c, x)]) ++ d1 = []) as En by (rewrite <- Ecx; apply contents_nil; by constructor).
    rewrite (ebind_eq _ _ _ _ _ (insert_replace b3 c x1 n y Hlk Hh3 ltac:(cbn; rewrite E4; apply Hs) Hx0 (co_flags _ Hx1))).
    change (eb_total_len b3) with (eb_total_len b2). rewrite E6, Hoy, u64_id by lia. unfold count_add. rewrite (ebind_eq (upd _) _ _ tt _ eq_refl).
    rewrite (told_run _ b old (Z.of_nat (length (d1 ++ d2)))); [|lia|lia|rewrite length_app; lia|done|cbn; rewrite E7, length_app, u64_id by lia; lia|done|cbn; rewrite length_app; lia].
    eexists _, _. split; [reflexivity|]. split; [by split_and!|]. left. split; [done|]. exists [(n, y)]. apply app_eq_nil in En as [En ->]. split_and!; [|rewrite En, contents_cons; cbn [snd]; by rewrite Hcy, app_nil_r|done|done].
    apply evrep_single; try done.
    + cbn. rewrite E5. lia.
    + cbn. rewrite E4. apply Hs.
    + rewrite contents_cons. cbn [snd]. rewrite Hcy, app_nil_r. cbn. unfold old. rewrite En. cbn. lia.
  - assert (spot Out (set_total (Z.of_nat (length (contents (l ++ [(c, x1)])))) (set_heap (list_to_map (l ++ [(c, x1)])) b)) l c x1 []) as Hsp.
    { apply (spot_edit Out b l c x []); try done. right. pose proof (co_off _ Hx1). lia. }
    rewrite (ebind_eq _ _ _ _ _ (insert_append b3 l c x1 n y Hlk Hh3 ltac:(cbn; by rewrite E3, Hla) ltac:(cbn; rewrite E4; apply Hs) Hx0 ltac:(lia))).
    change (eb_total_len b3) with (eb_total_len b2). rewrite E6, Hoy, u64_id by lia. unfold count_add. rewrite (ebind_eq (upd _) _ _ tt _ eq_refl).
    rewrite (told_run _ b old (Z.of_nat (length (d1 ++ d2)))); [|lia|lia|rewrite length_app; lia|done|cbn; rewrite E7, length_app, u64_id by lia; lia|done|cbn; rewrite length_app; lia].
    eexists _, _. split; [reflexivity|]. split; [by split_and!|]. left. split; [done|]. exists (l ++ (c, set_next (Some n) x1) :: [(n, y)]).
    assert (contents (l ++ (c, x1) :: [(n, y)]) = contents (l ++ [(c, x)]) ++ d1 ++ d2) as Ecn.
    { rewrite app_assoc, <- Ecx, !contents_app, !contents_cons. cbn [snd]. rewrite Hcy. cbn [contents map mjoin list_join]. by rewrite !app_nil_r, app_assoc. }
    split_and!; [|by rewrite <- Ecn, !contents_app, !contents_cons|done|done].
    eapply (evrep_append _ l c x1 n y _ Hsp); try done; try (cbn; lia).
    + pose proof (co_off _ Hx1). lia.
    + rewrite Ecn, !length_app. cbn. lia.
Qed.

Lemma add_chain_run b l c x data : spot Out b l c x [] -> eb_n_add_for_cb b = 0 -> eb_n_del_for_cb b = 0 ->
  ch_buffer_len x - (ch_misalign x + ch_off x) < Z.of_nat (length data) -> Z.of_nat (length (contents (l ++ [(c, x)]) ++ data)) < 2 ^ 61 ->
  exists res b', add_chain oom junk c (ch_buffer_len x - (ch_misalign x + ch_off x)) data b = Ret (res, b') /\ added b (contents (l ++ [(c, x)])) data res b'.
Proof.
  intros Hs Ha Hd Hbig Hlen. pose proof (spot_ok _ _ _ _ _ _ Hs) as Hx. pose proof Hx as [? ? ? ? ? ? ?]. pose proof (er_total _ _ _ (sp_rep _ _ _ _ _ _ Hs)) as Ht.
  set (remain := ch_buffer_len x - (ch_misalign x + ch_off x)) in *. unfold add_chain. rewrite (ebind_eq _ _ _ _ _ (chain_run b l c x [] (spot_hp _ _ _ _ _ _ Hs))).
  set (t1 := if ch_buffer_len x <=? EVBUFFER_CHAIN_MAX_AUTO_SIZE / 2 then _ else _). set (t2 := if t1 <? _ then _ else _).
  assert (Z.of_nat (length data) <= t2 <= 2 ^ 62 - 48) as Ht2.
  { rewrite length_app in Hlen. assert (0 <= t1 <= 2 ^ 62 - 48) as H1.
    { unfold t1, EVBUFFER_CHAIN_MAX_AUTO_SIZE. change (4096 / 2) with 2048. destruct (Z.leb_spec (ch_buffer_len x) 2048); [|lia].
      rewrite Z.shiftl_mul_pow2, u64_id by lia. lia. }
    unfold t2. destruct (Z.ltb_spec t1 (Z.of_nat (length data))); lia. }
  destruct (chain_new_run oom junk b t2 ltac:(lia)) as (m & Hm1 & Hm2 & E). destruct (oom (eb_count b)) eqn:Eo; rewrite (ebind_eq _ _ _ _ _ E).
  { eexists _, _. split; [reflexivity|]. split; [done|]. right. split_and!; [done| |by eexists]. exists (l ++ [(c, x)]). split_and!; [|done..].
    destruct (sp_rep _ _ _ _ _ _ Hs). split; try done. eapply Forall_impl; [done|]. cbn. lia. }
  assert (hp (set_heap (<[eb_count b := blank junk (eb_count b) m]> (eb_heap b)) (bump b)) (l ++ (c, x) :: [(eb_count b, blank junk (eb_count b) m)])) as Hh.
  { pose proof (spot_fresh _ _ _ _ _ _ Hs) as Hfr. destruct (spot_hp _ _ _ _ _ _ Hs) as [Hh Hn]. replace (l ++ (c, x) :: [(eb_count b, blank junk (eb_count b) m)]) with ((l ++ [(c, x)]) ++ [(eb_count b, blank junk (eb_count b) m)]) by (by rewrite <- app_assoc).
    split; [cbn; rewrite Hh; by apply heap_new|]. rewrite fmap_app. apply NoDup_app. split_and!; [done| |apply NoDup_singleton]. by intros a Hin ->%list_elem_of_singleton. }
  set (b1 := set_heap _ (bump b)) in *. destruct (Z.eqb_spec remain 0) as [E0|Hr]; cbn [negb].
  - rewrite (ebind_eq (mret tt) _ b1 tt b1) by done. rewrite E0, drop_0.
    apply (finish_new b l c x x [] data m b1); try done; try lia.
    + by rewrite app_nil_r.
    + intros ->. cbn in Hbig. lia.
    + cbn. rewrite Ht. lia.
  - assert (length (take (Z.to_nat remain) data) = Z.to_nat remain) as Hlt by (rewrite length_take; lia).
    destruct (filled_ok x (take (Z.to_nat remain) data) Hx ltac:(fold remain; lia)) as (Hf & Hcf & Hnf).
    rewrite (ebind_eq _ _ _ _ _ (put_in_run b1 l c x _ (take (Z.to_nat remain) data) Hh Hx ltac:(fold remain; lia))).
    change (eb_n_add_for_cb b1) with (eb_n_add_for_cb b). change (eb_n_del_for_cb b1) with (eb_n_del_for_cb b). change (eb_total_len b1) with (eb_total_len b).
    rewrite length_app in Hlen. rewrite Ha, Hd, Ht, !u64_id by lia.
    match goal with |- exists res b', _ ?b2 = _ /\ _ =>
      destruct (finish_new b l c x (filled x (take (Z.to_nat remain) data)) (take (Z.to_nat remain) data) (drop (Z.to_nat remain) data) m b2) as (res & b' & E' & Hadd); try done end.
    + intros E'. apply (f_equal length) in E'. rewrite length_drop in E'. cbn in E'. lia.
    + rewrite length_drop. lia.
    + lia.
    + rewrite (take_drop (Z.to_nat remain) data), length_app. lia.
    + by eapply hp_edit.
    + rewrite take_drop in Hadd. by exists res, b'.
Qed.
Lemma add_to_run b l c x data : spot Out b l c x [] -> eb_n_add_for_cb b = 0 -> eb_n_del_for_cb b = 0 ->
  Z.of_nat (length (contents (l ++ [(c, x)]) ++ data)) < 2 ^ 61 ->
  exists res b', add_to oom junk c data b = Ret (res, b') /\ added b (contents (l ++ [(c, x)])) data res b'.
Proof.
  intros Hs Ha Hd Hlen. pose proof (spot_ok _ _ _ _ _ _ Hs) as Hx. pose proof Hx as [? ? ? ? ? ? ?]. pose proof (spot_hp _ _ _ _ _ _ Hs) as Hh.
  unfold add_to. rewrite (ebind_eq _ _ _ _ _ (chain_run b l c x [] Hh)). rewrite no_flags by done. cbn [negb].
  replace (ch_buffer_len x - ch_misalign x - ch_off x) with (ch_buffer_len x - (ch_misalign x + ch_off x)) by lia. rewrite u64_id by lia.
  destruct (Z.leb_spec (Z.of_nat (length data)) (ch_buffer_len x - (ch_misalign x + ch_off x))) as [Hfit|Hbig].
  { destruct (put_added b l c x x data Hs Ha Hd Hx eq_refl eq_refl Hfit Hlen) as (res & b' & E & Hadd).
    rewrite (set_heap_id _ _ (proj1 Hh)) in E. by exists res, b'. }
  unfold CHAIN_PINNED. rewrite no_flags by done. cbn [negb andb]. unfold evbuffer_chain_should_realign. rewrite u64_id by lia.
  destruct (Z.leb_spec (Z.of_nat (length data)) (ch_buffer_len x - ch_off x)) as [Hre|]; cbn [andb]; [|by apply add_chain_run].
  destruct ((ch_off x <? ch_buffer_len x / 2) && (ch_off x <=? MAX_TO_REALIGN_IN_EXPAND)); [|by apply add_chain_run].
  rewrite (ebind_eq _ _ _ _ _ (align_run b l c x [] Hh Hx)). destruct (aligned_ok x Hx) as (Hal & Hca & Hna).
  apply (put_added b l c x (aligned x) data); try done; cbn; lia.
Qed.
(** Appending to a buffer appends the data, or fails for lack of memory. *)
Lemma evbuffer_add_run b bs data : holds Out b bs -> eb_freeze_end b = false -> Z.of_nat (length (bs ++ data)) < 2 ^ 61 ->
  exists res b', evbuffer_add oom junk data b = Ret (res, b') /\ added b bs data res b'.
Proof.
  intros (cs & Hr & <- & Ha & Hd) Hz Hlen. unfold evbuffer_add. rewrite (ebind_eq (ev eb_freeze_end) _ b false b) by (unfold ev; by rewrite Hz).
  unfold last_chain. destruct (rep_spot _ _ _ Hr) as [[-> Hp]|(l & c & x & r & -> & Hs)].
  - rewrite length_app in Hlen. cbn [contents map mjoin list_join length] in Hlen. pose proof (er_last _ _ _ Hr) as Hla. cbn in Hla.
    unfold mbind at 1, E_bind at 1. rewrite (ebind_eq (ev eb_last) _ b None b) by (unfold ev; by rewrite Hla).
    unfold evbuffer_chain_insert_new. destruct (chain_new_run oom junk b (Z.of_nat (length data)) ltac:(lia)) as (m & Hm1 & Hm2 & E).
    destruct (oom (eb_count b)) eqn:Eo; rewrite (ebind_eq _ _ _ _ _ E).
    { eexists _, _. split; [reflexivity|]. split; [done|]. right. split_and!; [done| |by eexists]. exists []. split_and!; [|done..]. destruct Hr. by split. }
    pose proof (er_heap _ _ _ Hr) as Hh. pose proof (er_linked _ _ _ Hr) as Hf. cbn in Hh, Hf. set (b1 := set_heap _ _).
    assert (hp b1 [(eb_count b, blank junk (eb_count b) m)]) as Hh1 by (split; [cbn; by rewrite Hh|apply NoDup_singleton]).
    rewrite (ebind_eq _ _ _ _ _ (insert_first b1 (eb_count b) _ Hf Hp Hh1)). pose proof (er_total _ _ _ Hr) as Ht. cbn in Ht. cbn [mret E_ret].
    assert (spot Out (set_total (u64 (eb_total_len b1 + ch_off (blank junk (eb_count b) m))) (set_last (Some (eb_count b)) (set_first (Some (eb_count b)) b1))) [] (eb_count b) (blank junk (eb_count b) m) []) as Hs.
    { split; try done; [|by left]. apply evrep_single; try done.
      - apply blank_ok. lia.
      - cbn. lia.
      - cbn. by rewrite Hh.
      - cbn. by rewrite Ht. }
    destruct (add_to_run _ _ _ _ data Hs Ha Hd) as (res & b' & Er & Hadd); [rewrite length_app; exact Hlen|]. exists res, b'. split; [done|]. exact Hadd.
  - pose proof (sp_end _ _ _ _ _ _ Hs eq_refl) as ->. pose proof (er_last _ _ _ Hr) as Hla. rewrite last_snoc in Hla. cbn in Hla.
    unfold mbind at 1, E_bind at 1. rewrite (ebind_eq (ev eb_last) _ b (Some c) b) by (unfold ev; by rewrite Hla). by apply add_to_run.
Qed.
End adding.

(** ** Copying out *)

Lemma copy_loop_run b : forall cs pre p datlen fuel, hp b (pre ++ cs) -> linked p cs -> Forall (fun e => chain_ok e.2) cs ->
  0 <= datlen <= Z.of_nat (length (contents cs)) -> datlen < 2 ^ 64 -> (length cs <= fuel)%nat ->
  copy_loop fuel p datlen b = Ret (take (Z.to_nat datlen) (contents cs), b).
Proof.
  induction cs as [|[c x] cs IH]; intros pre p datlen fuel Hh Hl Ho Hd Hmax Hf.
  - cbn in Hd. assert (datlen = 0) as -> by lia. by destruct fuel.
  - destruct Hl as [-> Hl]. apply Forall_cons in Ho as [Hx Ho]. cbn [snd] in Hx. destruct fuel as [|fuel]; cbn [length] in Hf; [lia|]. cbn [copy_loop].
    destruct (Z.eqb_spec datlen 0) as [->|Hd0]; [done|]. rewrite (ebind_eq _ _ _ _ _ (the_chain_run b pre c x cs Hh)).
    pose proof (cdat_length x Hx) as Hc. rewrite contents_cons, length_app in *. cbn [snd] in *. destruct (Z.leb_spec (ch_off x) datlen) as [Hle|Hgt].
    + rewrite (ebind_eq _ _ _ _ _ (read_data_run b pre c x cs Hh Hx)). pose proof (co_off _ Hx). pose proof (co_max _ Hx).
      assert (u64 (datlen - ch_off x) = datlen - ch_off x) as Eu by (apply u64_id; lia).
      rewrite Eu. assert (bool_decide (is_Some (ch_next x)) || (datlen - ch_off x =? 0) = true) as Ea.
      { destruct cs as [|[c' x'] cs]; [|by destruct Hl as [-> _]]. cbn in Hd. apply orb_true_iff. right. apply Z.eqb_eq. lia. }
      rewrite Ea, (ebind_eq (EVUTIL_ASSERT true) _ b tt b) by done.
      rewrite (ebind_eq _ _ _ _ _ (IH (pre ++ [(c, x)]) (ch_next x) (datlen - ch_off x) fuel ltac:(by rewrite <- app_assoc) Hl Ho ltac:(lia) ltac:(lia) ltac:(lia))).
      rewrite take_app_ge by lia. replace (Z.to_nat datlen - length (cdat x))%nat with (Z.to_nat (datlen - ch_off x)) by lia. done.
    + rewrite (memcpy_from_run b pre c x cs Hh) by (destruct Hx; lia). rewrite take_app_le by lia. unfold cdat. rewrite take_take. do 3 f_equal. lia.
Qed.
Lemma rep_fuel k b cs : evrep k b cs -> S (S (base.size (eb_heap b))) = S (S (length cs)).
Proof. intros H. by rewrite (er_heap _ _ _ H), heap_size by apply H. Qed.

(** A copy of the first bytes. *)
Lemma evbuffer_copyout_run k b bs n : holds k b bs -> (eb_freeze_start b = false \/ bs = []) -> 0 <= n -> Z.of_nat (length bs) < 2 ^ 61 ->
  evbuffer_copyout n b = Ret ((Z.min n (Z.of_nat (length bs)), take (Z.to_nat n) bs), b).
Proof.
  intros (cs & Hr & <- & _) Hz Hn Hlen. unfold evbuffer_copyout. rewrite (ebind_eq (ev eb_first) _ b _ b eq_refl), (ebind_eq (ev eb_total_len) _ b _ b eq_refl).
  rewrite (er_total _ _ _ Hr). set (len := Z.of_nat (length (contents cs))) in *.
  replace (if len <=? n then len else n) with (Z.min n len) by (destruct (Z.leb_spec len n); lia).
  destruct (Z.eqb_spec (Z.min n len) 0) as [E0|Hne].
  - rewrite E0. replace (take (Z.to_nat n) (contents cs)) with ([] : bytes); [done|]. symmetry. destruct (decide (n = 0)) as [->|]; [done|].
    assert (length (contents cs) = 0)%nat as Hl0 by (unfold len in *; lia). by rewrite (nil_length_inv _ Hl0), take_nil.
  - destruct Hz as [Hz|Hz]; [|unfold len in Hne; rewrite Hz in Hne; cbn in Hne; lia]. rewrite (ebind_eq (ev eb_freeze_start) _ b false b) by (unfold ev; by rewrite Hz).
    rewrite (ebind_eq (chain_fuel _) _ b _ b (copy_loop_run b cs [] (eb_first b) (Z.min n len) (S (S (base.size (eb_heap b)))) (er_hp _ _ _ Hr) (er_linked _ _ _ Hr) (er_ok _ _ _ Hr) ltac:(unfold len in *; lia) ltac:(lia) ltac:(rewrite (rep_fuel _ _ _ Hr); lia))).
    replace (take (Z.to_nat (Z.min n len)) (contents cs)) with (take (Z.to_nat n) (contents cs)); [done|].
    destruct (Z.le_gt_cases n len); [by rewrite Z.min_l|]. rewrite !take_ge by (unfold len in *; lia). done.
Qed.

(** ** Draining *)

Lemma free_all_run b : forall cs p fuel, hp b cs -> linked p cs -> Forall (fun e => chain_ok e.2) cs -> (length cs <= fuel)%nat ->
  free_all fuel p b = Ret (tt, set_heap ∅ b).
Proof.
  intros cs. revert b. induction cs as [|[c x] cs IH]; intros b p fuel Hh Hl Ho Hf.
  - cbn in Hl. subst p. destruct Hh as [Hh _]. destruct b. cbn in Hh. subst. by destruct fuel.
  - destruct Hl as [-> Hl]. apply Forall_cons in Ho as [Hx Ho]. destruct fuel as [|fuel]; cbn [length] in Hf; [lia|]. cbn [free_all].
    rewrite (ebind_eq _ _ _ _ _ (chain_run b [] c x cs Hh)), (ebind_eq _ _ _ _ _ (free_run b [] c x cs Hh (co_flags _ Hx))). cbn [app].
    rewrite (IH _ (ch_next x) fuel); [done| |done|done|lia]. split; [done|]. destruct Hh as [_ Hn]. by apply NoDup_cons in Hn as [_ ?].
Qed.
Lemma ptr_to_cons e l : l <> [] -> ptr_to (e :: l) = ptr_to l.
Proof. intros H. unfold ptr_to. destruct l as [|e' l]; [done|]. by rewrite last_cons_cons. Qed.
Lemma set_datap_id b p : eb_last_with_datap b = p -> set_datap p b = b.
Proof. intros <-. by destruct b. Qed.

(** The pointer past one chain or more does not go through [first]. *)
Lemma get_pp_next b p l r : l <> [] -> hp b (l ++ r) -> linked p (l ++ r) -> get_pp (ptr_to l) b = Ret (hd_ptr r, b).
Proof.
  intros Hne Hh Hl. apply linked_app in Hl as [Hl _]. unfold ptr_to, get_pp. destruct (last l) as [[c x]|] eqn:E; [|by apply last_None in E].
  apply last_Some in E as [l' ->]. rewrite <- app_assoc in Hh. by rewrite (ebind_eq _ _ _ _ _ (chain_run b l' c x r Hh)), Hl.
Qed.
(** One round of the loop. *)
Lemma drain_step k x r c y l b rem fuel : chain_ok y -> hp b ((c, y) :: l ++ (k, x) :: r) -> linked (Some c) ((c, y) :: l ++ (k, x) :: r) ->
  eb_last_with_datap b = ptr_to ((c, y) :: l) -> ch_off y <= rem < 2 ^ 64 ->
  drain_loop (S fuel) (Some c) rem b =
    drain_loop fuel (hd_ptr (l ++ (k, x) :: r)) (rem - ch_off y) (set_datap (ptr_to l) (set_heap (list_to_map (l ++ (k, x) :: r)) b)).
Proof.
  intros Hy Hh Hl Hp Hrem. pose proof (co_off _ Hy). cbn [drain_loop]. rewrite (ebind_eq _ _ _ _ _ (the_chain_run b [] c y _ Hh)).
  destruct (Z.leb_spec (ch_off y) rem); [|lia]. rewrite u64_id by lia. rewrite (ebind_eq (ev eb_last_with_datap) _ b _ b eq_refl), Hp.
  rewrite (ebind_eq _ _ _ _ _ (get_pp_next b (Some c) ((c, y) :: l) ((k, x) :: r) ltac:(done) Hh Hl)). cbn [hd_ptr head fmap option_fmap option_map fst].
  assert (c ∉ (l ++ (k, x) :: r).*1) as Hnc by (destruct Hh as [_ Hn]; by apply NoDup_cons in Hn as [? _]).
  rewrite bool_decide_false by (intros [= ->]; apply Hnc; rewrite fmap_app; apply elem_of_app; right; left).
  rewrite (ebind_eq (mret tt) _ b tt b), (ebind_eq (ev eb_last_with_datap) _ b _ b eq_refl), Hp by done.
  assert ((if bool_decide (ptr_to ((c, y) :: l) = P_next c) then upd (set_datap P_first) else mret tt) b = Ret (tt, set_datap (ptr_to l) b)) as E2.
  { destruct l as [|e l].
    - by rewrite bool_decide_true.
    - rewrite ptr_to_cons in Hp |- * by done. rewrite bool_decide_false; [by rewrite set_datap_id|]. unfold ptr_to. destruct (last (e :: l)) as [[c' x']|] eqn:El; [|done].
      intros [= ->]. apply Hnc. apply last_Some in El as [l' ->]. rewrite !fmap_app. apply elem_of_app. left. apply elem_of_app. right. left. }
  rewrite (ebind_eq _ _ _ _ _ E2). unfold CHAIN_PINNED_R. rewrite no_flags by apply Hy.
  rewrite (ebind_eq _ _ _ _ _ (free_run (set_datap (ptr_to l) b) [] c y _ (hp_same b _ _ eq_refl Hh) (co_flags _ Hy))). cbn [app].
  destruct Hl as [_ Hl]. by rewrite (linked_hd _ _ Hl).
Qed.
Lemma drain_loop_run k x r : Forall no_data r -> forall l b rem fuel, Forall (fun e => chain_ok e.2) (l ++ (k, x) :: r) -> hp b (l ++ (k, x) :: r) ->
  linked (hd_ptr (l ++ (k, x) :: r)) (l ++ (k, x) :: r) -> eb_last_with_datap b = ptr_to l ->
  0 <= rem < Z.of_nat (length (contents (l ++ (k, x) :: r))) -> rem < 2 ^ 64 -> (length l < fuel)%nat ->
  exists l1 l2 rem' e, l = l1 ++ l2 /\ head (l2 ++ (k, x) :: r) = Some e /\ 0 <= rem' < ch_off e.2 /\
    drain_loop fuel (hd_ptr (l ++ (k, x) :: r)) rem b = Ret ((Some e.1, rem'), set_datap (ptr_to l2) (set_heap (list_to_map (l2 ++ (k, x) :: r)) b)) /\
    drop (Z.to_nat rem) (contents (l ++ (k, x) :: r)) = drop (Z.to_nat rem') (contents (l2 ++ (k, x) :: r)).
Proof.
  intros Hr. induction l as [|[c y] l IH]; intros b rem fuel Ho Hh Hl Hp Hrem Hmax Hf.
  - exists [], [], rem, (k, x). cbn [app hd_ptr head fmap option_fmap option_map fst snd] in *. rewrite contents_cons, (contents_nil r Hr), app_nil_r in *. cbn [snd] in *.
    apply Forall_cons in Ho as [Hx _]. cbn [snd] in Hx. rewrite (cdat_length x Hx) in Hrem. split_and!; [done|done|lia|lia| |done].
    destruct fuel; cbn [drain_loop]; rewrite (ebind_eq _ _ _ _ _ (the_chain_run b [] k x r Hh)); (destruct (Z.leb_spec (ch_off x) rem); [lia|]);
      by rewrite (set_heap_id b _ (proj1 Hh)), set_datap_id.
  - set (cs := l ++ (k, x) :: r) in *. cbn [app] in *. fold cs in Ho, Hh, Hl, Hrem |- *. cbn [hd_ptr head fmap option_fmap option_map fst] in *. destruct Hl as [_ Hl].
    apply Forall_cons in Ho as [Hy Ho]. cbn [snd] in Hy. pose proof (cdat_length y Hy) as Hc. rewrite contents_cons, length_app in Hrem. cbn [snd] in Hrem.
    destruct fuel as [|fuel]; cbn [length] in Hf; [lia|]. destruct (Z.leb_spec (ch_off y) rem) as [Hle|Hgt]; [|clear IH].
    + assert (linked (hd_ptr cs) cs) as Hl' by (by rewrite <- (linked_hd _ _ Hl)).
      assert (hp (set_datap (ptr_to l) (set_heap (list_to_map cs) b)) cs) as Hh' by (split; [done|]; destruct Hh as [_ Hn]; by apply NoDup_cons in Hn as [_ ?]). pose proof (co_off _ Hy).
      destruct (IH (set_datap (ptr_to l) (set_heap (list_to_map cs) b)) (rem - ch_off y) fuel Ho Hh' Hl' eq_refl ltac:(lia) ltac:(lia) ltac:(lia)) as (l1 & l2 & rem' & e & -> & He & Hrem' & E & Hd).
      exists ((c, y) :: l1), l2, rem', e. split_and!; [done|done|lia|lia| |].
      * rewrite (drain_step k x r c y (l1 ++ l2)); [exact E|done|done|by split|done|lia].
      * rewrite contents_cons. cbn [snd]. rewrite <- Hd. rewrite drop_app_ge by lia. f_equal. lia.
    + exists [], ((c, y) :: l), rem, (c, y). cbn [app head fst snd]. fold cs. split_and!; [done|done|lia|lia| |done].
      cbn [drain_loop]. rewrite (ebind_eq _ _ _ _ _ (the_chain_run b [] c y cs Hh)). destruct (Z.leb_spec (ch_off y) rem); [lia|].
      by rewrite (set_heap_id b _ (proj1 Hh)), set_datap_id.
Qed.

(** Data taken from the front of a chain. *)
Definition shortened (rem : Z) (x : evbuffer_chain) : evbuffer_chain := set_off (ch_off x - rem) (set_misalign (ch_misalign x + rem) x).
Lemma shortened_ok rem x : chain_ok x -> 0 <= rem < ch_off x ->
  chain_ok (shortened rem x) /\ cdat (shortened rem x) = drop (Z.to_nat rem) (cdat x) /\ 0 < ch_off (shortened rem x).
Proof.
  intros [? ? ? ? ? ? ?] Hr. split_and!; [split; cbn; try done; lia| |cbn; lia]. unfold cdat. cbn. rewrite skipn_firstn_comm, drop_drop. f_equal; [lia|]. f_equal. lia.
Qed.
Lemma head_tail {A} (l : list A) e : head l = Some e -> l = e :: tail l.
Proof. destruct l; [done|]. cbn. congruence. Qed.
Lemma contents_shortened rem e cs : chain_ok e.2 -> 0 <= rem < ch_off e.2 ->
  contents ((e.1, shortened rem e.2) :: cs) = drop (Z.to_nat rem) (contents (e :: cs)).
Proof.
  intros Ho Hr. destruct (shortened_ok rem e.2 Ho Hr) as (_ & Hc & _). rewrite !contents_cons. cbn [snd]. rewrite Hc, drop_app_le; [done|].
  pose proof (cdat_length _ Ho). lia.
Qed.
(** Chains taken away at the front, and data from the next. *)
Lemma spot_drained k b l1 l2 c x r e rem b' : spot k b (l1 ++ l2) c x r -> head (l2 ++ (c, x) :: r) = Some e -> 0 <= rem < ch_off e.2 ->
  let cs := (e.1, shortened rem e.2) :: tail (l2 ++ (c, x) :: r) in
  eb_first b' = Some e.1 -> eb_heap b' = list_to_map cs -> eb_count b' = eb_count b -> eb_last b' = eb_last b -> eb_last_with_datap b' = ptr_to l2 ->
  eb_total_len b' = Z.of_nat (length (contents cs)) ->
  evrep k b' cs /\ contents cs = drop (Z.to_nat rem) (contents (l2 ++ (c, x) :: r)).
Proof.
  intros [[Hl Hh Hn Hf Ho Hla Ht Hd] Hp H1 H2 H3 H4] He Hrem cs E1 E2 E3 E4 E5 E6. rewrite <- app_assoc in *. set (cs2 := l2 ++ (c, x) :: r) in *.
  assert (cs2 = e :: tail cs2) as Ecs by (by apply head_tail).
  assert (cs.*1 = cs2.*1) as Efst by (by rewrite Ecs). apply linked_app in Hl as [_ Hl]. rewrite fmap_app in Hn, Hf. apply NoDup_app in Hn as (_ & _ & Hn). apply Forall_app in Hf as [_ Hf].
  apply Forall_app in Ho as [_ Ho]. assert (chain_ok e.2) as Hoe by (rewrite Ecs in Ho; by apply Forall_cons in Ho as [? _]). destruct (shortened_ok rem e.2 Hoe Hrem) as (Hs & Hc & Hpos).
  assert (contents cs = drop (Z.to_nat rem) (contents cs2)) as Ec.
  { rewrite Ecs. by apply contents_shortened. }
  split; [|done]. split.
  - rewrite E1. rewrite Ecs in Hl. destruct e as [ce xe]. cbn in *. by destruct Hl as [_ Hl].
  - done.
  - by rewrite Efst.
  - by rewrite Efst, E3.
  - unfold cs. constructor; [done|]. rewrite Ecs in Ho. by apply Forall_cons in Ho as [_ ?].
  - rewrite E4, Hla, last_app. unfold cs. rewrite Ecs at 1. destruct (tail cs2) as [|e' t]; [done|]. rewrite !last_cons_cons.
    destruct (last (e' :: t)) eqn:El; [done|]. by apply last_None in El.
  - done.
  - rewrite E5. unfold cs, cs2. destruct l2 as [|[c2 x2] l2]; cbn [app head tail] in *; injection He as <-.
    + apply (da_some k [] c (shortened rem x) r); [done..|by left].
    + change (data_at k (ptr_to ((c2, x2) :: l2)) (((c2, shortened rem x2) :: l2) ++ (c, x) :: r)).
      replace (ptr_to ((c2, x2) :: l2)) with (ptr_to ((c2, shortened rem x2) :: l2)) by (unfold ptr_to; by destruct l2).
      apply Forall_app in H1 as [_ [_ H1]%Forall_cons]. constructor; [by constructor|done|done|]. right. destruct H4 as [H4|]; [|done]. by apply app_eq_nil in H4 as [_ ?].
Qed.
Lemma drained_told b1 b old d : 0 <= d <= old -> old < 2 ^ 63 -> eb_callbacks b1 = eb_callbacks b ->
  eb_n_add_for_cb b1 = 0 -> eb_n_del_for_cb b1 = d -> eb_total_len b1 = old - d ->
  (l ← evbuffer_invoke_callbacks; mret (0, l)) b1 = Ret ((0, told b old 0 d), set_counts 0 0 b1).
Proof.
  intros H0 H1 Hc Ha Hd Ht. rewrite (ebind_eq _ _ _ _ _ (invoke_run b1 old ltac:(lia) ltac:(lia) ltac:(lia) ltac:(lia))).
  unfold told. by rewrite Ha, Hd, Hc.
Qed.

Lemma pinned_run k b cs : evrep k b cs -> HAS_PINNED_R b = Ret (false, b).
Proof.
  intros Hr. unfold HAS_PINNED_R. rewrite (ebind_eq (ev eb_last) _ b _ b eq_refl), (er_last _ _ _ Hr). destruct (last cs) as [[cl xl]|] eqn:El; [|done].
  cbn [fmap option_fmap option_map fst]. apply last_Some in El as [l' ->]. rewrite (ebind_eq _ _ _ _ _ (chain_run b l' cl xl [] (er_hp _ _ _ Hr))).
  unfold CHAIN_PINNED_R. rewrite no_flags; [done|]. pose proof (er_ok _ _ _ Hr) as Ho. apply Forall_app in Ho as [_ [Ho _]%Forall_cons]. apply Ho.
Qed.

(** Draining drops the first bytes. *)
Lemma evbuffer_drain_run k b bs n : holds k b bs -> (eb_freeze_start b = false \/ bs = []) -> 0 <= n < 2 ^ 64 -> Z.of_nat (length bs) < 2 ^ 61 ->
  exists b', evbuffer_drain n b = Ret ((0, told b (Z.of_nat (length bs)) 0 (Z.min n (Z.of_nat (length bs)))), b') /\
    same_setup b b' /\ holds k b' (drop (Z.to_nat n) bs).
Proof.
  intros (cs & Hr & <- & Ha & Hd) Hz Hn Hlen. unfold evbuffer_drain. rewrite (ebind_eq (ev eb_total_len) _ b _ b eq_refl). rewrite (er_total _ _ _ Hr).
  set (old := Z.of_nat (length (contents cs))) in *. destruct (Z.eqb_spec old 0) as [E0|Hne].
  { assert (contents cs = []) as Ec by (apply nil_length_inv; unfold old in *; lia). exists b. unfold told. rewrite E0, Z.min_r by lia. split; [done|]. split; [done|].
    exists cs. by rewrite Ec, drop_nil. }
  destruct Hz as [Hz|Hz]; [|unfold old in Hne; rewrite Hz in Hne; cbn in Hne; lia]. rewrite (ebind_eq (ev eb_freeze_start) _ b false b) by (unfold ev; by rewrite Hz).
  destruct (rep_spot _ _ _ Hr) as [[-> _]|(l & c & x & r & -> & Hs)]; [done|].
  rewrite (ebind_eq _ _ _ _ _ (pinned_run _ _ _ Hr)). cbn [negb]. rewrite andb_true_r. destruct (Z.leb_spec old n) as [Hall|Hpart].
  - rewrite Z.min_r by lia. erewrite ebind_eq; cycle 1.
    { rewrite (ebind_eq (ev eb_first) _ b _ b eq_refl). unfold evbuffer_free_all_chains.
      rewrite (ebind_eq (chain_fuel _) _ b _ _ (free_all_run b _ _ (S (S (base.size (eb_heap b)))) (er_hp _ _ _ Hr) (er_linked _ _ _ Hr) (er_ok _ _ _ Hr) ltac:(rewrite (rep_fuel _ _ _ Hr); lia))).
      unfold ZERO_CHAIN. rewrite (ebind_eq (upd _) _ _ tt _ eq_refl). reflexivity. }
    unfold count_del. rewrite (ebind_eq (upd _) _ _ tt _ eq_refl).
    rewrite (drained_told _ b old old) by (cbn; rewrite ?Ha, ?Hd, ?u64_id by lia; lia || done). eexists. split; [reflexivity|]. split; [done|].
    exists []. split_and!; [|rewrite drop_ge by (unfold old in *; lia); done|done|done]. split; try done; cbn; constructor.
  - rewrite Z.min_l by lia. pose proof (er_linked _ _ _ Hr) as Hl. pose proof (linked_hd _ _ Hl) as Ef. rewrite Ef in Hl. set (b1 := set_total (old - n) b).
    destruct (drain_loop_run c x r (sp_behind _ _ _ _ _ _ Hs) l b1 n (S (S (base.size (eb_heap b1)))) (er_ok _ _ _ Hr) (hp_same b b1 _ eq_refl (er_hp _ _ _ Hr)) Hl (sp_ptr _ _ _ _ _ _ Hs)
      ltac:(unfold old in *; lia) ltac:(lia)) as (l1 & l2 & rem & e & -> & He & Hrem & E & Hdr).
    { change (eb_heap b1) with (eb_heap b). rewrite (rep_fuel _ _ _ Hr), length_app. cbn. lia. }
    set (cs2 := l2 ++ (c, x) :: r) in *. assert (cs2 = e :: tail cs2) as Ecs by (by apply head_tail).
    set (b2 := set_datap _ _) in E. pose proof (hp_same b b1 _ eq_refl (er_hp _ _ _ Hr)) as [_ Hnd]. rewrite <- app_assoc, fmap_app in Hnd. apply NoDup_app in Hnd as (_ & _ & Hnd). fold cs2 in Hnd.
    assert (Forall (fun e => chain_ok e.2) cs2) as Hoe by (pose proof (er_ok _ _ _ Hr) as Ho; rewrite <- app_assoc in Ho; by apply Forall_app in Ho as [_ ?]).
    assert (hp (set_first (Some e.1) b2) ([] ++ (e.1, e.2) :: tail cs2)) as Hh2 by (cbn [app]; rewrite <- surjective_pairing, <- Ecs; by split).
    erewrite ebind_eq; cycle 1.
    { rewrite (ebind_eq (upd _) _ b tt b1) by (unfold upd, b1; by rewrite (er_total _ _ _ Hr), u64_id by (fold old; lia)).
      rewrite (ebind_eq (ev eb_first) _ b1 (eb_first b) b1 eq_refl), Ef. rewrite (ebind_eq (chain_fuel _) _ b1 _ _ E). rewrite (ebind_eq (upd _) _ _ tt _ eq_refl).
      rewrite (ebind_eq _ _ _ _ _ (edit_chain_run _ [] e.1 e.2 _ Hh2 _)). reflexivity. }
    unfold count_del. rewrite (ebind_eq (upd _) _ _ tt _ eq_refl).
    rewrite (drained_told _ b old n) by (cbn; rewrite ?Ha, ?Hd, ?u64_id by lia; lia || done). eexists. split; [reflexivity|]. split; [done|].
    destruct (spot_drained k b l1 l2 c x r e rem (set_counts 0 0 (set_heap (list_to_map ((e.1, shortened rem e.2) :: tail cs2)) (set_first (Some e.1) b2))) Hs He Hrem) as [Hrep Hcon]; try done.
    { fold cs2. rewrite contents_shortened; [|by rewrite Ecs in Hoe; apply Forall_cons in Hoe as [? _]|done]. rewrite <- Ecs, <- Hdr, length_drop. fold old. cbn. unfold old in *. lia. }
    fold cs2 in Hrep, Hcon. exists ((e.1, shortened rem e.2) :: tail cs2). split_and!; [|by rewrite Hcon, Hdr|done|done]. destruct Hrep. by split.
Qed.

Lemma to_int_small z : 0 <= z < 2 ^ 31 -> to_int z = z.
Proof. intros H. unfold to_int. rewrite u32_small by lia. destruct (Z.ltb_spec z (2 ^ 31)); lia. Qed.
(** Removing is copying and draining. *)
Lemma evbuffer_remove_run k b bs n : holds k b bs -> (eb_freeze_start b = false \/ bs = []) -> 0 <= n < 2 ^ 64 -> Z.of_nat (length bs) < 2 ^ 31 ->
  exists b', evbuffer_remove n b = Ret ((Z.min n (Z.of_nat (length bs)), take (Z.to_nat n) bs, told b (Z.of_nat (length bs)) 0 (Z.min n (Z.of_nat (length bs)))), b') /\
    same_setup b b' /\ holds k b' (drop (Z.to_nat n) bs).
Proof.
  intros Hb Hz Hn Hlen. unfold evbuffer_remove. rewrite (ebind_eq _ _ _ _ _ (evbuffer_copyout_run k b bs n Hb Hz ltac:(lia) ltac:(lia))).
  set (m := Z.min n (Z.of_nat (length bs))). destruct (Z.ltb_spec 0 m) as [Hpos|Hzero].
  - destruct (evbuffer_drain_run k b bs m Hb Hz ltac:(unfold m; lia) ltac:(lia)) as (b' & E & Hs & Hd). exists b'. rewrite (ebind_eq _ _ _ _ _ E).
    replace (Z.min m (Z.of_nat (length bs))) with m by (unfold m; lia). cbn [Z.ltb Z.compare]. rewrite to_int_small by (unfold m in *; lia). split; [done|]. split; [done|].
    replace (drop (Z.to_nat n) bs) with (drop (Z.to_nat m) bs); [done|]. unfold m. destruct (Z.le_gt_cases n (Z.of_nat (length bs))); [by rewrite Z.min_l|]. rewrite !drop_ge by lia. done.
  - assert (m = 0) as Em by (unfold m in *; lia). exists b. rewrite Em, to_int_small by lia. unfold told. split; [done|]. split; [done|].
    replace (drop (Z.to_nat n) bs) with bs; [done|]. unfold m in Em. destruct (decide (n = 0)) as [->|]; [done|].
    assert (length bs = 0)%nat as Hl0 by lia. by rewrite (nil_length_inv _ Hl0), drop_nil.
Qed.
