(* ===== verification/EvRead.v ===== *)
(** * EvRead: transfers between buffers and sockets

    [evbuffer_read] makes room behind the data ([_evbuffer_expand_fast]), reads
    into up to four chains and moves their ends; [evbuffer_write_atmost] gives
    the socket what lies in up to 128 chains and drains what it has taken.  Both
    do to the bytes held what the socket did. *)

From S2P Require Import Prelude Words EvBuffer EvQueue.

(** ** Space *)

Definition space (x : evbuffer_chain) : Z := ch_buffer_len x - (ch_misalign x + ch_off x).
Fixpoint total_space (cs : chains) : Z := match cs with [] => 0 | e :: cs => space e.2 + total_space cs end.
(** A chain without data, its memory free from the start. *)
Definition realigned (x : evbuffer_chain) : evbuffer_chain := if ch_off x =? 0 then set_misalign 0 x else x.
Definition realigned_all (cs : chains) : chains := map (fun e => (e.1, realigned e.2)) cs.

Lemma space_nonneg x : chain_ok x -> 0 <= space x.
Proof. intros [? ? ? ? ? ? ?]. unfold space. lia. Qed.
Lemma total_space_nonneg cs : Forall (fun e => chain_ok e.2) cs -> 0 <= total_space cs.
Proof. induction 1 as [|e cs He _ IH]; cbn; [lia|]. pose proof (space_nonneg _ He). lia. Qed.
Lemma total_space_app l r : total_space (l ++ r) = total_space l + total_space r.
Proof. induction l as [|e l IH]; cbn; [lia|]. lia. Qed.
Lemma realigned_ok x : chain_ok x -> chain_ok (realigned x) /\ cdat (realigned x) = cdat x /\ ch_next (realigned x) = ch_next x /\ ch_off (realigned x) = ch_off x.
Proof.
  intros Hx. unfold realigned. destruct (Z.eqb_spec (ch_off x) 0) as [E|]; [|done]. split_and!; [|by rewrite !cdat_nil|done|done].
  destruct Hx as [? ? ? ? ? ? ?]. split; cbn; try done; lia.
Qed.
Lemma realigned_space x : chain_ok x -> ch_off x = 0 -> space (realigned x) = ch_buffer_len x.
Proof. intros Hx E. unfold realigned, space. rewrite E. cbn. lia. Qed.
Lemma realigned_all_app l r : realigned_all (l ++ r) = realigned_all l ++ realigned_all r.
Proof. apply map_app. Qed.
Lemma realigned_all_fst cs : (realigned_all cs).*1 = cs.*1.
Proof. unfold realigned_all. induction cs; [done|]. cbn. by f_equal. Qed.
Lemma realigned_all_contents cs : Forall (fun e => chain_ok e.2) cs -> contents (realigned_all cs) = contents cs.
Proof. induction 1 as [|e cs He _ IH]; [done|]. cbn [realigned_all map]. rewrite !contents_cons. cbn [snd]. fold (realigned_all cs). rewrite IH. by destruct (realigned_ok _ He) as (_ & -> & _). Qed.
Lemma realigned_all_ok cs : Forall (fun e => chain_ok e.2) cs -> Forall (fun e => chain_ok e.2) (realigned_all cs).
Proof. induction 1 as [|e cs He _ IH]; [done|]. constructor; [by apply realigned_ok|done]. Qed.
Lemma realigned_all_no_data cs : Forall no_data cs -> Forall no_data (realigned_all cs).
Proof. induction 1 as [|e cs He _ IH]; [done|]. constructor; [|done]. unfold no_data, realigned in *. cbn. by rewrite He. Qed.
Lemma realigned_all_linked p l r : linked p (l ++ r) -> linked p (realigned_all l ++ r).
Proof.
  revert p. induction l as [|[c x] l IH]; intros p; [done|]. cbn. intros [-> H]. split; [done|]. unfold realigned. by destruct (ch_off x =? 0); apply IH.
Qed.
(** ** The search for space *)

Section expand.
Context (oom : nat -> bool) (junk : nat -> nat -> Z).

(** Chains without data count with all their memory. *)
Lemma expand_empty datlen n : datlen <= 2 ^ 61 -> forall cs pre b p avail used fuel, hp b (pre ++ cs) -> linked p cs -> Forall (fun e => chain_ok e.2) cs -> Forall no_data cs ->
  0 <= avail < datlen -> used < n -> (length cs < fuel)%nat ->
  exists cs1 cs2 res, cs = cs1 ++ cs2 /\ expand_loop fuel p datlen n avail used b = Ret (res, set_heap (list_to_map (pre ++ realigned_all cs1 ++ cs2)) b) /\
    match res with
    | None => datlen <= avail + total_space (realigned_all cs1) /\ used + Z.of_nat (length cs1) <= n
    | Some (a, u) => a = avail + total_space (realigned_all cs1) /\ a < datlen /\ u = used + Z.of_nat (length cs1) /\ (u = n \/ (cs2 = [] /\ u < n))
    end.
Proof.
  intros Hmax. induction cs as [|[c x] cs IH]; intros pre b p avail used fuel Hh Hl Ho Hn Ha Hu Hf.
  - exists [], [], (Some (avail, used)). cbn in Hl. subst p. destruct fuel as [|fuel]; cbn [length] in Hf; [lia|]. split; [done|].
    split; [by rewrite (set_heap_id b (list_to_map (pre ++ realigned_all [] ++ [])) (proj1 Hh))|]. cbn. split_and!; [lia|lia|lia|right; split; [done|lia]].
  - destruct Hl as [-> Hl]. apply Forall_cons in Ho as [Hx Ho], Hn as [Hnx Hn]. unfold no_data in Hnx. cbn [snd] in Hx, Hnx. destruct fuel as [|fuel]; cbn [length] in Hf; [lia|].
    cbn [expand_loop]. rewrite (ebind_eq _ _ _ _ _ (chain_run b pre c x cs Hh)). rewrite Hnx. cbn [Z.eqb negb].
    assert (set_misalign 0 x = realigned x) as Er by (unfold realigned; by rewrite Hnx).
    set (b1 := set_heap (list_to_map (pre ++ (c, realigned x) :: cs)) b). pose proof (co_max _ Hx). pose proof (co_pos _ Hx). pose proof (realigned_space x Hx Hnx) as Es.
    rewrite (ebind_eq _ _ b (avail + ch_buffer_len x, used + 1) b1).
    2:{ rewrite (ebind_eq _ _ _ _ _ (edit_chain_run b pre c x cs Hh _)). rewrite Er, u64_id by lia. done. }
    assert (hp b1 ((pre ++ [(c, realigned x)]) ++ cs)) as Hh1 by (rewrite <- app_assoc; by apply (hp_set b pre c x)).
    destruct (Z.leb_spec datlen (avail + ch_buffer_len x)) as [Hok|Hmore].
    { exists [(c, x)], cs, None. split; [done|]. split; [done|]. cbn. rewrite Es. lia. }
    destruct (Z.eqb_spec (used + 1) n) as [En|Hne].
    { exists [(c, x)], cs, (Some (avail + ch_buffer_len x, used + 1)). split; [done|]. split; [done|]. cbn. rewrite Es. split_and!; [lia..|by left]. }
    destruct (IH _ b1 (ch_next x) (avail + ch_buffer_len x) (used + 1) fuel Hh1 Hl Ho Hn ltac:(lia) ltac:(lia) ltac:(lia)) as (cs1 & cs2 & res & -> & E & Hres).
    exists ((c, x) :: cs1), cs2, res. split; [done|]. split.
    { rewrite E. unfold b1. rewrite set_heap_twice. do 3 f_equal. by rewrite <- !app_assoc. }
    cbn [realigned_all map total_space length snd]. fold (realigned_all cs1). rewrite Es. destruct res as [[a u]|]; [|lia]. destruct Hres as (? & ? & ? & Hend). split_and!; [lia..|].
    destruct Hend as [?|[? ?]]; [left; lia|right; split; [done|lia]].
Qed.

(** The loop over the chains from the last one with data on. *)
Lemma expand_loop_run b l c x r datlen n : spot In b l c x r -> 0 < datlen <= 2 ^ 61 -> 2 <= n ->
  exists r1 r2 res, r = r1 ++ r2 /\
    chain_fuel (fun fuel => expand_loop fuel (Some c) datlen n 0 0) b = Ret (res, set_heap (list_to_map (l ++ (c, realigned x) :: realigned_all r1 ++ r2)) b) /\
    let used := (if space (realigned x) =? 0 then 0 else 1) + Z.of_nat (length r1) in
    let avail := space (realigned x) + total_space (realigned_all r1) in
    match res with
    | None => datlen <= avail /\ used <= n
    | Some (a, u) => a = avail /\ a < datlen /\ u = used /\ (u = n \/ (r2 = [] /\ u < n))
    end.
Proof.
  intros Hs Hd Hn. pose proof (spot_ok _ _ _ _ _ _ Hs) as Hx. pose proof (spot_hp _ _ _ _ _ _ Hs) as Hh. pose proof (sp_rep _ _ _ _ _ _ Hs) as Hr.
  pose proof (er_linked _ _ _ Hr) as Hl. pose proof Hl as [_ [_ Hlr]]%linked_app. pose proof (er_ok _ _ _ Hr) as Ho. apply Forall_app in Ho as [_ Ho]. pose proof (space_nonneg x Hx) as Hsp.
  unfold chain_fuel. rewrite (rep_fuel _ _ _ Hr), length_app. cbn [length]. destruct (Z.eqb_spec (ch_off x) 0) as [E0|Hne].
  - assert (Forall no_data ((c, x) :: r)) as Hnd by (constructor; [done|apply Hs]).
    destruct (expand_empty datlen n ltac:(lia) ((c, x) :: r) l b (Some c) 0 0 (S (S (length l + S (length r)))) Hh ltac:(by split) Ho Hnd ltac:(lia) ltac:(lia) ltac:(cbn; lia)) as (cs1 & cs2 & res & Ecs & E & Hres).
    destruct cs1 as [|e r1]; cbn [app] in Ecs.
    { exfalso. subst cs2. cbn in Hres. destruct res as [[a u]|]; [|lia]. destruct Hres as (_ & _ & ? & [?|[? _]]); [lia|done]. }
    injection Ecs as <- ->. exists r1, cs2, res. split; [done|]. split; [exact E|]. cbn [realigned_all map total_space length snd] in Hres. fold (realigned_all r1) in Hres.
    rewrite (realigned_space x Hx E0) in Hres |- *. pose proof (co_pos _ Hx). destruct (Z.eqb_spec (ch_buffer_len x) 0); [lia|].
    destruct res as [[a u]|]; [|lia]. destruct Hres as (? & ? & ? & [?|[? ?]]); split_and!; first [lia|left; lia|right; split; [done|lia]].
  - assert (realigned x = x) as Er by (unfold realigned; apply Z.eqb_neq in Hne; by rewrite Hne). rewrite Er. remember (S (length l + S (length r))) as f eqn:Ef. cbn [expand_loop].
    rewrite (ebind_eq _ _ _ _ _ (chain_run b l c x r Hh)). rewrite (proj2 (Z.eqb_neq _ _) Hne). cbn [negb].
    set (u0 := if space x =? 0 then 0 else 1). assert (0 <= u0 <= 1) as Hu0 by (unfold u0; destruct (space x =? 0); lia). pose proof (co_max _ Hx).
    rewrite (ebind_eq _ _ b (space x, u0) b).
    2:{ rewrite (ebind_eq (ev eb_last_with_datap) _ b _ b eq_refl), (sp_ptr _ _ _ _ _ _ Hs), (ebind_eq _ _ _ _ _ (get_pp_run b l ((c, x) :: r) Hl Hh)).
        rewrite bool_decide_true by done. rewrite (ebind_eq (EVUTIL_ASSERT true) _ b tt b) by done. rewrite space_len by done. fold (space x). rewrite u64_id by (destruct Hx; unfold space; lia).
        unfold u0. destruct (Z.eqb_spec (space x) 0) as [->|]; done. }
    destruct (Z.leb_spec datlen (space x)) as [Hok|Hmore].
    { exists [], r, None. split; [done|]. split; [by rewrite (set_heap_id b (list_to_map (l ++ (c, x) :: realigned_all [] ++ r)) (proj1 Hh))|]. cbn. lia. }
    destruct (Z.eqb_spec u0 n); [lia|]. apply Forall_cons in Ho as [_ Ho].
    destruct (expand_empty datlen n ltac:(lia) r (l ++ [(c, x)]) b (ch_next x) (space x) u0 f ltac:(by rewrite <- app_assoc) Hlr Ho (sp_behind _ _ _ _ _ _ Hs) ltac:(lia) ltac:(lia) ltac:(lia)) as (r1 & r2 & res & -> & E & Hres).
    exists r1, r2, res. split; [done|]. split; [|by destruct res as [[a u]|]; lia || exact Hres]. rewrite E. do 3 f_equal. by rewrite <- app_assoc.
Qed.
Lemma spot_realigned b l c x r1 r2 : spot In b l c x (r1 ++ r2) ->
  spot In (set_heap (list_to_map (l ++ (c, realigned x) :: realigned_all r1 ++ r2)) b) l c (realigned x) (realigned_all r1 ++ r2).
Proof.
  intros Hs. pose proof (spot_ok _ _ _ _ _ _ Hs) as Hx. destruct (realigned_ok x Hx) as (Hrx & Hcx & Hnx & Hox). destruct Hs as [[Hl Hh Hn Hf Ho Hla Ht Hd] Hp H1 H2 H3 H4].
  assert ((l ++ (c, realigned x) :: realigned_all r1 ++ r2).*1 = (l ++ (c, x) :: r1 ++ r2).*1) as Efst by (rewrite !fmap_app; cbn; by rewrite !fmap_app, realigned_all_fst).
  apply Forall_app in Ho as [Hol [_ Hor]%Forall_cons]. apply Forall_app in Hor as [Ho1 Ho2]. apply Forall_app in H2 as [H21 H22].
  assert (Forall no_data (realigned_all r1 ++ r2)) as Hnd by (apply Forall_app; split; [by apply realigned_all_no_data|done]).
  assert (l = [] \/ 0 < ch_off (realigned x)) as H4' by (by rewrite Hox).
  split; try done. split.
  - cbn. replace (l ++ (c, realigned x) :: realigned_all r1 ++ r2) with (l ++ (realigned_all ((c, x) :: r1)) ++ r2) by done. clear -Hl. revert Hl. generalize (eb_first b).
    induction l as [|[c0 x0] l IH]; intros p; [apply (realigned_all_linked p ((c, x) :: r1) r2)|]. cbn. intros [-> H]. split; [done|]. by apply IH.
  - done.
  - by rewrite Efst.
  - by rewrite Efst.
  - apply Forall_app. split; [done|]. constructor; [done|]. apply Forall_app. split; [by apply realigned_all_ok|done].
  - cbn [eb_last set_heap]. by rewrite Hla, <- !fmap_last, Efst.
  - cbn. rewrite Ht. do 2 f_equal. rewrite !contents_app, !contents_cons, !contents_app. cbn [snd]. by rewrite Hcx, realigned_all_contents.
  - cbn. rewrite Hp. by constructor.
Qed.

(** The list with another chain behind its last. *)
Fixpoint relink (cs : chains) (q : cptr) : chains :=
  match cs with
  | [] => []
  | [(c, x)] => [(c, set_next q x)]
  | e :: cs => e :: relink cs q
  end.
Lemma relink_cons e cs q : cs <> [] -> relink (e :: cs) q = e :: relink cs q.
Proof. destruct e, cs; done. Qed.
Lemma relink_app l r q : r <> [] -> relink (l ++ r) q = l ++ relink r q.
Proof.
  intros H. induction l as [|e l IH]; [done|]. cbn [app]. rewrite relink_cons; [by rewrite IH|]. intros E. by apply app_eq_nil in E as [_ ?].
Qed.
Lemma relink_head c x r q : exists x', relink ((c, x) :: r) q = (c, x') :: relink r q /\ space x' = space x /\ ch_off x' = ch_off x.
Proof. destruct r as [|e r]; [by exists (set_next q x)|]. by exists x. Qed.
Lemma relink_fst cs q : (relink cs q).*1 = cs.*1.
Proof. induction cs as [|[c x] [|e cs] IH]; [done..|]. rewrite relink_cons by done. cbn [fmap list_fmap fst]. by f_equal. Qed.
Lemma relink_contents cs q : contents (relink cs q) = contents cs.
Proof. induction cs as [|[c x] [|e cs] IH]; [done..|]. rewrite relink_cons by done. by rewrite !(contents_cons (c, x)), IH. Qed.
Lemma relink_Forall (P : nat * evbuffer_chain -> Prop) cs q : (forall c x, P (c, x) -> P (c, set_next q x)) -> Forall P cs -> Forall P (relink cs q).
Proof.
  intros HP. induction 1 as [|[c x] cs Hx Hcs IH]; [done|]. destruct cs as [|e cs]; [constructor; [by apply HP|done]|]. rewrite relink_cons by done. by constructor.
Qed.
Lemma relink_linked p cs n y : cs <> [] -> linked p cs -> ch_next y = None -> linked p (relink cs (Some n) ++ [(n, y)]).
Proof.
  intros Hne Hl Hy. revert p Hl. induction cs as [|[c x] [|e cs] IH]; intros p; [done| |].
  - cbn. intros [-> _]. done.
  - rewrite relink_cons by done. cbn [app linked]. intros [-> H]. split; [done|]. by apply IH.
Qed.
Lemma relink_space cs q : total_space (relink cs q) = total_space cs.
Proof. induction cs as [|[c x] [|e cs] IH]; [done..|]. rewrite relink_cons by done. cbn [total_space]. by rewrite IH. Qed.
Lemma relink_length cs q : length (relink cs q) = length cs.
Proof. rewrite <- (length_fmap fst), relink_fst. apply length_fmap. Qed.

(** A buffer with space for [n] bytes behind its data. *)
Definition open_chains (c : nat) (x : evbuffer_chain) (r : chains) : chains := if space x =? 0 then r else (c, x) :: r.
Definition roomy (e : nat * evbuffer_chain) : Prop := 0 < space e.2.
Definition room (ws : chains) (n : Z) : Prop :=
  exists ws1 ws2, ws = ws1 ++ ws2 /\ (length ws1 <= NUM_READ_IOVEC)%nat /\ n <= total_space ws1 /\ Forall roomy ws1.
Definition ready (b : evbuffer) (bs : bytes) (n : Z) : Prop :=
  exists l c x r, spot In b l c x r /\ contents (l ++ (c, x) :: r) = bs /\ eb_n_add_for_cb b = 0 /\ eb_n_del_for_cb b = 0 /\
    (space x = 0 -> 0 < ch_off x) /\ room (open_chains c x r) n.
Definition expanded (b : evbuffer) (bs : bytes) (n : Z) (res : Z) (b' : evbuffer) : Prop :=
  same_setup b b' /\ ((res = 0 /\ ready b' bs n) \/ (res = -1 /\ holds In b' bs /\ exists n, oom n = true)).

Lemma room_open x c r1 r2 n : Forall roomy r1 -> 0 <= space x ->
  (if space x =? 0 then 0 else 1) + Z.of_nat (length r1) <= Z.of_nat NUM_READ_IOVEC -> n <= space x + total_space r1 -> room (open_chains c x (r1 ++ r2)) n.
Proof.
  intros H1 Hx Hu Hn. unfold open_chains. destruct (Z.eqb_spec (space x) 0) as [E|Hne].
  - exists r1, r2. split_and!; [done|lia|lia|done].
  - exists ((c, x) :: r1), r2. split_and!; [done|cbn; lia|cbn; lia|]. constructor; [unfold roomy; cbn; lia|done].
Qed.
Lemma roomy_realigned r : Forall (fun e => chain_ok e.2) r -> Forall no_data r -> Forall roomy (realigned_all r).
Proof.
  intros Ho. induction Ho as [|e r He _ IH]; intros Hn; [done|]. apply Forall_cons in Hn as [Hne Hn]. constructor; [|by apply IH].
  unfold roomy. cbn. rewrite realigned_space by done. apply He.
Qed.
(** The new chain behind all others. *)
Lemma spot_append b l c x r n y b' : spot In b l c x r -> chain_ok y -> ch_next y = None -> ch_off y = 0 -> (eb_count b <= n)%nat -> (n < eb_count b')%nat ->
  eb_first b' = eb_first b -> eb_heap b' = list_to_map (relink (l ++ (c, x) :: r) (Some n) ++ [(n, y)]) -> eb_last b' = Some n ->
  eb_last_with_datap b' = eb_last_with_datap b -> eb_total_len b' = eb_total_len b ->
  exists x', spot In b' l c x' (relink r (Some n) ++ [(n, y)]) /\ space x' = space x /\ ch_off x' = ch_off x /\
    contents (l ++ (c, x') :: relink r (Some n) ++ [(n, y)]) = contents (l ++ (c, x) :: r).
Proof.
  intros Hs Hy Hny Hoy Hc Hc' E1 E2 E3 E4 E5. pose proof (spot_ok _ _ _ _ _ _ Hs) as Hx. destruct Hs as [[Hl Hh Hn Hf Ho Hla Ht Hd] Hp H1 H2 H3 H4].
  destruct (relink_head c x r (Some n)) as (x' & Er & Hsp & Hox). exists x'.
  assert (relink (l ++ (c, x) :: r) (Some n) ++ [(n, y)] = l ++ (c, x') :: relink r (Some n) ++ [(n, y)]) as El by (rewrite relink_app, Er by done; by rewrite <- app_assoc).
  assert (contents (l ++ (c, x') :: relink r (Some n) ++ [(n, y)]) = contents (l ++ (c, x) :: r)) as Ec.
  { rewrite <- El, contents_app, relink_contents, (contents_nil [(n, y)]) by (by constructor). by rewrite app_nil_r. }
  split; [|done]. rewrite <- El in Ec. assert (Forall (fun a => (a < n)%nat) (l ++ (c, x) :: r).*1) as Hlt by (eapply Forall_impl; [exact Hf|]; cbn; lia).
  assert (Forall no_data (relink r (Some n) ++ [(n, y)])) as Hnd by (apply Forall_app; split; [by apply relink_Forall|by constructor]).
  split; try done; [|by rewrite E4|by rewrite Hox]. rewrite <- El. split.
  - rewrite E1. apply relink_linked; [by destruct l|done|done].
  - done.
  - rewrite fmap_app, relink_fst. by apply nodup_fresh.
  - rewrite fmap_app, relink_fst. apply Forall_app. split; [eapply Forall_impl; [exact Hlt|]; cbn; lia|by constructor].
  - apply Forall_app. split; [|by constructor]. apply relink_Forall; [|done]. intros a z []. by split.
  - rewrite E3, last_snoc. done.
  - by rewrite E5, Ht, Ec.
  - rewrite E4, Hp, El. constructor; [done|done|done|by rewrite Hox].
Qed.

Lemma space_blank p m : space (blank junk p m) = m.
Proof. unfold space. cbn. lia. Qed.
Lemma free_empty_run : forall cs pre b p fuel, hp b (pre ++ cs) -> linked p cs -> Forall (fun e => chain_ok e.2) cs -> Forall no_data cs -> (length cs < fuel)%nat ->
  free_empty fuel p b = Ret (tt, set_heap (list_to_map pre) b).
Proof.
  induction cs as [|[c x] cs IH]; intros pre b p fuel Hh Hl Ho Hn Hf.
  - cbn in Hl. subst p. rewrite app_nil_r in Hh. rewrite (set_heap_id b _ (proj1 Hh)). by destruct fuel.
  - destruct Hl as [-> Hl]. apply Forall_cons in Ho as [Hx Ho], Hn as [Hnx Hn]. unfold no_data in Hnx. cbn [snd] in Hx, Hnx. destruct fuel as [|fuel]; cbn [length] in Hf; [lia|].
    cbn [free_empty]. rewrite (ebind_eq _ _ _ _ _ (chain_run b pre c x cs Hh)), Hnx, (ebind_eq (EVUTIL_ASSERT (0 =? 0)) _ b tt b) by done.
    rewrite (ebind_eq _ _ _ _ _ (free_run b pre c x cs Hh (co_flags _ Hx))). rewrite (IH pre _ (ch_next x) fuel); [done| |done|done|done|lia].
    split; [done|]. destruct Hh as [_ Hnd]. rewrite fmap_app in Hnd |- *. cbn in Hnd. apply NoDup_app in Hnd as (? & Hd & [_ ?]%NoDup_cons). apply NoDup_app. split_and!; [done| |done].
    intros a Ha Hin. apply (Hd a Ha). by right.
Qed.
Lemma hp_new b cs n y : hp b cs -> Forall (fun a => (a < n)%nat) cs.*1 -> hp (set_heap (<[n := y]> (eb_heap b)) (bump b)) (cs ++ [(n, y)]).
Proof.
  intros [Hh Hn] Hf. split; [cbn; rewrite Hh; apply heap_new|rewrite fmap_app; by apply nodup_fresh]. intros Hin. rewrite Forall_forall in Hf. specialize (Hf _ Hin). cbn in Hf. lia.
Qed.
Lemma holds_setup k b b' cs : evrep k b cs -> eb_n_add_for_cb b = 0 -> eb_n_del_for_cb b = 0 ->
  eb_first b' = eb_first b -> eb_last b' = eb_last b -> eb_last_with_datap b' = eb_last_with_datap b -> eb_total_len b' = eb_total_len b -> eb_heap b' = eb_heap b ->
  eb_n_add_for_cb b' = eb_n_add_for_cb b -> eb_n_del_for_cb b' = eb_n_del_for_cb b -> (eb_count b <= eb_count b')%nat -> holds k b' (contents cs).
Proof.
  intros [? ? ? Hf ? ? ? ?] Ha Hd E1 E2 E3 E4 E5 E6 E7 E8. exists cs. split_and!; [|done|by rewrite E6|by rewrite E7]. split; rewrite ?E1, ?E2, ?E3, ?E4, ?E5; try done.
  eapply Forall_impl; [exact Hf|]. cbn. lia.
Qed.

(** The chains without data gone. *)
Lemma spot_cut b l c x r b' : spot In b l c x r -> eb_first b' = eb_first b -> eb_heap b' = list_to_map (l ++ [(c, set_next None x)]) -> eb_last b' = Some c ->
  eb_last_with_datap b' = eb_last_with_datap b -> eb_total_len b' = eb_total_len b -> eb_count b' = eb_count b ->
  spot In b' l c (set_next None x) [] /\ contents (l ++ [(c, set_next None x)]) = contents (l ++ (c, x) :: r).
Proof.
  intros [[Hl Hh Hn Hf Ho Hla Ht Hd] Hp H1 H2 H3 H4] E1 E2 E3 E4 E5 E6.
  assert (contents (l ++ [(c, set_next None x)]) = contents (l ++ (c, x) :: r)) as Ec by (by rewrite !contents_app, !contents_cons, (contents_nil r H2)).
  split; [|done]. replace (l ++ (c, x) :: r) with ((l ++ [(c, x)]) ++ r) in Hn, Hf, Ho by (by rewrite <- app_assoc). rewrite fmap_app in Hn, Hf.
  apply NoDup_app in Hn as (Hn & _). apply Forall_app in Hf as [Hf _]. apply Forall_app in Ho as [Ho _]. apply Forall_app in Ho as [Hol [Hox _]%Forall_cons].
  split; try done; [|by rewrite E4]. split.
  - rewrite E1. by apply (linked_graft _ _ _ _ r []).
  - done.
  - by rewrite (fst_edit _ _ x).
  - by rewrite (fst_edit _ _ x), E6.
  - apply Forall_app. split; [done|]. constructor; [|done]. destruct Hox. by split.
  - by rewrite E3, last_snoc.
  - by rewrite E5, Ht, Ec.
  - rewrite E4, Hp. by constructor.
Qed.

(** Room in place of the chains without data. *)
Lemma replace_empty_run b l c x r n : spot In b l c x r -> eb_n_add_for_cb b = 0 -> eb_n_del_for_cb b = 0 -> space x < n <= 2 ^ 61 ->
  exists res b', replace_empty oom junk n b = Ret (res, b') /\ expanded b (contents (l ++ (c, x) :: r)) n res b'.
Proof.
  intros Hs Ha Hd Hn. pose proof (spot_ok _ _ _ _ _ _ Hs) as Hx. pose proof (spot_hp _ _ _ _ _ _ Hs) as Hh. pose proof (sp_rep _ _ _ _ _ _ Hs) as Hr. pose proof (space_nonneg x Hx) as Hsp.
  pose proof (er_linked _ _ _ Hr) as Hl. pose proof Hl as [_ [_ Hlr]]%linked_app. pose proof (er_ok _ _ _ Hr) as Ho. apply Forall_app in Ho as [Hol [_ Hor]%Forall_cons].
  pose proof (sp_behind _ _ _ _ _ _ Hs) as Hnr. pose proof (er_fresh _ _ _ Hr) as Hf. pose proof (er_total _ _ _ Hr) as Ht.
  unfold replace_empty. rewrite (ebind_eq (ev eb_last_with_datap) _ b _ b eq_refl), (sp_ptr _ _ _ _ _ _ Hs), (ebind_eq _ _ _ _ _ (get_pp_run b l ((c, x) :: r) Hl Hh)).
  cbn [hd_ptr head fmap option_fmap option_map fst]. rewrite (ebind_eq _ _ _ _ _ (the_chain_run b l c x r Hh)).
  destruct (Z.eqb_spec (ch_off x) 0) as [E0|Hne].
  - assert (l = []) as -> by (destruct (sp_here _ _ _ _ _ _ Hs); [done|lia]). destruct Hl as [Hfirst _]. assert (Forall no_data ((c, x) :: r)) as Hnd by (by constructor).
    erewrite ebind_eq; cycle 1.
    { rewrite (ebind_eq (ev eb_first) _ b _ b eq_refl), Hfirst. rewrite bool_decide_true by done. by rewrite (ebind_eq (EVUTIL_ASSERT true) _ b tt b). }
    cbv beta iota. rewrite (ebind_eq (chain_fuel _) _ b _ _ (free_empty_run ((c, x) :: r) [] b (Some c) (S (S (base.size (eb_heap b)))) Hh ltac:(by split) ltac:(by constructor) Hnd ltac:(rewrite (rep_fuel _ _ _ Hr); cbn; lia))).
    rewrite Z.sub_0_r, u64_id by lia. set (b1 := set_heap _ b). destruct (chain_new_run oom junk b1 n ltac:(lia)) as (m & Hm1 & Hm2 & E). assert (contents ([] ++ (c, x) :: r) = []) as Enil by (by apply contents_nil). rewrite Enil in Ht |- *. cbn in Ht.
    destruct (oom (eb_count b1)) eqn:Eo; rewrite (ebind_eq _ _ _ _ _ E).
    + eexists _, _. split; [reflexivity|]. split; [done|]. right. split_and!; [done| |by eexists]. exists []. split_and!; [|done..]. split; try done; constructor.
    + eexists _, _. split; [reflexivity|]. split; [done|]. left. split; [done|]. exists [], (eb_count b), (blank junk (eb_count b) m), []. split_and!; [|done|done|done|rewrite space_blank; lia|].
      * split; try done; [|by left]. apply evrep_single; try done; [by apply blank_ok; lia|cbn; lia].
      * rewrite <- (app_nil_r []). apply room_open; [done| |unfold NUM_READ_IOVEC; destruct (space _ =? 0); cbn; lia|]; rewrite space_blank; cbn; lia.
  - rewrite (ebind_eq (mret (false, CHAIN_SPACE_LEN x, ch_next x)) _ b _ b eq_refl). rewrite space_len by done. fold (space x).
    rewrite (ebind_eq (chain_fuel _) _ b _ _ (free_empty_run r (l ++ [(c, x)]) b (ch_next x) (S (S (base.size (eb_heap b)))) ltac:(by rewrite <- app_assoc) Hlr Hor Hnr ltac:(rewrite (rep_fuel _ _ _ Hr), length_app; cbn; lia))).
    rewrite u64_id by lia. set (b1 := set_heap _ b). assert (hp b1 (l ++ [(c, x)])) as Hh1.
    { split; [done|]. destruct Hh as [_ Hnd]. replace (l ++ (c, x) :: r) with ((l ++ [(c, x)]) ++ r) in Hnd by (by rewrite <- app_assoc). rewrite fmap_app in Hnd. by apply NoDup_app in Hnd as (? & _). }
    assert (Forall (fun a => (a < eb_count b)%nat) (l ++ [(c, x)]).*1) as Hf1.
    { replace (l ++ (c, x) :: r) with ((l ++ [(c, x)]) ++ r) in Hf by (by rewrite <- app_assoc). rewrite fmap_app in Hf. by apply Forall_app in Hf as [? _]. }
    destruct (spot_cut b l c x r (set_last (Some c) (set_heap (list_to_map (l ++ [(c, set_next None x)])) b1)) Hs) as [Hs1 Ec]; try done.
    destruct (chain_new_run oom junk b1 (n - space x) ltac:(lia)) as (m & Hm1 & Hm2 & E). destruct (oom (eb_count b1)) eqn:Eo; rewrite (ebind_eq _ _ _ _ _ E).
    + erewrite ebind_eq; [|exact (edit_chain_run (set_last (Some c) (bump b1)) l c x [] (hp_same b1 _ _ eq_refl Hh1) (set_next None))].
      eexists _, _. split; [reflexivity|]. split; [done|]. right. split_and!; [done| |by eexists].
      rewrite <- Ec. apply (holds_setup In _ _ _ (sp_rep _ _ _ _ _ _ Hs1)); try done. cbn. lia.
    + pose proof (hp_new b1 _ _ (blank junk (eb_count b1) m) Hh1 Hf1) as Hh2. rewrite <- app_assoc in Hh2.
      erewrite ebind_eq; [|erewrite ebind_eq; [|exact (edit_chain_run _ l c x _ Hh2 (set_next (Some (eb_count b1))))]; reflexivity].
      eexists _, _. split; [reflexivity|]. split; [done|]. left. split; [done|].
      match goal with |- ready ?bb _ _ => destruct (spot_append _ l c (set_next None x) [] (eb_count b1) (blank junk (eb_count b1) m) bb Hs1) as (x' & Hsp' & Hspx & Hox & Ec'); try done end.
      * apply blank_ok. lia.
      * cbn. lia.
      * cbn [eb_heap set_last set_heap]. rewrite relink_app by done. cbn [relink]. by rewrite <- app_assoc.
      * exists l, c, x', [(eb_count b1, blank junk (eb_count b1) m)]. split_and!; [done|rewrite <- Ec; exact Ec'|done|done|rewrite Hspx, Hox; intros; pose proof (co_off _ Hx); cbn in *; lia|].
        rewrite <- (app_nil_r [(eb_count b1, _)]). change (space (set_next None x)) with (space x) in Hspx.
        apply room_open; rewrite ?Hspx; [constructor; [unfold roomy; cbn [snd]; rewrite space_blank; lia|done]|lia|unfold NUM_READ_IOVEC; destruct (space x =? 0); cbn; lia|].
        cbn [total_space snd]. rewrite space_blank. lia.
Qed.

Lemma relink_snoc (m : chains) lc lx q : relink (m ++ [(lc, lx)]) q = m ++ [(lc, set_next q lx)].
Proof. by rewrite relink_app. Qed.
(** One more chain behind a list that has too little room. *)
Lemma append_room b l c x r n a : spot In b l c x r -> eb_n_add_for_cb b = 0 -> eb_n_del_for_cb b = 0 -> (ch_off x = 0 -> 0 < space x) -> Forall roomy r -> a < n <= 2 ^ 61 -> 0 <= a ->
  a = space x + total_space r -> (if space x =? 0 then 0 else 1) + Z.of_nat (length r) < Z.of_nat NUM_READ_IOVEC ->
  exists res b', (t ← evbuffer_chain_new oom junk (u64 (n - a));
      match t with
      | None => mret (-1)
      | Some tmp =>
          l ← ev eb_last;
          '(lc, _) ← the_chain l;
          edit_chain lc (set_next (Some tmp)) ;;
          upd (set_last (Some tmp)) ;; mret 0
      end) b = Ret (res, b') /\ expanded b (contents (l ++ (c, x) :: r)) n res b'.
Proof.
  intros Hs Ha Hd Hx0 Hry Hn Ha0 Ea Hu. pose proof (sp_rep _ _ _ _ _ _ Hs) as Hr. pose proof (spot_ok _ _ _ _ _ _ Hs) as Hx. rewrite u64_id by lia.
  destruct (chain_new_run oom junk b (n - a) ltac:(lia)) as (m & Hm1 & Hm2 & E). destruct (oom (eb_count b)) eqn:Eo; rewrite (ebind_eq _ _ _ _ _ E).
  - eexists _, _. split; [reflexivity|]. split; [done|]. right. split_and!; [done| |by eexists]. apply (holds_setup In _ _ _ Hr); try done. cbn. lia.
  - pose proof (er_last _ _ _ Hr) as Hla. destruct (last (l ++ (c, x) :: r)) as [[lc lx]|] eqn:El; [|by apply last_None in El; destruct l]. cbn in Hla.
    pose proof El as [ms Ems]%last_Some. pose proof (hp_new b _ _ (blank junk (eb_count b) m) (er_hp _ _ _ Hr) (er_fresh _ _ _ Hr)) as Hh2. rewrite Ems, <- app_assoc in Hh2. cbn [app] in Hh2.
    set (b1 := set_heap _ (bump b)) in *. rewrite (ebind_eq (ev eb_last) _ b1 (Some lc) b1) by (unfold ev; cbn; by rewrite Hla).
    rewrite (ebind_eq _ _ _ _ _ (the_chain_run b1 ms lc lx _ Hh2)). cbv beta iota. rewrite (ebind_eq _ _ _ _ _ (edit_chain_run b1 ms lc lx _ Hh2 _)).
    eexists _, _. split; [reflexivity|]. split; [done|]. left. split; [done|].
    match goal with |- ready ?bb _ _ => destruct (spot_append b l c x r (eb_count b) (blank junk (eb_count b) m) bb Hs) as (x' & Hsp' & Hspx & Hox & Ec'); try done end.
    + apply blank_ok. lia.
    + cbn. lia.
    + cbn [eb_heap set_last set_heap]. rewrite Ems, relink_snoc. by rewrite <- app_assoc.
    + exists l, c, x', (relink r (Some (eb_count b)) ++ [(eb_count b, blank junk (eb_count b) m)]). split_and!; [done|done|done|done| |].
      { rewrite Hspx, Hox. intros. pose proof (co_off _ Hx). destruct (decide (ch_off x = 0)); [specialize (Hx0 ltac:(done))|]; lia. }
      rewrite <- (app_nil_r (relink r _ ++ _)). pose proof (space_nonneg x Hx). apply room_open; rewrite ?Hspx.
      * apply Forall_app. split; [by apply relink_Forall|]. constructor; [unfold roomy; cbn [snd]; rewrite space_blank; lia|done].
      * lia.
      * rewrite length_app, relink_length. cbn [length]. lia.
      * rewrite total_space_app, relink_space. cbn [total_space snd]. rewrite space_blank. lia.
Qed.

(** Making room keeps the contents. *)
Lemma expand_fast_run b bs n : holds In b bs -> 0 < n <= 2 ^ 61 ->
  exists res b', _evbuffer_expand_fast oom junk n (Z.of_nat NUM_READ_IOVEC) b = Ret (res, b') /\ expanded b bs n res b'.
Proof.
  intros (cs & Hr & <- & Ha & Hd) Hn. unfold _evbuffer_expand_fast. rewrite (ebind_eq (EVUTIL_ASSERT _) _ b tt b) by done.
  rewrite (ebind_eq (ev eb_last) _ b _ b eq_refl), (er_last _ _ _ Hr). destruct (rep_spot _ _ _ Hr) as [[-> Hp]|(l & c & x & r & -> & Hs)].
  - cbn [last fmap option_fmap option_map]. rewrite (ebind_eq (mret false) _ b false b) by done. cbn [negb]. pose proof (er_heap _ _ _ Hr) as Hh. pose proof (er_linked _ _ _ Hr) as Hf. cbn in Hh, Hf.
    pose proof (er_total _ _ _ Hr) as Ht. cbn in Ht. unfold evbuffer_chain_insert_new. destruct (chain_new_run oom junk b n ltac:(lia)) as (m & Hm1 & Hm2 & E).
    destruct (oom (eb_count b)) eqn:Eo.
    + eexists _, _. rewrite (ebind_eq _ _ b None (bump b)) by (by rewrite (ebind_eq _ _ _ _ _ E)). split; [reflexivity|]. split; [done|]. right. split_and!; [done| |by eexists].
      apply (holds_setup In _ _ _ Hr); try done. cbn. lia.
    + set (b1 := set_heap _ _) in E. assert (hp b1 [(eb_count b, blank junk (eb_count b) m)]) as Hh1 by (split; [cbn; by rewrite Hh|apply NoDup_singleton]).
      rewrite (ebind_eq _ _ b (Some (eb_count b)) _) by (rewrite (ebind_eq _ _ _ _ _ E), (ebind_eq _ _ _ _ _ (insert_first b1 (eb_count b) _ Hf Hp Hh1)); reflexivity).
      eexists _, _. split; [reflexivity|]. split; [done|]. left. split; [done|]. exists [], (eb_count b), (blank junk (eb_count b) m), []. split_and!; [|done|done|done|rewrite space_blank; lia|].
      * split; try done; [|by left]. apply evrep_single; try done; [apply blank_ok; lia|cbn; lia|cbn; by rewrite Hh|cbn; by rewrite Ht].
      * rewrite <- (app_nil_r []). apply room_open; [done| |unfold NUM_READ_IOVEC; destruct (space _ =? 0); cbn; lia|]; rewrite space_blank; cbn; lia.
  - destruct (last (l ++ (c, x) :: r)) as [[lc lx]|] eqn:El; [|by apply last_None in El; destruct l]. cbn [fmap option_fmap option_map fst].
    rewrite (ebind_eq _ _ b true b).
    2:{ apply last_Some in El as [ms Ems]. pose proof (er_hp _ _ _ Hr) as Hh. pose proof (er_ok _ _ _ Hr) as Ho. rewrite Ems in Hh, Ho. rewrite (ebind_eq _ _ _ _ _ (chain_run b ms lc lx [] Hh)).
        apply Forall_app in Ho as [_ [Ho _]%Forall_cons]. by rewrite no_flags by apply Ho. }
    cbn [negb]. rewrite (ebind_eq (ev eb_last_with_datap) _ b _ b eq_refl), (sp_ptr _ _ _ _ _ _ Hs), (ebind_eq _ _ _ _ _ (get_pp_run b l ((c, x) :: r) (er_linked _ _ _ Hr) (er_hp _ _ _ Hr))).
    cbn [hd_ptr head fmap option_fmap option_map fst]. destruct (expand_loop_run b l c x r n (Z.of_nat NUM_READ_IOVEC) Hs Hn ltac:(done)) as (r1 & r2 & res & -> & E & Hres). rewrite (ebind_eq _ _ _ _ _ E).
    pose proof (spot_realigned b l c x r1 r2 Hs) as Hs1. set (b1 := set_heap _ b) in *. pose proof (spot_ok _ _ _ _ _ _ Hs) as Hx. destruct (realigned_ok x Hx) as (Hrx & Hcx & Hnx & Hox).
    assert (contents (l ++ (c, realigned x) :: realigned_all r1 ++ r2) = contents (l ++ (c, x) :: r1 ++ r2)) as Ec.
    { pose proof (er_ok _ _ _ Hr) as Ho. apply Forall_app in Ho as [_ [_ Ho]%Forall_cons]. apply Forall_app in Ho as [Ho _]. rewrite !contents_app, !contents_cons, !contents_app. cbn [snd]. by rewrite Hcx, realigned_all_contents. }
    assert (ch_off (realigned x) = 0 -> 0 < space (realigned x)) as Hsp0 by (rewrite Hox; intros E0; rewrite (realigned_space x Hx E0); apply Hx).
    pose proof (er_ok _ _ _ (sp_rep _ _ _ _ _ _ Hs1)) as Ho1. apply Forall_app in Ho1 as [_ [_ Ho1]%Forall_cons]. apply Forall_app in Ho1 as [Ho11 Ho12]. rewrite <- Ec.
    assert (length (realigned_all r1) = length r1) as Hlr by apply length_map. assert (Forall roomy (realigned_all r1)) as Hry.
    { pose proof (er_ok _ _ _ Hr) as Ho. apply Forall_app in Ho as [_ [_ Ho]%Forall_cons]. apply Forall_app in Ho as [Ho _]. pose proof (sp_behind _ _ _ _ _ _ Hs) as Hb. apply Forall_app in Hb as [Hb _]. by apply roomy_realigned. } pose proof (space_nonneg _ Hrx). pose proof (total_space_nonneg _ Ho11).
    destruct res as [[a u]|].
    + destruct Hres as (-> & Hlt & -> & Hend). destruct (Z.ltb_spec ((if space (realigned x) =? 0 then 0 else 1) + Z.of_nat (length r1)) (Z.of_nat NUM_READ_IOVEC)) as [Hu|Hu].
      * destruct Hend as [?|[-> _]]; [lia|]. rewrite app_nil_r in *. apply (append_room b1 l c (realigned x) (realigned_all r1) n _ Hs1); try done; lia.
      * apply (replace_empty_run b1 l c (realigned x) (realigned_all r1 ++ r2) n Hs1); try done. lia.
    + destruct Hres as [Hok Hu]. eexists _, _. split; [reflexivity|]. split; [done|]. left. split; [done|]. exists l, c, (realigned x), (realigned_all r1 ++ r2). split_and!; try done.
      * intros E0. pose proof (co_off _ Hrx). destruct (decide (ch_off (realigned x) = 0)); [specialize (Hsp0 ltac:(done))|]; lia.
      * apply room_open; [done|lia|by rewrite Hlr|lia].
Qed.
End expand.

(** ** Vectors *)

Fixpoint vecs_of (fuel : nat) (ws : chains) (h : Z) : list (nat * Z) :=
  match fuel, ws with
  | S fuel, e :: ws => if 0 <? h then (e.1, Z.min h (space e.2)) :: vecs_of fuel ws (h - Z.min h (space e.2)) else []
  | _, _ => []
  end.
Lemma setup_loop_run b howmuch : forall fuel ws pre so_far, hp b (pre ++ ws) -> linked (hd_ptr ws) ws -> Forall (fun e => chain_ok e.2) ws ->
  howmuch - so_far <= total_space (take fuel ws) -> setup_loop fuel (hd_ptr ws) howmuch so_far b = Ret (vecs_of fuel ws (howmuch - so_far), b).
Proof.
  induction fuel as [|fuel IH]; intros ws pre so_far Hh Hl Ho Ht; [done|]. cbn [setup_loop]. destruct (Z.ltb_spec so_far howmuch) as [Hlt|Hge].
  - destruct ws as [|[c x] ws]; [cbn in Ht; lia|]. apply Forall_cons in Ho as [Hx Ho]. destruct Hl as [_ Hl]. cbn [take total_space snd] in Ht, Hx.
    cbn [hd_ptr head fmap option_fmap option_map fst]. rewrite (ebind_eq _ _ _ _ _ (the_chain_run b pre c x ws Hh)), space_len by done. fold (space x).
    replace (if howmuch - so_far <? space x then howmuch - so_far else space x) with (Z.min (howmuch - so_far) (space x)) by (destruct (Z.ltb_spec (howmuch - so_far) (space x)); lia).
    cbn [vecs_of]. destruct (Z.ltb_spec 0 (howmuch - so_far)); [|lia]. cbn [fst snd]. pose proof (linked_hd _ _ Hl) as En. rewrite En in Hl |- *.
    pose proof (total_space_nonneg _ (Forall_take _ fuel _ Ho)).
    rewrite (ebind_eq _ _ _ _ _ (IH ws (pre ++ [(c, x)]) (so_far + Z.min (howmuch - so_far) (space x)) ltac:(by rewrite <- app_assoc) Hl Ho ltac:(lia))).
    replace (howmuch - (so_far + Z.min (howmuch - so_far) (space x))) with (howmuch - so_far - Z.min (howmuch - so_far) (space x)) by lia. done.
  - destruct ws as [|[c x] ws]; [done|]. cbn [vecs_of]. destruct (Z.ltb_spec 0 (howmuch - so_far)); [lia|done].
Qed.
Lemma vecs_sum : forall fuel ws h, Forall (fun e => chain_ok e.2) ws -> 0 <= h <= total_space (take fuel ws) -> foldr Z.add 0 (map snd (vecs_of fuel ws h)) = h.
Proof.
  induction fuel as [|fuel IH]; intros ws h Ho Hh; [rewrite take_0 in Hh; cbn in *; lia|]. destruct ws as [|[c x] ws]; [cbn in *; lia|]. apply Forall_cons in Ho as [Hx Ho]. cbn [vecs_of take total_space snd] in *.
  destruct (Z.ltb_spec 0 h); [|cbn; lia]. cbn [map foldr snd]. pose proof (total_space_nonneg _ (Forall_take _ fuel _ Ho)). rewrite IH; [lia|done|lia].
Qed.

(** What [readv] writes into the chains. *)
Definition written (x : evbuffer_chain) (d : bytes) : evbuffer_chain :=
  set_buffer (take (Z.to_nat (ch_misalign x + ch_off x)) (ch_buffer x) ++ d ++ drop (Z.to_nat (ch_misalign x + ch_off x) + length d) (ch_buffer x)) x.
Fixpoint written_all (ws : chains) (d : bytes) : chains :=
  match ws with
  | [] => []
  | e :: ws => (e.1, written e.2 (take (Z.to_nat (space e.2)) d)) :: written_all ws (drop (Z.to_nat (space e.2)) d)
  end.
Lemma written_nil x : written x [] = x.
Proof. unfold written. cbn [app length]. rewrite Nat.add_0_r, take_drop. by destruct x. Qed.
Lemma written_all_nil ws : written_all ws [] = ws.
Proof. induction ws as [|[c x] ws IH]; [done|]. cbn. rewrite take_nil, drop_nil, written_nil, IH. done. Qed.
Lemma written_all_fst ws d : (written_all ws d).*1 = ws.*1.
Proof. revert d. induction ws as [|e ws IH]; intros d; [done|]. cbn. by rewrite IH. Qed.
Lemma scatter_run : forall fuel ws pre b h d, hp b (pre ++ ws) -> Forall (fun e => chain_ok e.2) ws -> Z.of_nat (length d) <= h <= total_space (take fuel ws) ->
  scatter (vecs_of fuel ws h) d b = Ret (tt, set_heap (list_to_map (pre ++ written_all ws d)) b).
Proof.
  induction fuel as [|fuel IH]; intros ws pre b h d Hh Ho Hd.
  { rewrite take_0 in Hd. destruct d; [|cbn in Hd; lia]. rewrite written_all_nil, (set_heap_id b _ (proj1 Hh)). done. }
  destruct ws as [|[c x] ws]; [destruct d; [|cbn in Hd; lia]; rewrite written_all_nil, (set_heap_id b _ (proj1 Hh)); done|].
  cbn [vecs_of]. destruct (Z.ltb_spec 0 h).
  2:{ destruct d; [|cbn in Hd; lia]. rewrite written_all_nil, (set_heap_id b _ (proj1 Hh)). done. }
  apply Forall_cons in Ho as [Hx Ho]. cbn [fst snd] in *. cbn [take total_space snd] in Hd. pose proof (space_nonneg x Hx) as Hsp.
  assert (take (Z.to_nat (Z.min h (space x))) d = take (Z.to_nat (space x)) d /\ drop (Z.to_nat (Z.min h (space x))) d = drop (Z.to_nat (space x)) d) as [Et Ed].
  { destruct (Z.le_gt_cases (space x) h); [by rewrite Z.min_r|]. rewrite Z.min_l by lia. by rewrite !take_ge, !drop_ge by lia. }
  cbn [scatter]. rewrite Et, Ed. rewrite (ebind_eq _ _ _ _ _ (chain_run b pre c x ws Hh)). set (d1 := take (Z.to_nat (space x)) d).
  assert (Z.of_nat (length d1) <= space x) as Hl1 by (unfold d1; rewrite length_take; lia). pose proof Hx as [? ? ? ? ? ? ?].
  rewrite (ebind_eq _ _ _ _ _ (memcpy_to_run b pre c x ws Hh (ch_misalign x + ch_off x) d1 ltac:(lia) ltac:(unfold space in Hl1; lia))).
  set (b1 := set_heap _ b). assert (hp b1 ((pre ++ [(c, written x d1)]) ++ ws)) as Hh1 by (rewrite <- app_assoc; by apply (hp_set b pre c x)).
  pose proof (total_space_nonneg _ (Forall_take _ fuel _ Ho)).
  rewrite (IH ws _ b1 (h - Z.min h (space x)) (drop (Z.to_nat (space x)) d) Hh1 Ho); [|rewrite length_drop; lia]. unfold b1. rewrite set_heap_twice. cbn [written_all fst snd].
  fold d1. by rewrite <- app_assoc.
Qed.

(** The ends moved over the bytes read. *)
Fixpoint filled_all (ws : chains) (d : bytes) : chains :=
  match ws with
  | [] => []
  | e :: ws => if Z.of_nat (length d) <=? space e.2 then (e.1, filled e.2 d) :: ws
               else (e.1, filled e.2 (take (Z.to_nat (space e.2)) d)) :: filled_all ws (drop (Z.to_nat (space e.2)) d)
  end.
(** Where the data ends. *)
Fixpoint full_part (ws : chains) (d : bytes) : nat :=
  match ws with
  | [] => O
  | e :: ws => if Z.of_nat (length d) <=? space e.2 then O else S (full_part ws (drop (Z.to_nat (space e.2)) d))
  end.
Lemma filled_all_fst ws d : (filled_all ws d).*1 = ws.*1.
Proof. revert d. induction ws as [|e ws IH]; intros d; [done|]. cbn. destruct (Z.of_nat (length d) <=? space e.2); [done|]. cbn. by rewrite IH. Qed.
Lemma commit_loop_run : forall fuel ws pre b h d, linked (eb_first b) (pre ++ written_all ws d) -> hp b (pre ++ written_all ws d) -> Forall (fun e => chain_ok e.2) ws ->
  0 < Z.of_nat (length d) <= h -> h <= total_space (take fuel ws) ->
  commit_loop (length (vecs_of fuel ws h)) (ptr_to pre) (Z.of_nat (length d)) b =
    Ret (tt, set_datap (ptr_to (pre ++ take (full_part ws d) (filled_all ws d))) (set_heap (list_to_map (pre ++ filled_all ws d)) b)).
Proof.
  induction fuel as [|fuel IH]; intros ws pre b h d Hl Hh Ho Hd Ht; [rewrite take_0 in Ht; cbn in Ht; lia|]. destruct ws as [|[c x] ws]; [cbn in Ht; lia|].
  apply Forall_cons in Ho as [Hx Ho]. cbn [vecs_of written_all filled_all full_part take total_space fst snd] in *. destruct (Z.ltb_spec 0 h); [|lia]. cbn [length commit_loop].
  rewrite (ebind_eq _ _ _ _ _ (get_pp_run b pre _ Hl Hh)). cbn [hd_ptr head fmap option_fmap option_map fst]. set (d1 := take (Z.to_nat (space x)) d) in *.
  rewrite (ebind_eq _ _ _ _ _ (the_chain_run b pre c (written x d1) _ Hh)). pose proof (space_nonneg x Hx) as Hsp.
  assert (CHAIN_SPACE_LEN (written x d1) = space x) as Es by exact (space_len x Hx). rewrite Es.
  destruct (Z.leb_spec (Z.of_nat (length d)) (space x)) as [Hfit|Hmore]; (destruct (Z.ltb_spec (space x) (Z.of_nat (length d))); [try lia|try lia]).
  - rewrite (ebind_eq _ _ _ _ _ (edit_chain_run b pre c _ _ Hh _)). unfold d1. rewrite take_ge, drop_ge, written_all_nil by lia. cbn [take]. rewrite app_nil_r. done.
  - assert (length d1 = Z.to_nat (space x)) as Hl1 by (unfold d1; rewrite length_take; lia).
    rewrite (ebind_eq _ _ _ _ _ (edit_chain_run b pre c _ _ Hh _)).
    assert (set_off (ch_off (written x d1) + space x) (written x d1) = filled x d1) as Ef by (unfold filled, written; cbn; by rewrite Hl1, Z2Nat.id by lia). rewrite Ef.
    set (b1 := set_heap _ b). rewrite <- (ptr_to_snoc pre c (filled x d1)). replace (Z.of_nat (length d) - space x) with (Z.of_nat (length (drop (Z.to_nat (space x)) d))) by (rewrite length_drop; lia).
    assert (hp b1 ((pre ++ [(c, filled x d1)]) ++ written_all ws (drop (Z.to_nat (space x)) d))) as Hh1 by (rewrite <- app_assoc; by apply (hp_set b pre c (written x d1))).
    assert (linked (eb_first b1) ((pre ++ [(c, filled x d1)]) ++ written_all ws (drop (Z.to_nat (space x)) d))) as Hl1' by (rewrite <- app_assoc; by apply (linked_edit _ _ _ (written x d1))).
    rewrite Z.min_r by lia. rewrite (IH ws _ b1 (h - space x) (drop (Z.to_nat (space x)) d) Hl1' Hh1 Ho); [|rewrite length_drop; lia|lia].
    unfold b1. rewrite set_heap_twice. cbn [take]. rewrite <- !app_assoc. done.
Qed.
Lemma filled_linked : forall ws p d, linked p ws -> linked p (filled_all ws d).
Proof.
  induction ws as [|[c x] ws IH]; intros p d; [done|]. intros [-> H]. cbn. destruct (Z.of_nat (length d) <=? space x); [by split|]. split; [done|]. by apply IH.
Qed.
Lemma linked_suffix p pre ws ws' : linked p (pre ++ ws) -> (forall q, linked q ws -> linked q ws') -> linked p (pre ++ ws').
Proof. revert p. induction pre as [|[c x] pre IH]; intros p H Hw; [by apply Hw|]. destruct H as [-> H]. split; [done|]. by apply IH. Qed.
Lemma filled_contents ws d : Forall (fun e => chain_ok e.2) ws -> Forall no_data (tail ws) -> 0 < Z.of_nat (length d) <= total_space ws ->
  contents (filled_all ws d) = contents ws ++ d.
Proof.
  revert d. induction ws as [|[c x] ws IH]; intros d Ho Hn Hd; [cbn in Hd; lia|]. apply Forall_cons in Ho as [Hx Ho]. cbn [tail total_space snd filled_all fst] in *.
  rewrite !contents_cons, (contents_nil ws Hn). cbn [snd]. rewrite app_nil_r. pose proof (space_nonneg x Hx). destruct (Z.leb_spec (Z.of_nat (length d)) (space x)) as [Hfit|Hmore].
  - rewrite contents_cons, (contents_nil ws Hn), app_nil_r. by destruct (filled_ok x d Hx Hfit) as (_ & Hc & _).
  - assert (length (take (Z.to_nat (space x)) d) = Z.to_nat (space x)) as Hl by (rewrite length_take; lia). rewrite contents_cons. cbn [snd].
    destruct (filled_ok x (take (Z.to_nat (space x)) d) Hx ltac:(fold (space x); lia)) as (_ & -> & _).
    rewrite IH; [|done|destruct ws; [done|by apply Forall_cons in Hn as [_ ?]]|rewrite length_drop; lia]. rewrite (contents_nil ws Hn). cbn [app]. by rewrite <- app_assoc, take_drop.
Qed.
(** Where the bytes read end: chains with data, the last of them, and chains
    as they were. *)
Lemma filled_split ws1 : forall ws2 d, Forall (fun e => chain_ok e.2) (ws1 ++ ws2) -> Forall no_data (tail (ws1 ++ ws2)) -> Forall roomy ws1 -> 0 < Z.of_nat (length d) <= total_space ws1 ->
  exists f c x r, filled_all (ws1 ++ ws2) d = f ++ (c, x) :: r /\ take (full_part (ws1 ++ ws2) d) (filled_all (ws1 ++ ws2) d) = f /\
    Forall (fun e => chain_ok e.2) (f ++ (c, x) :: r) /\ Forall has_data f /\ 0 < ch_off x /\ Forall no_data r.
Proof.
  induction ws1 as [|[c x] ws1 IH]; intros ws2 d Ho Hn Hr Hd; [cbn in Hd; lia|]. apply Forall_cons in Ho as [Hx Ho], Hr as [Hrx Hr]. cbn [app tail total_space snd filled_all full_part fst] in *.
  unfold roomy in Hrx. cbn [snd] in Hrx, Hx. pose proof (co_off _ Hx). destruct (Z.leb_spec (Z.of_nat (length d)) (space x)) as [Hfit|Hmore].
  - exists [], c, (filled x d), (ws1 ++ ws2). destruct (filled_ok x d Hx Hfit) as (Hf & _). split_and!; [done|done|by constructor|done|cbn; lia|done].
  - assert (length (take (Z.to_nat (space x)) d) = Z.to_nat (space x)) as Hl by (rewrite length_take; lia).
    destruct (filled_ok x (take (Z.to_nat (space x)) d) Hx ltac:(fold (space x); lia)) as (Hf & _).
    destruct (IH ws2 (drop (Z.to_nat (space x)) d) Ho) as (f & c' & x' & r & E & Et & Ho' & Hdf & Hox & Hnr); [destruct (ws1 ++ ws2); [done|by apply Forall_cons in Hn as [_ ?]]|done|rewrite length_drop; lia|].
    exists ((c, filled x (take (Z.to_nat (space x)) d)) :: f), c', x', r. rewrite E in Et |- *. cbn [take app]. rewrite Et. split_and!; [done|done|by constructor| |done|done].
    constructor; [|done]. unfold has_data. cbn. lia.
Qed.

(** ** Receiving *)

Section transfer.
Context (oom : nat -> bool) (junk : nat -> nat -> Z).

(** How much is asked of the socket. *)
Definition read_size (readable howmuch : Z) : Z :=
  let n := if (readable <=? 0) || (EVBUFFER_MAX_READ <? readable) then EVBUFFER_MAX_READ else readable in
  if (howmuch <? 0) || (n <? howmuch) then n else howmuch.
Lemma read_size_max readable howmuch : howmuch <> 0 -> 0 < read_size readable howmuch <= EVBUFFER_MAX_READ.
Proof.
  intros H. unfold read_size. set (n := if _ || _ then _ else readable).
  assert (0 < n <= EVBUFFER_MAX_READ) as Hn by (unfold n, EVBUFFER_MAX_READ; destruct (Z.leb_spec readable 0), (Z.ltb_spec 4096 readable); cbn [orb]; lia).
  clearbody n. destruct (Z.ltb_spec howmuch 0), (Z.ltb_spec n howmuch); cbn [orb]; lia.
Qed.
(** What a call of [evbuffer_read] does to a buffer that holds [bs]. *)
Definition received (b : evbuffer) (bs : bytes) (got : option bytes) (res : Z * list cb_info) (b' : evbuffer) : Prop :=
  same_setup b b' /\
  ((res = (-1, []) /\ holds In b' bs /\ exists n, oom n = true) \/
   match got with
   | None => res = (-1, []) /\ holds In b' bs
   | Some data => res = (Z.of_nat (length data), told b (Z.of_nat (length bs)) (Z.of_nat (length data)) 0) /\ holds In b' (bs ++ data)
   end).

Lemma ready_holds b bs n : ready b bs n -> holds In b bs.
Proof. intros (l & c & x & r & Hs & Hc & Ha & Hd & _). exists (l ++ (c, x) :: r). split_and!; [apply Hs|done|done|done]. Qed.

(** The bytes of a read behind the data. *)
Lemma evrep_filled b cs pre ws1 ws2 data b' : evrep In b cs -> cs = pre ++ ws1 ++ ws2 -> Forall has_data pre -> Forall no_data (tail (ws1 ++ ws2)) -> Forall roomy ws1 ->
  0 < Z.of_nat (length data) <= total_space ws1 -> eb_first b' = eb_first b -> eb_last b' = eb_last b -> eb_count b' = eb_count b ->
  eb_heap b' = list_to_map (pre ++ filled_all (ws1 ++ ws2) data) -> eb_last_with_datap b' = ptr_to (pre ++ take (full_part (ws1 ++ ws2) data) (filled_all (ws1 ++ ws2) data)) ->
  eb_total_len b' = eb_total_len b + Z.of_nat (length data) ->
  evrep In b' (pre ++ filled_all (ws1 ++ ws2) data) /\ contents (pre ++ filled_all (ws1 ++ ws2) data) = contents cs ++ data.
Proof.
  intros [Hl Hh Hn Hf Ho Hla Ht Hd] -> Hpre Htail Hr Hdata E1 E2 E3 E4 E5 E6. apply Forall_app in Ho as [Hop Hows].
  assert ((pre ++ filled_all (ws1 ++ ws2) data).*1 = (pre ++ ws1 ++ ws2).*1) as Efst by (by rewrite !(fmap_app fst pre), filled_all_fst).
  assert (contents (pre ++ filled_all (ws1 ++ ws2) data) = contents (pre ++ ws1 ++ ws2) ++ data) as Ec.
  { rewrite !(contents_app pre), filled_contents, app_assoc; [done|done|done|]. rewrite total_space_app. apply Forall_app in Hows as [_ Hows]. pose proof (total_space_nonneg _ Hows). lia. }
  split; [|done]. destruct (filled_split ws1 ws2 data Hows Htail Hr Hdata) as (f & c & x & r & Ef & Et & Hof & Hdf & Hox & Hnr). split.
  - rewrite E1. eapply linked_suffix; [exact Hl|]. intros q. apply filled_linked.
  - done.
  - by rewrite Efst.
  - by rewrite Efst, E3.
  - rewrite Ef. by apply Forall_app.
  - by rewrite E2, Hla, <- !fmap_last, Efst.
  - rewrite E6, Ht, Ec, length_app. lia.
  - rewrite E5, Et, Ef, app_assoc. constructor; [by apply Forall_app|done|done|by right].
Qed.
(** From the vectors on. *)
Lemma fill_run b bs h got b0 : ready b bs h -> 0 < h <= EVBUFFER_MAX_READ -> Z.of_nat (length bs) < 2 ^ 60 -> (forall data, got h = Some data -> Z.of_nat (length data) <= h) -> same_setup b0 b ->
  exists res b', ('(vecs, pp) ← _evbuffer_read_setup_vecs h NUM_READ_IOVEC;
      match got (foldr Z.add 0 (map snd vecs)) with
      | None => mret (-1, [])
      | Some [] => mret (0, [])
      | Some data =>
          scatter vecs data ;;
          commit_loop (length vecs) pp (Z.of_nat (length data)) ;;
          add_total (Z.of_nat (length data)) ;;
          count_add (Z.of_nat (length data)) ;;
          l ← evbuffer_invoke_callbacks;
          mret (Z.of_nat (length data), l)
      end) b = Ret (res, b') /\ received b0 bs (got h) res b'.
Proof.
  intros Hrd Hh Hbs Hgot Hset. pose proof (ready_holds _ _ _ Hrd) as Hhold. destruct Hrd as (l & c & x & r & Hs & Hc & Ha & Hd & Hx0 & ws1 & ws2 & Ew & Hw1 & Hw2 & Hw3).
  unfold EVBUFFER_MAX_READ in Hh. pose proof (sp_rep _ _ _ _ _ _ Hs) as Hr. pose proof (spot_ok _ _ _ _ _ _ Hs) as Hx. pose proof (er_linked _ _ _ Hr) as Hl. pose proof (er_hp _ _ _ Hr) as Hhp. pose proof (er_ok _ _ _ Hr) as Ho.
  assert (exists pre, l ++ (c, x) :: r = pre ++ open_chains c x r /\ (if CHAIN_SPACE_LEN x =? 0 then P_next c else ptr_to l) = ptr_to pre /\ Forall has_data pre /\ Forall no_data (tail (open_chains c x r))) as (pre & Epre & Epp & Hpre & Htail).
  { rewrite space_len by done. fold (space x). unfold open_chains. pose proof (sp_behind _ _ _ _ _ _ Hs) as Hnr. pose proof (sp_before _ _ _ _ _ _ Hs) as Hbl. destruct (Z.eqb_spec (space x) 0) as [E0|].
    - exists (l ++ [(c, x)]). split_and!; [by rewrite <- app_assoc|by rewrite ptr_to_snoc|apply Forall_app; split; [done|constructor; [by apply Hx0|done]]|]. destruct r; [done|by apply Forall_cons in Hnr as [_ ?]].
    - by exists l. }
  rewrite Ew in *. assert (Forall (fun e => chain_ok e.2) (ws1 ++ ws2)) as Hows by (rewrite Epre in Ho; by apply Forall_app in Ho as [_ ?]).
  assert (h <= total_space (take NUM_READ_IOVEC (ws1 ++ ws2))) as Htake.
  { rewrite take_app_ge by done. rewrite total_space_app. apply Forall_app in Hows as [_ Hows]. pose proof (total_space_nonneg _ (Forall_take _ (NUM_READ_IOVEC - length ws1) _ Hows)). lia. }
  rewrite Epre in Hl, Hhp. pose proof Hl as [_ Hlw]%linked_app.
  unfold _evbuffer_read_setup_vecs. erewrite ebind_eq; cycle 1.
  { rewrite (ebind_eq (ev eb_last_with_datap) _ b _ b eq_refl), (sp_ptr _ _ _ _ _ _ Hs), (ebind_eq _ _ _ _ _ (get_pp_run b l ((c, x) :: r) (er_linked _ _ _ Hr) (er_hp _ _ _ Hr))).
    cbn [hd_ptr head fmap option_fmap option_map fst]. rewrite (ebind_eq _ _ _ _ _ (the_chain_run b l c x r (er_hp _ _ _ Hr))). cbv beta iota. rewrite Epp.
    rewrite (ebind_eq _ _ _ _ _ (get_pp_run b pre (ws1 ++ ws2) Hl Hhp)), (ebind_eq _ _ _ _ _ (setup_loop_run b h NUM_READ_IOVEC (ws1 ++ ws2) pre 0 Hhp Hlw Hows ltac:(lia))). reflexivity. }
  cbv beta iota. rewrite Z.sub_0_r, vecs_sum by (done || lia). destruct (got h) as [[|d0 data']|] eqn:Eg.
  - eexists _, _. split; [reflexivity|]. split; [done|]. right. unfold told. cbn. split; [done|]. by rewrite app_nil_r.
  - set (data := d0 :: data') in *. pose proof (Hgot data eq_refl) as Hlen. assert (0 < Z.of_nat (length data)) as Hpos by (cbn; lia).
    rewrite (ebind_eq _ _ _ _ _ (scatter_run NUM_READ_IOVEC (ws1 ++ ws2) pre b h data Hhp Hows ltac:(lia))). set (b1 := set_heap _ b).
    assert (hp b1 (pre ++ written_all (ws1 ++ ws2) data)) as Hh1 by (split; [done|]; destruct Hhp as [_ Hnd]; rewrite fmap_app in Hnd |- *; by rewrite written_all_fst).
    assert (linked (eb_first b1) (pre ++ written_all (ws1 ++ ws2) data)) as Hl1.
    { eapply linked_suffix; [exact Hl|]. clear. intros q. generalize data. generalize (ws1 ++ ws2). clear. intros ws. revert q. induction ws as [|[c x] ws IH]; intros q d; [done|]. cbn. intros [-> H]. split; [done|]. by apply IH. }
    rewrite (ebind_eq _ _ _ _ _ (commit_loop_run NUM_READ_IOVEC (ws1 ++ ws2) pre b1 h data Hl1 Hh1 Hows ltac:(lia) Htake)).
    set (b2 := set_datap _ _). pose proof (er_total _ _ _ Hr) as Ht. rewrite Hc in Ht. unfold add_total, count_add. rewrite (ebind_eq (upd _) _ b2 tt _ eq_refl), (ebind_eq (upd _) _ _ tt _ eq_refl).
    set (n := Z.of_nat (length data)) in *. set (b3 := set_counts _ _ _).
    assert (eb_n_add_for_cb b3 = n /\ eb_n_del_for_cb b3 = 0 /\ eb_total_len b3 = Z.of_nat (length bs) + n) as (F1 & F2 & F3) by (cbn; rewrite Ha, Hd, Ht, !u64_id by lia; lia).
    rewrite (ebind_eq _ _ _ _ _ (invoke_run b3 (Z.of_nat (length bs)) ltac:(lia) ltac:(lia) ltac:(lia) ltac:(lia))). rewrite F1, F2.
    eexists _, _. split; [reflexivity|]. split; [done|]. right. split; [unfold told; change (eb_callbacks b3) with (eb_callbacks b); by destruct Hset as (_ & _ & ->)|].
    destruct (evrep_filled b _ pre ws1 ws2 data (set_counts 0 0 b3) Hr Epre Hpre Htail Hw3 ltac:(lia)) as [Hrep Hcon]; try done.
    { change (eb_total_len b3 = eb_total_len b + n). rewrite F3, Ht. done. }
    exists (pre ++ filled_all (ws1 ++ ws2) data). by rewrite Hcon, Hc.
  - eexists _, _. split; [reflexivity|]. split; [done|]. by right.
Qed.

(** A read puts what the socket gave behind the contents. *)
Lemma evbuffer_read_run b bs readable got howmuch : holds In b bs -> eb_freeze_end b = false -> howmuch <> 0 -> Z.of_nat (length bs) < 2 ^ 60 ->
  (forall data, got (read_size readable howmuch) = Some data -> Z.of_nat (length data) <= read_size readable howmuch) ->
  exists res b', evbuffer_read oom junk readable got howmuch b = Ret (res, b') /\ received b bs (got (read_size readable howmuch)) res b'.
Proof.
  intros Hb Hz Hh Hlen Hgot. unfold evbuffer_read. rewrite (ebind_eq (ev eb_freeze_end) _ b false b) by (unfold ev; by rewrite Hz). cbv zeta. fold (read_size readable howmuch).
  set (h := read_size readable howmuch) in *. pose proof (read_size_max readable howmuch Hh) as Hhr. fold h in Hhr.
  unfold EVBUFFER_MAX_READ in Hhr. destruct (expand_fast_run oom junk b bs h Hb ltac:(lia)) as (r & b1 & E & Hset & Hexp). rewrite (ebind_eq _ _ _ _ _ E). destruct Hexp as [[-> Hrd]|(-> & Hhold & Hoom)]; cbn [Z.eqb].
  - by apply (fill_run b1 bs h got b Hrd Hhr Hlen Hgot).
  - eexists _, _. split; [reflexivity|]. split; [done|]. by left.
Qed.

(** ** Sending *)

Lemma gather_iov_run b : forall i cs pre p h, hp b (pre ++ cs) -> linked p cs -> Forall (fun e => chain_ok e.2) cs -> 0 <= h ->
  exists iov m, gather_iov i p h b = Ret (iov, b) /\ mjoin iov = take m (contents cs) /\ Z.of_nat (length (mjoin iov)) <= h /\
    (forall e cs', cs = e :: cs' -> 0 < ch_off e.2 -> 0 < h -> (0 < i)%nat -> mjoin iov <> []).
Proof.
  induction i as [|i IH]; intros cs pre p h Hh Hl Ho H0; [exists [], O; split_and!; [by destruct p|by rewrite take_0|cbn; lia|lia]|].
  destruct cs as [|[c x] cs]; [cbn in Hl; subst p; exists [], O; split_and!; [done|done|cbn; lia|done]|]. destruct Hl as [-> Hl]. apply Forall_cons in Ho as [Hx Ho]. cbn [snd] in Hx.
  pose proof (cdat_length x Hx) as Hc. pose proof (co_off _ Hx). cbn [gather_iov]. destruct (Z.eqb_spec h 0) as [->|Hne].
  { exists [], O. split_and!; [done|by rewrite take_0|cbn; lia|lia]. }
  rewrite (ebind_eq _ _ _ _ _ (chain_run b pre c x cs Hh)). destruct (Z.leb_spec (ch_off x) h) as [Hle|Hgt].
  - rewrite (ebind_eq _ _ _ _ _ (read_data_run b pre c x cs Hh Hx)). destruct (IH cs (pre ++ [(c, x)]) (ch_next x) (h - ch_off x) ltac:(by rewrite <- app_assoc) Hl Ho ltac:(lia)) as (iov & m & E & Em & Hm & _).
    rewrite (ebind_eq _ _ _ _ _ E). exists (cdat x :: iov), (length (cdat x) + m)%nat. split; [done|]. rewrite mjoin_cons, contents_cons. cbn [snd]. split_and!.
    + rewrite Em, take_app_ge by lia. do 2 f_equal. lia.
    + rewrite length_app. lia.
    + intros e cs' [= <- <-] Hoe _ _ Enil. cbn [snd] in Hoe. apply app_eq_nil in Enil as [Enil _]. rewrite Enil in Hc. cbn in Hc. lia.
  - rewrite (ebind_eq _ _ b _ b (memcpy_from_run b pre c x cs Hh (ch_misalign x) h ltac:(destruct Hx; lia) ltac:(lia) ltac:(destruct Hx; lia))).
    assert (take (Z.to_nat h) (drop (Z.to_nat (ch_misalign x)) (ch_buffer x)) = take (Z.to_nat h) (cdat x)) as Et by (unfold cdat; rewrite take_take; f_equal; lia).
    exists [take (Z.to_nat h) (cdat x)], (Z.to_nat h). rewrite Et. split; [done|]. rewrite mjoin_cons, contents_cons. cbn [snd mjoin list_join]. rewrite app_nil_r.
    split_and!; [by rewrite take_app_le by lia|rewrite length_take; lia|]. intros e cs' _ _ _ _ Enil. apply (f_equal length) in Enil. rewrite length_take in Enil. cbn in Enil. lia.
Qed.
(** The socket takes a part of what it is given. *)
Definition writes (writev : bytes -> Z) : Prop := forall d, -1 <= writev d <= Z.of_nat (length d).

(** Writing sends a prefix of the contents and keeps the rest. *)
Lemma evbuffer_write_run k b bs writev howmuch : holds k b bs -> eb_freeze_start b = false -> howmuch <> 0 -> Z.of_nat (length bs) < 2 ^ 60 -> writes writev -> bs <> [] ->
  exists m n b', m <> O /\ n = writev (take m bs) /\
    evbuffer_write_atmost writev howmuch b = Ret ((n, take (Z.to_nat n) bs, told b (Z.of_nat (length bs)) 0 (Z.max 0 n)), b') /\
    same_setup b b' /\ holds k b' (drop (Z.to_nat n) bs).
Proof.
  intros Hb Hz Hh Hlen Hw Hne. pose proof Hb as (cs & Hr & Hc & Ha & Hd). unfold evbuffer_write_atmost. rewrite (ebind_eq (ev eb_freeze_start) _ b false b) by (unfold ev; by rewrite Hz).
  rewrite (ebind_eq (ev eb_total_len) _ b _ b eq_refl), (er_total _ _ _ Hr), Hc. set (h := if (howmuch <? 0) || _ then _ else _).
  assert (0 < length bs)%nat as Hpos by (destruct bs; [done|cbn; lia]). assert (0 < h <= Z.of_nat (length bs)) as Hhr.
  { unfold h. destruct (Z.ltb_spec howmuch 0), (Z.ltb_spec (Z.of_nat (length bs)) howmuch); cbn [orb]; lia. }
  destruct (Z.ltb_spec 0 h); [|lia]. unfold evbuffer_write_iovec.
  destruct (gather_iov_run b NUM_WRITE_IOVEC cs [] (eb_first b) h (er_hp _ _ _ Hr) (er_linked _ _ _ Hr) (er_ok _ _ _ Hr) ltac:(lia)) as (iov & m & E & Em & Hm & Hnz).
  assert (mjoin iov <> []) as Hiov.
  { destruct (rep_spot _ _ _ Hr) as [[-> _]|(l & c & x & r & -> & Hs)]; [by subst bs|]. destruct l as [|e l]; cbn [app] in Hnz; eapply Hnz; try done; try lia.
    - cbn [snd]. pose proof (sp_behind _ _ _ _ _ _ Hs) as Hnr. cbn [app] in Hc. rewrite contents_cons, (contents_nil r Hnr), app_nil_r in Hc. cbn [snd] in Hc.
      pose proof (cdat_length x (spot_ok _ _ _ _ _ _ Hs)) as Hl. rewrite Hc in Hl. lia.
    - unfold NUM_WRITE_IOVEC. lia.
    - pose proof (sp_before _ _ _ _ _ _ Hs) as Hb'. by apply Forall_cons in Hb' as [? _].
    - unfold NUM_WRITE_IOVEC. lia. }
  set (n := writev (mjoin iov)). pose proof (Hw (mjoin iov)) as Hwn. fold n in Hwn.
  assert (length (mjoin iov) <= length bs)%nat as Hml by (rewrite Em, Hc, length_take; lia).
  rewrite (ebind_eq _ _ b (n, take (Z.to_nat n) (mjoin iov)) b).
  2:{ rewrite (ebind_eq (ev eb_first) _ b _ b eq_refl). destruct (Z.ltb_spec h 0); [lia|]. rewrite (ebind_eq _ _ _ _ _ E). by destruct iov. }
  assert (take (Z.to_nat n) (mjoin iov) = take (Z.to_nat n) bs) as Etk.
  { rewrite Em, Hc, take_take. f_equal. rewrite Em, Hc, length_take in Hwn. lia. }
  cbv beta iota. rewrite Etk. assert (take (length (mjoin iov)) bs = mjoin iov) as Eall.
  { rewrite Em, Hc. rewrite length_take. destruct (Nat.le_ge_cases m (length bs)); [by rewrite Nat.min_l|]. rewrite Nat.min_r, !take_ge by lia. done. }
  exists (length (mjoin iov)), n. destruct (Z.ltb_spec 0 n) as [Hn|Hn].
  - destruct (evbuffer_drain_run k b bs n Hb (or_introl Hz) ltac:(lia) ltac:(lia)) as (b' & Ed & Hs' & Hd'). exists b'. rewrite (ebind_eq _ _ _ _ _ Ed). rewrite Z.min_l, Z.max_r by lia.
    split; [by destruct (mjoin iov)|]. split; [by rewrite Eall|]. done.
  - exists b. rewrite Z.max_l by lia. split; [by destruct (mjoin iov)|]. split; [by rewrite Eall|]. split; [by unfold told|]. split; [done|].
    replace (Z.to_nat n) with O by lia. by rewrite drop_0.
Qed.
End transfer.
