(* ===== verification/EvClaims.v ===== *)
(** * EvClaims: a buffer is a queue of bytes

    The specification of a buffer: a list of bytes, to which the operations
    append and from which they take.  Any use of a buffer of either side, the
    one a socket is read into and the one that is sent from, returns what the
    queue returns. *)

From S2P Require Import Prelude Words EvBuffer EvQueue EvRead.

(** ** Operations *)

Inductive ev_op :=
  | Op_add (data : bytes)
  | Op_drain (n : Z)
  | Op_copyout (n : Z)
  | Op_remove (n : Z)
  | Op_length
  | Op_read (readable : Z) (readv : Z -> option bytes) (howmuch : Z)
  | Op_write (writev : bytes -> Z) (howmuch : Z).

(** The value returned, the bytes handed out, and the calls of the callbacks. *)
Record ev_out := mkOut { o_value : Z; o_bytes : bytes; o_calls : list cb_info }.

Section queue.
Context (oom : nat -> bool) (junk : nat -> nat -> Z).

Definition ev_do (o : ev_op) : E ev_out :=
  match o with
  | Op_add data => '(r, l) ← evbuffer_add oom junk data; mret (mkOut r [] l)
  | Op_drain n => '(r, l) ← evbuffer_drain n; mret (mkOut r [] l)
  | Op_copyout n => '(r, d) ← evbuffer_copyout n; mret (mkOut r d [])
  | Op_remove n => '(r, d, l) ← evbuffer_remove n; mret (mkOut r d l)
  | Op_length => r ← evbuffer_get_length; mret (mkOut r [] [])
  | Op_read readable readv howmuch => '(r, l) ← evbuffer_read oom junk readable readv howmuch; mret (mkOut r [] l)
  | Op_write writev howmuch => '(r, d, l) ← evbuffer_write_atmost writev howmuch; mret (mkOut r d l)
  end.
Fixpoint ev_run (os : list ev_op) : E (list ev_out) :=
  match os with
  | [] => mret []
  | o :: os => r ← ev_do o; rs ← ev_run os; mret (r :: rs)
  end.

(** ** The queue *)

(** The calls of the enabled callbacks among [cbs]. *)
Definition calls (cbs : list Z) (old added deleted : Z) : list cb_info :=
  if (added =? 0) && (deleted =? 0) then []
  else flat_map (run_entry EVBUFFER_CB_ENABLED EVBUFFER_CB_ENABLED (mkInfo old added deleted)) cbs.
Definition no_memory : Prop := exists n, oom n = true.

(** [q_step cbs bs o out bs']: a queue of [bs] answers [out] to [o] and is
    [bs'] after it. *)
Definition q_step (cbs : list Z) (bs : bytes) (o : ev_op) (out : ev_out) (bs' : bytes) : Prop :=
  let len := Z.of_nat (length bs) in
  match o with
  | Op_add data => (out = mkOut 0 [] (calls cbs len (Z.of_nat (length data)) 0) /\ bs' = bs ++ data) \/ (out = mkOut (-1) [] [] /\ bs' = bs /\ no_memory)
  | Op_drain n => out = mkOut 0 [] (calls cbs len 0 (Z.min n len)) /\ bs' = drop (Z.to_nat n) bs
  | Op_copyout n => out = mkOut (Z.min n len) (take (Z.to_nat n) bs) [] /\ bs' = bs
  | Op_remove n => out = mkOut (Z.min n len) (take (Z.to_nat n) bs) (calls cbs len 0 (Z.min n len)) /\ bs' = drop (Z.to_nat n) bs
  | Op_length => out = mkOut len [] [] /\ bs' = bs
  | Op_read readable readv howmuch =>
      (out = mkOut (-1) [] [] /\ bs' = bs /\ no_memory) \/
      match readv (read_size readable howmuch) with
      | None => out = mkOut (-1) [] [] /\ bs' = bs
      | Some data => out = mkOut (Z.of_nat (length data)) [] (calls cbs len (Z.of_nat (length data)) 0) /\ bs' = bs ++ data
      end
  | Op_write writev howmuch =>
      (bs = [] /\ out = mkOut (-1) [] [] /\ bs' = []) \/
      exists m, m <> O /\ let n := writev (take m bs) in out = mkOut n (take (Z.to_nat n) bs) (calls cbs len 0 (Z.max 0 n)) /\ bs' = drop (Z.to_nat n) bs
  end.
Inductive q_run (cbs : list Z) : bytes -> list ev_op -> list ev_out -> bytes -> Prop :=
  | q_nil bs : q_run cbs bs [] [] bs
  | q_cons bs o os r rs bs1 bs2 : q_step cbs bs o r bs1 -> q_run cbs bs1 os rs bs2 -> q_run cbs bs (o :: os) (r :: rs) bs2.

(** The operations of a side, with arguments of the width they have and
    sockets that obey the rules of [readv] and [writev]. *)
Definition allowed (k : side) (o : ev_op) : Prop :=
  match o with
  | Op_add _ => k = Out
  | Op_drain n | Op_copyout n | Op_remove n => 0 <= n < 2 ^ 64
  | Op_length => True
  | Op_read _ readv howmuch => k = In /\ howmuch <> 0 /\ forall n data, readv n = Some data -> Z.of_nat (length data) <= n
  | Op_write writev howmuch => howmuch <> 0 /\ writes writev
  end.
(** How much longer an operation can make the queue. *)
Definition growth (o : ev_op) : Z :=
  match o with Op_add data => Z.of_nat (length data) | Op_read _ _ _ => EVBUFFER_MAX_READ | _ => 0 end.
Definition total_growth (os : list ev_op) : Z := foldr (fun o n => growth o + n) 0 os.

Lemma growth_nonneg o : 0 <= growth o.
Proof. destruct o; cbn; unfold EVBUFFER_MAX_READ; lia. Qed.
Lemma total_growth_nonneg os : 0 <= total_growth os.
Proof. induction os as [|o os IH]; [done|]. change (0 <= growth o + total_growth os). pose proof (growth_nonneg o). lia. Qed.
Lemma told_calls b old a d : told b old a d = calls (eb_callbacks b) old a d.
Proof. done. Qed.

Lemma ev_do_step k b bs o : holds k b bs -> eb_freeze_start b = false -> eb_freeze_end b = false -> allowed k o -> Z.of_nat (length bs) + growth o < 2 ^ 31 ->
  exists out b' bs', ev_do o b = Ret (out, b') /\ holds k b' bs' /\ same_setup b b' /\ q_step (eb_callbacks b) bs o out bs' /\ Z.of_nat (length bs') <= Z.of_nat (length bs) + growth o.
Proof.
  intros Hb Hz1 Hz2 Ha Hg. pose proof (growth_nonneg o) as Hg0. destruct o as [data|n|n|n| |readable readv howmuch|writev howmuch]; cbn [allowed growth] in *; unfold ev_do, EVBUFFER_MAX_READ in *.
  - subst k. destruct (evbuffer_add_run oom junk b bs data Hb Hz2 ltac:(rewrite length_app; lia)) as ([r l] & b' & E & Hs & [[[= -> ->] Hh]|([= -> ->] & Hh & Ho)]); rewrite (ebind_eq _ _ _ _ _ E).
    + exists (mkOut 0 [] (told b (Z.of_nat (length bs)) (Z.of_nat (length data)) 0)), b', (bs ++ data). split_and!; [done..|by left|rewrite length_app; lia].
    + exists (mkOut (-1) [] []), b', bs. split_and!; [done..|by right|lia].
  - destruct (evbuffer_drain_run k b bs n Hb (or_introl Hz1) Ha ltac:(lia)) as (b' & E & Hs & Hh). rewrite (ebind_eq _ _ _ _ _ E). eexists _, b', _. split_and!; [done..|rewrite length_drop; lia].
  - rewrite (ebind_eq _ _ _ _ _ (evbuffer_copyout_run k b bs n Hb (or_introl Hz1) ltac:(lia) ltac:(lia))). exists (mkOut (Z.min n (Z.of_nat (length bs))) (take (Z.to_nat n) bs) []), b, bs. split_and!; [done..|lia].
  - destruct (evbuffer_remove_run k b bs n Hb (or_introl Hz1) Ha ltac:(lia)) as (b' & E & Hs & Hh). rewrite (ebind_eq _ _ _ _ _ E). eexists _, b', _. split_and!; [done..|rewrite length_drop; lia].
  - pose proof Hb as (cs & Hr & Hc & _). exists (mkOut (Z.of_nat (length bs)) [] []), b, bs. split_and!; [|done..|lia]. unfold evbuffer_get_length, ev, mbind, E_bind. by rewrite (er_total _ _ _ Hr), Hc.
  - destruct Ha as (-> & Hh0 & Hv). pose proof (read_size_max readable howmuch Hh0) as Hsz. unfold EVBUFFER_MAX_READ in Hsz.
    destruct (evbuffer_read_run oom junk b bs readable readv howmuch Hb Hz2 Hh0 ltac:(lia) (Hv _)) as ([r l] & b' & E & Hs & Hres). rewrite (ebind_eq _ _ _ _ _ E).
    destruct Hres as [([= -> ->] & Hh & Ho)|Hres]; [exists (mkOut (-1) [] []), b', bs; split_and!; [done..|by left|lia]|].
    specialize (Hv (read_size readable howmuch)). destruct (readv (read_size readable howmuch)) as [data|] eqn:Er; destruct Hres as [[= -> ->] Hh].
    + eexists _, b', (bs ++ data). split_and!; [done..|right; by rewrite Er|]. specialize (Hv data eq_refl). rewrite length_app. lia.
    + exists (mkOut (-1) [] []), b', bs. split_and!; [done..|right; by rewrite Er|lia].
  - destruct Ha as [Hh0 Hw]. destruct (decide (bs = [])) as [->|Hne].
    + exists (mkOut (-1) [] []), b, []. split_and!; [|done..|by left|cbn; lia]. pose proof Hb as (cs & Hr & Hc & _). unfold evbuffer_write_atmost. unfold mbind at 1, E_bind at 1.
      rewrite (ebind_eq (ev eb_freeze_start) _ b false b) by (unfold ev; by rewrite Hz1). rewrite (ebind_eq (ev eb_total_len) _ b _ b eq_refl), (er_total _ _ _ Hr), Hc. change (Z.of_nat (length [])) with 0.
      destruct (Z.ltb_spec howmuch 0), (Z.ltb_spec 0 howmuch); cbn [orb]; try lia; done.
    + destruct (evbuffer_write_run k b bs writev howmuch Hb Hz1 Hh0 ltac:(lia) Hw Hne) as (m & n & b' & Hm & -> & E & Hs & Hh). rewrite (ebind_eq _ _ _ _ _ E).
      eexists _, b', _. split_and!; [done..|right; exists m; done|rewrite length_drop; lia].
Qed.

(** C16: A buffer is a queue of bytes.  However the chains of an evbuffer lie,
    every sequence of appending, draining, copying, removing, asking for the
    length and transfers from (on the receiving side) and to a socket runs
    without a failed assertion, an access outside a chain, a dangling chain or
    an endless loop, and returns, hands out and tells its callbacks exactly
    what a queue of bytes would; only appending and reading can fail for lack
    of memory, and then leave the queue as it was. *)
Theorem evbuffer_is_queue k b bs os :
  holds k b bs -> eb_freeze_start b = false -> eb_freeze_end b = false -> Forall (allowed k) os -> Z.of_nat (length bs) + total_growth os < 2 ^ 31 ->
  exists outs b' bs', ev_run os b = Ret (outs, b') /\ q_run (eb_callbacks b) bs os outs bs' /\ holds k b' bs' /\ same_setup b b'.
Proof.
  intros Hb Hz1 Hz2 Ho. revert b bs Hb Hz1 Hz2. induction Ho as [|o os Ha Ho IH]; intros b bs Hb Hz1 Hz2 Hg.
  - exists [], b, bs. split_and!; [done|constructor|done|done..].
  - cbn [total_growth foldr] in Hg. fold (total_growth os) in Hg. pose proof (total_growth_nonneg os).
    destruct (ev_do_step k b bs o Hb Hz1 Hz2 Ha ltac:(lia)) as (out & b1 & bs1 & E & Hb1 & Hs & Hq & Hl). destruct Hs as (S1 & S2 & S3).
    destruct (IH b1 bs1 Hb1 ltac:(by rewrite S1) ltac:(by rewrite S2) ltac:(lia)) as (outs & b2 & bs2 & E2 & Hq2 & Hb2 & Hs2).
    exists (out :: outs), b2, bs2. cbn [ev_run]. rewrite (ebind_eq _ _ _ _ _ E), (ebind_eq _ _ _ _ _ E2). split; [done|]. split; [econstructor; [exact Hq|by rewrite <- S3]|]. split; [done|].
    destruct Hs2 as (T1 & T2 & T3). unfold same_setup. by rewrite T1, T2, T3.
Qed.
End queue.

(** A new buffer holds nothing, on either side. *)
Lemma new_holds k : holds k evbuffer_new [].
Proof. exists []. split_and!; [|done..]. split; try done; constructor. Qed.
Lemma new_holds_cb k : holds k (evbuffer_add_cb evbuffer_new) [].
Proof. exists []. split_and!; [|done..]. split; try done; constructor. Qed.

(** Bytes added, sent two at a time, and taken out. *)
Definition demo_ops : list ev_op :=
  [Op_add (b# "hello"); Op_write (fun d => Z.min 2 (Z.of_nat (length d))) (-1); Op_length; Op_remove 10].
Lemma evbuffer_is_queue_witness :
  exists outs b' bs', ev_run (fun _ => false) (fun _ _ => 0) demo_ops (evbuffer_add_cb evbuffer_new) = Ret (outs, b') /\
    q_run (fun _ => false) [EVBUFFER_CB_ENABLED] [] demo_ops outs bs' /\ holds Out b' bs'.
Proof.
  destruct (evbuffer_is_queue (fun _ => false) (fun _ _ => 0) Out (evbuffer_add_cb evbuffer_new) [] demo_ops (new_holds_cb Out) eq_refl eq_refl) as (outs & b' & bs' & E & Hq & Hh & _).
  - repeat constructor; unfold writes; cbn; lia.
  - cbn. lia.
  - exists outs, b', bs'. split; [exact E|]. split; [exact Hq|exact Hh].
Defined.
Example demo_outs : match ev_run (fun _ => false) (fun _ _ => 0) demo_ops (evbuffer_add_cb evbuffer_new) with
  | Ret (outs, b') => outs = [mkOut 0 [] [mkInfo 0 5 0]; mkOut 2 (b# "he") [mkInfo 5 0 2]; mkOut 3 [] []; mkOut 3 (b# "llo") [mkInfo 3 0 3]] /\ eb_heap b' = ∅
  | _ => False
  end.
Proof. vm_compute. done. Qed.

(** The two sides do not mix: after a read that leaves an empty chain at the
    end, [evbuffer_add] puts data into that chain without moving
    [last_with_datap], and the next read fails the assertion of
    [_evbuffer_expand_fast]. *)
Definition zeros (n : nat) (cap : Z) : option bytes := Some (replicate (Nat.min n (Z.to_nat cap)) 0).
Definition mixed_ops : list ev_op :=
  [Op_read 4096 (zeros 4096) (-1); Op_read 4000 (zeros 4000) (-1); Op_read 4096 (zeros 10) (-1); Op_add (b# "x"); Op_read 4096 (zeros 1) (-1)].
Example read_then_add_asserts : ev_run (fun _ => false) (fun _ _ => 0) mixed_ops evbuffer_new = Crash.
Proof. vm_compute. done. Qed.
