(* ===== verification/BufEv.v ===== *)
(** * BufEv: the buffered sockets of libevent

    A [bufferevent] (libevent/bufferevent.c, bufferevent_sock.c) couples a
    descriptor with two buffers: it reads what arrives into one and writes out
    what lies in the other.  The daemons use socket bufferevents with deferred
    callbacks, without watermarks, timeouts and rate limits; the functions are
    modelled for these.  Bufferevents live in a heap and are counted; the
    callbacks that wait to be run are a queue of the event base (event.c).  Of
    the operating system there is the table of open sockets, with the bytes
    that have arrived and those that were written. *)

From S2P Require Import Prelude Words EvBuffer.

(** ** Structures *)

(** [struct bufferevent_private].  The three callbacks are set and cleared
    together: [bv_cbarg] is their argument, [None] when they are NULL.
    [bv_ev_read] and [bv_ev_write]: the events are pending. *)
Record bufferevent := mkBev {
  bv_fd : Z;
  bv_cbarg : option nat;
  bv_enabled_read : bool;
  bv_enabled_write : bool;
  bv_input : evbuffer;
  bv_output : evbuffer;
  bv_ev_read : bool;
  bv_ev_write : bool;
  bv_readcb_pending : bool;
  bv_writecb_pending : bool;
  bv_eventcb_pending : Z;
  bv_queued : bool;
  bv_refcnt : Z
}.
Definition set_cbarg (x : option nat) (v : bufferevent) : bufferevent :=
  match v with mkBev a _ c d e f g h i j k l m => mkBev a x c d e f g h i j k l m end.
Definition set_enabled (r w : bool) (v : bufferevent) : bufferevent :=
  match v with mkBev a b _ _ e f g h i j k l m => mkBev a b r w e f g h i j k l m end.
Definition set_input (x : evbuffer) (v : bufferevent) : bufferevent :=
  match v with mkBev a b c d _ f g h i j k l m => mkBev a b c d x f g h i j k l m end.
Definition set_output (x : evbuffer) (v : bufferevent) : bufferevent :=
  match v with mkBev a b c d e _ g h i j k l m => mkBev a b c d e x g h i j k l m end.
Definition set_ev_read (x : bool) (v : bufferevent) : bufferevent :=
  match v with mkBev a b c d e f _ h i j k l m => mkBev a b c d e f x h i j k l m end.
Definition set_ev_write (x : bool) (v : bufferevent) : bufferevent :=
  match v with mkBev a b c d e f g _ i j k l m => mkBev a b c d e f g x i j k l m end.
Definition set_readcb_pending (x : bool) (v : bufferevent) : bufferevent :=
  match v with mkBev a b c d e f g h _ j k l m => mkBev a b c d e f g h x j k l m end.
Definition set_writecb_pending (x : bool) (v : bufferevent) : bufferevent :=
  match v with mkBev a b c d e f g h i _ k l m => mkBev a b c d e f g h i x k l m end.
Definition set_eventcb_pending (x : Z) (v : bufferevent) : bufferevent :=
  match v with mkBev a b c d e f g h i j _ l m => mkBev a b c d e f g h i j x l m end.
Definition set_queued (x : bool) (v : bufferevent) : bufferevent :=
  match v with mkBev a b c d e f g h i j k _ m => mkBev a b c d e f g h i j k x m end.
Definition set_refcnt (x : Z) (v : bufferevent) : bufferevent :=
  match v with mkBev a b c d e f g h i j k l _ => mkBev a b c d e f g h i j k l x end.

Definition BEV_EVENT_READING : Z := 0x01.
Definition BEV_EVENT_WRITING : Z := 0x02.
Definition BEV_EVENT_EOF : Z := 0x10.
Definition BEV_EVENT_ERROR : Z := 0x20.
Definition BEV_EVENT_TIMEOUT : Z := 0x40.
Definition BEV_EVENT_CONNECTED : Z := 0x80.
Definition MAX_TO_READ_EVER : Z := 16384.
Definition MAX_TO_WRITE_EVER : Z := 16384.

(** A socket of the operating system: the bytes that have arrived and were not
    read yet, and all that was written to it since it was opened. *)
Record sock := mkSock { so_in : bytes; so_out : bytes }.
(** What a read of up to [n] bytes gives: an error, the end, or some of the
    bytes that are there. *)
Inductive read_outcome := Rd_fail | Rd_eof | Rd_some (cut : nat).
Definition so_readv (o : sock) (r : read_outcome) (n : Z) : option bytes :=
  match r with
  | Rd_fail => None
  | Rd_eof => Some []
  | Rd_some cut => match so_in o with [] => None | _ :: _ => Some (take (Nat.min (S cut) (Z.to_nat n)) (so_in o)) end
  end.

Section base.
(** [R]: the state of who uses the event base. *)
Context {R : Type}.
Record evbase := mkBase {
  eb_bevs : gmap nat bufferevent;
  eb_deferred : list nat;
  eb_open : gmap Z sock;
  eb_next : nat;
  eb_rest : R
}.
Definition set_bevs (x : gmap nat bufferevent) (s : evbase) : evbase := match s with mkBase _ b c d e => mkBase x b c d e end.
Definition set_deferred (x : list nat) (s : evbase) : evbase := match s with mkBase a _ c d e => mkBase a x c d e end.
Definition set_open (x : gmap Z sock) (s : evbase) : evbase := match s with mkBase a b _ d e => mkBase a b x d e end.
Definition set_rest (x : R) (s : evbase) : evbase := match s with mkBase a b c d _ => mkBase a b c d x end.
Definition set_eb_next (x : nat) (s : evbase) : evbase := match s with mkBase a b c _ e => mkBase a b c x e end.

Definition B (A : Type) : Type := evbase -> result (A * evbase).
#[global] Instance B_ret : MRet B := fun _ a s => Ret (a, s).
#[global] Instance B_bind : MBind B :=
  fun _ _ f m s => match m s with Ret (a, s') => f a s' | Crash => Crash | NoFuel => NoFuel end.
Definition bcrash {A} : B A := fun _ => Crash.
Definition look {A} (f : evbase -> A) : B A := fun s => Ret (f s, s).
Definition mod_base (f : evbase -> evbase) : B unit := fun s => Ret (tt, f s).
Definition bev (p : nat) : B bufferevent := fun s => match eb_bevs s !! p with Some v => Ret (v, s) | None => Crash end.
Definition edit_bev (p : nat) (f : bufferevent -> bufferevent) : B unit :=
  v ← bev p; mod_base (fun s => set_bevs (<[p := f v]> (eb_bevs s)) s).
(** A function of buffer.c on one of the buffers. *)
Definition on_input {A} (p : nat) (m : E A) : B A :=
  v ← bev p;
  match m (bv_input v) with
  | Ret (a, b) => edit_bev p (set_input b) ;; mret a
  | Crash => bcrash
  | NoFuel => fun _ => NoFuel
  end.
Definition on_output {A} (p : nat) (m : E A) : B A :=
  v ← bev p;
  match m (bv_output v) with
  | Ret (a, b) => edit_bev p (set_output b) ;; mret a
  | Crash => bcrash
  | NoFuel => fun _ => NoFuel
  end.
Fixpoint for_all {A} (l : list A) (f : A -> B unit) : B unit :=
  match l with [] => mret tt | x :: l => f x ;; for_all l f end.

(** [close]; of a descriptor that is not open nothing is closed. *)
Definition close (fd : Z) : B unit := mod_base (fun s => set_open (delete fd (eb_open s)) s).
Definition the_sock (fd : Z) : B sock := look (fun s => default (mkSock [] []) (eb_open s !! fd)).
(** What a transfer leaves in the table of sockets. *)
Definition has_read (fd : Z) (n : Z) : B unit :=
  mod_base (fun s => set_open (alter (fun o => mkSock (drop (Z.to_nat n) (so_in o)) (so_out o)) fd (eb_open s)) s).
Definition has_written (fd : Z) (d : bytes) : B unit :=
  mod_base (fun s => set_open (alter (fun o => mkSock (so_in o) (so_out o ++ d)) fd (eb_open s)) s).

(** ** Events *)

(** Memory for the chains of the buffers (which allocations of which buffer
    fail, and what fresh memory holds), and whether [event_add] works. *)
Context (oom : nat -> bool -> nat -> bool) (junk : nat -> bool -> nat -> nat -> Z) (add_ok : evbase -> nat -> bool -> bool).

Definition be_socket_add (p : nat) (write : bool) : B Z :=
  ok ← look (fun s => add_ok s p write);
  if ok : bool then edit_bev p (if write then set_ev_write true else set_ev_read true) ;; mret 0
  else mret (-1).
Definition event_del (p : nat) (write : bool) : B unit :=
  edit_bev p (if write then set_ev_write false else set_ev_read false).

(** ** Deferred callbacks *)

Definition event_deferred_cb_schedule (p : nat) : B unit :=
  v ← bev p;
  if negb (bv_queued v) then
    edit_bev p (set_queued true) ;;
    mod_base (fun s => set_deferred (eb_deferred s ++ [p]) s)
  else mret tt.
Definition bufferevent_incref (p : nat) : B unit := edit_bev p (fun v => set_refcnt (bv_refcnt v + 1) v).
Definition SCHEDULE_DEFERRED (p : nat) : B unit :=
  bufferevent_incref p ;; event_deferred_cb_schedule p.
Definition schedule (p : nat) : B unit :=
  v ← bev p; if negb (bv_queued v) then SCHEDULE_DEFERRED p else mret tt.

Definition _bufferevent_run_readcb (p : nat) : B unit :=
  v ← bev p;
  match bv_cbarg v with
  | None => mret tt
  | Some _ => edit_bev p (set_readcb_pending true) ;; schedule p
  end.
Definition _bufferevent_run_writecb (p : nat) : B unit :=
  v ← bev p;
  match bv_cbarg v with
  | None => mret tt
  | Some _ => edit_bev p (set_writecb_pending true) ;; schedule p
  end.
Definition _bufferevent_run_eventcb (p : nat) (what : Z) : B unit :=
  v ← bev p;
  match bv_cbarg v with
  | None => mret tt
  | Some _ => edit_bev p (fun v => set_eventcb_pending (Z.lor (bv_eventcb_pending v) what) v) ;; schedule p
  end.

(** ** Counting, enabling, freeing *)

Definition be_socket_destruct (p : nat) : B unit :=
  v ← bev p;
  event_del p false ;; event_del p true ;;
  if 0 <=? bv_fd v then close (bv_fd v) else mret tt.
Definition _bufferevent_decref_and_unlock (p : nat) : B unit :=
  v ← bev p;
  if 0 <? bv_refcnt v then
    edit_bev p (set_refcnt (bv_refcnt v - 1)) ;;
    if negb (bv_refcnt v - 1 =? 0) then mret tt
    else be_socket_destruct p ;; mod_base (fun s => set_bevs (delete p (eb_bevs s)) s)
  else bcrash.

Definition be_socket_enable (p : nat) (read write : bool) : B Z :=
  r ← (if read then be_socket_add p false else mret 0);
  if r =? -1 then mret (-1)
  else
    w ← (if write then be_socket_add p true else mret 0);
    if w =? -1 then mret (-1) else mret 0.
Definition be_socket_disable (p : nat) (read write : bool) : B unit :=
  (if read then event_del p false else mret tt) ;;
  (if write then event_del p true else mret tt).
Definition bufferevent_enable (p : nat) (read write : bool) : B Z :=
  bufferevent_incref p ;;
  edit_bev p (fun v => set_enabled (bv_enabled_read v || read) (bv_enabled_write v || write) v) ;;
  r ← be_socket_enable p read write;
  _bufferevent_decref_and_unlock p ;;
  mret (if r <? 0 then -1 else 0).
Definition bufferevent_disable (p : nat) (read write : bool) : B unit :=
  edit_bev p (fun v => set_enabled (bv_enabled_read v && negb read) (bv_enabled_write v && negb write) v) ;;
  be_socket_disable p read write.

Definition bufferevent_setcb (p : nat) (arg : option nat) : B unit := edit_bev p (set_cbarg arg).
Definition bufferevent_free (p : nat) : B unit :=
  bufferevent_setcb p None ;; _bufferevent_decref_and_unlock p.

(** [bufferevent_socket_new] with [bufferevent_init_common]; [mem]: there is
    memory for the structures. *)
Definition bufferevent_init (fd : Z) : bufferevent :=
  mkBev fd None false true
    (evbuffer_freeze false evbuffer_new) (evbuffer_freeze true (evbuffer_add_cb evbuffer_new))
    false false false false 0 false 1.
Definition bufferevent_socket_new (mem : bool) (fd : Z) : B (option nat) :=
  if mem then
    p ← look eb_next;
    mod_base (fun s => set_bevs (<[p := bufferevent_init fd]> (eb_bevs s)) (set_eb_next (S p) s)) ;;
    mret (Some p)
  else mret None.

(** ** Transfers *)

Definition bufferevent_socket_outbuf_cb (p : nat) (cbinfo : cb_info) : B unit :=
  v ← bev p;
  if negb (n_added cbinfo =? 0) && bv_enabled_write v && negb (bv_ev_write v) then
    be_socket_add p true ;; mret tt
  else mret tt.
(** [evbuffer_add] on the output buffer calls [bufferevent_socket_outbuf_cb]. *)
Definition bufferevent_write (p : nat) (data : bytes) : B Z :=
  '(r, calls) ← on_output p (evbuffer_add (oom p true) (junk p true) data);
  for_all calls (bufferevent_socket_outbuf_cb p) ;;
  mret (if r =? -1 then -1 else 0).

(** The part behind [error:] of [bufferevent_readcb] and
    [bufferevent_writecb]. *)
Definition read_error (p : nat) (what : Z) : B unit :=
  bufferevent_disable p true false ;; _bufferevent_run_eventcb p what.
Definition write_error (p : nat) (what : Z) : B unit :=
  bufferevent_disable p false true ;; _bufferevent_run_eventcb p what.
(** The call of [evbuffer_read] with the lines around it; [readable]: what
    [FIONREAD] says. *)
Definition read_input (p : nat) (readable : Z) (r : read_outcome) : B Z :=
  v ← bev p;
  o ← the_sock (bv_fd v);
  on_input p (upd (evbuffer_unfreeze false)) ;;
  '(res, _) ← on_input p (evbuffer_read (oom p false) (junk p false) readable (so_readv o r) MAX_TO_READ_EVER);
  has_read (bv_fd v) res ;;
  on_input p (upd (evbuffer_freeze false)) ;;
  mret res.
(** [retry]: the error of the socket is one of those to try again after. *)
Definition bufferevent_readcb (p : nat) (readable : Z) (r : read_outcome) (retry : bool) : B unit :=
  bufferevent_incref p ;;
  res ← read_input p readable r;
  (if res =? -1 then
     if retry then mret tt else read_error p (Z.lor BEV_EVENT_READING BEV_EVENT_ERROR)
   else if res <=? 0 then read_error p (Z.lor BEV_EVENT_READING BEV_EVENT_EOF)
   else _bufferevent_run_readcb p) ;;
  _bufferevent_decref_and_unlock p.

Definition drop_ev_write (p : nat) : B unit :=
  n ← on_output p evbuffer_get_length;
  if n =? 0 then event_del p true else mret tt.
(** The part behind the transfer. *)
Definition after_write (p : nat) : B unit :=
  drop_ev_write p ;;
  n ← on_output p evbuffer_get_length;
  if n <=? 0 then _bufferevent_run_writecb p else mret tt.
(** The call of [evbuffer_write_atmost] with the lines around it; the callbacks
    of the output buffer are told of the bytes taken from it. *)
Definition write_output (p : nat) (writev : bytes -> Z) : B Z :=
  v ← bev p;
  on_output p (upd (evbuffer_unfreeze true)) ;;
  '(res, sent, calls) ← on_output p (evbuffer_write_atmost writev MAX_TO_WRITE_EVER);
  for_all calls (bufferevent_socket_outbuf_cb p) ;;
  has_written (bv_fd v) sent ;;
  on_output p (upd (evbuffer_freeze true)) ;;
  mret res.
Definition bufferevent_writecb (p : nat) (writev : bytes -> Z) (retry : bool) : B unit :=
  bufferevent_incref p ;;
  n ← on_output p evbuffer_get_length;
  (if negb (n =? 0) then
     res ← write_output p writev;
     if res =? -1 then
       if retry then drop_ev_write p else write_error p (Z.lor BEV_EVENT_WRITING BEV_EVENT_ERROR)
     else if res <=? 0 then write_error p (Z.lor BEV_EVENT_WRITING BEV_EVENT_EOF)
     else after_write p
   else after_write p) ;;
  _bufferevent_decref_and_unlock p.

(** ** Running the deferred callbacks *)

(** The callbacks of the user, with their argument. *)
Context (readcb writecb : nat -> nat -> B unit) (errorcb : nat -> Z -> nat -> B unit).
Definition bufferevent_run_deferred_callbacks_locked (p : nat) : B unit :=
  v ← bev p;
  (if negb (Z.land (bv_eventcb_pending v) BEV_EVENT_CONNECTED =? 0) then
     match bv_cbarg v with
     | None => mret tt
     | Some c =>
         edit_bev p (set_eventcb_pending (Z.land (bv_eventcb_pending v) (Z.lnot BEV_EVENT_CONNECTED))) ;;
         errorcb p BEV_EVENT_CONNECTED c
     end
   else mret tt) ;;
  v ← bev p;
  (if bv_readcb_pending v then
     match bv_cbarg v with None => mret tt | Some c => edit_bev p (set_readcb_pending false) ;; readcb p c end
   else mret tt) ;;
  v ← bev p;
  (if bv_writecb_pending v then
     match bv_cbarg v with None => mret tt | Some c => edit_bev p (set_writecb_pending false) ;; writecb p c end
   else mret tt) ;;
  v ← bev p;
  (if negb (bv_eventcb_pending v =? 0) then
     match bv_cbarg v with
     | None => mret tt
     | Some c => edit_bev p (set_eventcb_pending 0) ;; errorcb p (bv_eventcb_pending v) c
     end
   else mret tt) ;;
  _bufferevent_decref_and_unlock p.

Definition MAX_DEFERRED : nat := 16.
Fixpoint process_deferred (count : nat) : B unit :=
  q ← look eb_deferred;
  match count, q with
  | S count, p :: q =>
      edit_bev p (set_queued false) ;;
      mod_base (set_deferred q) ;;
      bufferevent_run_deferred_callbacks_locked p ;;
      process_deferred count
  | _, _ => mret tt
  end.
Definition event_process_deferred_callbacks : B unit := process_deferred MAX_DEFERRED.
End base.
Arguments evbase R : clear implicits.
Arguments B R A : clear implicits.
