(* ===== verification/Net.v ===== *)
(** * Net: the sockets of the daemons

    [SocketServer], [SocketBase], [SocketBuf] and [TcpClient]
    (common/network), on the bufferevents of libevent.  A daemon derives its
    client class from [TcpClient]; what it adds is the argument [app]: its
    constructor, its destructor, and [OnRecv], a program over the operations of
    a [SocketBuf] and of the clients.  [step] performs one event of the loop
    that [SocketServer::Worker] runs. *)

From S2P Require Import Prelude Words EvBuffer BufEv.

(** ** What a daemon adds *)

Section prog.
(** [U]: the state of the daemon. *)
Context {U : Type}.
(** The code of [OnRecv]: computations on the state, the calls of the buffer it
    is given, and calls of clients. *)
Inductive prog : Type :=
  | Done
  | Upd {A : Type} (f : U -> result (A * U)) (k : A -> prog)
  | Length (k : Z -> prog)
  | Copyout (datlen : Z) (k : Z * bytes -> prog)
  | Read (datlen : Z) (k : Z * bytes -> prog)
  | Drain (datlen : Z) (k : prog)
  | Send (c : nat) (data : bytes) (k : prog)
  | PendClose (c : nat) (k : prog).
(** A client class: constructor, [OnRecv], and destructor, which can send to
    other clients. *)
Record app := mkApp {
  app_new : nat -> U -> result U;
  app_recv : nat -> prog;
  app_delete : nat -> U -> result (list (nat * bytes) * U)
}.
End prog.
Arguments prog U : clear implicits.
Arguments app U : clear implicits.

(** [class TcpClient] with its base [SocketBase]; [tc_host]: [_host] is set. *)
Record TcpClient := mkTcp { tc_fd : Z; tc_host : bool; tc_pend_close : bool; tc_bufev : option nat }.
Definition set_host (o : TcpClient) : TcpClient := mkTcp (tc_fd o) true (tc_pend_close o) (tc_bufev o).
Definition set_pend_close (x : bool) (o : TcpClient) : TcpClient := mkTcp (tc_fd o) (tc_host o) x (tc_bufev o).
Definition set_bufev (x : option nat) (o : TcpClient) : TcpClient := mkTcp (tc_fd o) (tc_host o) (tc_pend_close o) x.

(** The clients, the table [_fd_map] of the server, whose entries own them, and
    the state of the daemon. *)
Record socks U := mkSocks { sk_objs : gmap nat TcpClient; sk_fd_map : gmap Z nat; sk_up : U }.
Arguments mkSocks {U}. Arguments sk_objs {U}. Arguments sk_fd_map {U}. Arguments sk_up {U}.

Section net.
Context {U : Type}.
Abbreviation net := (evbase (socks U)).
Abbreviation B := (B (socks U)).
Context (oom : nat -> bool -> nat -> bool) (junk : nat -> bool -> nat -> nat -> Z) (add_ok : net -> nat -> bool -> bool).
Context (D : app U).

Definition objs (s : net) : gmap nat TcpClient := sk_objs (eb_rest s).
Definition fd_map (s : net) : gmap Z nat := sk_fd_map (eb_rest s).
Definition up (s : net) : U := sk_up (eb_rest s).
Definition set_objs (x : gmap nat TcpClient) (s : net) : net := set_rest (mkSocks x (fd_map s) (up s)) s.
Definition set_fd_map (x : gmap Z nat) (s : net) : net := set_rest (mkSocks (objs s) x (up s)) s.
Definition set_up (x : U) (s : net) : net := set_rest (mkSocks (objs s) (fd_map s) x) s.

Definition obj (c : nat) : B TcpClient := fun s => match objs s !! c with Some o => Ret (o, s) | None => Crash end.
Definition edit_obj (c : nat) (f : TcpClient -> TcpClient) : B unit :=
  o ← obj c; mod_base (fun s => set_objs (<[c := f o]> (objs s)) s).
Definition bufev_of (c : nat) : B nat := o ← obj c; match tc_bufev o with Some p => mret p | None => bcrash end.
(** A computation of the daemon on its state. *)
Definition daemon {A} (f : U -> result (A * U)) : B A :=
  u ← look up;
  match f u with
  | Ret (a, u) => mod_base (set_up u) ;; mret a
  | Crash => bcrash
  | NoFuel => fun _ => NoFuel
  end.

(** ** TcpClient, sending *)

Definition TcpClient_Send (c : nat) (data : bytes) : B unit :=
  p ← bufev_of c; bufferevent_write oom junk add_ok p data ;; mret tt.

(** ** Deleting a client *)

Definition TcpClient_dtor (c : nat) : B unit :=
  o ← obj c;
  match tc_bufev o with Some p => bufferevent_free p | None => mret tt end.
Definition SocketBase_dtor (c : nat) : B unit :=
  o ← obj c;
  (if negb (tc_fd o =? 0) then close (tc_fd o) else mret tt) ;;
  mod_base (fun s => set_objs (delete c (objs s)) s).
(** [delete] of a client: the destructors from the daemon's class down. *)
Definition delete_client (c : nat) : B unit :=
  sends ← daemon (app_delete D c);
  for_all sends (fun e => TcpClient_Send e.1 e.2) ;;
  TcpClient_dtor c ;;
  SocketBase_dtor c.

(** [_fd_map.erase(fd)]: the entry is the last pointer to the client. *)
Definition SocketServer_Close (fd : Z) : B unit :=
  m ← look fd_map;
  match m !! fd with
  | None => mret tt
  | Some c => mod_base (set_fd_map (delete fd m)) ;; delete_client c
  end.
Definition SocketBase_Close (c : nat) : B unit :=
  o ← obj c; if tc_host o then SocketServer_Close (tc_fd o) else bcrash.

(** ** TcpClient, the callbacks *)

Definition TcpClient_PendClose (c : nat) : B unit :=
  p ← bufev_of c;
  n ← on_output p evbuffer_get_length;
  if n =? 0 then SocketBase_Close c else edit_obj c (set_pend_close true).

(** [OnRecv] with the buffer of the bufferevent [p]. *)
Fixpoint run_prog (p : nat) (q : prog U) : B unit :=
  match q with
  | Done => mret tt
  | Upd f k => a ← daemon f; run_prog p (k a)
  | Length k => n ← on_input p evbuffer_get_length; run_prog p (k n)
  | Copyout n k => '(r, d) ← on_input p (evbuffer_copyout n); run_prog p (k (to_int r, d))
  | Read n k => '(r, d, _) ← on_input p (evbuffer_remove n); run_prog p (k (r, d))
  | Drain n k => on_input p (evbuffer_drain n) ;; run_prog p k
  | Send c data k => TcpClient_Send c data ;; run_prog p k
  | PendClose c k => TcpClient_PendClose c ;; run_prog p k
  end.
Definition TcpClient_DoRecv (c : nat) : B unit :=
  p ← bufev_of c; run_prog p (app_recv D c).
Definition TcpClient_DoSend (c : nat) : B unit :=
  o ← obj c;
  if tc_pend_close o then
    p ← bufev_of c;
    n ← on_output p evbuffer_get_length;
    if n =? 0 then edit_obj c (set_pend_close false) ;; SocketBase_Close c else mret tt
  else mret tt.
Definition TcpClient_DoDisconnect (c : nat) : B unit := SocketBase_Close c.
Definition _client_read_cb (p c : nat) : B unit := TcpClient_DoRecv c.
Definition _client_write_cb (p c : nat) : B unit := TcpClient_DoSend c.
Definition _client_event_cb (p : nat) (wht : Z) (c : nat) : B unit :=
  if 0 <? Z.land wht (Z.lor (Z.lor BEV_EVENT_EOF BEV_EVENT_ERROR) BEV_EVENT_TIMEOUT) then
    bufferevent_disable p false true ;; TcpClient_DoDisconnect c
  else mret tt.

(** ** Registering *)

Definition TcpClient_DoRegister (mem : bool) (c : nat) : B bool :=
  o ← obj c;
  b ← bufferevent_socket_new mem (tc_fd o);
  match b with
  | None => mret false
  | Some p =>
      bufferevent_setcb p (Some c) ;;
      bufferevent_enable add_ok p true true ;;
      edit_obj c (set_bufev (Some p)) ;;
      mret true
  end.
(** [_fd_map[*cl] = SocketBase::Pointer(cl)]: a client that had the entry goes. *)
Definition AddSocket (c : nat) : B unit :=
  o ← obj c;
  m ← look fd_map;
  mod_base (set_fd_map (<[tc_fd o := c]> m)) ;;
  match m !! tc_fd o with Some old => delete_client old | None => mret tt end.
Definition _Register (mem add : bool) (c : nat) : B bool :=
  edit_obj c set_host ;;
  ok ← TcpClient_DoRegister mem c;
  if ok : bool then (if add then AddSocket c else mret tt) ;; mret true
  else mret false.
(** [new Client(fd)]. *)
Definition new_client (fd : Z) : B nat :=
  c ← look eb_next;
  mod_base (fun s => set_objs (<[c := mkTcp fd false false None]> (objs s)) (set_eb_next (S c) s)) ;;
  daemon (fun u => u' ← app_new D c u; Ret (tt, u')) ;;
  mret c.
(** [new_fd]: what [accept] returns. *)
Definition Accept (mem : bool) (new_fd : Z) : B unit :=
  if new_fd =? -1 then mret tt
  else
    c ← new_client new_fd;
    ok ← _Register mem true c;
    if ok : bool then mret tt else delete_client c.

(** ** The event loop *)

(** What can happen: a connection arrives and is accepted as [fd], bytes arrive
    on a socket, a socket that is waited for is ready to read or to write, and
    the deferred callbacks are run. *)
Inductive net_event :=
  | Ev_accept (fd : Z) (mem : bool)
  | Ev_arrive (fd : Z) (data : bytes)
  | Ev_readable (p : nat) (readable : Z) (r : read_outcome) (retry : bool)
  | Ev_writable (p : nat) (writev : bytes -> Z) (retry : bool)
  | Ev_deferred.
(** The operating system opens the socket that [accept] returns. *)
Definition open_sock (fd : Z) : B unit :=
  mod_base (fun s => set_open (<[fd := mkSock [] []]> (eb_open s)) s).
Definition arrive (fd : Z) (data : bytes) : B unit :=
  mod_base (fun s => set_open (alter (fun o => mkSock (so_in o ++ data) (so_out o)) fd (eb_open s)) s).
(** An event that is not pending does not happen. *)
Definition when_pending (p : nat) (f : bufferevent -> bool) (m : B unit) : B unit :=
  l ← look eb_bevs;
  match l !! p with Some v => if f v then m else mret tt | None => mret tt end.
Definition net_step (e : net_event) : B unit :=
  match e with
  | Ev_accept fd mem => (if fd =? -1 then mret tt else open_sock fd) ;; Accept mem fd
  | Ev_arrive fd data => arrive fd data
  | Ev_readable p readable r retry => when_pending p bv_ev_read (bufferevent_readcb oom junk p readable r retry)
  | Ev_writable p writev retry => when_pending p bv_ev_write (bufferevent_writecb add_ok p writev retry)
  | Ev_deferred => event_process_deferred_callbacks _client_read_cb _client_write_cb _client_event_cb
  end.
Fixpoint net_run (es : list net_event) : B unit :=
  match es with [] => mret tt | e :: es => net_step e ;; net_run es end.
End net.
