(* ===== verification/NetSpec.v ===== *)
(** * NetSpec: what the socket layer promises

    The specification of common/network and the bufferevents under it: a table
    of connections, each with the bytes on their way through it, and the
    daemon's code.  A connection is a pair of queues; [OnRecv] takes bytes from
    the one, [Send] appends to the other; [PendClose] ends the connection when
    all is written.  The steps are small, so that code of the daemon which
    sends to or ends other connections is one run of them. *)

From S2P Require Import Prelude Words EvBuffer BufEv Net.

(** [k_net]: arrived, not read; [k_in]: read, not consumed; [k_note]: there is
    something to tell [OnRecv]; [k_out]: sent, not written; [k_wire]: written;
    [k_pend]: to be closed when all is written; [k_broken]: ended by the peer
    or an error. *)
Record conn := mkConn {
  k_fd : Z;
  k_net : bytes;
  k_in : bytes;
  k_note : bool;
  k_out : bytes;
  k_wire : bytes;
  k_pend : bool;
  k_broken : bool
}.
Definition k_arrive (d : bytes) (k : conn) : conn :=
  mkConn (k_fd k) (k_net k ++ d) (k_in k) (k_note k) (k_out k) (k_wire k) (k_pend k) (k_broken k).
Definition k_read (n : nat) (k : conn) : conn :=
  mkConn (k_fd k) (drop n (k_net k)) (k_in k ++ take n (k_net k)) true (k_out k) (k_wire k) (k_pend k) (k_broken k).
Definition k_told (k : conn) : conn :=
  mkConn (k_fd k) (k_net k) (k_in k) false (k_out k) (k_wire k) (k_pend k) (k_broken k).
Definition k_take (n : nat) (k : conn) : conn :=
  mkConn (k_fd k) (k_net k) (drop n (k_in k)) (k_note k) (k_out k) (k_wire k) (k_pend k) (k_broken k).
Definition k_send (d : bytes) (k : conn) : conn :=
  mkConn (k_fd k) (k_net k) (k_in k) (k_note k) (k_out k ++ d) (k_wire k) (k_pend k) (k_broken k).
Definition k_write (n : nat) (k : conn) : conn :=
  mkConn (k_fd k) (k_net k) (k_in k) (k_note k) (drop n (k_out k)) (k_wire k ++ take n (k_out k)) (k_pend k) (k_broken k).
Definition k_set_pend (x : bool) (k : conn) : conn :=
  mkConn (k_fd k) (k_net k) (k_in k) (k_note k) (k_out k) (k_wire k) x (k_broken k).
Definition k_break (k : conn) : conn :=
  mkConn (k_fd k) (k_net k) (k_in k) (k_note k) (k_out k) (k_wire k) (k_pend k) true.
Definition new_conn (fd : Z) : conn := mkConn fd [] [] false [] [] false false.

Section spec.
Context {U : Type} (D : app U).
(** There may be too little memory for what is sent. *)
Context (lossy : Prop).

(** [sv_sends]: what a destructor still sends; [sv_run]: the [OnRecv] that is
    running, and for which connection. *)
Record netspec := mkSpec {
  sp_conns : gmap nat conn;
  sp_up : U;
  sp_sends : list (nat * bytes);
  sp_run : option (nat * prog U)
}.

(** The connection may be ended. *)
Definition may_close (k : conn) : Prop := k_broken k = true \/ (k_pend k = true /\ k_out k = []).

(** What comes from outside: a connection [c] on the descriptor [fd], or one
    that there is no memory for; bytes that arrive; transfers between the
    socket and the queues; the end of a connection. *)
Inductive label :=
  | L_open (c : nat) (fd : Z)
  | L_refuse (c : nat)
  | L_arrive (fd : Z) (d : bytes)
  | L_read (fd : Z) (n : nat)
  | L_write (fd : Z) (n : nat)
  | L_break (fd : Z).
Inductive e_step : label -> netspec -> netspec -> Prop :=
  | S_open c fd C u u' : C !! c = None -> (forall c' k, C !! c' = Some k -> k_fd k <> fd) -> app_new D c u = Ret u' ->
      e_step (L_open c fd) (mkSpec C u [] None) (mkSpec (<[c := new_conn fd]> C) u' [] None)
  | S_refuse c C u u' sends u'' : C !! c = None -> app_new D c u = Ret u' -> app_delete D c u' = Ret (sends, u'') ->
      e_step (L_refuse c) (mkSpec C u [] None) (mkSpec C u'' sends None)
  | S_arrive c k d C u : C !! c = Some k -> e_step (L_arrive (k_fd k) d) (mkSpec C u [] None) (mkSpec (<[c := k_arrive d k]> C) u [] None)
  | S_read c k n C u : C !! c = Some k -> (0 < n <= length (k_net k))%nat ->
      e_step (L_read (k_fd k) n) (mkSpec C u [] None) (mkSpec (<[c := k_read n k]> C) u [] None)
  | S_write c k n C u : C !! c = Some k -> (0 < n <= length (k_out k))%nat ->
      e_step (L_write (k_fd k) n) (mkSpec C u [] None) (mkSpec (<[c := k_write n k]> C) u [] None)
  | S_break c k C u : C !! c = Some k -> e_step (L_break (k_fd k)) (mkSpec C u [] None) (mkSpec (<[c := k_break k]> C) u [] None).

(** What the server and the daemon's code do. *)
Inductive d_step : netspec -> netspec -> Prop :=
  | S_recv c k C u : C !! c = Some k -> k_note k = true ->
      d_step (mkSpec C u [] None) (mkSpec (<[c := k_told k]> C) u [] (Some (c, app_recv D c)))
  | S_close c k C u sends u' : C !! c = Some k -> may_close k -> app_delete D c u = Ret (sends, u') ->
      d_step (mkSpec C u [] None) (mkSpec (delete c C) u' sends None)
  | S_say c k d C u r run : C !! c = Some k -> d_step (mkSpec C u ((c, d) :: r) run) (mkSpec (<[c := k_send d k]> C) u r run)
  | S_say_lost c d C u r run : lossy -> d_step (mkSpec C u ((c, d) :: r) run) (mkSpec C u r run)
  | R_done c C u : d_step (mkSpec C u [] (Some (c, Done))) (mkSpec C u [] None)
  | R_upd c C u A f (k : A -> prog U) a u' : f u = Ret (a, u') -> d_step (mkSpec C u [] (Some (c, Upd f k))) (mkSpec C u' [] (Some (c, k a)))
  | R_length c x C u k : C !! c = Some x -> d_step (mkSpec C u [] (Some (c, Length k))) (mkSpec C u [] (Some (c, k (Z.of_nat (length (k_in x))))))
  | R_copyout c x C u n k : C !! c = Some x ->
      d_step (mkSpec C u [] (Some (c, Copyout n k)))
              (mkSpec C u [] (Some (c, k (Z.min n (Z.of_nat (length (k_in x))), take (Z.to_nat n) (k_in x)))))
  | R_read c x C u n k : C !! c = Some x ->
      d_step (mkSpec C u [] (Some (c, Read n k)))
              (mkSpec (<[c := k_take (Z.to_nat n) x]> C) u [] (Some (c, k (Z.min n (Z.of_nat (length (k_in x))), take (Z.to_nat n) (k_in x)))))
  | R_drain c x C u n k : C !! c = Some x ->
      d_step (mkSpec C u [] (Some (c, Drain n k))) (mkSpec (<[c := k_take (Z.to_nat n) x]> C) u [] (Some (c, k)))
  | R_send c q x d C u k : C !! q = Some x ->
      d_step (mkSpec C u [] (Some (c, Send q d k))) (mkSpec (<[q := k_send d x]> C) u [] (Some (c, k)))
  | R_send_lost c q d C u k : lossy -> d_step (mkSpec C u [] (Some (c, Send q d k))) (mkSpec C u [] (Some (c, k)))
  | R_pend c x C u k : C !! c = Some x -> k_out x <> [] ->
      d_step (mkSpec C u [] (Some (c, PendClose c k))) (mkSpec (<[c := k_set_pend true x]> C) u [] (Some (c, k)))
  | R_close c x C u k sends u' : C !! c = Some x -> k_out x = [] -> app_delete D c u = Ret (sends, u') ->
      d_step (mkSpec C u [] (Some (c, PendClose c k))) (mkSpec (delete c C) u' sends (Some (c, k))).
Definition d_steps : netspec -> netspec -> Prop := rtc d_step.

(** ** When the daemon's code breaks the rules *)

Definition fails {A} (r : result A) : Prop := forall a, r <> Ret a.
Definition size_t_ok (n : Z) : Prop := 0 <= n < 2 ^ 64.
#[export] Instance size_t_ok_dec n : Decision (size_t_ok n).
Proof. unfold size_t_ok. apply _. Defined.
(** The code fails by itself, uses a connection that is gone, ends another
    connection than its own, or hands over a size no [size_t] has. *)
Inductive at_fault : netspec -> Prop :=
  | F_close c k C u : C !! c = Some k -> may_close k -> fails (app_delete D c u) -> at_fault (mkSpec C u [] None)
  | F_say c d r C u run : C !! c = None -> at_fault (mkSpec C u ((c, d) :: r) run)
  | F_upd c C u A f (k : A -> prog U) : fails (f u) -> at_fault (mkSpec C u [] (Some (c, Upd f k)))
  | F_gone c C u q : C !! c = None ->
      match q with Length _ | Copyout _ _ | Read _ _ | Drain _ _ => True | _ => False end -> at_fault (mkSpec C u [] (Some (c, q)))
  | F_size c C u q : match q with Copyout n _ | Read n _ | Drain n _ => ~ size_t_ok n | _ => False end -> at_fault (mkSpec C u [] (Some (c, q)))
  | F_send c q d C u k : C !! q = None -> at_fault (mkSpec C u [] (Some (c, Send q d k)))
  | F_pend c q C u k : q <> c \/ C !! c = None -> at_fault (mkSpec C u [] (Some (c, PendClose q k)))
  | F_delete c x C u k : C !! c = Some x -> k_out x = [] -> fails (app_delete D c u) -> at_fault (mkSpec C u [] (Some (c, PendClose c k))).
(** The constructor fails, or the destructor right behind it. *)
Inductive e_fault : label -> netspec -> Prop :=
  | F_new c fd C u : fails (app_new D c u) -> e_fault (L_open c fd) (mkSpec C u [] None)
  | F_new_refuse c C u : fails (app_new D c u) -> e_fault (L_refuse c) (mkSpec C u [] None)
  | F_refuse c C u u' : app_new D c u = Ret u' -> fails (app_delete D c u') -> e_fault (L_refuse c) (mkSpec C u [] None).
(** A gigabyte waits on a connection. *)
Definition huge (k : conn) : Prop := 2 ^ 30 <= Z.of_nat (length (k_in k)) \/ 2 ^ 30 <= Z.of_nat (length (k_out k)).
Definition overfull (a : netspec) : Prop := exists c k, sp_conns a !! c = Some k /\ huge k.
Definition stuck (a : netspec) : Prop := at_fault a \/ overfull a.
End spec.
Arguments netspec U : clear implicits.
