(* ===== verification/NetInv.v ===== *)
(** * NetInv: the socket layer keeps its tables together

    [sim] relates the objects of the running program (clients, bufferevents,
    the table of descriptors, the deferred callbacks, open sockets) with the
    connections of NetSpec: they correspond one to one, every buffer holds its
    queue, every bufferevent is counted as often as it is referenced.  [ok] is
    the judgement that a piece of the program does what steps of the
    specification do, unless the daemon's code breaks its rules. *)

From S2P Require Import Prelude Words EvBuffer EvQueue EvRead BufEv Net NetSpec.

(** ** Runs *)

Section runs.
Context {R : Type}.
Implicit Types s : evbase R.

Lemma bbind_eq {A C} (m : B R A) (f : A -> B R C) s a s' : m s = Ret (a, s') -> (m ≫= f) s = f a s'.
Proof. intros H. unfold mbind, B_bind. by rewrite H. Qed.
Definition put (p : nat) (v : bufferevent) s : evbase R := set_bevs (<[p := v]> (eb_bevs s)) s.
Lemma put_put p v w s : put p w (put p v s) = put p w s.
Proof. destruct s. unfold put. cbn. by rewrite insert_insert_eq. Qed.
Lemma put_at p v s : eb_bevs (put p v s) !! p = Some v.
Proof. destruct s. cbn. apply lookup_insert_eq. Qed.
Lemma put_same p v s : eb_bevs s !! p = Some v -> put p v s = s.
Proof. intros H. destruct s. unfold put. cbn in *. by rewrite insert_id. Qed.
Lemma bev_run p v s : eb_bevs s !! p = Some v -> bev p s = Ret (v, s).
Proof. intros H. unfold bev. by rewrite H. Qed.
Lemma edit_bev_run p f v s : eb_bevs s !! p = Some v -> edit_bev p f s = Ret (tt, put p (f v) s).
Proof. intros H. unfold edit_bev. by rewrite (bbind_eq _ _ _ _ _ (bev_run _ _ _ H)). Qed.
Lemma on_input_run {A} p (m : E A) v a b s : eb_bevs s !! p = Some v -> m (bv_input v) = Ret (a, b) ->
  on_input p m s = Ret (a, put p (set_input b v) s).
Proof. intros H Hm. unfold on_input. by rewrite (bbind_eq _ _ _ _ _ (bev_run _ _ _ H)), Hm, (bbind_eq _ _ _ _ _ (edit_bev_run _ _ _ _ H)). Qed.
Lemma on_output_run {A} p (m : E A) v a b s : eb_bevs s !! p = Some v -> m (bv_output v) = Ret (a, b) ->
  on_output p m s = Ret (a, put p (set_output b v) s).
Proof. intros H Hm. unfold on_output. by rewrite (bbind_eq _ _ _ _ _ (bev_run _ _ _ H)), Hm, (bbind_eq _ _ _ _ _ (edit_bev_run _ _ _ _ H)). Qed.
Lemma set_input_same v : set_input (bv_input v) v = v.
Proof. by destruct v. Qed.
Lemma set_output_same v : set_output (bv_output v) v = v.
Proof. by destruct v. Qed.
(** Looking at a buffer. *)
Lemma look_input {A} p (f : evbuffer -> A) v s : eb_bevs s !! p = Some v -> on_input p (ev f) s = Ret (f (bv_input v), s).
Proof. intros H. rewrite (on_input_run p _ v _ (bv_input v) s H eq_refl), set_input_same. by rewrite put_same. Qed.
Lemma look_output {A} p (f : evbuffer -> A) v s : eb_bevs s !! p = Some v -> on_output p (ev f) s = Ret (f (bv_output v), s).
Proof. intros H. rewrite (on_output_run p _ v _ (bv_output v) s H eq_refl), set_output_same. by rewrite put_same. Qed.
Lemma holds_length k b bs : holds k b bs -> eb_total_len b = Z.of_nat (length bs).
Proof. intros (cs & Hr & <- & _). apply (er_total _ _ _ Hr). Qed.
End runs.

(** The next steps, when they look at or edit a bufferevent that is known. *)
Ltac here := first [apply put_at | eassumption].
Ltac bstep :=
  match goal with
  | |- context [mbind ?f (bev ?p) ?s] => erewrite (bbind_eq (bev p) f s) by (apply bev_run; here)
  | |- context [mbind ?f (edit_bev ?p ?g) ?s] => erewrite (bbind_eq (edit_bev p g) f s) by (apply edit_bev_run; here); rewrite ?put_put
  | |- context [edit_bev ?p ?g ?s] => erewrite (edit_bev_run p g _ s) by here; rewrite ?put_put
  end.
Ltac bgo := repeat (bstep; cbv beta).

Section relation.
Context {U : Type}.
Abbreviation net := (evbase (socks U)).

(** ** The relation *)

(** What the buffers of a bufferevent are set up to. *)
Definition input_set (b : evbuffer) : Prop := eb_freeze_start b = false /\ eb_freeze_end b = true /\ eb_callbacks b = [].
Definition output_set (b : evbuffer) : Prop := eb_freeze_start b = true /\ eb_freeze_end b = false /\ eb_callbacks b = [EVBUFFER_CB_ENABLED].
(** [run]: the bufferevent whose deferred callbacks run, and its client. *)
Definition running (run : option (nat * nat)) (p : nat) : bool := bool_decide (fst <$> run = Some p).
Record bev_ok (run : option (nat * nat)) (p c : nat) (k : conn) (v : bufferevent) : Prop := {
  bo_fd : bv_fd v = k_fd k;
  bo_arg : bv_cbarg v = Some c;
  bo_in : holds In (bv_input v) (k_in k);
  bo_in_set : input_set (bv_input v);
  bo_out : holds Out (bv_output v) (k_out k);
  bo_out_set : output_set (bv_output v);
  bo_note : bv_readcb_pending v = k_note k;
  bo_ref : bv_refcnt v = 1 + Z.b2z (bv_queued v) + Z.b2z (running run p);
  bo_quiet : running run p = true -> bv_queued v = false;
  bo_event : bv_eventcb_pending v <> 0 -> k_broken k = true;
  bo_conn : Z.land (bv_eventcb_pending v) BEV_EVENT_CONNECTED = 0
}.
Definition tcp_of (k : conn) (p : nat) : TcpClient := mkTcp (k_fd k) true (k_pend k) (Some p).
Definition sock_of (k : conn) : sock := mkSock (k_net k) (k_wire k).
(** A bufferevent whose client is gone while its callbacks run. *)
Definition orphan (s : net) (v : bufferevent) : Prop :=
  bv_cbarg v = None /\ bv_refcnt v = 1 /\ bv_queued v = false /\ eb_open s !! bv_fd v = None.

(** [F]: the descriptors that are no connections; [leaving]: a connection that
    is being deleted, and is in the table no more; [X]: clients without a
    bufferevent. *)
Record sim (F : gset Z) (run : option (nat * nat)) (leaving : option nat) (X : gmap nat TcpClient) (s : net) (C : gmap nat conn) (u : U) : Prop := {
  si_up : up s = u;
  si_conn : forall c k, C !! c = Some k -> exists p v, objs s !! c = Some (tcp_of k p) /\ eb_bevs s !! p = Some v /\
    bev_ok run p c k v /\ eb_open s !! k_fd k = Some (sock_of k) /\ k_fd k ∉ F;
  si_map : forall fd c, fd_map s !! fd = Some c <-> exists k, C !! c = Some k /\ k_fd k = fd /\ leaving <> Some c;
  si_inj : forall c c' k k', C !! c = Some k -> C !! c' = Some k' -> k_fd k = k_fd k' -> c = c';
  si_rest : forall c, C !! c = None -> objs s !! c = X !! c;
  si_bev : forall p v, eb_bevs s !! p = Some v ->
    (exists c k, C !! c = Some k /\ objs s !! c = Some (tcp_of k p)) \/ (fst <$> run = Some p /\ orphan s v);
  si_open : forall fd, is_Some (eb_open s !! fd) <->
    fd ∈ F \/ (exists c k, C !! c = Some k /\ k_fd k = fd) \/ (exists c o, X !! c = Some o /\ tc_fd o = fd);
  si_nodup : NoDup (eb_deferred s);
  si_queue : forall p, p ∈ eb_deferred s <-> exists v, eb_bevs s !! p = Some v /\ bv_queued v = true;
  si_fresh : forall n, (eb_next s <= n)%nat -> C !! n = None /\ objs s !! n = None /\ eb_bevs s !! n = None;
  si_run : forall p c, run = Some (p, c) -> is_Some (C !! c) -> tc_bufev <$> objs s !! c = Some (Some p);
  si_runs : forall p c, run = Some (p, c) -> is_Some (eb_bevs s !! p);
  si_mine : forall p c c' k, run = Some (p, c) -> C !! c' = Some k -> objs s !! c' = Some (tcp_of k p) -> c' = c
}.

End relation.
Arguments si_up {U F run leaving X s C u}. Arguments si_conn {U F run leaving X s C u}. Arguments si_map {U F run leaving X s C u}.
Arguments si_inj {U F run leaving X s C u}. Arguments si_rest {U F run leaving X s C u}. Arguments si_bev {U F run leaving X s C u}.
Arguments si_open {U F run leaving X s C u}. Arguments si_nodup {U F run leaving X s C u}. Arguments si_queue {U F run leaving X s C u}.
Arguments si_fresh {U F run leaving X s C u}. Arguments si_run {U F run leaving X s C u}. Arguments si_runs {U F run leaving X s C u}. Arguments si_mine {U F run leaving X s C u}.
Arguments bo_fd {run p c k v}. Arguments bo_arg {run p c k v}. Arguments bo_in {run p c k v}. Arguments bo_in_set {run p c k v}.
Arguments bo_out {run p c k v}. Arguments bo_out_set {run p c k v}. Arguments bo_note {run p c k v}. Arguments bo_ref {run p c k v}.
Arguments bo_quiet {run p c k v}. Arguments bo_event {run p c k v}. Arguments bo_conn {run p c k v}. 

Section relation.
Context {U : Type}.
Abbreviation net := (evbase (socks U)).
Implicit Types (s : net) (u : U).

(** The bufferevent belongs to one client. *)
Lemma sim_owner F run lv X s C u c c' k k' p : sim F run lv X s C u -> C !! c = Some k -> C !! c' = Some k' ->
  objs s !! c = Some (tcp_of k p) -> objs s !! c' = Some (tcp_of k' p) -> c = c'.
Proof.
  intros S Hc Hc' Ho Ho'. destruct (si_conn S _ _ Hc) as (p1 & v1 & Ho1 & Hv1 & Hb1 & _).
  destruct (si_conn S _ _ Hc') as (p2 & v2 & Ho2 & Hv2 & Hb2 & _).
  rewrite Ho in Ho1. rewrite Ho' in Ho2. injection Ho1 as <-. injection Ho2 as <-. rewrite Hv1 in Hv2. injection Hv2 as <-.
  pose proof (bo_arg Hb1) as E1. rewrite (bo_arg Hb2) in E1. by injection E1.
Qed.

(** Changing a connection, its bufferevent and its socket. *)
Definition touched (p : nat) (v : bufferevent) (dq : list nat) (fd : Z) (o : sock) (s : net) : net :=
  mkBase (<[p := v]> (eb_bevs s)) dq (<[fd := o]> (eb_open s)) (eb_next s) (eb_rest s).
Definition requeued (p : nat) (v v' : bufferevent) (q q' : list nat) : Prop :=
  (bv_queued v' = true /\ bv_queued v = false /\ q' = q ++ [p]) \/ (bv_queued v' = bv_queued v /\ q' = q).
Lemma requeued_nodup F run lv X s C u p v v' dq : sim F run lv X s C u -> eb_bevs s !! p = Some v -> requeued p v v' (eb_deferred s) dq -> NoDup dq.
Proof.
  intros S Hv [(Hq' & Hq & ->)|[_ ->]]; [|apply (si_nodup S)]. apply NoDup_app. split_and!; [apply (si_nodup S)| |apply NoDup_singleton].
  intros x Hx ->%list_elem_of_singleton. apply (si_queue S) in Hx as (w & Hw & Hwq). congruence.
Qed.
Lemma requeued_queue F run lv X s C u p v v' dq : sim F run lv X s C u -> eb_bevs s !! p = Some v -> requeued p v v' (eb_deferred s) dq ->
  forall x, x ∈ dq <-> exists w, (<[p := v']> (eb_bevs s)) !! x = Some w /\ bv_queued w = true.
Proof.
  intros S Hv Hd x. pose proof (si_queue S x) as Hx. destruct (decide (x = p)) as [->|Hne].
  - rewrite lookup_insert_eq. destruct Hd as [(Hq' & Hq & ->)|[Hq ->]].
    + split; [|intros _; apply elem_of_app; right; by apply list_elem_of_singleton]. intros _. by exists v'.
    + rewrite Hx. split; [intros (w & Hw & Hwq); exists v'; split; [done|congruence]|intros (w & [= <-] & Hwq); exists v; split; [done|congruence]].
  - rewrite lookup_insert_ne by done. destruct Hd as [(Hq' & Hq & ->)|[Hq ->]]; [|done]. rewrite elem_of_app, list_elem_of_singleton, <- Hx. naive_solver.
Qed.
Lemma sim_touch F run lv X s C u c k k' p v v' dq : sim F run lv X s C u -> C !! c = Some k -> objs s !! c = Some (tcp_of k p) -> eb_bevs s !! p = Some v ->
  bev_ok run p c k' v' -> k_fd k' = k_fd k -> k_pend k' = k_pend k -> requeued p v v' (eb_deferred s) dq ->
  sim F run lv X (touched p v' dq (k_fd k) (sock_of k') s) (<[c := k']> C) u.
Proof.
  intros S Hc Ho Hv Hb Hfd Hpe Hd. assert (tcp_of k' p = tcp_of k p) as Et by (unfold tcp_of; by rewrite Hfd, Hpe).
  assert (forall c1 k1, (<[c := k']> C) !! c1 = Some k1 -> exists k0, C !! c1 = Some k0 /\ k_fd k0 = k_fd k1 /\ forall q, tcp_of k0 q = tcp_of k1 q) as Hold.
  { intros c1 k1. destruct (decide (c1 = c)) as [->|Hne]; [rewrite lookup_insert_eq; intros [= <-]; exists k; split_and!; [done..|]; intros q; unfold tcp_of; by rewrite Hfd, Hpe|rewrite lookup_insert_ne by done; intros H; by exists k1]. }
  assert (forall c1 k0, C !! c1 = Some k0 -> exists k1, (<[c := k']> C) !! c1 = Some k1 /\ k_fd k1 = k_fd k0 /\ forall q, tcp_of k1 q = tcp_of k0 q) as Hnew.
  { intros c1 k0 H. destruct (decide (c1 = c)) as [->|Hne]; [rewrite lookup_insert_eq; exists k'; assert (k0 = k) as -> by congruence; split_and!; [done..|]; intros q; unfold tcp_of; by rewrite Hfd, Hpe|rewrite lookup_insert_ne by done; by exists k0]. }
  split.
  - apply (si_up S).
  - intros c1 k1. destruct (decide (c1 = c)) as [->|Hne].
    + rewrite lookup_insert_eq. intros [= <-]. exists p, v'. cbn. rewrite !lookup_insert_eq. rewrite Hfd, lookup_insert_eq. rewrite Et. split_and!; [done..|].
      destruct (si_conn S _ _ Hc) as (? & ? & _ & _ & _ & _ & HF). done.
    + rewrite lookup_insert_ne by done. intros H1. destruct (si_conn S _ _ H1) as (p1 & v1 & Ho1 & Hv1 & Hb1 & Hs1 & HF1). exists p1, v1. cbn. split; [done|].
      rewrite !lookup_insert_ne; [done| |].
      * intros E. apply Hne. by apply (si_inj S c1 c k1 k).
      * intros ->. apply Hne. by apply (sim_owner _ _ _ _ _ _ _ _ _ _ _ _ S H1 Hc Ho1 Ho).
  - intros fd c1. cbn. rewrite (si_map S fd c1). split.
    + intros (k0 & H0 & E & Hl). destruct (Hnew _ _ H0) as (k1 & H1 & E1 & _). exists k1. rewrite E1. done.
    + intros (k1 & H1 & E & Hl). destruct (Hold _ _ H1) as (k0 & H0 & E0 & _). exists k0. rewrite E0. done.
  - intros c1 c2 k1 k2 H1 H2 E. destruct (Hold _ _ H1) as (k3 & H3 & E3 & _), (Hold _ _ H2) as (k4 & H4 & E4 & _). apply (si_inj S _ _ _ _ H3 H4). congruence.
  - intros c1. destruct (decide (c1 = c)) as [->|Hne]; [by rewrite lookup_insert_eq|]. rewrite lookup_insert_ne by done. apply (si_rest S).
  - intros x w. cbn. destruct (decide (x = p)) as [->|Hne].
    + rewrite lookup_insert_eq. intros _. left. exists c, k'. rewrite lookup_insert_eq, Et. done.
    + rewrite lookup_insert_ne by done. intros Hw. destruct (si_bev S _ _ Hw) as [(c0 & k0 & H0 & Ho0)|[Hr Horp]].
      * left. destruct (Hnew _ _ H0) as (k1 & H1 & _ & E1). exists c0, k1. by rewrite E1.
      * right. split; [done|]. destruct Horp as (H1 & H2 & H3 & H4). split_and!; [done..|]. cbn. rewrite lookup_insert_ne; [done|]. intros E.
        destruct (si_conn S _ _ Hc) as (? & ? & _ & _ & _ & Hs & _). rewrite E in Hs. congruence.
  - intros fd. cbn. assert (is_Some ((<[k_fd k := sock_of k']> (eb_open s)) !! fd) <-> is_Some (eb_open s !! fd)) as ->.
    { destruct (decide (fd = k_fd k)) as [->|Hne]; [|by rewrite lookup_insert_ne]. rewrite lookup_insert_eq. destruct (si_conn S _ _ Hc) as (? & ? & _ & _ & _ & -> & _). split; eauto. }
    rewrite (si_open S fd). split; (intros [H|[(c0 & k0 & H0 & <-)|H]]; [by left|right; left|by right; right]).
    + destruct (Hnew _ _ H0) as (k1 & H1 & E1 & _). by exists c0, k1.
    + destruct (Hold _ _ H0) as (k1 & H1 & E1 & _). by exists c0, k1.
  - by apply (requeued_nodup _ _ _ _ _ _ _ _ _ _ _ S Hv Hd).
  - by apply (requeued_queue _ _ _ _ _ _ _ _ _ _ _ S Hv Hd).
  - intros n Hn. cbn in Hn. destruct (si_fresh S n Hn) as (H1 & H2 & H3). cbn. rewrite !lookup_insert_ne; [done|congruence|congruence].
  - intros p1 c1 Hr [k1 H1]. destruct (Hold _ _ H1) as (k0 & H0 & _). apply (si_run S _ _ Hr). by exists k0.
  - intros p1 c1 Hr. cbn. destruct (decide (p1 = p)) as [->|Hne]; [rewrite lookup_insert_eq; eauto|rewrite lookup_insert_ne by done]. by apply (si_runs S _ _ Hr).
  - intros p1 c1 c2 k2 Hr H2 Ho2. destruct (Hold _ _ H2) as (k0 & H0 & _ & E0). apply (si_mine S _ _ _ _ Hr H0). by rewrite E0.
Qed.
Lemma put_touched p v k s : eb_open s !! k_fd k = Some (sock_of k) -> put p v s = touched p v (eb_deferred s) (k_fd k) (sock_of k) s.
Proof. intros H. unfold put, touched. destruct s. cbn in *. by rewrite (insert_id _ _ _ H). Qed.
(** Changing a connection and its bufferevent only. *)
Lemma sim_put F run lv X s C u c k k' p v v' : sim F run lv X s C u -> C !! c = Some k -> objs s !! c = Some (tcp_of k p) -> eb_bevs s !! p = Some v ->
  bev_ok run p c k' v' -> k_fd k' = k_fd k -> k_pend k' = k_pend k -> sock_of k' = sock_of k -> bv_queued v' = bv_queued v ->
  sim F run lv X (put p v' s) (<[c := k']> C) u.
Proof.
  intros S Hc Ho Hv Hb Hfd Hpe Hso Hq. destruct (si_conn S _ _ Hc) as (? & ? & _ & _ & _ & Hs & _). rewrite (put_touched _ _ _ _ Hs), <- Hso.
  apply (sim_touch _ _ _ _ _ _ _ _ k k' p v v' _ S Hc Ho Hv Hb Hfd Hpe). by right.
Qed.
(** ** Deleting a client *)

Lemma sim_set_up F run lv X s C u u' : sim F run lv X s C u -> sim F run lv X (set_up u' s) C u'.
Proof. intros [H1 H2 H3 H4 H5 H6 H7 H8 H9 H10 H11 H12 H13]. destruct s. split; try done. Qed.
Lemma daemon_run {A} (f : U -> result (A * U)) F run lv X s C u a u' : sim F run lv X s C u -> f u = Ret (a, u') -> daemon f s = Ret (a, set_up u' s).
Proof. intros S E. unfold daemon. rewrite (bbind_eq (look up) _ s u s) by (unfold look; by rewrite (si_up S)). by rewrite E. Qed.
Lemma sim_leave F run X s C u c k : sim F run None X s C u -> C !! c = Some k ->
  sim F run (Some c) X (set_fd_map (delete (k_fd k) (fd_map s)) s) C u.
Proof.
  intros S Hc. pose proof S as [H1 H2 H3 H4 H5 H6 H7 H8 H9 H10 H11 H12 H13]. destruct s as [bevs dq opn nx [ob fm upv]]. split; try done.
  intros fd c'. cbn in *. rewrite lookup_delete. case_decide as E.
  - split; [done|]. intros (k' & Hk' & <- & Hne). exfalso. apply Hne. f_equal. by apply (H4 c c' k k').
  - rewrite (H3 fd c'). split; intros (k' & Hk' & E' & _); exists k'; split_and!; [done|done| |done|done|done]. intros [= ->]. congruence.
Qed.

(** The mark of [PendClose]. *)
Lemma sim_pending F run lv X s C u c k p y : sim F run lv X s C u -> C !! c = Some k -> objs s !! c = Some (tcp_of k p) ->
  sim F run lv X (set_objs (<[c := set_pend_close y (tcp_of k p)]> (objs s)) s) (<[c := k_set_pend y k]> C) u.
Proof.
  intros S Hc Ho. destruct (si_conn S _ _ Hc) as (p0 & v & Ho0 & Hv & Hb & Hs & HF). rewrite Ho in Ho0. injection Ho0 as <-. destruct s as [bevs dq opn nx [ob fm upv]]. cbn in *.
  assert (forall c1 k1, (<[c := k_set_pend y k]> C) !! c1 = Some k1 -> exists k0, C !! c1 = Some k0 /\ k_fd k0 = k_fd k1) as Hold.
  { intros c1 k1. rewrite lookup_insert. case_decide as E; [subst; intros [= <-]; by exists k|intros H; by exists k1]. }
  assert (forall c1 k0, C !! c1 = Some k0 -> exists k1, (<[c := k_set_pend y k]> C) !! c1 = Some k1 /\ k_fd k1 = k_fd k0) as Hnew.
  { intros c1 k0 H. rewrite lookup_insert. case_decide as E; [subst; exists (k_set_pend y k); by rewrite Hc in H; injection H as <-|by exists k0]. }
  split; cbn; try apply S.
  - intros c1 k1. rewrite !lookup_insert. case_decide as E.
    + subst. intros [= <-]. exists p, v. split_and!; [done|done| |done|done]. by destruct Hb.
    + intros H1. destruct (si_conn S _ _ H1) as (p1 & v1 & Ho1 & H2). by exists p1, v1.
  - intros fd c1. rewrite (si_map S fd c1). split; intros (k1 & H1 & E & Hl).
    + destruct (Hnew _ _ H1) as (k2 & H2 & E2). exists k2. by rewrite E2.
    + destruct (Hold _ _ H1) as (k2 & H2 & E2). exists k2. by rewrite E2.
  - intros c1 c2 k1 k2 H1 H2 E. destruct (Hold _ _ H1) as (k3 & H3 & E3), (Hold _ _ H2) as (k4 & H4 & E4). apply (si_inj S _ _ _ _ H3 H4). congruence.
  - intros c1 H1. rewrite lookup_insert in H1. rewrite lookup_insert. case_decide; [done|]. by apply (si_rest S).
  - intros x w Hw. destruct (si_bev S _ _ Hw) as [(c1 & k1 & H1 & Ho1)|H]; [left|by right]. exists c1. cbn in Ho1. rewrite !lookup_insert. case_decide as E; [|by exists k1].
    subst. exists (k_set_pend y k). split; [done|]. rewrite Ho in Ho1. unfold tcp_of in *. cbn. by injection Ho1 as _ _ ->.
  - intros fd. rewrite (si_open S fd). split; (intros [H|[(c1 & k1 & H1 & E1)|H]]; [by left|right; left|by right; right]).
    + destruct (Hnew _ _ H1) as (k2 & H2 & E2). exists c1, k2. by rewrite E2.
    + destruct (Hold _ _ H1) as (k2 & H2 & E2). exists c1, k2. by rewrite E2.
  - intros n Hn. destruct (si_fresh S n Hn) as (H1 & H2 & H3). cbn in H2. rewrite !lookup_insert_ne by congruence. done.
  - intros p1 c1 Hr [k1 H1]. destruct (Hold _ _ H1) as (k2 & H2 & _). pose proof (si_run S _ _ Hr ltac:(eauto)) as E. cbn in E. rewrite lookup_insert. case_decide as E1; [|done].
    subst. rewrite Ho in E. by injection E as ->.
  - intros p1 c1 c2 k2 Hr. rewrite !lookup_insert. case_decide as E; [intros [= <-] [= <-]; subst c; by apply (si_mine S _ _ _ _ Hr Hc)|]. apply (si_mine S _ _ _ _ Hr).
Qed.

(** A socket that is no connection. *)
Lemma sim_other F run lv X s C u m : sim F run lv X s C u -> (forall fd, is_Some (m !! fd) <-> is_Some (eb_open s !! fd)) ->
  (forall c k, C !! c = Some k -> m !! k_fd k = eb_open s !! k_fd k) -> sim F run lv X (set_open m s) C u.
Proof.
  intros S Hm Hk. destruct s as [bevs dq opn nx rst]. split; cbn; try apply S.
  - intros c k Hc. destruct (si_conn S _ _ Hc) as (p & v & H1 & H2 & H3 & H4 & H5). exists p, v. cbn in *. by rewrite (Hk _ _ Hc).
  - intros p v Hv. destruct (si_bev S _ _ Hv) as [H|(Hr & H1 & H2 & H3 & H4)]; [by left|right]. split; [done|]. split_and!; [done..|]. cbn in *.
    apply eq_None_not_Some. rewrite Hm. by rewrite H4; intros [].
  - intros fd. rewrite Hm. apply (si_open S fd).
Qed.
(** A client is created, and registered or dropped. *)
Lemma sim_new F s C u fd o : sim F None None ∅ s C u -> eb_open s !! fd = None -> tc_fd o = fd ->
  sim F None None {[eb_next s := o]} (mkBase (eb_bevs s) (eb_deferred s) (<[fd := mkSock [] []]> (eb_open s)) (S (eb_next s)) (mkSocks (<[eb_next s := o]> (objs s)) (fd_map s) (up s))) C u.
Proof.
  intros S Hfd Ho. destruct (si_fresh S (eb_next s) (le_n _)) as (Hc0 & Ho0 & Hv0).
  split; cbn; try apply S; try done.
  - intros c k Hc. destruct (si_conn S _ _ Hc) as (p & v & H1 & H2 & H3 & H4 & H5). exists p, v. rewrite !lookup_insert_ne by congruence. done.
  - intros c Hc. rewrite lookup_insert. case_decide as E; [subst; by rewrite lookup_singleton_eq|]. rewrite lookup_singleton_ne by done. by apply (si_rest S).
  - intros p v Hv. destruct (si_bev S _ _ Hv) as [(c & k & Hc & Hoc)|[? _]]; [|done]. left. exists c, k. rewrite lookup_insert_ne by congruence. done.
  - intros fd'. rewrite lookup_insert. case_decide as E.
    + subst fd'. split; [|eauto]. intros _. right. right. exists (eb_next s), o. by rewrite lookup_singleton_eq.
    + rewrite (si_open S fd'). split; [intros [H|[H|(? & ? & ? & _)]]; [by left|by right; left|done]|]. intros [H|[H|(c1 & o1 & H1 & E1)]]; [by left|by right; left|].
      apply lookup_singleton_Some in H1 as [<- <-]. congruence.
  - intros n Hn. destruct (si_fresh S n ltac:(lia)) as (H1 & H2 & H3). rewrite lookup_insert_ne by lia. done.
Qed.
Lemma sim_host F s C u c o : sim F None None {[c := o]} s C u -> C !! c = None ->
  sim F None None {[c := set_host o]} (set_objs (<[c := set_host o]> (objs s)) s) C u.
Proof.
  intros S Hc0. destruct s as [bevs dq opn nx [ob fm upv]]. split; cbn; try apply S; try done.
  - intros c1 k Hc. destruct (si_conn S _ _ Hc) as (p & v & H1). exists p, v. cbn in *. rewrite lookup_insert_ne by congruence. done.
  - intros c1 H1. rewrite lookup_insert. case_decide as E; [subst; by rewrite lookup_singleton_eq|]. rewrite lookup_singleton_ne by done. pose proof (si_rest S _ H1) as H. cbn in H. rewrite H. by apply lookup_singleton_ne.
  - intros p v Hv. destruct (si_bev S _ _ Hv) as [(c1 & k & Hc & Hoc)|[? _]]; [|done]. left. exists c1, k. cbn in *. rewrite lookup_insert_ne by congruence. done.
  - intros fd. rewrite (si_open S fd). split; (intros [H|[H|(c1 & o1 & H1 & E1)]]; [by left|by right; left|right; right; apply lookup_singleton_Some in H1 as [<- <-]]).
    + exists c, (set_host o). by rewrite lookup_singleton_eq.
    + exists c, o. by rewrite lookup_singleton_eq.
  - intros n Hn. destruct (si_fresh S n Hn) as (H1 & H2 & H3). cbn in *. rewrite lookup_insert_ne; [done|]. intros ->. pose proof (si_rest S _ H1) as H. cbn in H. rewrite H2, lookup_singleton_eq in H. done.
Qed.
Lemma sim_drop F s C u c o : sim F None None {[c := o]} s C u -> C !! c = None -> tc_fd o ∉ F -> (forall c' k, C !! c' = Some k -> k_fd k <> tc_fd o) ->
  sim F None None ∅ (mkBase (eb_bevs s) (eb_deferred s) (delete (tc_fd o) (eb_open s)) (eb_next s) (mkSocks (delete c (objs s)) (fd_map s) (up s))) C u.
Proof.
  intros S Hc0 HF Hk. split; cbn; try apply S; try done.
  - intros c1 k Hc. destruct (si_conn S _ _ Hc) as (p & v & H1 & H2 & H3 & H4 & H5). exists p, v. rewrite !lookup_delete_ne; [done| |congruence]. intros E. by apply (Hk _ _ Hc).
  - intros c1 H1. rewrite lookup_delete. case_decide as E; [done|]. rewrite (si_rest S _ H1). by rewrite lookup_singleton_ne.
  - intros p v Hv. destruct (si_bev S _ _ Hv) as [(c1 & k & Hc & Hoc)|[? _]]; [|done]. left. exists c1, k. rewrite lookup_delete_ne by congruence. done.
  - intros fd. rewrite lookup_delete. case_decide as E.
    + subst fd. split; [by intros []|]. intros [H|[(c1 & k & Hc & E1)|(? & ? & ? & _)]]; [done| |done]. by destruct (Hk _ _ Hc).
    + rewrite (si_open S fd). split; [|intros [H|[H|(? & ? & ? & _)]]; [by left|by right; left|done]]. intros [H|[H|(c1 & o1 & H1 & E1)]]; [by left|by right; left|].
      apply lookup_singleton_Some in H1 as [<- <-]. congruence.
  - intros n Hn. destruct (si_fresh S n Hn) as (H1 & H2 & H3). rewrite lookup_delete. case_decide; done.
Qed.
Lemma sim_add F s C u c p fd v : sim F None None {[c := mkTcp fd true false None]} s C u -> C !! c = None -> p = eb_next s -> eb_open s !! fd = Some (mkSock [] []) -> fd ∉ F ->
  (forall c' k, C !! c' = Some k -> k_fd k <> fd) -> (c < eb_next s)%nat -> bev_ok None p c (new_conn fd) v -> bv_queued v = false ->
  sim F None None ∅ (mkBase (<[p := v]> (eb_bevs s)) (eb_deferred s) (eb_open s) (S p) (mkSocks (<[c := tcp_of (new_conn fd) p]> (objs s)) (<[fd := c]> (fd_map s)) (up s))) (<[c := new_conn fd]> C) u.
Proof.
  intros S Hc0 Hp Hfd HF Hk Hlt Hb Hq. destruct (si_fresh S (eb_next s) (le_n _)) as (_ & _ & Hv0). rewrite <- Hp in Hv0. split; cbn; try apply S; try done.
  - intros c1 k. rewrite !lookup_insert. case_decide as E.
    + subst c1. intros [= <-]. exists p, v. by rewrite lookup_insert_eq.
    + intros Hc. destruct (si_conn S _ _ Hc) as (p1 & v1 & H1 & H2 & H3 & H4 & H5). exists p1, v1. rewrite lookup_insert_ne by congruence. done.
  - intros fd1 c1. destruct (decide (c1 = c)) as [->|Hne].
    + rewrite lookup_insert_eq. destruct (decide (fd1 = fd)) as [->|Hf]; [rewrite lookup_insert_eq; split; [by exists (new_conn fd)|done]|]. rewrite lookup_insert_ne by done.
      rewrite (si_map S fd1 c). split; [intros (k & H1 & _); congruence|intros (k & [= <-] & E2 & _); done].
    + rewrite (lookup_insert_ne C) by done. destruct (decide (fd1 = fd)) as [->|Hf]; [|rewrite lookup_insert_ne by done; apply (si_map S)]. rewrite lookup_insert_eq.
      split; [congruence|]. intros (k & H1 & E & _). by destruct (Hk _ _ H1).
  - intros c1 c2 k1 k2. rewrite !lookup_insert. do 2 case_decide; subst; try done.
    + intros [= <-] H2 E. by destruct (Hk _ _ H2).
    + intros H1 [= <-] E. by destruct (Hk _ _ H1).
    + by apply (si_inj S).
  - intros c1. rewrite !lookup_insert. case_decide as E; [done|]. intros H1. rewrite (si_rest S _ H1). by rewrite lookup_singleton_ne.
  - intros x w. rewrite lookup_insert. case_decide as E; [subst x; intros _; left; exists c, (new_conn fd); by rewrite !lookup_insert_eq|].
    intros Hw. destruct (si_bev S _ _ Hw) as [(c1 & k & Hc & Hoc)|[? _]]; [|done]. left. exists c1, k. rewrite !lookup_insert_ne by congruence. done.
  - intros fd1. rewrite (si_open S fd1). split.
    + intros [H|[(c1 & k & Hc & E)|(c1 & o1 & H1 & E1)]]; [by left|right; left; exists c1, k; by rewrite lookup_insert_ne by congruence|]. apply lookup_singleton_Some in H1 as [<- <-].
      right. left. exists c, (new_conn fd). by rewrite lookup_insert_eq.
    + intros [H|[(c1 & k & Hc & E)|(? & ? & ? & _)]]; [by left| |done]. rewrite lookup_insert in Hc. case_decide; [injection Hc as <-; subst|by right; left; exists c1, k].
      right. right. eexists _, _. split; [apply lookup_singleton_eq|done].
  - intros x. rewrite lookup_insert, (si_queue S x). case_decide as E; [|done]. subst x. rewrite Hv0. split; [by intros (? & ? & _)|intros (w & [= <-] & Hw); congruence].
  - intros n Hn. destruct (si_fresh S n ltac:(lia)) as (H1 & H2 & H3). rewrite !lookup_insert_ne by lia. done.
Qed.

(** The callbacks of a bufferevent start, and end. *)
Lemma bev_ok_run run run' p c k v : bev_ok run p c k v -> running run' p = running run p -> bev_ok run' p c k v.
Proof. intros [H1 H2 H3 H4 H5 H6 H7 H8 H9 H10 H11] E. split; rewrite ?E; done. Qed.
Lemma running_ne p c x : x <> p -> running (Some (p, c)) x = false.
Proof. intros H. unfold running. cbn. apply bool_decide_eq_false_2. congruence. Qed.
Lemma running_eq p c : running (Some (p, c)) p = true.
Proof. unfold running. cbn. by apply bool_decide_eq_true_2. Qed.
Lemma sim_start F s C u p q : sim F None None ∅ s C u -> eb_deferred s = p :: q -> exists c k v, C !! c = Some k /\ eb_bevs s !! p = Some v /\
  sim F (Some (p, c)) None ∅ (set_deferred q (put p (set_queued false v) s)) C u.
Proof.
  intros S Hq. assert (p ∈ eb_deferred s) as Hp by (rewrite Hq; left). apply (si_queue S) in Hp as (v & Hv & Hvq). destruct (si_bev S _ _ Hv) as [(c & k & Hc & Ho)|[? _]]; [|done].
  exists c, k, v. split; [done|]. split; [done|]. destruct (si_conn S _ _ Hc) as (p0 & v0 & Ho0 & Hv0 & Hb & Hs & HF). rewrite Ho in Ho0. injection Ho0 as <-. rewrite Hv in Hv0. injection Hv0 as <-.
  pose proof (si_nodup S) as Hnd. rewrite Hq in Hnd. apply NoDup_cons in Hnd as [Hpq Hnd]. destruct s as [bevs dq opn nx rest]. cbn in *. subst dq.
  split; cbn; try apply S; try done.
  - intros c1 k1 H1. destruct (decide (c1 = c)) as [->|Hne].
    + assert (k1 = k) as -> by congruence. exists p, (set_queued false v). rewrite lookup_insert_eq. split_and!; [done|done| |done|done].
      destruct Hb as [B1 B2 B3 B4 B5 B6 B7 B8 B9 B10 B11]. destruct v; cbn in *. subst. split; cbn; rewrite ?running_eq; done.
    + destruct (si_conn S _ _ H1) as (p1 & v1 & Ho1 & Hv1 & Hb1 & Hr). assert (p1 <> p) as Hp1 by (intros ->; apply Hne; by apply (sim_owner _ _ _ _ _ _ _ _ _ _ _ _ S H1 Hc Ho1 Ho)).
      exists p1, v1. rewrite lookup_insert_ne by done. split_and!; [done|done| |apply Hr..]. apply (bev_ok_run _ _ _ _ _ _ Hb1). by rewrite running_ne.
  - intros x w. rewrite lookup_insert. case_decide as E; [subst; intros _; left; by exists c, k|]. intros Hw. destruct (si_bev S _ _ Hw) as [H|[? _]]; [by left|done].
  - intros x. rewrite lookup_insert. pose proof (si_queue S x) as Hx. cbn in Hx. rewrite elem_of_cons in Hx. case_decide as E.
    + subst x. split; [done|]. intros (w & [= <-] & Hw). by destruct v.
    + rewrite <- Hx. naive_solver.
  - intros n Hn. destruct (si_fresh S n Hn) as (H1 & H2 & H3). cbn in *. rewrite lookup_insert_ne by congruence. done.
  - intros p1 c1 [= <- <-] _. unfold objs in *. cbn in *. by rewrite Ho.
  - intros p1 c1 [= <- <-]. rewrite lookup_insert_eq. eauto.
  - intros p1 c1 c2 k2 [= <- <-] H2 Ho2. by apply (sim_owner _ _ _ _ _ _ _ _ _ _ _ _ S H2 Hc Ho2 Ho).
Qed.
Lemma sim_end F s C u p c k v : sim F (Some (p, c)) None ∅ s C u -> C !! c = Some k -> objs s !! c = Some (tcp_of k p) -> eb_bevs s !! p = Some v ->
  sim F None None ∅ (put p (set_refcnt 1 v) s) C u.
Proof.
  intros S Hc Ho Hv. destruct (si_conn S _ _ Hc) as (p0 & v0 & Ho0 & Hv0 & Hb & Hs & HF). rewrite Ho in Ho0. injection Ho0 as <-. rewrite Hv in Hv0. injection Hv0 as <-.
  destruct s as [bevs dq opn nx rest]. cbn in *. split; cbn; try apply S; try done.
  - intros c1 k1 H1. destruct (decide (c1 = c)) as [->|Hne].
    + assert (k1 = k) as -> by congruence. exists p, (set_refcnt 1 v). rewrite lookup_insert_eq. split_and!; [done|done| |done|done].
      destruct Hb as [B1 B2 B3 B4 B5 B6 B7 B8 B9 B10 B11]. rewrite running_eq in B8, B9. specialize (B9 eq_refl). destruct v; cbn in *. subst. split; done.
    + destruct (si_conn S _ _ H1) as (p1 & v1 & Ho1 & Hv1 & Hb1 & Hr). assert (p1 <> p) as Hp1 by (intros ->; apply Hne; by apply (sim_owner _ _ _ _ _ _ _ _ _ _ _ _ S H1 Hc Ho1 Ho)).
      exists p1, v1. rewrite lookup_insert_ne by done. split_and!; [done|done| |apply Hr..]. apply (bev_ok_run _ _ _ _ _ _ Hb1). by rewrite running_ne.
  - intros x w. rewrite lookup_insert. case_decide as E; [subst; intros _; left; by exists c, k|]. intros Hw. destruct (si_bev S _ _ Hw) as [H|[Hr _]]; [by left|]. by injection Hr.
  - intros x. rewrite lookup_insert, (si_queue S x). cbn. case_decide as E; [|done]. subst x. rewrite Hv. split; intros (w & [= <-] & Hw); eexists; (split; [done|]); by destruct v.
  - intros n Hn. destruct (si_fresh S n Hn) as (H1 & H2 & H3). cbn in *. rewrite lookup_insert_ne by congruence. done.
Qed.
Lemma sim_end_orphan F s C u p c v : sim F (Some (p, c)) None ∅ s C u -> C !! c = None -> eb_bevs s !! p = Some v -> bv_queued v = false ->
  sim F None None ∅ (set_bevs (delete p (eb_bevs s)) s) C u.
Proof.
  intros S Hc Hv Hvq. destruct s as [bevs dq opn nx rest]. cbn in *. split; cbn; try apply S; try done.
  - intros c1 k1 H1. destruct (si_conn S _ _ H1) as (p1 & v1 & Ho1 & Hv1 & Hb1 & Hr).
    assert (p1 <> p) as Hp1 by (intros ->; pose proof (si_mine S _ _ _ _ eq_refl H1 Ho1); congruence).
    exists p1, v1. rewrite lookup_delete_ne by done. split_and!; [done|done| |apply Hr..]. apply (bev_ok_run _ _ _ _ _ _ Hb1). by rewrite running_ne.
  - intros x w. rewrite lookup_delete. case_decide as E; [done|]. intros Hw. destruct (si_bev S _ _ Hw) as [H|[Hr _]]; [by left|]. by injection Hr.
  - intros x. rewrite lookup_delete, (si_queue S x). cbn. case_decide as E; [|done]. subst x. rewrite Hv. split; [intros (w & [= <-] & Hw); congruence|by intros (w & ? & _)].
  - intros n Hn. destruct (si_fresh S n Hn) as (H1 & H2 & H3). cbn in *. rewrite lookup_delete_ne by congruence. done.
Qed.

(** The state when the destructors are through. *)
Definition without (p : nat) (v : bufferevent) (c : nat) (fd : Z) (s : net) : net :=
  mkBase (<[p := set_refcnt 1 (set_cbarg None v)]> (eb_bevs s)) (eb_deferred s) (delete fd (eb_open s)) (eb_next s)
         (mkSocks (delete c (objs s)) (fd_map s) (up s)).
Lemma sim_without F p c s C u k v : sim F (Some (p, c)) (Some c) ∅ s C u -> C !! c = Some k -> objs s !! c = Some (tcp_of k p) -> eb_bevs s !! p = Some v ->
  sim F (Some (p, c)) None ∅ (without p v c (k_fd k) s) (delete c C) u.
Proof.
  intros S Hc Ho Hv. destruct (si_conn S _ _ Hc) as (p1 & v1 & Ho1 & Hv1 & Hb & Hs & HF). rewrite Ho in Ho1. injection Ho1 as <-. rewrite Hv in Hv1. injection Hv1 as <-.
  assert (forall c' k', delete c C !! c' = Some k' -> C !! c' = Some k' /\ c' <> c) as Hold by (intros c' k'; rewrite lookup_delete; case_decide as E; [done|by split]).
  pose proof (bo_quiet Hb) as Hq. unfold running in Hq. cbn in Hq. rewrite bool_decide_eq_true_2 in Hq by done. specialize (Hq eq_refl).
  split; cbn.
  - apply (si_up S).
  - intros c1 k1 [H1 Hne]%Hold. destruct (si_conn S _ _ H1) as (p1 & v1 & Ho1 & Hv1 & Hb1 & Hs1 & HF1). exists p1, v1.
    rewrite !lookup_delete_ne, lookup_insert_ne; [done| | |congruence].
    + intros ->. apply Hne. apply (sim_owner _ _ _ _ _ _ _ _ _ _ _ _ S H1 Hc Ho1 Ho).
    + intros E. apply Hne. symmetry. by apply (si_inj S c c1 k k1).
  - intros fd c1. rewrite (si_map S fd c1). split.
    + intros (k1 & H1 & E & Hne). exists k1. rewrite lookup_delete_ne; [done|congruence].
    + intros (k1 & [H1 Hne]%Hold & E & _). exists k1. split_and!; [done|done|congruence].
  - intros c1 c2 k1 k2 [H1 _]%Hold [H2 _]%Hold. by apply (si_inj S).
  - intros c1 H1. destruct (decide (c1 = c)) as [->|Hne]; [by rewrite lookup_delete_eq|]. rewrite lookup_delete_ne in H1 by done. rewrite lookup_delete_ne by done. by apply (si_rest S).
  - intros x w. rewrite lookup_insert. case_decide as E.
    + subst x. intros [= <-]. right. split; [done|]. pose proof (bo_fd Hb) as Efd. unfold orphan. cbn. destruct v; cbn in *. rewrite Efd, lookup_delete_eq. done.
    + intros Hw. destruct (si_bev S _ _ Hw) as [(c1 & k1 & H1 & Ho1)|[Hr _]]; [|by injection Hr]. left. exists c1, k1.
      assert (c <> c1) by (intros <-; unfold tcp_of in *; congruence). by rewrite !lookup_delete_ne.
  - intros fd. rewrite lookup_delete. case_decide as E.
    + subst fd. split; [by intros []|]. intros [H|[(c1 & k1 & [H1 Hne]%Hold & E)|(c1 & o & H & _)]]; [done| |done]. exfalso. apply Hne. by apply (si_inj S c1 c k1 k).
    + rewrite (si_open S fd). split; (intros [H|[(c1 & k1 & H1 & E1)|H]]; [by left|right; left|by right; right]).
      * exists c1, k1. rewrite lookup_delete_ne; [done|congruence].
      * apply Hold in H1 as [H1 _]. by exists c1, k1.
  - apply (si_nodup S).
  - intros x. rewrite (si_queue S x), lookup_insert. case_decide as E; [|done]. subst x. split; [intros (w & Hw & Hwq)|intros (w & [= <-] & Hwq)].
    + exfalso. congruence.
    + destruct v; cbn in *. congruence.
  - intros n Hn. destruct (si_fresh S n Hn) as (H1 & H2 & H3). rewrite !lookup_delete_ne, lookup_insert_ne by congruence. done.
  - intros p1 c1 [= <- <-] [k1 H1]. by rewrite lookup_delete_eq in H1.
  - intros p1 c1 [= <- <-]. rewrite lookup_insert_eq. eauto.
  - intros p1 c1 c2 k2 Hr [H2 Hne]%Hold Ho2. rewrite lookup_delete_ne in Ho2 by congruence. by apply (si_mine S _ _ _ _ Hr H2).
Qed.

(** The connections of the specification while [lv] is being deleted. *)
Definition staying (lv : option nat) (C : gmap nat conn) : gmap nat conn := match lv with Some c => delete c C | None => C end.
Lemma staying_at lv C q k : staying lv C !! q = Some k -> C !! q = Some k /\ lv <> Some q.
Proof.
  destruct lv as [c|]; cbn; [|done]. rewrite lookup_delete. case_decide as E; [done|]. intros H. split; [done|congruence].
Qed.
Lemma staying_insert lv C q k : lv <> Some q -> staying lv (<[q := k]> C) = <[q := k]> (staying lv C).
Proof. destruct lv as [c|]; cbn; [|done]. intros H. rewrite delete_insert_ne; [done|congruence]. Qed.
End relation.

Section judgement.
Context {U : Type} (oom : nat -> bool -> nat -> bool) (D : app U).
Abbreviation net := (evbase (socks U)).
Abbreviation B := (B (socks U)).
(** Some allocation of a buffer fails. *)
Definition lossy : Prop := exists p w n, oom p w n = true.
Abbreviation step := (d_step D lossy).
Abbreviation steps := (d_steps D lossy).
Abbreviation stuck := (stuck D).

(** ** The judgement *)

Definition ok {A} (m : B A) (s : net) (a : netspec U) (Q : A -> net -> netspec U -> Prop) : Prop :=
  (exists x s' a', m s = Ret (x, s') /\ steps a a' /\ Q x s' a') \/ (exists a', steps a a' /\ stuck a').

Lemma ok_now {A} (m : B A) s a (Q : A -> net -> netspec U -> Prop) x s' : m s = Ret (x, s') -> Q x s' a -> ok m s a Q.
Proof. intros H HQ. left. exists x, s', a. split_and!; [done|apply rtc_refl|done]. Qed.
Lemma ok_stuck {A} (m : B A) s a Q : stuck a -> ok m s a Q.
Proof. intros H. right. exists a. split; [apply rtc_refl|done]. Qed.
Lemma ok_step {A} (m : B A) s a a' Q : step a a' -> ok m s a' Q -> ok m s a Q.
Proof.
  intros Hs [(x & s' & a2 & E & Ht & HQ)|(a2 & Ht & Hk)].
  - left. exists x, s', a2. split_and!; [done|by eapply rtc_l|done].
  - right. exists a2. split; [by eapply rtc_l|done].
Qed.
Lemma okn_bind {A C} (m : B A) (f : A -> B C) s a P Q : ok m s a P -> (forall x s' a', P x s' a' -> ok (f x) s' a' Q) -> ok (m ≫= f) s a Q.
Proof.
  intros [(x & s' & a2 & E & Ht & HP)|(a2 & Ht & Hk)] Hf; [|right; by exists a2].
  destruct (Hf _ _ _ HP) as [(y & s2 & a3 & E2 & Ht2 & HQ)|(a3 & Ht2 & Hk)].
  - left. exists y, s2, a3. rewrite (bbind_eq _ _ _ _ _ E). split_and!; [done|by etrans|done].
  - right. exists a3. split; [by etrans|done].
Qed.
Lemma ok_eq {A C} (m : B A) (f : A -> B C) s a Q x s' : m s = Ret (x, s') -> ok (f x) s' a Q -> ok (m ≫= f) s a Q.
Proof. intros E H. eapply okn_bind; [by apply (ok_now m s a (fun y t b => y = x /\ t = s' /\ b = a) x s' E)|]. by intros ? ? ? (-> & -> & ->). Qed.
Lemma ok_bind_assoc {A C E} (m : B A) (f : A -> B C) (g : C -> B E) s a Q : ok ((m ≫= f) ≫= g) s a Q -> ok (m ≫= fun x => f x ≫= g) s a Q.
Proof.
  assert (((m ≫= f) ≫= g) s = (m ≫= fun x => f x ≫= g) s) as E0 by (unfold mbind, B_bind; by destruct (m s) as [[]| |]).
  unfold ok. by rewrite E0.
Qed.
Lemma ok_bind_assoc' {A C E} (m : B A) (f : A -> B C) (g : C -> B E) s a Q : ok (m ≫= fun x => f x ≫= g) s a Q -> ok ((m ≫= f) ≫= g) s a Q.
Proof.
  assert (((m ≫= f) ≫= g) s = (m ≫= fun x => f x ≫= g) s) as E0 by (unfold mbind, B_bind; by destruct (m s) as [[]| |]).
  unfold ok. by rewrite E0.
Qed.
Lemma ok_mono {A} (m : B A) s a (P Q : A -> net -> netspec U -> Prop) : (forall x s' a', P x s' a' -> Q x s' a') -> ok m s a P -> ok m s a Q.
Proof. intros H [(x & s' & a2 & E & Ht & HP)|Hk]; [|by right]. left. exists x, s', a2. split_and!; [done..|by apply H]. Qed.

(** An event: at most one step from outside, of those [may] allows, and what
    follows from it. *)
Definition okE {A} (may : label -> Prop) (m : B A) (s : net) (a : netspec U) (Q : A -> net -> netspec U -> Prop) : Prop :=
  (exists a1, (a1 = a \/ exists l, may l /\ e_step D l a a1) /\ ok m s a1 Q) \/ (exists l, may l /\ e_fault D l a).
Lemma okE_stay {A} may (m : B A) s a Q : ok m s a Q -> okE may m s a Q.
Proof. intros H. left. exists a. split; [by left|done]. Qed.
Lemma okE_turn {A} (may : label -> Prop) (m : B A) s l a a1 Q : may l -> e_step D l a a1 -> ok m s a1 Q -> okE may m s a Q.
Proof. intros Hl Hs H. left. exists a1. split; [right; by exists l|done]. Qed.
Lemma okE_fault {A} (may : label -> Prop) (m : B A) s l a Q : may l -> e_fault D l a -> okE may m s a Q.
Proof. intros Hl Hf. right. by exists l. Qed.
Lemma okE_eq {A C} may (m : B A) (f : A -> B C) s a Q x s' : m s = Ret (x, s') -> okE may (f x) s' a Q -> okE may (m ≫= f) s a Q.
Proof. intros E [(a1 & Ht & H)|H]; [|by right]. left. exists a1. split; [done|]. by eapply ok_eq. Qed.
Lemma okE_assoc {A C E} may (m : B A) (f : A -> B C) (g : C -> B E) s a Q : okE may (m ≫= fun x => f x ≫= g) s a Q -> okE may ((m ≫= f) ≫= g) s a Q.
Proof. intros [(a1 & Ht & H)|H]; [|by right]. left. exists a1. split; [done|]. by apply ok_bind_assoc'. Qed.
Lemma okE_mono {A} (may may' : label -> Prop) (m : B A) s a Q : (forall l, may l -> may' l) -> okE may m s a Q -> okE may' m s a Q.
Proof. intros H [(a1 & [->|(l & Hl & Hs)] & Ho)|(l & Hl & Hf)]; [by apply okE_stay|by eapply okE_turn; [apply H| |]|by eapply okE_fault; [apply H|]]. Qed.
End judgement.

Section sending.
Context {U : Type}.
Abbreviation net := (evbase (socks U)).
Context (oom : nat -> bool -> nat -> bool) (junk : nat -> bool -> nat -> nat -> Z) (add_ok : net -> nat -> bool -> bool).
Implicit Types s : net.

(** ** Sending *)

Lemma outbuf_run p v info s : eb_bevs s !! p = Some v -> exists e, bufferevent_socket_outbuf_cb add_ok p info s = Ret (tt, put p (set_ev_write e v) s).
Proof.
  intros Hv. unfold bufferevent_socket_outbuf_cb. bgo. destruct (negb _ && _ && _).
  - unfold be_socket_add. rewrite (bbind_eq (look _ ≫= _) _ s (if add_ok s p true then 0 else -1) (if add_ok s p true then put p (set_ev_write true v) s else s)).
    + exists (if add_ok s p true then true else bv_ev_write v). destruct (add_ok s p true); [done|]. replace (set_ev_write (bv_ev_write v) v) with v by (by destruct v). by rewrite put_same.
    + unfold look, mbind at 1, B_bind at 1. destruct (add_ok s p true); [|done]. by bgo.
  - exists (bv_ev_write v). replace (set_ev_write (bv_ev_write v) v) with v by (by destruct v). by rewrite put_same.
Qed.
Lemma outbuf_all p l : forall v s, eb_bevs s !! p = Some v -> exists e, for_all l (bufferevent_socket_outbuf_cb add_ok p) s = Ret (tt, put p (set_ev_write e v) s).
Proof.
  induction l as [|info l IH]; intros v s Hv.
  - exists (bv_ev_write v). replace (set_ev_write (bv_ev_write v) v) with v by (by destruct v). by rewrite put_same.
  - destruct (outbuf_run p v info s Hv) as [e E]. destruct (IH _ _ (put_at p (set_ev_write e v) s)) as [e' E']. exists e'. cbn [for_all].
    rewrite (bbind_eq _ _ _ _ _ E), E', put_put. by destruct v.
Qed.
Lemma bufferevent_write_run p v out data s : eb_bevs s !! p = Some v -> holds Out (bv_output v) out -> eb_freeze_end (bv_output v) = false ->
  Z.of_nat (length (out ++ data)) < 2 ^ 61 ->
  exists r b e, bufferevent_write oom junk add_ok p data s = Ret (r, put p (set_ev_write e (set_output b v)) s) /\ same_setup (bv_output v) b /\
    (holds Out b (out ++ data) \/ (holds Out b out /\ lossy oom)).
Proof.
  intros Hv Hh Hz Hl. destruct (evbuffer_add_run (oom p true) (junk p true) _ _ data Hh Hz Hl) as ([r l] & b & E & Hs & Hr). unfold bufferevent_write.
  rewrite (bbind_eq _ _ _ _ _ (on_output_run _ _ _ _ _ _ Hv E)). cbv beta iota. destruct (outbuf_all p l _ _ (put_at p (set_output b v) s)) as [e E2].
  rewrite (bbind_eq _ _ _ _ _ E2), put_put. eexists _, b, e. split; [done|]. split; [done|]. destruct Hr as [[_ H]|(_ & H & n & Hn)]; [by left|right]. split; [done|]. by exists p, true, n.
Qed.
End sending.
