(* ===== verification/NetSim.v ===== *)
(** * NetSim: the operations of the socket layer follow the specification *)

From S2P Require Import Prelude Words EvBuffer EvQueue EvRead EvClaims BufEv Net NetSpec NetInv.

Section sim.
Context {U : Type}.
Abbreviation net := (evbase (socks U)).
Abbreviation B := (B (socks U)).
Context (oom : nat -> bool -> nat -> bool) (junk : nat -> bool -> nat -> nat -> Z) (add_ok : net -> nat -> bool -> bool) (D : app U).
Abbreviation lossy := (lossy oom).
Abbreviation ok := (ok oom D).
Abbreviation okE := (okE oom D).
Abbreviation Send := (TcpClient_Send oom junk add_ok).
Implicit Types (s : net) (u : U).

Lemma obj_run c o (s : net) : objs s !! c = Some o -> obj c s = Ret (o, s).
Proof. intros H. unfold obj. by rewrite H. Qed.
Lemma bufev_run c k p (s : net) : objs s !! c = Some (tcp_of k p) -> bufev_of c s = Ret (p, s).
Proof. intros H. unfold bufev_of. by rewrite (bbind_eq _ _ _ _ _ (obj_run _ _ _ H)). Qed.

(** ** Sending *)

Lemma bev_ok_output run p c k k' v b e : bev_ok run p c k v -> same_setup (bv_output v) b -> holds Out b (k_out k') ->
  k_fd k' = k_fd k -> k_in k' = k_in k -> k_note k' = k_note k -> k_broken k' = k_broken k ->
  bev_ok run p c k' (set_ev_write e (set_output b v)).
Proof.
  intros [H1 H2 H3 H4 H5 H6 H7 H8 H9 H10 H11] (S1 & S2 & S3) Hh E1 E2 E3 E4. destruct v; cbn in *. destruct H6 as (T1 & T2 & T3).
  split; cbn; rewrite ?E1, ?E2, ?E3, ?E4; try done. unfold output_set. by rewrite S1, S2, S3.
Qed.
Lemma Send_run F run lv X s C u c k d : sim F run lv X s C u -> C !! c = Some k -> Z.of_nat (length (k_out k ++ d)) < 2 ^ 61 ->
  exists s' C', Send c d s = Ret (tt, s') /\ sim F run lv X s' C' u /\ (C' = <[c := k_send d k]> C \/ (lossy /\ C' = C)).
Proof.
  intros S Hc Hl. destruct (si_conn S _ _ Hc) as (p & v & Ho & Hv & Hb & _).
  destruct (bufferevent_write_run oom junk add_ok p v (k_out k) d s Hv (bo_out Hb) ltac:(apply (bo_out_set Hb)) Hl) as (r & b & e & E & Hs & Hh).
  exists (put p (set_ev_write e (set_output b v)) s). unfold TcpClient_Send. rewrite (bbind_eq _ _ _ _ _ (bufev_run _ _ _ _ Ho)), (bbind_eq _ _ _ _ _ E).
  destruct Hh as [Hh|[Hh Hlo]].
  - exists (<[c := k_send d k]> C). split; [done|]. split; [|by left]. apply (sim_put _ _ _ _ _ _ _ c k _ p v _ S Hc Ho Hv); [|done|done|done|by destruct v].
    by apply (bev_ok_output _ _ _ k).
  - exists C. split; [done|]. split; [|by right]. rewrite <- (insert_id C c k Hc). apply (sim_put _ _ _ _ _ _ _ c k _ p v _ S Hc Ho Hv); [|done|done|done|by destruct v].
    by apply (bev_ok_output _ _ _ k).
Qed.

Lemma overfull_at C u l r c k : C !! c = Some k -> 2 ^ 30 <= Z.of_nat (length (k_out k)) -> NetSpec.stuck D (mkSpec C u l r).
Proof. intros H Hl. right. exists c, k. split; [done|]. by right. Qed.

(** What a destructor sends. *)
Lemma sends_ok F run lv X u rp sends : forall s C, sim F run lv X s C u ->
  ok (for_all sends (fun e => Send e.1 e.2)) s (mkSpec (staying lv C) u sends rp)
    (fun _ s' a' => exists C', sim F run lv X s' C' u /\ a' = mkSpec (staying lv C') u [] rp /\ (forall c, lv = Some c -> C' !! c = C !! c) /\ (forall c, k_fd <$> C' !! c = k_fd <$> C !! c)).
Proof.
  induction sends as [|[q d] sends IH]; intros s C S.
  - eapply ok_now; [done|]. by exists C.
  - cbn [for_all fst snd]. destruct (staying lv C !! q) as [k|] eqn:Hq; [|apply ok_stuck; left; by constructor].
    destruct (staying_at _ _ _ _ Hq) as [Hc Hl]. destruct (Z_lt_ge_dec (Z.of_nat (length (k_out k ++ d))) (2 ^ 61)) as [Hlen|Hlen].
    + destruct (Send_run _ _ _ _ _ _ _ _ _ d S Hc Hlen) as (s' & C' & E & S' & HC). eapply ok_eq; [exact E|].
      destruct HC as [->|[Hlo ->]].
      * eapply ok_step; [by apply S_say|]. rewrite <- staying_insert by done. eapply ok_mono; [|apply (IH _ _ S')].
        intros [] s2 a2 (C2 & S2 & -> & H2 & H3). exists C2. split; [done|]. split; [done|]. split; [intros c0 E0; rewrite (H2 c0 E0); apply lookup_insert_ne; congruence|].
        intros c0. rewrite H3, lookup_insert. case_decide; [subst; by rewrite Hc|done].
      * eapply ok_step; [by apply S_say_lost|]. apply (IH _ _ S').
    + eapply ok_step; [by apply S_say|]. apply ok_stuck. eapply overfull_at; [apply lookup_insert_eq|]. cbn. lia.
Qed.

(** ** Deleting a client *)

Lemma bev_free_run p v (s : net) : eb_bevs s !! p = Some v -> bv_refcnt v = 2 ->
  bufferevent_free p s = Ret (tt, put p (set_refcnt 1 (set_cbarg None v)) s).
Proof.
  intros Hv Hr. unfold bufferevent_free, bufferevent_setcb, _bufferevent_decref_and_unlock. bgo. destruct v; cbn in *. subst. cbn. by bgo.
Qed.
Lemma running_ref run p c c' k v : bev_ok run p c k v -> run = Some (p, c') -> bv_refcnt v = 2 /\ bv_queued v = false.
Proof.
  intros Hb ->. pose proof (bo_ref Hb) as Hr. pose proof (bo_quiet Hb) as Hq. unfold running in *. cbn in *. rewrite bool_decide_eq_true_2 in Hr, Hq by done. rewrite Hq in Hr by done. auto.
Qed.
(** The client the bufferevent [p] belongs to, while its callbacks run. *)
Lemma sim_here F p c lv X s C u k : sim F (Some (p, c)) lv X s C u -> C !! c = Some k ->
  exists v, objs s !! c = Some (tcp_of k p) /\ eb_bevs s !! p = Some v /\ bev_ok (Some (p, c)) p c k v /\ eb_open s !! k_fd k = Some (sock_of k) /\ k_fd k ∉ F.
Proof.
  intros S Hc. destruct (si_conn S _ _ Hc) as (p1 & v & Ho & Hv & Hb & Hs & HF). pose proof (si_run S p c eq_refl ltac:(eauto)) as E. rewrite Ho in E. cbn in E. injection E as ->. by exists v.
Qed.
Lemma dtors_run F p c s C u k : sim F (Some (p, c)) (Some c) ∅ s C u -> C !! c = Some k -> 0 ∈ F ->
  exists s', (TcpClient_dtor c ;; SocketBase_dtor c) s = Ret (tt, s') /\ sim F (Some (p, c)) None ∅ s' (delete c C) u.
Proof.
  intros S Hc H0. destruct (sim_here _ _ _ _ _ _ _ _ _ S Hc) as (v & Ho & Hv & Hb & Hs & HF). destruct (running_ref _ _ _ _ _ _ Hb eq_refl) as [Hr _].
  exists (without p v c (k_fd k) s). split; [|by apply (sim_without _ _ _ _ _ _ _ _ S Hc Ho Hv)].
  unfold TcpClient_dtor. rewrite (bbind_eq _ _ s tt (put p (set_refcnt 1 (set_cbarg None v)) s)).
  - unfold SocketBase_dtor. rewrite (bbind_eq (obj c) _ _ (tcp_of k p) (put p (set_refcnt 1 (set_cbarg None v)) s)) by (apply obj_run; by destruct s). cbn [tcp_of tc_fd].
    destruct (Z.eqb_spec (k_fd k) 0) as [E|_]; [congruence|]. cbn [negb]. by destruct s.
  - rewrite (bbind_eq _ _ _ _ _ (obj_run _ _ _ Ho)). cbn [tcp_of tc_bufev]. by apply bev_free_run.
Qed.
(** [a]: the specification before it has the client deleted. *)
Lemma delete_ok F p c s C u k a rp : sim F (Some (p, c)) (Some c) ∅ s C u -> C !! c = Some k -> 0 ∈ F ->
  (forall sends u', app_delete D c u = Ret (sends, u') -> d_step D lossy a (mkSpec (delete c C) u' sends rp)) ->
  (fails (app_delete D c u) -> at_fault D a) ->
  ok (delete_client oom junk add_ok D c) s a
    (fun _ s' a' => exists C' u', sim F (Some (p, c)) None ∅ s' C' u' /\ a' = mkSpec C' u' [] rp /\ C' !! c = None).
Proof.
  intros S Hc H0 Hstep Hfail. unfold delete_client. destruct (app_delete D c u) as [[sends u']| |] eqn:Ed; [|apply ok_stuck; left; by apply Hfail..].
  eapply ok_eq; [by apply (daemon_run _ _ _ _ _ _ _ _ _ _ S Ed)|]. eapply ok_step; [by apply Hstep|]. apply (sim_set_up _ _ _ _ _ _ _ u') in S.
  eapply okn_bind; [by apply (sends_ok _ _ (Some c) _ _ rp sends _ _ S)|]. intros [] s1 a1 (C1 & S1 & -> & H1 & _). specialize (H1 c eq_refl). rewrite Hc in H1.
  destruct (dtors_run _ _ _ _ _ _ _ S1 H1 H0) as (s2 & E2 & S2). eapply ok_now; [exact E2|]. exists (delete c C1), u'. split_and!; [done|done|by rewrite lookup_delete_eq].
Qed.
Lemma Close_ok F p c s C u k a rp : sim F (Some (p, c)) None ∅ s C u -> C !! c = Some k -> 0 ∈ F ->
  (forall sends u', app_delete D c u = Ret (sends, u') -> d_step D lossy a (mkSpec (delete c C) u' sends rp)) ->
  (fails (app_delete D c u) -> at_fault D a) ->
  ok (SocketBase_Close oom junk add_ok D c) s a
    (fun _ s' a' => exists C' u', sim F (Some (p, c)) None ∅ s' C' u' /\ a' = mkSpec C' u' [] rp /\ C' !! c = None).
Proof.
  intros S Hc H0 Hstep Hfail. destruct (sim_here _ _ _ _ _ _ _ _ _ S Hc) as (v & Ho & Hv & Hb & Hs & HF). unfold SocketBase_Close.
  eapply ok_eq; [by apply obj_run|]. cbn [tcp_of tc_host tc_fd]. unfold SocketServer_Close. eapply ok_eq; [done|].
  assert (fd_map s !! k_fd k = Some c) as -> by (apply (si_map S); by exists k). eapply ok_eq; [done|].
  by apply (delete_ok _ _ _ _ _ _ _ _ _ (sim_leave _ _ _ _ _ _ _ _ S Hc) Hc H0).
Qed.

(** ** OnRecv *)

Lemma bev_ok_input run p c k k' v b : bev_ok run p c k v -> same_setup (bv_input v) b -> holds In b (k_in k') ->
  k_fd k' = k_fd k -> k_out k' = k_out k -> k_note k' = k_note k -> k_broken k' = k_broken k -> bev_ok run p c k' (set_input b v).
Proof.
  intros [H1 H2 H3 H4 H5 H6 H7 H8 H9 H10 H11] (S1 & S2 & S3) Hh E1 E2 E3 E4. destruct v; cbn in *. destruct H4 as (T1 & T2 & T3).
  split; cbn; rewrite ?E1, ?E2, ?E3, ?E4; try done. unfold input_set. by rewrite S1, S2, S3.
Qed.
(** Something is taken from the input. *)
Lemma sim_take F run lv X s C u c k p v b n : sim F run lv X s C u -> C !! c = Some k -> objs s !! c = Some (tcp_of k p) -> eb_bevs s !! p = Some v -> bev_ok run p c k v ->
  same_setup (bv_input v) b -> holds In b (drop n (k_in k)) -> sim F run lv X (put p (set_input b v) s) (<[c := k_take n k]> C) u.
Proof.
  intros S Hc Ho Hv Hb Hs Hh. apply (sim_put _ _ _ _ _ _ _ c k _ p v _ S Hc Ho Hv); [|done|done|done|by destruct v]. by apply (bev_ok_input _ _ _ k).
Qed.
Lemma input_short C u l r c k : C !! c = Some k -> Z.of_nat (length (k_in k)) < 2 ^ 30 \/ NetSpec.stuck D (mkSpec C u l r).
Proof. intros H. destruct (Z_lt_ge_dec (Z.of_nat (length (k_in k))) (2 ^ 30)); [by left|]. right. right. exists c, k. split; [done|]. left. lia. Qed.
Lemma to_int_min n l : 0 <= n -> 0 <= l < 2 ^ 30 -> to_int (Z.min n l) = Z.min n l.
Proof. intros. apply to_int_small. lia. Qed.

Definition after (F : gset Z) (p c : nat) (rp : option (nat * prog U)) : unit -> net -> netspec U -> Prop :=
  fun _ s' a' => exists C' u', sim F (Some (p, c)) None ∅ s' C' u' /\ a' = mkSpec C' u' [] rp.

Lemma PendClose_ok F p c q k s C u : 0 ∈ F -> sim F (Some (p, c)) None ∅ s C u ->
  ok (TcpClient_PendClose oom junk add_ok D q) s (mkSpec C u [] (Some (c, PendClose q k))) (after F p c (Some (c, k))).
Proof.
  intros H0 S. destruct (decide (q = c)) as [->|Hne]; [|apply ok_stuck; left; constructor; by left].
  destruct (C !! c) as [x|] eqn:Hc; [|apply ok_stuck; left; constructor; by right]. destruct (sim_here _ _ _ _ _ _ _ _ _ S Hc) as (v & Ho & Hv & Hb & Hs & HF).
  unfold TcpClient_PendClose. eapply ok_eq; [by apply (bufev_run c x p)|]. eapply ok_eq; [by apply (look_output p _ v)|]. rewrite (holds_length _ _ _ (bo_out Hb)).
  destruct (Z.eqb_spec (Z.of_nat (length (k_out x))) 0) as [E|E].
  - assert (k_out x = []) as Eo by (apply nil_length_inv; lia). eapply ok_mono; [|apply (Close_ok F p c s C u x _ (Some (c, k)) S Hc H0)].
    + intros ? s' a' (C' & u' & S' & -> & _). by exists C', u'.
    + intros sends u' Ed. by apply (R_close _ _ c x).
    + intros Hf. by apply (F_delete _ c x).
  - eapply ok_step; [apply (R_pend _ _ c x C u k Hc); intros Eo; by rewrite Eo in E|]. eapply ok_now.
    + unfold edit_obj. by rewrite (bbind_eq _ _ _ _ _ (obj_run _ _ _ Ho)).
    + eexists _, _. split; [|done]. apply (sim_pending _ _ _ _ _ _ _ _ _ _ true S Hc Ho).
Qed.

Lemma run_prog_ok F p c q : 0 ∈ F -> forall s C u, sim F (Some (p, c)) None ∅ s C u ->
  ok (run_prog oom junk add_ok D p q) s (mkSpec C u [] (Some (c, q))) (after F p c None).
Proof.
  intros H0. induction q as [|A f k IH|k IH|n k IH|n k IH|n k IH|q d k IH|q k IH]; intros s C u S; cbn [run_prog].
  - eapply ok_step; [constructor|]. eapply ok_now; [done|]. by exists C, u.
  - destruct (f u) as [[a u']| |] eqn:Ef; [|apply ok_stuck; left; constructor; intros ? E'; by rewrite Ef in E'..].
    eapply ok_eq; [by apply (daemon_run _ _ _ _ _ _ _ _ _ _ S Ef)|]. eapply ok_step; [by apply R_upd|]. apply IH, (sim_set_up _ _ _ _ _ _ _ _ S).
  - destruct (C !! c) as [x|] eqn:Hc; [|by apply ok_stuck; left; apply F_gone]. destruct (sim_here _ _ _ _ _ _ _ _ _ S Hc) as (v & Ho & Hv & Hb & _).
    eapply ok_eq; [by apply (look_input p _ v)|]. rewrite (holds_length _ _ _ (bo_in Hb)). eapply ok_step; [by apply R_length|]. by apply IH.
  - destruct (C !! c) as [x|] eqn:Hc; [|by apply ok_stuck; left; apply F_gone]. destruct (decide (size_t_ok n)) as [Hn|Hn]; [|by apply ok_stuck; left; apply F_size].
    destruct (sim_here _ _ _ _ _ _ _ _ _ S Hc) as (v & Ho & Hv & Hb & _). destruct (input_short C u [] (Some (c, Copyout n k)) _ _ Hc) as [Hl|Hst]; [|by apply ok_stuck].
    pose proof Hn as [Hn1 Hn2]. pose proof (bo_in_set Hb) as (Z1 & _). eapply ok_eq.
    + eapply on_input_run; [exact Hv|]. apply (evbuffer_copyout_run In _ (k_in x) n (bo_in Hb) (or_introl Z1)); lia.
    + cbv beta iota. rewrite set_input_same, (put_same _ _ _ Hv), to_int_min by lia. eapply ok_step; [by apply R_copyout|]. by apply IH.
  - destruct (C !! c) as [x|] eqn:Hc; [|by apply ok_stuck; left; apply F_gone]. destruct (decide (size_t_ok n)) as [Hn|Hn]; [|by apply ok_stuck; left; apply F_size].
    destruct (sim_here _ _ _ _ _ _ _ _ _ S Hc) as (v & Ho & Hv & Hb & _). destruct (input_short C u [] (Some (c, Read n k)) _ _ Hc) as [Hl|Hst]; [|by apply ok_stuck].
    pose proof (bo_in_set Hb) as (Z1 & _). destruct (evbuffer_remove_run In _ (k_in x) n (bo_in Hb) (or_introl Z1) Hn ltac:(lia)) as (b & E & Hs & Hh).
    eapply ok_eq; [by apply (on_input_run _ _ _ _ _ _ Hv E)|]. cbv beta iota. eapply ok_step; [by apply R_read|]. apply IH. by apply (sim_take _ _ _ _ _ _ _ _ _ _ _ _ _ S Hc Ho Hv Hb).
  - destruct (C !! c) as [x|] eqn:Hc; [|by apply ok_stuck; left; apply F_gone]. destruct (decide (size_t_ok n)) as [Hn|Hn]; [|by apply ok_stuck; left; apply F_size].
    destruct (sim_here _ _ _ _ _ _ _ _ _ S Hc) as (v & Ho & Hv & Hb & _). destruct (input_short C u [] (Some (c, Drain n k)) _ _ Hc) as [Hl|Hst]; [|by apply ok_stuck].
    pose proof (bo_in_set Hb) as (Z1 & _). destruct (evbuffer_drain_run In _ (k_in x) n (bo_in Hb) (or_introl Z1) Hn ltac:(lia)) as (b & E & Hs & Hh).
    eapply ok_eq; [by apply (on_input_run _ _ _ _ _ _ Hv E)|]. eapply ok_step; [by apply R_drain|]. apply IH. by apply (sim_take _ _ _ _ _ _ _ _ _ _ _ _ _ S Hc Ho Hv Hb).
  - destruct (C !! q) as [x|] eqn:Hq; [|by apply ok_stuck; left; apply F_send]. destruct (Z_lt_ge_dec (Z.of_nat (length (k_out x ++ d))) (2 ^ 61)) as [Hl|Hl].
    + destruct (Send_run _ _ _ _ _ _ _ _ _ d S Hq Hl) as (s' & C' & E & S' & HC). eapply ok_eq; [exact E|].
      destruct HC as [->|[Hlo ->]]; [eapply ok_step; [by apply R_send|by apply IH]|eapply ok_step; [by apply R_send_lost|by apply IH]].
    + eapply ok_step; [by apply R_send|]. apply ok_stuck. eapply overfull_at; [apply lookup_insert_eq|]. cbn. lia.
  - eapply okn_bind; [by apply PendClose_ok|]. intros [] s1 a1 (C1 & u1 & S1 & ->). by apply IH.
Qed.

(** ** The deferred callbacks *)

(** The bufferevent of a client that is gone. *)
Lemma sim_orphan F p c lv X s C u : sim F (Some (p, c)) lv X s C u -> C !! c = None -> exists v, eb_bevs s !! p = Some v /\ orphan s v.
Proof.
  intros S Hc. destruct (si_runs S p c eq_refl) as [v Hv]. exists v. split; [done|]. destruct (si_bev S _ _ Hv) as [(c1 & k1 & H1 & Ho1)|[_ H]]; [|done].
  pose proof (si_mine S _ _ _ _ eq_refl H1 Ho1). congruence.
Qed.
(** Flags of the running bufferevent. *)
Lemma bev_ok_flags run p c k k' v v' : bev_ok run p c k v -> bv_fd v' = bv_fd v -> bv_cbarg v' = bv_cbarg v -> bv_input v' = bv_input v -> bv_output v' = bv_output v ->
  bv_readcb_pending v' = k_note k' -> bv_refcnt v' = bv_refcnt v -> bv_queued v' = bv_queued v -> (bv_eventcb_pending v' = bv_eventcb_pending v \/ bv_eventcb_pending v' = 0) ->
  k_fd k' = k_fd k -> k_in k' = k_in k -> k_out k' = k_out k -> k_broken k' = k_broken k -> bev_ok run p c k' v'.
Proof.
  intros [H1 H2 H3 H4 H5 H6 H7 H8 H9 H10 H11] E1 E2 E3 E4 E5 E6 E7 E8 E9 E10 E11 E12. split; rewrite ?E1, ?E2, ?E3, ?E4, ?E6, ?E7, ?E9, ?E10, ?E11, ?E12; try done.
  - intros Hne. apply H10. by destruct E8 as [<-| ].
  - destruct E8 as [->| ->]; done.
Qed.
Lemma read_cb_ok F p c s C u : 0 ∈ F -> sim F (Some (p, c)) None ∅ s C u ->
  ok (v ← bev p;
      if bv_readcb_pending v then
        match bv_cbarg v with None => mret tt | Some c => edit_bev p (set_readcb_pending false) ;; _client_read_cb oom junk add_ok D p c end
      else mret tt) s (mkSpec C u [] None) (after F p c None).
Proof.
  intros H0 S. destruct (C !! c) as [k|] eqn:Hc.
  - destruct (sim_here _ _ _ _ _ _ _ _ _ S Hc) as (v & Ho & Hv & Hb & _). eapply ok_eq; [by apply bev_run|]. rewrite (bo_note Hb), (bo_arg Hb).
    destruct (k_note k) eqn:Hn; [|eapply ok_now; [done|by exists C, u]].
    eapply ok_eq; [by apply edit_bev_run|]. eapply ok_step; [by apply (S_recv _ _ c k)|].
    assert (sim F (Some (p, c)) None ∅ (put p (set_readcb_pending false v) s) (<[c := k_told k]> C) u) as S'.
    { apply (sim_put _ _ _ _ _ _ _ c k _ p v _ S Hc Ho Hv); [|done|done|done|by destruct v]. apply (bev_ok_flags _ _ _ k _ v); destruct v; try done. by left. }
    unfold _client_read_cb, TcpClient_DoRecv. eapply ok_eq; [apply (bufev_run c k p); by destruct s|]. by apply run_prog_ok.
  - destruct (sim_orphan _ _ _ _ _ _ _ _ S Hc) as (v & Hv & Hno & _). eapply ok_eq; [by apply bev_run|]. rewrite Hno. eapply ok_now; [by destruct (bv_readcb_pending v)|by exists C, u].
Qed.
Lemma write_cb_ok F p c s C u : 0 ∈ F -> sim F (Some (p, c)) None ∅ s C u ->
  ok (v ← bev p;
      if bv_writecb_pending v then
        match bv_cbarg v with None => mret tt | Some c => edit_bev p (set_writecb_pending false) ;; _client_write_cb oom junk add_ok D p c end
      else mret tt) s (mkSpec C u [] None) (after F p c None).
Proof.
  intros H0 S. destruct (C !! c) as [k|] eqn:Hc.
  2:{ destruct (sim_orphan _ _ _ _ _ _ _ _ S Hc) as (v & Hv & Hno & _). eapply ok_eq; [by apply bev_run|]. rewrite Hno. eapply ok_now; [by destruct (bv_writecb_pending v)|by exists C, u]. }
  destruct (sim_here _ _ _ _ _ _ _ _ _ S Hc) as (v & Ho & Hv & Hb & _). eapply ok_eq; [by apply bev_run|]. rewrite (bo_arg Hb).
  destruct (bv_writecb_pending v) eqn:Hp; [|eapply ok_now; [done|by exists C, u]]. eapply ok_eq; [by apply edit_bev_run|].
  assert (sim F (Some (p, c)) None ∅ (put p (set_writecb_pending false v) s) C u) as S'.
  { rewrite <- (insert_id C c k Hc). apply (sim_put _ _ _ _ _ _ _ c k _ p v _ S Hc Ho Hv); [|done|done|done|by destruct v]. pose proof (bo_note Hb). apply (bev_ok_flags _ _ _ k _ v); destruct v; try done. by left. }
  clear S. destruct (sim_here _ _ _ _ _ _ _ _ _ S' Hc) as (v' & Ho' & Hv' & Hb' & _). set (s1 := put p (set_writecb_pending false v) s) in *.
  unfold _client_write_cb, TcpClient_DoSend. eapply ok_eq; [by apply obj_run|]. cbn [tcp_of tc_pend_close]. destruct (k_pend k) eqn:Hpe; [|eapply ok_now; [done|by exists C, u]].
  eapply ok_eq; [by apply (bufev_run c k p)|]. eapply ok_eq; [by apply (look_output p _ v')|]. rewrite (holds_length _ _ _ (bo_out Hb')).
  destruct (Z.eqb_spec (Z.of_nat (length (k_out k))) 0) as [E|E]; [|eapply ok_now; [done|by exists C, u]]. assert (k_out k = []) as Eo by (apply nil_length_inv; lia).
  eapply ok_eq; [unfold edit_obj; by rewrite (bbind_eq _ _ _ _ _ (obj_run _ _ _ Ho'))|]. pose proof (sim_pending _ _ _ _ _ _ _ _ _ _ false S' Hc Ho') as S2.
  eapply ok_mono; [|apply (Close_ok F p c _ _ u (k_set_pend false k) _ None S2 (lookup_insert_eq _ _ _) H0)].
  - intros ? s' a' (C' & u' & S3 & -> & _). by exists C', u'.
  - intros sends u' Ed. rewrite delete_insert_eq. apply (S_close _ _ c k); [done|by right|done].
  - intros Hf. apply (F_close _ c k); [done|by right|done].
Qed.
Lemma disable_run p v r w s : eb_bevs s !! p = Some v -> exists v', bufferevent_disable p r w s = Ret (tt, put p v' s) /\
  bv_fd v' = bv_fd v /\ bv_cbarg v' = bv_cbarg v /\ bv_input v' = bv_input v /\ bv_output v' = bv_output v /\ bv_readcb_pending v' = bv_readcb_pending v /\
  bv_refcnt v' = bv_refcnt v /\ bv_queued v' = bv_queued v /\ bv_eventcb_pending v' = bv_eventcb_pending v.
Proof.
  intros Hv. unfold bufferevent_disable, be_socket_disable, event_del. bgo. destruct r, w; unfold mbind, B_bind, mret, B_ret; bgo; eexists; (split; [reflexivity|]); by destruct v.
Qed.
Lemma event_cb_ok F p c s C u : 0 ∈ F -> sim F (Some (p, c)) None ∅ s C u ->
  ok (v ← bev p;
      if negb (bv_eventcb_pending v =? 0) then
        match bv_cbarg v with None => mret tt | Some c => edit_bev p (set_eventcb_pending 0) ;; _client_event_cb oom junk add_ok D p (bv_eventcb_pending v) c end
      else mret tt) s (mkSpec C u [] None) (after F p c None).
Proof.
  intros H0 S. destruct (C !! c) as [k|] eqn:Hc.
  2:{ destruct (sim_orphan _ _ _ _ _ _ _ _ S Hc) as (v & Hv & Hno & _). eapply ok_eq; [by apply bev_run|]. rewrite Hno. eapply ok_now; [by destruct (negb _)|by exists C, u]. }
  destruct (sim_here _ _ _ _ _ _ _ _ _ S Hc) as (v & Ho & Hv & Hb & _). eapply ok_eq; [by apply bev_run|]. rewrite (bo_arg Hb).
  destruct (Z.eqb_spec (bv_eventcb_pending v) 0) as [E|E]; cbn [negb]; [eapply ok_now; [done|by exists C, u]|]. pose proof (bo_event Hb E) as Hbr.
  assert (forall v', bv_fd v' = bv_fd v -> bv_cbarg v' = bv_cbarg v -> bv_input v' = bv_input v -> bv_output v' = bv_output v -> bv_readcb_pending v' = bv_readcb_pending v ->
    bv_refcnt v' = bv_refcnt v -> bv_queued v' = bv_queued v -> bv_eventcb_pending v' = 0 -> sim F (Some (p, c)) None ∅ (put p v' s) C u) as S'.
  { intros v' E1 E2 E3 E4 E5 E6 E7 E8. rewrite <- (insert_id C c k Hc). apply (sim_put _ _ _ _ _ _ _ c k _ p v _ S Hc Ho Hv); [|done|done|done|done].
    apply (bev_ok_flags _ _ _ k _ v); try done; [by rewrite E5, (bo_note Hb)|by right]. }
  eapply ok_eq; [by apply edit_bev_run|]. unfold _client_event_cb. destruct (0 <? _); [|eapply ok_now; [done|exists C, u; split; [apply S'|]; by destruct v]].
  destruct (disable_run p _ false true _ (put_at p (set_eventcb_pending 0 v) s)) as (v' & Ed & D1 & D2 & D3 & D4 & D5 & D6 & D7 & D8). rewrite put_put in Ed. eapply ok_eq; [exact Ed|].
  assert (sim F (Some (p, c)) None ∅ (put p v' s) C u) as S2 by (apply S'; destruct v; done). clear S'.
  unfold TcpClient_DoDisconnect. eapply ok_mono; [|apply (Close_ok F p c _ C u k _ None S2 Hc H0)].
  - intros ? s' a' (C' & u' & S3 & -> & _). by exists C', u'.
  - intros sends u' Edl. apply (S_close _ _ c k); [done|by left|done].
  - intros Hf. apply (F_close _ c k); [done|by left|done].
Qed.

Abbreviation run_deferred := (bufferevent_run_deferred_callbacks_locked (_client_read_cb oom junk add_ok D) (_client_write_cb oom junk add_ok D) (_client_event_cb oom junk add_ok D)).
(** Between two events. *)
Definition rest (F : gset Z) : unit -> net -> netspec U -> Prop :=
  fun _ s' a' => exists C' u', sim F None None ∅ s' C' u' /\ a' = mkSpec C' u' [] None.

Lemma decref_run F p c s C u : sim F (Some (p, c)) None ∅ s C u -> exists s', _bufferevent_decref_and_unlock p s = Ret (tt, s') /\ sim F None None ∅ s' C u.
Proof.
  intros S. unfold _bufferevent_decref_and_unlock. destruct (C !! c) as [k|] eqn:Hc.
  - destruct (sim_here _ _ _ _ _ _ _ _ _ S Hc) as (v & Ho & Hv & Hb & _). destruct (running_ref _ _ _ _ _ _ Hb eq_refl) as [Hr _].
    exists (put p (set_refcnt 1 v) s). split; [|by apply (sim_end _ _ _ _ _ c k)]. bgo. rewrite Hr. cbn. by bgo.
  - destruct (sim_orphan _ _ _ _ _ _ _ _ S Hc) as (v & Hv & Hno & Hr & Hq & Hop). exists (set_bevs (delete p (eb_bevs s)) s). split; [|by apply (sim_end_orphan _ _ _ _ _ c v)].
    bgo. rewrite Hr. cbn. bgo. unfold be_socket_destruct, event_del. change (1 - 1) with 0. cbn [Z.eqb negb]. rewrite (bbind_eq _ _ _ tt (set_open (delete (bv_fd v) (eb_open s)) (put p (set_ev_write false (set_ev_read false (set_refcnt 0 v))) s))).
    + destruct s as [bevs dq opn nx rst]. cbn in *. unfold mod_base. cbn. by rewrite delete_insert_eq, (delete_id _ _ Hop).
    + bgo. replace (bv_fd (set_refcnt 0 v)) with (bv_fd v) by (by destruct v). destruct (0 <=? bv_fd v); [by destruct s|]. destruct s as [bevs dq opn nx rst]. cbn in *. by rewrite (delete_id _ _ Hop).
Qed.
Lemma deferred_ok F p c k s C u : 0 ∈ F -> sim F (Some (p, c)) None ∅ s C u -> C !! c = Some k -> ok (run_deferred p) s (mkSpec C u [] None) (rest F).
Proof.
  intros H0 S Hc. destruct (sim_here _ _ _ _ _ _ _ _ _ S Hc) as (v & Ho & Hv & Hb & _). unfold bufferevent_run_deferred_callbacks_locked.
  eapply ok_eq; [by apply bev_run|]. rewrite (bo_conn Hb). cbn [Z.eqb negb]. eapply ok_eq; [done|]. eapply ok_bind_assoc.
  eapply okn_bind; [by apply (read_cb_ok F p c)|]. intros [] s1 a1 (C1 & u1 & S1 & ->). eapply ok_bind_assoc.
  eapply okn_bind; [by apply (write_cb_ok F p c)|]. intros [] s2 a2 (C2 & u2 & S2 & ->). eapply ok_bind_assoc.
  eapply okn_bind; [by apply (event_cb_ok F p c)|]. intros [] s3 a3 (C3 & u3 & S3 & ->). destruct (decref_run _ _ _ _ _ _ S3) as (s4 & E & S4).
  eapply ok_now; [exact E|]. by exists C3, u3.
Qed.
Lemma process_deferred_ok F n : 0 ∈ F -> forall s C u, sim F None None ∅ s C u ->
  ok (process_deferred (_client_read_cb oom junk add_ok D) (_client_write_cb oom junk add_ok D) (_client_event_cb oom junk add_ok D) n) s (mkSpec C u [] None) (rest F).
Proof.
  intros H0. induction n as [|n IH]; intros s C u S; cbn [process_deferred]; (eapply ok_eq; [done|]).
  - eapply ok_now; [done|]. by exists C, u.
  - destruct (eb_deferred s) as [|p q] eqn:Hq; [eapply ok_now; [done|by exists C, u]|]. destruct (sim_start _ _ _ _ _ _ S Hq) as (c & k & v & Hc & Hv & S1).
    eapply ok_eq; [by apply edit_bev_run|]. eapply ok_eq; [done|]. eapply okn_bind; [by apply (deferred_ok F p c k)|]. intros [] s2 a2 (C2 & u2 & S2 & ->). by apply IH.
Qed.

(** ** Reading *)

Lemma schedule_run p v s : eb_bevs s !! p = Some v ->
  schedule p s = Ret (tt, if bv_queued v then s else set_deferred (eb_deferred s ++ [p]) (put p (set_queued true (set_refcnt (bv_refcnt v + 1) v)) s)).
Proof.
  intros Hv. unfold schedule. bgo. destruct (bv_queued v) eqn:Hq; cbn [negb]; [done|]. unfold SCHEDULE_DEFERRED, bufferevent_incref, event_deferred_cb_schedule. bgo.
  replace (bv_queued (set_refcnt _ v)) with false by (by destruct v). cbn [negb]. bgo. by destruct s.
Qed.
Lemma dec_run p v s : eb_bevs s !! p = Some v -> 1 < bv_refcnt v -> _bufferevent_decref_and_unlock p s = Ret (tt, put p (set_refcnt (bv_refcnt v - 1) v) s).
Proof.
  intros Hv Hr. unfold _bufferevent_decref_and_unlock. bgo. destruct (Z.ltb_spec 0 (bv_refcnt v)); [|lia]. bgo. destruct (Z.eqb_spec (bv_refcnt v - 1) 0); [lia|]. done.
Qed.
Lemma put_in_touched p v w dq fd o s : put p w (touched p v dq fd o s) = touched p w dq fd o s.
Proof. unfold put, touched. cbn. by rewrite insert_insert_eq. Qed.
Lemma at_touched p v dq fd o s : eb_bevs (touched p v dq fd o s) !! p = Some v.
Proof. cbn. apply lookup_insert_eq. Qed.
(** Scheduling the callbacks, and giving back the reference that was taken for
    the time of the transfer. *)
Definition settled (r : Z) (v : bufferevent) : bufferevent :=
  if bv_queued v then set_refcnt r v else set_queued true (set_refcnt (r + 1) v).
Lemma settle_run p v dq fd o s r : bv_refcnt v = r + 1 -> 0 < r -> exists dq', (schedule p ;; _bufferevent_decref_and_unlock p) (touched p v dq fd o s) = Ret (tt, touched p (settled r v) dq' fd o s) /\
  requeued p v (settled r v) dq dq'.
Proof.
  intros Hr Hp. rewrite (bbind_eq _ _ _ _ _ (schedule_run p v _ (at_touched _ _ _ _ _ _))). unfold settled, requeued. destruct (bv_queued v) eqn:Hq.
  - exists dq. rewrite (dec_run p v _ (at_touched _ _ _ _ _ _)) by lia. rewrite put_in_touched, Hr. replace (r + 1 - 1) with r by lia. split; [done|]. right. by destruct v.
  - exists (dq ++ [p]). rewrite put_in_touched. change (set_deferred (eb_deferred (touched p v dq fd o s) ++ [p]) (touched p ?w dq fd o s)) with (touched p w (dq ++ [p]) fd o s).
    set (w := set_queued true _). rewrite (dec_run p w) by first [apply at_touched | (unfold w; destruct v; cbn in *; lia)]. rewrite put_in_touched. split; [|left; by destruct v].
    replace (set_refcnt (bv_refcnt w - 1) w) with (set_queued true (set_refcnt (r + 1) v)); [done|]. unfold w. destruct v; cbn in *. subst. f_equal. lia.
Qed.
Lemma settled_ok r c k v p : bv_fd v = k_fd k -> bv_cbarg v = Some c -> holds In (bv_input v) (k_in k) -> input_set (bv_input v) -> holds Out (bv_output v) (k_out k) -> output_set (bv_output v) ->
  bv_readcb_pending v = k_note k -> r = 1 + Z.b2z (bv_queued v) -> (bv_eventcb_pending v <> 0 -> k_broken k = true) -> Z.land (bv_eventcb_pending v) BEV_EVENT_CONNECTED = 0 ->
  bev_ok None p c k (settled r v).
Proof. intros. unfold settled. destruct v; cbn in *. destruct bv_queued; subst; split; cbn; done. Qed.

Lemma holds_freeze k st x b bs : holds k b bs -> holds k (set_freeze st x b) bs.
Proof. intros (cs & [H1 H2 H3 H4 H5 H6 H7 H8] & Hr). exists cs. unfold set_freeze. destruct b, st; cbn in *; (split; [by split|done]). Qed.
Lemma alter_at (m : gmap Z sock) f fd o : m !! fd = Some o -> alter f fd m = <[fd := f o]> m.
Proof.
  intros H. apply map_eq. intros i. rewrite lookup_insert. case_decide as E; [subst; by rewrite lookup_alter_eq, H|by rewrite lookup_alter_ne].
Qed.
Lemma put_open p v fd o s : set_open (<[fd := o]> (eb_open s)) (put p v s) = touched p v (eb_deferred s) fd o s.
Proof. by destruct s. Qed.
(** What a read of the socket of [k] can do to its input. *)
Definition read_result (k : conn) (res : Z) (b : evbuffer) (o : sock) : Prop :=
  (res = -1 /\ holds In b (k_in k) /\ o = sock_of k) \/ (res = 0 /\ holds In b (k_in k) /\ o = sock_of k) \/
  (exists n, res = Z.of_nat n /\ Z.of_nat n <= EVBUFFER_MAX_READ /\ (0 < n <= length (k_net k))%nat /\ holds In b (k_in k ++ take n (k_net k)) /\ o = mkSock (drop n (k_net k)) (k_wire k)).
Lemma so_readv_some k r n data : 0 < n -> so_readv (sock_of k) r n = Some data -> Z.of_nat (length data) <= n /\
  (data = [] \/ ((0 < length data <= length (k_net k))%nat /\ data = take (length data) (k_net k))).
Proof.
  intros Hn. destruct r as [| |cut]; cbn [so_readv]; [done|intros [= <-]; cbn; split; [lia|by left]|]. cbn [sock_of so_in].
  destruct (k_net k) as [|x l] eqn:E; [done|]. intros Es. assert (data = take (Nat.min (S cut) (Z.to_nat n)) (x :: l)) as -> by congruence. clear Es. assert (0 < Nat.min (S cut) (Z.to_nat n) <= Z.to_nat n)%nat as Hm by lia. revert Hm. generalize (Nat.min (S cut) (Z.to_nat n)) as m. intros m Hm. rewrite length_take. split; [lia|]. right.
  split; [rewrite length_cons; lia|]. destruct (decide (m <= length (x :: l))%nat); [by rewrite Nat.min_l|]. rewrite Nat.min_r by lia. rewrite !firstn_all2 by lia. done.
Qed.
Lemma read_input_run p v k readable r s : eb_bevs s !! p = Some v -> bv_fd v = k_fd k -> holds In (bv_input v) (k_in k) -> input_set (bv_input v) ->
  eb_open s !! k_fd k = Some (sock_of k) -> Z.of_nat (length (k_in k)) < 2 ^ 30 ->
  exists res b o, read_input oom junk p readable r s = Ret (res, touched p (set_input b v) (eb_deferred s) (k_fd k) o s) /\ input_set b /\ read_result k res b o.
Proof.
  intros Hv Hfd Hh (Z1 & Z2 & Z3) Hs Hl. unfold read_input. bgo. rewrite (bbind_eq (the_sock _) _ _ (sock_of k) s) by (unfold the_sock, look; by rewrite Hfd, Hs).
  rewrite (bbind_eq _ _ _ _ _ (on_input_run p (upd (evbuffer_unfreeze false)) v tt (evbuffer_unfreeze false (bv_input v)) s Hv eq_refl)).
  set (b0 := evbuffer_unfreeze false (bv_input v)). assert (holds In b0 (k_in k)) as Hh0 by (by apply holds_freeze). assert (eb_freeze_end b0 = false) as Hz0 by done.
  pose proof (read_size_max readable MAX_TO_READ_EVER ltac:(unfold MAX_TO_READ_EVER; lia)) as Hsz. set (h := read_size readable MAX_TO_READ_EVER) in *.
  destruct (evbuffer_read_run (oom p false) (junk p false) b0 (k_in k) readable (so_readv (sock_of k) r) MAX_TO_READ_EVER Hh0 Hz0 ltac:(unfold MAX_TO_READ_EVER; lia) ltac:(lia)) as ([res l] & b1 & E & (S1 & S2 & S3) & Hres).
  { intros data Hd. by apply (so_readv_some k r) in Hd as [? _]; [|apply Hsz]. }
  rewrite (bbind_eq _ _ _ _ _ (on_input_run p _ (set_input b0 v) _ b1 _ (put_at _ _ _) ltac:(destruct v; exact E))), put_put. cbv beta iota.
  set (o := mkSock (drop (Z.to_nat res) (k_net k)) (k_wire k)).
  rewrite (bbind_eq (has_read (bv_fd v) res) _ _ tt (touched p (set_input b1 v) (eb_deferred s) (k_fd k) o s)).
  2:{ unfold has_read, mod_base. do 2 f_equal. replace (set_input b1 (set_input b0 v)) with (set_input b1 v) by (by destruct v). rewrite <- put_open. destruct s; cbn in *. by rewrite Hfd, (alter_at _ _ _ _ Hs). }
  rewrite (bbind_eq _ _ _ _ _ (on_input_run p (upd (evbuffer_freeze false)) (set_input b1 v) tt (evbuffer_freeze false b1) _ (at_touched _ _ _ _ _ _) ltac:(by destruct v))), put_in_touched.
  exists res, (evbuffer_freeze false b1), o. split; [by destruct v|]. split; [unfold input_set; cbn; by rewrite S1, S3|]. unfold read_result, o.
  destruct Hres as [([= -> _] & Hh1 & _)|Hres]; [left; split; [done|]; split; [by apply holds_freeze|done]|]. fold h in Hres.
  destruct (so_readv (sock_of k) r h) as [data|] eqn:Er; destruct Hres as [[= -> _] Hh1]; [|left; split; [done|]; split; [by apply holds_freeze|done]].
  right. apply so_readv_some in Er as [Hdl [->|[Hd Ed]]]; [|right|apply Hsz].
  - left. rewrite app_nil_r in Hh1. split; [done|]. split; [by apply holds_freeze|done].
  - exists (length data). rewrite <- Ed, Nat2Z.id. split_and!; [done|lia|lia|lia|by apply holds_freeze|done].
Qed.
Lemma touched_put p v w dq fd o s : touched p w dq fd o (put p v s) = touched p w dq fd o s.
Proof. unfold put, touched. destruct s. cbn. by rewrite insert_insert_eq. Qed.
(** The events of a socket are told to its client. *)
Lemma run_eventcb_run p v c what s : eb_bevs s !! p = Some v -> bv_cbarg v = Some c ->
  forall (m : B unit), (_bufferevent_run_eventcb p what ;; m) s = (schedule p ;; m) (put p (set_eventcb_pending (Z.lor (bv_eventcb_pending v) what) v) s).
Proof.
  intros Hv Hc m. unfold _bufferevent_run_eventcb, mbind, B_bind. rewrite (bev_run _ _ _ Hv), Hc. by rewrite (edit_bev_run _ _ _ _ Hv).
Qed.
Lemma run_readcb_run p v c s : eb_bevs s !! p = Some v -> bv_cbarg v = Some c ->
  forall (m : B unit), (_bufferevent_run_readcb p ;; m) s = (schedule p ;; m) (put p (set_readcb_pending true v) s).
Proof. intros Hv Hc m. unfold _bufferevent_run_readcb, mbind, B_bind. rewrite (bev_run _ _ _ Hv), Hc. by rewrite (edit_bev_run _ _ _ _ Hv). Qed.
Lemma run_writecb_run p v c s : eb_bevs s !! p = Some v -> bv_cbarg v = Some c ->
  forall (m : B unit), (_bufferevent_run_writecb p ;; m) s = (schedule p ;; m) (put p (set_writecb_pending true v) s).
Proof. intros Hv Hc m. unfold _bufferevent_run_writecb, mbind, B_bind. rewrite (bev_run _ _ _ Hv), Hc. by rewrite (edit_bev_run _ _ _ _ Hv). Qed.
(** An error ends in the event callback. *)
Lemma break_run p v c rd wr what dq fd o s r : bv_cbarg v = Some c -> bv_refcnt v = r + 1 -> 0 < r ->
  exists v' dq', ((bufferevent_disable p rd wr ;; _bufferevent_run_eventcb p what) ;; _bufferevent_decref_and_unlock p) (touched p v dq fd o s) = Ret (tt, touched p (settled r v') dq' fd o s) /\
    requeued p v (settled r v') dq dq' /\ bv_fd v' = bv_fd v /\ bv_cbarg v' = bv_cbarg v /\ bv_input v' = bv_input v /\ bv_output v' = bv_output v /\ bv_readcb_pending v' = bv_readcb_pending v /\
    bv_queued v' = bv_queued v /\ bv_eventcb_pending v' = Z.lor (bv_eventcb_pending v) what.
Proof.
  intros Hc Hr Hp. destruct (disable_run p v rd wr (touched p v dq fd o s) (at_touched _ _ _ _ _ _)) as (v1 & E1 & D1 & D2 & D3 & D4 & D5 & D6 & D7 & D8). rewrite put_in_touched in E1.
  set (v' := set_eventcb_pending (Z.lor (bv_eventcb_pending v1) what) v1). destruct (settle_run p v' dq fd o s r ltac:(unfold v'; destruct v1; cbn in *; lia) Hp) as (dq' & E & Hq). exists v', dq'.
  split; [|split; [|unfold v'; destruct v1; cbn in *; rewrite D8; done]].
  - rewrite <- E. rewrite <- (put_in_touched p v1 v' dq fd o s). unfold v'. rewrite <- (run_eventcb_run p v1 c what _ (at_touched _ _ _ _ _ _)) by congruence.
    unfold mbind at 1 2, B_bind at 1 2. by rewrite E1.
  - unfold requeued in *. assert (bv_queued v' = bv_queued v) as <- by (unfold v'; by destruct v1). done.
Qed.
Lemma lor_connected a w : Z.land a BEV_EVENT_CONNECTED = 0 -> Z.land w BEV_EVENT_CONNECTED = 0 -> Z.land (Z.lor a w) BEV_EVENT_CONNECTED = 0.
Proof. intros H1 H2. by rewrite Z.land_lor_distr_l, H1, H2. Qed.
(** The bufferevents between two events. *)
Lemma sim_idle F s C u p v : sim F None None ∅ s C u -> eb_bevs s !! p = Some v -> exists c k, C !! c = Some k /\ objs s !! c = Some (tcp_of k p) /\ bev_ok None p c k v /\
  eb_open s !! k_fd k = Some (sock_of k) /\ bv_refcnt v = 1 + Z.b2z (bv_queued v).
Proof.
  intros S Hv. destruct (si_bev S _ _ Hv) as [(c & k & Hc & Ho)|[? _]]; [|done]. destruct (si_conn S _ _ Hc) as (p0 & v0 & Ho0 & Hv0 & Hb & Hs & HF).
  rewrite Ho in Ho0. injection Ho0 as <-. rewrite Hv in Hv0. injection Hv0 as <-. exists c, k. split_and!; [done..|]. rewrite (bo_ref Hb). change (running None p) with false. cbn. lia.
Qed.
Lemma readcb_ok F p v readable r retry s C u : sim F None None ∅ s C u -> eb_bevs s !! p = Some v ->
  okE (fun l : label => exists n, Z.of_nat n <= EVBUFFER_MAX_READ /\ (l = L_read (bv_fd v) n \/ l = L_break (bv_fd v))) (bufferevent_readcb oom junk p readable r retry) s (mkSpec C u [] None) (rest F).
Proof.
  intros S Hv. destruct (sim_idle _ _ _ _ _ _ S Hv) as (c & k & Hc & Ho & Hb & Hs & Hr). destruct (input_short C u [] None _ _ Hc) as [Hl|Hst]; [|by apply okE_stay, ok_stuck].
  pose proof Hb as [B1 B2 B3 B4 B5 B6 B7 B8 B9 B10 B11]. unfold bufferevent_readcb, bufferevent_incref. eapply okE_eq; [by apply edit_bev_run|]. set (v1 := set_refcnt (bv_refcnt v + 1) v).
  destruct (read_input_run p v1 k readable r (put p v1 s) (put_at _ _ _)) as (res & b & o & E & Hb2 & Hres); [by unfold v1; destruct v..|by destruct s|done|].
  eapply okE_eq; [exact E|]. rewrite touched_put. replace (eb_deferred (put p v1 s)) with (eb_deferred s) by (by destruct s). set (v2 := set_input b v1). set (rc := bv_refcnt v).
  assert (bv_refcnt v2 = rc + 1 /\ bv_cbarg v2 = Some c /\ bv_queued v2 = bv_queued v) as (Hr2 & Hc2 & Hq2) by (unfold v2, v1, rc; by destruct v). assert (0 < rc) by (unfold rc; destruct (bv_queued v); cbn in *; lia).
  assert (forall k' v' dq, bev_ok None p c k' v' -> k_fd k' = k_fd k -> k_pend k' = k_pend k -> sock_of k' = o -> requeued p v2 v' (eb_deferred s) dq ->
    rest F tt (touched p v' dq (k_fd k) o s) (mkSpec (<[c := k']> C) u [] None)) as Hend.
  { intros k' v' dq Hb' E1 E2 <- Hq. exists (<[c := k']> C), u. split; [|done]. apply (sim_touch _ _ _ _ _ _ _ _ k k' p v v' _ S Hc Ho Hv Hb' E1 E2). unfold requeued in *. by rewrite <- Hq2. }
  assert (forall what, Z.land what BEV_EVENT_CONNECTED = 0 -> holds In b (k_in k) -> o = sock_of k ->
    okE (fun l : label => exists n, Z.of_nat n <= EVBUFFER_MAX_READ /\ (l = L_read (bv_fd v) n \/ l = L_break (bv_fd v))) (read_error p what ;; _bufferevent_decref_and_unlock p) (touched p v2 (eb_deferred s) (k_fd k) o s) (mkSpec C u [] None) (rest F)) as Hbreak.
  { intros what Hw Hh Eo. destruct (break_run p v2 c true false what (eb_deferred s) (k_fd k) o s rc Hc2 Hr2 ltac:(lia)) as (v' & dq' & Eb & Hq & F1 & F2 & F3 & F4 & F5 & F6 & F7).
    eapply okE_turn; [|by apply (S_break _ c k)|]; [exists O; split; [unfold EVBUFFER_MAX_READ; lia|right; by rewrite B1]|]. eapply ok_now; [exact Eb|]. apply Hend; try done. unfold v2, v1 in *.
    apply settled_ok; rewrite ?F1, ?F2, ?F3, ?F4, ?F5, ?F6, ?F7; destruct v; cbn in *; try done. by apply lor_connected. }
  destruct Hres as [(-> & Hh & Eo)|[(-> & Hh & Eo)|(n & -> & Hmax & Hn & Hh & Eo)]]; cbn [Z.eqb].
  - destruct retry; [|by apply Hbreak]. eapply okE_eq; [done|]. apply okE_stay. eapply ok_now; [rewrite (dec_run p v2 _ (at_touched _ _ _ _ _ _)) by lia; by rewrite put_in_touched|].
    rewrite <- (insert_id C c k Hc). apply Hend; try done; [|right; unfold v2, v1; by destruct v].
    unfold v2, v1, rc in *. destruct v; cbn in *. split; cbn; try done. change (running None p) with false. cbn. lia.
  - by apply Hbreak.
  - destruct (Z.eqb_spec (Z.of_nat n) (-1)); [lia|]. destruct (Z.leb_spec (Z.of_nat n) 0); [lia|]. eapply okE_turn; [|by apply (S_read _ c k n)|]; [exists n; split; [done|left; by rewrite B1]|].
    destruct (settle_run p (set_readcb_pending true v2) (eb_deferred s) (k_fd k) o s rc ltac:(by destruct v2) ltac:(lia)) as (dq' & Es & Hq). eapply ok_now.
    + rewrite (run_readcb_run p v2 c _ (at_touched _ _ _ _ _ _) Hc2), put_in_touched. exact Es.
    + apply Hend; try done; [|unfold requeued in *; by destruct v2]. unfold v2, v1 in *. apply settled_ok; destruct v; cbn in *; done.
Qed.

(** ** Writing *)

Definition write_result (k : conn) (res : Z) (b : evbuffer) (o : sock) : Prop :=
  ((res = -1 \/ res = 0) /\ holds Out b (k_out k) /\ o = sock_of k) \/
  (exists n, res = Z.of_nat n /\ (0 < n <= length (k_out k))%nat /\ holds Out b (drop n (k_out k)) /\ o = mkSock (k_net k) (k_wire k ++ take n (k_out k))).
Lemma write_output_run p v k writev s : eb_bevs s !! p = Some v -> bv_fd v = k_fd k -> holds Out (bv_output v) (k_out k) -> output_set (bv_output v) ->
  eb_open s !! k_fd k = Some (sock_of k) -> Z.of_nat (length (k_out k)) < 2 ^ 30 -> k_out k <> [] -> writes writev ->
  exists res b e o, write_output add_ok p writev s = Ret (res, touched p (set_ev_write e (set_output b v)) (eb_deferred s) (k_fd k) o s) /\ output_set b /\ write_result k res b o.
Proof.
  intros Hv Hfd Hh (Z1 & Z2 & Z3) Hs Hl Hne Hw. unfold write_output. bgo.
  rewrite (bbind_eq _ _ _ _ _ (on_output_run p (upd (evbuffer_unfreeze true)) v tt (evbuffer_unfreeze true (bv_output v)) s Hv eq_refl)).
  set (b0 := evbuffer_unfreeze true (bv_output v)). assert (holds Out b0 (k_out k)) as Hh0 by (by apply holds_freeze).
  destruct (evbuffer_write_run Out b0 (k_out k) writev MAX_TO_WRITE_EVER Hh0 eq_refl ltac:(unfold MAX_TO_WRITE_EVER; lia) ltac:(lia) Hw Hne) as (m & n & b1 & Hm & En & E & (S1 & S2 & S3) & Hh1).
  rewrite (bbind_eq _ _ _ _ _ (on_output_run p _ (set_output b0 v) _ b1 _ (put_at _ _ _) ltac:(destruct v; exact E))), put_put. cbv beta iota.
  replace (set_output b1 (set_output b0 v)) with (set_output b1 v) by (by destruct v). set (l := told _ _ _ _). destruct (outbuf_all add_ok p l _ _ (put_at p (set_output b1 v) s)) as [e Ee].
  rewrite (bbind_eq _ _ _ _ _ Ee), put_put. set (v1 := set_ev_write e (set_output b1 v)). set (o := mkSock (k_net k) (k_wire k ++ take (Z.to_nat n) (k_out k))).
  rewrite (bbind_eq (has_written (bv_fd v) _) _ _ tt (touched p v1 (eb_deferred s) (k_fd k) o s)).
  2:{ unfold has_written, mod_base. do 2 f_equal. rewrite <- put_open. destruct s; cbn in *. by rewrite Hfd, (alter_at _ _ _ _ Hs). }
  rewrite (bbind_eq _ _ _ _ _ (on_output_run p (upd (evbuffer_freeze true)) v1 tt (evbuffer_freeze true b1) _ (at_touched _ _ _ _ _ _) ltac:(unfold v1; by destruct v))), put_in_touched.
  exists n, (evbuffer_freeze true b1), e, o. split; [unfold v1; by destruct v|]. split; [unfold output_set; cbn; by rewrite S2, S3|]. unfold write_result, o. clear E Ee.
  pose proof (Hw (take m (k_out k))) as Hnr. rewrite <- En in Hnr. rewrite length_take in Hnr. destruct (decide (0 < n)) as [Hp|Hp].
  - right. exists (Z.to_nat n). split_and!; [lia|lia|lia|by apply holds_freeze|done].
  - left. replace (Z.to_nat n) with O in * by lia. rewrite drop_0 in Hh1. rewrite take_0, app_nil_r. split; [lia|]. split; [by apply holds_freeze|done].
Qed.
Lemma drop_ev_write_run p v s : eb_bevs s !! p = Some v -> exists e, drop_ev_write p s = Ret (tt, put p (set_ev_write e v) s).
Proof.
  intros Hv. unfold drop_ev_write. rewrite (bbind_eq _ _ _ _ _ (look_output p eb_total_len v s Hv)). destruct (_ =? 0).
  - exists false. unfold event_del. by bgo.
  - exists (bv_ev_write v). replace (set_ev_write (bv_ev_write v) v) with v by (by destruct v). by rewrite put_same.
Qed.
(** The part behind a transfer, and the reference given back. *)
Lemma after_write_run p v c dq fd o s r : bv_cbarg v = Some c -> bv_refcnt v = r + 1 -> 0 < r ->
  exists v' dq', (after_write p ;; _bufferevent_decref_and_unlock p) (touched p v dq fd o s) = Ret (tt, touched p v' dq' fd o s) /\ requeued p v v' dq dq' /\
    (exists e, v' = settled r (set_writecb_pending true (set_ev_write e v)) \/ v' = set_refcnt r (set_ev_write e v)).
Proof.
  intros Hc Hr Hp. unfold after_write. destruct (drop_ev_write_run p v _ (at_touched p v dq fd o s)) as [e E]. rewrite put_in_touched in E. set (v1 := set_ev_write e v) in *.
  assert (forall (f : unit -> B unit) g, ((drop_ev_write p ≫= f) ≫= g) (touched p v dq fd o s) = (f tt ≫= g) (touched p v1 dq fd o s)) as -> by (intros f g; unfold mbind, B_bind; by rewrite E).
  assert (forall (f : Z -> B unit) g, ((on_output p evbuffer_get_length ≫= f) ≫= g) (touched p v1 dq fd o s) = (f (eb_total_len (bv_output v1)) ≫= g) (touched p v1 dq fd o s)) as ->.
  { intros f g. unfold mbind at 1 2, B_bind at 1 2. by rewrite (look_output p eb_total_len v1 _ (at_touched _ _ _ _ _ _)). }
  destruct (_ <=? 0).
  - destruct (settle_run p (set_writecb_pending true v1) dq fd o s r ltac:(unfold v1; by destruct v) Hp) as (dq' & Es & Hq). eexists _, dq'. split; [|split; [|exists e; by left]].
    + rewrite (run_writecb_run p v1 c _ (at_touched _ _ _ _ _ _)) by (unfold v1; by destruct v). rewrite put_in_touched. exact Es.
    + unfold requeued in *. unfold v1 in *. by destruct v.
  - exists (set_refcnt r v1), dq. split; [|split; [right; unfold v1; by destruct v|exists e; by right]].
    change ((mret tt ;; _bufferevent_decref_and_unlock p) (touched p v1 dq fd o s)) with (_bufferevent_decref_and_unlock p (touched p v1 dq fd o s)).
    rewrite (dec_run p v1 _ (at_touched _ _ _ _ _ _)) by (unfold v1; destruct v; cbn in *; lia). rewrite put_in_touched. do 3 f_equal. unfold v1. destruct v; cbn in *. subst. f_equal. lia.
Qed.
Lemma writecb_ok F p v writev retry s C u : sim F None None ∅ s C u -> eb_bevs s !! p = Some v -> writes writev ->
  okE (fun l : label => exists n, l = L_write (bv_fd v) n \/ l = L_break (bv_fd v)) (bufferevent_writecb add_ok p writev retry) s (mkSpec C u [] None) (rest F).
Proof.
  intros S Hv Hw. destruct (sim_idle _ _ _ _ _ _ S Hv) as (c & k & Hc & Ho & Hb & Hs & Hr).
  destruct (Z_lt_ge_dec (Z.of_nat (length (k_out k))) (2 ^ 30)) as [Hl|Hl]; [|apply okE_stay, ok_stuck; eapply overfull_at; [done|lia]].
  pose proof Hb as [B1 B2 B3 B4 B5 B6 B7 B8 B9 B10 B11]. unfold bufferevent_writecb, bufferevent_incref. eapply okE_eq; [by apply edit_bev_run|]. set (v1 := set_refcnt (bv_refcnt v + 1) v). set (rc := bv_refcnt v).
  assert (0 < rc) as Hrc by (unfold rc; destruct (bv_queued v); cbn in *; lia).
  eapply okE_eq; [apply (look_output p _ v1), put_at|]. assert (eb_total_len (bv_output v1) = Z.of_nat (length (k_out k))) as -> by (unfold v1; destruct v; apply (holds_length _ _ _ B5)).
  (* the end of every branch *)
  assert (forall k' b o v2 v' dq, v2 = set_output b v1 \/ (exists e, v2 = set_ev_write e (set_output b v1)) -> output_set b -> holds Out b (k_out k') -> sock_of k' = o ->
    k_fd k' = k_fd k -> k_pend k' = k_pend k -> k_in k' = k_in k -> k_note k' = k_note k -> k_broken k' = k_broken k ->
    requeued p v2 v' (eb_deferred s) dq -> (exists e, v' = settled rc (set_writecb_pending true (set_ev_write e v2)) \/ v' = set_refcnt rc (set_ev_write e v2)) ->
    rest F tt (touched p v' dq (k_fd k) o s) (mkSpec (<[c := k']> C) u [] None)) as Hend.
  { intros k' b o v2 v' dq Hv2 Hbs Hh <- E1 E2 E3 E4 E5 Hq Hv'. exists (<[c := k']> C), u. split; [|done]. apply (sim_touch _ _ _ _ _ _ _ _ k k' p v v' _ S Hc Ho Hv); [|done|done|].
    - destruct Hv' as (e' & [->| ->]); destruct Hv2 as [->|[e ->]]; unfold v1, rc in *; destruct v; cbn in *;
        first [apply settled_ok | split]; cbn; rewrite ?E1, ?E3, ?E4, ?E5; try done; change (running None p) with false; cbn; lia.
    - destruct Hv2 as [->|[e ->]]; unfold v1, requeued in *; destruct v; cbn in *; done. }
  destruct (Z.eqb_spec (Z.of_nat (length (k_out k))) 0) as [E0|E0]; cbn [negb].
  - rewrite (put_touched p v1 k s Hs). destruct (after_write_run p v1 c (eb_deferred s) (k_fd k) (sock_of k) s rc) as (v' & dq' & Ea & Hq & Hv'); [by unfold v1; destruct v..|done|].
    apply okE_stay. eapply ok_now; [exact Ea|]. rewrite <- (insert_id C c k Hc). apply (Hend k (bv_output v) _ v1 v' dq'); try done. left. unfold v1. by destruct v.
  - destruct (write_output_run p v1 k writev (put p v1 s) (put_at _ _ _)) as (res & b & e & o & E & Hbs & Hres); [by unfold v1; destruct v..|by destruct s|done|by intros Eo; rewrite Eo in E0|done|].
    rewrite touched_put in E. replace (eb_deferred (put p v1 s)) with (eb_deferred s) in E by (by destruct s). eapply okE_assoc. eapply okE_eq; [exact E|]. set (v2 := set_ev_write e (set_output b v1)) in *.
    assert (bv_cbarg v2 = Some c /\ bv_refcnt v2 = rc + 1) as [Hc2 Hr2] by (unfold v2, v1, rc; by destruct v).
    assert (forall what, Z.land what BEV_EVENT_CONNECTED = 0 -> holds Out b (k_out k) -> o = sock_of k ->
      okE (fun l : label => exists n, l = L_write (bv_fd v) n \/ l = L_break (bv_fd v)) (write_error p what ;; _bufferevent_decref_and_unlock p) (touched p v2 (eb_deferred s) (k_fd k) o s) (mkSpec C u [] None) (rest F)) as Hbreak.
    { intros what Hwh Hh Eo. destruct (break_run p v2 c false true what (eb_deferred s) (k_fd k) o s rc Hc2 Hr2 Hrc) as (v' & dq' & Eb & Hq & F1 & F2 & F3 & F4 & F5 & F6 & F7).
      eapply okE_turn; [|by apply (S_break _ c k)|]; [exists O; right; by rewrite B1|]. eapply ok_now; [exact Eb|]. exists (<[c := k_break k]> C), u. split; [|done]. rewrite Eo. apply (sim_touch _ _ _ _ _ _ _ _ k (k_break k) p v _ _ S Hc Ho Hv); [|done|done|].
      - unfold v2, v1 in *. apply settled_ok; rewrite ?F1, ?F2, ?F3, ?F4, ?F5, ?F6, ?F7; destruct v; cbn in *; try done. by apply lor_connected.
      - unfold v2, v1, requeued in *. by destruct v. }
    destruct Hres as [([->| ->] & Hh & Eo)|(n & -> & Hn & Hh & Eo)]; cbn [Z.eqb Z.leb].
    + destruct retry; [|by apply Hbreak]. destruct (drop_ev_write_run p v2 _ (at_touched p v2 (eb_deferred s) (k_fd k) o s)) as [e2 E2]. rewrite put_in_touched in E2. eapply okE_eq; [exact E2|].
      apply okE_stay. eapply ok_now; [rewrite (dec_run p _ _ (at_touched _ _ _ _ _ _)) by (unfold v2, v1, rc in *; destruct v; cbn in *; lia); by rewrite put_in_touched|].
      rewrite <- (insert_id C c k Hc). apply (Hend k b _ v2); try done; [by right; exists e|right; unfold v2, v1; by destruct v|]. exists e2. right. unfold v2, v1, rc. destruct v; cbn. f_equal. lia.
    + by apply Hbreak.
    + destruct (Z.eqb_spec (Z.of_nat n) (-1)); [lia|]. destruct (Z.leb_spec (Z.of_nat n) 0); [lia|]. eapply okE_turn; [|by apply (S_write _ c k n)|]; [exists n; left; by rewrite B1|].
      destruct (after_write_run p v2 c (eb_deferred s) (k_fd k) o s rc Hc2 Hr2 Hrc) as (v' & dq' & Ea & Hq & Hv'). eapply ok_now; [exact Ea|].
      apply (Hend (k_write n k) b _ v2 v' dq'); try done. by right; exists e.
Qed.

(** ** Accepting *)

(** Creating a client leaves a client that is not registered. *)
Definition opened (fd : Z) (s : net) : net := set_open (<[fd := mkSock [] []]> (eb_open s)) s.
Lemma enable_run p v s : eb_bevs s !! p = Some v -> 0 < bv_refcnt v -> exists er ew r, bufferevent_enable add_ok p true true s =
  Ret (r, put p (set_ev_write ew (set_ev_read er (set_enabled (bv_enabled_read v || true) (bv_enabled_write v || true) v))) s).
Proof.
  intros Hv Hr. unfold bufferevent_enable, bufferevent_incref. bgo. set (v1 := set_enabled _ _ _). set (s1 := put p v1 s).
  assert (forall v2 s2 w, eb_bevs s2 !! p = Some v2 -> exists e r, be_socket_add add_ok p w s2 = Ret (r, put p (if w then set_ev_write e v2 else set_ev_read e v2) s2)) as Hadd.
  { intros v2 s2 w H2. unfold be_socket_add, look. unfold mbind at 1, B_bind at 1. destruct (add_ok s2 p w).
    - exists true, 0. unfold mbind, B_bind. destruct w; by rewrite (edit_bev_run _ _ _ _ H2).
    - exists (if w then bv_ev_write v2 else bv_ev_read v2), (-1). rewrite put_same; [done|]. rewrite H2. by destruct w, v2. }
  assert (exists er ew r, be_socket_enable add_ok p true true s1 = Ret (r, put p (set_ev_write ew (set_ev_read er v1)) s)) as (er & ew & r & E).
  { destruct (Hadd v1 s1 false (put_at _ _ _)) as (er & r1 & E1). unfold be_socket_enable. rewrite (bbind_eq _ _ _ _ _ E1). unfold s1. rewrite put_put. destruct (r1 =? -1).
    - exists er, (bv_ev_write v1), (-1). do 2 f_equal. unfold v1. by destruct v.
    - destruct (Hadd _ (put p (set_ev_read er v1) s) true (put_at _ _ _)) as (ew & r2 & E2). rewrite (bbind_eq _ _ _ _ _ E2), put_put. destruct (r2 =? -1); [by exists er, ew, (-1)|by exists er, ew, 0]. }
  exists er, ew, (if r <? 0 then -1 else 0). rewrite (bbind_eq _ _ _ _ _ E). set (v2 := set_ev_write ew (set_ev_read er v1)). assert (1 < bv_refcnt v2) as H2 by (unfold v2, v1; destruct v; cbn in *; lia).
  rewrite (bbind_eq _ _ _ _ _ (dec_run p v2 (put p v2 s) (put_at _ _ _) H2)), put_put.
  unfold mret, B_ret. match goal with |- Ret (_, put p ?a s) = Ret (_, put p ?b s) => replace a with b; [done|] end. unfold v2, v1. destruct v; cbn. f_equal. lia.
Qed.
Lemma register_run F s C u c fd : sim F None None {[c := mkTcp fd true false None]} s C u -> C !! c = None -> eb_open s !! fd = Some (mkSock [] []) -> fd ∉ F ->
  (forall c' k, C !! c' = Some k -> k_fd k <> fd) -> (c < eb_next s)%nat ->
  exists s', (ok ← TcpClient_DoRegister add_ok true c; if ok : bool then AddSocket oom junk add_ok D c ;; mret true else mret false) s = Ret (true, s') /\
    sim F None None ∅ s' (<[c := new_conn fd]> C) u.
Proof.
  intros Sm Hc0 Hfd HF Hk Hlt. pose proof (si_rest Sm _ Hc0) as Ho. rewrite lookup_singleton_eq in Ho. set (p := eb_next s).
  assert (fd_map s !! fd = None) as Hm. { apply eq_None_not_Some. intros [c1 H1]. apply (si_map Sm) in H1 as (k & H1 & E & _). by destruct (Hk _ _ H1). }
  set (v0 := set_cbarg (Some c) (bufferevent_init fd)). set (s1 := set_eb_next (S p) s).
  destruct (enable_run p v0 (put p v0 s1) (put_at _ _ _) eq_refl) as (er & ew & r & E). rewrite put_put in E. set (v := set_ev_write ew _) in E.
  exists (mkBase (<[p := v]> (eb_bevs s)) (eb_deferred s) (eb_open s) (S p) (mkSocks (<[c := tcp_of (new_conn fd) p]> (objs s)) (<[fd := c]> (fd_map s)) (up s))). split.
  - unfold TcpClient_DoRegister. rewrite (bbind_eq (obj c ≫= _) _ s true (set_objs (<[c := tcp_of (new_conn fd) p]> (objs s)) (put p v s1))).
    + unfold AddSocket. rewrite (bbind_eq (obj c ≫= _) _ _ tt (set_fd_map (<[fd := c]> (fd_map s)) (set_objs (<[c := tcp_of (new_conn fd) p]> (objs s)) (put p v s1)))); [by destruct s|].
      rewrite (bbind_eq (obj c) _ _ (tcp_of (new_conn fd) p) (set_objs (<[c := tcp_of (new_conn fd) p]> (objs s)) (put p v s1))) by (apply obj_run; destruct s; apply lookup_insert_eq).
      rewrite (bbind_eq (look fd_map) _ _ (fd_map s) (set_objs (<[c := tcp_of (new_conn fd) p]> (objs s)) (put p v s1))) by (by destruct s). cbn [tcp_of tc_fd new_conn k_fd]. by rewrite Hm.
    + rewrite (bbind_eq _ _ _ _ _ (obj_run _ _ _ Ho)). unfold bufferevent_socket_new. cbn [tc_fd]. unfold bufferevent_setcb.
      rewrite (bbind_eq (look eb_next ≫= _) _ s (Some p) (put p (bufferevent_init fd) s1)) by (by destruct s). bgo. fold v0. rewrite (bbind_eq _ _ _ _ _ E).
      unfold edit_obj. rewrite (bbind_eq (obj c ≫= _) _ _ tt (set_objs (<[c := tcp_of (new_conn fd) p]> (objs s)) (put p v s1))); [done|].
      rewrite (bbind_eq (obj c) _ _ (mkTcp fd true false None) (put p v s1)) by (apply obj_run; by destruct s). by destruct s.
  - apply (sim_add _ _ _ _ _ _ _ _ Sm); try done. unfold v, v0. split; cbn; try done.
    + by apply (holds_freeze In), (new_holds In).
    + by apply (holds_freeze Out), (new_holds_cb Out).
Qed.
Lemma refuse_ok F s C u u0 c fd a : sim F None None {[c := mkTcp fd true false None]} s C u -> C !! c = None -> fd ∉ F -> 0 ∈ F -> (forall c' k, C !! c' = Some k -> k_fd k <> fd) ->
  app_new D c u0 = Ret u -> a = mkSpec C u0 [] None -> okE (fun l : label => l = L_refuse c) (delete_client oom junk add_ok D c) s a (rest F).
Proof.
  intros S Hc0 HF H0 Hk En ->. unfold delete_client. destruct (app_delete D c u) as [[sends u']| |] eqn:Ed; [|eapply okE_fault; [done|]; apply (F_refuse _ c _ _ u); [done|by intros ? E'; rewrite Ed in E']..].
  eapply okE_eq; [by apply (daemon_run _ _ _ _ _ _ _ _ _ _ S Ed)|]. eapply okE_turn; [done|by apply (S_refuse _ c C u0 u sends u')|]. apply (sim_set_up _ _ _ _ _ _ _ u') in S.
  eapply okn_bind; [by apply (sends_ok _ _ None _ _ None sends _ _ S)|]. intros [] s1 a1 (C1 & S1 & -> & _ & Hfds). cbn [staying].
  assert (C1 !! c = None) as Hc1 by (specialize (Hfds c); rewrite Hc0 in Hfds; by destruct (C1 !! c)). pose proof (si_rest S1 _ Hc1) as Ho. rewrite lookup_singleton_eq in Ho.
  eapply ok_now; [|exists C1, u'; split; [|done]; apply (sim_drop _ _ _ _ _ _ S1 Hc1); [done|]].
  - unfold TcpClient_dtor. rewrite (bbind_eq (obj c ≫= _) _ s1 tt s1) by (by rewrite (bbind_eq _ _ _ _ _ (obj_run _ _ _ Ho))). unfold SocketBase_dtor. rewrite (bbind_eq _ _ _ _ _ (obj_run _ _ _ Ho)).
    cbn [tc_fd]. destruct (Z.eqb_spec fd 0) as [->|_]; [done|]. cbn [negb]. by destruct s1.
  - intros c' k H1. specialize (Hfds c'). rewrite H1 in Hfds. destruct (C !! c') as [k'|] eqn:H2; [|done]. cbn in Hfds. injection Hfds as ->. by apply (Hk c').
Qed.
Lemma Accept_ok F (mem : bool) fd s C u : 0 ∈ F -> sim F None None ∅ s C u -> eb_open s !! fd = None -> fd <> -1 ->
  okE (fun l : label => l = if mem then L_open (eb_next s) fd else L_refuse (eb_next s)) (Accept oom junk add_ok D mem fd) (opened fd s) (mkSpec C u [] None) (rest F).
Proof.
  intros H0 S Hfd Hm. unfold Accept. destruct (Z.eqb_spec fd (-1)) as [|_]; [done|]. set (c := eb_next s). destruct (si_fresh S c (le_n _)) as (Hc0 & _ & _).
  assert (fd ∉ F) as HF. { intros HF. assert (is_Some (eb_open s !! fd)) as [] by (apply (si_open S); by left). congruence. }
  assert (forall c' k, C !! c' = Some k -> k_fd k <> fd) as Hk. { intros c' k Hc E. assert (is_Some (eb_open s !! fd)) as [] by (apply (si_open S); right; left; by exists c', k). congruence. }
  pose proof (sim_new _ _ _ _ _ (mkTcp fd false false None) S Hfd eq_refl) as S1. fold c in S1. set (s1 := mkBase _ _ _ _ _) in S1.
  unfold new_client. eapply okE_assoc. eapply okE_eq; [by destruct s|]. eapply okE_assoc. eapply okE_eq; [done|]. replace (eb_next (opened fd s)) with c by (by destruct s).
  replace (set_objs _ _) with s1 by (by destruct s). eapply okE_assoc. destruct (app_new D c u) as [u1| |] eqn:En; [|eapply okE_fault; [done|]; destruct mem; constructor; by intros ? E'; rewrite En in E'..].
  eapply okE_eq; [apply (daemon_run _ _ _ _ _ _ _ _ tt u1 S1); unfold mbind, result_bind; by rewrite En|]. eapply okE_eq; [done|]. apply (sim_set_up _ _ _ _ _ _ _ u1) in S1.
  unfold _Register. eapply okE_assoc. pose proof (si_rest S1 _ Hc0) as Ho. rewrite lookup_singleton_eq in Ho. eapply okE_eq; [unfold edit_obj; by rewrite (bbind_eq _ _ _ _ _ (obj_run _ _ _ Ho))|].
  apply (sim_host _ _ _ _ _ _) in S1; [|done]. cbn [set_host tc_fd tc_pend_close tc_bufev] in S1. set (s2 := set_objs _ _) in *. destruct mem.
  - destruct (register_run F s2 C u1 c fd S1 Hc0) as (s3 & E3 & S3); [destruct s; apply lookup_insert_eq|done|done|destruct s; cbn; lia|].
    eapply okE_eq; [exact E3|]. eapply okE_turn; [done|by apply (S_open _ c fd C u u1)|]. eapply ok_now; [done|]. by exists (<[c := new_conn fd]> C), u1.
  - pose proof (si_rest S1 _ Hc0) as Ho2. rewrite lookup_singleton_eq in Ho2. eapply okE_assoc. eapply okE_eq; [unfold TcpClient_DoRegister; by rewrite (bbind_eq _ _ _ _ _ (obj_run _ _ _ Ho2))|].
    eapply okE_eq; [done|]. by apply (refuse_ok _ _ _ _ u c fd _ S1).
Qed.

(** ** Every event *)

Lemma arrive_ok F fd data s C u : sim F None None ∅ s C u -> okE (fun l : label => l = L_arrive fd data) (arrive fd data) s (mkSpec C u [] None) (rest F).
Proof.
  intros S. unfold arrive. set (f := fun o => mkSock (so_in o ++ data) (so_out o)). destruct (decide (exists c k, C !! c = Some k /\ k_fd k = fd)) as [(c & k & Hc & <-)|Hno].
  - destruct (si_conn S _ _ Hc) as (p & v & Ho & Hv & Hb & Hs & HF). eapply okE_turn; [done|by apply (S_arrive _ c k data)|]. eapply ok_now; [done|]. exists (<[c := k_arrive data k]> C), u. split; [|done].
    assert (set_open (alter f (k_fd k) (eb_open s)) s = touched p v (eb_deferred s) (k_fd k) (sock_of (k_arrive data k)) s) as ->.
    { rewrite (alter_at _ _ _ _ Hs). unfold touched. rewrite (insert_id (eb_bevs s) p v Hv). by destruct s. }
    apply (sim_touch _ _ _ _ _ _ _ _ k _ p v v _ S Hc Ho Hv); [by destruct Hb|done|done|by right].
  - apply okE_stay. eapply ok_now; [done|]. exists C, u. split; [|done]. apply (sim_other _ _ _ _ _ _ _ _ S).
    + intros fd'. destruct (decide (fd' = fd)) as [->|Hne]; [rewrite lookup_alter_eq; by destruct (eb_open s !! fd)|by rewrite lookup_alter_ne].
    + intros c k Hc. rewrite lookup_alter_ne; [done|]. intros E. apply Hno. by exists c, k.
Qed.
(** The rules of the operating system: [accept] returns a descriptor that is
    not open, [writev] at most what it is given. *)
Definition event_ok (s : net) (e : net_event) : Prop :=
  match e with
  | Ev_accept fd _ => fd = -1 \/ eb_open s !! fd = None
  | Ev_writable _ writev _ => writes writev
  | _ => True
  end.
(** The steps from outside that an event can be. *)
Definition causes (s : net) (e : net_event) (l : label) : Prop :=
  match e with
  | Ev_accept fd mem => l = if mem then L_open (eb_next s) fd else L_refuse (eb_next s)
  | Ev_arrive fd data => l = L_arrive fd data
  | Ev_readable p _ _ _ => exists v n, eb_bevs s !! p = Some v /\ Z.of_nat n <= EVBUFFER_MAX_READ /\ (l = L_read (bv_fd v) n \/ l = L_break (bv_fd v))
  | Ev_writable p _ _ => exists v n, eb_bevs s !! p = Some v /\ (l = L_write (bv_fd v) n \/ l = L_break (bv_fd v))
  | Ev_deferred => False
  end.
Lemma net_step_ok F e s C u : 0 ∈ F -> sim F None None ∅ s C u -> event_ok s e ->
  okE (causes s e) (net_step oom junk add_ok D e) s (mkSpec C u [] None) (rest F).
Proof.
  intros H0 S He. destruct e as [fd mem|fd data|p readable r retry|p writev retry|]; cbn [net_step causes].
  - destruct (Z.eqb_spec fd (-1)) as [->|Hm].
    + eapply okE_eq; [done|]. apply okE_stay. eapply ok_now; [done|]. by exists C, u.
    + destruct He as [->|He]; [done|]. eapply okE_eq; [done|]. by apply Accept_ok.
  - by apply arrive_ok.
  - unfold when_pending. eapply okE_eq; [done|]. destruct (eb_bevs s !! p) as [v|] eqn:Hv; [destruct (bv_ev_read v)|]; [|apply okE_stay; eapply ok_now; [done|by exists C, u]..].
    eapply okE_mono; [|by apply (readcb_ok F p v)]. intros l (n & Hl). by exists v, n.
  - unfold when_pending. eapply okE_eq; [done|]. destruct (eb_bevs s !! p) as [v|] eqn:Hv; [destruct (bv_ev_write v)|]; [|apply okE_stay; eapply ok_now; [done|by exists C, u]..].
    eapply okE_mono; [|by apply (writecb_ok F p v)]. intros l (n & Hl). by exists v, n.
  - by apply okE_stay, process_deferred_ok.
Qed.
End sim.
