(* ===== verification/NetClaims.v ===== *)
(** * NetClaims: the socket layer implements its specification

    Every event of the loop is, on the connections, what the specification
    allows for it: a forward simulation from the start of the server.  A daemon
    whose code keeps the rules ([Lawful]) is served without end. *)

From S2P Require Import Prelude Words EvBuffer EvQueue EvRead EvClaims BufEv Net NetSpec NetInv NetSim.

(** A server without connections, and the descriptors it has besides them. *)
Definition start_net {U} (F : gset Z) (u : U) : evbase (socks U) :=
  mkBase ∅ [] (gset_to_gmap (mkSock [] []) F) 0 (mkSocks ∅ ∅ u).
Lemma start_sim {U} F (u : U) : sim F None None ∅ (start_net F u) ∅ u.
Proof.
  split; cbn; try done.
  - intros fd c. split; [done|]. by intros (k & ? & _).
  - intros fd. rewrite lookup_gset_to_gmap. split.
    + intros H. left. destruct (decide (fd ∈ F)); [done|]. rewrite option_guard_False in H by done. by destruct H.
    + intros [H|[(c & k & ? & _)|(c & o & ? & _)]]; [|done..]. rewrite option_guard_True by done. eauto.
  - constructor.
  - intros p. split; [by intros ?%not_elem_of_nil|by intros (v & ? & _)].
Qed.

Section claims.
Context {U : Type}.
Abbreviation net := (evbase (socks U)).
Context (oom : nat -> bool -> nat -> bool) (junk : nat -> bool -> nat -> nat -> Z) (add_ok : net -> nat -> bool -> bool) (D : app U).
Implicit Types (s : net) (a : netspec U).

(** The steps of the specification that belong to an event. *)
Definition event_steps (may : label -> Prop) a a' : Prop :=
  exists a1, (a1 = a \/ exists l, may l /\ e_step D l a a1) /\ d_steps D (lossy oom) a1 a'.
(** The server stands between two events, and [a] is its abstraction. *)
Definition abstracts (F : gset Z) s a : Prop := exists C u, a = mkSpec C u [] None /\ sim F None None ∅ s C u.

Lemma event_simulated F e s a : 0 ∈ F -> abstracts F s a -> event_ok s e ->
  (exists s' a', net_step oom junk add_ok D e s = Ret (tt, s') /\ event_steps (causes s e) a a' /\ abstracts F s' a') \/
  (exists l, causes s e l /\ e_fault D l a) \/ (exists a', event_steps (causes s e) a a' /\ stuck D a').
Proof.
  intros H0 (C & u & -> & S) He. destruct (net_step_ok oom junk add_ok D F e s C u H0 S He) as [(a1 & Ht & [(x & s' & a' & E & Hs & HQ)|(a' & Hs & Hst)])|H].
  - left. destruct HQ as (C' & u' & S' & ->). exists s', (mkSpec C' u' [] None). destruct x. split; [done|]. split; [by exists a1|]. by exists C', u'.
  - right. right. exists a'. split; [by exists a1|done].
  - right. by left.
Qed.

(** C17: The sockets of the daemons do what they should.  The server starts as an
    abstraction without connections; and whenever it stands at an abstraction,
    every event the operating system can cause (a connection with or without
    memory for it, bytes that arrive, reads and writes of any size that succeed
    or fail, the deferred callbacks) runs to its end and is at most one step
    from outside followed by steps of the server on the queues of its
    connections; the descriptors, clients, bufferevents, their counts and the
    deferred callbacks stay consistent, and every buffer holds its queue.
    Otherwise the daemon's own code failed or broke a rule, or a gigabyte waits
    on a connection. *)
Theorem net_refines F (u0 : U) : 0 ∈ F ->
  abstracts F (start_net F u0) (mkSpec ∅ u0 [] None) /\
  forall s a e, abstracts F s a -> event_ok s e ->
    (exists s' a', net_step oom junk add_ok D e s = Ret (tt, s') /\ event_steps (causes s e) a a' /\ abstracts F s' a') \/
    (exists l, causes s e l /\ e_fault D l a) \/ (exists a', event_steps (causes s e) a a' /\ stuck D a').
Proof.
  intros H0. split; [exists ∅, u0; split; [done|apply start_sim]|]. intros s a e Ha He. by apply event_simulated.
Qed.
End claims.

(** ** Daemons that keep the rules *)

Section lawful.
Context {U : Type}.
Abbreviation net := (evbase (socks U)).
Context (D : app U).

(** [good L c sent q u]: with the clients [L] and the state [u] the code [q] of
    the client [c] does not fail, uses clients of [L] and keeps [I]; [sent]:
    something was sent to [c] that is not written yet. *)
Fixpoint good (I : gset nat -> U -> Prop) (L : gset nat) (c : nat) (sent : bool) (q : prog U) (u : U) : Prop :=
  match q with
  | Done => I L u
  | Upd f k => exists a u', f u = Ret (a, u') /\ good I L c sent (k a) u'
  | Length k => forall n, size_t_ok n -> good I L c sent (k n) u
  | Copyout n k | Read n k => size_t_ok n /\ forall d, Z.of_nat (length d) <= n -> good I L c sent (k (Z.of_nat (length d), d)) u
  | Drain n k => size_t_ok n /\ good I L c sent k u
  | Send q d k => q ∈ L /\ good I L c (sent || bool_decide (q = c /\ d <> [])) k u
  | PendClose q k => q = c /\ sent = true /\ good I L c sent k u
  end.
(** What the socket layer asks of a client class; [I L u]: the state is right
    for the clients [L]. *)
Class Lawful (I : gset nat -> U -> Prop) : Prop := {
  law_new : forall L c u, I L u -> c ∉ L -> exists u', app_new D c u = Ret u' /\ I ({[c]} ∪ L) u';
  law_recv : forall L c u, I L u -> c ∈ L -> good I L c false (app_recv D c) u;
  law_delete : forall L c u, I L u -> c ∈ L -> exists sends u', app_delete D c u = Ret (sends, u') /\ I (L ∖ {[c]}) u' /\ Forall (fun e => e.1 ∈ L ∖ {[c]}) sends
}.

Context (I : gset nat -> U -> Prop) `{!Lawful I}.
(** The specification with such a daemon. *)
Definition keeps (a : netspec U) : Prop :=
  Forall (fun e => e.1 ∈ dom (sp_conns a)) (sp_sends a) /\
  match sp_run a with
  | None => I (dom (sp_conns a)) (sp_up a)
  | Some (c, q) => sp_sends a = [] /\ exists k sent, sp_conns a !! c = Some k /\ (sent = true -> k_out k <> []) /\ good I (dom (sp_conns a)) c sent q (sp_up a)
  end.

Lemma dom_same (C : gmap nat conn) c k k' : C !! c = Some k -> dom (<[c := k']> C) = dom C.
Proof. intros H. apply dom_insert_lookup_L. eauto. Qed.
Lemma take_length (l : bytes) n : size_t_ok n -> Z.min n (Z.of_nat (length l)) = Z.of_nat (length (take (Z.to_nat n) l)) /\ Z.of_nat (length (take (Z.to_nat n) l)) <= n.
Proof. intros [? ?]. rewrite length_take. lia. Qed.
Lemma app_not_nil (l d : bytes) : l <> [] \/ d <> [] -> l ++ d <> [].
Proof. intros H E. apply app_nil in E as [-> ->]. naive_solver. Qed.

Lemma keeps_e l a a' : keeps a -> e_step D l a a' -> keeps a'.
Proof.
  intros [Hs Hr] He. destruct He as [c fd C u u' Hc Hf En|c C u u' sends u'' Hc En Ed|c k d C u Hc|c k n C u Hc Hn|c k n C u Hc Hn|c k C u Hc]; unfold keeps in *; cbn in *.
  - split; [done|]. destruct (law_new _ c _ Hr) as (u1 & E1 & H1); [by apply not_elem_of_dom|]. rewrite dom_insert_L. congruence.
  - destruct (law_new _ c _ Hr) as (u1 & E1 & H1); [by apply not_elem_of_dom|]. rewrite En in E1. injection E1 as <-.
    destruct (law_delete _ c _ H1) as (sends1 & u2 & E2 & H2 & H3); [set_solver|]. rewrite Ed in E2. injection E2 as <- <-.
    assert (({[c]} ∪ dom C) ∖ {[c]} = dom C) as Edom by (apply not_elem_of_dom in Hc; set_solver). by rewrite Edom in *.
  - by rewrite (dom_same _ _ _ _ Hc).
  - by rewrite (dom_same _ _ _ _ Hc).
  - by rewrite (dom_same _ _ _ _ Hc).
  - by rewrite (dom_same _ _ _ _ Hc).
Qed.
Lemma keeps_d a a' : keeps a -> d_step D False a a' -> keeps a' \/ overfull a.
Proof.
  intros [Hs Hr] Hd. destruct Hd. 7: destruct (decide (size_t_ok (Z.of_nat (length (k_in x))))) as [Hz|Hz].
  8: right; exists c, x; split; [done|]; left; unfold size_t_ok in Hz; lia.
  all: left; unfold keeps in *; cbn [sp_conns sp_sends sp_run sp_up] in *; try done.
  - split; [done|]. split; [done|]. exists (k_told k), false. rewrite lookup_insert_eq, (dom_same _ _ _ _ H). split; [done|]. split; [done|]. apply law_recv; [done|]. apply elem_of_dom. eauto.
  - destruct (law_delete _ c _ Hr) as (sends1 & u2 & E2 & H2 & H3); [apply elem_of_dom; eauto|]. rewrite H1 in E2. injection E2 as <- <-. by rewrite dom_delete_L.
  - inversion Hs as [|? ? Hx Hs']; subst. rewrite (dom_same _ _ _ _ H). split; [done|]. destruct run as [[]|]; [by destruct Hr|done].
  - destruct Hr as (_ & k & sent & Hk & Hse & Hg). by split.
  - destruct Hr as (_ & k1 & sent & Hk & Hse & a1 & u1 & E1 & Hg). rewrite H in E1. injection E1 as <- <-. split; [done|]. split; [done|]. by exists k1, sent.
  - destruct Hr as (_ & k1 & sent & Hk & Hse & Hg). split; [done|]. split; [done|]. exists k1, sent. split_and!; [done|done|]. by apply Hg.
  - destruct Hr as (_ & k1 & sent & Hk & Hse & Hn & Hg). split; [done|]. split; [done|]. exists k1, sent. split_and!; [done|done|]. destruct (take_length (k_in x) n Hn) as [E1 E2]. rewrite E1. by apply Hg.
  - destruct Hr as (_ & k1 & sent & Hk & Hse & Hn & Hg). split; [done|]. split; [done|]. assert (k1 = x) as -> by congruence. exists (k_take (Z.to_nat n) x), sent. rewrite lookup_insert_eq, (dom_same _ _ _ _ H).
    split_and!; [done|done|]. destruct (take_length (k_in x) n Hn) as [E1 E2]. rewrite E1. by apply Hg.
  - destruct Hr as (_ & k1 & sent & Hk & Hse & Hn & Hg). split; [done|]. split; [done|]. assert (k1 = x) as -> by congruence. exists (k_take (Z.to_nat n) x), sent. rewrite lookup_insert_eq, (dom_same _ _ _ _ H). done.
  - destruct Hr as (_ & k1 & sent & Hk & Hse & Hq & Hg). split; [done|]. split; [done|]. rewrite (dom_same _ _ _ _ H). destruct (decide (q = c)) as [->|Hne].
    + assert (k1 = x) as -> by congruence. eexists (k_send d x), _. rewrite lookup_insert_eq. split_and!; [done| |exact Hg]. intros E. cbn. apply app_not_nil.
      apply orb_true_iff in E as [E|E]; [left; by apply Hse|right]. apply bool_decide_eq_true_1 in E. naive_solver.
    + eexists k1, _. rewrite lookup_insert_ne by done. split_and!; [done| |exact Hg]. intros E. apply orb_true_iff in E as [E|E]; [by apply Hse|]. apply bool_decide_eq_true_1 in E. naive_solver.
  - destruct Hr as (_ & k1 & sent & Hk & Hse & _ & -> & Hg). split; [done|]. split; [done|]. assert (k1 = x) as -> by congruence. exists (k_set_pend true x), true. rewrite lookup_insert_eq, (dom_same _ _ _ _ H). done.
  - destruct Hr as (_ & k1 & sent & Hk & Hse & _ & -> & Hg). assert (k1 = x) as -> by congruence. by destruct (Hse eq_refl).
Qed.
Lemma keeps_no_fault a : keeps a -> ~ at_fault D a.
Proof.
  intros [Hs Hr] Hf. destruct Hf; cbn in *.
  - destruct (law_delete _ c _ Hr) as (sends1 & u2 & E2 & _); [apply elem_of_dom; eauto|]. by destruct (H1 (sends1, u2)).
  - inversion Hs as [|? ? Hx Hs']; subst. cbn in Hx. apply elem_of_dom in Hx as [? Hx]. congruence.
  - destruct Hr as (_ & k1 & sent & Hk & Hse & a1 & u1 & E1 & Hg). by destruct (H (a1, u1)).
  - destruct Hr as (_ & k1 & sent & Hk & _). congruence.
  - destruct Hr as (_ & k1 & sent & Hk & _ & Hg). destruct q; try done; by destruct Hg.
  - destruct Hr as (_ & k1 & sent & Hk & _ & Hq & _). apply elem_of_dom in Hq as [? Hq]. congruence.
  - destruct Hr as (_ & k1 & sent & Hk & _ & -> & _). destruct H; [done|congruence].
  - destruct Hr as (_ & k1 & sent & Hk & Hse & _ & -> & _). assert (k1 = x) as -> by congruence. by destruct (Hse eq_refl).
Qed.
Lemma keeps_no_e_fault l a : keeps a -> (forall c fd, l = L_open c fd -> c ∉ dom (sp_conns a)) -> (forall c, l = L_refuse c -> c ∉ dom (sp_conns a)) -> ~ e_fault D l a.
Proof.
  intros [_ Hr] Ho Hc Hf. destruct Hf as [c fd C u Hf|c C u Hf|c C u u' En Hf]; cbn in *.
  - destruct (law_new _ c _ Hr (Ho _ _ eq_refl)) as (u1 & E1 & _). by destruct (Hf u1).
  - destruct (law_new _ c _ Hr (Hc _ eq_refl)) as (u1 & E1 & _). by destruct (Hf u1).
  - destruct (law_new _ c _ Hr (Hc _ eq_refl)) as (u1 & E1 & H1). rewrite En in E1. injection E1 as <-. destruct (law_delete _ c _ H1) as (sends1 & u2 & E2 & _); [set_solver|]. by destruct (Hf (sends1, u2)).
Qed.

Lemma d_step_weaken P Q a a' : (P -> Q) -> d_step D P a a' -> d_step D Q a a'.
Proof. intros H Hd. destruct Hd; econstructor; eauto. Qed.
Lemma keeps_steps P a a' : ~ P -> keeps a -> d_steps D P a a' -> keeps a' \/ exists b, d_steps D P a b /\ overfull b.
Proof.
  intros HP Ha Hs. induction Hs as [a|a1 a2 a3 H12 _ IH]; [by left|].
  destruct (keeps_d a1 a2 Ha) as [H2|H2]; [by eapply d_step_weaken| |right; exists a1; by split; [apply rtc_refl|]].
  destruct (IH H2) as [?|(b & Hb & Ho)]; [by left|right]. exists b. split; [by eapply rtc_l|done].
Qed.

Context (oom : nat -> bool -> nat -> bool) (junk : nat -> bool -> nat -> nat -> Z) (add_ok : net -> nat -> bool -> bool).
(** The server between two events, the daemon's state right for its clients. *)
Definition serving (F : gset Z) (s : net) (a : netspec U) : Prop := abstracts F s a /\ I (dom (sp_conns a)) (sp_up a).

Lemma serving_keeps F s a : serving F s a -> keeps a.
Proof. intros [(C & u & -> & _) H]. by split. Qed.
Lemma keeps_serving F s a : abstracts F s a -> keeps a -> serving F s a.
Proof. intros (C & u & -> & S) [_ H]. split; [by exists C, u|done]. Qed.
Lemma steps_keep may a a' : ~ lossy oom -> keeps a -> event_steps oom D may a a' -> keeps a' \/ exists b, event_steps oom D may a b /\ overfull b.
Proof.
  intros HP Ha (a1 & H1 & Hs). assert (keeps a1) as Ha1 by (destruct H1 as [->|(l & _ & He)]; [done|by eapply keeps_e]).
  destruct (keeps_steps _ _ _ HP Ha1 Hs) as [?|(b & Hb & Ho)]; [by left|right]. exists b. split; [by exists a1|done].
Qed.
Lemma causes_fresh F (s : net) (a : netspec U) e l c : abstracts F s a -> causes s e l -> l = L_refuse c \/ (exists fd, l = L_open c fd) -> c ∉ dom (sp_conns a).
Proof.
  intros (C & u & -> & S) Hc Hl. apply not_elem_of_dom. cbn.
  assert (c = eb_next s) as ->; [|by destruct (si_fresh S (eb_next s) (le_n _))].
  destruct e as [fd mem|fd data|p readable r retry|p writev retry|]; cbn in Hc; [destruct mem| | | |done]; naive_solver.
Qed.
Lemma serving_step F e s a : 0 ∈ F -> ~ lossy oom -> serving F s a -> event_ok s e ->
  (exists s' a', net_step oom junk add_ok D e s = Ret (tt, s') /\ event_steps oom D (causes s e) a a' /\ serving F s' a') \/
  (exists a', event_steps oom D (causes s e) a a' /\ overfull a').
Proof.
  intros H0 HP Hs He. pose proof (serving_keeps _ _ _ Hs) as Hk. destruct Hs as [Ha _].
  destruct (event_simulated oom junk add_ok D F e s a H0 Ha He) as [(s' & a' & E & Hst & Ha')|[(l & Hl & Hf)|(a' & Hst & [Hf|Hf])]].
  - destruct (steps_keep _ _ _ HP Hk Hst) as [Hk'|?]; [left|by right]. exists s', a'. split; [done|]. split; [done|]. by apply keeps_serving.
  - destruct (keeps_no_e_fault l a Hk); [intros c fd ->|intros c ->|done]; (eapply causes_fresh; [done|done|]); eauto.
  - destruct (steps_keep _ _ _ HP Hk Hst) as [Hk'|?]; [|by right]. by destruct (keeps_no_fault a' Hk').
  - right. by exists a'.
Qed.

End lawful.
