(* ===== verification/ShalNet.v ===== *)
(** * ShalNet: the memory daemon on its sockets

    The client class and the client pool of shald (shald/core/Client.cpp), as a
    daemon of the socket layer.  The pool has raw pointers to the clients, by
    session number; nothing but the destructor removes them.  The [OnRecv] the
    class declares takes a pointer and a size, so it does not override the one
    that is called with a [SocketBuf], and the daemon answers nothing. *)

From S2P Require Import Prelude Words EvBuffer BufEv Net NetSpec NetInv NetSim NetClaims.

(** [_current_session], the member [_session] of each client, and the
    [_sessionMap] of [clientPool]. *)
Record Shal := mkShal { sh_current : Z; sh_session : gmap nat Z; sh_pool : gmap Z nat }.
Definition shal_start : Shal := mkShal 0 ∅ ∅.

Definition Shal_ClientPool_Add (s : Z) (c : nat) (pool : gmap Z nat) : gmap Z nat := <[s := c]> pool.
Definition Shal_ClientPool_Remove (s : Z) (pool : gmap Z nat) : gmap Z nat := delete s pool.
Definition Shal_ClientPool_at (s : Z) (pool : gmap Z nat) : option nat := pool !! s.

Definition Shal_Client_ctor (c : nat) (u : Shal) : result Shal :=
  let s := u32 (sh_current u + 1) in
  Ret (mkShal s (<[c := s]> (sh_session u)) (Shal_ClientPool_Add s c (sh_pool u))).
Definition Shal_Client_dtor (c : nat) (u : Shal) : result (list (nat * bytes) * Shal) :=
  match sh_session u !! c with
  | None => Crash
  | Some s => Ret ([], mkShal (sh_current u) (delete c (sh_session u)) (Shal_ClientPool_Remove s (sh_pool u)))
  end.
(** [TcpClient::OnRecv], which is empty. *)
Definition Shal_Client_OnRecv (c : nat) : prog Shal := Done.
Definition shald : app Shal := mkApp Shal_Client_ctor Shal_Client_OnRecv Shal_Client_dtor.

(** What the pool finds is a client that lives, with that session. *)
Definition shal_inv (L : gset nat) (u : Shal) : Prop :=
  dom (sh_session u) = L /\ forall s c, Shal_ClientPool_at s (sh_pool u) = Some c -> sh_session u !! c = Some s.

#[export] Instance shald_lawful : Lawful shald shal_inv.
Proof.
  split; unfold shal_inv, Shal_ClientPool_at.
  - intros L c u [Hd Hp] Hc. eexists. split; [done|]. cbn. rewrite dom_insert_L, Hd. split; [done|]. intros s c'. unfold Shal_ClientPool_Add.
    rewrite lookup_insert. case_decide as E; [intros [= <-]; by rewrite lookup_insert_eq, E|]. intros H%Hp. rewrite lookup_insert_ne; [done|].
    intros <-. apply Hc. rewrite <- Hd. apply elem_of_dom. eauto.
  - intros L c u H Hc. done.
  - intros L c u [Hd Hp] Hc. rewrite <- Hd in Hc. apply elem_of_dom in Hc as [s Hs]. cbn. unfold Shal_Client_dtor. rewrite Hs. eexists _, _. split; [done|]. cbn.
    rewrite dom_delete_L, Hd. split; [|constructor]. split; [done|]. intros s' c'. unfold Shal_ClientPool_Remove. rewrite lookup_delete. case_decide; [done|].
    intros H'%Hp. rewrite lookup_delete_ne; [done|]. intros ->. congruence.
Qed.

(** In a state of the running server the pool leads to clients the server has. *)
Lemma shald_pool_live F s a x c : serving shal_inv F s a -> Shal_ClientPool_at x (sh_pool (up s)) = Some c ->
  exists fd o, fd_map s !! fd = Some c /\ objs s !! c = Some o /\ tc_fd o = fd /\ is_Some (tc_bufev o).
Proof.
  intros [(C & u & -> & S) [Hd Hp]] Hx. cbn in *. rewrite (si_up S) in Hx. apply Hp in Hx.
  assert (c ∈ dom C) as Hc by (rewrite <- Hd; apply elem_of_dom; eauto). apply elem_of_dom in Hc as [k Hk].
  destruct (si_conn S c k Hk) as (p & v & Ho & _ & _ & _ & _). exists (k_fd k), (tcp_of k p). split; [|by cbn; eauto].
  apply (si_map S). by exists k.
Qed.

(** ** A run *)

(** The descriptors of the daemon: the standard streams and the listener. *)
Definition shald_fds : gset Z := {[0; 1; 2; 3]}.
Definition always_added : evbase (socks Shal) -> nat -> bool -> bool := fun _ _ _ => true.
Definition shald_run (es : list net_event) : result (unit * evbase (socks Shal)) :=
  net_run (fun _ _ _ => false) (fun _ _ _ _ => 0) always_added shald es (start_net shald_fds shal_start).
(** Two clients come; bytes of the first are read; the second leaves. *)
Definition shald_demo : list net_event :=
  [Ev_accept 7 true; Ev_accept 9 true; Ev_arrive 7 [104; 105]; Ev_readable 1 2 (Rd_some 5) false; Ev_readable 3 0 Rd_eof false; Ev_deferred].
Example shald_demo_runs :
  match shald_run shald_demo with
  | Ret (_, s) => fd_map s = {[7 := 0%nat]} /\ sh_pool (up s) = {[1 := 0%nat]} /\ dom (eb_open s) = {[0; 1; 2; 3; 7]} /\ eb_deferred s = []
  | _ => False
  end.
Proof. vm_compute. by repeat split. Qed.

Lemma net_refines_witness :
  let s := start_net shald_fds shal_start in
  abstracts shald_fds s (mkSpec ∅ shal_start [] None) /\
  ((exists s' a', net_step (fun _ _ _ => false) (fun _ _ _ _ => 0) always_added shald (Ev_accept 7 true) s = Ret (tt, s') /\
      event_steps (fun _ _ _ => false) shald (causes s (Ev_accept 7 true)) (mkSpec ∅ shal_start [] None) a' /\ abstracts shald_fds s' a') \/
   (exists l, causes s (Ev_accept 7 true) l /\ e_fault shald l (mkSpec ∅ shal_start [] None)) \/
   (exists a', event_steps (fun _ _ _ => false) shald (causes s (Ev_accept 7 true)) (mkSpec ∅ shal_start [] None) a' /\ stuck shald a')).
Proof.
  intros s. destruct (net_refines (fun _ _ _ => false) (fun _ _ _ _ => 0) always_added shald shald_fds shal_start) as [H1 H2].
  - unfold shald_fds. set_solver.
  - split; [exact H1|]. apply H2; [exact H1|]. right. reflexivity.
Defined.
