(* ===== verification/BlitzNet.v ===== *)
(** * BlitzNet: the input loops of blitzd on its sockets

    [Client::OnRecv] and its four loops (blitzd/core/Client.cpp) as the program
    over [SocketBuf] that they are: every call of the buffer is one of the
    operations of the socket layer, in the order of the code.  On the queues of
    the connections the program computes what the loops of Framing compute on
    a list of bytes, with what the plugins send appended to the queues of the
    receivers; and it keeps the rules of the socket layer when the plugins do. *)

From S2P Require Import Prelude Words Stream Framing EvBuffer BufEv Net NetSpec NetClaims.

Section progs.
Context {W : Type}.
(** [Process] of a plugin suite, with what follows it. *)
Abbreviation psuite := (Z -> Stream -> prog W -> prog W).
Context (alloc : Z -> bool) (junk : nat -> bytes).

(** [new byte[psize]], the bytes [d] that were read into it, and the rest. *)
Definition body_read (psize : nat) (d : bytes) : bytes := d ++ take (psize - length d) (junk (psize - length d)).

Fixpoint frame_prog (size_of op_of : Z -> Z) (p : psuite) (fuel : nat) : prog W :=
  match fuel with
  | O => Done
  | S fuel' =>
      Length (fun size =>
        if size <? 4 then Done
        else
          Copyout 4 (fun h =>
            let hdr := le_val h.2 in
            let psize := size_of hdr in
            if size <? psize then Done
            else
              let psize := u16 (psize - 4) in
              Drain 4 (
                if alloc psize then
                  Read psize (fun d => p (op_of hdr) (stream_of (body_read (Z.to_nat psize) d.2)) (frame_prog size_of op_of p fuel'))
                else Drain psize (frame_prog size_of op_of p fuel'))))
  end.

Context (init bnet loggedin file baal : psuite) (stage : W -> Stage_t).
(** [_stage] of the client. *)
Definition ask_stage (k : Stage_t -> prog W) : prog W := Upd (fun w => Ret (stage w, w)) k.

Fixpoint file_prog (fuel : nat) : prog W :=
  match fuel with
  | O => Done
  | S fuel' =>
      ask_stage (fun st =>
        match st with
        | FILETRANS =>
            Length (fun size =>
              if size <? 4 then Done
              else
                Copyout 4 (fun h =>
                  let hdr := le_val h.2 in
                  let psize := low_half hdr in
                  if size <? psize then Done
                  else
                    Drain 4 (
                      let psize := u16 (psize - 4) in
                      if alloc psize then
                        Read psize (fun d => file (high_half hdr) (stream_of (body_read (Z.to_nat psize) d.2)) (file_prog fuel'))
                      else Drain psize (file_prog fuel'))))
        | FILERAW =>
            Length (fun size =>
              if size <? 53 then Done
              else if alloc size then
                Read size (fun d => file 0 (stream_of (body_read (Z.to_nat size) d.2)) Done)
              else Drain size (file_prog fuel'))
        | _ => Done
        end)
  end.

(** [len]: how many bytes there are, as many rounds are enough. *)
Definition process_prog (len : nat) (st : Stage_t) : prog W :=
  match st with
  | BNET => frame_prog high_half low_half bnet len
  | BNET_LOGGEDIN => frame_prog high_half low_half loggedin len
  | FILETRANS | FILERAW => file_prog (len + 1)
  | BAAL => frame_prog low_half high_half baal len
  | CONNECTED => Done
  end.
Definition OnRecv_prog : prog W :=
  Length (fun len =>
    if len =? 0 then Done
    else
      ask_stage (fun st =>
        match st with
        | CONNECTED =>
            Read 1 (fun op =>
              init (le_val op.2) empty_stream (
                Length (fun len => if len =? 0 then Done else ask_stage (process_prog (Z.to_nat len)))))
        | _ => ask_stage (process_prog (Z.to_nat len))
        end)).

(** A suite whose plugins compute on the state and send: [TcpClient::Send] in
    the order of the calls. *)
Definition say_all (sends : list (nat * bytes)) (k : prog W) : prog W := foldr (fun e k => Send e.1 e.2 k) k sends.
Definition plain (h : Z -> Stream -> W -> result (list (nat * bytes) * W)) : psuite :=
  fun op st k => Upd (h op st) (fun sends => say_all sends k).
End progs.

(** ** What the program computes *)

(** The input queue of [c] is [b]. *)
Definition k_set_in (b : bytes) (k : conn) : conn :=
  mkConn (k_fd k) (k_net k) b (k_note k) (k_out k) (k_wire k) (k_pend k) (k_broken k).
Definition put_in (c : nat) (b : bytes) (C : gmap nat conn) : gmap nat conn := alter (k_set_in b) c C.
(** A packet is sent to a connection. *)
Definition say (C : gmap nat conn) (e : nat * bytes) : gmap nat conn := alter (k_send e.2) e.1 C.
(** The suite on the connections and the state. *)
Definition with_conns {W} (h : Z -> Stream -> W -> list (nat * bytes) * W) : Z -> Stream -> gmap nat conn * W -> gmap nat conn * W :=
  fun op st s => (foldl say s.1 (h op st s.2).1, (h op st s.2).2).

Lemma at_put_in c b C x : C !! c = Some x -> put_in c b C !! c = Some (k_set_in b x).
Proof. intros H. unfold put_in. by rewrite lookup_alter_eq, H. Qed.
Lemma put_in_put c b x C : C !! c = Some x -> <[c := k_set_in b x]> C = put_in c b C.
Proof.
  intros H. apply map_eq. intros i. unfold put_in. destruct (decide (i = c)) as [->|Hne]; [by rewrite lookup_insert_eq, lookup_alter_eq, H|].
  by rewrite lookup_insert_ne, lookup_alter_ne.
Qed.
Lemma put_in_twice c b b' C : put_in c b (put_in c b' C) = put_in c b C.
Proof. unfold put_in. rewrite alter_alter_eq. by apply alter_ext. Qed.
Lemma say_put_in c b C e : say (put_in c b C) e = put_in c b (say C e).
Proof.
  unfold say, put_in. destruct (decide (e.1 = c)) as [->|Hne]; [|by rewrite alter_alter_ne].
  rewrite !alter_alter_eq. by apply alter_ext.
Qed.
Lemma dom_say C e : dom (say C e) = dom C.
Proof. apply dom_alter_L. Qed.
Lemma dom_says l C : dom (foldl say C l) = dom C.
Proof. revert C. induction l as [|e l IH]; intros C; [done|]. cbn. by rewrite IH, dom_say. Qed.

Section runs.
Context {W : Type} (D : app W) (P : Prop) (alloc : Z -> bool) (junk : nat -> bytes) (c : nat).
Implicit Types (C : gmap nat conn) (w : W).
Abbreviation steps := (d_steps D P).
(** The program [q] of [c] runs, and [b] is the input it has. *)
Definition at_prog (b : bytes) C w (q : prog W) : netspec W := mkSpec (put_in c b C) w [] (Some (c, q)).
Definition at_end (b : bytes) C w : netspec W := mkSpec (put_in c b C) w [] None.
Definition live C : Prop := c ∈ dom C.
Abbreviation suite := (Z -> Stream -> W -> list (nat * bytes) * W).
Abbreviation pure h := (plain (fun op st w => Ret (h op st w))).
(** A suite sends to connections that are there. *)
Definition polite (L : gset nat) (h : suite) : Prop := forall op st w, Forall (fun e => e.1 ∈ L) (h op st w).1.

Lemma done_steps b C w : steps (at_prog b C w Done) (at_end b C w).
Proof. apply rtc_once. constructor. Qed.
Lemma length_steps b C w k z : live C -> steps (at_prog b C w (k (Z.of_nat (length b)))) z -> steps (at_prog b C w (Length k)) z.
Proof.
  intros Hc%elem_of_dom H. destruct Hc as [x Hx]. eapply rtc_l; [|exact H]. by apply (R_length D P c (k_set_in b x)), at_put_in.
Qed.
Lemma copyout_steps b C w n k z : live C -> steps (at_prog b C w (k (Z.min n (Z.of_nat (length b)), take (Z.to_nat n) b))) z -> steps (at_prog b C w (Copyout n k)) z.
Proof.
  intros Hc%elem_of_dom H. destruct Hc as [x Hx]. eapply rtc_l; [|exact H]. by apply (R_copyout D P c (k_set_in b x)), at_put_in.
Qed.
Lemma take_conns b C n x : C !! c = Some x -> <[c := k_take n (k_set_in b x)]> (put_in c b C) = put_in c (drop n b) C.
Proof.
  intros Hx. change (k_take n (k_set_in b x)) with (k_set_in (drop n b) (k_set_in b x)). rewrite put_in_put by (by apply at_put_in). apply put_in_twice.
Qed.
Lemma read_steps b C w n k z : live C -> steps (at_prog (drop (Z.to_nat n) b) C w (k (Z.min n (Z.of_nat (length b)), take (Z.to_nat n) b))) z -> steps (at_prog b C w (Read n k)) z.
Proof.
  intros Hc%elem_of_dom H. destruct Hc as [x Hx]. eapply rtc_l; [|exact H]. unfold at_prog. rewrite <- (take_conns b C _ x Hx). by apply (R_read D P c (k_set_in b x)), at_put_in.
Qed.
Lemma drain_steps b C w n k z : live C -> steps (at_prog (drop (Z.to_nat n) b) C w k) z -> steps (at_prog b C w (Drain n k)) z.
Proof.
  intros Hc%elem_of_dom H. destruct Hc as [x Hx]. eapply rtc_l; [|exact H]. unfold at_prog. rewrite <- (take_conns b C _ x Hx). by apply R_drain, at_put_in.
Qed.
Lemma stage_steps (stage : W -> Stage_t) b C w k z : steps (at_prog b C w (k (stage w))) z -> steps (at_prog b C w (ask_stage stage k)) z.
Proof. intros H. eapply rtc_l; [|exact H]. by apply R_upd. Qed.
Lemma say_steps b C w l k z : Forall (fun e => e.1 ∈ dom C) l -> steps (at_prog b (foldl say C l) w k) z -> steps (at_prog b C w (say_all l k)) z.
Proof.
  revert C. induction l as [|[q d] l IH]; intros C Hl H; [done|]. inversion Hl as [|? ? Hq Hl']; subst. cbn [fst] in Hq.
  eapply rtc_l; [|apply (IH (say C (q, d))); [by rewrite dom_say|exact H]]. unfold at_prog. rewrite <- say_put_in.
  assert (exists x, put_in c b C !! q = Some x) as [x Hx] by (apply elem_of_dom; unfold put_in; by rewrite dom_alter_L).
  replace (say (put_in c b C) (q, d)) with (<[q := k_send d x]> (put_in c b C)); [by apply R_send|].
  apply map_eq. intros i. unfold say. cbn [fst snd]. destruct (decide (i = q)) as [->|Hne]; [by rewrite lookup_insert_eq, lookup_alter_eq, Hx|by rewrite lookup_insert_ne, lookup_alter_ne].
Qed.
Lemma suite_steps (h : suite) L op st b C w k z : polite L h -> dom C = L ->
  steps (at_prog b (with_conns h op st (C, w)).1 (with_conns h op st (C, w)).2 k) z -> steps (at_prog b C w (pure h op st k)) z.
Proof.
  intros Hh HL H. unfold plain. eapply rtc_l; [apply (R_upd D P c (put_in c b C) w _ _ _ (h op st w).1 (h op st w).2); by destruct (h op st w)|].
  apply say_steps; [rewrite HL; apply Hh|exact H].
Qed.

Lemma u16_nat x : Z.of_nat (Z.to_nat (u16 x)) = u16 x.
Proof. pose proof (u16_range x). lia. Qed.
Lemma ltb_nat (b : bytes) n z : z = Z.of_nat n -> (Z.of_nat (length b) <? z) = Nat.ltb (length b) n.
Proof. intros ->. destruct (Z.ltb_spec (Z.of_nat (length b)) (Z.of_nat n)), (Nat.ltb_spec (length b) n); lia || done. Qed.


(** From [q], the program ends with [r]: the input left, the connections and
    the state; the connections are still those of [L]. *)
Definition reaches (L : gset nat) (b : bytes) (s : gmap nat conn * W) (q : prog W) (r : bytes * (gmap nat conn * W)) : Prop :=
  dom s.1 = L -> steps (at_prog b s.1 s.2 q) (at_end r.1 r.2.1 r.2.2) /\ dom r.2.1 = L.

Context (L : gset nat) (Hc : c ∈ L).
Lemma reach_live s : dom s.1 = L -> live (s : gmap nat conn * W).1.
Proof. unfold live. by intros ->. Qed.
Lemma reach_done b s : reaches L b s Done (b, s).
Proof. intros H. split; [apply done_steps|done]. Qed.
Lemma reach_length b s k r : reaches L b s (k (Z.of_nat (length b))) r -> reaches L b s (Length k) r.
Proof. intros Hr H. destruct (Hr H). split; [|done]. apply length_steps; [by apply reach_live|done]. Qed.
Lemma reach_copyout b s n k r : reaches L b s (k (Z.min n (Z.of_nat (length b)), take (Z.to_nat n) b)) r -> reaches L b s (Copyout n k) r.
Proof. intros Hr H. destruct (Hr H). split; [|done]. apply copyout_steps; [by apply reach_live|done]. Qed.
Lemma reach_read b s n k r : reaches L (drop (Z.to_nat n) b) s (k (Z.min n (Z.of_nat (length b)), take (Z.to_nat n) b)) r -> reaches L b s (Read n k) r.
Proof. intros Hr H. destruct (Hr H). split; [|done]. apply read_steps; [by apply reach_live|done]. Qed.
Lemma reach_drain b s n k r : reaches L (drop (Z.to_nat n) b) s k r -> reaches L b s (Drain n k) r.
Proof. intros Hr H. destruct (Hr H). split; [|done]. apply drain_steps; [by apply reach_live|done]. Qed.
Lemma reach_stage (stage : W -> Stage_t) b s k r : reaches L b s (k (stage s.2)) r -> reaches L b s (ask_stage stage k) r.
Proof. intros Hr H. destruct (Hr H). split; [|done]. by apply stage_steps. Qed.
Lemma reach_suite h op st b s k r : polite L h -> reaches L b (with_conns h op st s) k r -> reaches L b s (pure h op st k) r.
Proof.
  intros Hh Hr H. destruct (Hr ltac:(cbn; by rewrite dom_says)). split; [|done]. destruct s as [C w]. by eapply suite_steps.
Qed.

(** The shared round of the loops: a header that announces what is there. *)
Lemma frame_prog_reaches size_of op_of h : polite L h -> forall fuel b s,
  reaches L b s (frame_prog alloc junk size_of op_of (pure h) fuel) (frame_loop alloc junk size_of op_of (with_conns h) fuel b s).
Proof.
  intros Hh. induction fuel as [|fuel IH]; intros b s; cbn [frame_loop frame_prog]; [apply reach_done|].
  unfold sb_length, sb_drain, sb_read. apply reach_length. rewrite (ltb_nat b 4 4 eq_refl). case_match; [apply reach_done|].
  apply reach_copyout. cbn [snd]. change (le_val (take (Z.to_nat 4) b)) with (hdr_of b). case_match; [apply reach_done|].
  apply reach_drain. rewrite u16_nat. case_match; [apply reach_read|apply reach_drain, IH]. by apply reach_suite.
Qed.
Lemma file_prog_reaches h (stage : W -> Stage_t) : polite L h -> forall fuel b s,
  reaches L b s (file_prog alloc junk (pure h) stage fuel) (file_loop alloc junk (with_conns h) (fun s => stage s.2) fuel b s).
Proof.
  intros Hh. induction fuel as [|fuel IH]; intros b s; cbn [file_loop file_prog]; [apply reach_done|].
  unfold sb_length, sb_drain, sb_read. apply reach_stage. destruct (stage s.2); try apply reach_done; apply reach_length.
  - rewrite (ltb_nat b 4 4 eq_refl). case_match; [apply reach_done|].
    apply reach_copyout. cbn [snd]. change (le_val (take (Z.to_nat 4) b)) with (hdr_of b). case_match; [apply reach_done|].
    apply reach_drain. rewrite u16_nat. case_match; [apply reach_read|apply reach_drain, IH]. by apply reach_suite.
  - rewrite (ltb_nat b 53 53 eq_refl). case_match; [apply reach_done|]. case_match; [apply reach_read|apply reach_drain]; rewrite Nat2Z.id; [|apply IH].
    apply reach_suite; [done|]. apply reach_done.
Qed.

Context (init bnet loggedin file baal : suite) (stage : W -> Stage_t).
Context (Hinit : polite L init) (Hbnet : polite L bnet) (Hloggedin : polite L loggedin) (Hfile : polite L file) (Hbaal : polite L baal).
Abbreviation OnRecv_bytes := (OnRecv alloc junk (with_conns init) (with_conns bnet) (with_conns loggedin) (with_conns file) (with_conns baal) (fun s => stage s.2)).
Abbreviation process_bytes b s := (match stage s.2 with
  | BNET => ProcessBNet alloc junk (with_conns bnet) b s
  | BNET_LOGGEDIN => ProcessBNetLoggedIn alloc junk (with_conns loggedin) b s
  | FILETRANS | FILERAW => ProcessFile alloc junk (with_conns file) (fun s => stage s.2) b s
  | BAAL => ProcessBaal alloc junk (with_conns baal) b s
  | CONNECTED => (b, s) end).
Lemma process_prog_reaches b s :
  reaches L b s (process_prog alloc junk (pure bnet) (pure loggedin) (pure file) (pure baal) stage (Z.to_nat (Z.of_nat (length b))) (stage s.2)) (process_bytes b s).
Proof.
  rewrite Nat2Z.id. destruct (stage s.2); [apply reach_done|by apply frame_prog_reaches|by apply frame_prog_reaches|by apply file_prog_reaches..|by apply frame_prog_reaches].
Qed.
Lemma length_zero (b : bytes) : (Z.of_nat (length b) =? 0) = Nat.eqb (length b) 0.
Proof. by destruct b. Qed.
Lemma OnRecv_prog_reaches b s :
  reaches L b s (OnRecv_prog alloc junk (pure init) (pure bnet) (pure loggedin) (pure file) (pure baal) stage) (OnRecv_bytes b s).
Proof.
  unfold OnRecv_prog, OnRecv, sb_length, sb_read. apply reach_length. rewrite length_zero. destruct (Nat.eqb (length b) 0) eqn:E0; [apply reach_done|]. apply reach_stage.
  destruct (stage s.2) eqn:Es; [|rewrite E0; apply reach_stage; pose proof (process_prog_reaches b s) as Hp; rewrite Es in Hp |- *; exact Hp..].
  apply reach_read, reach_suite; [done|]. apply reach_length. rewrite length_zero. cbn [snd]. change (Z.to_nat 1) with 1%nat. case_match; [apply reach_done|].
  apply reach_stage. apply process_prog_reaches.
Qed.
End runs.

(** ** The rules are kept *)

Section rules.
Context {W : Type} (alloc : Z -> bool) (junk : nat -> bytes) (I : gset nat -> W -> Prop) (c : nat) (L : gset nat).
Abbreviation handler := (Z -> Stream -> W -> result (list (nat * bytes) * W)).
(** A suite that keeps the invariant and sends to clients that are there. *)
Definition well_behaved (h : handler) : Prop := forall op st w, I L w ->
  exists sends w', h op st w = Ret (sends, w') /\ I L w' /\ Forall (fun e => e.1 ∈ L) sends.

(** A program that keeps the rules from every right state. *)
Definition fine (q : prog W) : Prop := forall sent w, I L w -> good I L c sent q w.
Lemma fine_done : fine Done.
Proof. by intros sent w H. Qed.
Lemma fine_length k : (forall n, size_t_ok n -> fine (k n)) -> fine (Length k).
Proof. intros H sent w Hw n Hn. by apply H. Qed.
Lemma fine_copyout n k : size_t_ok n -> (forall x, fine (k x)) -> fine (Copyout n k).
Proof. intros Hn H sent w Hw. split; [done|]. intros d _. by apply H. Qed.
Lemma fine_read n k : size_t_ok n -> (forall x, fine (k x)) -> fine (Read n k).
Proof. intros Hn H sent w Hw. split; [done|]. intros d _. by apply H. Qed.
Lemma fine_drain n k : size_t_ok n -> fine k -> fine (Drain n k).
Proof. intros Hn H sent w Hw. split; [done|]. by apply H. Qed.
Lemma fine_stage (stage : W -> Stage_t) k : (forall st, fine (k st)) -> fine (ask_stage stage k).
Proof. intros H sent w Hw. eexists _, _. split; [done|]. by apply H. Qed.
Lemma fine_say l k : Forall (fun e => e.1 ∈ L) l -> fine k -> fine (say_all l k).
Proof. intros Hl Hk. induction Hl as [|e l He _ IH]; [done|]. intros sent w Hw. split; [done|]. by apply IH. Qed.
Lemma fine_suite h op st k : well_behaved h -> fine k -> fine (plain h op st k).
Proof.
  intros Hh Hk sent w Hw. destruct (Hh op st w Hw) as (sends & w' & E & Hw' & Hs). eexists _, _. split; [exact E|]. by apply fine_say.
Qed.
Lemma u16_size x : size_t_ok (u16 x).
Proof. pose proof (u16_range x). unfold size_t_ok. lia. Qed.
Lemma four_size : size_t_ok 4.
Proof. by unfold size_t_ok. Qed.

Create HintDb fine_db.
Hint Resolve fine_done fine_length fine_copyout fine_read fine_drain fine_stage fine_suite u16_size four_size : fine_db.

Lemma frame_prog_fine size_of op_of h fuel : well_behaved h -> fine (frame_prog alloc junk size_of op_of (plain h) fuel).
Proof.
  intros Hh. induction fuel as [|fuel IH]; cbn [frame_prog]; [auto with fine_db|].
  apply fine_length. intros n Hn. case_match; [auto with fine_db|]. apply fine_copyout; [auto with fine_db|]. intros x. case_match; auto with fine_db.
  apply fine_drain; [auto with fine_db|]. case_match; auto with fine_db.
Qed.
Lemma file_prog_fine h (stage : W -> Stage_t) fuel : well_behaved h -> fine (file_prog alloc junk (plain h) stage fuel).
Proof.
  intros Hh. induction fuel as [|fuel IH]; cbn [file_prog]; [auto with fine_db|]. apply fine_stage. intros st. destruct st; auto with fine_db; apply fine_length; intros n Hn.
  - case_match; [auto with fine_db|]. apply fine_copyout; [auto with fine_db|]. intros x. case_match; auto with fine_db.
    apply fine_drain; [auto with fine_db|]. case_match; auto with fine_db.
  - case_match; [auto with fine_db|]. case_match; auto with fine_db.
Qed.
Context (init bnet loggedin file baal : handler) (stage : W -> Stage_t).
Context (Hinit : well_behaved init) (Hbnet : well_behaved bnet) (Hloggedin : well_behaved loggedin) (Hfile : well_behaved file) (Hbaal : well_behaved baal).
Lemma process_prog_fine n st : fine (process_prog alloc junk (plain bnet) (plain loggedin) (plain file) (plain baal) stage n st).
Proof. destruct st; cbn [process_prog]; auto using fine_done, frame_prog_fine, file_prog_fine. Qed.
Lemma OnRecv_prog_fine : fine (OnRecv_prog alloc junk (plain init) (plain bnet) (plain loggedin) (plain file) (plain baal) stage).
Proof.
  apply fine_length. intros n Hn. case_match; [auto with fine_db|]. apply fine_stage. intros st. destruct st; try (apply fine_stage; intros; apply process_prog_fine).
  apply fine_read; [by unfold size_t_ok|]. intros x. apply fine_suite; [done|]. apply fine_length. intros m Hm. case_match; [auto with fine_db|].
  apply fine_stage. intros. apply process_prog_fine.
Qed.
End rules.


(** ** A daemon with these loops *)

Section daemon.
Context {W : Type} (alloc : Z -> bool) (junk : nat -> bytes).
(** The suites and the stage of a client, its constructor and destructor. *)
Context (init bnet loggedin file baal : nat -> Z -> Stream -> W -> result (list (nat * bytes) * W)) (stage : nat -> W -> Stage_t).
Context (ctor : nat -> W -> result W) (dtor : nat -> W -> result (list (nat * bytes) * W)).
Definition blitz_app : app W :=
  mkApp ctor (fun c => OnRecv_prog alloc junk (plain (init c)) (plain (bnet c)) (plain (loggedin c)) (plain (file c)) (plain (baal c)) (stage c)) dtor.

(** It keeps the rules when its plugins, constructor and destructor do. *)
Lemma blitz_lawful (I : gset nat -> W -> Prop) :
  (forall L c, c ∈ L -> Forall (fun h : nat -> Z -> Stream -> W -> result (list (nat * bytes) * W) => well_behaved I L (h c)) [init; bnet; loggedin; file; baal]) ->
  (forall L c u, I L u -> c ∉ L -> exists u', ctor c u = Ret u' /\ I ({[c]} ∪ L) u') ->
  (forall L c u, I L u -> c ∈ L -> exists sends u', dtor c u = Ret (sends, u') /\ I (L ∖ {[c]}) u' /\ Forall (fun e => e.1 ∈ L ∖ {[c]}) sends) ->
  Lawful blitz_app I.
Proof.
  intros Hs Hnew Hdel. split; [exact Hnew| |exact Hdel]. intros L c u Hu Hc. specialize (Hs L c Hc). repeat (apply Forall_cons in Hs as [? Hs]).
  by apply OnRecv_prog_fine.
Qed.
End daemon.

(** ** A run *)

(** A server that counts the packets and answers each with its body. *)
Definition answer (c : nat) (op : Z) (st : Stream) (n : Z) : list (nat * bytes) * Z := ([(c, _buf st)], n + 1).
Definition demo_app : app Z :=
  blitz_app (fun _ => true) (fun _ => []) (fun _ _ _ n => Ret ([], n)) (fun c op st n => Ret (answer c op st n)) (fun _ _ _ n => Ret ([], n)) (fun _ _ _ n => Ret ([], n)) (fun _ _ _ n => Ret ([], n))
    (fun _ _ => BNET) (fun _ n => Ret n) (fun _ n => Ret ([], n)).
(** A packet arrives in two pieces, with the start of another: it is answered
    once it is whole, and the start is kept. *)
Example demo_app_runs :
  match net_run (fun _ _ _ => false) (fun _ _ _ _ => 0) (fun _ _ _ => true) demo_app
          [Ev_accept 7 true; Ev_arrive 7 [255; 1; 6; 0; 8]; Ev_readable 1 5 (Rd_some 9) false; Ev_deferred;
           Ev_arrive 7 [9; 255; 2]; Ev_readable 1 3 (Rd_some 9) false; Ev_deferred; Ev_writable 1 (fun d => Z.of_nat (length d)) false; Ev_deferred]
          (mkBase ∅ [] (gset_to_gmap (mkSock [] []) {[0; 1; 2; 3]}) 0 (mkSocks ∅ ∅ 0)) with
  | Ret (_, s) => up s = 1 /\ so_out <$> eb_open s !! 7 = Some [8; 9] /\ eb_deferred s = []
  | _ => False
  end.
Proof. vm_compute. by repeat split. Qed.

Definition demo_conn : conn := mkConn 7 [] [255; 1; 6; 0; 8; 9; 255; 2] true [] [] false false.
