(* ===== verification/Udp.v ===== *)
(** * Udp: the datagrams of blitzd

    [UdpSocket::DoRecv] (common/network/UdpSocket.cpp), [BNetUDPServer::OnRecv]
    (blitzd/core/BNetUDPServer.cpp) and the suite [PluginUDP], with the handler
    of its one entry from Handlers. *)

From S2P Require Import Prelude Words Stream OMap CStr UserItem UserCache Packets World Chat Handlers Dispatch.

(** What [recvfrom] gives: an error, or a datagram and who sent it. *)
Inductive recvfrom_outcome := Rf_fail (err : Z) | Rf_data (ip port : Z) (d : bytes).
(** The size of the buffer; what a datagram has beyond it is lost. *)
Definition UDP_BUFFER : nat := 2048.
(** The errors after which the socket stays (Linux): EINTR, EAGAIN and
    EWOULDBLOCK, ENETRESET, ECONNRESET. *)
Definition udp_transient (err : Z) : bool := existsb (Z.eqb err) [4; 11; 102; 104].

Section udp.
Context {S : Type} (ju : nat -> Z).
Abbreviation M := (M S).
(** A datagram that is sent: to whom, and the bytes. *)
Abbreviation dgram := (Z * Z * bytes)%type.
Abbreviation udp_plugin := (Z -> Z -> Stream -> M (bool * option (Z * Z * option bytes))).

(** [UdpSocket::Send]; [BuildAndSendTo] sends nothing when [Build] fails. *)
Definition UdpSocket_Send (ip port : Z) (buffer : bytes) : list dgram :=
  match buffer with [] => [] | _ => [(ip, port, buffer)] end.
Definition udp_answer (a : option (Z * Z * option bytes)) : list dgram :=
  match a with Some (ip, port, Some b) => UdpSocket_Send ip port b | _ => [] end.

Definition PluginUDP : gmap Z udp_plugin := suite_of [(0x09, ConnTest2_Process ju)].
(** [PluginManager::Process(UdpSocket&, ushort, uint, ushort, Stream&)]. *)
Definition udp_Process (m : gmap Z udp_plugin) (op ip port : Z) (in_ : Stream) : M (bool * option (Z * Z * option bytes)) :=
  match find_plugin m op with Some h => h ip port in_ | None => mret (false, None) end.
Definition BNetUDPServer_OnRecv (ip port : Z) (buf : bytes) : M (list dgram) :=
  if Nat.ltb (length buf) 4 then mret []
  else
    let op := le_val (take 4 buf) in
    '(_, a) ← udp_Process PluginUDP op ip port (stream_of (drop 4 buf));
    mret (udp_answer a).
(** The result: whether the socket asks the server to close it, and what is
    sent. *)
Definition UdpSocket_DoRecv (r : recvfrom_outcome) : M (bool * list dgram) :=
  match r with
  | Rf_fail err => mret (negb (udp_transient err), [])
  | Rf_data ip port d =>
      let buf := take UDP_BUFFER d in
      if Nat.ltb 0 (length buf) then l ← BNetUDPServer_OnRecv ip port buf; mret (false, l)
      else mret (false, [])
  end.

(** The datagrams that are more than noise: a test of the connection, with a
    token. *)
Definition conn_test (d : bytes) : option Z :=
  if decide (12 <= length d)%nat then
    if decide (u16 (le_val (take 4 d)) = 9) then Some (le_val (take 4 (drop 4 d))) else None
  else None.

Lemma PluginUDP_find op : find_plugin PluginUDP op = if decide (u16 op = 9) then Some (ConnTest2_Process ju) else None.
Proof.
  unfold find_plugin, PluginUDP, suite_of, Load. cbn [foldl fst snd]. change (u16 9) with 9. rewrite lookup_insert, lookup_empty. destruct (decide (9 = u16 op)), (decide (u16 op = 9)); congruence.
Qed.

(** What any datagram does.  Noise, of any size, code and content, changes
    nothing and is not answered; a test of the connection with the token of a
    client that lives sets the address of its games to the sender and is
    answered to the sender; with a token nobody has the server crashes. *)
Theorem datagram_decides ip port d (w : World S) :
  UdpSocket_DoRecv (Rf_data ip port d) w =
  match conn_test (take UDP_BUFFER d) with
  | None => Ret (false, [], w)
  | Some token =>
      match om_find Z.ltb token (w_tokenMap w) with
      | None => Crash
      | Some q =>
          match w_clients w !! q with
          | None => Crash
          | Some c => Ret (false, [(ip, port, le_bytes 4 5 ++ le_bytes 4 0x626E6574)], set_w_clients (<[q := set_c_gamePort port (set_c_gameIp ip c)]> (w_clients w)) w)
          end
      end
  end.
Proof.
  unfold UdpSocket_DoRecv, BNetUDPServer_OnRecv, udp_Process, conn_test. set (b := take UDP_BUFFER d).
  assert (length b <= 2048)%nat as Hb by (unfold b; rewrite length_take; unfold UDP_BUFFER; lia). clearbody b.
  destruct (Nat.ltb_spec 0 (length b)); [|rewrite decide_False by lia; done].
  destruct (Nat.ltb_spec (length b) 4); [rewrite decide_False by lia; done|]. cbv zeta. rewrite PluginUDP_find.
  destruct (decide (u16 (le_val (take 4 b)) = 9)); [|by destruct (decide (12 <= length b)%nat)]. unfold ConnTest2_Process.
  assert (ok (stream_of (drop 4 b))) as Hok by (unfold ok, wf, size; cbn; rewrite length_drop; lia).
  assert (left (stream_of (drop 4 b)) = (length b - 4)%nat) as -> by (rewrite left_wf by apply Hok; unfold size; cbn; rewrite length_drop; lia).
  destruct (decide (12 <= length b)%nat); [|destruct (Nat.ltb_spec (length b - 4) 8); [done|lia]].
  destruct (Nat.ltb_spec (length b - 4) 8); [lia|].
  assert (exists st, get_u32 (ju 0) (stream_of (drop 4 b)) = (le_val (take 4 (drop 4 b)), st)) as [st ->].
  { unfold get_u32, get_le. rewrite read_enough; [by eexists|done|rewrite length_rest; unfold size; cbn [_pos _buf stream_of]; rewrite length_drop; lia|apply length_le_bytes]. }
  unfold pool_token, get, mbind, M_bind, mret, M_ret. destruct (om_find Z.ltb _ _) as [q|]; [|done]. unfold edit_client, client, mbind, M_bind.
  destruct (w_clients w !! q) as [c|] eqn:Hq; [|done]. destruct w; cbn in *. unfold modify. cbn. rewrite lookup_insert_eq. cbn. by rewrite insert_insert_eq.
Qed.
End udp.
