(* ===== verification/Listen.v ===== *)
(** * Listen: the listeners of a server

    [SocketServer::Init], [AddListener] and [Destroy]
    (common/network/SocketServer.cpp) on a heap of events, the queue of the
    event base they are added to (libevent/event.c) and the open descriptors.
    What the operating system and the allocator answer are arguments.  Reading
    or freeing an event that was freed is a crash. *)

From S2P Require Import Prelude Words.

(** What becomes of a listener: no socket, a socket that cannot be bound or
    listened on, no memory for the event, or a listener, its event added to the
    base or not. *)
Inductive listen_outcome := Lo_no_socket | Lo_no_bind (fd : Z) | Lo_no_event (fd : Z) | Lo_ok (fd : Z) (added : bool).

(** The server with its event base ([ls_queue]: its [eventqueue]), the events
    that are allocated, and the descriptors that are open. *)
Record listeners := mkLs {
  ls_base : bool;
  ls_fds : list Z;
  ls_events : list nat;
  ls_queue : list nat;
  ls_heap : gset nat;
  ls_open : gset Z
}.

Definition L (A : Type) : Type := listeners -> result (A * listeners).
#[export] Instance L_ret : MRet L := fun _ a s => Ret (a, s).
#[export] Instance L_bind : MBind L :=
  fun _ _ f m s => match m s with Ret (a, s') => f a s' | Crash => Crash | NoFuel => NoFuel end.
Definition lsee {A} (f : listeners -> A) : L A := fun s => Ret (f s, s).
Definition lset (f : listeners -> listeners) : L unit := fun s => Ret (tt, f s).
Definition lcrash {A} : L A := fun _ => Crash.
Fixpoint l_each {A} (l : list A) (f : A -> L unit) : L unit :=
  match l with [] => mret tt | x :: l => f x ;; l_each l f end.

Definition open_fd (fd : Z) : L unit :=
  lset (fun s => mkLs (ls_base s) (ls_fds s) (ls_events s) (ls_queue s) (ls_heap s) ({[fd]} ∪ ls_open s)).
Definition close_fd (fd : Z) : L unit :=
  lset (fun s => mkLs (ls_base s) (ls_fds s) (ls_events s) (ls_queue s) (ls_heap s) (ls_open s ∖ {[fd]})).
(** [event_new], and [event_add] when it works. *)
Definition new_event : L nat :=
  h ← lsee ls_heap;
  let e := fresh h in
  lset (fun s => mkLs (ls_base s) (ls_fds s) (ls_events s) (ls_queue s) ({[e]} ∪ h) (ls_open s)) ;; mret e.
Definition add_event (e : nat) : L unit :=
  lset (fun s => mkLs (ls_base s) (ls_fds s) (ls_events s) (ls_queue s ++ [e]) (ls_heap s) (ls_open s)).
(** [_MEM.Free] of an event. *)
Definition free_event (e : nat) : L unit :=
  h ← lsee ls_heap;
  if decide (e ∈ h) then lset (fun s => mkLs (ls_base s) (ls_fds s) (ls_events s) (ls_queue s) (h ∖ {[e]}) (ls_open s))
  else lcrash.

Definition AddListener (o : listen_outcome) : L bool :=
  match o with
  | Lo_no_socket => mret false
  | Lo_no_bind fd => open_fd fd ;; close_fd fd ;; mret false
  | Lo_no_event fd => open_fd fd ;; close_fd fd ;; mret false
  | Lo_ok fd added =>
      open_fd fd ;;
      e ← new_event;
      (if added then add_event e else mret tt) ;;
      lset (fun s => mkLs (ls_base s) (ls_fds s ++ [fd]) (ls_events s ++ [e]) (ls_queue s) (ls_heap s) (ls_open s)) ;;
      mret true
  end.

(** [event_base_free]: the events still in the queue are deleted from it, each
    after its successor was read from it. *)
Definition delete_queued (e : nat) : L unit :=
  h ← lsee ls_heap;
  if decide (e ∈ h) then lset (fun s => mkLs (ls_base s) (ls_fds s) (ls_events s) (filter (fun x => x <> e) (ls_queue s)) (ls_heap s) (ls_open s))
  else lcrash.
Definition event_base_free : L unit :=
  q ← lsee ls_queue; l_each q delete_queued.
(** [Destroy]; the worker has ended. *)
Definition Destroy : L unit :=
  fds ← lsee ls_fds;
  l_each fds close_fd ;;
  lset (fun s => mkLs (ls_base s) [] (ls_events s) (ls_queue s) (ls_heap s) (ls_open s)) ;;
  es ← lsee ls_events;
  l_each es free_event ;;
  lset (fun s => mkLs (ls_base s) (ls_fds s) [] (ls_queue s) (ls_heap s) (ls_open s)) ;;
  b ← lsee ls_base;
  if b : bool then event_base_free ;; lset (fun s => mkLs false (ls_fds s) (ls_events s) (ls_queue s) (ls_heap s) (ls_open s))
  else mret tt.

(** [event_base_new] and the [clear]s; [base]: there is memory for the base. *)
Definition init_base : L unit :=
  lset (fun s => mkLs true [] [] [] (ls_heap s) (ls_open s)).
Definition Init (base : bool) (o : listen_outcome) : L bool :=
  if base then
    init_base ;;
    ok ← AddListener o;
    if ok : bool then mret true else Destroy ;; mret false
  else lset (fun s => mkLs false (ls_fds s) (ls_events s) (ls_queue s) (ls_heap s) (ls_open s)) ;; mret false.
Definition Init_ports (base : bool) (os : list listen_outcome) : L bool :=
  match os with
  | [] => mret false
  | _ =>
      if base then init_base ;; l_each os (fun o => AddListener o ;; mret tt) ;; mret true
      else lset (fun s => mkLs false (ls_fds s) (ls_events s) (ls_queue s) (ls_heap s) (ls_open s)) ;; mret false
  end.

(** A server that was not started. *)
Definition idle (heap : gset nat) (open : gset Z) : listeners := mkLs false [] [] [] heap open.
(** The descriptor of an outcome is one that was not open. *)
Definition new_fd (open : gset Z) (o : listen_outcome) : Prop :=
  match o with Lo_no_socket => True | Lo_no_bind fd | Lo_no_event fd | Lo_ok fd _ => fd ∉ open end.

(** A start on one port that fails leaves nothing behind: every descriptor is
    closed again, the base is gone, and the server can be started anew. *)
Theorem failed_Init_leaves_nothing base o heap open : new_fd open o ->
  match Init base o (idle heap open) with
  | Ret (true, s) => exists fd, base = true /\ ls_fds s = [fd] /\ ls_open s = {[fd]} ∪ open /\ ls_base s = true
  | Ret (false, s) => s = idle heap open
  | _ => False
  end.
Proof.
  intros Hfd. destruct base; [|done]. assert (forall fd, fd ∉ open -> ({[fd]} ∪ open) ∖ {[fd]} = open) as Hback by set_solver.
  destruct o as [|fd|fd|fd [|]]; unfold Init, init_base, AddListener, open_fd, close_fd, new_event, add_event, Destroy, event_base_free, mbind, L_bind, lsee, lset, mret, L_ret; cbn in *; rewrite ?Hback by done; try done; by exists fd.
Qed.

Lemma lbind_eq {A B} (m : L A) (f : A -> L B) s a s' : m s = Ret (a, s') -> (m ≫= f) s = f a s'.
Proof. intros H. unfold mbind, L_bind. by rewrite H. Qed.
Lemma free_event_run e s : e ∈ ls_heap s ->
  free_event e s = Ret (tt, mkLs (ls_base s) (ls_fds s) (ls_events s) (ls_queue s) (ls_heap s ∖ {[e]}) (ls_open s)).
Proof. intros H. unfold free_event, mbind, L_bind, lsee. by rewrite decide_True. Qed.
Lemma delete_queued_gone e s : e ∉ ls_heap s -> delete_queued e s = Crash.
Proof. intros H. unfold delete_queued, mbind, L_bind, lsee. by rewrite decide_False. Qed.

(** Stopping a server reads freed memory.  [Destroy] frees the events of the
    listeners with [_MEM.Free] and without [event_del]; [event_base_free] then
    finds them in the queue of the base. *)
Theorem Destroy_reads_freed_event fd heap open :
  exists s, Init true (Lo_ok fd true) (idle heap open) = Ret (true, s) /\ Destroy s = Crash.
Proof.
  set (e := fresh heap). set (s := mkLs true [fd] [e] [e] ({[e]} ∪ heap) ({[fd]} ∪ open)). exists s. split; [done|].
  set (s1 := mkLs true [] [e] [e] ({[e]} ∪ heap) (({[fd]} ∪ open) ∖ {[fd]})). pose proof (free_event_run e s1 ltac:(unfold s1; cbn; set_solver)) as Hf.
  set (s2 := mkLs true [] [] [e] (({[e]} ∪ heap) ∖ {[e]}) (({[fd]} ∪ open) ∖ {[fd]})). pose proof (delete_queued_gone e s2 ltac:(unfold s2; cbn; set_solver)) as Hd.
  unfold Destroy. rewrite (lbind_eq _ _ s [fd] s), (lbind_eq _ _ s tt (mkLs true [fd] [e] [e] ({[e]} ∪ heap) (({[fd]} ∪ open) ∖ {[fd]}))), (lbind_eq _ _ _ tt s1), (lbind_eq _ _ s1 [e] s1) by done.
  erewrite lbind_eq; [|cbn [l_each]; by rewrite (lbind_eq _ _ _ _ _ Hf)]. rewrite (lbind_eq _ _ _ tt s2), (lbind_eq _ _ s2 true s2) by done.
  unfold event_base_free, mbind, L_bind, lsee. cbn [ls_queue s2 l_each]. unfold mbind, L_bind. by rewrite Hd.
Qed.
(** A start on several ports succeeds even when no port could be opened. *)
Theorem Init_ports_without_listener heap open :
  exists s, Init_ports true [Lo_no_socket; Lo_no_socket] (idle heap open) = Ret (true, s) /\ ls_fds s = [] /\ Destroy s = Ret (tt, idle heap open).
Proof. eexists. split; [reflexivity|]. done. Qed.
